(* ===== verification/_CoqProject ===== *)
-Q . S2P
Prelude.v
CString.v
Format.v
UserProgs.v
Draw.v
Core.v
Locking.v
LockSteps.v
Kalloc.v
Pipe.v
Bio.v
BioLaws.v
Log.v
LogSafety.v
Tx.v
Fs.v
FsProof.v
VgaData.v
Vga.v
VgaProof.v
KbdData.v
Console.v
ConsoleProof.v
Panic.v
File.v
Vm.v
VmProof.v
VmFree.v
Proc.v
ProcTable.v
ProcProof.v
ProcRun.v
Sh.v
ShProof.v
ShPrint.v
ShRun.v
Syscall.v
Exec.v
Sysfile.v
SysProof.v
FileRefs.v
Machine.v
MachineProof.v
Ide.v
IdeProof.v
Trap.v
Umalloc.v
UmallocProof.v
UmallocSafety.v
Mkfs.v
MkfsLayout.v
MkfsProof.v
MkfsImage.v
Boot.v
BootProof.v
ExecProof.v
Seg.v
SegProof.v
Asm.v
AsmProof.v
Main.v
MainProof.v
Cmds.v
CmdsProof.v
Kernel.v
Usertests.v
UsertestsProof.v
UsertestsRun.v
