(* ===== verification/Prelude.v ===== *)
(** * Verification of an xv6 kernel with VGA graphics

    The program is the x86 teaching kernel xv6, extended with system calls for VGA
    graphics and with programs that draw lines, and its user programs.  This library
    models the C code of the repository as executable definitions and proves the
    properties that make each part correct.

    ** The parts and the files that model them

    - Shared vocabulary ([Prelude], this file): machine integers with their wrap-around,
      the monad of kernel code, lenses, weakest preconditions, byte-addressed memory.
    - C strings ([CString]: string.c, half of ulib.c), formatted output ([Format]: printint,
      cprintf and printf of console.c and printf.c), user programs ([UserProgs]: grep.c,
      wc.c, cat.c; [Draw]: cutinto8.c, cutinto4.c, draw.c, drawlines.c).
    - CPUs, spin locks, sleep and wakeup ([Core]: spinlock.c and half of proc.c), sleep
      locks ([Locking]: sleeplock.c), and several CPUs that run the code of [Core] piece by
      piece, for locks and for wakeups ([LockSteps]).
    - Physical pages ([Kalloc]: kalloc.c), page tables ([Vm], proofs in [VmProof] and
      [VmFree]: vm.c).
    - Blocks ([Bio], [BioLaws]: bio.c, memide.c), the interrupt-driven disk driver ([Ide],
      [IdeProof]: ide.c), the log ([Log], [LogSafety]: log.c), the interface of the log to
      the file system ([Tx]), the file system ([Fs], [FsProof]: fs.c), and the program of the
      host that writes the first disk ([Mkfs]: mkfs.c; the layout of the disk it fills in
      [MkfsLayout], its operations in [MkfsProof], the image in [MkfsImage]).
    - Pipes ([Pipe]: pipe.c), open files ([File]: file.c, pipealloc), processes ([Proc]:
      proc.c; the state machine of the process table in [ProcTable], the single operations in
      [ProcProof], the kernel that runs them in [ProcRun]), program loading ([Exec], [ExecProof]: exec.c).
    - System calls ([Syscall]: arguments of syscall.c, sysproc.c, sysvideo.c; [Sysfile]:
      sysfile.c; proofs in [SysProof] and [FileRefs]), traps and dispatch ([Trap]: trap.c and
      the table of syscall.c).
    - The display ([VgaData], [Vga], [VgaProof]: the VGA half of console.c), the console,
      keyboard and serial port ([KbdData], [Console], [ConsoleProof]: console.c, kbd.c,
      uart.c), panics ([Panic]: panic of console.c, getcallerpcs of spinlock.c), interrupt controllers, clock chip and processor discovery ([Machine],
      [MachineProof]: lapic.c, ioapic.c, picirq.c, mp.c).
    - Start and protection: the boot loader ([Boot], [BootProof]: bootmain.c), segments, task
      state and interrupt gates ([Seg], [SegProof]: mmu.h, seginit and switchuvm of vm.c,
      tvinit and idtinit of trap.c), the sequence of initialisations and the start of the other
      CPUs ([Main], [MainProof]: main.c), and the assembly of context switches, traps and system
      calls ([Asm], [AsmProof]: swtch.S, trapasm.S, vectors.pl, usys.S, initcode.S).
    - The commands as interaction trees of system calls ([Cmds], [CmdsProof]: echo.c, ls.c,
      init.c, forktest.c, ... and the mains of cat.c, wc.c and grep.c).
    - All of the kernel on one concrete state, with programs running on it ([Kernel]), and the
      tests of one process ([Usertests]: usertests.c) run there ([UsertestsRun]); tests with more
      processes in worlds of their own ([UsertestsProof]).
    - The shell ([Sh]: sh.c; the parser in [ShProof] and [ShPrint], execution in [ShRun]), the
      allocator of user programs ([Umalloc], its free list in [UmallocProof], the programs
      that use it in [UmallocSafety]: umalloc.c).

    ** How code becomes definitions

    A kernel function is a computation [M S A]: from a state to an outcome, which returns,
    panics, spins for ever, or goes to sleep with the rest of the computation as a
    continuation.  A component does not know the whole state: it works in any state [S]
    with a lens to its own record ([Lens S core], [Lens S icache], ...), and the components
    it calls are behind type classes: [PageAlloc] (the allocator, for page tables, pipes and
    processes), [BlockLayer] (the cache, for the log), [TxLayer] and [TxBounds] (the log, for
    the file system and for files), [IdeDriver], [Display] and [Interrupts].  The classes of
    laws ([PageAllocLaws], [BlockLaws], [TxLaws], ...) say what a client may rely on; the
    component's own theorems discharge them.

    Pointers to processes, files, inodes and buffers are indices of their tables; page
    addresses and user addresses are numbers, and memory is a map from addresses to bytes.
    Dereferencing the null pointer in the kernel is a page fault, on which [trap] panics.
    Fields keep their names up to a prefix; an integer keeps its width through [u8], [u16],
    [u32], [s16], [s32] at the places where the code can wrap.

    Loops that are not structural take fuel.  Where the number of rounds is bounded by the
    data (bytes left, pages, table entries) the fuel is that bound, and the theorems show
    the result, not only what holds if one is returned.  Waiting loops take a bound [wf] on
    the wakeups or polls; beyond it the computation spins, as the code would.

    Interference: between two sleeps a kernel thread runs with the state to itself, except
    where a theorem is about interleavings.  [LockSteps] cuts [acquire] and [release] at every
    access to the lock, and [sleep], [sched], [wakeup] and the scheduler at every lock
    operation and every access to the process table; equations state that the pieces make up
    the definitions of [Core], and a step of its machines runs one piece on one of any number
    of CPUs.  There each process stays on its CPU, and a CPU whose process sleeps looks
    for it again and again.  In [ProcRun] the processes and the scheduler take turns at every
    [Sleep] outcome, with any changes of private fields in between.  Pipes and the console
    let the environment act at every sleep (relation [runs]), and the crash theorems of
    [LogSafety] cut the execution after any block write.

    ** What the theorems show

    - Crash safety: a commit is all or nothing, recovery is idempotent ([LogSafety]); the
      disk driver serves its queue in order ([IdeProof]); the cache returns the current
      contents of a block and writes it through ([BioLaws]).
    - Concurrency: mutual exclusion of spin locks, no lost wakeup ([LockSteps]), pipes lose,
      duplicate and reorder nothing ([Pipe]).
    - Memory: the allocator is a stack of distinct pages ([Kalloc]), [mappages] makes exactly
      the requested translations ([VmProof]), [freevm] gives back every page once ([VmFree]), and
      [exec] passes the arguments on the new stack or refuses them ([ExecProof]).
    - Processes: [kill], [wakeup] and [allocproc] do what they should, [exit] hands over its
      children and never returns, [wait] reaps or sleeps ([ProcProof]); however processes and the
      scheduler call the operations of proc.c, the process table goes through the life cycle
      of processes only and stays well formed ([ProcRun]; [exit] there from its [acquire] on,
      after the files are closed).
    - Files: written bytes read back, blocks are allocated once, the inode cache has one entry
      per inode ([FsProof]); the image that mkfs writes is one the kernel reads these files from
      ([MkfsImage]); reference counts of open files are exact ([FileRefs]); arguments
      of system calls are checked ([SysProof]).
    - Devices: the terminal of the display, text printed in graphics modes, line editing
      ([VgaProof], [ConsoleProof]); reading of the processor table ([MachineProof]).
    - Start and protection: the boot loader puts the segments of the kernel file where they
      belong ([BootProof]); user code enters the kernel through one gate only, on the kernel
      stack of its process ([SegProof]); every other CPU is started on a stack of its own
      that its first page table maps ([MainProof]); a trap returns to the interrupted program
      with its registers, a context switch to the thread that left, a new process to its trap
      frame ([AsmProof]).
    - User code: the shell parses what it prints, runs command lines with the right descriptors
      and waits, and no pipe end stays open ([ShPrint], [ShRun]); blocks from [malloc] are disjoint and keep their contents, and no
      memory is lost ([UmallocSafety]); grep matches its patterns, lines are drawn as they should be; [ls]
      lists a directory, [init] keeps a shell running, [forktest] passes ([CmdsProof]); [pipe1]
      accepts exactly the bytes that its child sends ([UsertestsProof]).
    - The composition: one run of the kernel as a whole, from the trap down to the disk, through
      the tests of usertests.c that need one process, ends with their messages of success
      ([UsertestsRun]); it is a computation, in which the longest loops of the tests have fewer
      turns.

    Where the code does not do what it means to, a theorem states what it does: a [kill] of
    process 0 poisons a free slot ([ProcProof]), an unknown entry makes [mpinit] loop
    ([MachineProof]), a short read makes grep lose a line ([UserProgs]), [writetest1] does not
    notice a file that has lost its blocks ([UsertestsProof]).

    ** Hardware

    The VGA adapter, the ATA disk, ports and memory-mapped registers are parameters with the
    documented behaviour as laws ([VgaLaws], [AtaLaws]) and a concrete device that has them;
    the page walk of the processor is [Syscall.uaddr], its reading of descriptors [Seg.seg_of] and
    [Seg.int_n], its instructions, interrupts and [iret] are [Asm.exec], [Asm.deliver] and [Asm.iret].

    ** Not modelled

    The assembly of the start (bootasm.S, entry.S, entryother.S; what entryother.S reads is
    [Main.entryother]), and the tests of usertests.c on user memory and on files shared by
    processes, whose runs would need a schedule of the processes.
    Console messages are left out where the code only reports. *)

From stdpp Require Import base gmap list strings.
From Stdlib Require Import ZArith Lia.

#[global] Open Scope Z_scope.

(** ** Machine integers

    A C object of an integer type is a [Z]; the width shows in the wrap-around
    functions.  [uchar], [ushort] and [uint] are unsigned, [char], [short] and
    [int] are two's complement. *)

Definition u8 (z : Z) : Z := z mod 2 ^ 8.
Definition u16 (z : Z) : Z := z mod 2 ^ 16.
Definition u32 (z : Z) : Z := z mod 2 ^ 32.
Definition s8 (z : Z) : Z := (z + 2 ^ 7) mod 2 ^ 8 - 2 ^ 7.
Definition s16 (z : Z) : Z := (z + 2 ^ 15) mod 2 ^ 16 - 2 ^ 15.
Definition s32 (z : Z) : Z := (z + 2 ^ 31) mod 2 ^ 32 - 2 ^ 31.

Declare Scope cint_scope.
Delimit Scope cint_scope with cint.
Notation "x +u y" := (u32 (x + y)) (at level 50, left associativity) : cint_scope.
Notation "x -u y" := (u32 (x - y)) (at level 50, left associativity) : cint_scope.
Notation "x *u y" := (u32 (x * y)) (at level 40, left associativity) : cint_scope.
#[global] Open Scope cint_scope.

(** ** Character constants of the C sources, as byte values *)

Definition ch_nul : Z := 0.
Definition ch_tab : Z := 9.
Definition ch_nl : Z := 10.
Definition ch_vt : Z := 11.
Definition ch_cr : Z := 13.
Definition ch_space : Z := 32.

(** A C string literal, as the list of its bytes without the final NUL. *)
Fixpoint bytes_of_string (s : string) : list Z :=
  match s with
  | EmptyString => []
  | String c s' => Z.of_N (Ascii.N_of_ascii c) :: bytes_of_string s'
  end.

(** ** Outcomes

    Kernel code threads a state.  It returns, or it panics, or it spins on a
    lock that another CPU holds, or it goes to sleep on a channel: then the
    outcome carries the state at that moment and the rest of the computation,
    which goes on from the state in which the process is resumed. *)

Inductive chan : Type :=
| ch_none                 (* the null channel *)
| ch_proc (p : nat)       (* a struct proc, in wait() *)
| ch_ticks | ch_log | ch_input
| ch_buf (b : nat)        (* a struct buf, in iderw() *)
| ch_slock (l : Z)        (* a sleep lock *)
| ch_piper (p : Z) | ch_pipew (p : Z).

#[export] Instance chan_eq_dec : EqDecision chan.
Proof. solve_decision. Defined.

Inductive outcome (S A : Type) : Type :=
| Ret (a : A) (s : S)
| Panic (msg : string) (s : S)
| Spin (s : S)
| Sleep (c : chan) (s : S) (k : S -> outcome S A).
Arguments Ret {S A} _ _.
Arguments Panic {S A} _ _.
Arguments Spin {S A} _.
Arguments Sleep {S A} _ _ _.

Fixpoint obind {S A B} (o : outcome S A) (f : A -> S -> outcome S B) : outcome S B :=
  match o with
  | Ret a s => f a s
  | Panic e s => Panic e s
  | Spin s => Spin s
  | Sleep c s k => Sleep c s (fun s' => obind (k s') f)
  end.

Definition M (S A : Type) : Type := S -> outcome S A.

#[export] Instance M_ret S : MRet (M S) := fun A a s => Ret a s.
#[export] Instance M_bind S : MBind (M S) := fun A B f m s => obind (m s) f.

Definition panic {S A} (msg : string) : M S A := fun s => Panic msg s.
Definition spin {S A} : M S A := fun s => Spin s.
Definition gets {S A} (f : S -> A) : M S A := fun s => Ret (f s) s.
Definition modify {S} (f : S -> S) : M S unit := fun s => Ret tt (f s).

(** The loops of the sources over a list of items, in order. *)
Fixpoint for_each {S A} (f : A -> M S unit) (l : list A) : M S unit :=
  match l with
  | [] => mret tt
  | x :: l' => f x ;; for_each f l'
  end.

Lemma bind_ret {S A B} (m : M S A) (f : A -> M S B) s a s' :
  m s = Ret a s' -> (m ≫= f) s = f a s'.
Proof. intros H. unfold mbind, M_bind. by rewrite H. Qed.

Lemma bind_panic {S A B} (m : M S A) (f : A -> M S B) s e s' :
  m s = Panic e s' -> (m ≫= f) s = Panic e s'.
Proof. intros H. unfold mbind, M_bind. by rewrite H. Qed.

Lemma bind_sleep {S A B} (m : M S A) (f : A -> M S B) s c s1 k :
  m s = Sleep c s1 k -> (m ≫= f) s = Sleep c s1 (fun s' => obind (k s') f).
Proof. intros H. unfold mbind, M_bind. by rewrite H. Qed.

Lemma bind_ret_inv {S A B} (m : M S A) (f : A -> M S B) s b s' :
  (m ≫= f) s = Ret b s' -> exists a s1, m s = Ret a s1 /\ f a s1 = Ret b s'.
Proof. unfold mbind, M_bind. destruct (m s); simpl; naive_solver. Qed.

(** *** Components of a state

    A component works on its own record [T]; [Lens S T] says where it lives in
    the state [S] of a larger system. *)

Class Lens (S T : Type) : Type := { lget : S -> T; lset : T -> S -> S }.

Class LensOk (S T : Type) `{Lens S T} : Prop := {
  lget_lset (t : T) (s : S) : lget (lset t s) = t;
  lset_lset (t t' : T) (s : S) : lset t (lset t' s) = lset t s;
  lset_lget (s : S) : lset (lget s) s = s
}.

(** Two components that do not overlap. *)
Class LensSep (S T U : Type) `{Lens S T} `{Lens S U} : Prop := {
  lsep_l (u : U) (s : S) : lget (T := T) (lset u s) = lget s;
  lsep_r (t : T) (s : S) : lget (T := U) (lset t s) = lget s
}.

#[export] Instance lens_id S : Lens S S := {| lget s := s; lset t _ := t |}.
#[export] Instance lens_id_ok S : LensOk S S.
Proof. by split. Qed.

(** A component of a component. *)
Definition lens_comp {S T U} `{Lens S T} `{Lens T U} : Lens S U :=
  {| lget s := lget (lget (T := T) s); lset u s := lset (lset u (lget (T := T) s)) s |}.
Lemma lens_comp_ok {S T U} `{LensOk S T} `{LensOk T U} : LensOk S U (H := lens_comp (T := T)).
Proof.
  split; intros; simpl; [by rewrite !lget_lset | by rewrite lset_lset, lget_lset, lset_lset |].
  by rewrite !lset_lget.
Qed.

(** A state built as a tuple has its parts as components. *)
#[export] Instance lens_fst {A B T} `{Lens A T} : Lens (A * B) T :=
  {| lget s := lget s.1; lset t s := (lset t s.1, s.2) |}.
#[export] Instance lens_snd {A B T} `{Lens B T} : Lens (A * B) T :=
  {| lget s := lget s.2; lset t s := (s.1, lset t s.2) |}.
#[export] Instance lens_fst_ok {A B T} `{LensOk A T} : LensOk (A * B) T.
Proof.
  split; intros; simpl; [apply lget_lset | by rewrite lset_lset |].
  rewrite lset_lget. by destruct s.
Qed.
#[export] Instance lens_snd_ok {A B T} `{LensOk B T} : LensOk (A * B) T.
Proof.
  split; intros; simpl; [apply lget_lset | by rewrite lset_lset |].
  rewrite lset_lget. by destruct s.
Qed.
#[export] Instance sep_fst {A B T U} `{LensSep A T U} : LensSep (A * B) T U.
Proof. split; intros; simpl; [apply lsep_l | apply lsep_r]. Qed.
#[export] Instance sep_snd {A B T U} `{LensSep B T U} : LensSep (A * B) T U.
Proof. split; intros; simpl; [apply lsep_l | apply lsep_r]. Qed.
#[export] Instance sep_fst_snd {A B T U} `{Lens A T} `{Lens B U} : LensSep (A * B) T U.
Proof. by split. Qed.
#[export] Instance sep_snd_fst {A B T U} `{Lens B T} `{Lens A U} : LensSep (A * B) T U.
Proof. by split. Qed.

Definition lgets {S T A} `{Lens S T} (f : T -> A) : M S A := fun s => Ret (f (lget s)) s.
Definition lmod {S T} `{Lens S T} (f : T -> T) : M S unit := fun s => Ret tt (lset (f (lget s)) s).

(** *** Total correctness: the computation returns, and the result satisfies a
    postcondition. *)

Definition wp {S A} (m : M S A) (s : S) (Q : A -> S -> Prop) : Prop :=
  exists a s', m s = Ret a s' /\ Q a s'.

Lemma wp_ret {S A} (a : A) (s : S) (Q : A -> S -> Prop) : Q a s -> wp (mret a) s Q.
Proof. intros. by exists a, s. Qed.
Lemma wp_bind {S A B} (m : M S A) (f : A -> M S B) s (Q : B -> S -> Prop) :
  wp m s (fun a s' => wp (f a) s' Q) -> wp (m ≫= f) s Q.
Proof.
  intros (a & s1 & H1 & b & s2 & H2 & HQ). exists b, s2. split; [|done].
  by rewrite (bind_ret _ _ _ _ _ H1).
Qed.
(** A property of the whole run, after a first part that returns. *)
Lemma wp_lead {S A B} (G : outcome S B -> Prop) (m : M S A) (f : A -> M S B) s :
  wp m s (fun a s' => G (f a s')) -> G ((m ≫= f) s).
Proof. intros (a & s1 & H & HG). by rewrite (bind_ret _ _ _ _ _ H). Qed.
Lemma wp_conseq {S A} (m : M S A) s (P Q : A -> S -> Prop) :
  wp m s P -> (forall a s', P a s' -> Q a s') -> wp m s Q.
Proof. intros (a & s' & H & HP) HPQ. exists a, s'. auto. Qed.
Lemma wp_gets {S A} (f : S -> A) (s : S) (Q : A -> S -> Prop) : Q (f s) s -> wp (gets f) s Q.
Proof. intros. by exists (f s), s. Qed.
Lemma wp_modify {S} (f : S -> S) (s : S) (Q : unit -> S -> Prop) : Q tt (f s) -> wp (modify f) s Q.
Proof. intros. by exists tt, (f s). Qed.
Lemma wp_lgets {S T A} `{Lens S T} (f : T -> A) (s : S) (Q : A -> S -> Prop) :
  Q (f (lget s)) s -> wp (lgets f) s Q.
Proof. intros. by exists (f (lget s)), s. Qed.
Lemma wp_lmod {S T} `{Lens S T} (f : T -> T) (s : S) (Q : unit -> S -> Prop) :
  Q tt (lset (f (lget s)) s) -> wp (lmod f) s Q.
Proof. intros. by exists tt, (lset (f (lget s)) s). Qed.
Lemma wp_eq {S A} (m : M S A) s (Q : A -> S -> Prop) a s' :
  wp m s Q -> m s = Ret a s' -> Q a s'.
Proof. intros (a' & s1 & H & HQ) H'. rewrite H in H'. by injection H' as -> ->. Qed.

(** A counting loop, by an invariant. *)
Lemma wp_for_seq {S} (f : nat -> M S unit) (I : nat -> S -> Prop) n : forall k s (Q : unit -> S -> Prop),
  I k s ->
  (forall j s1, (k <= j < k + n)%nat -> I j s1 -> wp (f j) s1 (fun _ s2 => I (Datatypes.S j) s2)) ->
  (forall s1, I (k + n)%nat s1 -> Q tt s1) -> wp (for_each f (seq k n)) s Q.
Proof.
  induction n as [|n IH]; intros k s Q Hi Hstep HQ; cbn [seq for_each].
  - apply wp_ret, HQ. by rewrite Nat.add_0_r.
  - apply wp_bind. eapply wp_conseq; [apply Hstep; [lia | done]|]. intros [] s1 H1. apply (IH _ s1); [done | |].
    + intros j s2 Hj. apply Hstep. lia.
    + intros s2 H2. apply HQ. by replace (k + Datatypes.S n)%nat with (Datatypes.S k + n)%nat by lia.
Qed.

(** Run a computation of a component inside a larger system. *)
Fixpoint zoom_out {S T A} `{Lens S T} (s : S) (o : outcome T A) : outcome S A :=
  match o with
  | Ret a t => Ret a (lset t s)
  | Panic e t => Panic e (lset t s)
  | Spin t => Spin (lset t s)
  | Sleep c t k => Sleep c (lset t s) (fun s' => zoom_out s' (k (lget s')))
  end.
Definition zoom {S T A} `{Lens S T} (m : M T A) : M S A := fun s => zoom_out s (m (lget s)).

Lemma wp_zoom {S T A} `{Lens S T} (m : M T A) (s : S) (Q : A -> S -> Prop) :
  wp m (lget s) (fun a t => Q a (lset t s)) -> wp (zoom m) s Q.
Proof. intros (a & t & E & HQ). exists a, (lset t s). unfold zoom. by rewrite E. Qed.

(** Step over the primitives at the head of a computation; definitions are left
    folded. *)
Ltac wp_prim :=
  lazymatch goal with
  | |- wp (mbind _ _) _ _ => apply wp_bind
  | |- wp (mret _) _ _ => apply wp_ret
  | |- wp (lgets _) _ _ => apply wp_lgets
  | |- wp (lmod _) _ _ => apply wp_lmod
  | |- wp (gets _) _ _ => apply wp_gets
  | |- wp (modify _) _ _ => apply wp_modify
  end.
Ltac wp_step := repeat (wp_prim; cbv beta).

(** ** Transition sequences *)

Inductive star {S : Type} (R : S -> S -> Prop) : S -> S -> Prop :=
| star_refl s : star R s s
| star_step s1 s2 s3 : R s1 s2 -> star R s2 s3 -> star R s1 s3.

Lemma star_invariant {S} (R : S -> S -> Prop) (I : S -> Prop) :
  (forall s s', I s -> R s s' -> I s') ->
  forall s s', star R s s' -> I s -> I s'.
Proof. intros HI s s'. induction 1; eauto. Qed.

Lemma star_snoc {S} (R : S -> S -> Prop) s1 s2 s3 :
  star R s1 s2 -> R s2 s3 -> star R s1 s3.
Proof. induction 1; eauto using star. Qed.

Lemma star_trans {S} (R : S -> S -> Prop) s1 s2 s3 :
  star R s1 s2 -> star R s2 s3 -> star R s1 s3.
Proof. induction 1; eauto using star. Qed.

(** *** Executions with interference

    [runs E o t a s]: the computation [o] returns [a] in state [s], where each time
    it sleeps the environment takes the state from [s1] to some [s2] with
    [E s1 s2 t'] before the process goes on; [t] collects the labels [t']. *)
Inductive runs {S A T : Type} (E : S -> S -> list T -> Prop) :
  outcome S A -> list T -> A -> S -> Prop :=
| runs_ret a s : runs E (Ret a s) [] a s
| runs_sleep c s1 k s2 t' t a s :
    E s1 s2 t' -> runs E (k s2) t a s -> runs E (Sleep c s1 k) (t' ++ t) a s.

Lemma runs_bind {S A B T} (E : S -> S -> list T -> Prop) (m : M S A) (f : A -> M S B) s t b sf :
  runs E ((m ≫= f) s) t b sf ->
  exists t1 a s1 t2, runs E (m s) t1 a s1 /\ runs E (f a s1) t2 b sf /\ t = t1 ++ t2.
Proof.
  unfold mbind, M_bind. generalize (m s). intros o. revert t.
  induction o as [a s1|e s1|s1|c s1 k IH]; simpl; intros t Hr.
  - eexists [], a, s1, t. split_and!; [constructor | done | done].
  - inversion Hr.
  - inversion Hr.
  - inversion Hr as [|? ? ? s2 t' t0 ? ? HE Hk]; subst.
    apply IH in Hk as (t1 & a & s3 & t2 & H1 & H2 & ->).
    eexists (t' ++ t1), a, s3, t2. split_and!; [by econstructor | done | by rewrite app_assoc].
Qed.

Lemma runs_ret_inv {S A T} (E : S -> S -> list T -> Prop) (a : A) s t b sf :
  runs E (Ret a s) t b sf -> t = [] /\ b = a /\ sf = s.
Proof. by inversion 1. Qed.

Lemma runs_wp {S A T} (E : S -> S -> list T -> Prop) (m : M S A) s t b sf Q :
  runs E (m s) t b sf -> wp m s Q -> t = [] /\ Q b sf.
Proof. intros Hr (a & s' & Hm & HQ). rewrite Hm in Hr. by apply runs_ret_inv in Hr as (-> & -> & ->). Qed.

(** ** Arithmetic shared by the components *)

Create HintDb cint.
Create Rewrite HintDb cint.
Create Rewrite HintDb zlist.
Create Rewrite HintDb lens.
#[export] Hint Rewrite @lget_lset @lset_lset @lset_lget using (typeclasses eauto) : lens.

Lemma u8_small z : 0 <= z < 256 -> u8 z = z.
Proof. apply Z.mod_small. Qed.
Lemma u8_range z : 0 <= u8 z < 256.
Proof. apply Z.mod_pos_bound. lia. Qed.
Lemma u16_small z : 0 <= z < 2 ^ 16 -> u16 z = z.
Proof. apply Z.mod_small. Qed.
Lemma u16_range z : 0 <= u16 z < 2 ^ 16.
Proof. apply Z.mod_pos_bound. lia. Qed.
Lemma u32_small z : 0 <= z < 2 ^ 32 -> u32 z = z.
Proof. apply Z.mod_small. Qed.
Lemma u32_range z : 0 <= u32 z < 2 ^ 32.
Proof. apply Z.mod_pos_bound. lia. Qed.
Lemma s32_small z : - 2 ^ 31 <= z < 2 ^ 31 -> s32 z = z.
Proof. unfold s32. intros. rewrite Z.mod_small; lia. Qed.
Lemma s32_range z : - 2 ^ 31 <= s32 z < 2 ^ 31.
Proof. unfold s32. pose proof (Z.mod_pos_bound (z + 2 ^ 31) (2 ^ 32)). lia. Qed.
Lemma u32_add_l a b : u32 (u32 a + b) = u32 (a + b).
Proof. unfold u32. apply Zplus_mod_idemp_l. Qed.
Lemma u32_add_r a b : u32 (a + u32 b) = u32 (a + b).
Proof. unfold u32. apply Zplus_mod_idemp_r. Qed.
Lemma u32_sub_l a b : u32 (u32 a - b) = u32 (a - b).
Proof. unfold u32. apply Zminus_mod_idemp_l. Qed.
Lemma u32_sub_r a b : u32 (a - u32 b) = u32 (a - b).
Proof. unfold u32. apply Zminus_mod_idemp_r. Qed.
Lemma u32_u32 a : u32 (u32 a) = u32 a.
Proof. unfold u32. apply Z.mod_mod. lia. Qed.
Lemma u8_u8 a : u8 (u8 a) = u8 a.
Proof. unfold u8. apply Z.mod_mod. lia. Qed.

(** Bit fields: a value of [k] bits beside a shifted one. *)
Lemma lor_shiftl_add a b k : 0 <= k -> 0 <= b < 2 ^ k -> Z.lor (Z.shiftl a k) b = a * 2 ^ k + b.
Proof.
  intros Hk Hb.
  assert (Hl : Z.land (Z.shiftl a k) b = 0).
  { apply Z.bits_inj'. intros n Hn. rewrite Z.land_spec, Z.bits_0.
    destruct (Z.lt_ge_cases n k); [by rewrite Z.shiftl_spec_low|].
    replace (Z.testbit b n) with false; [apply andb_false_r|]. symmetry.
    destruct (Z.eq_dec b 0) as [->|]; [apply Z.bits_0|].
    apply Z.bits_above_log2; [lia|]. apply Z.log2_lt_pow2; [lia|].
    pose proof (Z.pow_le_mono_r 2 k n ltac:(lia) ltac:(lia)). lia. }
  rewrite <- Z.lxor_lor, <- Z.add_nocarry_lxor, Z.shiftl_mul_pow2 by done. done.
Qed.
Lemma land_ff a : Z.land a 0xff = u8 a.
Proof. change 0xff with (Z.ones 8). by rewrite Z.land_ones. Qed.

#[export] Hint Resolve u8_range u16_range u32_range s32_range : cint.
#[export] Hint Rewrite u32_add_l u32_add_r u32_sub_l u32_sub_r u32_u32 u8_u8 : cint.

(** Close a goal about wrapped integers by unfolding the wraps and letting
    [lia] reason about the remainders. *)
Ltac zwrap :=
  unfold u8, u16, u32, s8, s16, s32 in *; Z.to_euclidean_division_equations; lia.

(** Case analysis on the boolean comparison at the head of a goal. *)
Ltac case_bool :=
  match goal with
  | |- context [if ?b then _ else _] => destruct b eqn:?
  | H : context [if ?b then _ else _] |- _ => destruct b eqn:?
  end.

(** Turn boolean comparisons of the context into propositions. *)
Ltac zbool :=
  repeat match goal with
  | H : andb _ _ = true |- _ => apply andb_true_iff in H as [? ?]
  | H : andb _ _ = false |- _ => apply andb_false_iff in H
  | H : orb _ _ = true |- _ => apply orb_true_iff in H
  | H : orb _ _ = false |- _ => apply orb_false_iff in H as [? ?]
  | H : negb _ = true |- _ => apply negb_true_iff in H
  | H : negb _ = false |- _ => apply negb_false_iff in H
  | H : _ = true \/ _ = true |- _ => destruct H
  | H : _ = false \/ _ = false |- _ => destruct H
  | H : (_ =? _) = true |- _ => apply Z.eqb_eq in H
  | H : (_ =? _) = false |- _ => apply Z.eqb_neq in H
  | H : (_ <? _) = true |- _ => apply Z.ltb_lt in H
  | H : (_ <? _) = false |- _ => apply Z.ltb_ge in H
  | H : (_ <=? _) = true |- _ => apply Z.leb_le in H
  | H : (_ <=? _) = false |- _ => apply Z.leb_gt in H
  end.

(** Split every conditional on integer comparisons, then close by arithmetic. *)
Ltac zcases :=
  repeat case_bool; zbool; first [ lia | done | congruence ].

(** ** Lists indexed by [Z] *)

(** [zget d l i] is [l[i]], and [d] outside of [l]. *)
Definition zget {A} (d : A) (l : list A) (i : Z) : A :=
  if i <? 0 then d else default d (l !! Z.to_nat i).

Definition zset {A} (l : list A) (i : Z) (x : A) : list A :=
  if i <? 0 then l else <[Z.to_nat i := x]> l.

Definition zlen {A} (l : list A) : Z := Z.of_nat (length l).

Lemma zset_length {A} (l : list A) i x : length (zset l i x) = length l.
Proof. unfold zset. case_bool; [done|]. apply length_insert. Qed.

Lemma zset_Forall {A} (P : A -> Prop) l i x : Forall P l -> P x -> Forall P (zset l i x).
Proof. intros Hl Hx. unfold zset. case_bool; [done|]. by apply Forall_insert. Qed.

Lemma zget_zset_eq {A} (d : A) l i x :
  0 <= i < zlen l -> zget d (zset l i x) i = x.
Proof.
  unfold zget, zset, zlen. intros [H1 H2].
  destruct (i <? 0) eqn:E; zbool; [lia|].
  rewrite list_lookup_insert_eq; [done|lia].
Qed.

Lemma zget_zset_ne {A} (d : A) l i j x :
  i <> j -> zget d (zset l i x) j = zget d l j.
Proof.
  unfold zget, zset. intros H.
  destruct (j <? 0) eqn:E1; [done|]. destruct (i <? 0) eqn:E2; [done|]. zbool.
  rewrite list_lookup_insert_ne; [done|lia].
Qed.

Lemma zget_out {A} (d : A) l i : i < 0 \/ zlen l <= i -> zget d l i = d.
Proof.
  unfold zget, zlen. intros H. case_bool; [done|]. zbool.
  rewrite lookup_ge_None_2; [done|lia].
Qed.

Lemma list_eq_zget {A} (d : A) (l1 l2 : list A) :
  length l1 = length l2 ->
  (forall i, 0 <= i < zlen l1 -> zget d l1 i = zget d l2 i) -> l1 = l2.
Proof.
  intros Hl H. apply list_eq_same_length with (length l1); [done|done|].
  intros i x y Hi Hx Hy. specialize (H (Z.of_nat i)). unfold zget, zlen in H.
  destruct (Z.of_nat i <? 0) eqn:E; zbool; [lia|].
  rewrite Nat2Z.id, Hx, Hy in H. simpl in H. apply H. lia.
Qed.

Lemma zlen_app {A} (l1 l2 : list A) : zlen (l1 ++ l2) = zlen l1 + zlen l2.
Proof. unfold zlen. rewrite length_app. lia. Qed.
Lemma zlen_cons {A} (x : A) l : zlen (x :: l) = zlen l + 1.
Proof. unfold zlen. simpl. lia. Qed.
Lemma zlen_nonneg {A} (l : list A) : 0 <= zlen l.
Proof. unfold zlen. lia. Qed.

Lemma zget_app_l {A} (d : A) l1 l2 i : i < zlen l1 -> zget d (l1 ++ l2) i = zget d l1 i.
Proof.
  unfold zget, zlen. intros. case_bool; [done|]. zbool. by rewrite lookup_app_l by lia.
Qed.
Lemma zget_snoc {A} (d : A) l x : zget d (l ++ [x]) (zlen l) = x.
Proof.
  unfold zget, zlen. case_bool; zbool; [lia|]. rewrite lookup_app_r by lia.
  by rewrite Nat2Z.id, Nat.sub_diag.
Qed.
Lemma zget_cons_S {A} (d : A) l x i : 0 <= i -> zget d (x :: l) (i + 1) = zget d l i.
Proof.
  unfold zget. intros. repeat case_bool; zbool; try lia.
  replace (Z.to_nat (i + 1)) with (Datatypes.S (Z.to_nat i)) by lia. done.
Qed.

#[export] Hint Rewrite @zset_length @zlen_app @zlen_cons : zlist.

(** *** Functions updated at a point *)

Definition fupd {A} (a : Z) (v : A) (f : Z -> A) : Z -> A :=
  fun x => if decide (x = a) then v else f x.

Lemma fupd_eq {A} a (v : A) f : fupd a v f a = v.
Proof. unfold fupd. by rewrite decide_True. Qed.
Lemma fupd_ne {A} a (v : A) f x : x <> a -> fupd a v f x = f x.
Proof. intros. unfold fupd. by rewrite decide_False. Qed.
Lemma fupd_same {A} a (f : Z -> A) x : fupd a (f a) f x = f x.
Proof. unfold fupd. by case_decide; subst. Qed.

(** *** Little-endian words in a block of bytes *)

Definition get32 (d : list Z) (o : Z) : Z :=
  zget 0 d o + 2 ^ 8 * zget 0 d (o + 1) + 2 ^ 16 * zget 0 d (o + 2) + 2 ^ 24 * zget 0 d (o + 3).
Definition put32 (d : list Z) (o : Z) (v : Z) : list Z :=
  zset (zset (zset (zset d o (u8 v)) (o + 1) (u8 (v / 2 ^ 8))) (o + 2) (u8 (v / 2 ^ 16)))
    (o + 3) (u8 (v / 2 ^ 24)).

Lemma put32_length d o v : length (put32 d o v) = length d.
Proof. unfold put32. by rewrite !zset_length. Qed.
Lemma zget_put32_ne d o v i : i < o \/ o + 4 <= i -> zget 0 (put32 d o v) i = zget 0 d i.
Proof. intros. unfold put32. by rewrite !zget_zset_ne by lia. Qed.
Lemma get32_put32_ne d o v p : p + 4 <= o \/ o + 4 <= p -> get32 (put32 d o v) p = get32 d p.
Proof. intros. unfold get32. by rewrite !zget_put32_ne by lia. Qed.
Lemma get32_put32_eq d o v : 0 <= o -> o + 4 <= zlen d -> get32 (put32 d o v) o = u32 v.
Proof.
  unfold zlen. intros H1 H2. unfold get32, put32.
  repeat first [ rewrite zget_zset_eq by (unfold zlen; rewrite ?zset_length; lia)
               | rewrite zget_zset_ne by lia ].
  zwrap.
Qed.
#[export] Hint Rewrite @put32_length : zlist.

(** ** Byte-addressed memory

    The memory the C code runs in: a finite map from addresses to bytes.  An
    address outside of the map reads as 0. *)

Abbreviation mem := (gmap Z Z).

Definition loadb (m : mem) (a : Z) : Z := default 0 (m !! a).
Definition storeb (m : mem) (a : Z) (v : Z) : mem := <[a := u8 v]> m.

(** Little-endian 32-bit words. *)
Definition load32 (m : mem) (a : Z) : Z :=
  loadb m a + 2 ^ 8 * loadb m (a + 1) + 2 ^ 16 * loadb m (a + 2) + 2 ^ 24 * loadb m (a + 3).
Definition store32 (m : mem) (a : Z) (v : Z) : mem :=
  storeb (storeb (storeb (storeb m a v) (a + 1) (v / 2 ^ 8)) (a + 2) (v / 2 ^ 16))
    (a + 3) (v / 2 ^ 24).

(** A memory whose cells are all bytes. *)
Definition bytes_ok (m : mem) : Prop := forall a, 0 <= loadb m a < 256.

Lemma loadb_storeb_eq m a v : loadb (storeb m a v) a = u8 v.
Proof. unfold loadb, storeb. by rewrite lookup_insert_eq. Qed.
Lemma loadb_storeb_ne m a b v : a <> b -> loadb (storeb m a v) b = loadb m b.
Proof. intros. unfold loadb, storeb. by rewrite lookup_insert_ne. Qed.

Lemma bytes_ok_storeb m a v : bytes_ok m -> bytes_ok (storeb m a v).
Proof.
  intros H b. destruct (decide (a = b)) as [->|].
  - rewrite loadb_storeb_eq. auto with cint.
  - rewrite loadb_storeb_ne by done. apply H.
Qed.
Lemma bytes_ok_store32 m a v : bytes_ok m -> bytes_ok (store32 m a v).
Proof. intros. unfold store32. auto using bytes_ok_storeb. Qed.
Lemma bytes_ok_empty : bytes_ok ∅.
Proof. intros a. unfold loadb. rewrite lookup_empty. simpl. lia. Qed.

Lemma load32_store32_eq m a v : load32 (store32 m a v) a = u32 v.
Proof.
  unfold load32, store32.
  rewrite !loadb_storeb_eq, !loadb_storeb_ne, !loadb_storeb_eq by lia.
  rewrite !loadb_storeb_ne, !loadb_storeb_eq by lia.
  rewrite !loadb_storeb_ne, !loadb_storeb_eq by lia.
  zwrap.
Qed.

Lemma loadb_store32_ne m a b v :
  b < a \/ a + 4 <= b -> loadb (store32 m a v) b = loadb m b.
Proof. intros. unfold store32. by rewrite !loadb_storeb_ne by lia. Qed.

Lemma load32_store32_ne m a b v :
  b + 4 <= a \/ a + 4 <= b -> load32 (store32 m a v) b = load32 m b.
Proof. intros. unfold load32. by rewrite !loadb_store32_ne by lia. Qed.

Lemma load32_range m a : bytes_ok m -> 0 <= load32 m a < 2 ^ 32.
Proof.
  intros H. unfold load32.
  pose proof (H a). pose proof (H (a + 1)). pose proof (H (a + 2)).
  pose proof (H (a + 3)). lia.
Qed.

#[export] Hint Resolve bytes_ok_storeb bytes_ok_store32 bytes_ok_empty : cint.
