(* ===== verification/CString.v ===== *)
(** * Memory and string routines

    [string.c] (the kernel's copies of [memset], [memmove], [strncmp], ...) and
    the string half of [ulib.c] (the user-space copies), over the byte memory of
    the prelude.  A loop bounded by a length argument is structural recursion on
    that length; a loop that runs to a NUL byte takes fuel and returns [None]
    when the fuel runs out before a NUL is found.  Pointers are addresses; the
    routines are run on ranges that do not wrap around the address space. *)

From stdpp Require Import base gmap list.
From Stdlib Require Import ZArith Lia.
From S2P Require Import Prelude.

Module Str.

(** ** The x86 string stores used by [memset] ([x86.h]) *)

Fixpoint stosb (m : mem) (addr data : Z) (cnt : nat) : mem :=
  match cnt with
  | O => m
  | S k => stosb (storeb m addr data) (addr + 1) data k
  end.

Fixpoint stosl (m : mem) (addr data : Z) (cnt : nat) : mem :=
  match cnt with
  | O => m
  | S k => stosl (store32 m addr data) (addr + 4) data k
  end.

(** ** string.c *)

Definition memset (m : mem) (dst c n : Z) : mem :=
  if (Z.rem (s32 dst) 4 =? 0) && (n mod 4 =? 0) then
    let c := Z.land c 255 in
    stosl m dst
      (Z.lor (Z.lor (Z.lor (Z.shiftl c 24) (Z.shiftl c 16)) (Z.shiftl c 8)) c)
      (Z.to_nat (n / 4))
  else stosb m dst c (Z.to_nat n).

Fixpoint memcmp (m : mem) (s1 s2 : Z) (n : nat) : Z :=
  match n with
  | O => 0
  | S k =>
      if loadb m s1 =? loadb m s2 then memcmp m (s1 + 1) (s2 + 1) k
      else loadb m s1 - loadb m s2
  end.

(** [while (n-- > 0) *d++ = *s++;] *)
Fixpoint copy_up (m : mem) (d s : Z) (n : nat) : mem :=
  match n with
  | O => m
  | S k => copy_up (storeb m d (loadb m s)) (d + 1) (s + 1) k
  end.

(** [while (n-- > 0) *--d = *--s;] *)
Fixpoint copy_down (m : mem) (d s : Z) (n : nat) : mem :=
  match n with
  | O => m
  | S k => copy_down (storeb m (d - 1) (loadb m (s - 1))) (d - 1) (s - 1) k
  end.

Definition memmove (m : mem) (dst src n : Z) : mem :=
  if (src <? dst) && (dst <? src + n) then
    copy_down m (dst + n) (src + n) (Z.to_nat n)
  else copy_up m dst src (Z.to_nat n).

Fixpoint strncmp (m : mem) (p q : Z) (n : nat) : Z :=
  match n with
  | O => 0
  | S k =>
      if negb (loadb m p =? 0) && (loadb m p =? loadb m q)
      then strncmp m (p + 1) (q + 1) k
      else loadb m p - loadb m q
  end.

(** The first loop copies up to and including a NUL, the second pads with
    NULs. *)
Fixpoint strncpy (m : mem) (s t : Z) (n : nat) : mem :=
  match n with
  | O => m
  | S k =>
      let m' := storeb m s (loadb m t) in
      if loadb m t =? 0 then stosb m' (s + 1) 0 k
      else strncpy m' (s + 1) (t + 1) k
  end.

(** The loop of [safestrcpy], [k] being the value of [n] after [--n]; the store
    of the final NUL comes after it, also when the loop stopped on a NUL. *)
Fixpoint safestrcpy_loop (m : mem) (s t : Z) (k : nat) : mem :=
  match k with
  | O => storeb m s 0
  | S k' =>
      let m' := storeb m s (loadb m t) in
      if loadb m t =? 0 then storeb m' (s + 1) 0
      else safestrcpy_loop m' (s + 1) (t + 1) k'
  end.

Definition safestrcpy (m : mem) (s t n : Z) : mem :=
  if n <=? 0 then m else safestrcpy_loop m s t (Z.to_nat (n - 1)).

Fixpoint strlen_loop (fuel : nat) (m : mem) (s n : Z) : option Z :=
  match fuel with
  | O => None
  | S f => if loadb m (s + n) =? 0 then Some n else strlen_loop f m s (n + 1)
  end.

Definition strlen (fuel : nat) (m : mem) (s : Z) : option Z := strlen_loop fuel m s 0.

(** ** ulib.c *)

Fixpoint ustrcpy (fuel : nat) (m : mem) (s t : Z) : option mem :=
  match fuel with
  | O => None
  | S f =>
      let m' := storeb m s (loadb m t) in
      if loadb m t =? 0 then Some m' else ustrcpy f m' (s + 1) (t + 1)
  end.

Fixpoint ustrcmp (fuel : nat) (m : mem) (p q : Z) : option Z :=
  match fuel with
  | O => None
  | S f =>
      if negb (loadb m p =? 0) && (loadb m p =? loadb m q)
      then ustrcmp f m (p + 1) (q + 1)
      else Some (loadb m p - loadb m q)
  end.

(** [strchr] returns a pointer to the first [c], or the null pointer. *)
Fixpoint ustrchr (fuel : nat) (m : mem) (s c : Z) : option Z :=
  match fuel with
  | O => None
  | S f =>
      if loadb m s =? 0 then Some 0
      else if loadb m s =? c then Some s
      else ustrchr f m (s + 1) c
  end.

(** The loop of [atoi] from position [s] with the value [n] read so far; the
    sum is computed in [int]. *)
Fixpoint uatoi_loop (fuel : nat) (m : mem) (s n : Z) : option Z :=
  match fuel with
  | O => None
  | S f =>
      if (48 <=? s8 (loadb m s)) && (s8 (loadb m s) <=? 57)
      then uatoi_loop f m (s + 1) (s32 (n * 10 + s8 (loadb m s) - 48))
      else Some n
  end.

Definition uatoi (fuel : nat) (m : mem) (s : Z) : option Z := uatoi_loop fuel m s 0.

Definition umemset (m : mem) (dst c n : Z) : mem := stosb m dst c (Z.to_nat n).

Definition umemmove (m : mem) (vdst vsrc n : Z) : mem := copy_up m vdst vsrc (Z.to_nat n).

(** [gets]: one byte at a time from file descriptor 0; [input] is what
    successive calls of [read(0, &c, 1)] deliver, end of file when it is used
    up.  [i] counts the bytes stored; the loop runs while [i + 1 < max]. *)
Fixpoint ugets_loop (m : mem) (buf i : Z) (room : nat) (input : list Z) : mem * list Z :=
  match room, input with
  | S r, c :: input' =>
      let m' := storeb m (buf + i) c in
      if (c =? ch_nl) || (c =? ch_cr) then (storeb m' (buf + (i + 1)) 0, input')
      else ugets_loop m' buf (i + 1) r input'
  | _, _ => (storeb m (buf + i) 0, input)
  end.

Definition ugets (m : mem) (buf max : Z) (input : list Z) : mem * list Z :=
  ugets_loop m buf 0 (Z.to_nat (max - 1)) input.

(** ** What the routines are about *)

(** The bytes [l] lie at [a]. *)
Fixpoint bytes_at (m : mem) (a : Z) (l : list Z) : Prop :=
  match l with
  | [] => True
  | c :: l' => loadb m a = c /\ bytes_at m (a + 1) l'
  end.

(** A NUL-terminated string with contents [l] lies at [a]. *)
Fixpoint cstr (m : mem) (a : Z) (l : list Z) : Prop :=
  match l with
  | [] => loadb m a = 0
  | c :: l' => loadb m a = c /\ c <> 0 /\ cstr m (a + 1) l'
  end.

(** Difference of the first bytes at which two strings differ, the end of a
    string counting as 0. *)
Fixpoint lex_diff (l1 l2 : list Z) : Z :=
  match l1, l2 with
  | [], [] => 0
  | [], c2 :: _ => 0 - c2
  | c1 :: _, [] => c1
  | c1 :: l1', c2 :: l2' => if c1 =? c2 then lex_diff l1' l2' else c1 - c2
  end.

(** ** Frame and effect of the store loops *)

Lemma stosb_spec n : forall m a v b,
  loadb (stosb m a v n) b =
  if (a <=? b) && (b <? a + Z.of_nat n) then u8 v else loadb m b.
Proof.
  induction n as [|n IH]; intros m a v b; cbn [stosb].
  - zcases.
  - rewrite IH. destruct (decide (a = b)) as [->|Hne].
    + rewrite loadb_storeb_eq. zcases.
    + rewrite loadb_storeb_ne by done. zcases.
Qed.

Definition splat (c : Z) : Z := c + 2 ^ 8 * c + 2 ^ 16 * c + 2 ^ 24 * c.

Lemma lor_disjoint_add a b k :
  0 <= k -> 0 <= a < 2 ^ k -> Z.lor (Z.shiftl b k) a = Z.shiftl b k + a.
Proof.
  intros Hk Ha. rewrite <- Z.add_lor_land.
  enough (Z.land (Z.shiftl b k) a = 0) as -> by lia.
  apply Z.bits_inj'. intros n Hn. rewrite Z.land_spec, Z.bits_0.
  destruct (Z.lt_ge_cases n k).
  - by rewrite Z.shiftl_spec_low.
  - rewrite <- (Z.mod_small a (2 ^ k)), Z.mod_pow2_bits_high by lia. apply andb_false_r.
Qed.

Lemma splat_lor c :
  0 <= c < 256 ->
  Z.lor (Z.lor (Z.lor (Z.shiftl c 24) (Z.shiftl c 16)) (Z.shiftl c 8)) c = splat c.
Proof.
  intros Hc. unfold splat. rewrite <- !Z.lor_assoc.
  rewrite (lor_disjoint_add c c 8), (Z.shiftl_mul_pow2 c 8) by lia.
  rewrite (lor_disjoint_add _ c 16), (Z.shiftl_mul_pow2 c 16) by lia.
  rewrite (lor_disjoint_add _ c 24), (Z.shiftl_mul_pow2 c 24) by lia. lia.
Qed.

Lemma store32_splat m a c b :
  0 <= c < 256 ->
  loadb (store32 m a (splat c)) b = if (a <=? b) && (b <? a + 4) then c else loadb m b.
Proof.
  intros Hc. unfold store32, splat.
  assert (u8 (c + 2 ^ 8 * c + 2 ^ 16 * c + 2 ^ 24 * c) = c) by zwrap.
  assert (u8 ((c + 2 ^ 8 * c + 2 ^ 16 * c + 2 ^ 24 * c) / 2 ^ 8) = c) by zwrap.
  assert (u8 ((c + 2 ^ 8 * c + 2 ^ 16 * c + 2 ^ 24 * c) / 2 ^ 16) = c) by zwrap.
  assert (u8 ((c + 2 ^ 8 * c + 2 ^ 16 * c + 2 ^ 24 * c) / 2 ^ 24) = c) by zwrap.
  unfold loadb, storeb. rewrite !lookup_insert.
  repeat case_decide; simpl; zcases.
Qed.

Lemma stosl_spec n : forall m a c b,
  0 <= c < 256 ->
  loadb (stosl m a (splat c) n) b =
  if (a <=? b) && (b <? a + 4 * Z.of_nat n) then c else loadb m b.
Proof.
  induction n as [|n IH]; intros m a c b Hc; cbn [stosl].
  - zcases.
  - rewrite IH, store32_splat by done. zcases.
Qed.

Lemma copy_up_spec n : forall m d s b,
  d <= s \/ s + Z.of_nat n <= d ->
  loadb (copy_up m d s n) b =
  if (d <=? b) && (b <? d + Z.of_nat n) then u8 (loadb m (s + (b - d))) else loadb m b.
Proof.
  induction n as [|n IH]; intros m d s b Hd; simpl copy_up.
  - zcases.
  - rewrite IH by lia.
    destruct (decide (d = b)) as [<-|Hne].
    + rewrite loadb_storeb_eq. replace (s + (d - d)) with s by lia.
      zcases.
    + rewrite (loadb_storeb_ne _ d b) by done.
      case_bool; zbool; [rewrite loadb_storeb_ne by lia | zcases..].
      replace (s + 1 + (b - (d + 1))) with (s + (b - d)) by lia. zcases.
Qed.

Lemma copy_down_spec n : forall m d s b,
  s <= d ->
  loadb (copy_down m d s n) b =
  if (d - Z.of_nat n <=? b) && (b <? d) then u8 (loadb m (s + (b - d))) else loadb m b.
Proof.
  induction n as [|n IH]; intros m d s b Hd; simpl copy_down.
  - zcases.
  - rewrite IH by lia.
    destruct (decide (d - 1 = b)) as [<-|Hne].
    + rewrite loadb_storeb_eq. replace (s + (d - 1 - d)) with (s - 1) by lia.
      zcases.
    + rewrite (loadb_storeb_ne _ (d - 1) b) by done.
      case_bool; zbool; [rewrite loadb_storeb_ne by lia | zcases..].
      replace (s - 1 + (b - (d - 1))) with (s + (b - d)) by lia. zcases.
Qed.

(** ** Theorems *)

Lemma memset_word_case c :
  Z.lor (Z.lor (Z.lor (Z.shiftl (Z.land c 255) 24) (Z.shiftl (Z.land c 255) 16))
    (Z.shiftl (Z.land c 255) 8)) (Z.land c 255) = splat (u8 c).
Proof.
  assert (Z.land c 255 = u8 c) as ->.
  { change 255 with (Z.ones 8). by rewrite Z.land_ones by lia. }
  apply splat_lor. auto with cint.
Qed.

(** [memset] fills the [n] bytes at [dst] with [c], and nothing else, whichever
    of its two store instructions it picks. *)
Lemma memset_spec m dst c n b :
  0 <= n ->
  loadb (memset m dst c n) b =
  if (dst <=? b) && (b <? dst + n) then u8 c else loadb m b.
Proof.
  intros Hn. unfold memset. destruct (_ && _) eqn:E.
  - cbv zeta. rewrite memset_word_case, stosl_spec by auto with cint. zbool.
    replace (4 * Z.of_nat (Z.to_nat (n / 4))) with n; [done|].
    rewrite Z2Nat.id by (apply Z.div_pos; lia). pose proof (Z.div_mod n 4). lia.
  - rewrite stosb_spec, Z2Nat.id by lia. done.
Qed.

Lemma memmove_effect m dst src n b :
  0 <= n ->
  loadb (memmove m dst src n) b =
  if (dst <=? b) && (b <? dst + n) then u8 (loadb m (src + (b - dst))) else loadb m b.
Proof.
  intros Hn. unfold memmove. destruct (_ && _) eqn:E.
  - zbool. rewrite copy_down_spec, Z2Nat.id by lia.
    replace (dst + n - n) with dst by lia.
    by replace (src + n + (b - (dst + n))) with (src + (b - dst)) by lia.
  - rewrite copy_up_spec, Z2Nat.id by (zbool; lia). done.
Qed.

(** The user-space [memmove] only copies upwards: it agrees with the kernel's
    exactly when the destination does not start inside the source. *)
Lemma umemmove_spec m dst src n b :
  0 <= n -> dst <= src \/ src + n <= dst ->
  loadb (umemmove m dst src n) b = loadb (memmove m dst src n) b.
Proof.
  intros Hn Hd. rewrite memmove_effect by done. unfold umemmove.
  rewrite copy_up_spec, Z2Nat.id by lia. done.
Qed.

Lemma memcmp_eq m n : forall s1 s2,
  memcmp m s1 s2 n = 0 <->
  forall i, 0 <= i < Z.of_nat n -> loadb m (s1 + i) = loadb m (s2 + i).
Proof.
  induction n as [|n IH]; intros s1 s2; cbn [memcmp].
  - split; [intros; lia | done].
  - destruct (loadb m s1 =? loadb m s2) eqn:E; zbool.
    + rewrite IH. split; intros H i Hi.
      * destruct (decide (i = 0)) as [->|]; [by rewrite !Z.add_0_r|].
        specialize (H (i - 1)). replace (s1 + 1 + (i - 1)) with (s1 + i) in H by lia.
        replace (s2 + 1 + (i - 1)) with (s2 + i) in H by lia. apply H. lia.
      * specialize (H (i + 1)). replace (s1 + (i + 1)) with (s1 + 1 + i) in H by lia.
        replace (s2 + (i + 1)) with (s2 + 1 + i) in H by lia. apply H. lia.
    + split; [lia|]. intros H. specialize (H 0). rewrite !Z.add_0_r in H. lia.
Qed.

Lemma cstr_strlen_loop m : forall l fuel s n,
  cstr m (s + n) l -> (length l < fuel)%nat ->
  strlen_loop fuel m s n = Some (n + zlen l).
Proof.
  induction l as [|c l IH]; intros fuel s n Hs Hf; destruct fuel as [|f]; simpl in *; try lia.
  - rewrite Hs. simpl. unfold zlen. simpl. by rewrite Z.add_0_r.
  - destruct Hs as (Hc & Hnz & Hs). destruct (loadb m (s + n) =? 0) eqn:E; zbool; [lia|].
    rewrite (IH f s (n + 1)); [|by rewrite Z.add_assoc|lia].
    unfold zlen. simpl. f_equal. lia.
Qed.

(** [strncmp] of two strings is the difference of the first bytes at which their
    first [n] bytes differ. *)
Lemma strncmp_lex m : forall n l1 l2 p q,
  cstr m p l1 -> cstr m q l2 ->
  strncmp m p q n = lex_diff (take n l1) (take n l2).
Proof.
  induction n as [|n IH]; intros l1 l2 p q H1 H2; cbn [strncmp]; [done|].
  destruct l1 as [|c1 l1], l2 as [|c2 l2]; simpl in *.
  - rewrite H1, H2. done.
  - destruct H2 as (H2 & Hn2 & H2'). rewrite H1, H2. done.
  - destruct H1 as (H1 & Hn1 & H1'). rewrite H1, H2.
    destruct (c1 =? 0) eqn:E; simpl; zcases.
  - destruct H1 as (H1 & Hn1 & H1'), H2 as (H2 & Hn2 & H2'). rewrite H1, H2.
    destruct (c1 =? 0) eqn:E; zbool; [done|]. simpl.
    destruct (c1 =? c2) eqn:E2; [by apply IH | done].
Qed.

Lemma lex_diff_zero : forall l1 l2,
  Forall (fun c => 0 < c) l1 -> Forall (fun c => 0 < c) l2 ->
  lex_diff l1 l2 = 0 <-> l1 = l2.
Proof.
  induction l1 as [|c1 l1 IH]; intros [|c2 l2] H1 H2; simpl; try done;
    inversion_clear H1 || clear H1; inversion_clear H2 || clear H2.
  - split; [lia | done].
  - split; [lia | done].
  - destruct (c1 =? c2) eqn:E; zbool.
    + subst. rewrite IH by done. split; congruence.
    + split; [lia | congruence].
Qed.

Lemma ustrcmp_lex m : forall l1 l2 fuel p q,
  cstr m p l1 -> cstr m q l2 -> (length l1 < fuel)%nat ->
  ustrcmp fuel m p q = Some (lex_diff l1 l2).
Proof.
  induction l1 as [|c1 l1 IH]; intros [|c2 l2] fuel p q H1 H2 Hf;
    destruct fuel as [|f]; simpl in *; try lia.
  - by rewrite H1, H2.
  - destruct H2 as (H2 & Hn2 & H2'). by rewrite H1, H2.
  - destruct H1 as (H1 & Hn1 & H1'). rewrite H1, H2.
    destruct (c1 =? 0) eqn:E; simpl; zbool; [done|]. f_equal. lia.
  - destruct H1 as (H1 & Hn1 & H1'), H2 as (H2 & Hn2 & H2'). rewrite H1, H2.
    destruct (c1 =? 0) eqn:E; zbool; [done|]. simpl.
    destruct (c1 =? c2) eqn:E2; [apply IH; [done|done|lia] | done].
Qed.

(** ** Bounded copies of strings *)

Definition byte (c : Z) : Prop := 0 <= c < 256.

(** The [n] bytes at [s] and the string [l] at [t] do not overlap. *)
Definition apart (s n t : Z) (l : list Z) : Prop :=
  s + n <= t \/ t + zlen l + 1 <= s.

Lemma cstr_frame m m' : forall l a,
  (forall b, a <= b <= a + zlen l -> loadb m' b = loadb m b) ->
  cstr m a l -> cstr m' a l.
Proof.
  induction l as [|c l IH]; intros a Hf Hc; simpl in *.
  - rewrite Hf; [done|]. unfold zlen. simpl. lia.
  - rewrite zlen_cons in Hf. pose proof (zlen_nonneg l). destruct Hc as (Hc & Hnz & Hl).
    repeat split; [rewrite Hf; [done|lia] | done |].
    apply IH; [|done]. intros. apply Hf. lia.
Qed.

Lemma cstr_storeb m s v t l :
  apart s 1 t l -> cstr m t l -> cstr (storeb m s v) t l.
Proof.
  intros Ha. apply cstr_frame. intros b Hb. apply loadb_storeb_ne.
  unfold apart in Ha. lia.
Qed.

Lemma safestrcpy_loop_spec : forall k m s t l,
  cstr m t l -> Forall byte l -> apart s (Z.of_nat k + 1) t l ->
  cstr (safestrcpy_loop m s t k) s (take k l) /\
  (forall b, b < s \/ s + Z.of_nat k < b -> loadb (safestrcpy_loop m s t k) b = loadb m b).
Proof.
  induction k as [|k IH]; intros m s t l Hc Hl Ha; cbn [safestrcpy_loop].
  - split; [apply loadb_storeb_eq|]. intros. apply loadb_storeb_ne. lia.
  - destruct l as [|c l]; simpl in Hc.
    + rewrite Hc. simpl. split.
      * rewrite loadb_storeb_ne by lia. apply loadb_storeb_eq.
      * intros. rewrite !loadb_storeb_ne by lia. done.
    + destruct Hc as (Hch & Hnz & Hc). rewrite Hch.
      inversion_clear Hl as [|? ? Hb Hl']. destruct (c =? 0) eqn:E; zbool; [done|].
      unfold apart in *. rewrite zlen_cons in Ha. pose proof (zlen_nonneg l).
      destruct (IH (storeb m s c) (s + 1) (t + 1) l) as [IH1 IH2].
      { apply cstr_storeb; [unfold apart; lia | done]. } { done. } { lia. }
      split.
      * simpl. split; [|done]. rewrite IH2 by lia.
        rewrite loadb_storeb_eq. by apply u8_small.
      * intros b Hb'. rewrite IH2 by lia. apply loadb_storeb_ne. lia.
Qed.

Lemma strncpy_spec : forall n m s t l,
  cstr m t l -> Forall byte l -> apart s (Z.of_nat n) t l ->
  bytes_at (strncpy m s t n) s (take n (l ++ replicate n 0)) /\
  (forall b, b < s \/ s + Z.of_nat n <= b -> loadb (strncpy m s t n) b = loadb m b).
Proof.
  assert (Hz : forall n m s, bytes_at (stosb m s 0 n) s (replicate n 0)).
  { induction n as [|n IH]; intros m s; simpl; [done|]. split; [|apply IH].
    rewrite stosb_spec, loadb_storeb_eq. destruct (_ && _); done. }
  induction n as [|n IH]; intros m s t l Hc Hl Ha; cbn [strncpy]; [done|].
  destruct l as [|c l]; simpl in Hc.
  - rewrite Hc. cbn [app replicate take Z.eqb]. rewrite take_replicate, Nat.min_id. split.
    + split; [|apply Hz]. rewrite stosb_spec, loadb_storeb_eq. zcases.
    + intros b Hb. rewrite stosb_spec, loadb_storeb_ne by lia. zcases.
  - destruct Hc as (Hch & Hnz & Hc). rewrite Hch.
    inversion_clear Hl as [|? ? Hb Hl']. destruct (c =? 0) eqn:E; zbool; [done|].
    unfold apart in *. rewrite zlen_cons in Ha. pose proof (zlen_nonneg l).
    destruct (IH (storeb m s c) (s + 1) (t + 1) l) as [IH1 IH2].
    { apply cstr_storeb; [unfold apart; lia | done]. } { done. } { lia. }
    assert (take n (l ++ replicate (S n) 0) = take n (l ++ replicate n 0)) as Hr.
    { rewrite !take_app, !take_replicate. do 2 f_equal. lia. }
    split.
    + cbn [app take bytes_at]. rewrite Hr. split; [|done].
      rewrite IH2 by lia. rewrite loadb_storeb_eq. by apply u8_small.
    + intros b Hb'. rewrite IH2 by lia. apply loadb_storeb_ne. lia.
Qed.

Lemma ugets_loop_bounds : forall room m buf i input b,
  b < buf + i \/ buf + i + Z.of_nat room < b ->
  loadb (fst (ugets_loop m buf i room input)) b = loadb m b.
Proof.
  induction room as [|r IH]; intros m buf i input b Hb; destruct input as [|c input];
    cbn [ugets_loop fst]; try (apply loadb_storeb_ne; lia).
  destruct (_ || _); cbn [fst].
  - rewrite !loadb_storeb_ne by lia. done.
  - rewrite IH by lia. apply loadb_storeb_ne. lia.
Qed.

(** The kernel's [memmove] copies as if through a temporary buffer: after
    it, every byte of the destination holds what the corresponding source byte
    held before, also when the two ranges overlap, and no other byte of memory
    has changed. *)
Theorem memmove_correct m dst src n b :
  0 <= n ->
  loadb (memmove m dst src n) b =
  if (dst <=? b) && (b <? dst + n) then u8 (loadb m (src + (b - dst))) else loadb m b.
Proof. apply memmove_effect. Qed.

Lemma memmove_correct_witness :
  0 <= 8 /\
  loadb (memmove (stosb ∅ 100 7 8) 104 100 8) 111 =
  (if (104 <=? 111) && (111 <? 104 + 8)
   then u8 (loadb (stosb ∅ 100 7 8) (100 + (111 - 104))) else loadb (stosb ∅ 100 7 8) 111).
Proof. split; [lia | apply memmove_correct; lia]. Defined.

(** [safestrcpy] of a string [l] into a buffer of [n] bytes leaves there a
    NUL-terminated string with the first [n - 1] bytes of [l], and touches no
    byte outside of the buffer. *)
Theorem safestrcpy_correct m s t n l :
  0 < n -> cstr m t l -> Forall byte l -> apart s n t l ->
  cstr (safestrcpy m s t n) s (take (Z.to_nat (n - 1)) l) /\
  forall b, b < s \/ s + n <= b -> loadb (safestrcpy m s t n) b = loadb m b.
Proof.
  intros Hn Hc Hl Ha. unfold safestrcpy. destruct (n <=? 0) eqn:E; zbool; [lia|].
  destruct (safestrcpy_loop_spec (Z.to_nat (n - 1)) m s t l) as [H1 H2]; [done|done| |].
  - unfold apart in *. lia.
  - split; [done|]. intros b Hb. apply H2. lia.
Qed.

(** The string [sh] at address 50. *)
Definition sh_at_50 : mem := storeb (storeb ∅ 50 115) 51 104.

Lemma safestrcpy_correct_witness :
  cstr (safestrcpy sh_at_50 10 50 2) 10 [115].
Proof.
  assert (H := safestrcpy_correct sh_at_50 10 50 2 [115; 104]).
  apply H.
  - lia.
  - vm_compute. repeat split; discriminate.
  - repeat constructor; vm_compute; congruence.
  - left. lia.
Defined.

End Str.
