(* ===== verification/Format.v ===== *)
(** * Formatted output

    The kernel's [printint] and [cprintf] ([console.c]) and the user library's
    [printint] and [printf] ([printf.c]).  Both are modelled by the bytes they
    hand to [consputc] or [putc], in order: what becomes of a byte is the
    console's business.  The variable arguments are the list of 32-bit words on
    the stack; a [%s] argument points into the byte memory. *)

From stdpp Require Import base gmap list strings.
From Stdlib Require Import ZArith Lia.
From S2P Require Import Prelude CString.

Definition ch_percent : Z := 37.
Definition ch_minus : Z := 45.

(** ** Integers *)

Module Int.

(** [digits[d]] of the two tables. *)
Definition digits_lower : list Z := bytes_of_string "0123456789abcdef".
Definition digits_upper : list Z := bytes_of_string "0123456789ABCDEF".

(** [do { buf[i++] = digits[x % base]; } while ((x /= base) != 0);]: the buffer,
    least significant digit first.  32 rounds are enough for any base from 2
    on. *)
Fixpoint digit_loop (tbl : list Z) (fuel : nat) (x base : Z) : list Z :=
  match fuel with
  | O => []
  | S f =>
      zget 0 tbl (x mod base) ::
      (if x / base =? 0 then [] else digit_loop tbl f (x / base) base)
  end.

(** console.c: [if (sign && (sign = xx < 0)) x = -xx; else x = xx;] *)
Definition kprintint (xx base : Z) (sign : bool) : list Z :=
  let neg := sign && (xx <? 0) in
  let x := if neg then u32 (- xx) else u32 xx in
  let buf := digit_loop digits_lower 32 x base in
  let buf := if neg then buf ++ [ch_minus] else buf in
  rev buf.

(** printf.c: the same with a flag [neg]. *)
Definition uprintint (xx base : Z) (sgn : bool) : list Z :=
  let neg := if sgn && (xx <? 0) then true else false in
  let x := if sgn && (xx <? 0) then u32 (- xx) else u32 xx in
  let buf := digit_loop digits_upper 32 x base in
  let buf := if neg then buf ++ [ch_minus] else buf in
  rev buf.

(** *** Reading a number back *)

Definition digit_val (c : Z) : Z :=
  if (48 <=? c) && (c <=? 57) then c - 48
  else if (97 <=? c) && (c <=? 102) then c - 87
  else if (65 <=? c) && (c <=? 70) then c - 55 else 0.

(** Value of digits, most significant first. *)
Fixpoint numeral (base acc : Z) (l : list Z) : Z :=
  match l with
  | [] => acc
  | c :: l' => numeral base (acc * base + digit_val c) l'
  end.

(** Value of a signed numeral. *)
Definition signed_numeral (base : Z) (l : list Z) : Z :=
  match l with
  | c :: l' => if c =? ch_minus then - numeral base 0 l' else numeral base 0 l
  | [] => 0
  end.

Lemma numeral_snoc base : forall l acc c,
  numeral base acc (l ++ [c]) = numeral base acc l * base + digit_val c.
Proof. induction l as [|x l IH]; intros acc c; simpl; [done|]. apply IH. Qed.

Lemma digit_table_val tbl d :
  tbl = digits_lower \/ tbl = digits_upper -> 0 <= d < 16 -> digit_val (zget 0 tbl d) = d.
Proof.
  intros Ht Hd.
  assert (exists n : nat, d = Z.of_nat n /\ (n < 16)%nat) as (n & -> & Hn)
    by (exists (Z.to_nat d); lia).
  do 16 (destruct n as [|n]; [by destruct Ht as [-> | ->]|]). lia.
Qed.

Lemma digit_loop_val tbl base : forall fuel x,
  tbl = digits_lower \/ tbl = digits_upper ->
  2 <= base <= 16 -> 0 <= x < 2 ^ Z.of_nat fuel ->
  numeral base 0 (rev (digit_loop tbl fuel x base)) = x.
Proof.
  induction fuel as [|f IH]; intros x Ht Hb Hx; [simpl in *; lia|].
  cbn [digit_loop rev]. rewrite numeral_snoc.
  assert (Hm : 0 <= x mod base < base) by (apply Z.mod_pos_bound; lia).
  assert (Hq : 0 <= x / base) by (apply Z.div_pos; lia).
  rewrite digit_table_val by (done || lia).
  pose proof (Z.div_mod x base ltac:(lia)) as Hdm.
  destruct (x / base =? 0) eqn:E; zbool; simpl; [lia|].
  rewrite IH; [lia | done | done |].
  rewrite Nat2Z.inj_succ, Z.pow_succ_r in Hx by lia. nia.
Qed.

Lemma digit_loop_length tbl base k : forall fuel x,
  2 <= base -> 0 <= x < base ^ Z.of_nat k -> (1 <= k)%nat ->
  (length (digit_loop tbl fuel x base) <= k)%nat.
Proof.
  induction k as [|k IHk]; intros fuel x Hb Hx Hk; [lia|].
  destruct fuel as [|f]; simpl; [lia|].
  destruct (x / base =? 0) eqn:E; zbool; simpl; [lia|].
  assert (Hq : 0 <= x / base < base ^ Z.of_nat k).
  { rewrite Nat2Z.inj_succ, Z.pow_succ_r in Hx by lia. split; [apply Z.div_pos; lia|].
    apply Z.div_lt_upper_bound; lia. }
  destruct k as [|k]; [simpl in Hq; lia|]. specialize (IHk f (x / base)). lia.
Qed.

Lemma digit_loop_not_minus tbl base : forall fuel x,
  tbl = digits_lower \/ tbl = digits_upper -> 2 <= base <= 16 -> 0 <= x ->
  ch_minus ∉ digit_loop tbl fuel x base.
Proof.
  induction fuel as [|f IH]; intros x Ht Hb Hx; simpl; [apply not_elem_of_nil|].
  assert (Hm : 0 <= x mod base < base) by (apply Z.mod_pos_bound; lia).
  apply not_elem_of_cons. split.
  - assert (exists n : nat, x mod base = Z.of_nat n /\ (n < 16)%nat) as (n & -> & Hn)
      by (exists (Z.to_nat (x mod base)); lia).
    do 16 (destruct n as [|n]; [by destruct Ht as [-> | ->]|]). lia.
  - destruct (_ =? 0); [apply not_elem_of_nil|]. apply IH; [done | done |].
    apply Z.div_pos; lia.
Qed.

Lemma digit_loop_nonempty tbl base fuel x :
  digit_loop tbl (S fuel) x base <> [].
Proof. done. Qed.

(** Both routines agree on base 10: the case of the letters does not show. *)
Lemma digit_loop_decimal : forall fuel x,
  digit_loop digits_upper fuel x 10 = digit_loop digits_lower fuel x 10.
Proof.
  induction fuel as [|f IH]; intros x; simpl; [done|]. rewrite IH. f_equal.
  assert (Hm : 0 <= x mod 10 < 10) by (apply Z.mod_pos_bound; lia).
  assert (exists n : nat, x mod 10 = Z.of_nat n /\ (n < 10)%nat) as (n & -> & Hn)
    by (exists (Z.to_nat (x mod 10)); lia).
  do 10 (destruct n as [|n]; [done|]). lia.
Qed.

Lemma printint_decimal xx : uprintint xx 10 true = kprintint xx 10 true.
Proof.
  unfold uprintint, kprintint. rewrite !digit_loop_decimal. by destruct (true && (xx <? 0)).
Qed.

Lemma signed_numeral_digits tbl fuel x base :
  tbl = digits_lower \/ tbl = digits_upper -> 2 <= base <= 16 -> 0 <= x < 2 ^ Z.of_nat (S fuel) ->
  signed_numeral base (rev (digit_loop tbl (S fuel) x base)) = x.
Proof.
  intros Ht Hb Hx. pose proof (digit_loop_val tbl base (S fuel) x Ht Hb Hx) as Hv.
  pose proof (digit_loop_not_minus tbl base (S fuel) x Ht Hb ltac:(lia)) as Hm.
  rewrite list_elem_of_In, in_rev, <- list_elem_of_In in Hm. unfold signed_numeral.
  destruct (rev (digit_loop tbl (S fuel) x base)) as [|c l] eqn:E; [done|].
  destruct (c =? ch_minus) eqn:Ec; [|done]. zbool. subst. elim Hm. by left.
Qed.

(** *** The printed numeral reads back *)

Lemma kprintint_neg xx :
  xx < 0 -> kprintint xx 10 true = ch_minus :: rev (digit_loop digits_lower 32 (u32 (- xx)) 10).
Proof.
  intros H. unfold kprintint. replace (true && (xx <? 0)) with true by (simpl; lia).
  cbv zeta iota. by rewrite rev_app_distr.
Qed.

Lemma kprintint_nonneg xx base sign :
  0 <= xx -> kprintint xx base sign = rev (digit_loop digits_lower 32 (u32 xx) base).
Proof.
  intros H. unfold kprintint. replace (sign && (xx <? 0)) with false by (destruct sign; simpl; lia).
  done.
Qed.

(** The decimal numeral that [printint] prints for an [int], the most negative
    one included, reads back as that [int], and with its sign it fits the
    16-byte buffer of the code. *)
Theorem printint_roundtrip xx :
  - 2 ^ 31 <= xx < 2 ^ 31 ->
  signed_numeral 10 (kprintint xx 10 true) = xx /\
  uprintint xx 10 true = kprintint xx 10 true /\
  (length (kprintint xx 10 true) <= 11)%nat.
Proof.
  intros Hx. split_and!; [| apply printint_decimal |].
  - destruct (Z.lt_ge_cases xx 0).
    + rewrite kprintint_neg by done. unfold signed_numeral. rewrite Z.eqb_refl.
      rewrite digit_loop_val; [rewrite u32_small; lia | by left | lia |].
      rewrite u32_small; lia.
    + rewrite kprintint_nonneg by done. rewrite signed_numeral_digits;
        [rewrite u32_small; lia | by left | lia | rewrite u32_small; lia].
  - destruct (Z.lt_ge_cases xx 0).
    + rewrite kprintint_neg by done. cbn [length]. rewrite length_rev.
      pose proof (digit_loop_length digits_lower 10 10 32 (u32 (- xx))) as Hl.
      rewrite u32_small in * by lia. lia.
    + rewrite kprintint_nonneg, length_rev by done.
      pose proof (digit_loop_length digits_lower 10 10 32 (u32 xx)) as Hl.
      rewrite u32_small in * by lia. lia.
Qed.

Lemma printint_roundtrip_witness :
  signed_numeral 10 (kprintint (- 2 ^ 31) 10 true) = - 2 ^ 31.
Proof. apply printint_roundtrip. lia. Defined.

End Int.

(** ** cprintf and printf *)

Module Fmt.
Import Int.

(** The bytes of the NUL-terminated string at [a]. *)
Fixpoint read_cstr (fuel : nat) (m : mem) (a : Z) : list Z :=
  match fuel with
  | O => []
  | S f => if loadb m a =? 0 then [] else loadb m a :: read_cstr f m (a + 1)
  end.

Section Formatter.
(** Memory, and a bound on the length of the strings in it. *)
Context (m : mem) (strfuel : nat).

(** A [%s] argument: a null pointer prints as [(null)]. *)
Definition string_arg (a : Z) : list Z :=
  if a =? 0 then bytes_of_string "(null)" else read_cstr strfuel m a.

Definition next_arg (args : list Z) : Z := hd 0 args.

(** console.c: [fmt] is indexed by [i]; a [%] consumes the next character too. *)
Fixpoint cprintf (fmt args : list Z) {struct fmt} : list Z :=
  match fmt with
  | [] => []
  | c :: fmt1 =>
      if negb (c =? ch_percent) then c :: cprintf fmt1 args
      else
        match fmt1 with
        | [] => []
        | d :: fmt2 =>
            if d =? 100 then
              kprintint (s32 (next_arg args)) 10 true ++ cprintf fmt2 (tl args)
            else if (d =? 120) || (d =? 112) then
              kprintint (s32 (next_arg args)) 16 false ++ cprintf fmt2 (tl args)
            else if d =? 115 then
              string_arg (next_arg args) ++ cprintf fmt2 (tl args)
            else if d =? ch_percent then ch_percent :: cprintf fmt2 args
            else ch_percent :: d :: cprintf fmt2 args
        end
  end.

(** printf.c: one character per round, with the state [0] or ['%'] between
    rounds. *)
Fixpoint uprintf (pct : bool) (fmt args : list Z) {struct fmt} : list Z :=
  match fmt with
  | [] => []
  | c :: fmt1 =>
      if negb pct then
        if c =? ch_percent then uprintf true fmt1 args
        else c :: uprintf false fmt1 args
      else if c =? 100 then
        uprintint (s32 (next_arg args)) 10 true ++ uprintf false fmt1 (tl args)
      else if (c =? 120) || (c =? 112) then
        uprintint (s32 (next_arg args)) 16 false ++ uprintf false fmt1 (tl args)
      else if c =? 115 then
        string_arg (next_arg args) ++ uprintf false fmt1 (tl args)
      else if c =? 99 then u8 (next_arg args) :: uprintf false fmt1 (tl args)
      else if c =? ch_percent then c :: uprintf false fmt1 args
      else ch_percent :: c :: uprintf false fmt1 args
  end.

(** Formats on which the two agree: no [%x] and [%p], which differ in the case of
    the digits, and no [%c], which only printf knows. *)
Fixpoint shared_format (fmt : list Z) : bool :=
  match fmt with
  | [] => true
  | c :: fmt1 =>
      if c =? ch_percent then
        match fmt1 with
        | [] => true
        | d :: fmt2 => negb (d =? 120) && negb (d =? 112) && negb (d =? 99) && shared_format fmt2
        end
      else shared_format fmt1
  end.

Lemma fmt_ind (P : list Z -> Prop) :
  P [] -> (forall c, P [c]) ->
  (forall c s re, P re -> P (s :: re) -> P (c :: s :: re)) -> forall re, P re.
Proof.
  intros H0 H1 H2 re. enough (P re /\ forall c, P (c :: re)) by tauto.
  induction re as [|c re [IH1 IH2]]; [auto|]. split; [apply IH2|]. auto.
Qed.

Lemma cprintf_plain c fmt args :
  (c =? ch_percent) = false -> cprintf (c :: fmt) args = c :: cprintf fmt args.
Proof. intros H. destruct fmt; simpl; rewrite H; done. Qed.
Lemma uprintf_plain c fmt args :
  (c =? ch_percent) = false -> uprintf false (c :: fmt) args = c :: uprintf false fmt args.
Proof. intros H. destruct fmt; simpl; rewrite H; done. Qed.
Lemma shared_plain c fmt :
  (c =? ch_percent) = false -> shared_format (c :: fmt) = shared_format fmt.
Proof. intros H. destruct fmt; simpl; rewrite H; done. Qed.

Lemma uprintf_cprintf fmt : forall args,
  shared_format fmt = true -> uprintf false fmt args = cprintf fmt args.
Proof.
  induction fmt as [|c|c d fmt IH IHd] using fmt_ind; intros args Hs.
  - done.
  - simpl. by destruct (c =? ch_percent).
  - destruct (c =? ch_percent) eqn:E.
    + simpl in *. rewrite E in *. simpl.
      apply andb_true_iff in Hs as [[[H1 H2]%andb_true_iff H3]%andb_true_iff Hs].
      apply negb_true_iff in H1 as ->. apply negb_true_iff in H2 as ->.
      apply negb_true_iff in H3 as ->. simpl. rewrite printint_decimal.
      destruct (d =? 100); [by rewrite IH|]. destruct (d =? 115); [by rewrite IH|].
      destruct (d =? ch_percent) eqn:Ed; [|by rewrite IH].
      zbool. subst. by rewrite IH.
    + rewrite shared_plain in Hs by done. rewrite uprintf_plain, cprintf_plain by done.
      by rewrite IHd.
Qed.

End Formatter.

(** The kernel's [cprintf] and the user library's [printf] print the same
    bytes for every format without [%x], [%p] (the case of the letters differs)
    and [%c] (only printf has it), for any arguments and any memory. *)
Theorem printf_agree m strfuel fmt args :
  shared_format fmt = true ->
  uprintf m strfuel false fmt args = cprintf m strfuel fmt args.
Proof. apply uprintf_cprintf. Qed.

Lemma printf_agree_witness :
  uprintf ∅ 10 false (bytes_of_string "a%d%%%q") [u32 (-5)] =
  cprintf ∅ 10 (bytes_of_string "a%d%%%q") [u32 (-5)].
Proof. apply printf_agree. vm_compute. reflexivity. Defined.

End Fmt.
