(* ===== verification/UserProgs.v ===== *)
(** * User programs that process text: grep.c, wc.c, cat.c

    A C string is the list of its bytes before the NUL.  Input comes from a
    stream of chunks: a call [read(fd, buf, want)] delivers at most [want] bytes
    of the next chunk, and no bytes at the end of the stream, which is how
    files, pipes and the console behave. *)

From stdpp Require Import base list strings.
From Stdlib Require Import ZArith Lia.
From S2P Require Import Prelude.

(** ** The input stream *)

Module Stream.

Definition stream : Type := list (list Z).

(** [read] of at most [want] bytes. *)
Definition read (want : Z) (st : stream) : list Z * stream :=
  match st with
  | [] => ([], [])
  | c :: st' =>
      if zlen c <=? want then (c, st')
      else (take (Z.to_nat want) c, drop (Z.to_nat want) c :: st')
  end.

Lemma read_concat want st : fst (read want st) ++ concat (snd (read want st)) = concat st.
Proof.
  destruct st as [|c st]; simpl; [done|]. case_bool; simpl; [done|].
  rewrite app_assoc, take_drop. done.
Qed.

Lemma read_length want st : 0 <= want -> zlen (fst (read want st)) <= want.
Proof.
  intros Hw. destruct st as [|c st]; simpl; [unfold zlen; simpl; lia|].
  case_bool; zbool; simpl; [done|]. unfold zlen in *. rewrite length_take. lia.
Qed.

(** Bytes still to come. *)
Definition pending (st : stream) : nat := length (concat st).

Lemma read_left want st :
  (pending (snd (read want st)) = pending st - length (fst (read want st)))%nat /\
  (length (fst (read want st)) <= pending st)%nat.
Proof. unfold pending. rewrite <- (read_concat want st), length_app. lia. Qed.

End Stream.

(** ** grep.c *)

Module Grep.
Import Stream.

Definition ch_caret : Z := 94.
Definition ch_dot : Z := 46.
Definition ch_star : Z := 42.
Definition ch_dollar : Z := 36.

(** [matchstar c re text], where [here] is [matchhere re]. *)
Fixpoint matchstar (c : Z) (here : list Z -> bool) (text : list Z) : bool :=
  if here text then true
  else
    match text with
    | [] => false
    | t :: text' => if (t =? c) || (c =? ch_dot) then matchstar c here text' else false
    end.

Fixpoint matchhere (re text : list Z) {struct re} : bool :=
  match re with
  | [] => true
  | c :: re1 =>
      let rest :=
        if (c =? ch_dollar) && (match re1 with [] => true | _ => false end)
        then match text with [] => true | _ => false end
        else
          match text with
          | [] => false
          | t :: text1 => if (c =? ch_dot) || (c =? t) then matchhere re1 text1 else false
          end in
      match re1 with
      | s :: re2 => if s =? ch_star then matchstar c (matchhere re2) text else rest
      | [] => rest
      end
  end.

(** The [do ... while] of [match]: every suffix of [text], the empty one too. *)
Fixpoint match_from (re text : list Z) : bool :=
  if matchhere re text then true
  else match text with [] => false | _ :: text' => match_from re text' end.

Definition rematch (re text : list Z) : bool :=
  match re with
  | c :: re1 => if c =? ch_caret then matchhere re1 text else match_from re text
  | [] => match_from re text
  end.

(** [strchr(p, '\n')] with the replacement of the newline by NUL: the line and
    what follows it.  A NUL byte in the buffer ends the search. *)
Fixpoint split_line (p : list Z) : option (list Z * list Z) :=
  match p with
  | [] => None
  | c :: p' =>
      if c =? 0 then None
      else if c =? ch_nl then Some ([], p')
      else match split_line p' with
           | Some (line, rest) => Some (c :: line, rest)
           | None => None
           end
  end.

(** The inner loop: what is written to standard output, and [p] at its end. *)
Fixpoint grep_lines (fuel : nat) (pattern p : list Z) : list Z * list Z :=
  match fuel with
  | O => ([], p)
  | S f =>
      match split_line p with
      | None => ([], p)
      | Some (line, rest) =>
          let (out, p') := grep_lines f pattern rest in
          ((if rematch pattern line then line ++ [ch_nl] else []) ++ out, p')
      end
  end.

Definition BUFSZ : Z := 1024.

(** The outer loop; [carry] is [buf[0..m)].  A pass that found no newline
    drops the buffer ([if (p == buf) m = 0]). *)
Fixpoint grep_loop (fuel : nat) (pattern carry : list Z) (st : stream) : list Z :=
  match fuel with
  | O => []
  | S f =>
      let (data, st') := read (BUFSZ - zlen carry - 1) st in
      match data with
      | [] => []
      | _ =>
          let buf := carry ++ data in
          let (out, p) := grep_lines (S (length buf)) pattern buf in
          let carry' := if (length p =? length buf)%nat then [] else p in
          out ++ grep_loop f pattern carry' st'
      end
  end.

Definition grep (pattern : list Z) (st : stream) : list Z :=
  grep_loop (S (pending st)) pattern [] st.

(** *** What a pattern means *)

Inductive item : Type :=
| Lit (c : Z)      (* one character; [.] is any character *)
| Star (c : Z)     (* any number of them *)
| Eol.             (* end of text *)

Fixpoint items (re : list Z) : list item :=
  match re with
  | [] => []
  | c :: re1 =>
      let one := (if (c =? ch_dollar) && (match re1 with [] => true | _ => false end)
                  then Eol else Lit c) :: items re1 in
      match re1 with
      | s :: re2 => if s =? ch_star then Star c :: items re2 else one
      | [] => one
      end
  end.

Definition atom (c t : Z) : Prop := c = ch_dot \/ c = t.

(** The items consume [w] when the text goes on with [post]. *)
Fixpoint sem (its : list item) (w post : list Z) : Prop :=
  match its with
  | [] => w = []
  | Lit c :: its' => exists t w', w = t :: w' /\ atom c t /\ sem its' w' post
  | Star c :: its' => exists w1 w2, w = w1 ++ w2 /\ Forall (atom c) w1 /\ sem its' w2 post
  | Eol :: its' => w = [] /\ post = [] /\ sem its' [] post
  end.

(** The text contains a match of the pattern, at its start if the pattern
    begins with [^]. *)
Definition matches (re text : list Z) : Prop :=
  exists pre w post, text = pre ++ w ++ post /\
    match re with
    | c :: re1 => if c =? ch_caret then pre = [] /\ sem (items re1) w post
                  else sem (items re) w post
    | [] => sem (items re) w post
    end.

(** Complete lines of a text, without their newlines. *)
Fixpoint lines (cur text : list Z) : list (list Z) :=
  match text with
  | [] => []
  | c :: text' => if c =? ch_nl then cur :: lines [] text' else lines (cur ++ [c]) text'
  end.

(** The text without a trailing line that lacks a newline. *)
Definition grep_spec (pattern text : list Z) : list Z :=
  concat (map (fun l => if rematch pattern l then l ++ [ch_nl] else []) (lines [] text)).

(** *** The matcher decides the meaning *)

Lemma atom_test c t : (c =? ch_dot) || (c =? t) = true <-> atom c t.
Proof. unfold atom. rewrite orb_true_iff, !Z.eqb_eq. done. Qed.

Lemma matchstar_iff c here : forall text,
  matchstar c here text = true <->
  exists w1 w2, text = w1 ++ w2 /\ Forall (atom c) w1 /\ here w2 = true.
Proof.
  induction text as [|t text IH]; simpl.
  - destruct (here []) eqn:E.
    + split; [intros _; by exists [], [] | done].
    + split; [done|]. intros (w1 & w2 & Hw & _ & Hh).
      symmetry in Hw. apply app_eq_nil in Hw as [-> ->]. congruence.
  - destruct (here (t :: text)) eqn:E.
    + split; [intros _; by exists [], (t :: text) | done].
    + assert (Hat : (t =? c) || (c =? ch_dot) = true <-> atom c t).
      { unfold atom. rewrite orb_true_iff, !Z.eqb_eq. split; intros [->| ->]; auto. }
      split.
      * destruct (_ || _) eqn:Ec; [|done]. rewrite IH. intros (w1 & w2 & -> & Ha & Hh).
        exists (t :: w1), w2. repeat split; [|done]. constructor; [by apply Hat | done].
      * intros ([|a w1] & w2 & Hw & Ha & Hh); simpl in Hw; [congruence|].
        injection Hw as <- ->. inversion_clear Ha as [|? ? Ha1 Ha2].
        apply Hat in Ha1 as ->. apply IH. by exists w1, w2.
Qed.

(** Induction on patterns that steps over one or two characters. *)
Lemma re_ind (P : list Z -> Prop) :
  P [] -> (forall c, P [c]) ->
  (forall c s re, P re -> P (s :: re) -> P (c :: s :: re)) -> forall re, P re.
Proof.
  intros H0 H1 H2 re.
  enough (P re /\ forall c, P (c :: re)) by tauto.
  induction re as [|c re [IH1 IH2]]; [auto|]. split; [apply IH2|]. auto.
Qed.

Lemma matchhere_cons2 c s re text :
  matchhere (c :: s :: re) text =
  if s =? ch_star then matchstar c (matchhere re) text
  else if (c =? ch_dollar) && false then match text with [] => true | _ => false end
  else match text with
       | [] => false
       | t :: text1 =>
           if (c =? ch_dot) || (c =? t) then matchhere (s :: re) text1 else false
       end.
Proof. reflexivity. Qed.

Lemma items_cons2 c s re :
  items (c :: s :: re) =
  if s =? ch_star then Star c :: items re
  else (if (c =? ch_dollar) && false then Eol else Lit c) :: items (s :: re).
Proof. reflexivity. Qed.

Lemma matchhere_iff re : forall text,
  matchhere re text = true <-> exists w post, text = w ++ post /\ sem (items re) w post.
Proof.
  induction re as [|c|c s re IHre IHsre] using re_ind; intros text.
  - simpl. split; [intros _; by exists [], text | done].
  - simpl. rewrite andb_true_r. destruct (c =? ch_dollar) eqn:E; simpl.
    + destruct text as [|t text]; split; try done.
      * intros _. by exists [], [].
      * by intros (w & post & Hw & -> & -> & _).
    + destruct text as [|t text].
      * split; [done|]. by intros (w & post & Hw & t & w' & -> & _).
      * destruct (_ || _) eqn:Ea.
        -- split; [intros _|done]. exists [t], text. split; [done|].
           exists t, []. by rewrite <- atom_test.
        -- split; [done|]. intros (w & post & Hw & t' & w' & -> & Ha & _).
           injection Hw as <- _. apply atom_test in Ha. congruence.
  - rewrite matchhere_cons2, items_cons2, andb_false_r. destruct (s =? ch_star) eqn:Es.
    + rewrite matchstar_iff. simpl. split.
      * intros (w1 & w2 & -> & Ha & Hm). apply IHre in Hm as (w & post & -> & Hs).
        exists (w1 ++ w), post. rewrite app_assoc. eauto 6.
      * intros (w & post & -> & w1 & w2 & -> & Ha & Hs).
        exists w1, (w2 ++ post). rewrite app_assoc. repeat split; [done|].
        apply IHre. eauto.
    + destruct text as [|t text].
      * split; [done|]. by intros (w & post & Hw & t & w' & -> & _).
      * destruct (_ || _) eqn:Ea.
        -- rewrite IHsre. split.
           ++ intros (w & post & -> & Hs). exists (t :: w), post. split; [done|].
              exists t, w. by rewrite <- atom_test.
           ++ intros (w & post & Hw & t' & w' & -> & _ & Hs).
              injection Hw as <- ->. eauto.
        -- split; [done|]. intros (w & post & Hw & t' & w' & -> & Ha & _).
           injection Hw as <- _. apply atom_test in Ha. congruence.
Qed.

Lemma match_from_iff re : forall text,
  match_from re text = true <->
  exists pre w post, text = pre ++ w ++ post /\ sem (items re) w post.
Proof.
  induction text as [|t text IH]; simpl.
  - destruct (matchhere re []) eqn:E.
    + apply matchhere_iff in E as (w & post & Hw & Hs). split; [|done].
      intros _. exists [], w, post. done.
    + split; [done|]. intros (pre & w & post & Hw & Hs).
      symmetry in Hw. apply app_eq_nil in Hw as [-> Hw].
      assert (matchhere re [] = true) by (apply matchhere_iff; eauto). congruence.
  - destruct (matchhere re (t :: text)) eqn:E.
    + apply matchhere_iff in E as (w & post & Hw & Hs). split; [|done].
      intros _. exists [], w, post. done.
    + rewrite IH. split.
      * intros (pre & w & post & -> & Hs). by exists (t :: pre), w, post.
      * intros ([|t' pre] & w & post & Hw & Hs); simpl in Hw.
        -- assert (matchhere re (t :: text) = true) by (apply matchhere_iff; eauto).
           congruence.
        -- injection Hw as <- ->. eauto.
Qed.

(** C37: grep's matcher accepts a text exactly when the text contains a match of
    the pattern: literal characters, [.], [*] after a character, [^] at the start
    and [$] at the end. *)
Theorem rematch_correct re text : rematch re text = true <-> matches re text.
Proof.
  unfold rematch, matches. destruct re as [|c re]; [apply match_from_iff|].
  destruct (c =? ch_caret) eqn:E; [|apply match_from_iff].
  rewrite matchhere_iff. split.
  - intros (w & post & -> & Hs). by exists [], w, post.
  - intros (pre & w & post & -> & -> & Hs). by exists w, post.
Qed.

(** *** The line loop *)

(** Membership of a byte in concatenated texts. *)
Ltac elems := rewrite ?not_elem_of_app, ?not_elem_of_cons in *; tauto.

Lemma split_line_some p : forall line rest,
  split_line p = Some (line, rest) -> p = line ++ ch_nl :: rest /\ ch_nl ∉ line.
Proof.
  induction p as [|c p IH]; intros line rest; simpl; [done|].
  destruct (c =? 0) eqn:E0; [done|]. destruct (c =? ch_nl) eqn:E1; zbool.
  - intros [= <- <-]. subst. split; [done|]. apply not_elem_of_nil.
  - destruct (split_line p) as [[l r]|]; [|done]. intros [= <- <-].
    destruct (IH l r) as [-> Hn]; [done|]. split; [done|].
    apply not_elem_of_cons. split; [congruence | done].
Qed.

Lemma split_line_none p :
  0 ∉ p -> split_line p = None -> ch_nl ∉ p.
Proof.
  induction p as [|c p IH]; intros H0; simpl; [intros _; apply not_elem_of_nil|].
  apply not_elem_of_cons in H0 as [Hc H0].
  destruct (c =? 0) eqn:E0; zbool; [congruence|].
  destruct (c =? ch_nl) eqn:E1; [done|]. zbool.
  destruct (split_line p) as [[l r]|]; [done|]. intros _.
  apply not_elem_of_cons. split; [congruence | auto].
Qed.

Lemma lines_app_line : forall line cur rest,
  ch_nl ∉ line -> lines cur (line ++ ch_nl :: rest) = (cur ++ line) :: lines [] rest.
Proof.
  induction line as [|c line IH]; intros cur rest Hn; simpl.
  - by rewrite app_nil_r.
  - apply not_elem_of_cons in Hn as [Hc Hn]. destruct (c =? ch_nl) eqn:E; zbool; [congruence|].
    rewrite IH by done. by rewrite <- app_assoc.
Qed.

Lemma lines_none : forall p cur, ch_nl ∉ p -> lines cur p = [].
Proof.
  induction p as [|c p IH]; intros cur Hn; simpl; [done|].
  apply not_elem_of_cons in Hn as [Hc Hn]. destruct (c =? ch_nl) eqn:E; zbool; [congruence|].
  by apply IH.
Qed.

Lemma grep_lines_spec pattern : forall fuel p,
  0 ∉ p -> (length p < fuel)%nat ->
  exists c p', grep_lines fuel pattern p = (grep_spec pattern c, p') /\
    p = c ++ p' /\ (ch_nl ∉ p') /\
    forall x, grep_spec pattern (p ++ x) = grep_spec pattern c ++ grep_spec pattern (p' ++ x).
Proof.
  induction fuel as [|f IH]; intros p H0 Hf; [lia|]. simpl.
  destruct (split_line p) as [[line rest]|] eqn:E.
  - apply split_line_some in E as [-> Hn].
    rewrite length_app in Hf. simpl in Hf.
    destruct (IH rest) as (c & p' & Hg & -> & Hnl & Hx); [elems | lia |].
    rewrite Hg. exists (line ++ ch_nl :: c), p'.
    assert (Hs : forall y, grep_spec pattern (line ++ ch_nl :: y) =
      (if rematch pattern line then line ++ [ch_nl] else []) ++ grep_spec pattern y).
    { intros y. unfold grep_spec. by rewrite lines_app_line. }
    rewrite Hs. split_and!; [done | by rewrite <- app_assoc | done |].
    intros x. rewrite <- app_assoc. simpl. rewrite Hs, Hx. by rewrite app_assoc.
  - exists [], p. split_and!; [done | done | by apply split_line_none | done].
Qed.

(** No run of bytes without a newline fills the buffer. *)
Definition short_lines (t : list Z) : Prop :=
  forall pre w post, t = pre ++ w ++ post -> ch_nl ∉ w -> zlen w < BUFSZ - 1.

Lemma short_lines_app c t : short_lines (c ++ t) -> short_lines t.
Proof. intros H pre w post -> Hn. apply (H (c ++ pre) w post); [by rewrite <- app_assoc | done]. Qed.

Lemma grep_loop_file pattern : forall fuel carry rest st,
  st = [] /\ rest = [] \/ st = [rest] ->
  (length rest < fuel)%nat -> 0 ∉ carry ++ rest -> ch_nl ∉ carry ->
  short_lines (carry ++ rest) ->
  grep_loop fuel pattern carry st = grep_spec pattern (carry ++ rest).
Proof.
  induction fuel as [|f IH]; intros carry rest st Hst Hf H0 Hn Hs; [lia|]. cbn [grep_loop].
  assert (Hc : zlen carry < BUFSZ - 1) by (by apply (Hs [] carry rest)).
  pose proof (read_concat (BUFSZ - zlen carry - 1) st) as Hcat.
  assert (Hst' : exists data rest', read (BUFSZ - zlen carry - 1) st =
      (data, if decide (rest' = []) then [] else [rest']) /\ rest = data ++ rest' /\
      (rest' = [] \/ zlen data = BUFSZ - zlen carry - 1)).
  { destruct Hst as [[-> ->] | ->]; [by exists [], []; eauto|]. simpl. case_bool; zbool.
    - exists rest, []. rewrite app_nil_r. eauto.
    - unfold zlen in *. set (w := BUFSZ - _ - 1) in *.
      exists (take (Z.to_nat w) rest), (drop (Z.to_nat w) rest).
      rewrite take_drop, length_take. split; [|split; [done | right; lia]].
      rewrite decide_False; [done|]. intros Hd.
      apply (f_equal length) in Hd. rewrite length_drop in Hd. simpl in Hd. lia. }
  destruct Hst' as (data & rest' & -> & -> & Hfull). clear Hcat Hst.
  destruct data as [|d data].
  { destruct Hfull as [-> | Hz]; [|unfold zlen in Hz, Hc; cbn in Hz; lia].
    unfold grep_spec. simpl. by rewrite lines_none by (by rewrite app_nil_r). }
  set (data' := d :: data) in *. rewrite app_assoc in *.
  assert (H0b : 0 ∉ carry ++ data') by elems.
  destruct (grep_lines_spec pattern (S (length (carry ++ data'))) (carry ++ data'))
    as (c & p' & Hg & Hcp & Hnl & Hx); [done | lia |].
  rewrite Hg, Hx. f_equal. rewrite length_app in Hf.
  destruct (length p' =? length (carry ++ data'))%nat eqn:E.
  - (* no newline in the buffer: it is not full, so the file is at its end *)
    apply Nat.eqb_eq in E. rewrite Hcp, length_app in E.
    assert (c = []) as -> by (apply length_zero_iff_nil; lia). simpl in Hcp. subst p'.
    assert (rest' = []) as ->.
    { destruct Hfull as [|Hfull]; [done|].
      assert (zlen (carry ++ data') < BUFSZ - 1)
        by (apply (Hs [] (carry ++ data') rest'); [done|done]).
      unfold zlen in *. rewrite length_app in *. lia. }
    rewrite decide_True by done.
    rewrite (IH [] [] []); [| by left | simpl in *; lia | apply not_elem_of_nil | apply not_elem_of_nil |].
    + unfold grep_spec.
      by rewrite !lines_none by (rewrite ?app_nil_r; first [done | apply not_elem_of_nil]).
    + intros pre w post Hw _. symmetry in Hw. simpl in Hw. apply app_eq_nil in Hw as [_ Hw].
      apply app_eq_nil in Hw as [-> _]. unfold zlen, BUFSZ. simpl. lia.
  - rewrite (IH p' rest'); [done | | simpl in *; lia | | done |].
    + case_decide; [left; subst; done | by right].
    + rewrite Hcp, <- app_assoc in H0. elems.
    + rewrite Hcp, <- app_assoc in Hs. by apply short_lines_app in Hs.
Qed.

(** Grep of a file without NUL bytes whose lines fit the buffer terminates
    and prints the complete lines that match the pattern, in order, and nothing
    else. *)
Theorem grep_file pattern text :
  0 ∉ text -> short_lines text -> grep pattern [text] = grep_spec pattern text.
Proof.
  intros H0 Hs. unfold grep, pending. simpl concat. rewrite app_nil_r.
  apply (grep_loop_file pattern _ [] text); [by right | lia | done | apply not_elem_of_nil | done].
Qed.

Definition two_lines : list Z := bytes_of_string "ab" ++ [ch_nl] ++ bytes_of_string "cb" ++ [ch_nl].

Lemma grep_file_witness :
  grep (bytes_of_string "^c") [two_lines] = grep_spec (bytes_of_string "^c") two_lines.
Proof.
  apply grep_file.
  - vm_compute. intros H. repeat (inversion H as [|? ? ? H']; clear H; rename H' into H).
  - intros pre w post Hw _. apply (f_equal length) in Hw. rewrite !length_app in Hw.
    unfold zlen, BUFSZ. change (length two_lines) with 6%nat in Hw. lia.
Defined.

(** A stream that delivers a line in two reads. *)
Definition two_reads : stream := [bytes_of_string "needle in"; bytes_of_string " hay" ++ [ch_nl]].

(** A read that ends inside a line loses the part of the line it delivered:
    the line [needle in hay], delivered in two reads, is not found, while the same
    line delivered in one read is. *)
Theorem grep_short_read_loses :
  grep (bytes_of_string "needle") two_reads = [] /\
  grep (bytes_of_string "needle") [concat two_reads] = concat two_reads.
Proof. vm_compute. done. Qed.

End Grep.

(** ** wc.c *)

Module Wc.
Import Stream.

(** The characters of [strchr(" \r\t\n\v", c)]; a NUL is not one of them. *)
Definition is_space (c : Z) : bool :=
  (c =? ch_space) || (c =? ch_cr) || (c =? ch_tab) || (c =? ch_nl) || (c =? ch_vt).

Record counts : Type := { wl : Z; ww : Z; wc_ : Z; winword : bool }.

(** The body of the [for] loop. *)
Definition wc_char (k : counts) (b : Z) : counts :=
  {| wc_ := wc_ k + 1;
     wl := if b =? ch_nl then wl k + 1 else wl k;
     ww := if is_space b then ww k else if winword k then ww k else ww k + 1;
     winword := negb (is_space b) |}.

(** The [while] loop over reads of at most 512 bytes. *)
Fixpoint wc_loop (fuel : nat) (k : counts) (st : stream) : counts :=
  match fuel with
  | O => k
  | S f =>
      let (data, st') := read 512 st in
      match data with
      | [] => k
      | _ => wc_loop f (fold_left wc_char data k) st'
      end
  end.

Definition wc (st : stream) : Z * Z * Z :=
  let k := wc_loop (S (pending st)) {| wl := 0; ww := 0; wc_ := 0; winword := false |} st in
  (wl k, ww k, wc_ k).

(** What is counted: newlines, maximal runs of non-space characters, bytes. *)
Fixpoint words (inword : bool) (t : list Z) : Z :=
  match t with
  | [] => 0
  | c :: t' =>
      if is_space c then words false t'
      else (if inword then 0 else 1) + words true t'
  end.

Definition newlines (t : list Z) : Z := zlen (filter (fun c => c = ch_nl) t).

Lemma wc_fold t : forall k,
  fold_left wc_char t k =
  {| wl := wl k + newlines t; ww := ww k + words (winword k) t; wc_ := wc_ k + zlen t;
     winword := match rev t with [] => winword k | c :: _ => negb (is_space c) end |}.
Proof.
  induction t as [|c t IH]; intros k; cbn [fold_left].
  - destruct k. unfold newlines, zlen. simpl. f_equal; lia.
  - rewrite IH. unfold wc_char. cbn [wl ww wc_ winword words rev].
    unfold newlines, zlen. rewrite filter_cons. simpl length.
    f_equal.
    + destruct (c =? ch_nl) eqn:E; zbool; case_decide; simpl; lia.
    + destruct (is_space c), (winword k); simpl; lia.
    + lia.
    + destruct (rev t); done.
Qed.

(** A stream ends at its first empty read: no chunk is empty. *)
Definition proper (st : stream) : Prop := Forall (fun c => c <> []) st.

Lemma read_proper want st :
  0 < want -> proper st ->
  proper (snd (read want st)) /\ (fst (read want st) = [] -> st = []).
Proof.
  intros Hw Hp. destruct Hp as [|c st Hc Hp]; simpl; [split; [constructor | done]|].
  case_bool; zbool; simpl; [by split|]. unfold zlen in *. split.
  - constructor; [|done]. intros Hd. apply (f_equal length) in Hd.
    rewrite length_drop in Hd. simpl in Hd. lia.
  - intros Ht. apply (f_equal length) in Ht. rewrite length_take in Ht. simpl in Ht.
    destruct c; [done|]. simpl in *. lia.
Qed.

Lemma wc_loop_fold : forall fuel k st,
  proper st -> (pending st < fuel)%nat ->
  wc_loop fuel k st = fold_left wc_char (concat st) k.
Proof.
  induction fuel as [|f IH]; intros k st Hp Hf; [lia|]. cbn [wc_loop].
  pose proof (read_concat 512 st) as Hc. pose proof (read_left 512 st) as [Hl1 Hl2].
  destruct (read_proper 512 st) as [Hp' He]; [lia | done |].
  destruct (read 512 st) as [data st']. cbn [fst snd] in *.
  destruct data as [|d data].
  - rewrite He by done. done.
  - rewrite IH by (done || (simpl in *; lia)). rewrite <- Hc, fold_left_app. done.
Qed.

(** Wc counts newlines, maximal runs of characters other than blanks, and
    bytes, however the input is cut into reads. *)
Theorem wc_correct st :
  proper st ->
  wc st = (newlines (concat st), words false (concat st), zlen (concat st)).
Proof.
  intros Hp. unfold wc. rewrite wc_loop_fold by (done || lia). rewrite wc_fold. simpl. done.
Qed.

Lemma wc_correct_witness :
  wc [[97; 32]; [98; 10]] = (newlines [97; 32; 98; 10], words false [97; 32; 98; 10], 4).
Proof. apply (wc_correct [[97; 32]; [98; 10]]). repeat constructor; discriminate. Defined.

End Wc.

(** ** cat.c *)

Module Cat.
Import Stream.

(** How [cat] ends: at end of file, or with its message on a short write. *)
Inductive ending : Type := Eof | WriteError.

(** The loop of [cat]; [wr data] is the number of bytes [write(1, data, n)]
    accepts. *)
Fixpoint cat_loop (wr : list Z -> Z) (fuel : nat) (st : stream) : list Z * ending :=
  match fuel with
  | O => ([], Eof)
  | S f =>
      let (data, st') := read 512 st in
      match data with
      | [] => ([], Eof)
      | _ =>
          if wr data =? zlen data then
            let (out, e) := cat_loop wr f st' in (data ++ out, e)
          else (take (Z.to_nat (wr data)) data, WriteError)
      end
  end.

Definition cat (wr : list Z -> Z) (st : stream) : list Z * ending :=
  cat_loop wr (S (pending st)) st.

Lemma cat_loop_copies wr : forall fuel st,
  (forall d, wr d = zlen d) -> Wc.proper st -> (pending st < fuel)%nat ->
  cat_loop wr fuel st = (concat st, Eof).
Proof.
  intros fuel st Hwr. revert st.
  induction fuel as [|f IH]; intros st Hp Hf; [lia|]. cbn [cat_loop].
  pose proof (read_concat 512 st) as Hc. pose proof (read_left 512 st) as [Hl1 Hl2].
  destruct (Wc.read_proper 512 st) as [Hp' He]; [lia | done |].
  destruct (read 512 st) as [data st']. cbn [fst snd] in *.
  destruct data as [|d data]; [by rewrite He|].
  rewrite Hwr, Z.eqb_refl. rewrite IH by (done || (simpl in *; lia)). by rewrite <- Hc.
Qed.

End Cat.
