(* ===== verification/Draw.v ===== *)
(** * The line drawing programs: cutinto8.c, cutinto4.c, draw.c, drawlines.c

    All four share one [DrawLine], Bresenham's algorithm with an integer error
    term.  A program is modelled by the system calls it makes, in order.
    The coordinates, the deltas and the error term are C [int]s, [abs] works on a
    32-bit [long]; arithmetic wraps around at 32 bits.  The theorems have the range of
    coordinates in which nothing overflows as a hypothesis. *)

From stdpp Require Import base list strings.
From Stdlib Require Import ZArith Lia.
From S2P Require Import Prelude.

Module Draw.

(** ** The system calls of the programs *)

Inductive sys : Type :=
| SPrint (s : string)
| SGetch
| SVga12 | SVga13 | SText
| SClear12 | SClear13
| SPixel (x y c : Z)
| SExit.

(** ** DrawLine *)

Definition cabs (value : Z) : Z := if value <? 0 then s32 (0 - value) else value.

(** The [for (;;)] loop.  Each round draws one pixel. *)
Fixpoint line_loop (fuel : nat) (dx sx dy sy x1 y1 c : Z) (x0 y0 err : Z) : option (list sys) :=
  match fuel with
  | O => None
  | S f =>
      if (x0 =? x1) && (y0 =? y1) then Some [SPixel x0 y0 c]
      else
        let e2 := err in
        let '(err, y0') := if e2 <? dy then (s32 (err + dx), s32 (y0 + sy)) else (err, y0) in
        let '(err, x0') := if s32 (- dx) <? e2 then (s32 (err - dy), s32 (x0 + sx)) else (err, x0) in
        match line_loop f dx sx dy sy x1 y1 c x0' y0' err with
        | Some l => Some (SPixel x0 y0 c :: l)
        | None => None
        end
  end.

Definition line_dx (x0 x1 : Z) : Z := cabs (s32 (x1 - x0)).
Definition line_s (x0 x1 : Z) : Z := if x0 <? x1 then 1 else -1.
Definition line_err (dx dy : Z) : Z := Z.quot (if dy <? dx then dx else s32 (- dy)) 2.

Definition DrawLine_fuel (fuel : nat) (x0 y0 x1 y1 c : Z) : option (list sys) :=
  let dx := line_dx x0 x1 in let sx := line_s x0 x1 in
  let dy := line_dx y0 y1 in let sy := line_s y0 y1 in
  line_loop fuel dx sx dy sy x1 y1 c x0 y0 (line_err dx dy).

(** Enough rounds for every line: the longer side of its box, plus one. *)
Definition line_rounds (x0 y0 x1 y1 : Z) : nat :=
  S (Z.to_nat (Z.max (line_dx x0 x1) (line_dx y0 y1))).

Definition DrawLine (x0 y0 x1 y1 c : Z) : list sys :=
  default [] (DrawLine_fuel (line_rounds x0 y0 x1 y1) x0 y0 x1 y1 c).

(** ** The programs *)

Definition cutinto8_main : list sys :=
  [SPrint "Press ENTER to start 12h"; SGetch; SVga12; SClear12] ++
  DrawLine (640 / 2) 0 (640 / 2) 480 20 ++
  DrawLine 0 0 640 480 20 ++
  DrawLine 0 480 640 0 20 ++
  DrawLine 0 (480 / 2) 640 (480 / 2) 20 ++
  [SGetch; SText; SPrint "Press ENTER to start 13h"; SGetch; SVga13; SClear13] ++
  DrawLine (320 / 2) 0 (320 / 2) 480 20 ++
  DrawLine 0 0 320 200 20 ++
  DrawLine 0 200 320 0 20 ++
  DrawLine 0 (200 / 2) 640 (200 / 2) 20 ++
  [SGetch; SText; SPrint "Cut into 8 finished!"; SExit].

Definition cutinto4_main : list sys :=
  [SPrint "Press ENTER to start 12h"; SGetch; SVga12; SClear12] ++
  DrawLine (640 / 2) 0 (640 / 2) 480 20 ++
  DrawLine 0 (480 / 2) 640 (480 / 2) 20 ++
  [SGetch; SText; SPrint "Press ENTER to start 13h"; SGetch; SVga13; SClear13] ++
  DrawLine (320 / 2) 0 (320 / 2) 200 20 ++
  DrawLine 0 (200 / 2) 320 (200 / 2) 20 ++
  [SGetch; SText; SPrint "Cut into 4 finished!"; SExit].

Definition draw_main : list sys := [SVga13; SGetch; SVga12; SGetch; SText; SExit].

(** [ClearScreen(width, height, colour)] of drawlines.c: columns, then rows. *)
Definition ClearScreen (width height colour : Z) : list sys :=
  x ← seqZ 0 width; y ← seqZ 0 height; [SPixel x y colour].

(** drawlines.c selects its mode with [videomodevga()], the 0x13 mode of an
    earlier version of the system calls. *)
Definition drawlines_main : list sys :=
  [SVga13] ++ ClearScreen 320 200 0 ++
  (i ← seqZ 1 30; DrawLine (i * 10) 10 (i * 10) 190 1) ++
  [SPrint "Done!"; SGetch; SText; SExit].

(** ** The ideal line

    On the axis along which the line is longer the [k]-th pixel has moved [k]
    steps; on the other one it has moved the rounded fraction. *)
Definition minor (d e r k : Z) : Z := (k * e + r) / d.

Definition ideal_pixel (x0 y0 x1 y1 k : Z) : Z * Z :=
  let dx := Z.abs (x1 - x0) in let sx := line_s x0 x1 in
  let dy := Z.abs (y1 - y0) in let sy := line_s y0 y1 in
  if dy <? dx then (x0 + sx * k, y0 + sy * minor dx dy (dx - 1 - dx / 2) k)
  else (x0 + sx * minor dy dx (dy - 1 - dy / 2) k, y0 + sy * k).

Definition ideal_line (x0 y0 x1 y1 c : Z) : list sys :=
  (fun k => let '(x, y) := ideal_pixel x0 y0 x1 y1 k in SPixel x y c) <$>
  seqZ 0 (Z.max (Z.abs (x1 - x0)) (Z.abs (y1 - y0)) + 1).

(** Coordinates between which no line overflows an [int]. *)
Definition in_range (a : Z) : Prop := - 2 ^ 29 <= a < 2 ^ 29.

(** ** The loop follows the ideal line *)

Lemma line_dx_eq a b : in_range a -> in_range b -> line_dx a b = Z.abs (b - a).
Proof.
  unfold in_range. intros Ha Hb. unfold line_dx, cabs. rewrite s32_small by lia.
  case_bool; zbool; [rewrite s32_small by lia|]; lia.
Qed.

Lemma line_s_dx a b : line_s a b * Z.abs (b - a) = b - a.
Proof. unfold line_s. zcases. Qed.

Lemma line_s_cases a b : line_s a b = 1 \/ line_s a b = -1.
Proof. unfold line_s. case_bool; auto. Qed.

Lemma line_err_x dx dy : dy < dx -> 0 <= dy -> line_err dx dy = dx / 2.
Proof. intros. unfold line_err. case_bool; zbool; [|lia]. apply Z.quot_div_nonneg; lia. Qed.

Lemma line_err_y dx dy : dx <= dy < 2 ^ 31 -> 0 <= dx -> line_err dx dy = - (dy / 2).
Proof.
  intros. unfold line_err. case_bool; zbool; [lia|]. rewrite s32_small by lia.
  rewrite Z.quot_opp_l, Z.quot_div_nonneg by lia. done.
Qed.

(** One round of the loop. *)
Lemma line_loop_S f dx sx dy sy x1 y1 c x0 y0 err :
  line_loop (S f) dx sx dy sy x1 y1 c x0 y0 err =
  if (x0 =? x1) && (y0 =? y1) then Some [SPixel x0 y0 c]
  else
    let '(err1, y0') := if err <? dy then (s32 (err + dx), s32 (y0 + sy)) else (err, y0) in
    let '(err2, x0') := if s32 (- dx) <? err then (s32 (err1 - dy), s32 (x0 + sx)) else (err1, x0) in
    match line_loop f dx sx dy sy x1 y1 c x0' y0' err2 with
    | Some l => Some (SPixel x0 y0 c :: l)
    | None => None
    end.
Proof. reflexivity. Qed.

(** The error term pins down the position on the short axis. *)
Lemma minor_unique d e r k j :
  0 < d -> 0 <= r < d -> 0 <= k * e + r - j * d < d -> minor d e r k = j.
Proof. intros Hd Hr Hj. unfold minor. symmetry. apply Z.div_unique with (k * e + r - j * d); lia. Qed.

Lemma minor_range d e r k :
  0 < d -> let v := k * e + r - minor d e r k * d in 0 <= v < d.
Proof.
  intros Hd v. unfold v, minor. pose proof (Z.div_mod (k * e + r) d). 
  pose proof (Z.mod_pos_bound (k * e + r) d). lia.
Qed.

Lemma minor_bounds d e r k : 0 < d -> 0 <= r < d -> 0 <= k <= d -> 0 <= e -> 0 <= minor d e r k <= e.
Proof. intros Hd Hr Hk He. pose proof (minor_range d e r k Hd). cbv zeta in *. nia. Qed.

(** The way from [a] to [b] stays in range. *)
Lemma on_the_way a b k : in_range a -> in_range b -> 0 <= k <= Z.abs (b - a) ->
  s32 (a + line_s a b * k) = a + line_s a b * k.
Proof. unfold in_range, line_s. intros Ha Hb Hk. apply s32_small. zcases. Qed.

Section Loop.
Context (x0 y0 x1 y1 c : Z).
Context (Rx0 : in_range x0) (Ry0 : in_range y0) (Rx1 : in_range x1) (Ry1 : in_range y1).
Let dx := Z.abs (x1 - x0).
Let sx := line_s x0 x1.
Let dy := Z.abs (y1 - y0).
Let sy := line_s y0 y1.

Definition pix (k : Z) : sys :=
  let '(x, y) := ideal_pixel x0 y0 x1 y1 k in SPixel x y c.

Lemma pix_x k :
  dy < dx ->
  pix k = SPixel (x0 + sx * k) (y0 + sy * minor dx dy (dx - 1 - dx / 2) k) c.
Proof.
  intros H. unfold pix, ideal_pixel. fold dx dy sx sy.
  destruct (dy <? dx) eqn:E; zbool; [done|lia].
Qed.

Lemma pix_y k :
  dx <= dy ->
  pix k = SPixel (x0 + sx * minor dy dx (dy - 1 - dy / 2) k) (y0 + sy * k) c.
Proof.
  intros H. unfold pix, ideal_pixel. fold dx dy sx sy.
  destruct (dy <? dx) eqn:E; zbool; [lia|done].
Qed.

(** Lines that are wider than high: every round moves along [x]. *)
Lemma line_loop_x : forall n k,
  dy < dx -> 0 <= k -> k + Z.of_nat n = dx ->
  let j := minor dx dy (dx - 1 - dx / 2) k in
  line_loop (S n) dx sx dy sy x1 y1 c (x0 + sx * k) (y0 + sy * j) (dx / 2 - k * dy + j * dx) =
  Some (pix <$> seqZ k (Z.of_nat n + 1)).
Proof.
  assert (Hy : 0 <= dy) by (unfold dy; lia).
  pose proof (line_s_dx x0 x1) as Hsx. fold sx dx in Hsx.
  pose proof (line_s_dx y0 y1) as Hsy. fold sy dy in Hsy.
  pose proof (line_s_cases x0 x1) as Hcx. fold sx in Hcx.
  induction n as [|n IH]; intros k Hd Hk Hn j.
  - assert (j = dy) as Hj.
    { apply minor_unique; [lia| |]; replace k with dx by lia;
        Z.to_euclidean_division_equations; lia. }
    rewrite (seqZ_cons k) by lia. change (Z.pred (Z.of_nat 0 + 1)) with 0.
    simpl fmap. rewrite pix_x by done. fold j. rewrite Hj. rewrite line_loop_S.
    replace (x0 + sx * k) with x1 by nia. replace (y0 + sy * dy) with y1 by lia.
    by rewrite !Z.eqb_refl.
  - rewrite line_loop_S.
    assert (x0 + sx * k <> x1) as Hx by nia.
    replace (x0 + sx * k =? x1) with false by lia. rewrite andb_false_l.
    pose proof (minor_range dx dy (dx - 1 - dx / 2) k ltac:(lia)) as Hr.
    cbv zeta in Hr. fold j in Hr.
    assert (Herr : 0 <= dx / 2 - k * dy + j * dx < dx) by
      (Z.to_euclidean_division_equations; lia).
    assert (Hb : dx < 2 ^ 30 /\ dy < 2 ^ 30) by (unfold dx, dy, in_range in *; lia).
    rewrite (s32_small (- dx)) by lia. destruct (- dx <? _) eqn:E2; zbool; [|lia].
    set (j' := minor dx dy (dx - 1 - dx / 2) (k + 1)).
    assert (Hjb : 0 <= j' <= dy) by (apply minor_bounds; try lia; Z.to_euclidean_division_equations; lia).
    assert (Wx : s32 (x0 + sx * (k + 1)) = x0 + sx * (k + 1)) by (apply on_the_way; try done; fold dx; lia).
    assert (Wy : s32 (y0 + sy * j') = y0 + sy * j') by (by apply on_the_way).
    specialize (IH (k + 1) Hd ltac:(lia) ltac:(lia)). fold j' in IH. cbv zeta in IH.
    assert (Hj' : j' = if dx / 2 - k * dy + j * dx <? dy then j + 1 else j).
    { case_bool; zbool; (apply minor_unique; [lia| |]; Z.to_euclidean_division_equations; lia). }
    rewrite (seqZ_cons k) by lia.
    replace (Z.pred (Z.of_nat (S n) + 1)) with (Z.of_nat n + 1) by lia.
    change (Z.succ k) with (k + 1).
    simpl fmap. rewrite pix_x by done. fold j. rewrite Hj' in IH.
    destruct (dx / 2 - k * dy + j * dx <? dy) eqn:E1; zbool.
    + replace (x0 + sx * k + sx) with (x0 + sx * (k + 1)) by lia.
      replace (y0 + sy * j + sy) with (y0 + sy * (j + 1)) by lia.
      rewrite (s32_small (_ + dx)), (s32_small (_ - dy)), Wx, <- Hj', Wy, Hj' by lia.
      replace (dx / 2 - k * dy + j * dx + dx - dy) with
        (dx / 2 - (k + 1) * dy + (j + 1) * dx) by lia. by rewrite IH.
    + replace (x0 + sx * k + sx) with (x0 + sx * (k + 1)) by lia.
      rewrite (s32_small (_ - dy)), Wx by lia.
      replace (dx / 2 - k * dy + j * dx - dy) with
        (dx / 2 - (k + 1) * dy + j * dx) by lia. by rewrite IH.
Qed.

(** Lines that are at least as high as wide: every round moves along [y]. *)
Lemma line_loop_y : forall n k,
  dx <= dy -> 0 <= k -> k + Z.of_nat n = dy ->
  let j := minor dy dx (dy - 1 - dy / 2) k in
  line_loop (S n) dx sx dy sy x1 y1 c (x0 + sx * j) (y0 + sy * k)
    (- (dy / 2) + k * dx - j * dy) =
  Some (pix <$> seqZ k (Z.of_nat n + 1)).
Proof.
  assert (Hx : 0 <= dx) by (unfold dx; lia).
  pose proof (line_s_dx x0 x1) as Hsx. fold sx dx in Hsx.
  pose proof (line_s_dx y0 y1) as Hsy. fold sy dy in Hsy.
  pose proof (line_s_cases y0 y1) as Hcy. fold sy in Hcy.
  induction n as [|n IH]; intros k Hd Hk Hn j.
  - assert (j = dx \/ dy = 0) as Hj.
    { destruct (decide (dy = 0)); [by right|]. left.
      apply minor_unique; [lia| |]; replace k with dy by lia;
        Z.to_euclidean_division_equations; lia. }
    rewrite (seqZ_cons k) by lia. change (Z.pred (Z.of_nat 0 + 1)) with 0.
    simpl fmap. rewrite pix_y by done. fold j. rewrite line_loop_S.
    assert (x0 + sx * j = x1) as ->.
    { destruct Hj as [-> | Hz]; [lia|]. unfold j, minor. rewrite Hz, Z.div_0_r.
      assert (Hz' : dx = 0) by lia. rewrite Hz' in Hsx. lia. }
    replace (y0 + sy * k) with y1 by nia.
    by rewrite !Z.eqb_refl.
  - rewrite line_loop_S.
    assert (y0 + sy * k <> y1) as Hy by nia.
    replace (y0 + sy * k =? y1) with false by lia. rewrite andb_false_r.
    pose proof (minor_range dy dx (dy - 1 - dy / 2) k ltac:(lia)) as Hr.
    cbv zeta in Hr. fold j in Hr.
    assert (Herr : - dy < - (dy / 2) + k * dx - j * dy <= 0) by
      (Z.to_euclidean_division_equations; lia).
    assert (Hb : dx < 2 ^ 30 /\ dy < 2 ^ 30) by (unfold dx, dy, in_range in *; lia).
    rewrite (s32_small (- dx)) by lia. destruct (_ <? dy) eqn:E2; zbool; [|lia].
    set (j' := minor dy dx (dy - 1 - dy / 2) (k + 1)).
    assert (Hjb : 0 <= j' <= dx) by (apply minor_bounds; try lia; Z.to_euclidean_division_equations; lia).
    assert (Wy : s32 (y0 + sy * (k + 1)) = y0 + sy * (k + 1)) by (apply on_the_way; try done; fold dy; lia).
    assert (Wx : s32 (x0 + sx * j') = x0 + sx * j') by (by apply on_the_way).
    specialize (IH (k + 1) Hd ltac:(lia) ltac:(lia)). fold j' in IH. cbv zeta in IH.
    assert (Hj' : j' = if - dx <? - (dy / 2) + k * dx - j * dy then j + 1 else j).
    { case_bool; zbool; (apply minor_unique; [lia| |]; Z.to_euclidean_division_equations; lia). }
    rewrite (seqZ_cons k) by lia.
    replace (Z.pred (Z.of_nat (S n) + 1)) with (Z.of_nat n + 1) by lia.
    change (Z.succ k) with (k + 1).
    simpl fmap. rewrite pix_y by done. fold j. rewrite Hj' in IH.
    destruct (- dx <? _) eqn:E1; zbool.
    + replace (y0 + sy * k + sy) with (y0 + sy * (k + 1)) by lia.
      replace (x0 + sx * j + sx) with (x0 + sx * (j + 1)) by lia.
      rewrite (s32_small (_ + dx)), (s32_small (_ - dy)), Wy, <- Hj', Wx, Hj' by lia.
      replace (- (dy / 2) + k * dx - j * dy + dx - dy) with
        (- (dy / 2) + (k + 1) * dx - (j + 1) * dy) by lia. by rewrite IH.
    + replace (y0 + sy * k + sy) with (y0 + sy * (k + 1)) by lia.
      rewrite (s32_small (_ + dx)), Wy by lia.
      replace (- (dy / 2) + k * dx - j * dy + dx) with
        (- (dy / 2) + (k + 1) * dx - j * dy) by lia. by rewrite IH.
Qed.

Lemma DrawLine_fuel_ideal :
  DrawLine_fuel (line_rounds x0 y0 x1 y1) x0 y0 x1 y1 c = Some (ideal_line x0 y0 x1 y1 c).
Proof.
  unfold DrawLine_fuel, ideal_line, line_rounds. rewrite !line_dx_eq by done. fold dx sx dy sy.
  assert (Hx : 0 <= dx < 2 ^ 30) by (unfold dx, in_range in *; lia).
  assert (Hy : 0 <= dy < 2 ^ 30) by (unfold dy, in_range in *; lia).
  destruct (Z.lt_ge_cases dy dx) as [Hd|Hd].
  - pose proof (line_loop_x (Z.to_nat (Z.max dx dy)) 0 Hd ltac:(lia) ltac:(lia)) as H.
    cbv zeta in H. assert (minor dx dy (dx - 1 - dx / 2) 0 = 0) as Hm.
    { apply minor_unique; [lia| |]; Z.to_euclidean_division_equations; lia. }
    rewrite Hm in H. rewrite line_err_x by lia.
    replace (x0 + sx * 0) with x0 in H by lia. replace (y0 + sy * 0) with y0 in H by lia.
    replace (dx / 2 - 0 * dy + 0 * dx) with (dx / 2) in H by lia.
    rewrite H. do 3 f_equal. lia.
  - pose proof (line_loop_y (Z.to_nat (Z.max dx dy)) 0 Hd ltac:(lia) ltac:(lia)) as H.
    cbv zeta in H. assert (minor dy dx (dy - 1 - dy / 2) 0 = 0) as Hm.
    { destruct (decide (dy = 0)) as [E|]; [unfold minor; by rewrite E, Z.div_0_r|].
      apply minor_unique; [lia| |]; Z.to_euclidean_division_equations; lia. }
    rewrite Hm in H. rewrite line_err_y by lia.
    replace (x0 + sx * 0) with x0 in H by lia. replace (y0 + sy * 0) with y0 in H by lia.
    replace (- (dy / 2) + 0 * dx - 0 * dy) with (- (dy / 2)) in H by lia.
    rewrite H. do 3 f_equal. lia.
Qed.

End Loop.

Lemma line_loop_more dx sx dy sy x1 y1 c k : forall f x0 y0 err l,
  line_loop f dx sx dy sy x1 y1 c x0 y0 err = Some l ->
  line_loop (f + k) dx sx dy sy x1 y1 c x0 y0 err = Some l.
Proof.
  induction f as [|f IH]; intros x0 y0 err l; [done|].
  change (S f + k)%nat with (S (f + k)). rewrite !line_loop_S.
  destruct (_ && _); [done|].
  destruct (if err <? dy then _ else _) as [err1 y0'].
  destruct (if s32 (- dx) <? err then _ else _) as [err2 x0'].
  destruct (line_loop f dx sx dy sy x1 y1 c x0' y0' err2) eqn:E; [|done].
  by rewrite (IH _ _ _ _ E).
Qed.

(** C38: [DrawLine] between points with coordinates from -2^29 up to 2^29 terminates: given
    at least as many rounds as the longer side of the box, plus one, it draws exactly the
    pixels of the ideal line, in order, computing with 32-bit [int]s that would wrap around. *)
Theorem DrawLine_correct fuel x0 y0 x1 y1 c :
  in_range x0 -> in_range y0 -> in_range x1 -> in_range y1 ->
  (line_rounds x0 y0 x1 y1 <= fuel)%nat ->
  DrawLine_fuel fuel x0 y0 x1 y1 c = Some (ideal_line x0 y0 x1 y1 c).
Proof.
  intros Rx0 Ry0 Rx1 Ry1 H.
  replace fuel with (line_rounds x0 y0 x1 y1 + (fuel - line_rounds x0 y0 x1 y1))%nat by lia.
  by apply line_loop_more, DrawLine_fuel_ideal.
Qed.

Lemma DrawLine_correct_witness :
  (line_rounds 0 480 640 0 <= 1000)%nat /\
  DrawLine_fuel 1000 0 480 640 0 20 = Some (ideal_line 0 480 640 0 20).
Proof.
  assert (line_rounds 0 480 640 0 <= 1000)%nat as H by (vm_compute; lia).
  split; [exact H|]. apply (DrawLine_correct 1000 0 480 640 0 20); unfold in_range; lia || exact H.
Defined.

(** *** Geometry of the ideal line *)

(** Steps on the short axis. *)
Lemma minor_step d e r k :
  0 < d -> 0 <= e <= d -> minor d e r k <= minor d e r (k + 1) <= minor d e r k + 1.
Proof.
  intros Hd He. pose proof (minor_range d e r k Hd). pose proof (minor_range d e r (k + 1) Hd).
  cbv zeta in *. nia.
Qed.

(** Twice the distance from the true position, in units of [1/d]. *)
Lemma minor_close d e k :
  0 < d -> 2 * Z.abs (k * e - minor d e (d - 1 - d / 2) k * d) <= d.
Proof.
  intros Hd. pose proof (minor_range d e (d - 1 - d / 2) k Hd). cbv zeta in *.
  Z.to_euclidean_division_equations; lia.
Qed.

(** The line that is drawn starts at the first point and ends at the second,
    moves by at most one pixel in each direction at a time, and no pixel is more
    than half a pixel away from the straight line between the two points. *)
Theorem ideal_line_geometry x0 y0 x1 y1 :
  let n := Z.max (Z.abs (x1 - x0)) (Z.abs (y1 - y0)) in
  let p := ideal_pixel x0 y0 x1 y1 in
  p 0 = (x0, y0) /\ p n = (x1, y1) /\
  forall k, 0 <= k <= n ->
    Z.abs (fst (p (k + 1)) - fst (p k)) <= 1 /\ Z.abs (snd (p (k + 1)) - snd (p k)) <= 1 /\
    2 * Z.abs ((fst (p k) - x0) * (y1 - y0) - (snd (p k) - y0) * (x1 - x0)) <= n.
Proof.
  intros n p. unfold n, p, ideal_pixel. clear n p.
  assert (Hx : 0 <= Z.abs (x1 - x0)) by lia. assert (Hy : 0 <= Z.abs (y1 - y0)) by lia.
  pose proof (line_s_dx x0 x1) as Hsx. pose proof (line_s_dx y0 y1) as Hsy.
  pose proof (line_s_cases x0 x1) as Hcx. pose proof (line_s_cases y0 y1) as Hcy.
  set (dx := Z.abs (x1 - x0)) in *. set (dy := Z.abs (y1 - y0)) in *.
  set (sx := line_s x0 x1) in *. set (sy := line_s y0 y1) in *. rewrite <- Hsx, <- Hsy.
  destruct (dy <? dx) eqn:E; zbool.
  - rewrite Z.max_l by lia. set (r := dx - 1 - dx / 2).
    assert (minor dx dy r 0 = 0) as -> by
      (apply minor_unique; [lia| |]; unfold r; Z.to_euclidean_division_equations; lia).
    assert (minor dx dy r dx = dy) as -> by
      (apply minor_unique; [lia| |]; unfold r; Z.to_euclidean_division_equations; lia).
    split_and!; [f_equal; lia | f_equal; lia |]. intros k Hk. simpl.
    pose proof (minor_step dx dy r k ltac:(lia) ltac:(lia)).
    pose proof (minor_close dx dy k ltac:(lia)) as Hc. fold r in Hc.
    set (j := minor dx dy r k) in *. set (j' := minor dx dy r (k + 1)) in *.
    split_and!; [destruct Hcx as [-> | ->]; lia | destruct Hcy as [-> | ->]; lia |].
    replace ((x0 + sx * k - x0) * (sy * dy) - (y0 + sy * j - y0) * (sx * dx))
      with (sx * sy * (k * dy - j * dx)) by lia.
    destruct Hcx as [-> | ->], Hcy as [-> | ->]; lia.
  - rewrite Z.max_r by lia. set (r := dy - 1 - dy / 2).
    destruct (decide (dy = 0)) as [Hz|Hnz].
    { assert (dx = 0) as Hz' by lia. rewrite Hz in *. rewrite Hz' in *.
      unfold minor. rewrite !Z.div_0_r.
      split_and!; [f_equal; lia | f_equal; lia |]. intros k Hk.
      rewrite !Z.div_0_r. simpl. destruct Hcx as [-> | ->], Hcy as [-> | ->]; lia. }
    assert (minor dy dx r 0 = 0) as -> by
      (apply minor_unique; [lia| |]; unfold r; Z.to_euclidean_division_equations; lia).
    assert (minor dy dx r dy = dx) as -> by
      (apply minor_unique; [lia| |]; unfold r; Z.to_euclidean_division_equations; lia).
    split_and!; [f_equal; lia | f_equal; lia |]. intros k Hk. simpl.
    pose proof (minor_step dy dx r k ltac:(lia) ltac:(lia)).
    pose proof (minor_close dy dx k ltac:(lia)) as Hc. fold r in Hc.
    set (j := minor dy dx r k) in *. set (j' := minor dy dx r (k + 1)) in *.
    split_and!; [destruct Hcx as [-> | ->]; lia | destruct Hcy as [-> | ->]; lia |].
    replace ((x0 + sx * j - x0) * (sy * dy) - (y0 + sy * k - y0) * (sx * dx))
      with (sx * sy * (j * dy - k * dx)) by lia.
    destruct Hcx as [-> | ->], Hcy as [-> | ->]; lia.
Qed.

End Draw.
