(* ===== verification/Core.v ===== *)
(** * The kernel core: CPUs, spin locks, sleep and wakeup

    The state that every kernel component shares: the per-CPU records
    ([struct cpu]), the spin locks and the process table.  The code is
    [spinlock.c], [sleeplock.c] and the scheduling half of [proc.c].  The state is
    seen from the CPU that executes: [hw_apicid] is what its local APIC reports
    and [hw_if] its interrupt flag. *)

From stdpp Require Import base gmap list strings.
From Stdlib Require Import ZArith Lia.
From S2P Require Import Prelude.

(** ** Data (proc.h, spinlock.h, param.h) *)

Definition NPROC : nat := 64.
Definition NCPU : nat := 8.
Definition NOFILE : nat := 16.
Definition KSTACKSIZE : Z := 4096.

(** Spin locks are named by the object they belong to. *)
Inductive lockid : Type :=
| L_ptable | L_kmem | L_cons | L_bcache | L_icache | L_ftable | L_log | L_ide | L_tick
| L_pipe (p : Z) | L_sleep (l : Z).

#[export] Instance lockid_eq_dec : EqDecision lockid.
Proof. solve_decision. Defined.

(** [struct spinlock]; the call stack [pcs] is debugging output and left out. *)
Record spinlock : Type := { locked : bool; lcpu : option nat }.

Record cpu : Type := {
  apicid : Z;
  ncli : Z;              (* depth of pushcli nesting *)
  intena : bool;         (* were interrupts enabled before pushcli? *)
  cproc : option nat     (* the process running on this cpu *)
}.

Inductive procstate : Type := UNUSED | EMBRYO | SLEEPING | RUNNABLE | RUNNING | ZOMBIE.

#[export] Instance procstate_eq_dec : EqDecision procstate.
Proof. solve_decision. Defined.

(** The registers of [struct trapframe] that C code reads or writes. *)
Record trapframe : Type := {
  tf_eax : Z; tf_eip : Z; tf_esp : Z; tf_cs : Z; tf_ds : Z; tf_es : Z; tf_ss : Z;
  tf_eflags : Z; tf_trapno : Z; tf_err : Z
}.

(** [struct proc].  Pointers to processes, files and inodes are indices in their
    tables. *)
Record proc : Type := {
  sz : Z;
  pgdir : Z;
  kstack : Z;
  pstate : procstate;
  pid : Z;
  parent : option nat;
  tf : trapframe;
  ctx_eip : Z;             (* context->eip, where swtch() resumes the process *)
  pchan : chan;
  killed : bool;
  ofile : list (option nat);
  cwd : option nat;
  pname : list Z
}.

Record core : Type := {
  hw_apicid : Z;
  hw_if : bool;
  cpus : list cpu;
  locks : lockid -> spinlock;
  procs : list proc;
  nextpid : Z;
  initproc : option nat
}.

(** *** Field updates *)

Definition set_hw_if (b : bool) (c : core) : core :=
  {| hw_apicid := hw_apicid c; hw_if := b; cpus := cpus c; locks := locks c;
     procs := procs c; nextpid := nextpid c; initproc := initproc c |}.
Definition set_cpus (l : list cpu) (c : core) : core :=
  {| hw_apicid := hw_apicid c; hw_if := hw_if c; cpus := l; locks := locks c;
     procs := procs c; nextpid := nextpid c; initproc := initproc c |}.
Definition set_lock (l : lockid) (k : spinlock) (c : core) : core :=
  {| hw_apicid := hw_apicid c; hw_if := hw_if c; cpus := cpus c;
     locks := fun l' => if decide (l' = l) then k else locks c l';
     procs := procs c; nextpid := nextpid c; initproc := initproc c |}.
Definition set_procs (l : list proc) (c : core) : core :=
  {| hw_apicid := hw_apicid c; hw_if := hw_if c; cpus := cpus c; locks := locks c;
     procs := l; nextpid := nextpid c; initproc := initproc c |}.
Definition set_nextpid (n : Z) (c : core) : core :=
  {| hw_apicid := hw_apicid c; hw_if := hw_if c; cpus := cpus c; locks := locks c;
     procs := procs c; nextpid := n; initproc := initproc c |}.
Definition set_initproc (p : option nat) (c : core) : core :=
  {| hw_apicid := hw_apicid c; hw_if := hw_if c; cpus := cpus c; locks := locks c;
     procs := procs c; nextpid := nextpid c; initproc := p |}.

Definition set_ncli (n : Z) (k : cpu) : cpu :=
  {| apicid := apicid k; ncli := n; intena := intena k; cproc := cproc k |}.
Definition set_intena (b : bool) (k : cpu) : cpu :=
  {| apicid := apicid k; ncli := ncli k; intena := b; cproc := cproc k |}.
Definition set_cproc (p : option nat) (k : cpu) : cpu :=
  {| apicid := apicid k; ncli := ncli k; intena := intena k; cproc := p |}.

Definition with_state (st : procstate) (p : proc) : proc :=
  {| sz := sz p; pgdir := pgdir p; kstack := kstack p; pstate := st; pid := pid p;
     parent := parent p; tf := tf p; ctx_eip := ctx_eip p; pchan := pchan p;
     killed := killed p; ofile := ofile p; cwd := cwd p; pname := pname p |}.
Definition with_chan (ch : chan) (p : proc) : proc :=
  {| sz := sz p; pgdir := pgdir p; kstack := kstack p; pstate := pstate p; pid := pid p;
     parent := parent p; tf := tf p; ctx_eip := ctx_eip p; pchan := ch;
     killed := killed p; ofile := ofile p; cwd := cwd p; pname := pname p |}.
Definition with_killed (b : bool) (p : proc) : proc :=
  {| sz := sz p; pgdir := pgdir p; kstack := kstack p; pstate := pstate p; pid := pid p;
     parent := parent p; tf := tf p; ctx_eip := ctx_eip p; pchan := pchan p;
     killed := b; ofile := ofile p; cwd := cwd p; pname := pname p |}.

(** The entry of the process table behind a pointer. *)
Definition proc0 : proc :=
  {| sz := 0; pgdir := 0; kstack := 0; pstate := UNUSED; pid := 0; parent := None;
     tf := {| tf_eax := 0; tf_eip := 0; tf_esp := 0; tf_cs := 0; tf_ds := 0; tf_es := 0;
              tf_ss := 0; tf_eflags := 0; tf_trapno := 0; tf_err := 0 |};
     ctx_eip := 0; pchan := ch_none; killed := false; ofile := replicate NOFILE None;
     cwd := None; pname := [] |}.
Definition getp (c : core) (i : nat) : proc := default proc0 (procs c !! i).
Definition updp (i : nat) (f : proc -> proc) (c : core) : core :=
  set_procs (alter f i (procs c)) c.

(** ** spinlock.c and mycpu/myproc of proc.c *)

Section Core.
Context {S : Type} {HL : Lens S core}.

Definition core_get {A} (f : core -> A) : M S A := lgets (T := core) f.
Definition core_mod (f : core -> core) : M S unit := lmod (T := core) f.

Definition readeflags_if : M S bool := core_get hw_if.
Definition cli : M S unit := core_mod (set_hw_if false).
Definition sti : M S unit := core_mod (set_hw_if true).

(** The index in [cpus] of the CPU with the local APIC's id. *)
Fixpoint find_cpu (id : Z) (l : list cpu) : option nat :=
  match l with
  | [] => None
  | k :: l' => if apicid k =? id then Some O else Datatypes.S <$> find_cpu id l'
  end.

Definition mycpu : M S nat :=
  eflags ← readeflags_if;
  if (eflags : bool) then panic "mycpu called with interrupts enabled"
  else
    r ← core_get (fun c => find_cpu (hw_apicid c) (cpus c));
    match r with
    | Some i => mret i
    | None => panic "unknown apicid"
    end.

Definition get_cpu (i : nat) : M S cpu :=
  core_get (fun c => default {| apicid := 0; ncli := 0; intena := false; cproc := None |}
                       (cpus c !! i)).
Definition mod_cpu (i : nat) (f : cpu -> cpu) : M S unit :=
  core_mod (fun c => set_cpus (alter f i (cpus c)) c).

Definition pushcli : M S unit :=
  eflags ← readeflags_if;
  cli;;
  i ← mycpu; k ← get_cpu i;
  (if ncli k =? 0 then mod_cpu i (set_intena eflags) else mret tt);;
  mod_cpu i (fun k => set_ncli (ncli k + 1) k).

Definition popcli : M S unit :=
  eflags ← readeflags_if;
  if (eflags : bool) then panic "popcli - interruptible"
  else
    i ← mycpu;
    mod_cpu i (fun k => set_ncli (ncli k - 1) k);;
    k ← get_cpu i;
    if ncli k <? 0 then panic "popcli"
    else if (ncli k =? 0) && intena k then sti else mret tt.

Definition holding (l : lockid) : M S bool :=
  pushcli;;
  i ← mycpu;
  k ← core_get (fun c => locks c l);
  let r := locked k && bool_decide (lcpu k = Some i) in
  popcli;;
  mret r.

Definition initlock (l : lockid) : M S unit :=
  core_mod (set_lock l {| locked := false; lcpu := None |}).

(** The atomic [xchg(&lk->locked, 1)]: the old value. *)
Definition xchg (l : lockid) : M S bool :=
  k ← core_get (fun c => locks c l);
  core_mod (fun c => set_lock l {| locked := true; lcpu := lcpu (locks c l) |} c);;
  mret (locked k).

(** The [xchg] loop spins for ever if another CPU holds the lock. *)
Definition acquire (l : lockid) : M S unit :=
  pushcli;;
  h ← holding l;
  if (h : bool) then panic "acquire"
  else
    b ← xchg l;
    if (b : bool) then spin
    else
      i ← mycpu;
      core_mod (fun c => set_lock l {| locked := locked (locks c l); lcpu := Some i |} c).

Definition release (l : lockid) : M S unit :=
  h ← holding l;
  if negb h then panic "release"
  else
    core_mod (fun c => set_lock l {| locked := locked (locks c l); lcpu := None |} c);;
    core_mod (fun c => set_lock l {| locked := false; lcpu := lcpu (locks c l) |} c);;
    popcli.

Definition myproc : M S (option nat) :=
  pushcli;;
  i ← mycpu; k ← get_cpu i;
  popcli;;
  mret (cproc k).

(** ** Sleep and wakeup (proc.c) *)

(** [sched] up to the [swtch] to the scheduler. *)
Definition sched_enter : M S unit :=
  p ← myproc;
  h ← holding L_ptable;
  if negb h then panic "sched ptable.lock"
  else
    i ← mycpu; k ← get_cpu i;
    if negb (ncli k =? 1) then panic "sched locks"
    else
      st ← core_get (fun c => pstate (getp c (default O p)));
      if bool_decide (st = RUNNING) then panic "sched running"
      else
        eflags ← readeflags_if;
        if (eflags : bool) then panic "sched interruptible" else mret tt.

(** The whole of [sched]: the rest runs when the scheduler switches back. *)
Definition sched (ch : chan) : M S unit :=
  sched_enter;;
  i ← mycpu; k ← get_cpu i;
  (fun s => Sleep ch s (fun s' => Ret tt s'));;
  j ← mycpu;
  mod_cpu j (set_intena (intena k)).

Definition sleep (ch : chan) (lk : lockid) : M S unit :=
  p ← myproc;
  match p with
  | None => panic "sleep"
  | Some p =>
      (if bool_decide (lk = L_ptable) then mret tt
       else acquire L_ptable;; release lk);;
      core_mod (updp p (with_chan ch));;
      core_mod (updp p (with_state SLEEPING));;
      sched ch;;
      core_mod (updp p (with_chan ch_none));;
      (if bool_decide (lk = L_ptable) then mret tt
       else release L_ptable;; acquire lk)
  end.

Definition wake_proc (ch : chan) (p : proc) : proc :=
  if bool_decide (pstate p = SLEEPING) && bool_decide (pchan p = ch)
  then with_state RUNNABLE p else p.

Definition wakeup1 (ch : chan) : M S unit :=
  core_mod (fun c => set_procs (wake_proc ch <$> procs c) c).

Definition wakeup (ch : chan) : M S unit :=
  acquire L_ptable;;
  wakeup1 ch;;
  release L_ptable.

(** ** Reasoning about the core *)

Context {HLok : LensOk S core}.

(** The executing CPU is [cpus[i]]; it has [d] pushcli's outstanding; interrupts
    were in the state [ie] before the first of them; it runs process [p]. *)
Definition cpu_ok (c : core) (i : nat) (d : Z) (ie : bool) (p : option nat) : Prop :=
  0 <= d /\ find_cpu (hw_apicid c) (cpus c) = Some i /\
  exists k, cpus c !! i = Some k /\ ncli k = d /\ cproc k = p /\
    (if d =? 0 then hw_if c = ie else hw_if c = false /\ intena k = ie).

(** Everything but the CPU's own interrupt bookkeeping is unchanged. *)
Definition same_rest (c c' : core) : Prop :=
  locks c' = locks c /\ procs c' = procs c /\ nextpid c' = nextpid c /\
  initproc c' = initproc c.

(** The CPU holds exactly the locks [L], and all other locks are free. *)
Definition locks_ok (c : core) (i : nat) (L : list lockid) : Prop :=
  NoDup L /\ forall l,
    if decide (l ∈ L) then locks c l = {| locked := true; lcpu := Some i |}
    else locked (locks c l) = false.

Definition core_ok (c : core) (i : nat) (L : list lockid) (ie : bool) (p : option nat) : Prop :=
  cpu_ok c i (zlen L) ie p /\ locks_ok c i L.

Lemma find_cpu_alter id f l : forall i j,
  (forall k, apicid (f k) = apicid k) -> find_cpu id l = Some i ->
  find_cpu id (alter f j l) = Some i.
Proof.
  induction l as [|k l IH]; intros i j Hf; [done|]. destruct j as [|j]; csimpl.
  - rewrite Hf. done.
  - destruct (apicid k =? id); [done|]. intros Hi.
    destruct (find_cpu id l) as [i'|] eqn:E; [|done]. by rewrite (IH i' j).
Qed.

Lemma wp_mycpu s i (Q : nat -> S -> Prop) :
  find_cpu (hw_apicid (lget s)) (cpus (lget s)) = Some i -> hw_if (lget s) = false ->
  Q i s -> wp mycpu s Q.
Proof.
  intros Hi Hif HQ. unfold mycpu, readeflags_if, core_get. wp_step.
  rewrite Hif. wp_step. rewrite Hi. by wp_step.
Qed.

Ltac lens := autorewrite with lens; cbn [hw_apicid hw_if cpus locks procs nextpid initproc
  set_hw_if set_cpus set_lock set_procs set_nextpid set_initproc] in *.

Lemma cpu_ok_if c i d ie p : cpu_ok c i d ie p -> d <> 0 -> hw_if c = false.
Proof. intros (_ & _ & k & _ & _ & _ & Hk) Hd. case_bool; zbool; [done | tauto]. Qed.

Lemma cpu_ok_find c i d ie p : cpu_ok c i d ie p -> find_cpu (hw_apicid c) (cpus c) = Some i.
Proof. by intros (_ & H & _). Qed.

Lemma wp_pushcli s i d ie p (Q : unit -> S -> Prop) :
  cpu_ok (lget s) i d ie p ->
  (forall c', cpu_ok c' i (d + 1) ie p -> same_rest (lget s) c' -> Q tt (lset c' s)) ->
  wp pushcli s Q.
Proof.
  intros (Hd & Hi & k & Hk & Hn & Hp & Hif) HQ.
  unfold pushcli, readeflags_if, cli, get_cpu, mod_cpu, core_get, core_mod. wp_step.
  apply (wp_mycpu _ i); lens; [done..|]. wp_step. lens. rewrite Hk. simpl default.
  destruct (ncli k =? 0) eqn:E; wp_step; lens; apply HQ; try done; unfold cpu_ok; lens.
  - split_and!; [lia | repeat (apply find_cpu_alter; [done|]); done |].
    rewrite !list_lookup_alter_eq, Hk. eexists. split_and!; [done | simpl; lia | done |].
    zbool. replace (d + 1 =? 0) with false by lia. replace (d =? 0) with true in Hif by lia. done.
  - split_and!; [lia | repeat (apply find_cpu_alter; [done|]); done |].
    rewrite !list_lookup_alter_eq, Hk. eexists. split_and!; [done | simpl; lia | done |].
    zbool. replace (d + 1 =? 0) with false by lia. replace (d =? 0) with false in Hif by lia.
    simpl. tauto.
Qed.

Lemma wp_popcli s i d ie p (Q : unit -> S -> Prop) :
  cpu_ok (lget s) i d ie p -> 0 < d ->
  (forall c', cpu_ok c' i (d - 1) ie p -> same_rest (lget s) c' -> Q tt (lset c' s)) ->
  wp popcli s Q.
Proof.
  intros (Hd & Hi & k & Hk & Hn & Hp & Hif) Hd' HQ.
  replace (d =? 0) with false in Hif by lia. destruct Hif as [Hif Hie].
  unfold popcli, readeflags_if, sti, get_cpu, mod_cpu, core_get, core_mod. wp_step.
  rewrite Hif. wp_step. apply (wp_mycpu _ i); [done..|]. wp_step. lens.
  rewrite list_lookup_alter_eq, Hk. simpl default. simpl ncli.
  destruct (ncli k - 1 <? 0) eqn:E; zbool; [lia|].
  destruct ((ncli k - 1 =? 0) && intena _) eqn:E2; wp_step; lens; apply HQ; try done; unfold cpu_ok; lens;
    (split_and!; [lia | repeat (apply find_cpu_alter; [done|]); done |]);
    rewrite !list_lookup_alter_eq, Hk; eexists;
    (split_and!; [done | simpl; lia | done |]); cbn [hw_if set_hw_if set_cpus intena set_ncli] in *.
  - zbool. replace (d - 1 =? 0) with true by lia. congruence.
  - destruct (d - 1 =? 0) eqn:E3; [|done]. replace (ncli k - 1 =? 0) with true in E2 by lia.
    simpl in E2. congruence.
Qed.

#[local] Instance same_rest_preorder : PreOrder same_rest.
Proof.
  split; [by intros c | intros a b c (?&?&?&?) (?&?&?&?); split_and!; congruence].
Qed.

Lemma locks_ok_rest c c' i L : same_rest c c' -> locks_ok c i L -> locks_ok c' i L.
Proof. intros (He & _) [H1 H2]. split; [done|]. by rewrite He. Qed.

Lemma lcpu_held c i L l :
  locks_ok c i L ->
  locked (locks c l) && bool_decide (lcpu (locks c l) = Some i) = bool_decide (l ∈ L).
Proof.
  intros [_ Hl]. specialize (Hl l). case_decide.
  - rewrite Hl. simpl. rewrite (bool_decide_eq_true_2 (l ∈ L)) by done.
    by apply bool_decide_eq_true_2.
  - rewrite Hl. simpl. by rewrite bool_decide_eq_false_2.
Qed.

Lemma wp_holding s i d ie p L l (Q : bool -> S -> Prop) :
  cpu_ok (lget s) i d ie p -> locks_ok (lget s) i L ->
  (forall c', cpu_ok c' i d ie p -> same_rest (lget s) c' ->
     Q (bool_decide (l ∈ L)) (lset c' s)) ->
  wp (holding l) s Q.
Proof.
  intros Hc Hl HQ. unfold holding. wp_step.
  pose proof Hc as (Hd & _).
  eapply wp_pushcli; [exact Hc|]. intros c1 Hc1 Hs1. wp_step.
  apply (wp_mycpu _ i); lens; [eapply cpu_ok_find; eauto | eapply cpu_ok_if; eauto; lia |].
  unfold core_get. wp_step. lens.
  apply (wp_popcli _ i (d + 1) ie p); lens; [done | lia |].
  intros c2 Hc2 Hs2. wp_step. lens.
  rewrite (lcpu_held _ _ L) by (eapply locks_ok_rest; eauto).
  replace (d + 1 - 1) with d in Hc2 by lia. apply HQ; [done | by etrans].
Qed.

Lemma cpu_ok_lock c i d ie p l k : cpu_ok c i d ie p -> cpu_ok (set_lock l k c) i d ie p.
Proof. done. Qed.

(** What stays the same when a lock is taken or given back. *)
Definition same_procs (c c' : core) : Prop :=
  procs c' = procs c /\ nextpid c' = nextpid c /\ initproc c' = initproc c.

#[local] Instance same_procs_preorder : PreOrder same_procs.
Proof. split; [by intros c | intros a b c (?&?&?) (?&?&?); split_and!; congruence]. Qed.

Lemma same_procs_trans c1 c2 c3 : same_procs c1 c2 -> same_procs c2 c3 -> same_procs c1 c3.
Proof. intros (?&?&?) (?&?&?); split_and!; congruence. Qed.

Lemma same_rest_procs c c' : same_rest c c' -> same_procs c c'.
Proof. by intros (?&?&?&?). Qed.

Lemma wp_acquire s i L ie p l (Q : unit -> S -> Prop) :
  core_ok (lget s) i L ie p -> l ∉ L ->
  (forall c', core_ok c' i (l :: L) ie p -> same_procs (lget s) c' -> Q tt (lset c' s)) ->
  wp (acquire l) s Q.
Proof.
  intros [Hc Hl] Hni HQ. unfold acquire. wp_step.
  eapply wp_pushcli; [exact Hc|]. intros c1 Hc1 Hs1. wp_step.
  apply (wp_holding _ i (zlen L + 1) ie p L); lens; [done | by eapply locks_ok_rest |].
  intros c2 Hc2 Hs2. rewrite bool_decide_eq_false_2 by done. unfold xchg, core_get, core_mod. wp_step. lens.
  assert (Hl2 : locks_ok c2 i L) by (eapply locks_ok_rest; [|done]; by etrans).
  pose proof Hl2 as [HN Hlk]. pose proof (Hlk l) as Hll. rewrite decide_False in Hll by done.
  rewrite Hll. wp_step.
  apply (wp_mycpu _ i); lens; [eapply cpu_ok_find; eauto | eapply cpu_ok_if; eauto|].
  { unfold zlen. lia. }
  wp_step. lens. apply HQ.
  - split; [unfold zlen in *; simpl length; rewrite Nat2Z.inj_succ; done|].
    split; [by constructor|]. intros l'. lens.
    destruct (decide (l' = l)) as [->|Hne].
    + rewrite decide_True by (by left). rewrite !decide_True by done. done.
    + specialize (Hlk l'). destruct (decide (l' ∈ L)).
      * by rewrite decide_True by (by right).
      * rewrite decide_False; [done|]. rewrite elem_of_cons. tauto.
  - destruct Hs1 as (_ & ? & ? & ?), Hs2 as (_ & ? & ? & ?). split_and!; lens; congruence.
Qed.

Lemma wp_release s i L ie p l (Q : unit -> S -> Prop) :
  core_ok (lget s) i (l :: L) ie p ->
  (forall c', core_ok c' i L ie p -> same_procs (lget s) c' -> Q tt (lset c' s)) ->
  wp (release l) s Q.
Proof.
  intros [Hc Hl] HQ. unfold release. wp_step.
  eapply wp_holding; [exact Hc | exact Hl |]. intros c1 Hc1 Hs1.
  rewrite bool_decide_eq_true_2 by (by left). cbv [negb]. unfold core_mod. wp_step. lens.
  apply (wp_popcli _ i (zlen (l :: L)) ie p); lens; [done | unfold zlen; simpl; lia |].
  intros c2 Hc2 Hs2. lens. apply HQ.
  - replace (zlen (l :: L) - 1) with (zlen L) in Hc2 by (unfold zlen; simpl; lia).
    split; [done|]. assert (Hl1 : locks_ok c1 i (l :: L)) by (by eapply locks_ok_rest).
    destruct Hl1 as [HN Hlk]. apply NoDup_cons in HN as [Hni HN]. split; [done|].
    destruct Hs2 as (Hlocks & _). intros l'. rewrite Hlocks. lens.
    destruct (decide (l' = l)) as [->|Hne].
    + rewrite decide_False by done. done.
    + specialize (Hlk l'). destruct (decide (l' ∈ L)).
      * by rewrite decide_True in Hlk by (by right).
      * rewrite decide_False in Hlk; [done|]. rewrite elem_of_cons. tauto.
  - destruct Hs1 as (_ & ? & ? & ?), Hs2 as (_ & ? & ? & ?). lens. split_and!; congruence.
Qed.

Lemma wp_myproc s i L ie p (Q : option nat -> S -> Prop) :
  core_ok (lget s) i L ie p ->
  (forall c', core_ok c' i L ie p -> same_procs (lget s) c' -> Q p (lset c' s)) ->
  wp myproc s Q.
Proof.
  intros [Hc Hl] HQ. unfold myproc. pose proof Hc as (Hd & _). wp_step.
  eapply wp_pushcli; [exact Hc|]. intros c1 Hc1 Hs1. wp_step.
  apply (wp_mycpu _ i); lens; [eapply cpu_ok_find; eauto | eapply cpu_ok_if; eauto; lia |].
  unfold get_cpu, core_get. wp_step. lens.
  pose proof Hc1 as (_ & _ & k & Hk & _ & Hp & _). rewrite Hk. simpl default.
  apply (wp_popcli _ i (zlen L + 1) ie p); lens; [done | lia |].
  intros c2 Hc2 Hs2. wp_step. lens. rewrite Hp.
  replace (zlen L + 1 - 1) with (zlen L) in Hc2 by lia. apply HQ.
  - split; [done|]. eapply locks_ok_rest; [|done]. by etrans.
  - apply same_rest_procs. by etrans.
Qed.

Lemma core_ok_perm c i L L' ie p :
  L ≡ₚ L' -> core_ok c i L ie p -> core_ok c i L' ie p.
Proof.
  intros HP [Hc [HN Hl]]. split; [unfold zlen in *; by rewrite <- HP|].
  split; [by rewrite <- HP|]. intros l. specialize (Hl l).
  destruct (decide (l ∈ L)) as [H1|H1]; rewrite HP in H1;
    [by rewrite decide_True | by rewrite decide_False].
Qed.

Lemma core_ok_procs c i L ie p l : core_ok c i L ie p -> core_ok (set_procs l c) i L ie p.
Proof. done. Qed.

Lemma wp_initlock s i L ie p l (Q : unit -> S -> Prop) :
  core_ok (lget s) i L ie p -> l ∉ L ->
  (forall c', core_ok c' i L ie p -> same_procs (lget s) c' -> Q tt (lset c' s)) ->
  wp (initlock l) s Q.
Proof.
  intros [Hc [HN Hl]] Hni HQ. unfold initlock, core_mod. wp_step. apply HQ; [|done].
  split; [done|]. split; [done|]. intros l'. specialize (Hl l'). simpl.
  destruct (decide (l' = l)) as [->|]; [by rewrite decide_False | done].
Qed.

Lemma wp_wakeup s i L ie p ch (Q : unit -> S -> Prop) :
  core_ok (lget s) i L ie p -> L_ptable ∉ L ->
  (forall c', core_ok c' i L ie p -> procs c' = wake_proc ch <$> procs (lget s) ->
     Q tt (lset c' s)) ->
  wp (wakeup ch) s Q.
Proof.
  intros Hc Hni HQ. unfold wakeup, wakeup1, core_mod. wp_step.
  apply (wp_acquire _ i L ie p L_ptable); [done..|]. intros c1 Hc1 (Hp1 & _). wp_step. lens.
  apply (wp_release _ i L ie p L_ptable); lens; [by apply core_ok_procs|].
  intros c2 Hc2 (Hp2 & _). lens. apply HQ; [done|]. by rewrite Hp2, Hp1.
Qed.

(** *** Errors *)

Lemma acquire_held_panics s i L ie p l :
  core_ok (lget s) i L ie p -> l ∈ L -> exists s', acquire l s = Panic "acquire" s'.
Proof.
  intros [Hc Hl] Hin.
  assert (Hwp : wp (pushcli ;; holding l) s (fun h _ => h = true)).
  { wp_step. eapply wp_pushcli; [exact Hc|]. intros c1 Hc1 Hs1.
    eapply wp_holding; lens; [done | by eapply locks_ok_rest |].
    intros. by rewrite bool_decide_eq_true_2. }
  destruct Hwp as (h & s' & Hrun & ->). exists s'.
  unfold acquire. unfold mbind, M_bind in *. destruct (pushcli s); simpl in *; try done.
  rewrite Hrun. done.
Qed.

Lemma release_free_panics s i L ie p l :
  core_ok (lget s) i L ie p -> l ∉ L -> exists s', release l s = Panic "release" s'.
Proof.
  intros [Hc Hl] Hin.
  assert (Hwp : wp (holding l) s (fun h _ => h = false)).
  { eapply wp_holding; [exact Hc | exact Hl |]. intros. by rewrite bool_decide_eq_false_2. }
  destruct Hwp as (h & s' & Hrun & ->). exists s'. unfold release.
  by rewrite (bind_ret _ _ _ _ _ Hrun).
Qed.

(** *** Going to sleep

    [asleep p ch]: what [sleep] does to the process table before it gives up the
    CPU. *)
Definition asleep (p : nat) (ch : chan) (l : list proc) : list proc :=
  alter (with_state SLEEPING) p (alter (with_chan ch) p l).

Lemma wp_sched_enter s i ie p (Q : unit -> S -> Prop) :
  core_ok (lget s) i [L_ptable] ie p ->
  pstate (getp (lget s) (default O p)) <> RUNNING ->
  (forall c', core_ok c' i [L_ptable] ie p -> same_procs (lget s) c' -> Q tt (lset c' s)) ->
  wp sched_enter s Q.
Proof.
  intros Hc Hst HQ. unfold sched_enter. wp_step.
  eapply wp_myproc; [exact Hc|]. intros c1 [Hc1 Hl1] Hs1. wp_step.
  eapply wp_holding; lens; [exact Hc1 | exact Hl1 |]. intros c2 Hc2 Hs2.
  rewrite bool_decide_eq_true_2 by (by left). cbv [negb]. wp_step.
  apply (wp_mycpu _ i); lens; [by eapply cpu_ok_find | by eapply cpu_ok_if |].
  unfold get_cpu, readeflags_if, core_get. wp_step. lens.
  pose proof Hc2 as (_ & _ & k & Hk & Hn & _). rewrite Hk. simpl default. rewrite Hn.
  change (zlen [L_ptable] =? 1) with true. cbv [negb]. wp_step. lens.
  rewrite bool_decide_eq_false_2.
  - wp_step. lens. rewrite (cpu_ok_if _ _ _ _ _ Hc2) by done. wp_step.
    apply HQ; [split; [done|by eapply locks_ok_rest] |].
    etrans; [done | by apply same_rest_procs].
  - unfold getp in *. destruct Hs1 as (Hp1 & _), Hs2 as (_ & Hp2 & _). lens. by rewrite Hp2, Hp1.
Qed.

Lemma wp_mod_intena s j ie2 ie p (Q : unit -> S -> Prop) :
  core_ok (lget s) j [L_ptable] ie2 p ->
  (forall c', core_ok c' j [L_ptable] ie p -> same_procs (lget s) c' -> Q tt (lset c' s)) ->
  wp (j ← mycpu; mod_cpu j (set_intena ie)) s Q.
Proof.
  intros [Hc Hl] HQ. wp_step.
  apply (wp_mycpu _ j); [by eapply cpu_ok_find | by eapply cpu_ok_if |].
  unfold mod_cpu, core_mod. wp_step. apply HQ; [|done].
  pose proof Hc as (_ & Hi & k & Hk & Hn & Hp & Hif & _). split; [|done].
  split_and!; [unfold zlen; simpl; lia | lens; by apply find_cpu_alter |].
  lens. rewrite list_lookup_alter_eq, Hk. eexists. by split_and!.
Qed.

(** [sched] in a process that has left the state RUNNING gives the CPU up with the table
    lock held; when the scheduler switches back, the interrupt state that was saved for this
    process is restored on the CPU that runs it now. *)
Lemma sched_spec s i ie p ch :
  core_ok (lget s) i [L_ptable] ie (Some p) -> pstate (getp (lget s) p) <> RUNNING ->
  exists c1 k, sched ch s = Sleep ch (lset c1 s) k /\ core_ok c1 i [L_ptable] ie (Some p) /\ same_procs (lget s) c1 /\
    forall s2, k s2 = (j ← mycpu; mod_cpu j (set_intena ie)) s2.
Proof.
  intros Hc Hst.
  destruct (wp_sched_enter s i ie (Some p) (fun _ s' => exists c, s' = lset c s /\ core_ok c i [L_ptable] ie (Some p) /\ same_procs (lget s) c))
    as (a & s3 & E3 & c3 & -> & Hc3 & Hp3); [done | done | by eauto |].
  pose proof Hc3 as [Hcpu3 _]. pose proof Hcpu3 as (_ & _ & k & Hk & _ & _ & Hif & Hie).
  destruct (wp_mycpu (lset c3 s) i (fun a s' => a = i /\ s' = lset c3 s))
    as (a4 & s4 & E4 & -> & ->); lens; [by eapply cpu_ok_find | done | done |].
  eexists c3, _. split_and!; [| done | done |].
  - unfold sched. rewrite (bind_ret _ _ _ _ _ E3), (bind_ret _ _ _ _ _ E4). unfold get_cpu, core_get.
    erewrite bind_ret by reflexivity. lens. rewrite Hk. simpl default. rewrite Hie. unfold mbind at 1, M_bind at 1. simpl obind. reflexivity.
  - intros s2. reflexivity.
Qed.

(** [sleep] of a process that holds only the table lock, as in [wait]. *)
Lemma sleep_ptable_spec s i ie p ch :
  core_ok (lget s) i [L_ptable] ie (Some p) -> (p < length (procs (lget s)))%nat ->
  exists c1 k, sleep ch L_ptable s = Sleep ch (lset c1 s) k /\
    core_ok c1 i [L_ptable] ie (Some p) /\ procs c1 = asleep p ch (procs (lget s)) /\
    nextpid c1 = nextpid (lget s) /\ initproc c1 = initproc (lget s) /\
    forall s2 j ie2, core_ok (lget s2) j [L_ptable] ie2 (Some p) ->
      exists c3, k s2 = Ret tt (lset c3 s2) /\ core_ok c3 j [L_ptable] ie (Some p) /\
        procs c3 = alter (with_chan ch_none) p (procs (lget s2)).
Proof.
  intros Hc Hp.
  destruct (wp_myproc s i [L_ptable] ie (Some p) (fun a s' => a = Some p /\ exists c,
    s' = lset c s /\ core_ok c i [L_ptable] ie (Some p) /\ same_procs (lget s) c))
    as (a & s0 & E0 & -> & c0 & -> & Hc0 & Hp0); [done | by eauto |].
  set (c2 := updp p (with_state SLEEPING) (updp p (with_chan ch) c0)). pose proof Hp0 as (Hp1 & Hn1 & Hi1).
  destruct (sched_spec (lset c2 s) i ie p ch) as (c3 & k & E3 & Hc3 & (Hp3 & Hn3 & Hi3) & Hk); lens; [done | |].
  { unfold getp, c2, updp. lens. rewrite list_lookup_alter_eq, list_lookup_alter_eq. rewrite Hp1. by destruct (procs (lget s) !! p). }
  eexists c3, _. split_and!; [| done | | | |].
  - unfold sleep. rewrite (bind_ret _ _ _ _ _ E0). rewrite bool_decide_eq_true_2 by done.
    unfold core_mod. erewrite bind_ret by reflexivity. erewrite bind_ret by reflexivity. erewrite bind_ret by reflexivity. lens.
    fold (updp p (with_chan ch) c0). fold c2. erewrite bind_sleep by exact E3. by lens.
  - rewrite Hp3. unfold c2, asleep, updp. lens. by rewrite Hp1.
  - rewrite Hn3. lens. exact Hn1.
  - rewrite Hi3. lens. exact Hi1.
  - intros s2 j ie2 Hc2. cbv beta. rewrite Hk.
    destruct (wp_mod_intena s2 j ie2 ie (Some p) (fun _ s' => exists c, s' = lset c s2 /\ core_ok c j [L_ptable] ie (Some p) /\ procs c = procs (lget s2)))
      as (a4 & s4 & E4 & c4 & -> & Hc4 & Hp4); [done | by intros c' Hc' (? & _); eauto |].
    rewrite E4. cbn [obind]. unfold core_mod. erewrite bind_ret by reflexivity. lens.
    eexists. split; [reflexivity|]. split; [by apply core_ok_procs|]. unfold updp. lens. by rewrite Hp4.
Qed.

(** The part of [sleep] after the process has been switched back in. *)
Definition sleep_exit (p : nat) (ie : bool) (lk : lockid) : M S unit :=
  (j ← mycpu; mod_cpu j (set_intena ie));;
  core_mod (updp p (with_chan ch_none));;
  release L_ptable;; acquire lk.

Lemma wp_sleep_exit s j ie2 ie p lk (Q : unit -> S -> Prop) :
  core_ok (lget s) j [L_ptable] ie2 (Some p) -> lk <> L_ptable ->
  (forall c', core_ok c' j [lk] ie (Some p) ->
     procs c' = alter (with_chan ch_none) p (procs (lget s)) -> Q tt (lset c' s)) ->
  wp (sleep_exit p ie lk) s Q.
Proof.
  intros Hc Hlk HQ. unfold sleep_exit. apply wp_bind.
  eapply wp_mod_intena; [exact Hc|]. intros c1 Hc1 (Hp1 & _). unfold core_mod, updp. wp_step. lens.
  eapply wp_release; lens; [by apply core_ok_procs|]. intros c2 Hc2 (Hp2 & _). wp_step. lens.
  eapply wp_acquire; lens; [done | apply not_elem_of_nil |].
  intros c3 Hc3 (Hp3 & _). lens. apply HQ; [done|]. by rewrite Hp3, Hp2, Hp1.
Qed.

(** [sleep] with one lock held: the process is marked, the caller's lock is
    released, only the table lock is held, and the CPU is given up.  The process
    goes on, on whatever CPU runs it, with [sleep_exit]. *)
Lemma sleep_spec s i ie p ch lk :
  core_ok (lget s) i [lk] ie (Some p) -> lk <> L_ptable -> (p < length (procs (lget s)))%nat ->
  exists c1 k, sleep ch lk s = Sleep ch (lset c1 s) k /\
    core_ok c1 i [L_ptable] ie (Some p) /\ procs c1 = asleep p ch (procs (lget s)) /\
    forall s2, k s2 = sleep_exit p ie lk s2.
Proof.
  intros Hc Hlk Hp.
  destruct (wp_myproc s i [lk] ie (Some p) (fun a s' => a = Some p /\ exists c,
    s' = lset c s /\ core_ok c i [lk] ie (Some p) /\ procs c = procs (lget s)))
    as (a & s0 & E0 & -> & c0 & -> & Hc0 & Hp0); [done | |].
  { intros c' Hc' (Hp' & _). eauto. }
  assert (wp (acquire L_ptable ;; release lk) (lset c0 s) (fun _ s' => exists c,
    s' = lset c s /\ core_ok c i [L_ptable] ie (Some p) /\ procs c = procs (lget s)))
    as (a1 & s1 & E1 & c1 & -> & Hc1 & Hp1).
  { wp_step. eapply wp_acquire; lens; [done | |].
    { intros Hin%list_elem_of_singleton. congruence. }
    intros c' Hc' (Hp' & _). eapply wp_release; lens.
    { eapply core_ok_perm; [|done]. apply perm_swap. }
    intros c'' Hc'' (Hp'' & _). lens. eexists. split_and!; [done | done | congruence]. }
  set (c2 := updp p (with_state SLEEPING) (updp p (with_chan ch) c1)).
  destruct (wp_sched_enter (lset c2 s) i ie (Some p) (fun _ s' => exists c,
    s' = lset c s /\ core_ok c i [L_ptable] ie (Some p) /\ procs c = procs c2))
    as (a3 & s3 & E3 & c3 & -> & Hc3 & Hp3); lens; [done | | |].
  { unfold getp, c2, updp. lens. simpl default. rewrite list_lookup_alter_eq, list_lookup_alter_eq.
    rewrite Hp1. by destruct (procs (lget s) !! p). }
  { intros c' Hc' (Hp' & _). lens. eauto. }
  pose proof Hc3 as [Hcpu3 _]. pose proof Hcpu3 as (_ & _ & k & Hk & _ & _ & Hif & Hie).
  destruct (wp_mycpu (lset c3 s) i (fun a s' => a = i /\ s' = lset c3 s))
    as (a4 & s4 & E4 & -> & ->); lens; [by eapply cpu_ok_find | done | done |].
  eexists c3, _. split_and!; [| done | |].
  - unfold sleep. rewrite (bind_ret _ _ _ _ _ E0). rewrite bool_decide_eq_false_2 by done.
    rewrite (bind_ret _ _ _ _ _ E1). unfold core_mod.
    erewrite bind_ret by reflexivity. erewrite bind_ret by reflexivity. lens.
    fold (updp p (with_chan ch) c1). fold c2. unfold sched.
    unfold mbind at 1, M_bind at 1. rewrite (bind_ret _ _ _ _ _ E3), (bind_ret _ _ _ _ _ E4).
    erewrite bind_ret by reflexivity. lens. rewrite Hk. simpl default. rewrite Hie.
    unfold mbind at 1, M_bind at 1. simpl obind. reflexivity.
  - rewrite Hp3. unfold c2, asleep, updp. lens. by rewrite Hp1.
  - intros s2. reflexivity.
Qed.

(** The environment switches process [p] back in on some CPU, with the table
    lock held, as [scheduler] does. *)
Definition resumed (p : nat) (s : S) : Prop :=
  exists j ie, core_ok (lget s) j [L_ptable] ie (Some p) /\ (p < length (procs (lget s)))%nat.

(** A process that slept goes on holding [lk] again. *)
Lemma runs_sleep_lock {T} (E : S -> S -> list T -> Prop) s i ie p ch lk t b sf :
  core_ok (lget s) i [lk] ie (Some p) -> lk <> L_ptable -> (p < length (procs (lget s)))%nat ->
  (forall s1 s2 t, E s1 s2 t -> resumed p s2) ->
  runs E (sleep ch lk s) t b sf ->
  exists c1 s2 j c3, E (lset c1 s) s2 t /\ procs c1 = asleep p ch (procs (lget s)) /\
    sf = lset c3 s2 /\ core_ok c3 j [lk] ie (Some p) /\
    procs c3 = alter (with_chan ch_none) p (procs (lget s2)).
Proof.
  intros Hc Hlk Hp HE Hr.
  destruct (sleep_spec s i ie p ch lk) as (c1 & k & Hs & _ & Hp1 & Hk); [done..|].
  rewrite Hs in Hr. inversion Hr as [|? ? ? s2 t' t0 ? ? HE2 Hrk]; subst.
  rewrite Hk in Hrk. pose proof (HE _ _ _ HE2) as (j & ie2 & Hc2 & _).
  eapply (runs_wp _ _ _ _ _ _ (fun _ s' => exists c3, s' = lset c3 s2 /\ core_ok c3 j [lk] ie (Some p) /\
    procs c3 = alter (with_chan ch_none) p (procs (lget s2)))) in Hrk as (-> & c3 & -> & Hc3 & Hp3).
  - exists c1, s2, j, c3. by rewrite app_nil_r.
  - eapply wp_sleep_exit; eauto.
Qed.

End Core.

(** ** A concrete core *)

(** One CPU, running process 0, interrupts on, nothing locked. *)
Definition boot_core : core :=
  {| hw_apicid := 7; hw_if := true;
     cpus := [{| apicid := 7; ncli := 0; intena := false; cproc := Some 0%nat |}];
     locks := fun _ => {| locked := false; lcpu := None |};
     procs := [with_state RUNNING proc0]; nextpid := 2; initproc := Some 0%nat |}.

Lemma boot_ok : core_ok boot_core 0 [] true (Some 0%nat).
Proof.
  split.
  - split_and!; [vm_compute; congruence | reflexivity |]. eexists. by split_and!.
  - split; [constructor|]. intros l. by destruct (decide (l ∈ [])) as [[]%not_elem_of_nil|].
Qed.
