(* ===== verification/Locking.v ===== *)
(** * Sleep locks

    sleeplock.c on top of the core: taking a free lock, sleeping on one that is taken, and
    giving one back. *)

From stdpp Require Import base gmap list strings.
From Stdlib Require Import ZArith Lia.
From S2P Require Import Prelude Core.

(** ** sleeplock.c *)

Module Sleeplock.

Record sleeplock : Type := { slocked : bool; spid : Z }.

(** All sleep locks, by a number that stands for their address. *)
Record slocktab : Type := { sl_of : Z -> sleeplock }.

Definition set_sl (l : Z) (k : sleeplock) (t : slocktab) : slocktab :=
  {| sl_of := fun l' => if decide (l' = l) then k else sl_of t l' |}.

Section Ops.
Context {S : Type} {HL : Lens S core} {HT : Lens S slocktab}.

Definition sl_get (l : Z) : M S sleeplock := lgets (T := slocktab) (fun t => sl_of t l).
Definition sl_put (l : Z) (f : sleeplock -> sleeplock) : M S unit :=
  lmod (T := slocktab) (fun t => set_sl l (f (sl_of t l)) t).

Definition initsleeplock (l : Z) : M S unit :=
  initlock (L_sleep l);;
  sl_put l (fun _ => {| slocked := false; spid := 0 |}).

(** [while (lk->locked) sleep(lk, &lk->lk);], for at most [fuel] wakeups. *)
Fixpoint acquiresleep_loop (fuel : nat) (l : Z) : M S unit :=
  match fuel with
  | O => spin
  | Datatypes.S f =>
      k ← sl_get l;
      if slocked k then sleep (ch_slock l) (L_sleep l);; acquiresleep_loop f l
      else mret tt
  end.

(** [myproc()->pid] *)
Definition my_pid : M S Z :=
  p ← myproc; core_get (fun c => pid (getp c (default O p))).

Definition acquiresleep (fuel : nat) (l : Z) : M S unit :=
  acquire (L_sleep l);;
  acquiresleep_loop fuel l;;
  sl_put l (fun k => {| slocked := true; spid := spid k |});;
  id ← my_pid;
  sl_put l (fun k => {| slocked := slocked k; spid := id |});;
  release (L_sleep l).

Definition releasesleep (l : Z) : M S unit :=
  acquire (L_sleep l);;
  sl_put l (fun k => {| slocked := false; spid := spid k |});;
  sl_put l (fun k => {| slocked := slocked k; spid := 0 |});;
  wakeup (ch_slock l);;
  release (L_sleep l).

Definition holdingsleep (l : Z) : M S bool :=
  acquire (L_sleep l);;
  k ← sl_get l;
  id ← my_pid;
  let r := slocked k && (spid k =? id) in
  release (L_sleep l);;
  mret r.

Context {HLok : LensOk S core} {HTok : LensOk S slocktab} {Hsep : LensSep S core slocktab}.

Ltac slens :=
  repeat first [rewrite lget_lset | rewrite lsep_l | rewrite lsep_r | rewrite lset_lset];
  cbn [sl_of set_sl slocked spid].

(** What a process finds in the state. *)
Definition sleeplock_of (s : S) (l : Z) : sleeplock := sl_of (lget (T := slocktab) s) l.
Definition procs_of (s : S) : list proc := procs (lget (T := core) s).

(** Nothing but the core and the sleep locks differs between two states. *)
Definition outside (s s' : S) : Prop :=
  forall (U : Type) (HU : Lens S U), LensSep S core U -> LensSep S slocktab U ->
    lget (T := U) s' = lget s.

#[local] Instance outside_preorder : PreOrder outside.
Proof.
  split; [by intros s U HU ? ? | intros a b c H1 H2 U HU ? ?]. by rewrite H2, H1.
Qed.

Lemma wp_my_pid s i L ie p (Q : Z -> S -> Prop) :
  core_ok (lget s) i L ie (Some p) ->
  (forall c', core_ok c' i L ie (Some p) -> same_procs (lget s) c' ->
     Q (pid (getp (lget s) p)) (lset c' s)) ->
  wp my_pid s Q.
Proof.
  intros Hc HQ. unfold my_pid. wp_step. eapply wp_myproc; [exact Hc|].
  intros c' Hc' Hs. unfold core_get. wp_step. rewrite lget_lset. simpl default.
  replace (pid (getp c' p)) with (pid (getp (lget s) p)); [auto|].
  destruct Hs as (Hp & _). unfold getp. by rewrite Hp.
Qed.

(** Taking a free sleep lock, once its spin lock is held. *)
Definition take_free (l : Z) : M S unit :=
  sl_put l (fun k => {| slocked := true; spid := spid k |});;
  id ← my_pid;
  sl_put l (fun k => {| slocked := slocked k; spid := id |});;
  release (L_sleep l).

Lemma wp_take_free s i ie p l L (Q : unit -> S -> Prop) :
  core_ok (lget s) i (L_sleep l :: L) ie (Some p) ->
  (forall s', core_ok (lget s') i L ie (Some p) -> procs_of s' = procs_of s ->
     (forall l', sleeplock_of s' l' = if decide (l' = l)
        then {| slocked := true; spid := pid (getp (lget s) p) |} else sleeplock_of s l') ->
     outside s s' -> Q tt s') ->
  wp (take_free l) s Q.
Proof.
  intros Hc HQ. unfold take_free, sl_put. wp_step.
  eapply wp_my_pid; [by rewrite lsep_l|]. intros c1 Hc1 Hs1. wp_step.
  eapply wp_release; [rewrite lsep_l, lget_lset; exact Hc1|]. intros c2 Hc2 (Hp2 & _).
  apply HQ.
  - by slens.
  - unfold procs_of. rewrite lget_lset, Hp2, lsep_l, lget_lset.
    destruct Hs1 as (-> & _). by rewrite lsep_l.
  - intros l'. unfold sleeplock_of. slens.
    destruct (decide (l' = l)); by rewrite ?decide_True by done.
  - intros U HU ? ?. by slens.
Qed.

Lemma wp_acquiresleep s fuel i L ie p l (Q : unit -> S -> Prop) :
  core_ok (lget s) i L ie (Some p) -> L_sleep l ∉ L ->
  slocked (sleeplock_of s l) = false ->
  (forall s', core_ok (lget s') i L ie (Some p) -> procs_of s' = procs_of s ->
     (forall l', sleeplock_of s' l' = if decide (l' = l)
        then {| slocked := true; spid := pid (getp (lget s) p) |} else sleeplock_of s l') ->
     outside s s' -> Q tt s') ->
  wp (acquiresleep (Datatypes.S fuel) l) s Q.
Proof.
  intros Hc Hni Hfree HQ. unfold acquiresleep. wp_step.
  eapply wp_acquire; [exact Hc | done |]. intros c1 Hc1 (Hp1 & _). cbn [acquiresleep_loop].
  unfold sl_get. wp_step. slens. unfold sleeplock_of in Hfree. rewrite Hfree. apply wp_ret.
  change (wp (take_free l) (lset c1 s) Q).
  eapply wp_take_free; [by rewrite lget_lset|]. intros s' Hc' Hp' Hs' Ho'. apply HQ; [done | | |].
  - rewrite Hp'. unfold procs_of. slens. congruence.
  - intros l'. rewrite Hs'. unfold sleeplock_of, getp. slens. by rewrite Hp1.
  - etrans; [|exact Ho']. intros U HU ? ?. by slens.
Qed.

Lemma wp_releasesleep s i L ie p l (Q : unit -> S -> Prop) :
  core_ok (lget s) i L ie p -> L_sleep l ∉ L -> L_ptable ∉ L ->
  (forall s', core_ok (lget s') i L ie p ->
     procs_of s' = wake_proc (ch_slock l) <$> procs_of s ->
     (forall l', sleeplock_of s' l' = if decide (l' = l)
        then {| slocked := false; spid := 0 |} else sleeplock_of s l') ->
     outside s s' -> Q tt s') ->
  wp (releasesleep l) s Q.
Proof.
  intros Hc Hni Hpt HQ. unfold releasesleep, sl_put. wp_step.
  eapply wp_acquire; [exact Hc | done |]. intros c1 Hc1 (Hp1 & _). wp_step.
  eapply wp_wakeup; [slens; exact Hc1 | |].
  { rewrite elem_of_cons. intros [?|?]; [done|tauto]. }
  intros c2 Hc2 Hp2. eapply wp_release; [rewrite lget_lset; exact Hc2|].
  intros c3 Hc3 (Hp3 & _). apply HQ; [by slens | | |].
  - unfold procs_of. slens. rewrite Hp3. slens. rewrite Hp2. slens. by rewrite Hp1.
  - intros l'. unfold sleeplock_of. slens.
    destruct (decide (l' = l)); by rewrite ?decide_True by done.
  - intros U HU ? ?. by slens.
Qed.

Lemma wp_holdingsleep s i L ie p l (Q : bool -> S -> Prop) :
  core_ok (lget s) i L ie (Some p) -> L_sleep l ∉ L ->
  (forall s', core_ok (lget s') i L ie (Some p) -> procs_of s' = procs_of s ->
     (forall l', sleeplock_of s' l' = sleeplock_of s l') -> outside s s' ->
     Q (slocked (sleeplock_of s l) && (spid (sleeplock_of s l) =? pid (getp (lget s) p))) s') ->
  wp (holdingsleep l) s Q.
Proof.
  intros Hc Hni HQ. unfold holdingsleep, sl_get. wp_step.
  eapply wp_acquire; [exact Hc | done |]. intros c1 Hc1 (Hp1 & _). wp_step. slens.
  eapply wp_my_pid; [rewrite lget_lset; exact Hc1|]. intros c2 Hc2 (Hp2 & _). wp_step. slens.
  eapply wp_release; [rewrite lget_lset; exact Hc2|]. intros c3 Hc3 (Hp3 & _). wp_step. slens.
  replace (getp c1 p) with (getp (lget s) p) by (unfold getp; by rewrite Hp1).
  apply HQ.
  - by slens.
  - unfold procs_of. revert Hp2 Hp3. slens. congruence.
  - intros l'. unfold sleeplock_of. by slens.
  - intros U HU ? ?. by slens.
Qed.

(** A process that finds the lock taken sleeps on it with the lock untouched, and
    when it runs again after the lock has been released it takes it. *)
Lemma acquiresleep_contended s fuel i ie p l :
  core_ok (lget s) i [] ie (Some p) -> (p < length (procs_of s))%nat ->
  slocked (sleeplock_of s l) = true ->
  exists s1 k, acquiresleep (Datatypes.S (Datatypes.S fuel)) l s = Sleep (ch_slock l) s1 k /\
    (forall l', sleeplock_of s1 l' = sleeplock_of s l') /\
    procs_of s1 = asleep p (ch_slock l) (procs_of s) /\
    forall s2 j ie2, core_ok (lget s2) j [L_ptable] ie2 (Some p) ->
      slocked (sleeplock_of s2 l) = false ->
      exists s3, k s2 = Ret tt s3 /\ core_ok (lget s3) j [] ie (Some p) /\
        sleeplock_of s3 l = {| slocked := true; spid := pid (getp (lget s2) p) |}.
Proof.
  intros Hc Hp Hlk.
  destruct (wp_acquire s i [] ie (Some p) (L_sleep l) (fun _ s' => exists c,
    s' = lset c s /\ core_ok c i [L_sleep l] ie (Some p) /\ procs c = procs (lget s)))
    as (a & s0 & E0 & c0 & -> & Hc0 & Hp0); [done | apply not_elem_of_nil | |].
  { intros c' Hc' (Hp' & _). eauto. }
  destruct (sleep_spec (lset c0 s) i ie p (ch_slock l) (L_sleep l))
    as (c1 & k & E1 & Hc1 & Hp1 & Hk); [by rewrite lget_lset | done | |].
  { rewrite lget_lset, Hp0. done. }
  eexists (lset c1 (lset c0 s)), _. split_and!.
  - unfold acquiresleep. rewrite (bind_ret _ _ _ _ _ E0). cbn [acquiresleep_loop].
    unfold mbind at 1, M_bind at 1. unfold sl_get. erewrite bind_ret by reflexivity.
    rewrite lsep_r. unfold sleeplock_of in Hlk. rewrite Hlk.
    unfold mbind at 1, M_bind at 1. rewrite E1. cbn [obind]. reflexivity.
  - intros l'. unfold sleeplock_of. by slens.
  - unfold procs_of. rewrite lget_lset, Hp1, lget_lset, Hp0. done.
  - intros s2 j ie2 Hc2 Hfree. cbv beta. rewrite Hk.
    destruct (wp_sleep_exit s2 j ie2 ie p (L_sleep l) (fun _ s' => exists c,
      s' = lset c s2 /\ core_ok c j [L_sleep l] ie (Some p) /\
      procs c = alter (with_chan ch_none) p (procs (lget s2))))
      as (a2 & s2' & E2 & c2 & -> & Hc2' & Hp2); [done | done | eauto |].
    rewrite E2. cbn [obind acquiresleep_loop]. unfold sl_get. erewrite bind_ret by reflexivity.
    rewrite lsep_r. unfold sleeplock_of in Hfree. rewrite Hfree. cbn [obind mret M_ret].
    assert (wp (take_free l) (lset c2 s2) (fun _ s3 => core_ok (lget s3) j [] ie (Some p) /\
      sleeplock_of s3 l = {| slocked := true; spid := pid (getp (lget s2) p) |}))
      as (a3 & s3 & E3 & HQ).
    { eapply wp_take_free; [by rewrite lget_lset|]. intros s' Hc' _ Hs'. split; [done|].
      rewrite Hs', decide_True by done. unfold getp. rewrite lget_lset, Hp2.
      rewrite list_lookup_alter_eq. by destruct (procs (lget s2) !! p). }
    destruct a3. exists s3. split; [exact E3 | exact HQ].
Qed.

End Ops.

(** *** The core with its sleep locks, as one state *)

Abbreviation ks := (core * slocktab)%type.

Definition boot : ks := (boot_core, {| sl_of := fun _ => {| slocked := false; spid := 0 |} |}).

Section Claims.
Context {S : Type} {HL : Lens S core} {HLok : LensOk S core}.

(** [acquire] of a spin lock that is free returns with the lock held by this
    CPU and interrupts off; [release] undoes it exactly: the same locks are held
    as before, interrupts are on again if and only if they were on before the
    first lock was taken, and the process table is untouched.  A second [acquire]
    of the same lock and a [release] of a lock that is not held panic. *)
Theorem spinlock_balanced (s : S) i L ie p l :
  core_ok (lget s) i L ie p -> l ∉ L ->
  (exists s1 s2, acquire l s = Ret tt s1 /\ release l s1 = Ret tt s2 /\
     core_ok (lget s1) i (l :: L) ie p /\ hw_if (lget s1) = false /\
     core_ok (lget s2) i L ie p /\ procs (lget s2) = procs (lget s) /\
     (L = [] -> hw_if (lget s2) = hw_if (lget s)) /\
     exists s3, acquire l s1 = Panic "acquire" s3) /\
  exists s4, release l s = Panic "release" s4.
Proof.
  intros Hc Hni. split; [|by eapply release_free_panics].
  destruct (wp_acquire s i L ie p l (fun _ s' => exists c, s' = lset c s /\
    core_ok c i (l :: L) ie p /\ procs c = procs (lget s)))
    as ([] & s1 & E1 & c1 & -> & Hc1 & Hp1); [done | done | by intros c Hc' (?&_); eauto |].
  destruct (wp_release (lset c1 s) i L ie p l (fun _ s' => exists c, s' = lset c s /\
    core_ok c i L ie p /\ procs c = procs (lget s)))
    as ([] & s2 & E2 & c2 & -> & Hc2 & Hp2).
  { by rewrite lget_lset. }
  { intros c Hc' (Hp & _). rewrite lset_lset. eexists. split_and!; [done | done |].
    by rewrite Hp, lget_lset. }
  eexists _, _. rewrite !lget_lset. split_and!; try done.
  - eapply cpu_ok_if; [apply Hc1|]. unfold zlen. simpl. lia.
  - intros ->. destruct Hc as [(_ & _ & k & _ & _ & _ & H1) _].
    destruct Hc2 as [(_ & _ & k2 & _ & _ & _ & H2) _]. simpl in *. congruence.
  - eapply acquire_held_panics; [by rewrite lget_lset | by left].
Qed.

End Claims.

Lemma spinlock_balanced_witness :
  exists s4, release L_kmem boot = Panic "release" s4.
Proof.
  apply (spinlock_balanced (S := ks) boot 0 [] true (Some 0%nat) L_kmem); [exact boot_ok | apply not_elem_of_nil].
Defined.

(** A process that finds a sleep lock taken goes to sleep on it and leaves it
    as it was; resumed after the holder released it, it takes the lock for its own
    pid and holds no spin lock any more. *)
Theorem acquiresleep_waits (s : ks) fuel i ie p l :
  core_ok (lget s) i [] ie (Some p) -> (p < length (procs_of s))%nat ->
  slocked (sleeplock_of s l) = true ->
  exists s1 k, acquiresleep (Datatypes.S (Datatypes.S fuel)) l s = Sleep (ch_slock l) s1 k /\
    (forall l', sleeplock_of s1 l' = sleeplock_of s l') /\
    procs_of s1 = asleep p (ch_slock l) (procs_of s) /\
    forall s2 j ie2, core_ok (lget s2) j [L_ptable] ie2 (Some p) ->
      slocked (sleeplock_of s2 l) = false ->
      exists s3, k s2 = Ret tt s3 /\ core_ok (lget s3) j [] ie (Some p) /\
        sleeplock_of s3 l = {| slocked := true; spid := pid (getp (lget s2) p) |}.
Proof. apply acquiresleep_contended. Qed.

Definition boot_taken : ks :=
  (boot_core, {| sl_of := fun _ => {| slocked := true; spid := 9 |} |}).

Lemma acquiresleep_waits_witness :
  exists s1 k, acquiresleep 2 5 boot_taken = Sleep (ch_slock 5) s1 k.
Proof.
  destruct (acquiresleep_waits boot_taken 0 0 true 0 5) as (s1 & k & H & _);
    [exact boot_ok | vm_compute; lia | reflexivity | eauto].
Defined.

End Sleeplock.
