(* ===== verification/LockSteps.v ===== *)
(** * The locking protocols under interleaving

    Several CPUs run the code of spinlock.c, and of [sleep] and [wakeup] of proc.c, on one
    shared core.  The definitions of [Core] are cut into pieces at the points where another
    CPU can interfere; equations say that the pieces, one after the other, are the whole
    code.  A step of the machine runs one piece on one CPU. *)

From stdpp Require Import base gmap list strings.
From Stdlib Require Import ZArith Lia FunctionalExtensionality.
From S2P Require Import Prelude Core.

(** ** One CPU of several *)

Module Smp.

Lemma obind_assoc {S A B C} (o : outcome S A) (f : A -> S -> outcome S B) (g : B -> S -> outcome S C) :
  obind (obind o f) g = obind o (fun a s => obind (f a s) g).
Proof. induction o as [a s1|e s1|s1|c s1 k IH]; cbn; try done. f_equal. extensionality s2. apply IH. Qed.

Lemma bind_assoc {S A B C} (m : M S A) (f : A -> M S B) (g : B -> M S C) :
  (m ≫= f) ≫= g = m ≫= (fun a => f a ≫= g).
Proof. extensionality s. apply obind_assoc. Qed.

Lemma bind_mret {S A B} (a : A) (f : A -> M S B) : mret a ≫= f = f a.
Proof. reflexivity. Qed.

Lemma bind_if {S A B} (b : bool) (m1 m2 : M S A) (f : A -> M S B) :
  (if b then m1 else m2) ≫= f = if b then m1 ≫= f else m2 ≫= f.
Proof. by destruct b. Qed.

Lemma bind_panic_l {S A B} e (f : A -> M S B) : panic e ≫= f = panic e.
Proof. reflexivity. Qed.

Lemma bind_spin {A B} (m : M core A) (f : A -> M core B) c c' : m c = Spin c' -> (m ≫= f) c = Spin c'.
Proof. intros H. unfold mbind, M_bind. by rewrite H. Qed.

Lemma bind_ext {S A B} (m : M S A) (f g : A -> M S B) : (forall a, f a = g a) -> m ≫= f = m ≫= g.
Proof. intros H. f_equal. extensionality a. apply H. Qed.

Lemma alter_alter {A} (f g : A -> A) i (l : list A) : alter f i (alter g i l) = alter (f ∘ g) i l.
Proof. revert i. induction l as [|x l IH]; intros [|i]; try done. exact (f_equal (cons x) (IH i)). Qed.

(** Only the record of CPU [i] may differ, apart from locks and processes. *)
Definition kept (i : nat) (c c' : core) : Prop :=
  hw_apicid c' = hw_apicid c /\
  exists g, (forall k, apicid (g k) = apicid k) /\ cpus c' = alter g i (cpus c).

#[export] Instance kept_preorder i : PreOrder (kept i).
Proof.
  split.
  - intros c. split; [done|]. exists id. split; [done|]. by rewrite list_alter_id.
  - intros a b c (H1 & g & Hg & E1) (H2 & h & Hh & E2). split; [congruence|]. exists (h ∘ g). split.
    + intros k. unfold compose. by rewrite Hh, Hg.
    + by rewrite E2, E1, alter_alter.
Qed.

(** The locks and the processes are as before. *)
Definition same_shared (c c' : core) : Prop :=
  locks c' = locks c /\ procs c' = procs c /\ nextpid c' = nextpid c /\ initproc c' = initproc c.

Lemma kept_same i c c' : hw_apicid c' = hw_apicid c -> cpus c' = cpus c -> kept i c c'.
Proof. intros H1 H2. split; [done|]. exists id. split; [done|]. by rewrite list_alter_id. Qed.

Lemma kept_cpus i c c' g : hw_apicid c' = hw_apicid c -> (forall k, apicid (g k) = apicid k) ->
  cpus c' = alter g i (cpus c) -> kept i c c'.
Proof. split; eauto. Qed.

Ltac cr := cbn [hw_apicid hw_if cpus locks procs nextpid initproc set_hw_if set_cpus set_lock set_procs
  set_nextpid set_initproc updp lget lset lens_id] in *.

Lemma run_mycpu c i d ie p : cpu_ok c i d ie p -> d <> 0 -> mycpu c = Ret i c.
Proof.
  intros Hc Hd. pose proof (cpu_ok_if _ _ _ _ _ Hc Hd) as Hif. pose proof (cpu_ok_find _ _ _ _ _ Hc) as Hf.
  unfold mycpu, readeflags_if, core_get, lgets, mbind, M_bind. cr. cbn. rewrite Hif. cbn. by rewrite Hf.
Qed.

Lemma run_pushcli c i d ie p : cpu_ok c i d ie p ->
  exists c', pushcli c = Ret tt c' /\ cpu_ok c' i (d + 1) ie p /\ kept i c c' /\ same_shared c c'.
Proof.
  intros Hc. destruct (wp_pushcli (S := core) c i d ie p (fun _ c' => cpu_ok c' i (d + 1) ie p /\ same_shared c c'))
    as ([] & c' & E & H1 & H2); [exact Hc | intros c' H1 H2; by split |].
  exists c'. split_and!; try done. revert E. destruct Hc as (_ & Hi & k & Hk & _).
  unfold pushcli, readeflags_if, cli, mycpu, get_cpu, mod_cpu, core_get, core_mod, lgets, lmod, mbind, M_bind. cr. cbn.
  rewrite Hi. cbn. rewrite Hk. cbn. destruct (ncli k =? 0); cbn; intros [= <-]; cr.
  - eapply (kept_cpus _ _ _ (_ ∘ _)); [done | | by rewrite alter_alter]. done.
  - eapply kept_cpus; [done | | reflexivity]. done.
Qed.

Lemma run_popcli c i d ie p : cpu_ok c i d ie p -> 0 < d ->
  exists c', popcli c = Ret tt c' /\ cpu_ok c' i (d - 1) ie p /\ kept i c c' /\ same_shared c c'.
Proof.
  intros Hc Hd. destruct (wp_popcli (S := core) c i d ie p (fun _ c' => cpu_ok c' i (d - 1) ie p /\ same_shared c c'))
    as ([] & c' & E & H1 & H2); [exact Hc | done | intros c' H1 H2; by split |].
  exists c'. split_and!; try done. revert E. pose proof (cpu_ok_if _ _ _ _ _ Hc ltac:(lia)) as Hif.
  destruct Hc as (_ & Hi & k & Hk & _).
  unfold popcli, readeflags_if, sti, mycpu, get_cpu, mod_cpu, core_get, core_mod, lgets, lmod, mbind, M_bind. cr. cbn.
  rewrite Hif. cbn. rewrite Hif. cbn. rewrite Hi. cbn. rewrite list_lookup_alter_eq, Hk. cbn. destruct (_ <? 0); [done|]. cbn.
  destruct (_ && _); cbn; intros [= <-]; cr; (eapply kept_cpus; [done | | reflexivity]; done).
Qed.

(** The machine: the shared core, the interrupt flag of each CPU, where each CPU is, and
    data of the program that runs. *)
Record mach (P X : Type) : Type := { mem : core; ifs : nat -> bool; at_ : nat -> P; ext : X }.
Arguments mem {P X} _. Arguments ifs {P X} _ _. Arguments at_ {P X} _ _. Arguments ext {P X} _.

Definition goto {P} (i : nat) (p : P) (f : nat -> P) : nat -> P := fun j => if decide (j = i) then p else f j.

Lemma goto_same {P} i (p : P) f : goto i p f i = p.
Proof. unfold goto. by rewrite decide_True. Qed.
Lemma goto_other {P} i j (p : P) f : j <> i -> goto i p f j = f j.
Proof. intros. unfold goto. by rewrite decide_False. Qed.

Section Machine.
Context {P X : Type}.

Definition cpu_at (c : core) (i : nat) : cpu :=
  default {| apicid := 0; ncli := 0; intena := false; cproc := None |} (cpus c !! i).

(** What CPU [i] sees. *)
Definition on (i : nat) (s : mach P X) : core :=
  {| hw_apicid := apicid (cpu_at (mem s) i); hw_if := ifs s i; cpus := cpus (mem s); locks := locks (mem s);
     procs := procs (mem s); nextpid := nextpid (mem s); initproc := initproc (mem s) |}.

(** CPU [i] has run a piece that ended in [c'], and is at [p] now. *)
Definition moved (i : nat) (p : P) (x : X) (c' : core) (s : mach P X) : mach P X :=
  {| mem := c'; ifs := goto i (hw_if c') (ifs s); at_ := goto i p (at_ s); ext := x |}.

Lemma cpu_at_alter c c' i j g : (forall k, apicid (g k) = apicid k) -> cpus c' = alter g i (cpus c) ->
  apicid (cpu_at c' j) = apicid (cpu_at c j).
Proof.
  intros Hg E. unfold cpu_at. rewrite E. destruct (decide (j = i)) as [->|Hne].
  - rewrite list_lookup_alter_eq. destruct (cpus c !! i); [cbn; apply Hg | done].
  - by rewrite list_lookup_alter_ne.
Qed.

Lemma on_self i p x c' s : kept i (on i s) c' -> on i (moved i p x c' s) = c'.
Proof.
  intros (Ha & g & Hg & E). unfold on. cbn [moved mem ifs]. rewrite goto_same.
  rewrite (cpu_at_alter (on i s) c' i i g Hg E). change (cpu_at (on i s) i) with (cpu_at (mem s) i).
  change (hw_apicid (on i s)) with (apicid (cpu_at (mem s) i)) in Ha. rewrite <- Ha. by destruct c'.
Qed.

Lemma on_other i j p x c' s d ie o : j <> i -> kept i (on i s) c' -> cpu_ok (on j s) j d ie o ->
  cpu_ok (on j (moved i p x c' s)) j d ie o.
Proof.
  intros Hne (_ & g & Hg & E) (Hd & Hf & k & Hk & Hrest). split; [done|].
  cbn [on moved mem ifs hw_apicid cpus hw_if] in *. rewrite goto_other by done. split.
  - rewrite (cpu_at_alter (on i s) c' i j g Hg E), E. by apply find_cpu_alter.
  - exists k. rewrite E, list_lookup_alter_ne by done. done.
Qed.

Lemma kept_length i c c' : kept i c c' -> length (cpus c') = length (cpus c).
Proof. intros (_ & g & _ & ->). apply length_alter. Qed.

End Machine.
End Smp.

(** ** One spin lock, any number of CPUs

    Each CPU repeats [acquire]; critical section; [release].  The pieces end at the accesses
    to the lock: the two reads of [holding], the atomic [xchg], the store of [lk->cpu], and in
    [release] the two reads, the store that clears [lk->cpu] and the store that clears
    [lk->locked]. *)

Module SpinSteps.
Import Smp.

Section Pieces.
Context (l : lockid).

(** [acquire] up to the first read of [holding]: the value of [lk->locked]. *)
Definition acquire_look : M core bool := pushcli;; pushcli;; core_get (fun c => locked (locks c l)).

(** The rest of [holding], with the second read, and the test. *)
Definition acquire_check (b : bool) : M core unit :=
  o ← core_get (fun c => lcpu (locks c l));
  i ← mycpu;
  popcli;;
  if b && bool_decide (o = Some i) then panic "acquire" else mret tt.

Definition acquire_record : M core unit :=
  i ← mycpu;
  core_mod (fun c => set_lock l {| locked := locked (locks c l); lcpu := Some i |} c).

Definition release_look : M core bool := pushcli;; core_get (fun c => locked (locks c l)).

Definition release_check (b : bool) : M core unit :=
  o ← core_get (fun c => lcpu (locks c l));
  i ← mycpu;
  popcli;;
  if negb (b && bool_decide (o = Some i)) then panic "release" else mret tt.

Definition release_clear : M core unit :=
  core_mod (fun c => set_lock l {| locked := locked (locks c l); lcpu := None |} c).

Definition release_store : M core unit :=
  core_mod (fun c => set_lock l {| locked := false; lcpu := lcpu (locks c l) |} c);;
  popcli.

Lemma holding_reads {A} (f : bool -> M core A) :
  holding l ≫= f =
  (pushcli;; b ← core_get (fun c => locked (locks c l)); o ← core_get (fun c => lcpu (locks c l)); i ← mycpu;
   popcli;; f (b && bool_decide (o = Some i))).
Proof.
  unfold holding. rewrite bind_assoc. apply bind_ext. intros []. extensionality c.
  unfold mycpu, readeflags_if, core_get, lgets, mbind, M_bind. cbn. destruct (hw_if c); cbn; [done|].
  destruct (find_cpu _ _); cbn; [|done]. by rewrite obind_assoc.
Qed.

(** The pieces are the code. *)
Lemma acquire_pieces : acquire l =
  (b ← acquire_look; acquire_check b;; b ← xchg l; if (b : bool) then spin else acquire_record).
Proof.
  unfold acquire, acquire_look, acquire_check, acquire_record. rewrite !bind_assoc. apply bind_ext. intros [].
  rewrite holding_reads. apply bind_ext. intros []. apply bind_ext. intros b.
  extensionality c. unfold mycpu, readeflags_if, core_get, lgets, mbind, M_bind. cbn. destruct (hw_if c); cbn; [done|].
  destruct (find_cpu _ _); cbn; [|done]. rewrite obind_assoc. f_equal. extensionality u. extensionality c1. by destruct (_ && _).
Qed.

Lemma release_pieces : release l = (b ← release_look; release_check b;; release_clear;; release_store).
Proof.
  unfold release, release_look, release_check, release_clear, release_store. rewrite holding_reads, !bind_assoc. apply bind_ext. intros [].
  apply bind_ext. intros b.
  extensionality c. unfold mycpu, readeflags_if, core_get, lgets, mbind, M_bind. cbn. destruct (hw_if c); cbn; [done|].
  destruct (find_cpu _ _); cbn; [|done]. rewrite obind_assoc. f_equal. extensionality u. extensionality c1. by destruct (_ && _).
Qed.
(** Where a CPU is: in front of the piece that it runs next. *)
Inductive pc : Type :=
| Outside            (* not in acquire or release *)
| Looked (b : bool)  (* between the two reads of acquire's holding *)
| AtXchg             (* in the xchg loop of acquire *)
| GotIt              (* xchg returned 0, lk->cpu not yet written *)
| Critical           (* acquire has returned *)
| Leaving (b : bool) (* between the two reads of release's holding *)
| Clearing           (* in release, after holding *)
| Releasing          (* release has cleared lk->cpu, not lk->locked *)
| Panicked.

Definition code (p : pc) : M core pc :=
  match p with
  | Outside => b ← acquire_look; mret (Looked b)
  | Looked b => acquire_check b;; mret AtXchg
  | AtXchg => b ← xchg l; mret (if (b : bool) then AtXchg else GotIt)
  | GotIt => acquire_record;; mret Critical
  | Critical => b ← release_look; mret (Leaving b)
  | Leaving b => release_check b;; mret Clearing
  | Clearing => release_clear;; mret Releasing
  | Releasing => release_store;; mret Outside
  | Panicked => spin
  end.

Abbreviation state := (mach pc unit).

Inductive step : state -> state -> Prop :=
| st_ret s i p c' : (i < length (cpus (mem s)))%nat ->
    code (at_ s i) (on i s) = Ret p c' -> step s (moved i p tt c' s)
| st_panic s i e c' : (i < length (cpus (mem s)))%nat ->
    code (at_ s i) (on i s) = Panic e c' -> step s (moved i Panicked tt c' s).

(** The CPU has taken the lock word; it is recorded as the holder; its pushcli depth. *)
Definition inside (p : pc) : bool :=
  match p with GotIt | Critical | Leaving _ | Clearing | Releasing => true | _ => false end.
Definition owner (p : pc) : bool := match p with Critical | Leaving _ | Clearing => true | _ => false end.
Definition depth (p : pc) : Z :=
  match p with Outside | Panicked => 0 | Looked _ | Leaving _ => 2 | _ => 1 end.

(** The lock and the CPUs fit together. *)
Definition lock_inv (k : spinlock) (f : nat -> pc) : Prop :=
  (forall i, f i <> Panicked) /\ (forall i, f i <> Leaving false) /\
  (forall i j, inside (f i) = true -> inside (f j) = true -> i = j) /\
  (forall i, inside (f i) = true -> locked k = true) /\
  (forall i, lcpu k = Some i <-> owner (f i) = true).

(** Split on whether a CPU of the goal is the one that moved. *)
Ltac who :=
  repeat match goal with
  | |- context [goto ?i _ _ ?j] =>
      destruct (decide (j = i)) as [->|?]; [rewrite goto_same in * | rewrite goto_other in * by done]
  | H : context [goto ?i _ _ ?j] |- _ =>
      destruct (decide (j = i)) as [->|?]; [rewrite goto_same in * | rewrite goto_other in * by done]
  end.

(** One CPU moves and the lock changes. *)
Lemma lock_inv_move k f i k' q : lock_inv k f -> q <> Panicked -> q <> Leaving false ->
  (inside q = true -> inside (f i) = true \/ locked k = false) ->
  (locked k' = true \/ (inside (f i) = true /\ inside q = false) \/
     (locked k' = locked k /\ (inside q = true -> inside (f i) = true))) ->
  (if owner q then lcpu k' = Some i else if owner (f i) then lcpu k' = None else lcpu k' = lcpu k) ->
  (owner q = true -> inside (f i) = true) -> (owner q = true -> inside q = true) ->
  lock_inv k' (goto i q f).
Proof.
  intros (Hp & Hf & Hm & Hl & Hc) Hq Hq2 Hin Hlk Hcp Hoi Hoq.
  assert (Hino : forall j, owner (f j) = true -> inside (f j) = true) by (intros j; by destruct (f j)).
  assert (Hex : forall j, j <> i -> inside q = true -> inside (f j) = true -> False).
  { intros j Hj H1 H2. destruct (Hin H1) as [H3|H3]; [by apply Hj, Hm|]. apply Hl in H2. congruence. }
  split_and!.
  - intros j. by who.
  - intros j. by who.
  - intros j j' Hj Hj'. destruct (decide (j = i)) as [->|n1], (decide (j' = i)) as [->|n2];
      rewrite ?goto_same in *; rewrite ?goto_other in * by done; [done | by destruct (Hex j') | by destruct (Hex j) | by apply Hm].
  - intros j Hj. destruct Hlk as [->|[[H1 H2]|[-> H2]]]; [done | |].
    + who; [congruence|]. destruct n. by apply Hm.
    + who; [apply (Hl i); auto | by apply (Hl j)].
  - intros j. who.
    + destruct (owner q) eqn:E; [by rewrite Hcp|]. split; [|done]. destruct (owner (f i)) eqn:E2; rewrite Hcp; [done|].
      intros Hj. apply Hc in Hj. congruence.
    + destruct (owner q) eqn:E.
      * rewrite Hcp. split; [congruence|]. intros Hj. destruct (Hex j); [done | by apply Hoq | by apply Hino].
      * destruct (owner (f i)) eqn:E2; rewrite Hcp; [|apply Hc]. split; [done|]. intros Hj. destruct n. apply Hm; by apply Hino.
Qed.

Ltac lock_moves HL Ea :=
  eapply lock_inv_move; [exact HL | done | done | ..]; rewrite ?Ea; cbn [inside owner locked lcpu]; auto; try done.

(** *** The pieces on a CPU of the machine *)

Section Runs.
Context (i : nat) (ie : bool) (o : option nat).

Lemma run_acquire_look c : cpu_ok c i 0 ie o ->
  exists c', acquire_look c = Ret (locked (locks c l)) c' /\ cpu_ok c' i 2 ie o /\ kept i c c' /\ same_shared c c'.
Proof.
  intros Hc. destruct (run_pushcli c i 0 ie o Hc) as (c1 & E1 & Hc1 & Hk1 & Hs1).
  destruct (run_pushcli c1 i 1 ie o Hc1) as (c2 & E2 & Hc2 & Hk2 & Hs2). exists c2.
  unfold acquire_look. rewrite (bind_ret _ _ _ _ _ E1), (bind_ret _ _ _ _ _ E2). unfold core_get, lgets. cbn [lget lens_id].
  destruct Hs1 as (L1 & ? & ? & ?), Hs2 as (L2 & ? & ? & ?). split; [by rewrite L2, L1|]. split; [done|].
  split; [by etrans|]. split_and!; congruence.
Qed.

Lemma run_release_look c : cpu_ok c i 1 ie o ->
  exists c', release_look c = Ret (locked (locks c l)) c' /\ cpu_ok c' i 2 ie o /\ kept i c c' /\ same_shared c c'.
Proof.
  intros Hc. destruct (run_pushcli c i 1 ie o Hc) as (c1 & E1 & Hc1 & Hk1 & Hs1). exists c1.
  unfold release_look. rewrite (bind_ret _ _ _ _ _ E1). unfold core_get, lgets. cbn [lget lens_id].
  destruct Hs1 as (L1 & ? & ? & ?). split_and!; try done. by rewrite L1.
Qed.

(** The second read of [holding] and its [popcli]. *)
Lemma run_check {A} (f : bool -> M core A) b c : cpu_ok c i 2 ie o ->
  exists c', (x ← core_get (fun c => lcpu (locks c l)); j ← mycpu; popcli;; f (b && bool_decide (x = Some j))) c =
    f (b && bool_decide (lcpu (locks c l) = Some i)) c' /\ cpu_ok c' i 1 ie o /\ kept i c c' /\ same_shared c c'.
Proof.
  intros Hc. destruct (run_popcli c i 2 ie o Hc ltac:(lia)) as (c1 & E1 & Hc1 & Hk1 & Hs1). exists c1.
  split_and!; try done. unfold core_get, lgets. erewrite bind_ret by reflexivity. cbn [lget lens_id].
  rewrite (bind_ret _ _ _ _ _ (run_mycpu _ _ _ _ _ Hc ltac:(lia))). by rewrite (bind_ret _ _ _ _ _ E1).
Qed.

Lemma run_acquire_record c : cpu_ok c i 1 ie o ->
  exists c', acquire_record c = Ret tt c' /\ cpu_ok c' i 1 ie o /\ kept i c c' /\
    locks c' l = {| locked := locked (locks c l); lcpu := Some i |}.
Proof.
  intros Hc. unfold acquire_record. rewrite (bind_ret _ _ _ _ _ (run_mycpu _ _ _ _ _ Hc ltac:(lia))).
  eexists. split; [reflexivity|]. cbn [lget lset lens_id]. split; [done|]. split; [by apply kept_same|].
  cbn [locks set_lock]. by rewrite decide_True.
Qed.

Lemma run_xchg c : cpu_ok c i 1 ie o ->
  exists c', xchg l c = Ret (locked (locks c l)) c' /\ cpu_ok c' i 1 ie o /\ kept i c c' /\
    locks c' l = {| locked := true; lcpu := lcpu (locks c l) |}.
Proof.
  intros Hc. eexists. split; [reflexivity|]. cbn [lget lset lens_id]. split; [done|]. split; [by apply kept_same|].
  cbn [locks set_lock]. by rewrite decide_True.
Qed.

Lemma run_release_clear c : cpu_ok c i 1 ie o ->
  exists c', release_clear c = Ret tt c' /\ cpu_ok c' i 1 ie o /\ kept i c c' /\
    locks c' l = {| locked := locked (locks c l); lcpu := None |}.
Proof.
  intros Hc. eexists. split; [reflexivity|]. cbn [lget lset lens_id]. split; [done|]. split; [by apply kept_same|].
  cbn [locks set_lock]. by rewrite decide_True.
Qed.

Lemma run_release_store c : cpu_ok c i 1 ie o ->
  exists c', release_store c = Ret tt c' /\ cpu_ok c' i 0 ie o /\ kept i c c' /\
    locks c' l = {| locked := false; lcpu := lcpu (locks c l) |}.
Proof.
  intros Hc. unfold release_store, core_mod, lmod. erewrite bind_ret by reflexivity. cbn [lget lset lens_id].
  destruct (run_popcli (set_lock l {| locked := false; lcpu := lcpu (locks c l) |} c) i 1 ie o Hc ltac:(lia)) as (c1 & E1 & Hc1 & Hk1 & Hs1).
  exists c1. split; [done|]. split; [done|]. split; [exact Hk1|]. destruct Hs1 as (-> & _). cbn [locks set_lock]. by rewrite decide_True.
Qed.

Lemma run_holding c d : cpu_ok c i d ie o ->
  exists c', holding l c = Ret (locked (locks c l) && bool_decide (lcpu (locks c l) = Some i)) c' /\
    cpu_ok c' i d ie o /\ kept i c c' /\ same_shared c c'.
Proof.
  intros Hc. pose proof Hc as (Hd & _). destruct (run_pushcli c i d ie o Hc) as (c1 & E1 & Hc1 & Hk1 & Hs1).
  destruct (run_popcli c1 i (d + 1) ie o Hc1 ltac:(lia)) as (c2 & E2 & Hc2 & Hk2 & Hs2). exists c2.
  replace (d + 1 - 1) with d in Hc2 by lia. split; [|split; [done|]; split; [by etrans|]].
  - unfold holding. rewrite (bind_ret _ _ _ _ _ E1), (bind_ret _ _ _ _ _ (run_mycpu _ _ _ _ _ Hc1 ltac:(lia))).
    unfold core_get, lgets. erewrite bind_ret by reflexivity. cbn [lget lens_id]. rewrite (bind_ret _ _ _ _ _ E2).
    by destruct Hs1 as (-> & _).
  - destruct Hs1 as (? & ? & ? & ?), Hs2 as (? & ? & ? & ?). split_and!; congruence.
Qed.

End Runs.

(** *** The invariant *)

Section Inv.
Context (n : nat) (ie : nat -> bool) (pr : nat -> option nat).

Definition inv (s : state) : Prop :=
  length (cpus (mem s)) = n /\ (forall i, (n <= i)%nat -> at_ s i = Outside) /\
  (forall i, (i < n)%nat -> cpu_ok (on i s) i (depth (at_ s i)) (ie i) (pr i)) /\
  lock_inv (locks (mem s) l) (at_ s).

Lemma inv_moved s i p c' : inv s -> (i < n)%nat -> kept i (on i s) c' -> cpu_ok c' i (depth p) (ie i) (pr i) ->
  lock_inv (locks c' l) (goto i p (at_ s)) -> inv (moved i p tt c' s).
Proof.
  intros (Hn & Ho & Hc & _) Hi Hk Hci Hl. split_and!.
  - cbn [moved mem]. rewrite (kept_length _ _ _ Hk). exact Hn.
  - intros j Hj. cbn [moved at_]. rewrite goto_other by lia. by apply Ho.
  - intros j Hj. destruct (decide (j = i)) as [->|Hne].
    + rewrite on_self by done. cbn [moved at_]. by rewrite goto_same.
    + cbn [moved at_]. rewrite goto_other by done. apply on_other; [done | done | by apply Hc].
  - exact Hl.
Qed.

(** Every piece returns: nothing panics, and the invariant holds again. *)
Lemma code_runs s i : inv s -> (i < n)%nat ->
  exists p c', code (at_ s i) (on i s) = Ret p c' /\ inv (moved i p tt c' s).
Proof.
  intros HI Hi. pose proof HI as (_ & _ & Hc & HL). specialize (Hc i Hi). pose proof HL as (Hp & Hf & Hm & Hl & Hcp).
  specialize (Hp i). specialize (Hf i). specialize (Hl i). specialize (Hcp i).
  assert (HR : forall p c', code (at_ s i) (on i s) = Ret p c' -> cpu_ok c' i (depth p) (ie i) (pr i) -> kept i (on i s) c' ->
    lock_inv (locks c' l) (goto i p (at_ s)) -> exists p c', code (at_ s i) (on i s) = Ret p c' /\ inv (moved i p tt c' s)).
  { intros p c' E H1 H2 H3. exists p, c'. split; [done|]. by apply inv_moved. }
  change (locks (mem s)) with (locks (on i s)) in *.
  destruct (at_ s i) as [|b| | | |b| | |] eqn:Ea; cbn [code depth inside owner] in *; try done.
  - destruct (run_acquire_look i (ie i) (pr i) (on i s) Hc) as (c' & E & Hc' & Hk & Hs & _).
    eapply HR; [by rewrite (bind_ret _ _ _ _ _ E) | exact Hc' | done |]. rewrite Hs. lock_moves HL Ea.
  - destruct (run_check i (ie i) (pr i) (fun h => if (h : bool) then panic "acquire" else mret tt) b (on i s) Hc) as (c' & E & Hc' & Hk & Hs & _).
    rewrite (bool_decide_eq_false_2 (lcpu _ = _)), andb_false_r in E by (rewrite Hcp; done).
    eapply HR; [unfold acquire_check; by rewrite (bind_ret _ _ _ tt c' E) | exact Hc' | done |]. rewrite Hs. lock_moves HL Ea.
  - destruct (run_xchg i (ie i) (pr i) (on i s) Hc) as (c' & E & Hc' & Hk & Hs).
    eapply HR; [by rewrite (bind_ret _ _ _ _ _ E) | by destruct (locked (locks (on i s) l)) | done |]. rewrite Hs.
    destruct (locked (locks (on i s) l)) eqn:El; lock_moves HL Ea.
  - destruct (run_acquire_record i (ie i) (pr i) (on i s) Hc) as (c' & E & Hc' & Hk & Hs).
    eapply HR; [by rewrite (bind_ret _ _ _ _ _ E) | exact Hc' | done |]. rewrite Hs. lock_moves HL Ea.
  - destruct (run_release_look i (ie i) (pr i) (on i s) Hc) as (c' & E & Hc' & Hk & Hs & _). rewrite (Hl eq_refl) in E.
    eapply HR; [by rewrite (bind_ret _ _ _ _ _ E) | exact Hc' | done |]. rewrite Hs. lock_moves HL Ea. by apply Hcp.
  - destruct b; [|done]. destruct (run_check i (ie i) (pr i) (fun h => if negb h then panic "release" else mret tt) true (on i s) Hc) as (c' & E & Hc' & Hk & Hs & _).
    rewrite (bool_decide_eq_true_2 (lcpu _ = _)) in E by (by apply Hcp).
    eapply HR; [unfold release_check; by rewrite (bind_ret _ _ _ tt c' E) | exact Hc' | done |]. rewrite Hs. lock_moves HL Ea. by apply Hcp.
  - destruct (run_release_clear i (ie i) (pr i) (on i s) Hc) as (c' & E & Hc' & Hk & Hs).
    eapply HR; [by rewrite (bind_ret _ _ _ _ _ E) | exact Hc' | done |]. rewrite Hs. lock_moves HL Ea.
  - destruct (run_release_store i (ie i) (pr i) (on i s) Hc) as (c' & E & Hc' & Hk & Hs).
    eapply HR; [by rewrite (bind_ret _ _ _ _ _ E) | exact Hc' | done |]. rewrite Hs. lock_moves HL Ea.
Qed.

Lemma step_inv s s' : inv s -> step s s' -> inv s'.
Proof.
  intros HI Hs. destruct Hs as [s i p c' Hi E|s i e c' Hi E]; (destruct (code_runs s i HI) as (p' & c1 & E1 & H1); [by destruct HI as [<- _]|]); congruence.
Qed.

(** All CPUs are outside, and the lock is free; CPU [i] has its interrupts in the state
    [ie i] and runs process [pr i]. *)
Definition starts (s : state) : Prop :=
  length (cpus (mem s)) = n /\ (forall i, at_ s i = Outside) /\
  locks (mem s) l = {| locked := false; lcpu := None |} /\
  forall i, (i < n)%nat -> cpu_ok (on i s) i 0 (ie i) (pr i).

Lemma starts_inv s : starts s -> inv s.
Proof.
  intros (Hn & Ha & Hl & Hc). split_and!; [done | intros; apply Ha | intros i Hi; rewrite Ha; by apply Hc |].
  split_and!; [intros i; by rewrite Ha .. | intros i j; by rewrite Ha | intros i; by rewrite Ha | ].
  intros i. by rewrite Hl, Ha.
Qed.

End Inv.
End Pieces.

(** C24: any number of CPUs run the code of [acquire] and [release] of one spin lock in any
    interleaving of its accesses to the lock.  The pieces between two accesses are, one after
    the other, exactly [acquire] and [release].  In every state that is reached, at most one
    CPU is between its successful [xchg] and the store that frees the lock; the checks of
    [acquire] and [release] do not panic, and every CPU can go on; [holding] is true exactly on
    the CPU whose [acquire] has returned and which has not yet cleared [lk->cpu] in [release];
    interrupts are off on a CPU from the start of its [acquire] to the end of its [release], and
    otherwise as they were. *)
Theorem spinlock_mutex l n ie pr s0 s :
  starts l n ie pr s0 -> star (step l) s0 s ->
  acquire l = (b ← acquire_look l; acquire_check l b;; b ← xchg l; if (b : bool) then spin else acquire_record l) /\
  release l = (b ← release_look l; release_check l b;; release_clear l;; release_store l) /\
  (forall i j, inside (at_ s i) = true -> inside (at_ s j) = true -> i = j) /\
  forall i, (i < n)%nat ->
    (exists p c', p <> Panicked /\ code l (at_ s i) (on i s) = Ret p c' /\ step l s (moved i p tt c' s)) /\
    (exists c', holding l (on i s) = Ret (owner (at_ s i)) c') /\
    ifs s i = match at_ s i with Outside => ie i | _ => false end.
Proof.
  intros H0 Hs. assert (HI : inv l n ie pr s).
  { eapply (star_invariant _ (inv l n ie pr)); [apply step_inv | exact Hs | by apply starts_inv]. }
  split; [apply acquire_pieces|]. split; [apply release_pieces|].
  pose proof HI as (Hn & _ & Hc & (Hp & Hf & Hm & Hl & Ho)). split; [done|]. intros i Hi. split_and!.
  - destruct (code_runs l n ie pr s i HI Hi) as (p & c' & E & HI'). exists p, c'. split_and!; [|done | apply st_ret; [by rewrite Hn | done]].
    destruct HI' as (_ & _ & _ & (Hp' & _)). specialize (Hp' i). cbn [moved at_] in Hp'. by rewrite goto_same in Hp'.
  - destruct (run_holding l i (ie i) (pr i) (on i s) _ (Hc i Hi)) as (c' & E & _). exists c'. rewrite E. f_equal.
    change (locks (on i s)) with (locks (mem s)). destruct (owner (at_ s i)) eqn:Eo.
    + rewrite (Hl i), (bool_decide_eq_true_2 (lcpu _ = _)); [done | by apply Ho |]. by destruct (at_ s i).
    + rewrite (bool_decide_eq_false_2 (lcpu _ = _)); [apply andb_false_r|]. rewrite Ho. congruence.
  - pose proof (Hc i Hi) as (_ & _ & k & _ & _ & _ & Hif). specialize (Hp i). change (hw_if (on i s)) with (ifs s i) in Hif.
    destruct (at_ s i); cbn [depth Z.eqb] in Hif; (done || by destruct Hif).
Qed.

(** Two CPUs: CPU 1 has taken the lock while CPU 0 spins. *)
Definition two_cpus : core :=
  {| hw_apicid := 0; hw_if := true;
     cpus := [{| apicid := 7; ncli := 0; intena := false; cproc := None |}; {| apicid := 9; ncli := 0; intena := false; cproc := Some 3%nat |}];
     locks := fun _ => {| locked := false; lcpu := None |}; procs := []; nextpid := 2; initproc := None |}.
Definition idle : mach pc unit := {| mem := two_cpus; ifs := fun _ => true; at_ := fun _ => Outside; ext := tt |}.

(** A step of CPU [i], as a function. *)
Definition do_step (l : lockid) (i : nat) (s : mach pc unit) : mach pc unit :=
  match code l (at_ s i) (on i s) with Ret p c' => moved i p tt c' s | _ => s end.

Lemma do_steps l n ie pr tr : forall s, inv l n ie pr s -> Forall (fun i => (i < n)%nat) tr ->
  star (step l) s (foldl (fun s i => do_step l i s) s tr).
Proof.
  induction tr as [|i tr IH]; intros s HI HF; cbn [foldl]; [apply star_refl|]. apply Forall_cons in HF as [Hi HF].
  destruct (code_runs l n ie pr s i HI Hi) as (p & c' & E & HI'). unfold do_step at 2. rewrite E.
  eapply star_step; [apply st_ret; [destruct HI as [-> _]; exact Hi | exact E] | by apply IH].
Qed.

Lemma idle_starts : starts L_kmem 2 (fun _ => true) (fun i => if decide (i = 1%nat) then Some 3%nat else None) idle.
Proof. split_and!; try done. intros [|[|i]] Hi; [..|lia]; (split_and!; [done | done |]; eexists; by split_and!). Qed.

Lemma spinlock_mutex_witness :
  let s := foldl (fun s i => do_step L_kmem i s) idle [1; 1; 1; 0; 0; 0; 1]%nat in
  (exists c', holding L_kmem (on 1 s) = Ret true c') /\ (exists c', holding L_kmem (on 0 s) = Ret false c').
Proof.
  intros s. destruct (spinlock_mutex _ _ _ _ idle s idle_starts) as (_ & _ & _ & H).
  - eapply do_steps; [apply starts_inv, idle_starts | repeat constructor].
  - split; [apply (H 1%nat); lia | apply (H 0%nat); lia].
Defined.

End SpinSteps.

(** ** Sleepers and wakers

    On each CPU a process runs, in the kernel, one of two programs: a sleeper does
    [acquire(lk); while (!cond) sleep(ch, lk); release(lk)], a waker does
    [acquire(lk); cond = 1; wakeup(ch); release(lk)].  A step is one lock operation or one
    access to the shared state, of the code of [sleep], [sched], [wakeup] and of the
    scheduler of the CPU, which waits for its process to become runnable. *)

Module SleepSteps.
Import Smp.

Section Pieces.
Context (ch : chan) (lk : lockid).

(** [sleep] up to the acquisition of [ptable.lock]. *)
Definition sleep_begin : M core nat :=
  p ← myproc;
  match p with None => panic "sleep" | Some p => acquire L_ptable;; mret p end.

(** [sched] before and after the [swtch]; the value of [intena] is kept on the stack. *)
Definition sched_down : M core bool := sched_enter;; i ← mycpu; k ← get_cpu i; mret (intena k).
Definition leave_cpu : M core unit := fun c => Sleep ch c (fun c' => Ret tt c').
Definition sched_up (b : bool) : M core unit := j ← mycpu; mod_cpu j (set_intena b).

(** The scheduler: after the [swtch] back to it, in front of the scan of the table, and the
    choice of process [p]. *)
Definition sched_leave (c : nat) : M core unit := mod_cpu c (set_cproc None);; release L_ptable.
Definition sched_enter_scan : M core unit := sti;; acquire L_ptable.
Definition sched_pick (c p : nat) : M core bool :=
  st ← core_get (fun s => pstate (getp s p));
  if bool_decide (st = RUNNABLE) then
    mod_cpu c (set_cproc (Some p));;
    core_mod (updp p (with_state RUNNING));;
    mret true
  else release L_ptable;; mret false.

Lemma sched_pieces : sched ch = (b ← sched_down; leave_cpu;; sched_up b).
Proof. unfold sched, sched_down. rewrite !bind_assoc. do 3 (apply bind_ext; intros ?; rewrite ?bind_assoc). reflexivity. Qed.

Lemma sleep_pieces : lk <> L_ptable -> sleep ch lk =
  (p ← sleep_begin; release lk;; core_mod (updp p (with_chan ch));; core_mod (updp p (with_state SLEEPING));;
   b ← sched_down; leave_cpu;; sched_up b;; core_mod (updp p (with_chan ch_none));; release L_ptable;; acquire lk).
Proof.
  intros Hne. unfold sleep, sleep_begin. rewrite bind_assoc. apply bind_ext. intros [p|]; [|reflexivity].
  rewrite !bool_decide_eq_false_2, !bind_assoc by done. do 4 (apply bind_ext; intros ?; rewrite ?bind_mret).
  rewrite sched_pieces, !bind_assoc. apply bind_ext. intros b. by rewrite !bind_assoc.
Qed.

Lemma wakeup_pieces : wakeup (S := core) ch = (acquire L_ptable;; wakeup1 ch;; release L_ptable).
Proof. reflexivity. Qed.

Inductive pc : Type :=
| S_acquire                        (* acquire(lk) *)
| S_test                           (* while (!cond) *)
| S_enter                          (* sleep: acquire(&ptable.lock) *)
| S_release (p : nat)              (* sleep: release(lk) *)
| S_mark (p : nat)                 (* sleep: p->chan = chan *)
| S_state (p : nat)                (* sleep: p->state = SLEEPING *)
| S_sched (p : nat)                (* sched, up to swtch *)
| S_swtch (p : nat) (b : bool)     (* scheduler: c->proc = 0, release(&ptable.lock) *)
| S_off (p : nat) (b : bool)       (* scheduler: sti, acquire(&ptable.lock) *)
| S_scan (p : nat) (b : bool)      (* scheduler: is p runnable? *)
| S_back (p : nat) (b : bool)      (* sched, after swtch *)
| S_clear (p : nat)                (* sleep: p->chan = 0 *)
| S_ptrel                          (* sleep: release(&ptable.lock) *)
| S_again                          (* sleep: acquire(lk) *)
| S_leave                          (* release(lk) *)
| S_done
| W_acquire                        (* acquire(lk) *)
| W_set                            (* cond = 1 *)
| W_ptable                         (* wakeup: acquire(&ptable.lock) *)
| W_wakeup1                        (* wakeup: wakeup1(chan) *)
| W_ptrel                          (* wakeup: release(&ptable.lock) *)
| W_release                        (* release(lk) *)
| W_done
| Panicked.

(** The piece that CPU [i] runs next; [x] is the condition. *)
Definition code (i : nat) (p : pc) (x : bool) : M core (pc * bool) :=
  match p with
  | S_acquire => acquire lk;; mret (S_test, x)
  | S_test => mret (if x then S_leave else S_enter, x)
  | S_enter => p ← sleep_begin; mret (S_release p, x)
  | S_release p => release lk;; mret (S_mark p, x)
  | S_mark p => core_mod (updp p (with_chan ch));; mret (S_state p, x)
  | S_state p => core_mod (updp p (with_state SLEEPING));; mret (S_sched p, x)
  | S_sched p => b ← sched_down; mret (S_swtch p b, x)
  | S_swtch p b => sched_leave i;; mret (S_off p b, x)
  | S_off p b => sched_enter_scan;; mret (S_scan p b, x)
  | S_scan p b => r ← sched_pick i p; mret (if (r : bool) then S_back p b else S_off p b, x)
  | S_back p b => sched_up b;; mret (S_clear p, x)
  | S_clear p => core_mod (updp p (with_chan ch_none));; mret (S_ptrel, x)
  | S_ptrel => release L_ptable;; mret (S_again, x)
  | S_again => acquire lk;; mret (S_test, x)
  | S_leave => release lk;; mret (S_done, x)
  | W_acquire => acquire lk;; mret (W_set, x)
  | W_set => mret (W_ptable, true)
  | W_ptable => acquire L_ptable;; mret (W_wakeup1, x)
  | W_wakeup1 => wakeup1 ch;; mret (W_ptrel, x)
  | W_ptrel => release L_ptable;; mret (W_release, x)
  | W_release => release lk;; mret (W_done, x)
  | S_done | W_done | Panicked => spin
  end.

Abbreviation state := (mach pc bool).

(** A CPU that finds a lock taken spins: it makes no step. *)
Inductive step : state -> state -> Prop :=
| st_ret s i p x c' : (i < length (cpus (mem s)))%nat ->
    code i (at_ s i) (ext s) (on i s) = Ret (p, x) c' -> step s (moved i p x c' s)
| st_panic s i e c' : (i < length (cpus (mem s)))%nat ->
    code i (at_ s i) (ext s) (on i s) = Panic e c' -> step s (moved i Panicked (ext s) c' s).

(** *** Lock operations beside other CPUs *)

(** Lock [l] is [k] now; the other locks and the processes are as before. *)
Definition lock_set (l : lockid) (k : spinlock) (c c' : core) : Prop :=
  (forall l', locks c' l' = if decide (l' = l) then k else locks c l') /\ procs c' = procs c.

Lemma run_acquire c i d ie o l : cpu_ok c i d ie o -> locked (locks c l) = false ->
  exists c', acquire l c = Ret tt c' /\ cpu_ok c' i (d + 1) ie o /\ kept i c c' /\
    lock_set l {| locked := true; lcpu := Some i |} c c'.
Proof.
  intros Hc Hl. pose proof Hc as (Hd & _). destruct (run_pushcli c i d ie o Hc) as (c1 & E1 & Hc1 & Hk1 & Hs1).
  destruct (SpinSteps.run_holding l i ie o c1 _ Hc1) as (c2 & E2 & Hc2 & Hk2 & Hs2).
  assert (HL : locks c2 = locks c) by (destruct Hs1 as (? & _), Hs2 as (? & _); congruence).
  assert (HP : procs c2 = procs c) by (destruct Hs1 as (_ & ? & _), Hs2 as (_ & ? & _); congruence).
  destruct Hs1 as (HL1 & _). rewrite HL1, Hl in E2.
  unfold acquire. rewrite (bind_ret _ _ _ _ _ E1), (bind_ret _ _ _ _ _ E2). cbn [andb].
  unfold xchg, core_get, lgets. rewrite bind_assoc. erewrite bind_ret by reflexivity. cbn [lget lens_id].
  rewrite bind_assoc. unfold core_mod at 1, lmod. erewrite bind_ret by reflexivity. cbn [lget lset lens_id].
  rewrite HL, Hl, bind_mret.
  erewrite bind_ret; [|apply (run_mycpu _ i (d + 1) ie o); [exact Hc2 | lia]].
  eexists. split; [reflexivity|]. split; [exact Hc2|]. split.
  - etrans; [exact Hk1|]. etrans; [exact Hk2|]. by apply kept_same.
  - cbn [core_mod lmod lset lens_id lget]. split; [|exact HP]. intros l'. cbn [locks set_lock].
    destruct (decide (l' = l)) as [->|]; [by rewrite decide_True | by rewrite HL].
Qed.

Lemma run_release c i d ie o l : cpu_ok c i d ie o -> 0 < d -> locks c l = {| locked := true; lcpu := Some i |} ->
  exists c', release l c = Ret tt c' /\ cpu_ok c' i (d - 1) ie o /\ kept i c c' /\
    lock_set l {| locked := false; lcpu := None |} c c'.
Proof.
  intros Hc Hd Hl. destruct (SpinSteps.run_holding l i ie o c _ Hc) as (c1 & E1 & Hc1 & Hk1 & HL1 & HP1 & _).
  rewrite Hl in E1. cbn [locked lcpu andb] in E1. rewrite (bool_decide_eq_true_2 (Some i = Some i)) in E1 by done.
  unfold release. rewrite (bind_ret _ _ _ _ _ E1). cbn [negb]. unfold core_mod, lmod.
  erewrite bind_ret by reflexivity. erewrite bind_ret by reflexivity. cbn [lget lset lens_id].
  match goal with |- context [popcli ?x] => set (c2 := x) end.
  destruct (run_popcli c2 i d ie o Hc1 Hd) as (c3 & E3 & Hc3 & Hk3 & HL3 & HP3 & _). exists c3. split; [done|]. split; [done|]. split.
  - etrans; [exact Hk1|]. etrans; [|exact Hk3]. by apply kept_same.
  - split; [|rewrite HP3; exact HP1]. intros l'. rewrite HL3. unfold c2. cbn [locks set_lock lcpu].
    destruct (decide (l' = l)) as [->|]; [by rewrite ?decide_True | by rewrite HL1].
Qed.

Lemma run_myproc c i d ie o : cpu_ok c i d ie o ->
  exists c', myproc c = Ret o c' /\ cpu_ok c' i d ie o /\ kept i c c' /\ same_shared c c'.
Proof.
  intros Hc. pose proof Hc as (Hd & _). destruct (run_pushcli c i d ie o Hc) as (c1 & E1 & Hc1 & Hk1 & Hs1).
  destruct (run_popcli c1 i (d + 1) ie o Hc1 ltac:(lia)) as (c2 & E2 & Hc2 & Hk2 & Hs2). exists c2.
  replace (d + 1 - 1) with d in Hc2 by lia. split; [|split; [done|]; split; [by etrans|]].
  - unfold myproc. rewrite (bind_ret _ _ _ _ _ E1), (bind_ret _ _ _ _ _ (run_mycpu _ _ _ _ _ Hc1 ltac:(lia))).
    unfold get_cpu, core_get, lgets. erewrite bind_ret by reflexivity. cbn [lget lens_id]. rewrite (bind_ret _ _ _ _ _ E2).
    destruct Hc1 as (_ & _ & k & Hk & _ & Ho & _). rewrite Hk. cbn. by rewrite Ho.
  - destruct Hs1 as (? & ? & ? & ?), Hs2 as (? & ? & ? & ?). split_and!; congruence.
Qed.

(** *** The other pieces *)

Lemma run_mod_cpu c i d ie o g ie' o' : cpu_ok c i d ie o -> d <> 0 ->
  (forall k, apicid (g k) = apicid k) -> (forall k, ncli (g k) = ncli k) ->
  (forall k, cproc k = o -> cproc (g k) = o') -> (forall k, intena k = ie -> intena (g k) = ie') ->
  exists c', mod_cpu i g c = Ret tt c' /\ cpu_ok c' i d ie' o' /\ kept i c c' /\ same_shared c c'.
Proof.
  intros Hc Hd Ha Hn Ho Hi. pose proof (cpu_ok_if _ _ _ _ _ Hc Hd) as Hif. destruct Hc as (Hd0 & Hf & k & Hk & Hnk & Hok & Hik).
  eexists. split; [reflexivity|]. cbn [lget lset lens_id]. split; [split; [done|]; split | split; [|by split_and!]].
  - cbn [hw_apicid cpus set_cpus]. by apply find_cpu_alter.
  - exists (g k). cbn [cpus hw_if set_cpus]. rewrite list_lookup_alter_eq, Hk, Hn, (proj2 (Z.eqb_neq d 0) Hd) in *. split_and!; auto. by apply Hi, Hik.
  - eapply kept_cpus; [done | exact Ha | done].
Qed.

Lemma run_sleep_begin c i d p : cpu_ok c i d true (Some p) -> locked (locks c L_ptable) = false ->
  exists c', sleep_begin c = Ret p c' /\ cpu_ok c' i (d + 1) true (Some p) /\ kept i c c' /\
    lock_set L_ptable {| locked := true; lcpu := Some i |} c c'.
Proof.
  intros Hc Hl. destruct (run_myproc c i d true (Some p) Hc) as (c1 & E1 & Hc1 & Hk1 & HL1 & HP1 & _).
  destruct (run_acquire c1 i d true (Some p) L_ptable Hc1) as (c2 & E2 & Hc2 & Hk2 & HL2 & HP2); [by rewrite HL1|]. exists c2.
  unfold sleep_begin. rewrite (bind_ret _ _ _ _ _ E1), (bind_ret _ _ _ _ _ E2). split; [done|]. split; [done|]. split; [by etrans|].
  split; [intros l'; by rewrite HL2, HL1 | congruence].
Qed.

Lemma run_sched_down c i p : cpu_ok c i 1 true (Some p) -> locks c L_ptable = {| locked := true; lcpu := Some i |} ->
  pstate (getp c p) <> RUNNING ->
  exists c', sched_down c = Ret true c' /\ cpu_ok c' i 1 true (Some p) /\ kept i c c' /\ same_shared c c'.
Proof.
  intros Hc Hl Hst. destruct (run_myproc c i 1 true (Some p) Hc) as (c1 & E1 & Hc1 & Hk1 & Hs1).
  destruct (SpinSteps.run_holding L_ptable i true (Some p) c1 _ Hc1) as (c2 & E2 & Hc2 & Hk2 & Hs2).
  pose proof Hs1 as (HL1 & HP1 & _). rewrite HL1, Hl in E2. cbn [locked lcpu andb] in E2.
  rewrite (bool_decide_eq_true_2 (Some i = Some i)) in E2 by done.
  assert (Hs : same_shared c c2) by (destruct Hs1 as (? & ? & ? & ?), Hs2 as (? & ? & ? & ?); split_and!; congruence).
  assert (Hg : pstate (getp c2 p) <> RUNNING) by (unfold getp in *; destruct Hs as (_ & -> & _); done).
  pose proof (run_mycpu _ _ _ _ _ Hc2 ltac:(lia)) as Em. pose proof (cpu_ok_if _ _ _ _ _ Hc2 ltac:(lia)) as Hif.
  exists c2. split; [|split; [done|]; split; [by etrans | exact Hs]].
  destruct Hc2 as (_ & _ & k & Hk & Hn & _ & _ & Hi).
  unfold sched_down, sched_enter. rewrite bind_assoc, (bind_ret _ _ _ _ _ E1), bind_assoc, (bind_ret _ _ _ _ _ E2).
  cbn [negb]. cbv iota. rewrite bind_assoc, (bind_ret _ _ _ _ _ Em). unfold get_cpu, readeflags_if, core_get, lgets.
  rewrite bind_assoc. erewrite bind_ret by reflexivity. cbn [lget lens_id]. rewrite Hk. cbn [default from_option id]. rewrite Hn.
  change (1 =? 1) with true. cbn [negb]. cbv iota. rewrite bind_assoc. erewrite bind_ret by reflexivity. cbn [lget lens_id default from_option id].
  rewrite bool_decide_eq_false_2 by done. cbv iota. rewrite bind_assoc. erewrite bind_ret by reflexivity. cbn [lget lens_id]. rewrite Hif. cbv iota.
  rewrite bind_mret, (bind_ret _ _ _ _ _ Em). erewrite bind_ret by reflexivity. cbn [lget lens_id]. rewrite Hk. cbn. by rewrite Hi.
Qed.

Lemma run_sched_up c i ie o b : cpu_ok c i 1 ie o ->
  exists c', sched_up b c = Ret tt c' /\ cpu_ok c' i 1 b o /\ kept i c c' /\ same_shared c c'.
Proof.
  intros Hc. unfold sched_up. rewrite (bind_ret _ _ _ _ _ (run_mycpu _ _ _ _ _ Hc ltac:(lia))). by apply (run_mod_cpu c i 1 ie o).
Qed.

Lemma run_sched_leave c i ie o : cpu_ok c i 1 ie o -> locks c L_ptable = {| locked := true; lcpu := Some i |} ->
  exists c', sched_leave i c = Ret tt c' /\ cpu_ok c' i 0 ie None /\ kept i c c' /\
    lock_set L_ptable {| locked := false; lcpu := None |} c c'.
Proof.
  intros Hc Hl. destruct (run_mod_cpu c i 1 ie o (set_cproc None) ie None) as (c1 & E1 & Hc1 & Hk1 & HL1 & HP1 & _); try done.
  destruct (run_release c1 i 1 ie None L_ptable Hc1) as (c2 & E2 & Hc2 & Hk2 & HL2 & HP2); [lia | by rewrite HL1|]. exists c2.
  unfold sched_leave. rewrite (bind_ret _ _ _ _ _ E1). split; [done|]. split; [done|]. split; [by etrans|].
  split; [intros l'; by rewrite HL2, HL1 | congruence].
Qed.

Lemma run_sched_enter_scan c i ie o : cpu_ok c i 0 ie o -> locked (locks c L_ptable) = false ->
  exists c', sched_enter_scan c = Ret tt c' /\ cpu_ok c' i 1 true o /\ kept i c c' /\
    lock_set L_ptable {| locked := true; lcpu := Some i |} c c'.
Proof.
  intros Hc Hl. unfold sched_enter_scan, sti, core_mod, lmod. erewrite bind_ret by reflexivity. cbn [lget lset lens_id].
  destruct (run_acquire (set_hw_if true c) i 0 true o L_ptable) as (c2 & E2 & Hc2 & Hk2 & HL2 & HP2); [|done|].
  - destruct Hc as (H1 & H2 & k & H3 & H4 & H5 & _). split_and!; [done | done |]. by exists k.
  - exists c2. split; [done|]. split; [done|]. split; [|by split]. etrans; [|exact Hk2]. by apply kept_same.
Qed.

Lemma run_acquire_busy c i d ie o l : cpu_ok c i d ie o -> locked (locks c l) = true -> lcpu (locks c l) <> Some i ->
  exists c', acquire l c = Spin c'.
Proof.
  intros Hc Hl Hne. pose proof Hc as (Hd & _). destruct (run_pushcli c i d ie o Hc) as (c1 & E1 & Hc1 & _ & HL1 & _).
  destruct (SpinSteps.run_holding l i ie o c1 _ Hc1) as (c2 & E2 & _ & _ & HL2 & _).
  rewrite HL1, Hl in E2. cbn [andb] in E2. rewrite bool_decide_eq_false_2 in E2 by done.
  unfold acquire. rewrite (bind_ret _ _ _ _ _ E1), (bind_ret _ _ _ _ _ E2).
  unfold xchg, core_get, lgets. rewrite bind_assoc. erewrite bind_ret by reflexivity. cbn [lget lens_id].
  rewrite bind_assoc. unfold core_mod at 1, lmod. erewrite bind_ret by reflexivity. cbn [lget lset lens_id].
  rewrite HL2, HL1, Hl, bind_mret. eauto.
Qed.

Lemma run_sleep_begin_busy c i d p : cpu_ok c i d true (Some p) -> locked (locks c L_ptable) = true ->
  lcpu (locks c L_ptable) <> Some i -> exists c', sleep_begin c = Spin c'.
Proof.
  intros Hc Hl Hne. destruct (run_myproc c i d true (Some p) Hc) as (c1 & E1 & Hc1 & _ & HL1 & _).
  rewrite <- HL1 in Hl, Hne. destruct (run_acquire_busy c1 i d true (Some p) L_ptable Hc1 Hl Hne) as (c2 & E2). exists c2.
  unfold sleep_begin. rewrite (bind_ret _ _ _ _ _ E1). by apply bind_spin.
Qed.

Lemma run_sched_enter_scan_busy c i ie o : cpu_ok c i 0 ie o -> locked (locks c L_ptable) = true ->
  lcpu (locks c L_ptable) <> Some i -> exists c', sched_enter_scan c = Spin c'.
Proof.
  intros Hc Hl Hne. unfold sched_enter_scan, sti, core_mod, lmod. erewrite bind_ret by reflexivity. cbn [lget lset lens_id].
  apply (run_acquire_busy (set_hw_if true c) i 0 true o); [|done | done].
  destruct Hc as (H1 & H2 & k & H3 & H4 & H5 & _). split_and!; [done | done |]. by exists k.
Qed.

Lemma run_updp c i d ie o p g : cpu_ok c i d ie o ->
  exists c', core_mod (updp p g) c = Ret tt c' /\ cpu_ok c' i d ie o /\ kept i c c' /\ locks c' = locks c /\ procs c' = alter g p (procs c).
Proof. intros Hc. eexists. split; [reflexivity|]. cbn [lget lset lens_id]. split; [done|]. split; [by apply kept_same | done]. Qed.

Lemma run_sched_pick c i ie p q : cpu_ok c i 1 ie None -> locks c L_ptable = {| locked := true; lcpu := Some i |} -> procs c !! p = Some q ->
  if bool_decide (pstate q = RUNNABLE)
  then exists c', sched_pick i p c = Ret true c' /\ cpu_ok c' i 1 ie (Some p) /\ kept i c c' /\ locks c' = locks c /\
    procs c' = alter (with_state RUNNING) p (procs c)
  else exists c', sched_pick i p c = Ret false c' /\ cpu_ok c' i 0 ie None /\ kept i c c' /\
    lock_set L_ptable {| locked := false; lcpu := None |} c c'.
Proof.
  intros Hc Hl Hq. assert (Hg : getp c p = q) by (unfold getp; by rewrite Hq).
  assert (E : forall f : bool -> M core bool, (st ← core_get (fun s => pstate (getp s p)); f (bool_decide (st = RUNNABLE))) c = f (bool_decide (pstate q = RUNNABLE)) c).
  { intros f. unfold core_get, lgets. erewrite bind_ret by reflexivity. cbn [lget lens_id]. by rewrite Hg. }
  unfold sched_pick. rewrite (E (fun b => if b then _ else _)). destruct (bool_decide (pstate q = RUNNABLE)).
  - destruct (run_mod_cpu c i 1 ie None (set_cproc (Some p)) ie (Some p)) as (c1 & E1 & Hc1 & Hk1 & HL1 & HP1 & _); try done.
    destruct (run_updp c1 i 1 ie (Some p) p (with_state RUNNING) Hc1) as (c2 & E2 & Hc2 & Hk2 & HL2 & HP2). exists c2.
    rewrite (bind_ret _ _ _ _ _ E1), (bind_ret _ _ _ _ _ E2). split; [done|]. split; [done|]. split; [by etrans|]. split; congruence.
  - destruct (run_release c i 1 ie None L_ptable Hc) as (c1 & E1 & Hc1 & Hk1 & HL1 & HP1); [lia | done|]. exists c1.
    rewrite (bind_ret _ _ _ _ _ E1). by split_and!.
Qed.

(** *** What holds at each point *)

Definition depth (p : pc) : Z :=
  match p with
  | S_acquire | S_again | S_off _ _ | S_done | W_acquire | W_done | Panicked => 0
  | S_release _ | W_wakeup1 | W_ptrel => 2
  | _ => 1
  end.
Definition runs_proc (i : nat) (p : pc) : option nat := match p with S_off _ _ | S_scan _ _ => None | _ => Some i end.
Definition has_lk (p : pc) : bool :=
  match p with
  | S_test | S_enter | S_release _ | S_leave | W_set | W_ptable | W_wakeup1 | W_ptrel | W_release => true
  | _ => false
  end.
Definition has_pt (p : pc) : bool :=
  match p with
  | S_release _ | S_mark _ | S_state _ | S_sched _ | S_swtch _ _ | S_scan _ _ | S_back _ _ | S_clear _ | S_ptrel
  | W_wakeup1 | W_ptrel => true
  | _ => false
  end.
Definition args_ok (i : nat) (p : pc) : Prop :=
  match p with
  | S_release q | S_mark q | S_state q | S_sched q | S_clear q => q = i
  | S_swtch q b | S_off q b | S_scan q b | S_back q b => q = i /\ b = true
  | Panicked => False
  | _ => True
  end.
Definition proc_ok (p : pc) (q : proc) : Prop :=
  match p with
  | S_state _ => pstate q = RUNNING /\ pchan q = ch
  | S_sched _ | S_swtch _ _ => pstate q = SLEEPING /\ pchan q = ch
  | S_off _ _ | S_scan _ _ => (pstate q = SLEEPING /\ pchan q = ch) \/ pstate q = RUNNABLE
  | _ => pstate q = RUNNING
  end.
(** A waker has set the condition; has called [wakeup1].  A sleeper has found the condition
    false and is not yet off the CPU; is off the CPU. *)
Definition has_set (p : pc) : bool := match p with W_ptable | W_wakeup1 | W_ptrel | W_release | W_done => true | _ => false end.
Definition woke (p : pc) : bool := match p with W_ptrel | W_release | W_done => true | _ => false end.
Definition dozing (p : pc) : bool :=
  match p with S_enter | S_release _ | S_mark _ | S_state _ | S_sched _ | S_swtch _ _ => true | _ => false end.
Definition off (p : pc) : bool := match p with S_off _ _ | S_scan _ _ => true | _ => false end.
Definition ready (c : core) (i : nat) : Prop := exists q, procs c !! i = Some q /\ pstate q = RUNNABLE.

Definition lock_ok (has : pc -> bool) (k : spinlock) (f : nat -> pc) : Prop :=
  exists o, (forall i, has (f i) = true <-> o = Some i) /\
    match o with Some i => k = {| locked := true; lcpu := Some i |} | None => locked k = false end.

Lemma lock_ok_keep has k f i q : lock_ok has k f -> has q = has (f i) -> lock_ok has k (goto i q f).
Proof.
  intros (o & Ho & Hk) Hq. exists o. split; [|done]. intros j. unfold goto. case_decide; [subst; rewrite Hq|]; apply Ho.
Qed.
Lemma lock_ok_take has k k' f i q : lock_ok has k f -> locked k = false -> k' = {| locked := true; lcpu := Some i |} ->
  has q = true -> lock_ok has k' (goto i q f).
Proof.
  intros (o & Ho & Hk) Hl -> Hq. exists (Some i). split; [|done]. destruct o as [h|]; [subst k; done|].
  intros j. unfold goto. case_decide; [subst; by split|]. rewrite Ho. split; congruence.
Qed.
Lemma lock_ok_drop has k k' f i q : lock_ok has k f -> has (f i) = true -> locked k' = false -> has q = false ->
  lock_ok has k' (goto i q f).
Proof.
  intros (o & Ho & Hk) Hi Hl Hq. exists None. split; [|done]. apply Ho in Hi as ->.
  intros j. unfold goto. case_decide; [subst; split; congruence|]. rewrite Ho. split; congruence.
Qed.
Lemma lock_ok_held has k f i : lock_ok has k f -> has (f i) = true -> k = {| locked := true; lcpu := Some i |}.
Proof. intros (o & Ho & Hk) Hi. apply Ho in Hi as ->. done. Qed.
Lemma lock_ok_other has k f i : lock_ok has k f -> has (f i) = false -> locked k = true -> lcpu k <> Some i /\ exists h, has (f h) = true.
Proof.
  intros (o & Ho & Hk) Hi Hl. destruct o as [h|]; [|congruence]. subst k. split; [|exists h; by apply Ho].
  cbn. intros [= ->]. rewrite (proj2 (Ho i) eq_refl) in Hi. done.
Qed.
Lemma lock_ok_one has k f i j : lock_ok has k f -> has (f i) = true -> has (f j) = true -> i = j.
Proof. intros (o & Ho & _) Hi Hj. apply Ho in Hi, Hj. congruence. Qed.

Section Inv.
Context (n : nat) (Hlk : lk <> L_ptable).

Definition cpu_inv (s : state) (i : nat) : Prop :=
  cpu_ok (on i s) i (depth (at_ s i)) true (runs_proc i (at_ s i)) /\ args_ok i (at_ s i) /\
  exists q, procs (mem s) !! i = Some q /\ proc_ok (at_ s i) q.

Definition inv (s : state) : Prop :=
  length (cpus (mem s)) = n /\ (forall i, (n <= i)%nat -> at_ s i = S_done) /\
  (forall i, (i < n)%nat -> cpu_inv s i) /\
  lock_ok has_lk (locks (mem s) lk) (at_ s) /\ lock_ok has_pt (locks (mem s) L_ptable) (at_ s) /\
  (forall j, has_set (at_ s j) = true -> ext s = true) /\
  (forall j, woke (at_ s j) = true -> forall i, (i < n)%nat -> dozing (at_ s i) = false /\ (off (at_ s i) = true -> ready (mem s) i)).

(** The own effects of a piece of CPU [i] that is not [wakeup1]. *)
Record moves (s : state) (i : nat) (p : pc) (x : bool) (c' : core) : Prop := {
  mv_kept : kept i (on i s) c';
  mv_cpu : cpu_ok c' i (depth p) true (runs_proc i p);
  mv_args : args_ok i p;
  mv_proc : exists q, procs c' !! i = Some q /\ proc_ok p q;
  mv_others : forall j, j <> i -> procs c' !! j = procs (mem s) !! j;
  mv_lk : lock_ok has_lk (locks c' lk) (goto i p (at_ s));
  mv_pt : lock_ok has_pt (locks c' L_ptable) (goto i p (at_ s));
  mv_ext : (x = ext s \/ x = true) /\ (has_set p = true -> x = true);
  mv_woke : woke p = woke (at_ s i);
  mv_doze : dozing p = true -> dozing (at_ s i) = true \/ ext s = false;
  mv_off : off p = true -> dozing (at_ s i) = true \/ (off (at_ s i) = true /\ procs c' !! i = procs (mem s) !! i)
}.

Lemma sleep_inv_moved s i p x c' : inv s -> (i < n)%nat -> moves s i p x c' -> inv (moved i p x c' s).
Proof.
  intros (Hn & Hge & Hc & H1 & H2 & Hset & Hw) Hi [Hk Hcpu Ha Hpr Ho Hl Hp [Hx Hx2] Hwk Hd Hf]. split_and!; cbn [moved mem at_ ext].
  - rewrite (kept_length _ _ _ Hk). exact Hn.
  - intros j Hj. rewrite goto_other by lia. by apply Hge.
  - intros j Hj. unfold cpu_inv. destruct (decide (j = i)) as [->|Hne].
    + rewrite on_self by done. cbn [moved at_ mem]. rewrite goto_same. by split_and!.
    + cbn [moved at_ mem]. rewrite goto_other, Ho by done. destruct (Hc j Hj) as (H3 & H4 & H5). split_and!; [by apply on_other | done | done].
  - done.
  - done.
  - intros j Hj. destruct (decide (j = i)) as [->|Hne]; [rewrite goto_same in Hj; auto|].
    rewrite goto_other in Hj by done. destruct Hx as [->| ->]; [by eapply Hset | done].
  - intros j Hj. assert (Hj0 : woke (at_ s j) = true).
    { destruct (decide (j = i)) as [->|Hne]; [rewrite goto_same in Hj; congruence | by rewrite goto_other in Hj]. }
    assert (Hs : ext s = true) by (apply (Hset j); by destruct (at_ s j)).
    intros k Hk'. destruct (Hw j Hj0 k Hk') as [H3 H4]. destruct (decide (k = i)) as [->|Hne].
    + rewrite goto_same. split.
      * destruct (dozing p) eqn:E; [|done]. destruct (Hd eq_refl); congruence.
      * intros Hof. destruct (Hf Hof) as [?|[H5 H6]]; [congruence|]. destruct (H4 H5) as (q & Hq & Hr). exists q. by rewrite H6.
    + rewrite goto_other by done. split; [done|]. intros H5. destruct (H4 H5) as (q & Hq & Hr). exists q. by rewrite Ho.
Qed.

(** The lock that a CPU waits for. *)
Definition wants (p : pc) : option lockid :=
  match p with
  | S_acquire | S_again | W_acquire => Some lk
  | S_enter | S_off _ _ | W_ptable => Some L_ptable
  | _ => None
  end.
Definition finished (p : pc) : bool := match p with S_done | W_done => true | _ => false end.

(** How far a CPU is from its end. *)
Definition rank (p : pc) : nat :=
  match p with
  | S_acquire => 16 | S_enter => 15 | S_release _ => 14 | S_mark _ => 13 | S_state _ => 12 | S_sched _ => 11 | S_swtch _ _ => 10
  | S_off _ _ => 9 | S_scan _ _ => 8 | S_back _ _ => 7 | S_clear _ => 6 | S_ptrel => 5 | S_again => 4 | S_test => 3 | S_leave => 2
  | W_acquire => 7 | W_set => 6 | W_ptable => 5 | W_wakeup1 => 4 | W_ptrel => 3 | W_release => 2
  | S_done | W_done | Panicked => 0
  end.

(** CPU [i] goes on to [p], nearer to its end unless it is a sleeper that has to wait. *)
Definition goes (s : state) (i : nat) : Prop :=
  exists p x c', code i (at_ s i) (ext s) (on i s) = Ret (p, x) c' /\ inv (moved i p x c' s) /\
    ((rank p < rank (at_ s i))%nat \/ (at_ s i = S_test /\ ext s = false) \/ (off (at_ s i) = true /\ ~ ready (mem s) i)).
Definition blocked (s : state) (i : nat) : Prop :=
  exists l c', wants (at_ s i) = Some l /\ locked (locks (mem s) l) = true /\ code i (at_ s i) (ext s) (on i s) = Spin c'.

Lemma goes_moves s i p x c' : inv s -> (i < n)%nat -> code i (at_ s i) (ext s) (on i s) = Ret (p, x) c' -> moves s i p x c' ->
  (rank p < rank (at_ s i))%nat \/ (at_ s i = S_test /\ ext s = false) \/ (off (at_ s i) = true /\ ~ ready (mem s) i) -> goes s i.
Proof. intros HI Hi E Hm Hr. exists p, x, c'. split; [done|]. split; [by apply sleep_inv_moved | done]. Qed.

(** A CPU that waits for a lock takes it, or spins. *)
Lemma lock_free_or_busy s i l : inv s -> (i < n)%nat -> wants (at_ s i) = Some l ->
  locked (locks (on i s) l) = false \/
  (locked (locks (mem s) l) = true /\ lcpu (locks (on i s) l) <> Some i).
Proof.
  intros (_ & _ & _ & Hll & Hlp & _) Hi Hw. change (locks (on i s)) with (locks (mem s)).
  destruct (locked (locks (mem s) l)) eqn:El; [right; split; [done|] | by left].
  destruct (at_ s i) eqn:Ea; cbn in Hw; try done; injection Hw as <-;
    (eapply lock_ok_other; [first [exact Hll | exact Hlp] | by rewrite Ea | done]).
Qed.

Ltac lock_field Ea :=
  first [ by eapply lock_ok_keep; [eassumption | rewrite Ea; reflexivity]
        | by eapply lock_ok_take; [eassumption | eassumption | reflexivity | reflexivity]
        | by eapply lock_ok_drop; [eassumption | rewrite Ea; reflexivity | reflexivity | reflexivity] ].
(** The piece has run, with [E]; the locks and processes are given by [HL] and [HP]. *)
Ltac went E HL HP Ea :=
  eapply goes_moves; [done | done | rewrite Ea; cbn [code]; first [exact E | by rewrite (bind_ret _ _ _ _ _ E)] | | rewrite Ea; cbn [rank off]; first [left; lia | auto]];
  constructor; rewrite ?Ea; cbn [depth runs_proc args_ok proc_ok has_set woke dozing off]; try done; auto;
  match goal with
  | Hq : procs (mem _) !! _ = Some _ |- exists _, procs _ !! _ = _ /\ _ =>
      eexists; split; [rewrite ?HP; first [eassumption | rewrite list_lookup_alter_eq; by setoid_rewrite Hq] | cbn [pstate pchan with_state with_chan]; intuition]
  | |- forall j, j <> _ -> _ => intros ??; rewrite ?HP; first [done | by rewrite list_lookup_alter_ne]
  | |- lock_ok _ _ _ => try rewrite HL; rewrite ?decide_True, ?decide_False by done; lock_field Ea
  | Hset : has_set _ = true -> _ |- (_ \/ _) /\ _ => split; [first [by left | by right] | first [done | auto]]
  | _ => idtac
  end.
Ltac at_point s i HI Hi Ea Hcpu Hq Hst :=
  let Hc := fresh in let Hll := fresh "Hll" in let Hlp := fresh "Hlp" in let Ha := fresh "Ha" in let Hset := fresh "Hset" in
  pose proof HI as (_ & _ & Hc & Hll & Hlp & Hset & _); specialize (Hset i); rewrite Ea in Hset; destruct (Hc i Hi) as (Hcpu & Ha & ? & Hq & Hst); clear Hc;
  change (locks (mem s)) with (locks (on i s)) in Hll, Hlp; rewrite Ea in Hcpu, Ha, Hst;
  cbn [depth runs_proc args_ok proc_ok] in Hcpu, Ha, Hst;
  try match type of Ha with _ /\ _ => destruct Ha end; subst.

Lemma goes_acquire s i l : inv s -> (i < n)%nat -> wants (at_ s i) = Some l -> locked (locks (on i s) l) = false -> goes s i.
Proof.
  intros HI Hi Hw El. destruct (at_ s i) as [| | | | | | | |p b| | | | | | | | | | | | | | |] eqn:Ea; try done; injection Hw as <-; at_point s i HI Hi Ea Hcpu Hq Hst.
  - destruct (run_acquire _ i _ _ _ lk Hcpu El) as (c' & E & Hc' & Hk & HL & HP). went E HL HP Ea.
  - destruct (run_sleep_begin _ i _ _ Hcpu El) as (c' & E & Hc' & Hk & HL & HP). went E HL HP Ea.
  - destruct (run_sched_enter_scan _ i _ _ Hcpu El) as (c' & E & Hc' & Hk & HL & HP). went E HL HP Ea.
    right. split; [done|]. by rewrite HP.
  - destruct (run_acquire _ i _ _ _ lk Hcpu El) as (c' & E & Hc' & Hk & HL & HP). went E HL HP Ea.
  - destruct (run_acquire _ i _ _ _ lk Hcpu El) as (c' & E & Hc' & Hk & HL & HP). went E HL HP Ea.
  - destruct (run_acquire _ i _ _ _ L_ptable Hcpu El) as (c' & E & Hc' & Hk & HL & HP). went E HL HP Ea.
Qed.

Lemma blocked_acquire s i l : inv s -> (i < n)%nat -> wants (at_ s i) = Some l ->
  locked (locks (mem s) l) = true -> lcpu (locks (on i s) l) <> Some i -> blocked s i.
Proof.
  intros HI Hi Hw El Hne. exists l. rewrite Hw, El. change (locks (mem s)) with (locks (on i s)) in El.
  destruct (at_ s i) as [| | | | | | | |p b| | | | | | | | | | | | | | |] eqn:Ea; try done; injection Hw as <-; at_point s i HI Hi Ea Hcpu Hq Hst; cbn [code].
  1, 4, 5, 6: destruct (run_acquire_busy _ i _ _ _ _ Hcpu El Hne) as (c' & E).
  5: destruct (run_sleep_begin_busy _ i _ _ Hcpu El Hne) as (c' & E).
  6: destruct (run_sched_enter_scan_busy _ i _ _ Hcpu El Hne) as (c' & E).
  all: exists c'; split_and!; [done | done | by apply bind_spin].
Qed.

Lemma goes_release s i : inv s -> (i < n)%nat ->
  match at_ s i with S_release _ | S_ptrel | S_leave | W_ptrel | W_release => True | _ => False end -> goes s i.
Proof.
  intros HI Hi Hw. destruct (at_ s i) as [| | |p| | | | | | | | | | | | | | | | | | | |] eqn:Ea; try done; at_point s i HI Hi Ea Hcpu Hq Hst.
  1, 3, 5: assert (El : locks (on i s) lk = {| locked := true; lcpu := Some i |}) by (eapply lock_ok_held; [exact Hll | by rewrite Ea]);
    destruct (run_release _ i _ _ _ lk Hcpu ltac:(lia) El) as (c' & E & Hc' & Hk & HL & HP); went E HL HP Ea.
  all: assert (El : locks (on i s) L_ptable = {| locked := true; lcpu := Some i |}) by (eapply lock_ok_held; [exact Hlp | by rewrite Ea]);
    destruct (run_release _ i _ _ _ L_ptable Hcpu ltac:(lia) El) as (c' & E & Hc' & Hk & HL & HP); went E HL HP Ea.
Qed.

Lemma goes_local s i : inv s -> (i < n)%nat ->
  match at_ s i with S_test | S_mark _ | S_state _ | S_clear _ | W_set => True | _ => False end -> goes s i.
Proof.
  intros HI Hi Hw. destruct (at_ s i) as [| | | |p|p| | | | | |p| | | | | | | | | | | |] eqn:Ea; try done; at_point s i HI Hi Ea Hcpu Hq Hst.
  - assert (E : code i S_test (ext s) (on i s) = Ret (if ext s then S_leave else S_enter, ext s) (on i s)) by done.
    pose proof (eq_refl (locks (on i s))) as HL. pose proof (eq_refl (procs (on i s))) as HP. destruct (ext s) eqn:Ex; rewrite <- Ex in E; went E HL HP Ea.
  - destruct (run_updp _ i _ _ _ i (with_chan ch) Hcpu) as (c' & E & Hc' & Hk & HL & HP). went E HL HP Ea.
  - destruct (run_updp _ i _ _ _ i (with_state SLEEPING) Hcpu) as (c' & E & Hc' & Hk & HL & HP). went E HL HP Ea.
  - destruct (run_updp _ i _ _ _ i (with_chan ch_none) Hcpu) as (c' & E & Hc' & Hk & HL & HP). went E HL HP Ea.
  - assert (E : code i W_set (ext s) (on i s) = Ret (W_ptable, true) (on i s)) by done.
    pose proof (eq_refl (locks (on i s))) as HL. pose proof (eq_refl (procs (on i s))) as HP. went E HL HP Ea.
Qed.

Lemma goes_sched s i : inv s -> (i < n)%nat ->
  match at_ s i with S_sched _ | S_swtch _ _ | S_scan _ _ | S_back _ _ => True | _ => False end -> goes s i.
Proof.
  intros HI Hi Hw. destruct (at_ s i) as [| | | | | |p|p b| |p b|p b| | | | | | | | | | | | |] eqn:Ea; try done; at_point s i HI Hi Ea Hcpu Hq Hst;
    assert (El : locks (on i s) L_ptable = {| locked := true; lcpu := Some i |}) by (eapply lock_ok_held; [exact Hlp | by rewrite Ea]).
  - assert (Hg : pstate (getp (on i s) i) <> RUNNING) by (unfold getp; setoid_rewrite Hq; cbn; destruct Hst; congruence).
    destruct (run_sched_down _ i _ Hcpu El Hg) as (c' & E & Hc' & Hk & HL & HP & _). went E HL HP Ea.
  - destruct (run_sched_leave _ i _ _ Hcpu El) as (c' & E & Hc' & Hk & HL & HP). went E HL HP Ea.
  - pose proof (run_sched_pick _ i _ i _ Hcpu El Hq) as HR. case_bool_decide as Hr.
    + destruct HR as (c' & E & Hc' & Hk & HL & HP). went E HL HP Ea.
    + destruct HR as (c' & E & Hc' & Hk & HL & HP). assert (Hnr : ~ ready (mem s) i) by (intros (q & Hq' & ?); congruence).
      went E HL HP Ea. right. split; [done|]. by rewrite HP.
  - destruct (run_sched_up _ i _ _ true Hcpu) as (c' & E & Hc' & Hk & HL & HP & _). went E HL HP Ea.
Qed.

(** [wakeup1] runs with both locks held: no sleeper is between its test and the end of [sched]. *)
Lemma none_dozing s i j : inv s -> at_ s i = W_wakeup1 -> dozing (at_ s j) = false.
Proof.
  intros (_ & _ & _ & Hll & Hlp & _) Ea. destruct (dozing (at_ s j)) eqn:E; [|done].
  assert (Hij : i = j); [|subst; by rewrite Ea in E].
  destruct (has_lk (at_ s j)) eqn:E1; [eapply (lock_ok_one _ _ _ i j Hll); by rewrite ?Ea|].
  eapply (lock_ok_one _ _ _ i j Hlp); [by rewrite Ea|]. by destruct (at_ s j).
Qed.

Lemma woken p q : dozing p = false -> proc_ok p q ->
  proc_ok p (wake_proc ch q) /\ (off p = true -> pstate (wake_proc ch q) = RUNNABLE).
Proof.
  intros Hd Hq. unfold wake_proc. destruct p; try done; cbn in *; rewrite ?Hq; try done.
  all: destruct Hq as [[-> ->]|Hq]; [by rewrite !bool_decide_eq_true_2 by done; auto | rewrite Hq; cbn; auto].
Qed.

Lemma goes_wakeup1 s i : inv s -> (i < n)%nat -> at_ s i = W_wakeup1 -> goes s i.
Proof.
  intros HI Hi Ea. pose proof (fun j => none_dozing s i j HI Ea) as Hd. pose proof HI as (Hn & Hge & Hc & Hll & Hlp & Hset & _).
  set (c' := set_procs (wake_proc ch <$> procs (on i s)) (on i s)). assert (Hk : kept i (on i s) c') by by apply kept_same.
  exists W_ptrel, (ext s), c'. rewrite Ea. split; [done|]. split; [|left; cbn; lia]. split_and!; cbn [moved mem at_ ext].
  - exact Hn.
  - intros j Hj. rewrite goto_other by lia. by apply Hge.
  - intros j Hj. destruct (Hc j Hj) as (H1 & H2 & q & Hq & H3). unfold cpu_inv. cbn [moved at_ mem].
    assert (Hq' : procs c' !! j = Some (wake_proc ch q)) by (cbn; rewrite list_lookup_fmap; by setoid_rewrite Hq).
    destruct (woken _ q (Hd j) H3) as [H4 _]. destruct (decide (j = i)) as [->|Hne].
    + rewrite on_self, goto_same by done. rewrite Ea in H1, H4. split_and!; [exact H1 | done | eauto].
    + rewrite goto_other by done. split_and!; [by apply on_other | done | eauto].
  - eapply lock_ok_keep; [exact Hll | by rewrite Ea].
  - eapply lock_ok_keep; [exact Hlp | by rewrite Ea].
  - intros j Hj. apply (Hset i). by rewrite Ea.
  - intros j _ k Hkn. destruct (decide (k = i)) as [->|Hne]; [by rewrite goto_same|]. rewrite goto_other by done. split; [apply Hd|]. intros Ho.
    destruct (Hc k Hkn) as (_ & _ & q & Hq & H3). exists (wake_proc ch q). split; [cbn; rewrite list_lookup_fmap; by setoid_rewrite Hq|].
    by apply (woken _ q (Hd k) H3).
Qed.

(** Every CPU that has not finished makes a step without a panic, or waits for a lock that is
    taken. *)
Lemma code_goes s i : inv s -> (i < n)%nat -> finished (at_ s i) = false -> goes s i \/ blocked s i.
Proof.
  intros HI Hi Hf. destruct (wants (at_ s i)) as [l|] eqn:Ew.
  - destruct (lock_free_or_busy s i l HI Hi Ew) as [El|[El Hne]]; [left; by eapply goes_acquire | right; by eapply blocked_acquire].
  - left. pose proof (goes_release s i HI Hi). pose proof (goes_local s i HI Hi). pose proof (goes_sched s i HI Hi). pose proof (goes_wakeup1 s i HI Hi).
    pose proof HI as (_ & _ & Hc & _). destruct (Hc i Hi) as (_ & Ha & _). destruct (at_ s i); try done; auto.
Qed.

Lemma step_goes s s' : inv s -> step s s' -> exists i p x c', (i < n)%nat /\ code i (at_ s i) (ext s) (on i s) = Ret (p, x) c' /\
  s' = moved i p x c' s /\ inv s' /\
  ((rank p < rank (at_ s i))%nat \/ (at_ s i = S_test /\ ext s = false) \/ (off (at_ s i) = true /\ ~ ready (mem s) i)).
Proof.
  intros HI Hs. pose proof HI as (Hn & _). destruct Hs as [s i p x c' Hi E|s i e c' Hi E]; rewrite Hn in Hi.
  all: assert (Hf : finished (at_ s i) = false) by (by destruct (at_ s i)).
  all: destruct (code_goes s i HI Hi Hf) as [(p1 & x1 & c1 & E1 & HI' & Hr)|(l & c1 & _ & _ & E1)]; rewrite E in E1; try done.
  injection E1 as <- <- <-. by exists i, p, x, c'.
Qed.

Lemma sleep_step_inv s s' : inv s -> step s s' -> inv s'.
Proof. intros HI Hs. by destruct (step_goes s s' HI Hs) as (? & ? & ? & ? & _ & _ & _ & ? & _). Qed.

Definition woken_up (s : state) : Prop := exists j, woke (at_ s j) = true.
Definition total (s : state) : nat := sum_list ((fun i => rank (at_ s i)) <$> seq 0 n).

Lemma woke_stays i p x c p' x' c' : code i p x c = Ret (p', x') c' -> woke p = true -> woke p' = true.
Proof.
  destruct p; try done; cbn [code]; unfold mbind, M_bind; destruct (release _ c); cbn; try done; by intros [= <- _ _].
Qed.

Lemma sum_less (f g : nat -> nat) i l : NoDup l -> i ∈ l -> (g i < f i)%nat -> (forall j, j <> i -> g j = f j) ->
  (sum_list (g <$> l) < sum_list (f <$> l))%nat.
Proof.
  intros Hnd Hi Hlt Ho. induction l as [|j l IH]; [by apply not_elem_of_nil in Hi|]. cbn [fmap list_fmap sum_list sum_list_with].
  apply NoDup_cons in Hnd as [Hj Hnd]. destruct (decide (j = i)) as [->|Hne].
  - assert (E : g <$> l = f <$> l); [|unfold fmap in *; rewrite E; cbn; lia]. apply list_fmap_ext. intros k j Hk. apply Ho. intros ->. apply Hj. by eapply list_elem_of_lookup_2.
  - apply elem_of_cons in Hi as [?|Hi]; [congruence|]. specialize (IH Hnd Hi). unfold fmap in *. cbn. rewrite (Ho j) by done. lia.
Qed.

(** Once a waker has called [wakeup1], every step is progress. *)
Lemma step_total s s' : inv s -> woken_up s -> step s s' -> woken_up s' /\ (total s' < total s)%nat.
Proof.
  intros HI (j & Hj) Hs. destruct (step_goes s s' HI Hs) as (i & p & x & c' & Hi & E & -> & _ & Hr).
  pose proof HI as (_ & _ & _ & _ & _ & Hset & Hw). destruct (Hw j Hj i Hi) as [_ Hoff].
  assert (Hx : ext s = true) by (apply (Hset j); by destruct (at_ s j)). split.
  - exists j. cbn [moved at_]. unfold goto. case_decide; [subst; by eapply woke_stays | done].
  - apply (sum_less _ _ i); [apply NoDup_seq | apply elem_of_seq; lia | cbn [moved at_]; rewrite goto_same |].
    + destruct Hr as [?|[[_ ?]|[H1 H2]]]; [done | congruence | by destruct H2; apply Hoff].
    + intros k Hk. cbn [moved at_]. by rewrite goto_other.
Qed.

Lemma total_bound s : (total s <= 16 * n)%nat.
Proof.
  unfold total. rewrite <- (length_seq n 0) at 2. induction (seq 0 n) as [|i l IH]; [done|]. cbn. cbn in IH.
  assert (rank (at_ s i) <= 16)%nat by (destruct (at_ s i); cbn; lia). lia.
Qed.

Lemma steps_total k s s' : inv s -> woken_up s -> nsteps step k s s' -> (k + total s' <= total s)%nat /\ inv s' /\ woken_up s'.
Proof.
  intros HI Hw Hk. induction Hk as [s|k s1 s2 s3 Hs Hk IH]; [by split_and!|].
  destruct (step_total _ _ HI Hw Hs) as [Hw2 Hlt]. destruct (IH (sleep_step_inv _ _ HI Hs) Hw2) as (H1 & H2 & H3). split_and!; [lia | done | done].
Qed.

(** The holder of [ptable.lock] always goes on; so does the holder of [lk], or it waits for
    the former. *)
Lemma can_go s : inv s -> (exists s', step s s') \/ forall i, finished (at_ s i) = true.
Proof.
  intros HI. pose proof HI as (Hn & Hge & _ & Hll & Hlp & _).
  assert (HB : forall i, finished (at_ s i) = false -> (exists s', step s s') \/ exists l, wants (at_ s i) = Some l /\ locked (locks (mem s) l) = true).
  { intros i Hf. assert (Hi : (i < n)%nat) by (apply Nat.nle_gt; intros H; by rewrite Hge in Hf).
    destruct (code_goes s i HI Hi Hf) as [(p & x & c' & E & _)|(l & c' & H1 & H2 & _)]; [left | by eauto].
    exists (moved i p x c' s). apply st_ret; [by rewrite Hn | done]. }
  assert (HP : locked (locks (mem s) L_ptable) = true -> exists s', step s s').
  { intros El. destruct Hlp as ([h|] & Hh & Hk); [|congruence].
    pose proof (proj2 (Hh h) eq_refl) as Hp. destruct (HB h) as [?|(l & Hw & _)]; by destruct (at_ s h). }
  assert (HK : locked (locks (mem s) lk) = true -> exists s', step s s').
  { intros El. destruct Hll as ([h|] & Hh & Hk); [|congruence].
    pose proof (proj2 (Hh h) eq_refl) as Hp. destruct (HB h) as [?|(l & Hw & Hl)]; [by destruct (at_ s h) | done |].
    destruct (at_ s h); try done; injection Hw as <-; auto. }
  destruct (existsb (fun i => negb (finished (at_ s i))) (seq 0 n)) eqn:Ee.
  - left. apply existsb_exists in Ee as (i & _ & Hf%negb_true_iff). destruct (HB i Hf) as [?|(l & Hw & Hl)]; [done|].
    destruct (at_ s i); try done; injection Hw as <-; auto.
  - right. intros i. destruct (decide (i < n)%nat) as [Hi|Hi]; [|by rewrite Hge by lia]. destruct (finished (at_ s i)) eqn:Ef; [done|].
    rewrite <- Ee. apply existsb_exists. exists i. split; [apply in_seq; lia | by rewrite Ef].
Qed.

Lemma stuck_finished s : inv s -> (forall s', ~ step s s') -> forall i, finished (at_ s i) = true.
Proof. intros HI Hst. destruct (can_go s HI) as [(s' & Hs)|Hf]; [by destruct (Hst s') | done]. Qed.

(** [n] CPUs with interrupts on, CPU [i] running process [i]; both locks are free; every
    process is about to run the program of a sleeper or of a waker; the condition is false. *)
Definition starts (s : state) : Prop :=
  length (cpus (mem s)) = n /\ ext s = false /\
  locked (locks (mem s) lk) = false /\ locked (locks (mem s) L_ptable) = false /\
  (forall i, (n <= i)%nat -> at_ s i = S_done) /\
  forall i, (i < n)%nat -> (at_ s i = S_acquire \/ at_ s i = W_acquire) /\ cpu_ok (on i s) i 0 true (Some i) /\
    exists q, procs (mem s) !! i = Some q /\ pstate q = RUNNING.

Lemma sleep_starts_inv s : starts s -> inv s.
Proof.
  intros (Hn & Hx & Hl & Hp & Hge & Hc).
  assert (HA : forall i, at_ s i = S_done \/ at_ s i = S_acquire \/ at_ s i = W_acquire).
  { intros i. destruct (decide (i < n)%nat) as [Hi|Hi]; [right; by apply Hc | left; apply Hge; lia]. }
  split_and!; [done | done | | | | |].
  - intros i Hi. destruct (Hc i Hi) as ([Ha|Ha] & H1 & q & Hq & H2); unfold cpu_inv; rewrite Ha; split_and!; try done; by exists q.
  - exists None. split; [|done]. intros i. by destruct (HA i) as [->|[->| ->]].
  - exists None. split; [|done]. intros i. by destruct (HA i) as [->|[->| ->]].
  - intros j. by destruct (HA j) as [->|[->| ->]].
  - intros j. by destruct (HA j) as [->|[->| ->]].
Qed.

Lemma inv_awake s i : inv s -> woken_up s -> (i < n)%nat -> pstate (getp (mem s) i) <> SLEEPING.
Proof.
  intros (_ & _ & Hc & _ & _ & _ & Hw) (j & Hj) Hi. destruct (Hw j Hj i Hi) as [Hd Ho]. destruct (Hc i Hi) as (_ & _ & q & Hq & Hp).
  unfold getp. rewrite Hq. cbn [default from_option id]. destruct (off (at_ s i)) eqn:Ef.
  - destruct (Ho eq_refl) as (q' & Hq' & E). congruence.
  - destruct (at_ s i); cbn in *; try done; rewrite Hp; done.
Qed.

End Inv.
End Pieces.

(** C25: on [n] CPUs, any number of processes run the code of a sleeper or of a waker, in any
    interleaving of its lock operations and of its accesses to the processes.  The pieces are,
    one after the other, exactly [sleep] and [wakeup].  In every state that is reached no check
    of [acquire], [release], [sched] or [sleep] has panicked, and as long as a process has not
    finished some CPU can make a step.  When a waker has called [wakeup1], no process is
    asleep, and none goes to sleep again: every run from there has at most 16 [n] steps, and
    when it ends every sleeper and every waker has finished. *)
Theorem no_lost_wakeup ch lk n s0 s :
  lk <> L_ptable -> starts lk n s0 -> star (step ch lk) s0 s ->
  sleep ch lk = (p ← sleep_begin; release lk;; core_mod (updp p (with_chan ch));; core_mod (updp p (with_state SLEEPING));;
    b ← sched_down; leave_cpu ch;; sched_up b;; core_mod (updp p (with_chan ch_none));; release L_ptable;; acquire lk) /\
  wakeup (S := core) ch = (acquire L_ptable;; wakeup1 ch;; release L_ptable) /\
  (forall i, at_ s i <> Panicked) /\
  (forall i, finished (at_ s i) = false -> exists s', step ch lk s s') /\
  (forall k s', woken_up s -> nsteps (step ch lk) k s s' ->
     (k <= 16 * n)%nat /\ (forall i, (i < n)%nat -> pstate (getp (mem s') i) <> SLEEPING) /\
     ((forall s2, ~ step ch lk s' s2) -> forall i, finished (at_ s' i) = true)).
Proof.
  intros Hlk H0 Hs. assert (HI : inv ch lk n s).
  { eapply (star_invariant _ (inv ch lk n)); [by apply sleep_step_inv | exact Hs | by apply sleep_starts_inv]. }
  split; [by apply sleep_pieces|]. split; [apply wakeup_pieces|]. split; [|split].
  - intros i Hp. pose proof HI as (_ & Hge & Hc & _). destruct (decide (i < n)%nat) as [Hi|Hi]; [|by rewrite Hge in Hp by lia].
    destruct (Hc i Hi) as (_ & Ha & _). by rewrite Hp in Ha.
  - intros i Hf. destruct (can_go ch lk n Hlk s HI) as [H1|H1]; [done|]. by rewrite H1 in Hf.
  - intros k s' Hw Hk. destruct (steps_total ch lk n Hlk k s s' HI Hw Hk) as (H1 & H2 & H3). pose proof (total_bound n s).
    split; [lia|]. split; [intros i; by apply (inv_awake ch lk n) | by apply (stuck_finished ch lk n)].
Qed.

(** Three CPUs: the sleepers on 0 and 1 are off their CPUs when the waker on 2 runs. *)
Definition three_cpus : core :=
  {| hw_apicid := 0; hw_if := true;
     cpus := (fun i => {| apicid := Z.of_nat i; ncli := 0; intena := true; cproc := Some i |}) <$> [0; 1; 2]%nat;
     locks := fun _ => {| locked := false; lcpu := None |}; procs := replicate 3 (with_state RUNNING proc0); nextpid := 4; initproc := None |}.
Definition gather : mach pc bool :=
  {| mem := three_cpus; ifs := fun _ => true; at_ := fun i => match i with 0 | 1 => S_acquire | 2 => W_acquire | _ => S_done end%nat; ext := false |}.

(** A step of CPU [i], as a function; a CPU that spins stays where it is. *)
Definition do_step (ch : chan) (lk : lockid) (s : mach pc bool) (i : nat) : mach pc bool :=
  match code ch lk i (at_ s i) (ext s) (on i s) with Ret (p, x) c' => moved i p x c' s | _ => s end.

Lemma do_sleep_steps ch lk n tr : lk <> L_ptable -> Forall (fun i => (i < n)%nat) tr -> forall s, inv ch lk n s ->
  star (step ch lk) s (foldl (do_step ch lk) s tr).
Proof.
  intros Hlk HF. induction HF as [|i tr Hi HF IH]; intros s HI; cbn [foldl]; [apply star_refl|]. unfold do_step at 2.
  destruct (code ch lk i (at_ s i) (ext s) (on i s)) as [[p x] c'| | |] eqn:E; [|by apply IH ..].
  assert (Hs : step ch lk s (moved i p x c' s)) by (apply st_ret; [destruct HI as [-> _]; exact Hi | exact E]).
  eapply star_step; [exact Hs | by apply IH, (sleep_step_inv ch lk n Hlk s)].
Qed.

Lemma gather_starts : starts L_kmem 3 gather.
Proof.
  split_and!; try done; [by intros [|[|[|i]]] Hi; try lia|].
  intros [|[|[|i]]] Hi; [..|lia]; (split; [by auto|]; split; [split_and!; [done | done | by eexists; split_and!] | by eexists]).
Qed.

Lemma no_lost_wakeup_witness :
  let s := foldl (do_step ch_log L_kmem) gather (replicate 12 0 ++ replicate 12 1 ++ replicate 5 2)%nat in
  off (at_ s 0%nat) = true /\ (forall i, (i < 3)%nat -> pstate (getp (mem s) i) <> SLEEPING) /\ exists s', step ch_log L_kmem s s'.
Proof.
  intros s. split; [vm_compute; reflexivity|].
  destruct (no_lost_wakeup ch_log L_kmem 3 gather s) as (_ & _ & _ & H1 & H2); [done | apply gather_starts | |].
  - apply (do_sleep_steps _ _ 3); [done | apply Forall_forall; intros i Hi; set_unfold; lia | apply sleep_starts_inv, gather_starts].
  - split; [|apply (H1 0%nat); vm_compute; reflexivity].
    apply (H2 0%nat s); [exists 2%nat; vm_compute; reflexivity | constructor].
Defined.

End SleepSteps.
