(* ===== verification/Kalloc.v ===== *)
(** * The physical page allocator: kalloc.c

    The free list is threaded through the free pages themselves: the first word of
    a free page is the address of the next one.  Other components use the
    allocator through the interface [PageAlloc]. *)

From stdpp Require Import base gmap list strings.
From Stdlib Require Import ZArith Lia.
From S2P Require Import Prelude CString Core.

(** ** Memory layout (memlayout.h, mmu.h) *)

Definition PGSIZE : Z := 4096.
Definition EXTMEM : Z := 0x100000.
Definition PHYSTOP : Z := 0xE000000.
Definition DEVSPACE : Z := 0xFE000000.
Definition KERNBASE : Z := 0x80000000.
Definition KERNLINK : Z := KERNBASE + EXTMEM.
Definition V2P (a : Z) : Z := u32 (a - KERNBASE).
Definition P2V (a : Z) : Z := u32 (a + KERNBASE).
Definition PGROUNDUP (sz : Z) : Z := Z.land (u32 (sz + PGSIZE - 1)) (Z.lnot (PGSIZE - 1)).
Definition PGROUNDDOWN (a : Z) : Z := Z.land a (Z.lnot (PGSIZE - 1)).

(** The machine's memory, as the kernel's address space sees it. *)
Record ram : Type := { ram_bytes : mem }.

(** What a component may rely on that allocates pages.  [pa_inv s l]: the
    allocator's free pages in state [s] are [l], in the order in which it hands
    them out. *)
Class PageAlloc (S : Type) : Type := {
  kalloc_page : M S Z;
  kfree_page : Z -> M S unit
}.

Class PageAllocLaws (S : Type) `{Lens S ram} `{PageAlloc S} : Type := {
  pa_page : Z -> Prop;
  pa_inv : S -> list Z -> Prop;
  pa_inv_pages s l : pa_inv s l -> NoDup l /\ Forall pa_page l;
  pa_page_range v : pa_page v -> v mod PGSIZE = 0 /\ KERNBASE < v < KERNBASE + PHYSTOP;
  (* writing outside of the free pages is harmless *)
  pa_inv_frame s l m :
    pa_inv s l ->
    (forall v a, v ∈ l -> v <= a < v + PGSIZE ->
       loadb m a = loadb (ram_bytes (lget s)) a) ->
    pa_inv (lset {| ram_bytes := m |} s) l;
  pa_alloc s l (Q : Z -> S -> Prop) :
    pa_inv s l ->
    (forall s', pa_inv s' (tail l) -> ram_bytes (lget s') = ram_bytes (lget s) ->
       Q (default 0 (head l)) s') ->
    wp kalloc_page s Q;
  pa_free s l v (Q : unit -> S -> Prop) :
    pa_inv s l -> pa_page v -> v ∉ l ->
    (forall s', pa_inv s' (v :: l) ->
       (forall a, a < v \/ v + PGSIZE <= a ->
          loadb (ram_bytes (lget s')) a = loadb (ram_bytes (lget s)) a) ->
       (bytes_ok (ram_bytes (lget s)) -> bytes_ok (ram_bytes (lget s'))) -> Q tt s') ->
    wp (kfree_page v) s Q
}.

Module Kalloc.

Record kmem : Type := { use_lock : bool; freelist : Z }.

Section Ops.
(** [kend] is the address [end] of the linker script, the first one after the
    kernel. *)
Context {S : Type} {HL : Lens S core} {HK : Lens S kmem} {HR : Lens S ram}.
Context (kend : Z).

Definition ram_mod (f : mem -> mem) : M S unit :=
  lmod (T := ram) (fun r => {| ram_bytes := f (ram_bytes r) |}).
Definition ram_get {A} (f : mem -> A) : M S A := lgets (T := ram) (fun r => f (ram_bytes r)).
Definition set_freelist (v : Z) : M S unit :=
  lmod (T := kmem) (fun k => {| use_lock := use_lock k; freelist := v |}).
Definition set_use_lock (b : bool) : M S unit :=
  lmod (T := kmem) (fun k => {| use_lock := b; freelist := freelist k |}).

Definition if_lock (m : M S unit) : M S unit :=
  b ← lgets (T := kmem) use_lock; if (b : bool) then m else mret tt.

Definition bad_page (v : Z) : bool :=
  negb (v mod PGSIZE =? 0) || (v <? kend) || (PHYSTOP <=? V2P v).

Definition kfree (v : Z) : M S unit :=
  if bad_page v then panic "kfree"
  else
    ram_mod (fun m => Str.memset m v 1 PGSIZE);;
    if_lock (acquire L_kmem);;
    fl ← lgets (T := kmem) freelist;
    ram_mod (fun m => store32 m v fl);;
    set_freelist v;;
    if_lock (release L_kmem).

Definition kalloc : M S Z :=
  if_lock (acquire L_kmem);;
  r ← lgets (T := kmem) freelist;
  (if r =? 0 then mret tt
   else n ← ram_get (fun m => load32 m r); set_freelist n);;
  if_lock (release L_kmem);;
  mret r.

(** [for (; p + PGSIZE <= vend; p += PGSIZE) kfree(p);] *)
Fixpoint freerange_loop (fuel : nat) (p vend : Z) : M S unit :=
  match fuel with
  | O => mret tt
  | Datatypes.S f =>
      if p + PGSIZE <=? vend then kfree p;; freerange_loop f (p + PGSIZE) vend
      else mret tt
  end.

Definition freerange (vstart vend : Z) : M S unit :=
  let p := PGROUNDUP vstart in
  freerange_loop (Z.to_nat ((vend - p) / PGSIZE + 1)) p vend.

Definition kinit1 (vstart vend : Z) : M S unit :=
  initlock L_kmem;;
  set_use_lock false;;
  freerange vstart vend.

Definition kinit2 (vstart vend : Z) : M S unit :=
  freerange vstart vend;;
  set_use_lock true.

(** ** The free list as a sequence of pages *)

Context {HLok : LensOk S core} {HKok : LensOk S kmem} {HRok : LensOk S ram}.
Context {Hs1 : LensSep S core kmem} {Hs2 : LensSep S core ram} {Hs3 : LensSep S kmem ram}.

Fixpoint chain (m : mem) (head : Z) (l : list Z) : Prop :=
  match l with
  | [] => head = 0
  | v :: l' => head = v /\ v <> 0 /\ chain m (load32 m v) l'
  end.

Definition page_ok (v : Z) : Prop := bad_page v = false /\ 0 < v < 2 ^ 32.

(** [l] is the stack of free pages: distinct, aligned, inside the allocator's
    range. *)
Definition kmem_ok (s : S) (l : list Z) : Prop :=
  chain (ram_bytes (lget s)) (freelist (lget s)) l /\ NoDup l /\ Forall page_ok l.

Lemma page_ok_aligned v : page_ok v -> v mod PGSIZE = 0.
Proof. intros [H _]. unfold bad_page in H. zbool. done. Qed.

Lemma pages_apart v w :
  v mod PGSIZE = 0 -> w mod PGSIZE = 0 -> v <> w -> v + PGSIZE <= w \/ w + PGSIZE <= v.
Proof. unfold PGSIZE. intros. Z.to_euclidean_division_equations. lia. Qed.

Lemma chain_frame m m' : forall l head,
  (forall v, v ∈ l -> load32 m' v = load32 m v) -> chain m head l -> chain m' head l.
Proof.
  induction l as [|v l IH]; intros head Hf Hc; [done|]. simpl in *.
  destruct Hc as (-> & Hv & Hc). split_and!; [done | done |].
  rewrite Hf by (by left). apply IH; [|done]. intros w Hw. apply Hf. by right.
Qed.

(** Filling and linking a page does not disturb the links of the others. *)
Lemma load32_fill m v w fl :
  v mod PGSIZE = 0 -> w mod PGSIZE = 0 -> v <> w ->
  load32 (store32 (Str.memset m v 1 PGSIZE) v fl) w = load32 m w.
Proof.
  intros Hv Hw Hne. pose proof (pages_apart v w Hv Hw Hne) as Ha. unfold PGSIZE in *.
  rewrite load32_store32_ne by lia. unfold load32.
  rewrite !Str.memset_spec by lia. repeat case_bool; zbool; lia || done.
Qed.

(** The lock around the critical sections, when the allocator uses it. *)
Definition lock_ok (s : S) (i : nat) (L : list lockid) (ie : bool) (p : option nat) : Prop :=
  use_lock (lget s) = true -> core_ok (lget s) i L ie p /\ L_kmem ∉ L.

Ltac klens :=
  repeat first [rewrite lget_lset | rewrite lsep_l | rewrite lsep_r | rewrite lset_lset];
  cbn [ram_bytes use_lock freelist].

Lemma wp_kfree s i L ie p v l (Q : unit -> S -> Prop) :
  kmem_ok s l -> lock_ok s i L ie p -> page_ok v -> v ∉ l ->
  (forall s', kmem_ok s' (v :: l) -> lock_ok s' i L ie p ->
     same_procs (lget s) (lget s') -> use_lock (lget s') = use_lock (lget s) ->
     (forall a, a < v \/ v + PGSIZE <= a ->
        loadb (ram_bytes (lget s')) a = loadb (ram_bytes (lget s)) a) ->
     (bytes_ok (ram_bytes (lget s)) -> bytes_ok (ram_bytes (lget s'))) -> Q tt s') ->
  wp (kfree v) s Q.
Proof.
  intros (Hc & HN & HF) Hlk Hv Hni HQ. pose proof (page_ok_aligned _ Hv) as Hal.
  pose proof Hv as [Hb Hvr].
  unfold kfree. rewrite Hb. unfold ram_mod, set_freelist, if_lock. wp_step. klens.
  assert (Hfin : forall m, m = store32 (Str.memset (ram_bytes (lget s)) v 1 PGSIZE) v (freelist (lget s)) ->
    chain m v (v :: l) /\ (forall a, a < v \/ v + PGSIZE <= a ->
      loadb m a = loadb (ram_bytes (lget s)) a) /\ (bytes_ok (ram_bytes (lget s)) -> bytes_ok m)).
  { intros m ->. split_and!.
    - simpl. split_and!; [done | lia |]. rewrite load32_store32_eq, u32_small.
      + eapply chain_frame; [|exact Hc]. intros w Hw. apply load32_fill; [done | |].
        * apply page_ok_aligned. by eapply Forall_forall in HF.
        * intros ->. done.
      + destruct l as [|w l]; simpl in Hc; [lia|]. destruct Hc as (-> & _).
        inversion_clear HF as [|? ? [_ Hw] _]. lia.
    - intros a Ha. unfold PGSIZE in *. rewrite loadb_store32_ne by lia.
      rewrite Str.memset_spec by lia. case_bool; zbool; lia || done.
    - intros Hb0. apply bytes_ok_store32. intros a. rewrite Str.memset_spec by done.
      case_bool; [done | apply Hb0]. }
  assert (HNv : NoDup (v :: l)) by (by constructor).
  assert (HFv : Forall page_ok (v :: l)) by (by constructor).
  destruct (use_lock (lget s)) eqn:Eu; wp_step.
  - destruct (Hlk Eu) as [Hok Hkm].
    eapply wp_acquire; [by rewrite lsep_l | done |]. intros c1 Hc1 Hp1. wp_step. klens.
    rewrite Eu. wp_step.
    eapply wp_release; [klens; exact Hc1|]. intros c2 Hc2 Hp2.
    destruct (Hfin _ eq_refl) as (H1 & H2 & H3). apply HQ.
    + split_and!; [|done|done]. klens. exact H1.
    + intros _. klens. done.
    + revert Hp1 Hp2. klens. apply same_procs_trans.
    + by klens.
    + intros a Ha. klens. by apply H2.
    + by klens.
  - klens. rewrite Eu. wp_step. destruct (Hfin _ eq_refl) as (H1 & H2 & H3). apply HQ.
    + split_and!; [|done|done]. klens. exact H1.
    + intros Hu. revert Hu. klens. congruence.
    + by klens.
    + by klens.
    + intros a Ha. klens. by apply H2.
    + by klens.
Qed.

Lemma kmem_ok_head s v l : kmem_ok s (v :: l) -> freelist (lget s) = v /\ v <> 0.
Proof. by intros ((? & ? & _) & _). Qed.

Lemma wp_kalloc s i L ie p l (Q : Z -> S -> Prop) :
  kmem_ok s l -> lock_ok s i L ie p ->
  (forall s', kmem_ok s' (tail l) -> lock_ok s' i L ie p ->
     same_procs (lget s) (lget s') -> use_lock (lget s') = use_lock (lget s) ->
     ram_bytes (lget s') = ram_bytes (lget s) -> Q (default 0 (head l)) s') ->
  wp kalloc s Q.
Proof.
  intros (Hc & HN & HF) Hlk HQ.
  assert (Hhd : freelist (lget s) = default 0 (head l) /\
    (freelist (lget s) =? 0) = bool_decide (l = []) /\
    chain (ram_bytes (lget s)) (if freelist (lget s) =? 0 then freelist (lget s) else
      load32 (ram_bytes (lget s)) (freelist (lget s))) (tail l)).
  { destruct l as [|v l]; simpl in *; [by rewrite Hc|]. destruct Hc as (-> & Hv & Hc).
    by rewrite (proj2 (Z.eqb_neq v 0) Hv). }
  destruct Hhd as (Hhd & He & Hch).
  assert (HNt : NoDup (tail l)) by (destruct l; [done | by apply NoDup_cons in HN as [_ ?]]).
  assert (HFt : Forall page_ok (tail l)) by (destruct l; [done | by inversion HF]).
  unfold kalloc, if_lock, ram_get, set_freelist. wp_step.
  destruct (use_lock (lget s)) eqn:Eu; wp_step.
  - destruct (Hlk Eu) as [Hok Hkm].
    eapply wp_acquire; [done | done |]. intros c1 Hc1 Hp1. wp_step. klens. rewrite <- Hhd in HQ.
    destruct (freelist (lget s) =? 0); wp_step; klens; rewrite Eu; wp_step;
      (eapply wp_release; [klens; exact Hc1|]; intros c2 Hc2 Hp2; wp_step; apply HQ;
        [ split_and!; [by klens | done..]
        | intros _; klens; done
        | revert Hp1 Hp2; klens; apply same_procs_trans
        | by klens | by klens ]).
  - rewrite <- Hhd in HQ.
    destruct (freelist (lget s) =? 0); wp_step; klens; rewrite Eu; wp_step; apply HQ; klens;
      try done; try (split_and!; klens; done); intros Hu; revert Hu; klens; congruence.
Qed.

(** ** Boot: filling the free list *)

(** The whole pages of a range. *)
Definition page_in (vstart vend v : Z) : Prop :=
  v mod PGSIZE = 0 /\ vstart <= v /\ v + PGSIZE <= vend.

Lemma PGROUNDUP_spec a :
  0 <= a -> a + PGSIZE <= 2 ^ 32 ->
  PGROUNDUP a mod PGSIZE = 0 /\ a <= PGROUNDUP a < a + PGSIZE.
Proof.
  intros Ha Hb. unfold PGROUNDUP, PGSIZE in *. rewrite u32_small by lia.
  change (4096 - 1) with (Z.ones 12). rewrite <- Z.ldiff_land, Z.ldiff_ones_r by lia.
  rewrite Z.shiftr_div_pow2, Z.shiftl_mul_pow2 by lia.
  Z.to_euclidean_division_equations. lia.
Qed.

Lemma wp_freerange_loop vend fuel : forall s i L ie p q l (Q : unit -> S -> Prop),
  kmem_ok s l -> lock_ok s i L ie p -> q mod PGSIZE = 0 ->
  vend - q < Z.of_nat fuel * PGSIZE ->
  (forall v, page_in q vend v -> page_ok v /\ v ∉ l) ->
  (forall s' l', kmem_ok s' l' -> lock_ok s' i L ie p -> use_lock (lget s') = use_lock (lget s) ->
     (forall v, v ∈ l' <-> v ∈ l \/ page_in q vend v) -> Q tt s') ->
  wp (freerange_loop fuel q vend) s Q.
Proof.
  induction fuel as [|fuel IH]; intros s i L ie p q l Q Hk Hlk Hq Hfuel Hpg HQ; simpl;
    unfold PGSIZE in *.
  - apply wp_ret. eapply HQ; eauto. intros v. unfold page_in, PGSIZE. split; [tauto|].
    intros [?|?]; [done|lia].
  - destruct (q + 4096 <=? vend) eqn:E; zbool.
    + destruct (Hpg q) as [Hok Hni]; [unfold page_in, PGSIZE; lia|]. wp_step.
      eapply wp_kfree; [done | done | done | done |]. intros s1 Hk1 Hlk1 _ Hu1 _ _.
      eapply IH; [exact Hk1 | exact Hlk1 | | lia | |].
      * Z.to_euclidean_division_equations; lia.
      * intros v (Hv1 & Hv2 & Hv3). unfold PGSIZE in *.
        destruct (Hpg v) as [? ?]; [unfold page_in, PGSIZE; lia|].
        split; [done|]. rewrite elem_of_cons. intros [->|?]; [lia | done].
      * intros s2 l2 Hk2 Hlk2 Hu2 Hl2. eapply HQ; [exact Hk2 | done | congruence |].
        intros v. rewrite Hl2, elem_of_cons. unfold page_in, PGSIZE. split.
        -- intros [[->|?]|?]; [right; lia | tauto | right; lia].
        -- intros [?|(H1 & H2 & H3)]; [tauto|]. destruct (decide (v = q)); [tauto|]. right.
           split_and!; [done | | done]. Z.to_euclidean_division_equations. lia.
    + apply wp_ret. eapply HQ; eauto. intros v. unfold page_in, PGSIZE. split; [tauto|].
      intros [?|?]; [done|lia].
Qed.

Lemma wp_freerange s i L ie p vstart vend l (Q : unit -> S -> Prop) :
  kmem_ok s l -> lock_ok s i L ie p -> 0 <= vstart -> vstart + PGSIZE <= 2 ^ 32 ->
  (forall v, page_in vstart vend v -> page_ok v /\ v ∉ l) ->
  (forall s' l', kmem_ok s' l' -> lock_ok s' i L ie p -> use_lock (lget s') = use_lock (lget s) ->
     (forall v, v ∈ l' <-> v ∈ l \/ page_in vstart vend v) -> Q tt s') ->
  wp (freerange vstart vend) s Q.
Proof.
  intros Hk Hlk H0 H1 Hpg HQ. destruct (PGROUNDUP_spec vstart H0 H1) as [Hal Hr].
  assert (Heq : forall v, page_in (PGROUNDUP vstart) vend v <-> page_in vstart vend v).
  { intros v. unfold page_in, PGSIZE in *. split; [lia|]. intros (Hv1 & Hv2 & Hv3).
    split_and!; [done | | done]. Z.to_euclidean_division_equations. lia. }
  unfold freerange. eapply wp_freerange_loop; [exact Hk | exact Hlk | done | | |].
  - unfold PGSIZE. Z.to_euclidean_division_equations. lia.
  - intros v Hv. apply Hpg, Heq, Hv.
  - intros s' l' ? ? ? Hl. eapply HQ; eauto. intros v. by rewrite Hl, Heq.
Qed.

(** ** The interface *)

#[export] Instance kalloc_PageAlloc : PageAlloc S :=
  {| kalloc_page := kalloc; kfree_page := kfree |}.

Lemma page_ok_range v : KERNBASE < kend -> page_ok v -> KERNBASE < v < KERNBASE + PHYSTOP.
Proof.
  unfold page_ok, bad_page, V2P, KERNBASE, PHYSTOP. intros Hk [Hb Hr]. zbool.
  rewrite u32_small in * by lia. lia.
Qed.

Program Definition kalloc_laws (i : nat) (L : list lockid) (ie : bool) (p : option nat)
  (Hend : KERNBASE < kend) : PageAllocLaws S :=
  {| pa_page := page_ok; pa_inv s l := kmem_ok s l /\ lock_ok s i L ie p |}.
Next Obligation. by intros i L ie p _ s l [(_ & ? & ?) _]. Qed.
Next Obligation.
  intros i L ie p Hend v Hv. split; [by apply page_ok_aligned | by apply page_ok_range].
Qed.
Next Obligation.
  intros i L ie p Hend s l m [(Hc & HN & HF) Hlk] Hm. split.
  - split_and!; [|done|done]. klens. eapply chain_frame; [|done]. intros v Hv. unfold load32.
    unfold PGSIZE in Hm. by rewrite !(Hm v) by (done || lia).
  - unfold lock_ok in *. klens. done.
Qed.
Next Obligation.
  intros i L ie p Hend s l Q [Hk Hlk] HQ. eapply wp_kalloc; eauto.
Qed.
Next Obligation.
  intros i L ie p Hend s l v Q [Hk Hlk] Hv Hni HQ. eapply wp_kfree; eauto.
Qed.

(** The same promise to a caller that holds the locks [L] and relies on the process
    table of [c0]. *)
Definition kernel_at (c0 : core) (i : nat) (L : list lockid) (ie : bool) (p : option nat) (s : S) (l : list Z) : Prop :=
  kmem_ok s l /\ use_lock (lget s) = true /\ core_ok (lget s) i L ie p /\ same_procs c0 (lget s).

Lemma kernel_at_lock c0 i L ie p s l : L_kmem ∉ L -> kernel_at c0 i L ie p s l -> lock_ok s i L ie p.
Proof. by intros Hni (_ & _ & Hc & _) _. Qed.

Program Definition kalloc_laws_at (c0 : core) (i : nat) (L : list lockid) (ie : bool) (p : option nat)
  (Hend : KERNBASE < kend) (Hkm : L_kmem ∉ L) : PageAllocLaws S :=
  {| pa_page := page_ok; pa_inv := kernel_at c0 i L ie p |}.
Next Obligation. by intros c0 i L ie p _ _ s l ((_ & ? & ?) & _). Qed.
Next Obligation.
  intros c0 i L ie p Hend _ v Hv. split; [by apply page_ok_aligned | by apply page_ok_range].
Qed.
Next Obligation.
  intros c0 i L ie p Hend Hni0 s l m ((Hc & HN & HF) & Hu & Hok & Hs) Hm. unfold kernel_at. klens.
  split_and!; try done. split_and!; [|done|done]. klens. eapply chain_frame; [|done]. intros v Hv. unfold load32.
  unfold PGSIZE in Hm. by rewrite !(Hm v) by (done || lia).
Qed.
Next Obligation.
  intros c0 i L ie p Hend Hni0 s l Q Hk HQ. pose proof Hk as (Hkq & Hu & Hok & Hs).
  eapply wp_kalloc; [done | by eapply kernel_at_lock |]. intros s' Hkm' Hlk' Hsp Hu' Hr. rewrite Hu in Hu'.
  destruct (Hlk' Hu') as [Hok' _]. apply HQ; [|done]. split_and!; try done. by eapply same_procs_trans.
Qed.
Next Obligation.
  intros c0 i L ie p Hend Hni0 s l v Q Hk Hv Hni HQ. pose proof Hk as (Hkq & Hu & Hok & Hs).
  eapply wp_kfree; [done | by eapply kernel_at_lock | done | done |]. intros s' Hkm' Hlk' Hsp Hu' Hr Hb. rewrite Hu in Hu'.
  destruct (Hlk' Hu') as [Hok' _]. apply HQ; [|done | done]. split_and!; try done. by eapply same_procs_trans.
Qed.

(** ** The abstract allocator: a stack of pages *)

Inductive op : Type := OAlloc | OFree (v : Z).

#[local] Instance page_ok_dec v : Decision (page_ok v).
Proof. unfold page_ok. apply _. Defined.

(** The results of a sequence of calls and the stack after it; freeing a page that
    is free, or is not a page of the allocator, is outside of the contract. *)
Fixpoint spec_run (ops : list op) (l : list Z) : option (list Z * list Z) :=
  match ops with
  | [] => Some ([], l)
  | OAlloc :: ops' =>
      '(rs, l') ← spec_run ops' (tail l); Some (default 0 (head l) :: rs, l')
  | OFree v :: ops' =>
      if decide (page_ok v /\ v ∉ l) then spec_run ops' (v :: l) else None
  end.

Fixpoint impl_run (ops : list op) : M S (list Z) :=
  match ops with
  | [] => mret []
  | OAlloc :: ops' => r ← kalloc; rs ← impl_run ops'; mret (r :: rs)
  | OFree v :: ops' => kfree v;; impl_run ops'
  end.

(** C3: the allocator implements a stack of distinct pages: any sequence of calls
    within the contract returns what the stack says (a page that is not handed out
    again before it has been freed, or 0 when none is left) and ends in a state
    that represents the stack; the free list threaded through the memory is never
    damaged, and the allocator's lock is free again. *)
Theorem kalloc_refines_stack ops : forall (s : S) i L ie p l rs l',
  kmem_ok s l -> lock_ok s i L ie p -> spec_run ops l = Some (rs, l') ->
  wp (impl_run ops) s (fun r s' => r = rs /\ kmem_ok s' l' /\ lock_ok s' i L ie p).
Proof.
  induction ops as [|[|v] ops IH]; intros s i L ie p l rs l' Hk Hlk Hr; simpl in *.
  - simplify_eq. by apply wp_ret.
  - destruct (spec_run ops (tail l)) as [[rs1 l1]|] eqn:E; simpl in Hr; simplify_eq.
    wp_step. eapply wp_kalloc; [done | done |]. intros s1 Hk1 Hlk1 _ _ _. wp_step.
    eapply wp_conseq; [by eapply IH|]. intros r s2 (-> & ? & ?). by apply wp_ret.
  - case_decide as Hd; [|done]. destruct Hd as [Hv Hni]. wp_step.
    eapply wp_kfree; [done..|]. intros s1 Hk1 Hlk1 _ _ _ _. by eapply IH.
Qed.

(** After [kinit1(end, P2V(4MB)); kinit2(P2V(4MB), P2V(PHYSTOP))], as [main] boots,
    every whole page between [end] and the top of the physical memory is free,
    exactly once, and the allocator uses its lock from then on. *)
Theorem kinit_frees_all (s : S) :
  KERNBASE < kend <= P2V 0x400000 -> freelist (lget s) = 0 ->
  wp (kinit1 kend (P2V 0x400000) ;; kinit2 (P2V 0x400000) (P2V PHYSTOP)) s (fun _ s' =>
    exists l, kmem_ok s' l /\ use_lock (lget s') = true /\
      forall v, v ∈ l <-> page_in kend (P2V PHYSTOP) v).
Proof.
  change (P2V 0x400000) with 0x80400000. change (P2V PHYSTOP) with 0x8E000000.
  intros Hend H0. unfold kinit1, kinit2, initlock, core_mod, set_use_lock. wp_step.
  assert (Hpg : forall v, page_in kend 0x8E000000 v -> page_ok v).
  { intros v (Hv1 & Hv2 & Hv3). unfold page_ok, bad_page, V2P, PHYSTOP, KERNBASE, PGSIZE in *.
    rewrite u32_small by lia. split; [|lia].
    rewrite (proj2 (Z.eqb_eq _ _) Hv1). simpl. apply orb_false_iff. split; zbool; lia. }
  eapply (wp_freerange _ O [] true None _ _ []).
  { split_and!; [by klens | constructor | constructor]. }
  { intros Hu. revert Hu. by klens. }
  { unfold KERNBASE in *. lia. }
  { unfold PGSIZE. lia. }
  { intros v Hv. split; [|apply not_elem_of_nil]. apply Hpg. unfold page_in in *. lia. }
  intros s1 l1 Hk1 Hlk1 Hu1 Hl1. wp_step. revert Hu1. klens. intros Hu1.
  eapply wp_freerange; [exact Hk1 | exact Hlk1 | lia | unfold PGSIZE; lia | |].
  { intros v Hv. split; [apply Hpg; unfold page_in in *; lia|].
    rewrite Hl1. unfold page_in, PGSIZE in *. intros [[]%not_elem_of_nil|?]. lia. }
  intros s2 l2 (Hc2 & HN2 & HF2) _ _ Hl2. wp_step. exists l2. split_and!.
  - split_and!; [by klens | done | done].
  - by klens.
  - intros v. rewrite Hl2, Hl1. unfold page_in, PGSIZE. split.
    + intros [[[]%not_elem_of_nil|?]|?]; lia.
    + intros (Hv1 & Hv2 & Hv3). destruct (decide (v < 0x80400000)); [left; right | right];
        (split_and!; [done | lia |]); Z.to_euclidean_division_equations; lia.
Qed.

End Ops.

Abbreviation kst := (core * (kmem * ram))%type.

(** Two pages, then a third one that is freed. *)
Definition two_pages : kst :=
  (boot_core, ({| use_lock := true; freelist := 0x80402000 |},
    {| ram_bytes := store32 (store32 ∅ 0x80402000 0x80401000) 0x80401000 0 |})).

Lemma kalloc_refines_stack_witness :
  wp (impl_run 0x80200000 [OAlloc; OFree 0x80403000; OAlloc; OAlloc; OAlloc]) two_pages
    (fun r s' => r = [0x80402000; 0x80403000; 0x80401000; 0] /\ kmem_ok 0x80200000 s' [] /\
       lock_ok s' 0 [] true (Some 0%nat)).
Proof.
  apply (kalloc_refines_stack 0x80200000 _ two_pages 0 [] true (Some 0%nat)
           [0x80402000; 0x80401000]).
  - split_and!; [vm_compute; split_and!; discriminate || reflexivity | |].
    + repeat constructor; rewrite ?elem_of_cons, ?elem_of_nil; intuition discriminate.
    + repeat constructor.
  - intros _. split; [exact boot_ok | apply not_elem_of_nil].
  - vm_compute. reflexivity.
Defined.

(** The machine before [kinit1]. *)
Definition bare : kst := (boot_core, ({| use_lock := false; freelist := 0 |}, {| ram_bytes := ∅ |})).

Lemma kinit_frees_all_witness :
  wp (kinit1 0x80115000 0x80115000 (P2V 0x400000) ;; kinit2 0x80115000 (P2V 0x400000) (P2V PHYSTOP))
    bare
    (fun _ s' => exists l, kmem_ok 0x80115000 s' l).
Proof.
  destruct (kinit_frees_all (S := kst) 0x80115000 bare)
    as (a & s' & E & l & Hk & _); [vm_compute; split; congruence | reflexivity |].
  exists a, s'. split; [exact E | by exists l].
Defined.

End Kalloc.
