(* ===== verification/Pipe.v ===== *)
(** * Pipes: the ring buffer of pipe.c

    [nread] and [nwrite] are 32-bit counters that run freely and wrap around; the
    buffer holds the bytes between them.  The operations run with the pipe's spin
    lock and sleep on the two counters. *)

From stdpp Require Import base gmap list strings.
From Stdlib Require Import ZArith Lia.
From S2P Require Import Prelude Core Kalloc.

Module Pipe.

Definition PIPESIZE : Z := 512.

Record pipe : Type := {
  data : list Z;
  nread : Z;
  nwrite : Z;
  readopen : bool;
  writeopen : bool
}.

(** The pipes, by the address of their page. *)
Record pipetab : Type := { pipe_of : Z -> pipe }.

Definition set_pipe (p : Z) (k : pipe) (t : pipetab) : pipetab :=
  {| pipe_of := fun p' => if decide (p' = p) then k else pipe_of t p' |}.

Section Ops.
Context {S : Type} {HL : Lens S core} {HT : Lens S pipetab} {HA : PageAlloc S}.

Definition pipe_get (p : Z) : M S pipe := lgets (T := pipetab) (fun t => pipe_of t p).
Definition pipe_mod (p : Z) (f : pipe -> pipe) : M S unit :=
  lmod (T := pipetab) (fun t => set_pipe p (f (pipe_of t p)) t).

(** [myproc()->killed] *)
Definition my_killed : M S bool :=
  p ← myproc; core_get (fun c => killed (getp c (default O p))).

(** The pipe part of [pipealloc]: a fresh page becomes a pipe. *)
Definition pipe_init (p : Z) : M S unit :=
  pipe_mod p (fun k => {| data := data k; nread := 0; nwrite := 0; readopen := true;
                          writeopen := true |});;
  initlock (L_pipe p).

Definition pipeclose (p : Z) (writable : bool) : M S unit :=
  acquire (L_pipe p);;
  (if writable then
     pipe_mod p (fun k => {| data := data k; nread := nread k; nwrite := nwrite k;
                             readopen := readopen k; writeopen := false |});;
     wakeup (ch_piper p)
   else
     pipe_mod p (fun k => {| data := data k; nread := nread k; nwrite := nwrite k;
                             readopen := false; writeopen := writeopen k |});;
     wakeup (ch_pipew p));;
  k ← pipe_get p;
  if negb (readopen k) && negb (writeopen k) then
    release (L_pipe p);; kfree_page p
  else release (L_pipe p).

(** [p->data[p->nwrite++ % PIPESIZE] = b] *)
Definition put_byte (b : Z) (k : pipe) : pipe :=
  {| data := zset (data k) (nwrite k mod PIPESIZE) b; nread := nread k;
     nwrite := nwrite k +u 1; readopen := readopen k; writeopen := writeopen k |}.

(** [p->nread++] *)
Definition drop_byte (k : pipe) : pipe :=
  {| data := data k; nread := nread k +u 1; nwrite := nwrite k;
     readopen := readopen k; writeopen := writeopen k |}.

Definition is_full (k : pipe) : bool := nwrite k =? nread k +u PIPESIZE.
Definition is_empty (k : pipe) : bool := nread k =? nwrite k.

(** The [while] loop of [pipewrite], for at most [fuel] wakeups: is there room
    for a byte? *)
Fixpoint pipewrite_wait (fuel : nat) (p : Z) : M S bool :=
  match fuel with
  | O => spin
  | Datatypes.S f =>
      k ← pipe_get p;
      if is_full k then
        if negb (readopen k) then mret false
        else
          dead ← my_killed;
          if (dead : bool) then mret false
          else
            wakeup (ch_piper p);;
            sleep (ch_pipew p) (L_pipe p);;
            pipewrite_wait f p
      else mret true
  end.

(** The [for] loop over the bytes that are left to write. *)
Fixpoint pipewrite_loop (fuel : nat) (p : Z) (bs : list Z) : M S bool :=
  match bs with
  | [] => mret true
  | b :: bs' =>
      room ← pipewrite_wait fuel p;
      if (room : bool) then pipe_mod p (put_byte b);; pipewrite_loop fuel p bs'
      else mret false
  end.

(** [bs] are the [n] bytes at [addr]. *)
Definition pipewrite (fuel : nat) (p : Z) (bs : list Z) : M S Z :=
  acquire (L_pipe p);;
  ok ← pipewrite_loop fuel p bs;
  if (ok : bool) then
    wakeup (ch_piper p);; release (L_pipe p);; mret (zlen bs)
  else release (L_pipe p);; mret (-1).

(** The [while] loop of [piperead]: is there something to copy (or end of file)? *)
Fixpoint piperead_wait (fuel : nat) (p : Z) : M S bool :=
  match fuel with
  | O => spin
  | Datatypes.S f =>
      k ← pipe_get p;
      if is_empty k && writeopen k then
        dead ← my_killed;
        if (dead : bool) then mret false
        else sleep (ch_piper p) (L_pipe p);; piperead_wait f p
      else mret true
  end.

(** The bytes stored at [addr], at most [n]. *)
Fixpoint piperead_loop (n : nat) (p : Z) : M S (list Z) :=
  match n with
  | O => mret []
  | Datatypes.S n' =>
      k ← pipe_get p;
      if is_empty k then mret []
      else
        let b := zget 0 (data k) (nread k mod PIPESIZE) in
        pipe_mod p drop_byte;;
        rest ← piperead_loop n' p;
        mret (b :: rest)
  end.

(** The result and the bytes stored at [addr]. *)
Definition piperead (fuel : nat) (p : Z) (n : nat) : M S (Z * list Z) :=
  acquire (L_pipe p);;
  ok ← piperead_wait fuel p;
  if (ok : bool) then
    bs ← piperead_loop n p;
    wakeup (ch_pipew p);;
    release (L_pipe p);;
    mret (zlen bs, bs)
  else release (L_pipe p);; mret (-1, []).

(** ** The ring buffer represents a queue *)

Definition pipe_rep (k : pipe) (q : list Z) : Prop :=
  length (data k) = 512%nat /\ 0 <= nread k < 2 ^ 32 /\ zlen q <= PIPESIZE /\
  nwrite k = nread k +u zlen q /\
  forall j, 0 <= j < zlen q ->
    zget 0 (data k) (u32 (nread k + j) mod PIPESIZE) = zget 0 q j.

Lemma mod_u32 a : u32 a mod PIPESIZE = a mod PIPESIZE.
Proof. unfold u32, PIPESIZE. Z.to_euclidean_division_equations. lia. Qed.

Lemma rep_full k q : pipe_rep k q -> is_full k = (zlen q =? PIPESIZE).
Proof.
  intros (_ & Hr & Hl & Hw & _). unfold is_full. rewrite Hw. unfold PIPESIZE, zlen in *.
  apply eq_bool_prop_intro. rewrite !Is_true_true, !Z.eqb_eq. zwrap.
Qed.

Lemma rep_empty k q : pipe_rep k q -> is_empty k = (zlen q =? 0).
Proof.
  intros (_ & Hr & Hl & Hw & _). unfold is_empty. rewrite Hw. unfold PIPESIZE, zlen in *.
  apply eq_bool_prop_intro. rewrite !Is_true_true, !Z.eqb_eq. zwrap.
Qed.

Lemma rep_put k q b : pipe_rep k q -> zlen q < PIPESIZE -> pipe_rep (put_byte b k) (q ++ [b]).
Proof.
  intros (Hd & Hr & Hl & Hw & Hq) Hroom. unfold pipe_rep. simpl. rewrite zlen_app.
  change (zlen [b]) with 1. pose proof (Zle_0_nat (length q)) as H0. fold (zlen q) in H0.
  assert (Hpos : nwrite k mod PIPESIZE = (nread k + zlen q) mod PIPESIZE) by (by rewrite Hw, mod_u32).
  split_and!; [by rewrite zset_length | lia | lia | lia | |].
  - rewrite Hw. by rewrite u32_add_l, Z.add_assoc.
  - intros j Hj. rewrite mod_u32. destruct (decide (j = zlen q)) as [->|Hne].
    + rewrite Hpos, zget_zset_eq, zget_snoc; [done|]. unfold zlen. rewrite Hd.
      apply Z.mod_pos_bound. done.
    + rewrite zget_app_l by lia. rewrite <- Hq by lia. rewrite mod_u32. apply zget_zset_ne.
      rewrite Hpos. unfold PIPESIZE in *. Z.to_euclidean_division_equations. lia.
Qed.

Lemma rep_drop k b q :
  pipe_rep k (b :: q) ->
  zget 0 (data k) (nread k mod PIPESIZE) = b /\ pipe_rep (drop_byte k) q.
Proof.
  intros (Hd & Hr & Hl & Hw & Hq). rewrite zlen_cons in *.
  pose proof (Zle_0_nat (length q)) as H0. fold (zlen q) in H0. split.
  - specialize (Hq 0). rewrite Z.add_0_r, mod_u32 in Hq. apply Hq. lia.
  - unfold pipe_rep. simpl. split_and!; [done | apply u32_range | apply u32_range | lia | |].
    + rewrite Hw, u32_add_l. f_equal. lia.
    + intros j Hj. rewrite u32_add_l. specialize (Hq (j + 1)).
      rewrite zget_cons_S in Hq by lia. rewrite <- Hq by lia. do 3 f_equal. lia.
Qed.

(** ** The operations under interference *)

Context {HLok : LensOk S core} {HTok : LensOk S pipetab} {Hsep : LensSep S core pipetab}.

Ltac plens :=
  repeat first [rewrite lget_lset | rewrite lsep_l | rewrite lsep_r | rewrite lset_lset];
  cbn [pipe_of set_pipe].

(** In state [s] the pipe [p] holds the bytes [q]. *)
Definition holds (s : S) (p : Z) (q : list Z) : Prop := pipe_rep (pipe_of (lget s) p) q.

(** Filling the free room takes no sleep. *)
Lemma pipewrite_loop_room fuel p bs : forall s q,
  holds s p q -> zlen q + zlen bs <= PIPESIZE ->
  exists t, pipewrite_loop (Datatypes.S fuel) p bs s = Ret true (lset t s) /\
    pipe_rep (pipe_of t p) (q ++ bs).
Proof.
  induction bs as [|b bs IH]; intros s q Hq Hr.
  - exists (lget s). rewrite lset_lget, app_nil_r. done.
  - rewrite zlen_cons in Hr. assert (0 <= zlen bs) by (unfold zlen; lia).
    cbn [pipewrite_loop pipewrite_wait].
    unfold pipe_get, pipe_mod. unfold mbind, M_bind. cbn [lgets lmod obind mret M_ret].
    rewrite (rep_full _ q Hq). replace (zlen q =? PIPESIZE) with false by lia.
    cbn [obind mret M_ret].
    edestruct (IH (lset (set_pipe p (put_byte b (pipe_of (lget s) p)) (lget s)) s) (q ++ [b]))
      as (t & Ht & Hrep).
    + unfold holds. plens. rewrite decide_True by done. apply rep_put; [done | lia].
    + rewrite zlen_app. change (zlen [b]) with 1. lia.
    + exists t. rewrite Ht, lset_lset. by rewrite <- app_assoc in Hrep.
Qed.

Lemma wp_my_killed s i L ie p (Q : bool -> S -> Prop) :
  core_ok (lget s) i L ie (Some p) ->
  (forall c', core_ok c' i L ie (Some p) -> same_procs (lget s) c' ->
     Q (killed (getp (lget s) p)) (lset c' s)) ->
  wp my_killed s Q.
Proof.
  intros Hc HQ. unfold my_killed. wp_step. eapply wp_myproc; [exact Hc|].
  intros c' Hc' Hs. unfold core_get. wp_step. rewrite lget_lset. simpl default.
  replace (killed (getp c' p)) with (killed (getp (lget s) p)); [auto|].
  destruct Hs as (Hp & _). unfold getp. by rewrite Hp.
Qed.

Lemma holds_core s (c : core) p q : holds (lset c s) p q <-> holds s p q.
Proof. unfold holds. by rewrite lsep_r. Qed.

(** What a process holding the pipe's lock knows. *)
Definition locked_by (s : S) (p : Z) (me : nat) (ie : bool) : Prop :=
  (exists i, core_ok (lget s) i [L_pipe p] ie (Some me)) /\ (me < length (procs (lget s)))%nat.

(** The end of the pipe is of no use any more to process [me]. *)
Definition hopeless (s : S) (p : Z) (me : nat) : Prop :=
  readopen (pipe_of (lget s) p) = false \/ killed (getp (lget s) me) = true.

Lemma sleep_on_pipe {T} (E : S -> S -> list T -> Prop) s p me ie ch t b sf :
  locked_by s p me ie -> (forall s1 s2 t, E s1 s2 t -> resumed me s2) ->
  runs E (sleep ch (L_pipe p) s) t b sf ->
  exists (c1 : core) s2 (c3 : core), E (lset c1 s) s2 t /\ sf = lset c3 s2 /\ locked_by sf p me ie.
Proof.
  intros [[i Hc] Hp] HE Hr. eapply runs_sleep_lock in Hr; [|done..].
  destruct Hr as (c1 & s2 & j & c3 & He & _ & -> & Hc3 & Hp3). exists c1, s2, c3.
  split_and!; [done | done |]. split; rewrite lget_lset; [eauto|].
  rewrite Hp3, length_alter. by destruct (HE _ _ _ He) as (? & ? & _ & ?).
Qed.

(** The environment of a writer: other processes may take bytes from the front. *)
Definition reader_env (p : Z) (me : nat) (s1 s2 : S) (taken : list Z) : Prop :=
  resumed me s2 /\ forall q, holds s1 p q -> exists q2, q = taken ++ q2 /\ holds s2 p q2.

Lemma locked_by_same s s' p me ie :
  (exists i, core_ok (lget s') i [L_pipe p] ie (Some me)) ->
  length (procs (lget s')) = length (procs (lget s)) -> locked_by s p me ie ->
  locked_by s' p me ie.
Proof. intros Hc Hl [_ Hp]. split; [done | by rewrite Hl]. Qed.

Lemma runs_pipewrite_wait fuel p me ie : forall s q t room sf,
  locked_by s p me ie -> holds s p q ->
  runs (reader_env p me) (pipewrite_wait fuel p s) t room sf ->
  exists q', locked_by sf p me ie /\ holds sf p q' /\ q = t ++ q' /\
    if room then zlen q' < PIPESIZE else hopeless sf p me.
Proof.
  induction fuel as [|fuel IH]; intros s q t room sf Hlk Hq Hr; cbn [pipewrite_wait] in Hr;
    [by inversion Hr|].
  apply runs_bind in Hr as (t1 & k & s1 & t2 & H1 & Hr & ->).
  apply runs_ret_inv in H1 as (-> & -> & ->). rewrite app_nil_l.
  rewrite (rep_full _ q Hq) in Hr. destruct (zlen q =? PIPESIZE) eqn:Ef; zbool.
  2:{ apply runs_ret_inv in Hr as (-> & -> & ->). exists q. split_and!; try done.
      destruct Hq as (_ & _ & Hl & _). lia. }
  destruct (readopen (pipe_of (lget s) p)) eqn:Er; cbn [negb] in Hr.
  2:{ apply runs_ret_inv in Hr as (-> & -> & ->). exists q. split_and!; try done. by left. }
  pose proof Hlk as [[i Hc] Hp].
  apply runs_bind in Hr as (t1 & dead & s1 & t3 & H1 & Hr & ->).
  eapply (runs_wp _ _ _ _ _ _ (fun d s' => exists c : core, s' = lset c s /\ d = killed (getp c me) /\
     core_ok c i [L_pipe p] ie (Some me) /\ procs c = procs (lget s)))
    in H1 as (-> & c1 & -> & -> & Hc1 & Hp1).
  2:{ eapply wp_my_killed; [exact Hc|]. intros c' Hc' (Hp' & _). exists c'. split_and!; try done.
      unfold getp. by rewrite Hp'. }
  rewrite app_nil_l. destruct (killed (getp c1 me)) eqn:Ek.
  { apply runs_ret_inv in Hr as (-> & -> & ->). exists q. rewrite holds_core.
    split_and!; [|done|done|].
    - eapply locked_by_same; [|by rewrite lget_lset, Hp1|done]. rewrite lget_lset. eauto.
    - right. by rewrite lget_lset. }
  apply runs_bind in Hr as (t1 & [] & s1 & t4 & H1 & Hr & ->).
  eapply (runs_wp _ _ _ _ _ _ (fun d s' => exists c : core, s' = lset c s /\
     core_ok c i [L_pipe p] ie (Some me) /\ length (procs c) = length (procs (lget s))))
    in H1 as (-> & c2 & -> & Hc2 & Hp2).
  2:{ eapply wp_wakeup; [by rewrite lget_lset | by intros ?%list_elem_of_singleton |].
      intros c' Hc' Hp'. rewrite lset_lset. exists c'. split_and!; try done.
      by rewrite Hp', length_fmap, lget_lset, Hp1. }
  rewrite app_nil_l. apply runs_bind in Hr as (t1 & [] & s1 & t5 & H1 & Hr & ->).
  eapply sleep_on_pipe in H1 as (c3 & s2 & c4 & HE & -> & Hlk4).
  2:{ eapply locked_by_same; [|by rewrite lget_lset|done]. rewrite lget_lset. eauto. }
  2:{ by intros ? ? ? []. }
  destruct HE as [_ HE]. destruct (HE q) as (q2 & -> & Hq2); [by rewrite !holds_core|].
  destruct (IH _ q2 _ _ _ Hlk4 (proj2 (holds_core _ _ _ _) Hq2) Hr) as (q' & Hlk' & Hq' & -> & Hroom).
  exists q'. by rewrite app_assoc.
Qed.

Lemma runs_pipewrite_loop fuel p me ie bs : forall s q t ok sf,
  locked_by s p me ie -> holds s p q ->
  runs (reader_env p me) (pipewrite_loop fuel p bs s) t ok sf ->
  exists q' n, locked_by sf p me ie /\ holds sf p q' /\ q ++ take n bs = t ++ q' /\
    if ok then n = length bs else (n < length bs)%nat /\ hopeless sf p me.
Proof.
  induction bs as [|b bs IH]; intros s q t ok sf Hlk Hq Hr; cbn [pipewrite_loop] in Hr.
  - apply runs_ret_inv in Hr as (-> & -> & ->). exists q, O. by rewrite app_nil_r.
  - apply runs_bind in Hr as (t1 & room & s1 & t2 & H1 & Hr & ->).
    eapply runs_pipewrite_wait in H1 as (q1 & Hlk1 & Hq1 & -> & Hroom); [|done..].
    destruct room.
    + apply runs_bind in Hr as (t3 & [] & s2 & t4 & H2 & Hr & ->).
      apply runs_ret_inv in H2 as (-> & _ & ->). rewrite app_nil_l.
      eapply (IH _ (q1 ++ [b])) in Hr as (q' & n & Hlk' & Hq' & Heq & Hok).
      * exists q', (Datatypes.S n). split_and!; [done | done | |].
        -- rewrite <- !app_assoc. f_equal. simpl. by rewrite <- Heq, <- app_assoc.
        -- destruct ok; [simpl; congruence | simpl; split; [lia | tauto]].
      * unfold locked_by. rewrite lsep_l. exact Hlk1.
      * unfold holds. plens. rewrite decide_True by done. by apply rep_put.
    + apply runs_ret_inv in Hr as (-> & -> & ->). exists q1, O.
      rewrite !app_nil_r. split_and!; [done.. | simpl; lia | done].
Qed.

(** Leaving the critical section. *)
Lemma wp_finish {A} s p me ie ch (r : A) :
  locked_by s p me ie ->
  wp (wakeup ch ;; release (L_pipe p) ;; mret r) s (fun a s' => a = r /\
    (exists i, core_ok (lget s') i [] ie (Some me)) /\ exists c : core, s' = lset c s).
Proof.
  intros [[i Hc] _]. wp_step.
  eapply wp_wakeup; [exact Hc | by intros ?%list_elem_of_singleton |]. intros c1 Hc1 _. wp_step.
  eapply wp_release; [by rewrite lget_lset|]. intros c2 Hc2 _. wp_step. rewrite lset_lset, lget_lset.
  eauto.
Qed.

Lemma wp_give_up {A} s p me ie (r : A) :
  locked_by s p me ie ->
  wp (release (L_pipe p) ;; mret r) s (fun a s' => a = r /\
    (exists i, core_ok (lget s') i [] ie (Some me)) /\
    exists c : core, s' = lset c s /\ procs c = procs (lget s)).
Proof.
  intros [[i Hc] _]. wp_step. eapply wp_release; [exact Hc|]. intros c2 Hc2 (Hp & _). wp_step.
  rewrite lget_lset. split_and!; eauto.
Qed.

Lemma wp_enter s i ie me p :
  core_ok (lget s) i [] ie (Some me) -> (me < length (procs (lget s)))%nat ->
  wp (acquire (L_pipe p)) s (fun _ s' => locked_by s' p me ie /\ exists c : core, s' = lset c s).
Proof.
  intros Hc Hp. eapply wp_acquire; [exact Hc | apply not_elem_of_nil |]. intros c1 Hc1 (Hp1 & _).
  split; [|eauto]. split; rewrite lget_lset; [eauto | by rewrite Hp1].
Qed.

(** C26: no byte is lost, duplicated or reordered in a pipe.  However readers
    interleave with a [pipewrite] of [bs] (each time it sleeps they take some bytes
    from the front of the pipe), the bytes taken followed by what the pipe holds at
    the end are what it held before followed by [bs], if the call returns its
    length; it returns -1 only if the read end is closed or the process killed, and
    then a proper prefix of [bs] was written.  If there is room for [bs], the call
    returns without sleeping. *)
Theorem pipewrite_stream (s : S) p me ie i q bs fuel :
  core_ok (lget s) i [] ie (Some me) -> (me < length (procs (lget s)))%nat -> holds s p q ->
  (forall t r sf, runs (reader_env p me) (pipewrite fuel p bs s) t r sf ->
     exists q', holds sf p q' /\ (exists j, core_ok (lget sf) j [] ie (Some me)) /\
       ((r = zlen bs /\ q ++ bs = t ++ q') \/
        (r = -1 /\ hopeless sf p me /\
         exists n, (n < length bs)%nat /\ q ++ take n bs = t ++ q'))) /\
  (zlen q + zlen bs <= PIPESIZE -> (0 < fuel)%nat ->
     exists sf, pipewrite fuel p bs s = Ret (zlen bs) sf /\ holds sf p (q ++ bs)).
Proof.
  intros Hc Hp Hq. pose proof (wp_enter s i ie me p Hc Hp) as Hen. unfold pipewrite. split.
  - intros t r sf Hr. apply runs_bind in Hr as (t1 & [] & s1 & t2 & H1 & Hr & ->).
    apply (runs_wp _ _ _ _ _ _ _ H1) in Hen as (-> & Hlk & c1 & ->). rewrite app_nil_l.
    apply runs_bind in Hr as (t1 & ok & s2 & t3 & H2 & Hr & ->).
    eapply runs_pipewrite_loop in H2 as (q' & n & Hlk2 & Hq2 & Heq & Hok);
      [|exact Hlk | apply holds_core; exact Hq].
    destruct ok; [subst n|].
    + eapply runs_wp in Hr; [|by apply wp_finish].
      destruct Hr as (-> & -> & Hcf & c & ->). exists q'. rewrite app_nil_r, holds_core.
      rewrite firstn_all in Heq. eauto.
    + eapply runs_wp in Hr; [|by apply wp_give_up].
      destruct Hr as (-> & -> & Hcf & c & -> & Hpc). exists q'. rewrite app_nil_r, holds_core.
      split_and!; [done | done |]. right. destruct Hok as [Hn Hh]. split_and!; [done | | eauto].
      unfold hopeless, getp in *. rewrite lsep_r. rewrite lget_lset in *. by rewrite Hpc.
  - intros Hroom Hf. destruct fuel as [|fuel]; [lia|].
    destruct Hen as ([] & s1 & E1 & Hlk & c1 & ->).
    destruct (pipewrite_loop_room fuel p bs (lset c1 s) q) as (t & E2 & Hrep);
      [by apply holds_core | done |].
    rewrite (bind_ret _ _ _ _ _ E1), (bind_ret _ _ _ _ _ E2).
    destruct (wp_finish (lset t (lset c1 s)) p me ie (ch_piper p) (zlen bs))
      as (r & sf & E3 & -> & _ & c & ->); [unfold locked_by in *; by rewrite lsep_l|].
    eexists. split; [exact E3|]. apply holds_core. unfold holds. by rewrite lget_lset.
Qed.

(** ** Reading *)

Lemma piperead_loop_spec p n : forall s q,
  holds s p q ->
  exists t, piperead_loop n p s = Ret (take n q) (lset t s) /\
    pipe_rep (pipe_of t p) (drop n q) /\
    writeopen (pipe_of t p) = writeopen (pipe_of (lget s) p).
Proof.
  induction n as [|n IH]; intros s q Hq; cbn [piperead_loop].
  - exists (lget s). by rewrite lset_lget.
  - unfold pipe_get, pipe_mod. unfold mbind, M_bind. cbn [lgets lmod obind mret M_ret].
    rewrite (rep_empty _ q Hq). destruct q as [|b q].
    + exists (lget s). by rewrite lset_lget.
    + apply rep_drop in Hq as [Hb Hq]. change (zlen (b :: q) =? 0) with false. cbn [obind lmod]. rewrite Hb.
      edestruct (IH (lset (set_pipe p (drop_byte (pipe_of (lget s) p)) (lget s)) s) q)
        as (t & Ht & Hrep & Hw).
      * unfold holds. plens. by rewrite decide_True.
      * exists t. revert Hw. rewrite Ht. plens. rewrite decide_True by done. done.
Qed.

(** The environment of a reader: other processes may append bytes. *)
Definition writer_env (p : Z) (me : nat) (s1 s2 : S) (added : list Z) : Prop :=
  resumed me s2 /\ forall q, holds s1 p q -> holds s2 p (q ++ added).

Lemma runs_piperead_wait fuel p me ie : forall s q t ok sf,
  locked_by s p me ie -> holds s p q ->
  runs (writer_env p me) (piperead_wait fuel p s) t ok sf ->
  locked_by sf p me ie /\ holds sf p (q ++ t) /\
    if ok then q ++ t = [] -> writeopen (pipe_of (lget sf) p) = false
    else q ++ t = [] /\ killed (getp (lget sf) me) = true.
Proof.
  induction fuel as [|fuel IH]; intros s q t ok sf Hlk Hq Hr; cbn [piperead_wait] in Hr;
    [by inversion Hr|].
  apply runs_bind in Hr as (t1 & k & s1 & t2 & H1 & Hr & ->).
  apply runs_ret_inv in H1 as (-> & -> & ->). rewrite app_nil_l.
  rewrite (rep_empty _ q Hq) in Hr.
  destruct ((zlen q =? 0) && writeopen (pipe_of (lget s) p)) eqn:Ew.
  2:{ apply runs_ret_inv in Hr as (-> & -> & ->). rewrite app_nil_r. split_and!; [done | done |].
      intros ->. done. }
  apply andb_true_iff in Ew as [Ez Ew]. zbool. destruct q; [|unfold zlen in Ez; simpl in Ez; lia].
  pose proof Hlk as [[i Hc] Hp].
  apply runs_bind in Hr as (t1 & dead & s1 & t3 & H1 & Hr & ->).
  eapply (runs_wp _ _ _ _ _ _ (fun d s' => exists c : core, s' = lset c s /\ d = killed (getp c me) /\
     core_ok c i [L_pipe p] ie (Some me) /\ procs c = procs (lget s)))
    in H1 as (-> & c1 & -> & -> & Hc1 & Hp1).
  2:{ eapply wp_my_killed; [exact Hc|]. intros c' Hc' (Hp' & _). exists c'. split_and!; try done.
      unfold getp. by rewrite Hp'. }
  assert (Hlk1 : locked_by (lset c1 s) p me ie).
  { eapply locked_by_same; [|by rewrite lget_lset, Hp1|done]. rewrite lget_lset. eauto. }
  rewrite !app_nil_l. destruct (killed (getp c1 me)) eqn:Ek.
  { apply runs_ret_inv in Hr as (-> & -> & ->). rewrite holds_core, lget_lset. done. }
  apply runs_bind in Hr as (t1 & [] & s1 & t5 & H1 & Hr & ->).
  eapply sleep_on_pipe in H1 as (c3 & s2 & c4 & HE & -> & Hlk4); [|done|by intros ? ? ? []].
  destruct HE as [_ HE]. specialize (HE []). rewrite app_nil_l in HE.
  apply (IH _ t1 _ _ _ Hlk4); [|done]. apply holds_core, HE. by rewrite !holds_core.
Qed.

(** C27: a [piperead] of [n] bytes, however writers interleave with its sleeps
    (they append [t] in total), returns the first bytes of the stream: what the
    pipe held and what was appended is what the call returns followed by what the
    pipe holds after it.  It returns 0 bytes only at end of file (an empty pipe with
    its write end closed) or for [n = 0], and -1 only to a killed process, with
    nothing taken.  With bytes in the pipe, or its write end closed, it returns
    [min n (length q)] of them without sleeping. *)
Theorem piperead_stream (s : S) p me ie i q n fuel :
  core_ok (lget s) i [] ie (Some me) -> (me < length (procs (lget s)))%nat -> holds s p q ->
  (forall t r out sf, runs (writer_env p me) (piperead fuel p n s) t (r, out) sf ->
     exists q', holds sf p q' /\ (exists j, core_ok (lget sf) j [] ie (Some me)) /\
       ((r = zlen out /\ (length out <= n)%nat /\ q ++ t = out ++ q' /\
         (out = [] -> n = O \/ q' = [] /\ writeopen (pipe_of (lget sf) p) = false)) \/
        (r = -1 /\ out = [] /\ q ++ t = [] /\ q' = [] /\ killed (getp (lget sf) me) = true))) /\
  (q <> [] \/ writeopen (pipe_of (lget s) p) = false -> (0 < fuel)%nat ->
     exists sf, piperead fuel p n s = Ret (zlen (take n q), take n q) sf /\ holds sf p (drop n q)).
Proof.
  intros Hc Hp Hq. pose proof (wp_enter s i ie me p Hc Hp) as Hen. unfold piperead. split.
  - intros t r out sf Hr. apply runs_bind in Hr as (t1 & [] & s1 & t2 & H1 & Hr & ->).
    apply (runs_wp _ _ _ _ _ _ _ H1) in Hen as (-> & Hlk & c1 & ->). rewrite app_nil_l.
    apply runs_bind in Hr as (t1 & ok & s2 & t3 & H2 & Hr & ->).
    eapply runs_piperead_wait in H2 as (Hlk2 & Hq2 & Hok);
      [|exact Hlk | apply holds_core; exact Hq].
    destruct ok.
    + destruct (piperead_loop_spec p n s2 (q ++ t1) Hq2) as (tb & E2 & Hrep & Hw).
      rewrite (bind_ret _ _ _ _ _ E2) in Hr.
      eapply runs_wp in Hr;
        [|apply (wp_finish _ p me ie); unfold locked_by in *; by rewrite lsep_l].
      destruct Hr as (-> & [= -> ->] & Hcf & c & ->). exists (drop n (q ++ t1)).
      rewrite app_nil_r, holds_core. split_and!; [by unfold holds; rewrite lget_lset | done |].
      left. split_and!; [done | apply firstn_le_length | by rewrite take_drop |].
      rewrite lsep_r, lget_lset, Hw. destruct n; [tauto|]. destruct (q ++ t1) eqn:Eq; [|done].
      intros _. right. split; [done | by apply Hok].
    + eapply runs_wp in Hr; [|by apply wp_give_up].
      destruct Hr as (-> & [= -> ->] & Hcf & c & -> & Hpc). rewrite app_nil_r.
      destruct Hok as [Hnil Hk]. exists []. rewrite holds_core. rewrite Hnil in Hq2.
      split_and!; [done | done |]. right. unfold getp in *. rewrite !lget_lset in *.
      by rewrite Hpc.
  - intros Hne Hf. destruct fuel as [|fuel]; [lia|].
    destruct Hen as ([] & s1 & E1 & Hlk & c1 & ->).
    assert (E2 : piperead_wait (Datatypes.S fuel) p (lset c1 s) = Ret true (lset c1 s)).
    { cbn [piperead_wait]. unfold mbind, M_bind, pipe_get. cbn [lgets obind]. rewrite lsep_r.
      rewrite (rep_empty _ q Hq). destruct Hne as [Hne| ->]; [|by rewrite andb_false_r].
      by destruct q. }
    destruct (piperead_loop_spec p n (lset c1 s) q) as (t & E3 & Hrep & _);
      [by apply holds_core |].
    rewrite (bind_ret _ _ _ _ _ E1), (bind_ret _ _ _ _ _ E2), (bind_ret _ _ _ _ _ E3).
    destruct (wp_finish (lset t (lset c1 s)) p me ie (ch_pipew p) (zlen (take n q), take n q))
      as (r & sf & E4 & -> & _ & c & ->); [unfold locked_by in *; by rewrite lsep_l|].
    eexists. split; [exact E4|]. apply holds_core. unfold holds. by rewrite lget_lset.
Qed.

End Ops.

(** A pipe that holds two bytes, its counters about to wrap around. *)
Definition ring : pipe :=
  {| data := 8 :: replicate 510 0 ++ [7]; nread := 2 ^ 32 - 1; nwrite := 1; readopen := true;
     writeopen := true |}.
Abbreviation pst := (core * pipetab)%type.
Definition with_ring : pst := (boot_core, {| pipe_of := fun _ => ring |}).

Lemma ring_rep : pipe_rep ring [7; 8].
Proof.
  split_and!; [done | done | done | done | done |]. intros j Hj.
  assert (j = 0 \/ j = 1) as [-> | ->] by (unfold zlen in Hj; simpl in Hj; lia); done.
Qed.

Lemma pipewrite_stream_witness :
  exists sf, pipewrite 1 0 [1; 2; 3] with_ring = Ret 3 sf /\ holds sf 0 [7; 8; 1; 2; 3].
Proof.
  apply (pipewrite_stream (S := pst) with_ring 0 0 true 0 [7; 8] [1; 2; 3] 1);
    [exact boot_ok | vm_compute; lia | exact ring_rep | vm_compute; discriminate | lia].
Defined.

Lemma piperead_stream_witness :
  exists sf, piperead 1 0 9 with_ring = Ret (2, [7; 8]) sf /\ holds sf 0 [].
Proof.
  apply (piperead_stream (S := pst) with_ring 0 0 true 0 [7; 8] 9 1);
    [exact boot_ok | vm_compute; lia | exact ring_rep | by left | lia].
Defined.

End Pipe.
