(* ===== verification/Bio.v ===== *)
(** * Blocks: the buffer cache of bio.c on the memory disk of memide.c

    The cache keeps NBUF buffers in a doubly linked list, most recently used
    first.  Components above it use the interface [BlockLayer]. *)

From stdpp Require Import base gmap list strings.
From Stdlib Require Import ZArith Lia.
From S2P Require Import Prelude Core Locking.
Import Sleeplock.

Definition BSIZE : Z := 512.
Definition NBUF : nat := 30.
Definition ROOTDEV : Z := 1.
Definition B_VALID : Z := 2.
Definition B_DIRTY : Z := 4.

Abbreviation block := (list Z).

(** ** The interface

    A view of the block layer: the contents of the disk, the contents its users
    see, the blocks that are pinned in the cache, the buffers this process holds
    with their block numbers, the block writes so far, the size of the disk. *)
Record bview : Type := {
  v_disk : Z -> block;
  v_data : Z -> block;
  v_pin : gset Z;
  v_held : list (nat * Z);
  v_trace : list (Z * block);
  v_size : Z
}.

Definition v_hold (b : nat) (n : Z) (v : bview) : bview :=
  {| v_disk := v_disk v; v_data := v_data v; v_pin := v_pin v; v_held := (b, n) :: v_held v;
     v_trace := v_trace v; v_size := v_size v |}.
Definition v_setheld (h : list (nat * Z)) (v : bview) : bview :=
  {| v_disk := v_disk v; v_data := v_data v; v_pin := v_pin v; v_held := h;
     v_trace := v_trace v; v_size := v_size v |}.
Definition v_modify (n : Z) (d : block) (v : bview) : bview :=
  {| v_disk := v_disk v; v_data := fupd n d (v_data v); v_pin := v_pin v; v_held := v_held v;
     v_trace := v_trace v; v_size := v_size v |}.
Definition v_setpin (n : Z) (v : bview) : bview :=
  {| v_disk := v_disk v; v_data := v_data v; v_pin := {[n]} ∪ v_pin v; v_held := v_held v;
     v_trace := v_trace v; v_size := v_size v |}.
Definition v_write (n : Z) (v : bview) : bview :=
  {| v_disk := fupd n (v_data v n) (v_disk v); v_data := v_data v; v_pin := v_pin v ∖ {[n]};
     v_held := v_held v; v_trace := v_trace v ++ [(n, v_data v n)]; v_size := v_size v |}.

(** Views that agree on every block are the same to a client. *)
Definition v_equiv (v w : bview) : Prop :=
  (forall n, v_disk v n = v_disk w n) /\ (forall n, v_data v n = v_data w n) /\
  v_pin v = v_pin w /\ v_held v = v_held w /\ v_trace v = v_trace w /\ v_size v = v_size w.
#[export] Instance bview_equiv : Equiv bview := v_equiv.
#[export] Instance bview_equivalence : Equivalence (≡@{bview}).
Proof.
  split.
  - by intros v.
  - intros v w (?&?&?&?&?&?). by split_and!; intros; symmetry.
  - intros v w x (?&?&?&?&?&?) (?&?&?&?&?&?). split_and!; intros; etrans; eauto.
Qed.

Definition block_ok (d : block) : Prop := length d = 512%nat /\ Forall (fun x => 0 <= x < 256) d.

Class BlockLayer (B : Type) : Type := {
  bl_bread : Z -> Z -> M B nat;        (* bread(dev, blockno) *)
  bl_bwrite : nat -> M B unit;
  bl_brelse : nat -> M B unit;
  bl_data : nat -> M B block;          (* b->data *)
  bl_setdata : nat -> block -> M B unit;
  bl_blockno : nat -> M B Z;           (* b->blockno *)
  bl_pin : nat -> M B unit             (* b->flags |= B_DIRTY *)
}.

(** [bl_ok s L v]: [v] is the view of state [s] for a process that holds the spin
    locks [L]. *)
Class BlockLaws (B : Type) `{Lens B core} `{BlockLayer B} : Type := {
  bl_cpu : nat;
  bl_ie : bool;
  bl_me : nat;
  bl_ok : B -> list lockid -> bview -> Prop;
  bl_ok_equiv s L v w : v ≡ w -> bl_ok s L v -> bl_ok s L w;
  bl_ok_core s L v : bl_ok s L v ->
    core_ok (lget s) bl_cpu L bl_ie (Some bl_me) /\ (bl_me < length (procs (lget s)))%nat;
  bl_ok_frame s L L' v c :
    bl_ok s L v -> core_ok c bl_cpu L' bl_ie (Some bl_me) ->
    pid <$> procs c = pid <$> procs (lget s) -> bl_ok (lset c s) L' v;
  bl_ok_blocks s L v n :
    bl_ok s L v -> 0 <= n < v_size v -> block_ok (v_data v n) /\ block_ok (v_disk v n);
  bl_ok_clean s L v n :
    bl_ok s L v -> 0 <= n < v_size v -> n ∉ v_pin v -> n ∉ (v_held v).*2 ->
    v_data v n = v_disk v n;
  bl_bread_law s v n (Q : nat -> B -> Prop) :
    bl_ok s [] v -> 0 <= n < v_size v -> n ∉ (v_held v).*2 ->
    n ∈ v_pin v \/ (size (v_pin v) + length (v_held v) < NBUF)%nat ->
    (forall b s', bl_ok s' [] (v_hold b n v) -> Q b s') -> wp (bl_bread ROOTDEV n) s Q;
  bl_bwrite_law s v b n (Q : unit -> B -> Prop) :
    bl_ok s [] v -> (b, n) ∈ v_held v ->
    (forall s', bl_ok s' [] (v_write n v) -> Q tt s') -> wp (bl_bwrite b) s Q;
  bl_brelse_law s v b n H1 H2 (Q : unit -> B -> Prop) :
    bl_ok s [] v -> v_held v = H1 ++ (b, n) :: H2 ->
    n ∈ v_pin v \/ v_data v n = v_disk v n ->
    (forall s', bl_ok s' [] (v_setheld (H1 ++ H2) v) -> Q tt s') -> wp (bl_brelse b) s Q;
  bl_data_law s L v b n (Q : block -> B -> Prop) :
    bl_ok s L v -> (b, n) ∈ v_held v -> Q (v_data v n) s -> wp (bl_data b) s Q;
  bl_setdata_law s L v b n d (Q : unit -> B -> Prop) :
    bl_ok s L v -> (b, n) ∈ v_held v -> block_ok d ->
    (forall s', bl_ok s' L (v_modify n d v) -> Q tt s') -> wp (bl_setdata b d) s Q;
  bl_blockno_law s L v b n (Q : Z -> B -> Prop) :
    bl_ok s L v -> (b, n) ∈ v_held v -> Q n s -> wp (bl_blockno b) s Q;
  bl_pin_law s L v b n (Q : unit -> B -> Prop) :
    bl_ok s L v -> (b, n) ∈ v_held v ->
    (forall s', bl_ok s' L (v_setpin n v) -> Q tt s') -> wp (bl_pin b) s Q
}.

Module Bio.

(** [struct buf]; [prev] and [next] are indices, the list head is number [NBUF].
    [qnext] belongs to the interrupt-driven driver. *)
Record buf : Type := {
  flags : Z;
  dev : Z;
  blockno : Z;
  refcnt : Z;
  prev : nat;
  next : nat;
  bdata : block
}.

Record bcache : Type := { buf_of : nat -> buf }.

(** The disk: its blocks, and the blocks written to it so far, in order. *)
Record disk : Type := {
  disksize : Z;
  blocks : Z -> block;
  trace : list (Z * block)
}.

Definition bhead : nat := NBUF.

Definition set_flags (f : Z) (k : buf) : buf :=
  {| flags := f; dev := dev k; blockno := blockno k; refcnt := refcnt k; prev := prev k;
     next := next k; bdata := bdata k |}.
Definition set_refcnt (n : Z) (k : buf) : buf :=
  {| flags := flags k; dev := dev k; blockno := blockno k; refcnt := n; prev := prev k;
     next := next k; bdata := bdata k |}.
Definition set_prev (n : nat) (k : buf) : buf :=
  {| flags := flags k; dev := dev k; blockno := blockno k; refcnt := refcnt k; prev := n;
     next := next k; bdata := bdata k |}.
Definition set_next (n : nat) (k : buf) : buf :=
  {| flags := flags k; dev := dev k; blockno := blockno k; refcnt := refcnt k; prev := prev k;
     next := n; bdata := bdata k |}.
Definition set_data (d : block) (k : buf) : buf :=
  {| flags := flags k; dev := dev k; blockno := blockno k; refcnt := refcnt k; prev := prev k;
     next := next k; bdata := d |}.

Definition upd_buf (b : nat) (f : buf -> buf) (c : bcache) : bcache :=
  {| buf_of := fun b' => if decide (b' = b) then f (buf_of c b') else buf_of c b' |}.

(** The sleep lock of buffer [b]. *)
Definition blk (b : nat) : Z := Z.of_nat b.

Definition has (f bit : Z) : bool := negb (Z.land f bit =? 0).

(** A disk driver: both memide.c and ide.c define [iderw]. *)
Class IdeDriver (S : Type) : Type := { iderw : nat -> M S unit }.

Section Ops.
Context {S : Type} {HL : Lens S core} {HT : Lens S slocktab} {HB : Lens S bcache}
  {HD : IdeDriver S}.

Definition getbuf (b : nat) : M S buf := lgets (T := bcache) (fun c => buf_of c b).
Definition modbuf (b : nat) (f : buf -> buf) : M S unit := lmod (T := bcache) (upd_buf b f).

(** [b->next = head.next; b->prev = &head; head.next->prev = b; head.next = b] *)
Definition link_head (b : nat) (c : bcache) : bcache :=
  let c := upd_buf b (set_next (next (buf_of c bhead))) c in
  let c := upd_buf b (set_prev bhead) c in
  let c := upd_buf (next (buf_of c bhead)) (set_prev b) c in
  upd_buf bhead (set_next b) c.

(** [b->next->prev = b->prev; b->prev->next = b->next] *)
Definition unlink (b : nat) (c : bcache) : bcache :=
  let c := upd_buf (next (buf_of c b)) (set_prev (prev (buf_of c b))) c in
  upd_buf (prev (buf_of c b)) (set_next (next (buf_of c b))) c.

Definition binit : M S unit :=
  initlock L_bcache;;
  modbuf bhead (set_prev bhead);;
  modbuf bhead (set_next bhead);;
  for_each (fun b =>
    lmod (T := bcache) (fun c =>
      upd_buf b (set_prev bhead) (upd_buf b (set_next (next (buf_of c bhead))) c));;
    initsleeplock (blk b);;
    lmod (T := bcache) (fun c =>
      upd_buf bhead (set_next b) (upd_buf (next (buf_of c bhead)) (set_prev b) c)))
    (seq 0 NBUF).

(** The two scans of [bget], from buffer [b] along [next] or [prev]. *)
Fixpoint scan (step : buf -> nat) (p : buf -> bool) (c : bcache) (fuel : nat) (b : nat) : option nat :=
  match fuel with
  | O => None
  | Datatypes.S f =>
      if decide (b = bhead) then None
      else if p (buf_of c b) then Some b else scan step p c f (step (buf_of c b))
  end.

Definition is_block (d n : Z) (k : buf) : bool := (dev k =? d) && (blockno k =? n).
Definition is_unused (k : buf) : bool := (refcnt k =? 0) && negb (has (flags k) B_DIRTY).

(** The scans visit at most NBUF buffers and the head. *)
Definition scan_fuel : nat := Datatypes.S NBUF.

(** [fuel] bounds the wakeups of [acquiresleep]. *)
Definition bget (fuel : nat) (d n : Z) : M S nat :=
  acquire L_bcache;;
  hit ← lgets (T := bcache) (fun c => scan next (is_block d n) c scan_fuel (next (buf_of c bhead)));
  match hit with
  | Some b =>
      modbuf b (fun k => set_refcnt (refcnt k +u 1) k);;
      release L_bcache;;
      acquiresleep fuel (blk b);;
      mret b
  | None =>
      free ← lgets (T := bcache) (fun c => scan prev is_unused c scan_fuel (prev (buf_of c bhead)));
      match free with
      | Some b =>
          modbuf b (fun k => {| flags := 0; dev := d; blockno := n; refcnt := 1;
                                prev := prev k; next := next k; bdata := bdata k |});;
          release L_bcache;;
          acquiresleep fuel (blk b);;
          mret b
      | None => panic "bget: no buffers"
      end
  end.

Definition bread (fuel : nat) (d n : Z) : M S nat :=
  b ← bget fuel d n;
  k ← getbuf b;
  (if has (flags k) B_VALID then mret tt else iderw b);;
  mret b.

Definition bwrite (b : nat) : M S unit :=
  h ← holdingsleep (blk b);
  if negb h then panic "bwrite"
  else
    modbuf b (fun k => set_flags (Z.lor (flags k) B_DIRTY) k);;
    iderw b.

Definition brelse (b : nat) : M S unit :=
  h ← holdingsleep (blk b);
  if negb h then panic "brelse"
  else
    releasesleep (blk b);;
    acquire L_bcache;;
    modbuf b (fun k => set_refcnt (refcnt k -u 1) k);;
    k ← getbuf b;
    (if refcnt k =? 0 then
       lmod (T := bcache) (fun c => link_head b (unlink b c))
     else mret tt);;
    release L_bcache.

End Ops.

(** ** memide.c *)

Section Memide.
Context {S : Type} {HL : Lens S core} {HT : Lens S slocktab} {HB : Lens S bcache}
  {HK : Lens S disk}.

Definition disk_write (n : Z) (d : block) (k : disk) : disk :=
  {| disksize := disksize k; blocks := fupd n d (blocks k); trace := trace k ++ [(n, d)] |}.

Definition mem_iderw (b : nat) : M S unit :=
  h ← holdingsleep (blk b);
  if negb h then panic "iderw: buf not locked"
  else
    k ← getbuf b;
    if Z.land (flags k) (Z.lor B_VALID B_DIRTY) =? B_VALID then panic "iderw: nothing to do"
    else if negb (dev k =? 1) then panic "iderw: request not for disk 1"
    else
      size ← lgets (T := disk) disksize;
      if size <=? blockno k then panic "iderw: block out of range"
      else
        (if has (flags k) B_DIRTY then
           modbuf b (fun k => set_flags (Z.ldiff (flags k) B_DIRTY) k);;
           lmod (T := disk) (disk_write (blockno k) (bdata k))
         else
           data ← lgets (T := disk) (fun d => blocks d (blockno k));
           modbuf b (set_data data));;
        modbuf b (fun k => set_flags (Z.lor (flags k) B_VALID) k).

#[export] Instance memide : IdeDriver S := {| iderw := mem_iderw |}.

End Memide.
(** ** The list of buffers *)

(** Following [nx] from [a] visits [l] and arrives at [z]. *)
Fixpoint path (nx : nat -> nat) (a : nat) (l : list nat) (z : nat) : Prop :=
  match l with
  | [] => nx a = z
  | x :: l' => nx a = x /\ path nx x l' z
  end.

Definition nupd (a v : nat) (f : nat -> nat) : nat -> nat :=
  fun x => if decide (x = a) then v else f x.

Fixpoint lastd (a : nat) (l : list nat) : nat :=
  match l with [] => a | x :: l' => lastd x l' end.

Lemma lastd_in a l : lastd a l ∈ a :: l.
Proof.
  revert a. induction l as [|x l IH]; intros a; simpl; [by left|]. right. apply IH.
Qed.

Lemma path_ext nx nx' l : forall a z,
  (forall y, y ∈ a :: l -> nx' y = nx y) -> path nx a l z -> path nx' a l z.
Proof.
  induction l as [|x l IH]; intros a z He Hp; simpl in *.
  - rewrite He; [done | by left].
  - destruct Hp as [<- Hp]. split; [apply He; by left|]. apply IH; [|done].
    intros y Hy. apply He. by right.
Qed.

Lemma path_lastd nx l : forall a z, path nx a l z -> nx (lastd a l) = z.
Proof. induction l as [|x l IH]; intros a z Hp; simpl in *; [done|]. apply IH, Hp. Qed.

Lemma path_app nx l1 x l2 : forall a z,
  path nx a (l1 ++ x :: l2) z <-> path nx a l1 x /\ path nx x l2 z.
Proof.
  induction l1 as [|y l1 IH]; intros a z; simpl; [done|]. rewrite IH. tauto.
Qed.

(** Taking an element out. *)
Lemma path_skip nx l1 x l2 : forall a z,
  NoDup (a :: l1 ++ x :: l2) -> path nx a (l1 ++ x :: l2) z ->
  path (nupd (lastd a l1) (nx x) nx) a (l1 ++ l2) z.
Proof.
  induction l1 as [|y l1 IH]; intros a z HN Hp.
  - apply NoDup_cons in HN as [Hni HN]. destruct Hp as [Ha Hp]. simpl.
    assert (Hne : forall y, y ∈ l2 -> nupd a (nx x) nx y = nx y).
    { intros y Hy. unfold nupd. rewrite decide_False; [done|]. intros ->. apply Hni. by right. }
    destruct l2 as [|y l2]; simpl in *.
    + unfold nupd. by rewrite decide_True.
    + destruct Hp as [<- Hp]. split; [unfold nupd; by rewrite decide_True|].
      eapply path_ext; [|done]. done.
  - simpl in *. apply NoDup_cons in HN as [Hni HN]. destruct Hp as [<- Hp]. split.
    + unfold nupd. rewrite decide_False; [done|]. intros He. apply Hni.
      pose proof (lastd_in (nx a) l1) as Hin. rewrite <- He, elem_of_cons in Hin.
      rewrite elem_of_cons. destruct Hin as [Hin|Hin]; [by left | right; apply elem_of_app; by left].
    + by apply IH.
Qed.

(** Putting an element in front. *)
Lemma path_front nx a l z x :
  x ∉ a :: l -> a ∉ l -> path nx a l z -> path (nupd a x (nupd x (nx a) nx)) a (x :: l) z.
Proof.
  intros Hx Ha Hp. assert (x <> a) by (intros ->; apply Hx; by left).
  simpl. split; [unfold nupd; by rewrite decide_True|].
  destruct l as [|y l]; simpl in *.
  - unfold nupd. rewrite decide_False by done. by rewrite decide_True.
  - destruct Hp as [<- Hp]. split.
    + unfold nupd. rewrite decide_False by done. by rewrite decide_True.
    + eapply path_ext; [|done]. intros y Hy. unfold nupd.
      rewrite decide_False by (intros ->; done).
      rewrite decide_False; [done|]. intros ->. apply Hx. by right.
Qed.

(** [prev] inverts [next] along the list. *)
Definition ring (c : bcache) (l : list nat) : Prop :=
  l ≡ₚ seq 0 NBUF /\
  path (fun b => next (buf_of c b)) bhead l bhead /\
  forall b, b ∈ bhead :: l -> prev (buf_of c (next (buf_of c b))) = b.

Lemma path_back nx pv l : forall a z,
  (forall b, b ∈ a :: l -> pv (nx b) = b) -> path nx a l z -> path pv z (rev l) a.
Proof.
  induction l as [|x l IH]; intros a z Hinv Hp; simpl in *.
  - rewrite <- Hp. apply Hinv. by left.
  - destruct Hp as [<- Hp]. apply path_app. split.
    + apply IH; [|done]. intros b Hb. apply Hinv. by right.
    + simpl. apply Hinv. by left.
Qed.

Lemma ring_nodup c l : ring c l -> NoDup (bhead :: l) /\ length l = NBUF.
Proof.
  intros [HP _]. split; [|by rewrite HP].
  constructor; [rewrite HP; intros Hin%elem_of_seq; unfold bhead in *; lia|].
  rewrite HP. apply NoDup_seq.
Qed.

Lemma ring_elem c l b : ring c l -> b ∈ l <-> (b < NBUF)%nat.
Proof. intros [HP _]. rewrite HP, elem_of_seq. lia. Qed.

Lemma scan_path step p c l : forall a fuel,
  path (fun b => step (buf_of c b)) a l bhead -> bhead ∉ l -> (length l < fuel)%nat ->
  scan step p c fuel (step (buf_of c a)) = List.find (fun b => p (buf_of c b)) l.
Proof.
  induction l as [|x l IH]; intros a fuel Hp Hh Hf; destruct fuel as [|fuel]; simpl in *;
    try lia.
  - by rewrite Hp, decide_True.
  - destruct Hp as [-> Hp]. rewrite decide_False by (intros ->; apply Hh; by left).
    destruct (p (buf_of c x)); [done|]. apply IH; [done | | lia].
    intros Hin. apply Hh. by right.
Qed.

Lemma find_iff (f : nat -> bool) l :
  match List.find f l with
  | Some b => b ∈ l /\ f b = true
  | None => forall b, b ∈ l -> f b = false
  end.
Proof.
  destruct (List.find f l) as [b|] eqn:E.
  - apply List.find_some in E as [? ?]. split; [by apply list_elem_of_In | done].
  - intros b Hb. eapply List.find_none; [done | by apply list_elem_of_In].
Qed.

Definition nexts (c : bcache) (b : nat) : nat := next (buf_of c b).
Definition prevs (c : bcache) (b : nat) : nat := prev (buf_of c b).

Lemma nexts_set_prev a v c b : nexts (upd_buf a (set_prev v) c) b = nexts c b.
Proof. unfold nexts. simpl. by case_decide. Qed.
Lemma nexts_set_next a v c b : nexts (upd_buf a (set_next v) c) b = nupd a v (nexts c) b.
Proof. unfold nexts, nupd. simpl. by case_decide. Qed.
Lemma prevs_set_prev a v c b : prevs (upd_buf a (set_prev v) c) b = nupd a v (prevs c) b.
Proof. unfold prevs, nupd. simpl. by case_decide. Qed.
Lemma prevs_set_next a v c b : prevs (upd_buf a (set_next v) c) b = prevs c b.
Proof. unfold prevs. simpl. by case_decide. Qed.

Lemma unlink_links x c b :
  nexts (unlink x c) b = nupd (prevs c x) (nexts c x) (nexts c) b /\
  prevs (unlink x c) b = nupd (nexts c x) (prevs c x) (prevs c) b.
Proof.
  unfold unlink. fold (nexts c x) (prevs c x).
  set (c1 := upd_buf (nexts c x) (set_prev (prevs c x)) c).
  fold (prevs c1 x) (nexts c1 x). rewrite nexts_set_next, prevs_set_next.
  unfold c1. rewrite !prevs_set_prev, nexts_set_prev. split; [|done].
  replace (nupd (nexts c x) (prevs c x) (prevs c) x) with (prevs c x)
    by (unfold nupd; by case_decide).
  unfold nupd. by rewrite nexts_set_prev.
Qed.

Lemma link_links x c b :
  x <> bhead ->
  nexts (link_head x c) b = nupd bhead x (nupd x (nexts c bhead) (nexts c)) b /\
  prevs (link_head x c) b = nupd (nexts c bhead) x (nupd x bhead (prevs c)) b.
Proof.
  intros Hx. unfold link_head. fold (nexts c bhead).
  set (c1 := upd_buf x (set_next (nexts c bhead)) c).
  set (c2 := upd_buf x (set_prev bhead) c1). fold (nexts c2 bhead).
  rewrite nexts_set_next, prevs_set_next, prevs_set_prev.
  assert (H2 : forall y, nexts c2 y = nupd x (nexts c bhead) (nexts c) y)
    by (intros y; unfold c2, c1; by rewrite nexts_set_prev, nexts_set_next).
  assert (Hp : forall y, prevs c2 y = nupd x bhead (prevs c) y).
  { intros y. unfold c2, c1. rewrite prevs_set_prev. unfold nupd. by rewrite prevs_set_next. }
  rewrite H2. replace (nupd x (nexts c bhead) (nexts c) bhead) with (nexts c bhead)
    by (unfold nupd; by rewrite decide_False).
  split; unfold nupd at 1; case_decide; unfold nupd at 1; try done.
  - by rewrite decide_True.
  - rewrite decide_False by done. by rewrite nexts_set_prev, H2.
  - by rewrite decide_True.
  - rewrite decide_False by done. by rewrite Hp.
Qed.

Lemma ring_same_links c c' l :
  (forall b, nexts c' b = nexts c b) -> (forall b, prevs c' b = prevs c b) ->
  ring c l -> ring c' l.
Proof.
  intros Hn Hp (H1 & H2 & H3). split_and!; [done | |].
  - eapply path_ext; [|done]. intros. apply Hn.
  - intros b Hb. fold (nexts c' b) (prevs c' (nexts c' b)). rewrite Hp, Hn. by apply H3.
Qed.

(** [next] runs through [l] and [prev] inverts it. *)
Definition linked (c : bcache) (l : list nat) : Prop :=
  NoDup (bhead :: l) /\ path (nexts c) bhead l bhead /\
  forall b, b ∈ bhead :: l -> prevs c (nexts c b) = b.

Lemma linked_ring c l : linked c l -> l ≡ₚ seq 0 NBUF -> ring c l.
Proof. by intros (_ & ? & ?). Qed.

Lemma linked_unlink c l1 x l2 : linked c (l1 ++ x :: l2) -> linked (unlink x c) (l1 ++ l2).
Proof.
  intros (HN & Hp & Hi).
  assert (Hpx : prevs c x = lastd bhead l1).
  { pose proof (proj1 (path_app _ _ _ _ _ _) Hp) as [Hp1 _]. apply path_lastd in Hp1.
    rewrite <- Hp1 at 1. apply Hi. pose proof (lastd_in bhead l1) as Hin.
    rewrite elem_of_cons, elem_of_app in *. tauto. }
  apply path_skip in Hp; [|done]. rewrite <- Hpx in Hp.
  assert (HP : bhead :: l1 ++ x :: l2 ≡ₚ x :: bhead :: l1 ++ l2).
  { rewrite <- Permutation_middle. apply perm_swap. }
  assert (Hxin : x ∈ bhead :: l1 ++ x :: l2) by (rewrite HP; by left).
  rewrite HP in HN. apply NoDup_cons in HN as [Hx HN].
  split_and!; [done | |].
  - eapply path_ext; [|exact Hp]. intros y _. apply unlink_links.
  - intros b Hb. rewrite (proj1 (unlink_links x c b)), (proj2 (unlink_links x c _)).
    assert (Hb' : b ∈ bhead :: l1 ++ x :: l2) by (rewrite HP; by right).
    unfold nupd. destruct (decide (b = prevs c x)) as [->|Hne]; [by rewrite decide_True|].
    rewrite decide_False; [by apply Hi|]. intros He. apply Hx.
    rewrite <- (Hi x Hxin), <- He, (Hi b Hb'). done.
Qed.

(** Along the list, [next] stays in the list. *)
Lemma path_next_in nx l : forall a z b, path nx a l z -> b ∈ a :: l -> nx b = z \/ nx b ∈ l.
Proof.
  induction l as [|x l IH]; intros a z b Hp Hb; simpl in *.
  - apply list_elem_of_singleton in Hb as ->. by left.
  - destruct Hp as [<- Hp]. apply elem_of_cons in Hb as [->|Hb].
    + right. by left.
    + destruct (IH _ _ b Hp Hb) as [?|?]; [by left | right; by right].
Qed.

Lemma linked_link c l x : linked c l -> x ∉ bhead :: l -> linked (link_head x c) (x :: l).
Proof.
  intros (HN & Hp & Hi) Hx. pose proof HN as [Hh _]%NoDup_cons.
  assert (Hxh : x <> bhead) by (intros ->; apply Hx; by left).
  assert (Hxn : forall b, b ∈ bhead :: l -> nexts c b <> x).
  { intros b Hb He. destruct (path_next_in _ _ _ _ b Hp Hb) as [E|E]; rewrite He in E;
      [congruence | apply Hx; by right]. }
  split_and!.
  - apply NoDup_cons. split; [rewrite elem_of_cons; intros [?|?]; congruence|].
    apply NoDup_cons. split; [intros ?; apply Hx; by right|]. by apply NoDup_cons in HN as [_ ?].
  - eapply path_ext; [|by apply path_front]. intros y _. by apply link_links.
  - intros b Hb. rewrite (proj1 (link_links x c b Hxh)), (proj2 (link_links x c _ Hxh)).
    destruct (decide (b = bhead)) as [->|Hbh].
    + unfold nupd. rewrite (decide_True (P := bhead = bhead)) by done.
      rewrite decide_False by (intros He; by apply (Hxn bhead); [by left|]).
      by rewrite decide_True.
    + destruct (decide (b = x)) as [->|Hbx].
      * unfold nupd. rewrite (decide_False (P := x = bhead)) by done.
        by rewrite (decide_True (P := x = x)), decide_True.
      * assert (Hb1 : b ∈ bhead :: l) by (rewrite !elem_of_cons in *; tauto).
        unfold nupd. rewrite (decide_False (P := b = bhead)), (decide_False (P := b = x)) by done.
        rewrite decide_False, decide_False; [by apply Hi | by apply Hxn |].
        intros He. apply Hbh. rewrite <- (Hi b Hb1), He. apply Hi. by left.
Qed.

(** Moving a buffer to the front. *)
Lemma ring_move c l x :
  ring c l -> (x < NBUF)%nat -> exists l', ring (link_head x (unlink x c)) l'.
Proof.
  intros Hr Hx. pose proof (ring_nodup _ _ Hr) as [HN _].
  assert (Hxl : x ∈ l) by (by eapply ring_elem).
  destruct Hr as (HP & Hp & Hinv).
  apply list_elem_of_split in Hxl as (l1 & l2 & ->).
  exists (x :: l1 ++ l2). apply linked_ring; [|by rewrite Permutation_middle].
  apply linked_link; [by apply linked_unlink|].
  rewrite <- Permutation_middle in HN. apply NoDup_cons in HN as [Hh HN].
  apply NoDup_cons in HN as [Hxn _]. rewrite elem_of_cons in *. intros [->|?]; [|done]. apply Hh. by left.
Qed.

End Bio.
