(* ===== verification/BioLaws.v ===== *)
(** * The buffer cache implements the block layer

    The invariant of the cache (one buffer per block, dirty buffers pinned, cached
    data agree with the disk unless they are pinned or held) and the laws of
    [BlockLaws] for [bread], [bwrite] and [brelse] on the memory disk. *)

From stdpp Require Import base gmap list strings.
From Stdlib Require Import ZArith Lia.
From S2P Require Import Prelude Core Locking Bio.
Import Sleeplock Bio.

Module BioLaws.

Section Laws.
Context {S : Type} {HL : Lens S core} {HT : Lens S slocktab} {HB : Lens S bcache}
  {HK : Lens S disk}.
Context {HLok : LensOk S core} {HTok : LensOk S slocktab} {HBok : LensOk S bcache}
  {HKok : LensOk S disk}.
Context {Hs1 : LensSep S core slocktab} {Hs2 : LensSep S core bcache} {Hs3 : LensSep S core disk}
  {Hs4 : LensSep S slocktab bcache} {Hs5 : LensSep S slocktab disk} {Hs6 : LensSep S bcache disk}.
Context (cpu me : nat) (ie : bool).

(** The buffer behind a handle, its sleep lock, the pid of this process. *)
Definition kbuf (s : S) (b : nat) : buf := buf_of (lget s) b.
Definition klock (s : S) (b : nat) : sleeplock := sl_of (lget s) (blk b).
Definition mypid (s : S) : Z := pid (getp (lget s) me).

(** One buffer in a state with view [v]. *)
Definition buf_ok (s : S) (v : bview) (b : nat) : Prop :=
  let k := kbuf s b in
  (flags k = 0 \/ flags k = 2 \/ flags k = 6) /\
  (flags k <> 0 -> dev k = 1 /\ 0 <= blockno k < v_size v /\ bdata k = v_data v (blockno k)) /\
  (flags k = 6 <-> dev k = 1 /\ blockno k ∈ v_pin v) /\
  ((exists n, (b, n) ∈ v_held v /\ dev k = 1 /\ blockno k = n /\ flags k <> 0 /\ refcnt k = 1 /\
      klock s b = {| slocked := true; spid := mypid s |}) \/
   ((b ∉ (v_held v).*1) /\ refcnt k = 0 /\ slocked (klock s b) = false)).

Definition unique (s : S) : Prop :=
  forall b1 b2, (b1 < NBUF)%nat -> (b2 < NBUF)%nat -> dev (kbuf s b1) = 1 -> dev (kbuf s b2) = 1 ->
    blockno (kbuf s b1) = blockno (kbuf s b2) -> b1 = b2.

Definition view_ok (v : bview) : Prop :=
  NoDup (v_held v).*1 /\ NoDup (v_held v).*2 /\
  (forall b n, (b, n) ∈ v_held v -> (b < NBUF)%nat /\ 0 <= n < v_size v) /\
  (forall n, 0 <= n < v_size v ->
     block_ok (v_data v n) /\ block_ok (v_disk v n) /\
     (v_data v n = v_disk v n \/ n ∈ v_pin v \/ n ∈ (v_held v).*2)).

Definition disk_ok (s : S) (v : bview) : Prop :=
  disksize (lget s) = v_size v /\ trace (lget s) = v_trace v /\
  forall n, 0 <= n < v_size v -> blocks (lget s) n = v_disk v n.

Definition cache_ok (s : S) (v : bview) : Prop :=
  (exists l, ring (lget s) l) /\
  (forall b, (b < NBUF)%nat -> buf_ok s v b) /\ unique s /\
  (forall n, n ∈ v_pin v -> exists b, (b < NBUF)%nat /\ dev (kbuf s b) = 1 /\ blockno (kbuf s b) = n).

Definition bio_ok (s : S) (L : list lockid) (v : bview) : Prop :=
  core_ok (lget s) cpu L ie (Some me) /\ (me < length (procs (lget s)))%nat /\
  cache_ok s v /\ view_ok v /\ disk_ok s v.

Ltac blens :=
  repeat first [rewrite lget_lset | rewrite lsep_l | rewrite lsep_r | rewrite lset_lset].

Lemma getp_pid (c c' : core) p :
  pid <$> procs c = pid <$> procs c' -> pid (getp c p) = pid (getp c' p).
Proof.
  intros He. unfold getp. apply (f_equal (fun l => l !! p)) in He.
  rewrite !list_lookup_fmap in He. destruct (procs c !! p), (procs c' !! p); naive_solver.
Qed.

(** *** Frames *)

(** Same cache, disk and sleep locks. *)
Definition same_bio (s s' : S) : Prop :=
  (forall b, kbuf s' b = kbuf s b) /\ (forall b, klock s' b = klock s b) /\
  lget (T := disk) s' = lget s.

Lemma bio_ok_same s s' L L' v :
  bio_ok s L v -> core_ok (lget s') cpu L' ie (Some me) ->
  pid <$> procs (lget s') = pid <$> procs (lget s) -> same_bio s s' -> bio_ok s' L' v.
Proof.
  intros (Hc & Hm & (Hr & Hb & Hu & Hp) & Hv & Hd) Hc' Hpid (Hkb & Hkl & Hdk).
  split_and!; try done.
  - apply (f_equal length) in Hpid. rewrite !length_fmap in Hpid. by rewrite Hpid.
  - unfold cache_ok. split_and!.
    + destruct Hr as [l Hr]. exists l. eapply ring_same_links; [| |done];
        intros b; [apply (f_equal next (Hkb b)) | apply (f_equal prev (Hkb b))].
    + intros b Hlt. specialize (Hb b Hlt). unfold buf_ok in *. rewrite Hkb, Hkl.
      unfold mypid in *. by rewrite (getp_pid _ _ _ Hpid).
    + intros b1 b2. rewrite !Hkb. apply Hu.
    + intros n Hn. destruct (Hp n Hn) as (b & ?). exists b. by rewrite Hkb.
  - unfold disk_ok in *. by rewrite Hdk.
Qed.

Lemma outside_same s s' :
  outside s s' -> (forall b, klock s' b = klock s b) -> same_bio s s'.
Proof.
  intros Ho Hl. split_and!; [|done|].
  - intros b. unfold kbuf. by rewrite (Ho bcache HB _ _).
  - by rewrite (Ho disk HK _ _).
Qed.

Lemma same_bio_core s (c : core) : same_bio s (lset c s).
Proof. unfold same_bio, kbuf, klock. by blens. Qed.

Lemma bio_ok_frame s L L' v c :
  bio_ok s L v -> core_ok c cpu L' ie (Some me) ->
  pid <$> procs c = pid <$> procs (lget s) -> bio_ok (lset c s) L' v.
Proof.
  intros Hok Hc Hp. eapply bio_ok_same; [exact Hok | by blens | by blens |].
  apply same_bio_core.
Qed.

Lemma wake_pids ch (l : list proc) : pid <$> (wake_proc ch <$> l) = pid <$> l.
Proof.
  induction l as [|p l IH]; [done|]. csimpl. rewrite IH. f_equal. unfold wake_proc.
  by destruct (_ && _).
Qed.

(** *** A held buffer *)

Lemma held_buf s L v b n :
  bio_ok s L v -> (b, n) ∈ v_held v ->
  (b < NBUF)%nat /\ 0 <= n < v_size v /\
  dev (kbuf s b) = 1 /\ blockno (kbuf s b) = n /\ flags (kbuf s b) <> 0 /\
  bdata (kbuf s b) = v_data v n /\
  refcnt (kbuf s b) = 1 /\ klock s b = {| slocked := true; spid := mypid s |}.
Proof.
  intros (_ & _ & (_ & Hb & _) & (HN & _ & Hin2 & _) & _) Hin.
  destruct (Hin2 _ _ Hin) as [Hlt Hn]. destruct (Hb b Hlt) as (_ & Hv & _ & Hh).
  destruct Hh as [(n' & Hin' & H1 & H2 & H3 & H4 & H5) | (Hni & _)].
  - assert (n' = n) as ->.
    { apply list_elem_of_lookup in Hin as [i Hi], Hin' as [j Hj].
      assert (i = j) as ->; [|congruence].
      eapply (NoDup_lookup _ _ _ b HN); rewrite list_lookup_fmap; [by rewrite Hi | by rewrite Hj]. }
    destruct (Hv H3) as (_ & _ & Hd). rewrite H2 in Hd. by split_and!; try tauto.
  - exfalso. apply Hni, list_elem_of_fmap. by exists (b, n).
Qed.

Lemma wp_holds s v b n (Q : bool -> S -> Prop) :
  bio_ok s [] v -> (b, n) ∈ v_held v ->
  (forall s', bio_ok s' [] v -> same_bio s s' -> Q true s') -> wp (holdingsleep (blk b)) s Q.
Proof.
  intros Hok Hin HQ. pose proof (held_buf _ _ _ _ _ Hok Hin) as (_ & _ & _ & _ & _ & _ & _ & Hk).
  pose proof Hok as (Hc & _).
  eapply wp_holdingsleep; [exact Hc | apply not_elem_of_nil |]. intros s' Hc' Hp' Hs' Ho.
  unfold klock in Hk. fold (sleeplock_of s (blk b)) in Hk. rewrite Hk. simpl.
  unfold mypid. rewrite Z.eqb_refl.
  assert (Hsb : same_bio s s') by (apply outside_same; [done | intros b'; apply Hs']).
  apply HQ; [|done]. eapply bio_ok_same; [done | done | | done].
  unfold procs_of in Hp'. by rewrite Hp'.
Qed.

(** *** Changing a held buffer *)

(** [s'] is [s] with new flags and data in buffer [b]. *)
Definition buf_change (s s' : S) (b : nat) (f : Z) (d : block) : Prop :=
  kbuf s' b = set_data d (set_flags f (kbuf s b)) /\
  (forall b', b' <> b -> kbuf s' b' = kbuf s b') /\ (forall b, klock s' b = klock s b) /\
  mypid s' = mypid s.

(** [v'] is [v] with block [n] changed. *)
Definition view_change (v v' : bview) (n : Z) : Prop :=
  v_held v' = v_held v /\ v_size v' = v_size v /\
  forall m, m <> n -> v_data v' m = v_data v m /\ (m ∈ v_pin v' <-> m ∈ v_pin v).

Lemma cache_change s s' L v v' b n f d :
  bio_ok s L v -> (b, n) ∈ v_held v -> buf_change s s' b f d -> view_change v v' n ->
  (f = 2 /\ n ∉ v_pin v') \/ (f = 6 /\ n ∈ v_pin v') -> v_data v' n = d ->
  cache_ok s' v'.
Proof.
  intros Hok Hin (Hkb & Hko & Hkl & Hpid) (Hvh & Hvs & Hvm) Hf Hd.
  pose proof (held_buf _ _ _ _ _ Hok Hin) as (Hlt & Hn & H1 & H2 & H3 & _ & H5 & H6).
  destruct Hok as (_ & _ & (Hr & Hb & Hu & Hp) & _ & _).
  assert (Hdev : forall b', dev (kbuf s' b') = dev (kbuf s b') /\
    blockno (kbuf s' b') = blockno (kbuf s b') /\ refcnt (kbuf s' b') = refcnt (kbuf s b') /\
    next (kbuf s' b') = next (kbuf s b') /\ prev (kbuf s' b') = prev (kbuf s b')).
  { intros b'. destruct (decide (b' = b)) as [->|Hne]; [by rewrite Hkb | by rewrite Hko]. }
  unfold cache_ok. split_and!.
  - destruct Hr as [l Hr]. exists l. eapply ring_same_links; [| |done]; intros b'; apply Hdev.
  - intros b' Hlt'. specialize (Hb b' Hlt').
    destruct (decide (b' = b)) as [->|Hne].
    + unfold buf_ok. rewrite Hvh, Hvs, Hkl, Hpid, Hkb. simpl. rewrite H1, H2. split_and!.
      * destruct Hf as [[-> _]|[-> _]]; lia.
      * by rewrite Hd.
      * destruct Hf as [[-> ?]|[-> ?]]; intuition congruence.
      * left. exists n. split_and!; try done. destruct Hf as [[-> _]|[-> _]]; lia.
    + assert (Hnn : dev (kbuf s b') = 1 -> blockno (kbuf s b') <> n).
      { intros Hd' He. apply Hne. apply Hu; [done..|]. congruence. }
      unfold buf_ok in *. rewrite Hvh, Hvs, Hkl, Hpid, (Hko b' Hne).
      destruct Hb as (Hb1 & Hb2 & Hb3 & Hb4). split_and!; [done | | |done].
      * intros Hf0. destruct (Hb2 Hf0) as (Hb5 & Hb6 & Hb7). split_and!; [done | lia | lia |].
        rewrite Hb7. symmetry. apply Hvm. auto.
      * rewrite Hb3. split; intros [? ?]; (split; [done|]); (apply Hvm; [auto|done]).
  - intros b1 b2. destruct (Hdev b1) as (-> & -> & _), (Hdev b2) as (-> & -> & _). apply Hu.
  - intros m Hm. destruct (decide (m = n)) as [->|Hne].
    + exists b. by destruct (Hdev b) as (-> & -> & _).
    + apply Hvm in Hm; [|done]. destruct (Hp m Hm) as (b' & ? & ? & ?). exists b'.
      by destruct (Hdev b') as (-> & -> & _).
Qed.

Lemma buf_change_mod s b g f d :
  g (kbuf s b) = set_data d (set_flags f (kbuf s b)) ->
  buf_change s (lset (upd_buf b g (lget s)) s) b f d.
Proof.
  intros Hg. split_and!.
  - rewrite <- Hg. unfold kbuf. blens. simpl. by rewrite decide_True.
  - intros b' Hne. unfold kbuf. blens. simpl. by rewrite decide_False.
  - intros b'. unfold klock. by blens.
  - unfold mypid. by blens.
Qed.

Lemma buf_change_trans s1 s2 s3 b f d f' d' :
  buf_change s1 s2 b f d -> buf_change s2 s3 b f' d' -> buf_change s1 s3 b f' d'.
Proof.
  intros (H1 & H2 & H3 & H4) (H5 & H6 & H7 & H8). split_and!.
  - by rewrite H5, H1.
  - intros. by rewrite H6, H2.
  - intros. by rewrite H7.
  - by rewrite H8.
Qed.

Lemma buf_change_disk s (k : disk) b f d :
  f = flags (kbuf s b) -> d = bdata (kbuf s b) -> buf_change s (lset k s) b f d.
Proof.
  intros -> ->. unfold buf_change, kbuf, klock, mypid. blens. split_and!; try done.
  by destruct (buf_of (lget s) b).
Qed.

Definition flags_ok (v : bview) (k : buf) : Prop :=
  (flags k = 2 /\ blockno k ∉ v_pin v) \/ (flags k = 6 /\ blockno k ∈ v_pin v).

Lemma held_flags s L v b n : bio_ok s L v -> (b, n) ∈ v_held v -> flags_ok v (kbuf s b).
Proof.
  intros Hok Hin. pose proof (held_buf _ _ _ _ _ Hok Hin) as (Hlt & _ & H1 & H2 & H3 & _).
  destruct Hok as (_ & _ & (_ & Hb & _) & _). destruct (Hb b Hlt) as (Hf & _ & Hi & _).
  unfold flags_ok. destruct (decide (blockno (kbuf s b) ∈ v_pin v)); [right|left]; intuition lia.
Qed.

Lemma wp_bdata s L v b n (Q : block -> S -> Prop) :
  bio_ok s L v -> (b, n) ∈ v_held v -> Q (v_data v n) s ->
  wp (k ← getbuf b; mret (bdata k)) s Q.
Proof.
  intros Hok Hin HQ. unfold getbuf. wp_step. fold (kbuf s b).
  by pose proof (held_buf _ _ _ _ _ Hok Hin) as (_ & _ & _ & _ & _ & -> & _).
Qed.

Lemma wp_blockno s L v b n (Q : Z -> S -> Prop) :
  bio_ok s L v -> (b, n) ∈ v_held v -> Q n s -> wp (k ← getbuf b; mret (blockno k)) s Q.
Proof.
  intros Hok Hin HQ. unfold getbuf. wp_step. fold (kbuf s b).
  by pose proof (held_buf _ _ _ _ _ Hok Hin) as (_ & _ & _ & -> & _).
Qed.

(** The common part of the laws that change a held buffer. *)
Lemma bio_change s s' L L' v v' b n f d :
  bio_ok s L v -> (b, n) ∈ v_held v -> buf_change s s' b f d -> view_change v v' n ->
  (f = 2 /\ n ∉ v_pin v') \/ (f = 6 /\ n ∈ v_pin v') -> v_data v' n = d ->
  core_ok (lget s') cpu L' ie (Some me) -> (me < length (procs (lget s')))%nat ->
  block_ok d -> block_ok (v_disk v' n) -> (forall m, m <> n -> v_disk v' m = v_disk v m) ->
  disk_ok s' v' -> bio_ok s' L' v'.
Proof.
  intros Hok Hin Hc Hv Hf Hd Hco Hm Hbk Hbk' Hdisk Hdok.
  split_and!; [done | done | by eapply cache_change | | done].
  destruct Hok as (_ & _ & _ & (HN1 & HN2 & Hh & Hbl) & _).
  destruct Hv as (Hvh & Hvs & Hvm). unfold view_ok. rewrite Hvh, Hvs.
  split_and!; [done | done | done |]. intros m Hm'. destruct (Hbl m Hm') as (Hb1 & Hb2 & Hb3).
  destruct (decide (m = n)) as [->|Hne].
  - rewrite Hd. split_and!; [done | done |]. right. right. apply list_elem_of_fmap. by exists (b, n).
  - rewrite (Hdisk m Hne). destruct (Hvm m Hne) as [-> Hpin]. rewrite Hpin. done.
Qed.

Lemma wp_setdata s L v b n d (Q : unit -> S -> Prop) :
  bio_ok s L v -> (b, n) ∈ v_held v -> block_ok d ->
  (forall s', bio_ok s' L (v_modify n d v) -> Q tt s') -> wp (modbuf b (set_data d)) s Q.
Proof.
  intros Hok Hin Hd HQ. unfold modbuf. wp_step. apply HQ.
  pose proof (held_buf _ _ _ _ _ Hok Hin) as (_ & Hn & _ & Hbn & _).
  pose proof Hok as (Hc & Hm & _ & (_ & _ & _ & Hbl) & Hdk).
  eapply bio_change; [exact Hok | exact Hin | by apply (buf_change_mod _ _ _ (flags (kbuf s b)) d)
    | | | | by blens | by blens | done | by apply Hbl | done |].
  - split_and!; [done | done |]. intros m Hmn. simpl. by rewrite fupd_ne.
  - pose proof (held_flags _ _ _ _ _ Hok Hin) as Hf. unfold flags_ok in Hf. by rewrite Hbn in Hf.
  - simpl. apply fupd_eq.
  - unfold disk_ok in *. blens. done.
Qed.

Lemma wp_pin s L v b n (Q : unit -> S -> Prop) :
  bio_ok s L v -> (b, n) ∈ v_held v ->
  (forall s', bio_ok s' L (v_setpin n v) -> kbuf s' b = set_flags 6 (kbuf s b) -> Q tt s') ->
  wp (modbuf b (fun k => set_flags (Z.lor (flags k) B_DIRTY) k)) s Q.
Proof.
  intros Hok Hin HQ. unfold modbuf. wp_step.
  pose proof (held_buf _ _ _ _ _ Hok Hin) as (_ & Hn & _ & Hbn & _ & Hbd & _).
  pose proof Hok as (Hc & Hm & _ & (_ & _ & _ & Hbl) & Hdk).
  assert (Hf : Z.lor (flags (kbuf s b)) B_DIRTY = 6).
  { by destruct (held_flags _ _ _ _ _ Hok Hin) as [[-> _]|[-> _]]. }
  assert (Hch : buf_change s (lset (upd_buf b (fun k => set_flags (Z.lor (flags k) B_DIRTY) k) (lget s)) s)
            b 6 (bdata (kbuf s b))).
  { apply buf_change_mod. by rewrite Hf. }
  apply HQ.
  - eapply bio_change; [exact Hok | exact Hin | exact Hch
      | | | | by blens | by blens | rewrite Hbd; by apply Hbl | by apply Hbl | done |].
    + split_and!; [done | done |]. intros m Hmn. simpl. split; [done|].
      rewrite elem_of_union, elem_of_singleton. tauto.
    + right. split; [done|]. simpl. rewrite elem_of_union, elem_of_singleton. tauto.
    + done.
    + unfold disk_ok in *. blens. done.
  - destruct Hch as [-> _]. done.
Qed.

(** *** Writing a block *)

Lemma wp_iderw_write s v b n (Q : unit -> S -> Prop) :
  bio_ok s [] v -> (b, n) ∈ v_held v -> n ∈ v_pin v ->
  (forall s', bio_ok s' [] (v_write n v) -> Q tt s') -> wp (mem_iderw b) s Q.
Proof.
  intros Hok Hin Hpin HQ. unfold mem_iderw. wp_step.
  eapply wp_holds; [exact Hok | exact Hin |]. intros s1 Hok1 _. clear s Hok. rename s1 into s, Hok1 into Hok. cbv [negb].
  pose proof (held_buf _ _ _ _ _ Hok Hin) as (_ & Hn & Hdv & Hbn & _ & Hbd & _).
  pose proof Hok as (Hc & Hm & _ & (_ & _ & _ & Hbl) & (Hds & Htr & Hdb)).
  assert (Hf : flags (kbuf s b) = 6).
  { destruct (held_flags _ _ _ _ _ Hok Hin) as [[_ Hx]|[-> _]]; [congruence|done]. }
  unfold getbuf at 1. wp_step. fold (kbuf s b). rewrite Hf, Hdv.
  change (Z.land 6 (Z.lor B_VALID B_DIRTY) =? B_VALID) with false.
  rewrite Z.eqb_refl. cbv iota.
  wp_step. rewrite Hds, Hbn. replace (v_size v <=? n) with false by lia.
  change (has 6 B_DIRTY) with true. cbv iota. unfold modbuf. wp_step. apply HQ. rewrite Hbd.
  eapply (bio_change s _ _ _ v (v_write n v) b n 2 (v_data v n));
    [exact Hok | exact Hin | | | | done | by blens | by blens | by apply Hbl | | |].
  - eapply buf_change_trans; [|apply buf_change_mod].
    + eapply buf_change_trans; [|apply buf_change_disk; reflexivity].
      apply (buf_change_mod s b _ 2 (bdata (kbuf s b))). by rewrite Hf.
    + unfold kbuf. blens. simpl. rewrite decide_True by done. fold (kbuf s b). simpl.
      by rewrite Hf, <- Hbd.
  - split_and!; [done | done |]. intros m Hmn. simpl. split; [done|].
    rewrite elem_of_difference, elem_of_singleton. tauto.
  - left. split; [done|]. simpl. rewrite elem_of_difference, elem_of_singleton. tauto.
  - simpl. rewrite fupd_eq. by apply Hbl.
  - intros m Hmn. simpl. by rewrite fupd_ne.
  - unfold disk_ok. blens. simpl. rewrite Hds, Htr. split_and!; [done | done |].
    intros m Hm'. unfold fupd. case_decide; [done | by apply Hdb].
Qed.

Lemma bio_ok_equiv s L v w : v ≡ w -> bio_ok s L v -> bio_ok s L w.
Proof.
  intros (Hd & Ha & Hp & Hh & Ht & Hs) (Hc & Hm & (Hr & Hb & Hu & Hpn) & (HN1 & HN2 & Hin & Hbl) & (Hk1 & Hk2 & Hk3)).
  unfold bio_ok, cache_ok, view_ok, disk_ok, buf_ok in *. rewrite Hp, Hh, Ht, Hs in *.
  split_and!; try done.
  - intros b Hlt. specialize (Hb b Hlt). by rewrite <- Ha.
  - intros n Hn. specialize (Hbl n Hn). by rewrite <- Hd, <- Ha.
  - intros n Hn. by rewrite <- Hd, Hk3.
Qed.

Lemma wp_bwrite s v b n (Q : unit -> S -> Prop) :
  bio_ok s [] v -> (b, n) ∈ v_held v ->
  (forall s', bio_ok s' [] (v_write n v) -> Q tt s') -> wp (bwrite b) s Q.
Proof.
  intros Hok Hin HQ. unfold bwrite. wp_step.
  eapply wp_holds; [exact Hok | exact Hin |]. intros s1 Hok1 _. clear s Hok. rename s1 into s, Hok1 into Hok. cbv [negb]. wp_step.
  eapply wp_pin; [exact Hok | exact Hin |]. intros s1 Hok1 _.
  eapply (wp_iderw_write _ _ _ n); [exact Hok1 | done | |].
  { simpl. rewrite elem_of_union, elem_of_singleton. tauto. }
  intros s2 Hok2. apply HQ. eapply bio_ok_equiv; [|exact Hok2].
  split_and!; try done. simpl. apply leibniz_equiv. intros m.
  rewrite !elem_of_difference, elem_of_union, elem_of_singleton. tauto.
Qed.

(** *** Getting a buffer *)

(** Buffer [b] has been chosen for block [n]; its lock is [lk]. *)
Definition chosen (s : S) (L : list lockid) (v : bview) (b : nat) (n : Z) : Prop :=
  core_ok (lget s) cpu L ie (Some me) /\ (me < length (procs (lget s)))%nat /\
  (exists l, ring (lget s) l) /\
  (forall b', (b' < NBUF)%nat -> b' <> b -> buf_ok s v b') /\ unique s /\
  (forall m, m ∈ v_pin v -> exists b, (b < NBUF)%nat /\ dev (kbuf s b) = 1 /\ blockno (kbuf s b) = m) /\
  view_ok v /\ disk_ok s v /\
  (b < NBUF)%nat /\ 0 <= n < v_size v /\ (b ∉ (v_held v).*1) /\ (n ∉ (v_held v).*2) /\
  let k := kbuf s b in
  dev k = 1 /\ blockno k = n /\ refcnt k = 1 /\
  ((flags k = 0 /\ n ∉ v_pin v) \/
   (bdata k = v_data v n /\ flags_ok v k)).

Lemma chosen_same s s' L L' v b n :
  chosen s L v b n -> core_ok (lget s') cpu L' ie (Some me) ->
  pid <$> procs (lget s') = pid <$> procs (lget s) ->
  (forall b', kbuf s' b' = kbuf s b') -> (forall b', b' <> b -> klock s' b' = klock s b') ->
  lget (T := disk) s' = lget s -> chosen s' L' v b n.
Proof.
  intros (Hc & Hm & Hr & Hb & Hu & Hp & Hv & Hd & Hrest) Hc' Hpid Hkb Hkl Hdk.
  unfold chosen. rewrite Hkb. split_and!; try apply Hrest; try done.
  - apply (f_equal length) in Hpid. rewrite !length_fmap in Hpid. by rewrite Hpid.
  - destruct Hr as [l Hr]. exists l. eapply ring_same_links; [| |done];
      intros b'; [apply (f_equal next (Hkb b')) | apply (f_equal prev (Hkb b'))].
  - intros b' Hlt Hne. specialize (Hb b' Hlt Hne). unfold buf_ok in *. rewrite Hkb, Hkl by done.
    unfold mypid in *. by rewrite (getp_pid _ _ _ Hpid).
  - intros b1 b2. rewrite !Hkb. apply Hu.
  - intros m Hmp. destruct (Hp m Hmp) as (b' & ?). exists b'. by rewrite Hkb.
  - unfold disk_ok in *. by rewrite Hdk.
Qed.

Lemma chosen_done s v b n :
  chosen s [] v b n -> flags (kbuf s b) <> 0 ->
  klock s b = {| slocked := true; spid := mypid s |} -> bio_ok s [] (v_hold b n v).
Proof.
  intros (Hc & Hm & Hr & Hb & Hu & Hp & (HN1 & HN2 & Hin & Hbl) & Hd & Hlt & Hn & Hb1 & Hn1 &
    Hdv & Hbn & Hrc & Hf) Hf0 Hlk.
  destruct Hf as [[? _]|[Hbd Hf]]; [done|].
  split_and!; [done | done | | | done].
  - unfold cache_ok. split_and!; [done | | done | done].
    intros b' Hlt'. destruct (decide (b' = b)) as [->|Hne].
    + unfold buf_ok. simpl. rewrite Hdv, Hbn. unfold flags_ok in Hf. rewrite Hbn in Hf. split_and!.
      * lia.
      * done.
      * destruct Hf as [[-> ?]|[-> ?]]; intuition congruence.
      * left. exists n. split_and!; try done. left.
    + destruct (Hb b' Hlt' Hne) as (H1 & H2 & H3 & H4). unfold buf_ok. simpl.
      split_and!; [done | done | done |]. destruct H4 as [(m & Hm' & H4)|(H4 & H5)].
      * left. exists m. split; [by right | done].
      * right. split; [|done]. rewrite elem_of_cons. tauto.
  - unfold view_ok. simpl. split_and!.
    + by constructor.
    + by constructor.
    + intros b' m [Heq|Hin']%elem_of_cons; [by simplify_eq | by apply Hin].
    + intros m Hm'. destruct (Hbl m Hm') as (? & ? & [?|[?|?]]); split_and!; try done; [tauto..|].
      right. right. by right.
Qed.

(** A buffer that is not held. *)
Lemma not_held s L v b :
  bio_ok s L v -> (b < NBUF)%nat -> b ∉ (v_held v).*1 ->
  refcnt (kbuf s b) = 0 /\ slocked (klock s b) = false.
Proof.
  intros (_ & _ & (_ & Hb & _) & _) Hlt Hni. destruct (Hb b Hlt) as (_ & _ & _ & [(n & Hin & _)|?]);
    [|tauto]. exfalso. apply Hni, list_elem_of_fmap. by exists (b, n).
Qed.

Lemma held_handle s L v b n :
  bio_ok s L v -> (b < NBUF)%nat -> dev (kbuf s b) = 1 -> blockno (kbuf s b) = n ->
  n ∉ (v_held v).*2 -> b ∉ (v_held v).*1.
Proof.
  intros Hok Hlt Hd Hbn Hn [[b' m] [-> Hin]]%list_elem_of_fmap.
  pose proof (held_buf _ _ _ _ _ Hok Hin) as (_ & _ & _ & Hbm & _). simpl in *. subst.
  apply Hn, list_elem_of_fmap. by exists (b', blockno (kbuf s b')).
Qed.

(** The buffer of a cached block is chosen. *)
Lemma choose_hit s v b n :
  bio_ok s [L_bcache] v -> (b < NBUF)%nat -> is_block ROOTDEV n (kbuf s b) = true ->
  0 <= n < v_size v -> n ∉ (v_held v).*2 ->
  let s' := lset (upd_buf b (fun k => set_refcnt (refcnt k +u 1) k) (lget s)) s in
  chosen s' [L_bcache] v b n /\ slocked (klock s' b) = false.
Proof.
  intros Hok Hlt Hib Hn Hnh s'. apply andb_true_iff in Hib as [Hd Hbn]. zbool. unfold ROOTDEV in Hd.
  pose proof (held_handle _ _ _ _ _ Hok Hlt Hd Hbn Hnh) as Hbh.
  pose proof (not_held _ _ _ _ Hok Hlt Hbh) as [Hrc Hsl].
  destruct Hok as (Hc & Hm & (Hr & Hb & Hu & Hp) & Hv & Hdk).
  assert (Hkb : forall b', kbuf s' b' = if decide (b' = b)
    then set_refcnt 1 (kbuf s b) else kbuf s b').
  { intros b'. unfold s', kbuf. blens. simpl. case_decide as He; [subst b'|done].
    fold (kbuf s b). by rewrite Hrc. }
  assert (Hkl : forall b', klock s' b' = klock s b') by (intros b'; unfold klock, s'; by blens).
  assert (Hf : forall b', dev (kbuf s' b') = dev (kbuf s b') /\
    blockno (kbuf s' b') = blockno (kbuf s b') /\ next (kbuf s' b') = next (kbuf s b') /\
    prev (kbuf s' b') = prev (kbuf s b')).
  { intros b'. rewrite Hkb. by case_decide; subst. }
  split; [|by rewrite Hkl]. unfold chosen. split_and!; try done.
  - unfold s'. by blens.
  - unfold s'. by blens.
  - destruct Hr as [l Hr]. exists l. eapply ring_same_links; [| |done]; intros b'; apply Hf.
  - intros b' Hlt' Hne. specialize (Hb b' Hlt'). unfold buf_ok in *.
    rewrite Hkb, Hkl, decide_False by done. unfold mypid, s' in *. by blens.
  - intros b1 b2. destruct (Hf b1) as (-> & -> & _), (Hf b2) as (-> & -> & _). apply Hu.
  - intros m Hmp. destruct (Hp m Hmp) as (b' & ?). exists b'. by destruct (Hf b') as (-> & -> & _).
  - unfold disk_ok, s' in *. by blens.
  - lia.
  - lia.
  - by rewrite Hkb, decide_True.
  - by rewrite Hkb, decide_True.
  - by rewrite Hkb, decide_True.
  - rewrite Hkb, decide_True by done. simpl.
    destruct (Hb b Hlt) as (H1 & H2 & H3 & _). rewrite Hd, Hbn in *.
    destruct (decide (flags (kbuf s b) = 0)) as [Hf0|Hf0].
    + left. split; [done|]. intros Hin. rewrite Hf0 in H3. destruct H3 as [_ H3].
      discriminate H3. done.
    + right. split; [by apply H2|]. unfold flags_ok. simpl. rewrite Hbn.
      destruct (decide (n ∈ v_pin v)); [right | left]; split; try done; intuition lia.
Qed.

Lemma all_used_bound s L v :
  bio_ok s L v -> (size (v_pin v) + length (v_held v) < NBUF)%nat ->
  (forall b, (b < NBUF)%nat -> is_unused (kbuf s b) = false) -> False.
Proof.
  intros Hok Hsz Hall. pose proof Hok as (_ & _ & (_ & Hb & Hu & _) & _).
  set (A := filter (fun b => b ∈ (v_held v).*1) (seq 0 NBUF)).
  set (D := filter (fun b => b ∉ (v_held v).*1) (seq 0 NBUF)).
  assert (HD : forall b, b ∈ D -> (b < NBUF)%nat /\ dev (kbuf s b) = 1 /\ blockno (kbuf s b) ∈ v_pin v).
  { intros b [Hni Hs]%list_elem_of_filter. apply elem_of_seq in Hs.
    assert (Hlt : (b < NBUF)%nat) by lia. split; [done|].
    pose proof (not_held _ _ _ _ Hok Hlt Hni) as [Hrc _]. specialize (Hall b Hlt).
    unfold is_unused in Hall. rewrite Hrc in Hall. simpl in Hall. apply negb_false_iff in Hall.
    destruct (Hb b Hlt) as (Hf & _ & Hpin & _). apply Hpin.
    destruct Hf as [Hf|[Hf|Hf]]; rewrite Hf in Hall; done. }
  assert (HlA : (length A <= length (v_held v))%nat).
  { rewrite <- (length_fmap fst). apply submseteq_length, NoDup_submseteq.
    - apply NoDup_filter, NoDup_seq.
    - by intros b [? _]%list_elem_of_filter. }
  assert (HlD : (length D <= size (v_pin v))%nat).
  { unfold size, set_size. simpl. rewrite <- (length_fmap (fun b => blockno (kbuf s b))).
    apply submseteq_length, NoDup_submseteq.
    - apply NoDup_fmap_2_strong; [|apply NoDup_filter, NoDup_seq].
      intros x y Hx Hy He. destruct (HD x Hx) as (? & ? & _), (HD y Hy) as (? & ? & _). by apply Hu.
    - intros m [b [-> Hin]]%list_elem_of_fmap. apply elem_of_elements. by apply HD. }
  assert (Hl : (length A + length D = NBUF)%nat); [|lia].
  rewrite <- (length_seq NBUF 0) at 1. unfold A, D. clear. induction (seq 0 NBUF) as [|x l IH]; [done|].
  rewrite !filter_cons. destruct (decide (x ∈ _)); destruct (decide (x ∉ _)); simpl; try tauto; lia.
Qed.

(** An unused buffer is recycled for a block that is not cached. *)
Lemma choose_free s v b n :
  bio_ok s [L_bcache] v -> (b < NBUF)%nat -> is_unused (kbuf s b) = true ->
  (forall b', (b' < NBUF)%nat -> is_block ROOTDEV n (kbuf s b') = false) ->
  0 <= n < v_size v -> n ∉ (v_held v).*2 ->
  let s' := lset (upd_buf b (fun k => {| flags := 0; dev := ROOTDEV; blockno := n; refcnt := 1;
                            prev := prev k; next := next k; bdata := bdata k |}) (lget s)) s in
  chosen s' [L_bcache] v b n /\ slocked (klock s' b) = false.
Proof.
  intros Hok Hlt Hun Hmiss Hn Hnh s'. apply andb_true_iff in Hun as [Hrc Hdirty]. zbool.
  assert (Hbh : b ∉ (v_held v).*1).
  { intros [[b' m] [-> Hin]]%list_elem_of_fmap.
    pose proof (held_buf _ _ _ _ _ Hok Hin) as (_ & _ & _ & _ & _ & _ & Hr1 & _). simpl in *. lia. }
  pose proof (not_held _ _ _ _ Hok Hlt Hbh) as [_ Hsl].
  destruct Hok as (Hc & Hm & (Hr & Hb & Hu & Hp) & Hv & Hdk).
  assert (Hmiss' : forall b', (b' < NBUF)%nat -> dev (kbuf s b') = 1 -> blockno (kbuf s b') <> n).
  { intros b' Hlt' Hd1 Hbn. specialize (Hmiss b' Hlt'). unfold is_block, ROOTDEV in Hmiss.
    rewrite Hd1, Hbn, !Z.eqb_refl in Hmiss. done. }
  assert (Hkb : forall b', b' <> b -> kbuf s' b' = kbuf s b').
  { intros b' Hne. unfold s', kbuf. blens. simpl. by rewrite decide_False. }
  assert (Hkbb : kbuf s' b = {| flags := 0; dev := ROOTDEV; blockno := n; refcnt := 1;
    prev := prev (kbuf s b); next := next (kbuf s b); bdata := bdata (kbuf s b) |}).
  { unfold s', kbuf. blens. simpl. by rewrite decide_True. }
  assert (Hkl : forall b', klock s' b' = klock s b') by (intros b'; unfold klock, s'; by blens).
  split; [|by rewrite Hkl]. unfold chosen. split_and!; try done; try lia.
  - unfold s'. by blens.
  - unfold s'. by blens.
  - destruct Hr as [l Hr]. exists l. eapply ring_same_links; [| |done];
      intros b'; unfold nexts, prevs; fold (kbuf s' b') (kbuf s b');
      (destruct (decide (b' = b)) as [->|]; [by rewrite Hkbb | by rewrite Hkb]).
  - intros b' Hlt' Hne. specialize (Hb b' Hlt'). unfold buf_ok in *.
    rewrite Hkb, Hkl by done. unfold mypid, s' in *. by blens.
  - intros b1 b2 Hl1 Hl2. destruct (decide (b1 = b)) as [->|H1], (decide (b2 = b)) as [->|H2].
    + done.
    + rewrite Hkbb, (Hkb b2 H2). simpl. intros _ Hd2 He. exfalso. by apply (Hmiss' b2 Hl2 Hd2).
    + rewrite Hkbb, (Hkb b1 H1). simpl. intros Hd1 _ He. exfalso. by apply (Hmiss' b1 Hl1 Hd1).
    + rewrite !Hkb by done. by apply Hu.
  - intros m Hmp. destruct (Hp m Hmp) as (b' & Hl' & Hd' & Hbm). exists b'.
    rewrite Hkb; [done|]. intros ->. destruct (Hb b Hlt) as (_ & _ & [_ H6] & _).
    rewrite H6 in Hdirty; [done|]. by rewrite Hbm.
  - unfold disk_ok, s' in *. by blens.
  - by rewrite Hkbb.
  - by rewrite Hkbb.
  - by rewrite Hkbb.
  - left. split; [by rewrite Hkbb|]. intros Hmp. destruct (Hp n Hmp) as (b' & Hl' & Hd' & Hbm).
    by apply (Hmiss' b').
Qed.

(** The common end of [bget]: let go of the cache, wait for the buffer. *)
Lemma wp_take_buf s v b n fuel (Q : nat -> S -> Prop) :
  chosen s [L_bcache] v b n -> slocked (klock s b) = false ->
  (forall s', chosen s' [] v b n ->
     klock s' b = {| slocked := true; spid := mypid s' |} -> Q b s') ->
  wp (release L_bcache ;; acquiresleep (Datatypes.S fuel) (blk b) ;; mret b) s Q.
Proof.
  intros Hch Hsl HQ. pose proof Hch as (Hc & _). wp_step.
  eapply wp_release; [exact Hc|]. intros c1 Hc1 (Hp1 & _). wp_step.
  eapply wp_acquiresleep; [by blens | apply not_elem_of_nil | unfold sleeplock_of; by blens |].
  intros s2 Hc2 Hp2 Hsl2 Ho2. wp_step. unfold procs_of in Hp2. revert Hp2. blens. intros Hp2.
  assert (Hpid : pid <$> procs (lget s2) = pid <$> procs (lget s)) by (by rewrite Hp2, Hp1).
  assert (Hst : forall b', klock s2 b' = if decide (blk b' = blk b)
     then {| slocked := true; spid := mypid s2 |} else klock s b').
  { intros b'. unfold klock. fold (sleeplock_of s2 (blk b')). rewrite Hsl2. case_decide as He.
    - f_equal. unfold mypid. apply getp_pid. blens. by rewrite Hp2.
    - unfold sleeplock_of. by blens. }
  apply HQ.
  - eapply chosen_same; [exact Hch | done | done | | |].
    + intros b'. unfold kbuf. rewrite (Ho2 bcache HB _ _). by blens.
    + intros b' Hne. rewrite Hst, decide_False; [done|]. unfold blk. lia.
    + rewrite (Ho2 disk HK _ _). by blens.
  - by rewrite Hst, decide_True.
Qed.

Lemma wp_bget s v n fuel (Q : nat -> S -> Prop) :
  bio_ok s [] v -> 0 <= n < v_size v -> n ∉ (v_held v).*2 ->
  n ∈ v_pin v \/ (size (v_pin v) + length (v_held v) < NBUF)%nat ->
  (forall b s', chosen s' [] v b n ->
     klock s' b = {| slocked := true; spid := mypid s' |} -> Q b s') ->
  wp (bget (Datatypes.S fuel) ROOTDEV n) s Q.
Proof.
  intros Hok Hn Hnh Hcap HQ. unfold bget. wp_step. pose proof Hok as (Hc & _).
  eapply wp_acquire; [exact Hc | apply not_elem_of_nil |]. intros c1 Hc1 (Hp1 & _).
  assert (Hok1 : bio_ok (lset c1 s) [L_bcache] v)
    by (eapply bio_ok_frame; [exact Hok | done | by rewrite Hp1]).
  clear Hok Hc. revert Hok1. generalize (lset c1 s). clear s c1 Hc1 Hp1. intros s Hok. wp_step.
  pose proof Hok as (_ & _ & ((l & Hr) & _ & _ & Hpe) & _).
  pose proof (ring_nodup _ _ Hr) as [HN Hlen]. apply NoDup_cons in HN as [Hhl _].
  pose proof Hr as (HP & Hpath & Hinv).
  rewrite (scan_path next _ _ l) by (done || (rewrite Hlen; unfold scan_fuel; lia)).
  pose proof (find_iff (fun b => is_block ROOTDEV n (kbuf s b)) l) as Hfind. unfold kbuf in Hfind.
  destruct (List.find _ l) as [b|].
  - destruct Hfind as [Hbl Hib]. apply (ring_elem _ _ _ Hr) in Hbl.
    destruct (choose_hit s v b n Hok Hbl Hib Hn Hnh) as [Hch Hsl]. unfold modbuf. wp_prim. wp_prim.
    eapply wp_take_buf; eauto.
  - assert (Hmiss : forall b', (b' < NBUF)%nat -> is_block ROOTDEV n (kbuf s b') = false).
    { intros b' Hlt. apply Hfind. by apply (ring_elem _ _ _ Hr). }
    wp_step.
    rewrite (scan_path prev _ _ (rev l)).
    2:{ by apply (path_back (nexts (lget s)) (prevs (lget s))). }
    2:{ by rewrite list_elem_of_In, <- in_rev, <- list_elem_of_In. }
    2:{ rewrite length_rev, Hlen. unfold scan_fuel. lia. }
    pose proof (find_iff (fun b => is_unused (kbuf s b)) (rev l)) as Hfree. unfold kbuf in Hfree.
    destruct (List.find _ (rev l)) as [b|].
    + destruct Hfree as [Hbl Hun]. rewrite list_elem_of_In, <- in_rev, <- list_elem_of_In in Hbl.
      apply (ring_elem _ _ _ Hr) in Hbl.
      destruct (choose_free s v b n Hok Hbl Hun Hmiss Hn Hnh) as [Hch Hsl].
      unfold modbuf. wp_prim. wp_prim. eapply wp_take_buf; eauto.
    + exfalso. destruct Hcap as [Hpin|Hcap].
      * destruct (Hpe n Hpin) as (b & Hlt & Hd & Hbn). specialize (Hmiss b Hlt).
        unfold is_block, ROOTDEV in Hmiss. by rewrite Hd, Hbn, !Z.eqb_refl in Hmiss.
      * eapply all_used_bound; [exact Hok | exact Hcap |]. intros b Hlt. apply Hfree.
        rewrite list_elem_of_In, <- in_rev, <- list_elem_of_In. by apply (ring_elem _ _ _ Hr).
Qed.

(** Reading the block into the chosen buffer. *)
Lemma chosen_fill s s' v b n :
  chosen s [] v b n -> core_ok (lget s') cpu [] ie (Some me) ->
  procs (lget s') = procs (lget s) -> n ∉ v_pin v ->
  buf_change s s' b 2 (v_data v n) -> lget (T := disk) s' = lget s -> chosen s' [] v b n.
Proof.
  intros (_ & Hm & Hr & Hb & Hu & Hp & Hv & Hd & Hlt & Hn & Hb1 & Hn1 & Hdv & Hbn & Hrc & _)
    Hc' Hpr Hpin (Hkb & Hko & Hkl & Hpid) Hdk.
  assert (Hf : forall b', dev (kbuf s' b') = dev (kbuf s b') /\
    blockno (kbuf s' b') = blockno (kbuf s b') /\ next (kbuf s' b') = next (kbuf s b') /\
    prev (kbuf s' b') = prev (kbuf s b')).
  { intros b'. destruct (decide (b' = b)) as [->|Hne]; [by rewrite Hkb | by rewrite Hko]. }
  unfold chosen. split_and!; try done; try lia.
  - by rewrite Hpr.
  - destruct Hr as [l Hr]. exists l. eapply ring_same_links; [| |done]; intros b'; apply Hf.
  - intros b' Hlt' Hne. specialize (Hb b' Hlt' Hne). unfold buf_ok in *.
    by rewrite (Hko b' Hne), Hkl, Hpid.
  - intros b1 b2. destruct (Hf b1) as (-> & -> & _), (Hf b2) as (-> & -> & _). apply Hu.
  - intros m Hmp. destruct (Hp m Hmp) as (b' & ?). exists b'. by destruct (Hf b') as (-> & -> & _).
  - unfold disk_ok in *. by rewrite Hdk.
  - by rewrite Hkb.
  - by rewrite Hkb.
  - by rewrite Hkb.
  - right. rewrite Hkb. simpl. split; [done|]. left. simpl. by rewrite Hbn.
Qed.

Lemma wp_iderw_read s v b n (Q : unit -> S -> Prop) :
  chosen s [] v b n -> klock s b = {| slocked := true; spid := mypid s |} ->
  flags (kbuf s b) = 0 ->
  (forall s', bio_ok s' [] (v_hold b n v) -> Q tt s') -> wp (mem_iderw b) s Q.
Proof.
  intros Hch Hlk Hf HQ. pose proof Hch as (Hc & _). unfold mem_iderw. wp_step.
  eapply wp_holdingsleep; [exact Hc | apply not_elem_of_nil |]. intros s1 Hc1 Hp1 Hl1 Ho1.
  unfold procs_of in Hp1. fold (klock s b). unfold sleeplock_of in Hl1 |- *.
  fold (klock s b). rewrite Hlk. simpl slocked. simpl spid. fold (mypid s). rewrite Z.eqb_refl.
  cbn [andb negb].
  assert (Hsame : (forall b', kbuf s1 b' = kbuf s b') /\ (forall b', klock s1 b' = klock s b') /\
    lget (T := disk) s1 = lget s /\ mypid s1 = mypid s).
  { split_and!.
    - intros b'. unfold kbuf. by rewrite (Ho1 bcache HB _ _).
    - intros b'. apply Hl1.
    - by rewrite (Ho1 disk HK _ _).
    - unfold mypid, getp. by rewrite Hp1. }
  destruct Hsame as (Hkb & Hkl & Hdk & Hpid).
  assert (Hch1 : chosen s1 [] v b n)
    by (eapply chosen_same; [exact Hch | done | by rewrite Hp1 | done | done | done]).
  rewrite <- Hkb in Hf. rewrite <- Hkl, <- Hpid in Hlk.
  clear Hch Hc Hp1 Hl1 Ho1 Hkb Hkl Hdk Hpid s. revert s1 Hc1 Hlk Hf Hch1. intros s Hc Hlk Hf Hch.
  pose proof Hch as (_ & _ & _ & _ & _ & _ & (_ & _ & _ & Hbl) & (Hds & _ & Hdb) & _ & Hn & _ &
    Hnh & Hdv & Hbn & _ & Hfl).
  assert (Hpin : n ∉ v_pin v).
  { destruct Hfl as [[_ ?]|[_ [[Hx _]|[Hx _]]]]; [done | congruence | congruence]. }
  unfold getbuf at 1. wp_step. fold (kbuf s b). rewrite Hf, Hdv.
  change (Z.land 0 (Z.lor B_VALID B_DIRTY) =? B_VALID) with false.
  rewrite Z.eqb_refl. cbv [negb]. wp_step. rewrite Hds, Hbn.
  replace (v_size v <=? n) with false by lia.
  change (has 0 B_DIRTY) with false. cbv iota. unfold modbuf. wp_step.
  rewrite (Hdb n Hn).
  assert (Hdat : v_disk v n = v_data v n).
  { destruct (Hbl n Hn) as (_ & _ & [?|[?|?]]); [done | tauto | tauto]. }
  rewrite Hdat.
  match goal with |- Q _ ?st => set (s' := st) end.
  assert (Hbc : buf_change s s' b 2 (v_data v n)).
  { unfold s'. eapply buf_change_trans; [|apply buf_change_mod].
    - apply (buf_change_mod s b _ (flags (kbuf s b)) (v_data v n)). reflexivity.
    - unfold kbuf. blens. simpl. rewrite decide_True by done. fold (kbuf s b). simpl.
      by rewrite Hf. }
  assert (Hcd : core_ok (lget s') cpu [] ie (Some me) /\ procs (lget s') = procs (lget s) /\
    lget (T := disk) s' = lget s) by (unfold s'; by blens).
  destruct Hcd as (Hc' & Hpr & Hdk). apply HQ, chosen_done.
  - by eapply chosen_fill.
  - destruct Hbc as [-> _]. done.
  - destruct Hbc as (_ & _ & -> & ->). done.
Qed.

Lemma wp_bread s v n fuel (Q : nat -> S -> Prop) :
  bio_ok s [] v -> 0 <= n < v_size v -> n ∉ (v_held v).*2 ->
  n ∈ v_pin v \/ (size (v_pin v) + length (v_held v) < NBUF)%nat ->
  (forall b s', bio_ok s' [] (v_hold b n v) -> Q b s') ->
  wp (bread (Datatypes.S fuel) ROOTDEV n) s Q.
Proof.
  intros Hok Hn Hnh Hcap HQ. unfold bread. wp_step. eapply wp_bget; [done..|].
  intros b s1 Hch Hlk. unfold getbuf. wp_step. fold (kbuf s1 b).
  pose proof Hch as (_ & _ & _ & _ & _ & _ & _ & _ & _ & _ & _ & _ & _ & _ & _ & Hfl).
  destruct Hfl as [[Hf _]|[_ Hf]].
  - rewrite Hf. change (has 0 B_VALID) with false. cbv iota.
    eapply wp_iderw_read; [done..|]. intros s2 Hok2. wp_step. by apply HQ.
  - assert (has (flags (kbuf s1 b)) B_VALID = true /\ flags (kbuf s1 b) <> 0) as [-> Hf0]
      by (by destruct Hf as [[-> _]|[-> _]]).
    wp_step. apply HQ. by apply chosen_done.
Qed.

(** *** Releasing a buffer *)

(** Everything of a buffer but its links. *)
Definition fields (k : buf) : Z * Z * Z * Z * block :=
  (flags k, dev k, blockno k, refcnt k, bdata k).

Lemma fields_move b c b' :
  fields (buf_of (link_head b (unlink b c)) b') = fields (buf_of c b').
Proof.
  assert (Hp : forall a x c b', fields (buf_of (upd_buf a (set_prev x) c) b') = fields (buf_of c b'))
    by (intros; simpl; by case_decide).
  assert (Hn : forall a x c b', fields (buf_of (upd_buf a (set_next x) c) b') = fields (buf_of c b'))
    by (intros; simpl; by case_decide).
  unfold link_head, unlink. by rewrite Hn, Hp, Hp, Hn, Hn, Hp.
Qed.

Lemma view_ok_release v b n H1 H2 :
  view_ok v -> v_held v = H1 ++ (b, n) :: H2 -> n ∈ v_pin v \/ v_data v n = v_disk v n ->
  view_ok (v_setheld (H1 ++ H2) v) /\ (b ∉ (H1 ++ H2).*1) /\
  (forall b' m, b' <> b -> (b', m) ∈ v_held v -> (b', m) ∈ H1 ++ H2).
Proof.
  intros (HN1 & HN2 & Hin & Hbl) Hh Hcl. rewrite Hh in *.
  assert (HP : H1 ++ (b, n) :: H2 ≡ₚ (b, n) :: H1 ++ H2) by (symmetry; apply Permutation_middle).
  rewrite HP in HN1, HN2. csimpl in *. apply NoDup_cons in HN1 as [Hb HN1], HN2 as [Hn HN2].
  split_and!; [|done|].
  - unfold view_ok. simpl. split_and!; [done | done | |].
    + intros b' m Hm. apply Hin. rewrite HP. by right.
    + intros m Hm. destruct (Hbl m Hm) as (? & ? & Hc). split_and!; [done | done |].
      rewrite HP in Hc. csimpl in Hc. rewrite elem_of_cons in Hc.
      destruct Hc as [?|[?|[->|?]]]; tauto.
  - intros b' m Hne Hbm. rewrite HP in Hbm. apply elem_of_cons in Hbm as [?|?]; [congruence|done].
Qed.

Lemma cache_release s s' L v b n H1 H2 :
  bio_ok s L v -> v_held v = H1 ++ (b, n) :: H2 -> n ∈ v_pin v \/ v_data v n = v_disk v n ->
  (exists l, ring (lget s') l) ->
  (forall b', fields (kbuf s' b') = fields (if decide (b' = b) then set_refcnt 0 (kbuf s b) else kbuf s b')) ->
  (forall b', b' <> b -> klock s' b' = klock s b') -> slocked (klock s' b) = false ->
  mypid s' = mypid s -> cache_ok s' (v_setheld (H1 ++ H2) v).
Proof.
  intros Hok Hh Hcl Hr Hf Hkl Hsl Hpid.
  assert (Hin : (b, n) ∈ v_held v) by (rewrite Hh, elem_of_app, elem_of_cons; tauto).
  pose proof (held_buf _ _ _ _ _ Hok Hin) as (Hlt & Hn & Hd1 & Hbn & _).
  destruct Hok as (_ & _ & (_ & Hb & Hu & Hp) & Hv & _).
  destruct (view_ok_release v b n H1 H2 Hv Hh Hcl) as (_ & Hni & Hkeep).
  assert (Hdb : forall b', dev (kbuf s' b') = dev (kbuf s b') /\
    blockno (kbuf s' b') = blockno (kbuf s b') /\ flags (kbuf s' b') = flags (kbuf s b') /\
    bdata (kbuf s' b') = bdata (kbuf s b') /\
    refcnt (kbuf s' b') = if decide (b' = b) then 0 else refcnt (kbuf s b')).
  { intros b'. specialize (Hf b'). unfold fields in Hf. case_decide; subst; by simplify_eq/=. }
  split_and!; [done | | |].
  - intros b' Hlt'. destruct (Hb b' Hlt') as (Hb1 & Hb2 & Hb3 & Hb4). unfold buf_ok.
    destruct (Hdb b') as (-> & -> & -> & -> & ->). simpl.
    split_and!; [done | done | done |]. case_decide as He.
    + subst b'. right. done.
    + rewrite Hkl, Hpid by done. destruct Hb4 as [(m & Hm & Hb4)|(Hb4 & Hb5)].
      * left. exists m. split; [by apply Hkeep | done].
      * right. split; [|done]. intros [[b2 m2] [-> Hx]]%list_elem_of_fmap. apply Hb4.
        apply list_elem_of_fmap. exists (b2, m2). split; [done|]. rewrite Hh.
        rewrite elem_of_app, elem_of_cons in *. tauto.
  - intros b1 b2. destruct (Hdb b1) as (-> & -> & _), (Hdb b2) as (-> & -> & _). apply Hu.
  - simpl. intros m Hm. destruct (Hp m Hm) as (b' & ?). exists b'.
    by destruct (Hdb b') as (-> & -> & _).
Qed.

Lemma wp_brelse s v b n H1 H2 (Q : unit -> S -> Prop) :
  bio_ok s [] v -> v_held v = H1 ++ (b, n) :: H2 ->
  n ∈ v_pin v \/ v_data v n = v_disk v n ->
  (forall s', bio_ok s' [] (v_setheld (H1 ++ H2) v) -> Q tt s') -> wp (brelse b) s Q.
Proof.
  intros Hok Hh Hcl HQ. unfold brelse. wp_step.
  assert (Hin : (b, n) ∈ v_held v) by (rewrite Hh, elem_of_app, elem_of_cons; tauto).
  eapply wp_holds; [exact Hok | exact Hin |]. intros s1 Hok1 _. clear s Hok.
  cbv [negb]. pose proof Hok1 as (Hc1 & Hm1 & ((l & Hr) & _) & Hv & Hdk). wp_step.
  pose proof (held_buf _ _ _ _ _ Hok1 Hin) as (Hlt & _ & _ & _ & _ & _ & Hrc & _).
  eapply wp_releasesleep; [exact Hc1 | apply not_elem_of_nil | apply not_elem_of_nil |].
  intros s2 Hc2 Hp2 Hl2 Ho2. unfold procs_of in Hp2. wp_step.
  eapply wp_acquire; [exact Hc2 | apply not_elem_of_nil |]. intros c3 Hc3 (Hp3 & _).
  unfold modbuf, getbuf. wp_step. blens. cbn [buf_of upd_buf]. rewrite decide_True by done.
  assert (Hkb : forall b', buf_of (lget s2) b' = kbuf s1 b')
    by (intros b'; unfold kbuf; by rewrite (Ho2 bcache HB _ _)).
  rewrite Hkb. cbn [refcnt set_refcnt]. rewrite Hrc. change (u32 (1 - 1) =? 0) with true. cbv iota.
  wp_step. blens.
  eapply wp_release; [blens; exact Hc3|]. intros c4 Hc4 (Hp4 & _). revert Hp4. blens. intros Hp4.
  match goal with |- Q _ ?st => set (s' := st) end.
  assert (Hpid : pid <$> procs (lget s') = pid <$> procs (lget s1)).
  { unfold s'. blens. by rewrite Hp4, Hp3, Hp2, wake_pids. }
  assert (Hlocks : forall b', klock s' b' = if decide (blk b' = blk b)
    then {| slocked := false; spid := 0 |} else klock s1 b').
  { intros b'. unfold klock, s'. blens. apply Hl2. }
  set (c := upd_buf b (fun k => set_refcnt (refcnt k -u 1) k) (lget s2)).
  assert (Hcache : lget s' = link_head b (unlink b c)) by (unfold s'; by blens).
  apply HQ. split_and!.
  - unfold s'. by blens.
  - apply (f_equal length) in Hpid. rewrite !length_fmap in Hpid. by rewrite Hpid.
  - eapply cache_release; [exact Hok1 | done | done | | | | |].
    + rewrite Hcache. eapply ring_move; [|done].
      eapply (ring_same_links (lget s1)); [| |exact Hr]; intros b'; unfold nexts, prevs, c; simpl;
        rewrite Hkb; by case_decide.
    + intros b'. unfold kbuf at 1. rewrite Hcache, fields_move. unfold c. simpl. rewrite Hkb.
      case_decide; [subst b'|done]. by rewrite Hrc.
    + intros b' Hne. rewrite Hlocks, decide_False; [done | unfold blk; lia].
    + by rewrite Hlocks, decide_True.
    + unfold mypid. by apply getp_pid.
  - by eapply view_ok_release.
  - unfold disk_ok, s'. blens. rewrite (Ho2 disk HK _ _). done.
Qed.

(** *** Initialisation *)

(** One round of the loop of [binit]. *)
Definition init_buf (b : nat) : M S unit :=
  lmod (T := bcache) (fun c =>
    upd_buf b (set_prev bhead) (upd_buf b (set_next (next (buf_of c bhead))) c));;
  initsleeplock (blk b);;
  lmod (T := bcache) (fun c =>
    upd_buf bhead (set_next b) (upd_buf (next (buf_of c bhead)) (set_prev b) c)).

Lemma wp_init_buf s i p b (Q : unit -> S -> Prop) :
  core_ok (lget s) i [] ie p ->
  (forall s', core_ok (lget s') i [] ie p -> procs (lget s') = procs (lget s) ->
     lget s' = link_head b (lget s) -> slocked (klock s' b) = false ->
     (forall b', b' <> b -> klock s' b' = klock s b') -> lget (T := disk) s' = lget s -> Q tt s') ->
  wp (init_buf b) s Q.
Proof.
  intros Hc HQ. unfold init_buf, initsleeplock, sl_put. wp_step.
  eapply wp_initlock; [by rewrite lsep_l | apply not_elem_of_nil |]. intros c' Hc' (Hp & _).
  revert Hp. rewrite lsep_l. intros Hp. wp_step. apply HQ.
  - by blens.
  - by blens.
  - by blens.
  - unfold klock. blens. simpl. by rewrite decide_True.
  - intros b' Hne. unfold klock. blens. simpl. rewrite decide_False; [done|]. unfold blk. lia.
  - by blens.
Qed.

Lemma wp_init_loop p k : forall s i n (Q : unit -> S -> Prop),
  core_ok (lget s) i [] ie p -> linked (lget s) (rev (seq 0 n)) -> (n + k <= NBUF)%nat ->
  (forall s', core_ok (lget s') i [] ie p -> procs (lget s') = procs (lget s) ->
     linked (lget s') (rev (seq 0 (n + k))) ->
     (forall b, fields (kbuf s' b) = fields (kbuf s b)) ->
     (forall b, (n <= b < n + k)%nat -> slocked (klock s' b) = false) ->
     (forall b, (b < n)%nat -> klock s' b = klock s b) -> lget (T := disk) s' = lget s -> Q tt s') ->
  wp (for_each init_buf (seq n k)) s Q.
Proof.
  induction k as [|k IH]; intros s i n Q Hc Hl Hn HQ; cbn [seq for_each].
  - apply wp_ret. apply HQ; try done; [by rewrite Nat.add_0_r | lia].
  - wp_step. eapply wp_init_buf; [exact Hc|]. intros s1 Hc1 Hp1 Hb1 Hf1 Hk1 Hd1.
    assert (Hx : n ∉ bhead :: rev (seq 0 n)).
    { rewrite elem_of_cons, list_elem_of_In, <- in_rev, in_seq. unfold bhead. lia. }
    eapply IH; [exact Hc1 | | lia |].
    + rewrite Hb1. rewrite seq_S, rev_app_distr. simpl. by apply linked_link.
    + intros s2 Hc2 Hp2 Hl2 Hfl2 Hs2' Hk2 Hd2. apply HQ; try done.
      * by rewrite Hp2.
      * by replace (n + Datatypes.S k)%nat with (Datatypes.S n + k)%nat by lia.
      * intros b. rewrite Hfl2. unfold kbuf. rewrite Hb1. unfold link_head. simpl.
        repeat case_decide; subst; done.
      * intros b Hb. destruct (decide (b = n)) as [->|]; [rewrite Hk2 by lia; done | apply Hs2'; lia].
      * intros b Hb. rewrite Hk2 by lia. apply Hk1. lia.
      * by rewrite Hd2.
Qed.

End Laws.

(** ** The properties of the cache *)

Section Claims.
Context {S : Type} {HL : Lens S core} {HT : Lens S slocktab} {HB : Lens S bcache}
  {HK : Lens S disk}.
Context {HLok : LensOk S core} {HTok : LensOk S slocktab} {HBok : LensOk S bcache}
  {HKok : LensOk S disk}.
Context {Hs1 : LensSep S core slocktab} {Hs2 : LensSep S core bcache} {Hs3 : LensSep S core disk}
  {Hs4 : LensSep S slocktab bcache} {Hs5 : LensSep S slocktab disk} {Hs6 : LensSep S bcache disk}.
Context (cpu me : nat) (ie : bool).

(** C36: [bread] returns a buffer that this process has locked and that holds the
    current contents of the block, whether the block was cached or a buffer had to
    be recycled and read from the disk; it is the only buffer of that block, and
    neither the contents of any block nor the disk change. *)
Theorem bread_correct (s : S) v n fuel :
  bio_ok cpu me ie s [] v -> 0 <= n < v_size v -> n ∉ (v_held v).*2 ->
  n ∈ v_pin v \/ (size (v_pin v) + length (v_held v) < NBUF)%nat ->
  exists b s', bread (Datatypes.S fuel) ROOTDEV n s = Ret b s' /\
    bio_ok cpu me ie s' [] (v_hold b n v) /\ bdata (kbuf s' b) = v_data v n /\
    klock s' b = {| slocked := true; spid := mypid me s' |} /\
    forall b', (b' < NBUF)%nat -> dev (kbuf s' b') = ROOTDEV -> blockno (kbuf s' b') = n -> b' = b.
Proof.
  intros Hok Hn Hnh Hcap.
  destruct (wp_bread cpu me ie s v n fuel (fun b s' => bio_ok cpu me ie s' [] (v_hold b n v)))
    as (b & s' & E & Hok'); [done | done | done | done | done |].
  assert (Hin : (b, n) ∈ v_held (v_hold b n v)) by (left).
  pose proof (held_buf _ _ _ _ _ _ _ _ Hok' Hin) as (Hlt & _ & Hd & Hbn & _ & Hbd & _ & Hk).
  exists b, s'. split_and!; try done. intros b' Hlt' Hd' Hbn'.
  destruct Hok' as (_ & _ & (_ & _ & Hu & _) & _). apply Hu; try done. congruence.
Qed.

(** [bwrite] puts the contents of a held buffer on the disk as one block write,
    and after [brelse] the buffer is free, unlocked and first in the list of the
    cache, which is still well formed; every other block is untouched. *)
Theorem bwrite_brelse_correct (s : S) v b n H :
  bio_ok cpu me ie s [] v -> v_held v = (b, n) :: H ->
  exists s', (bwrite b ;; brelse b) s = Ret tt s' /\
    bio_ok cpu me ie s' [] (v_setheld H (v_write n v)) /\
    blocks (lget s') n = v_data v n /\ trace (lget s') = v_trace v ++ [(n, v_data v n)].
Proof.
  intros Hok Hh. assert (Hin : (b, n) ∈ v_held v) by (rewrite Hh; left).
  assert (Hn : 0 <= n < v_size v) by (destruct (held_buf _ _ _ _ _ _ _ _ Hok Hin) as (_ & ? & _); done).
  assert (wp (bwrite b ;; brelse b) s (fun _ s' =>
    bio_ok cpu me ie s' [] (v_setheld H (v_write n v)))) as ([] & s' & E & Hok').
  { wp_step. eapply wp_bwrite; [exact Hok | exact Hin |]. intros s1 Hok1.
    eapply (wp_brelse cpu me ie s1 _ b n [] H); [exact Hok1 | done | |done].
    right. simpl. by rewrite fupd_eq. }
  exists s'. split_and!; try done.
  - destruct Hok' as (_ & _ & _ & _ & (_ & _ & Hdb)). rewrite Hdb by done. simpl. by rewrite fupd_eq.
  - destruct Hok' as (_ & _ & _ & _ & (_ & Htr & _)). done.
Qed.

(** When a block is not cached and every buffer is in use or dirty (pinned by
    the log until its commit), [bread] panics: the cache never evicts a buffer
    whose contents the disk does not have. *)
Theorem bread_no_buffers (s : S) v n fuel :
  bio_ok cpu me ie s [] v ->
  (forall b, (b < NBUF)%nat -> is_block ROOTDEV n (kbuf s b) = false) ->
  (forall b, (b < NBUF)%nat -> refcnt (kbuf s b) <> 0 \/ has (flags (kbuf s b)) B_DIRTY = true) ->
  exists s', bread fuel ROOTDEV n s = Panic "bget: no buffers" s'.
Proof.
  intros Hok Hmiss Hused. pose proof Hok as (Hc & _ & ((l & Hr) & _) & _).
  destruct (wp_acquire s cpu [] ie (Some me) L_bcache (fun _ s' => exists c : core, s' = lset c s))
    as ([] & s1 & E & c & ->); [done | apply not_elem_of_nil | by eauto |].
  exists (lset c s). unfold bread. apply bind_panic. unfold bget. rewrite (bind_ret _ _ _ _ _ E).
  erewrite bind_ret by reflexivity. rewrite lsep_r.
  pose proof (ring_nodup _ _ Hr) as [HN Hlen]. apply NoDup_cons in HN as [Hhl _].
  pose proof Hr as (HP & Hpath & Hinv).
  rewrite (scan_path next _ _ l) by (done || (rewrite Hlen; unfold scan_fuel; lia)).
  pose proof (find_iff (fun b => is_block ROOTDEV n (kbuf s b)) l) as Hfind. unfold kbuf in Hfind.
  destruct (List.find _ l) as [b|].
  { destruct Hfind as [Hbl Hib]. apply (ring_elem _ _ _ Hr) in Hbl.
    specialize (Hmiss b Hbl). unfold kbuf in Hmiss. congruence. }
  erewrite bind_ret by reflexivity. rewrite lsep_r.
  rewrite (scan_path prev _ _ (rev l)).
  2:{ by apply (path_back (nexts (lget s)) (prevs (lget s))). }
  2:{ by rewrite list_elem_of_In, <- in_rev, <- list_elem_of_In. }
  2:{ rewrite length_rev, Hlen. unfold scan_fuel. lia. }
  pose proof (find_iff (fun b => is_unused (kbuf s b)) (rev l)) as Hfree. unfold kbuf in Hfree.
  destruct (List.find _ (rev l)) as [b|]; [exfalso|done].
  destruct Hfree as [Hbl Hun]. rewrite list_elem_of_In, <- in_rev, <- list_elem_of_In in Hbl.
  apply (ring_elem _ _ _ Hr) in Hbl. unfold is_unused in Hun. zbool.
  destruct (Hused b Hbl) as [Hx|Hx]; unfold kbuf in Hx; [lia|]. congruence.
Qed.

(** [binit] on zeroed buffers builds the list of all NBUF buffers, free and
    unlocked, none of them standing for a block of the disk. *)
Theorem binit_correct (s : S) i p v :
  core_ok (lget s) i [] ie p -> v_held v = [] -> v_pin v = ∅ ->
  (forall b, (b < NBUF)%nat -> flags (kbuf s b) = 0 /\ dev (kbuf s b) = 0 /\ refcnt (kbuf s b) = 0) ->
  wp binit s (fun _ s' => core_ok (lget s') i [] ie p /\ cache_ok me s' v).
Proof.
  intros Hc Hh Hpin Hz. unfold binit, modbuf. wp_step.
  eapply wp_initlock; [exact Hc | apply not_elem_of_nil |]. intros c1 Hc1 _. wp_step.
  change (wp (for_each init_buf (seq 0 NBUF)) (lset (upd_buf bhead (set_next bhead) (lget
    (lset (upd_buf bhead (set_prev bhead) (lget (lset c1 s))) (lset c1 s))))
    (lset (upd_buf bhead (set_prev bhead) (lget (lset c1 s))) (lset c1 s)))
    (fun _ s' => core_ok (lget s') i [] ie p /\ cache_ok me s' v)).
  eapply (wp_init_loop ie p NBUF _ i 0).
  { by rewrite !lsep_l, lget_lset. }
  { split_and!; [repeat constructor; apply not_elem_of_nil | |].
    - simpl. unfold nexts. rewrite !lget_lset. by simpl.
    - intros b ->%list_elem_of_singleton. unfold nexts, prevs. rewrite !lget_lset. by simpl. }
  { done. }
  intros s' Hc' _ Hl' Hf' Hs' _ _. split; [done|].
  assert (Hk : forall b, (b < NBUF)%nat -> flags (kbuf s' b) = 0 /\ dev (kbuf s' b) = 0 /\ refcnt (kbuf s' b) = 0).
  { intros b Hb. destruct (Hz b Hb) as (H1 & H2 & H3). specialize (Hf' b). unfold kbuf in Hf', H1, H2, H3.
    rewrite !lget_lset, lsep_r in Hf'. simpl in Hf'.
    rewrite !decide_False in Hf' by (unfold bhead; lia). unfold fields, kbuf in *.
    injection Hf' as Ha Hb' _ Hc2 _. by rewrite Ha, Hb', Hc2. }
  split_and!.
  - exists (rev (seq 0 NBUF)). apply linked_ring; [done|]. symmetry. apply Permutation_rev.
  - intros b Hb. destruct (Hk b Hb) as (H1 & H2 & H3). unfold buf_ok. rewrite H1, H2, H3, Hh, Hpin.
    split_and!; [tauto | done | split; [done | by intros [? _]] |].
    right. split_and!; [apply not_elem_of_nil | done | apply Hs'; unfold NBUF in *; lia].
  - intros b1 b2 Hb1 _ Hd. destruct (Hk b1 Hb1) as (_ & Hx & _). congruence.
  - rewrite Hpin. by intros n ?%elem_of_empty.
Qed.

End Claims.

(** The block layer, with a bound on the wakeups of one [acquiresleep]. *)
Section Interface.
Context {S : Type} `{HL : Lens S core} `{HT : Lens S slocktab} `{HB : Lens S bcache}
  `{HK : Lens S disk} (fuel : nat).

#[export] Instance bio_layer : BlockLayer S := {|
  bl_bread := bread (Datatypes.S fuel);
  bl_bwrite := bwrite;
  bl_brelse := brelse;
  bl_data b := k ← getbuf b; mret (bdata k);
  bl_setdata b d := modbuf b (set_data d);
  bl_blockno b := k ← getbuf b; mret (blockno k);
  bl_pin b := modbuf b (fun k => set_flags (Z.lor (flags k) B_DIRTY) k)
|}.

Context `{!LensOk S core} `{!LensOk S slocktab} `{!LensOk S bcache} `{!LensOk S disk}.
Context `{!LensSep S core slocktab} `{!LensSep S core bcache} `{!LensSep S core disk}
  `{!LensSep S slocktab bcache} `{!LensSep S slocktab disk} `{!LensSep S bcache disk}.

Program Definition bio_laws (cpu me : nat) (ie : bool) : BlockLaws S :=
  {| bl_cpu := cpu; bl_ie := ie; bl_me := me; bl_ok := bio_ok cpu me ie |}.
Next Obligation. intros; by eapply bio_ok_equiv. Qed.
Next Obligation. by intros cpu me ie s L v (? & ? & _). Qed.
Next Obligation. intros; by eapply bio_ok_frame. Qed.
Next Obligation.
  intros cpu me ie s L v n (_ & _ & _ & (_ & _ & _ & Hbl) & _) Hn. by destruct (Hbl n Hn) as (? & ? & _).
Qed.
Next Obligation.
  intros cpu me ie s L v n (_ & _ & _ & (_ & _ & _ & Hbl) & _) Hn H1 H2.
  by destruct (Hbl n Hn) as (_ & _ & [?|[?|?]]).
Qed.
Next Obligation. intros; by eapply wp_bread. Qed.
Next Obligation. intros; by eapply wp_bwrite. Qed.
Next Obligation. intros; by eapply wp_brelse. Qed.
Next Obligation. intros; by eapply wp_bdata. Qed.
Next Obligation. intros; by eapply wp_setdata. Qed.
Next Obligation. intros; by eapply wp_blockno. Qed.
Next Obligation. intros cpu me ie s L v b n Q Hok Hin HQ. eapply wp_pin; eauto. Qed.

End Interface.

(** *** A concrete system *)

Abbreviation bst := (core * (slocktab * (bcache * disk)))%type.

(** The cache as [binit] leaves it. *)
Definition boot_cache : bcache :=
  {| buf_of := fun b =>
       {| flags := 0; dev := 0; blockno := 0; refcnt := 0;
          next := if decide (b = 0)%nat then bhead else Nat.pred b;
          prev := if decide (b = bhead) then 0%nat else Datatypes.S b; bdata := replicate 512 0 |} |}.
Definition boot_disk : disk :=
  {| disksize := 1000; blocks := fun _ => replicate 512 0; trace := [] |}.
Definition boot_bio : bst :=
  (boot_core, ({| sl_of := fun _ => {| slocked := false; spid := 0 |} |}, (boot_cache, boot_disk))).

(** A view of a disk nobody uses. *)
Definition idle_view (d : Z -> block) (n : Z) : bview :=
  {| v_disk := d; v_data := d; v_pin := ∅; v_held := []; v_trace := []; v_size := n |}.

Lemma zero_block_ok : block_ok (replicate 512 0).
Proof. split; [by rewrite length_replicate|]. apply Forall_replicate. lia. Qed.

Lemma boot_ring : ring boot_cache (rev (seq 0 NBUF)).
Proof.
  apply linked_ring; [|symmetry; apply Permutation_rev]. split_and!.
  - apply (bool_decide_eq_true_1 (NoDup (bhead :: rev (seq 0 NBUF)))). vm_compute. reflexivity.
  - vm_compute. repeat (split; [reflexivity|]). reflexivity.
  - intros b Hb. assert (Hle : (b <= 30)%nat).
    { rewrite elem_of_cons, list_elem_of_In, <- in_rev, in_seq in Hb. unfold bhead, NBUF in Hb. lia. }
    unfold nexts, prevs. simpl. destruct (decide (b = 0)%nat) as [->|H0]; [done|].
    rewrite decide_False by (unfold bhead, NBUF; lia). lia.
Qed.

Lemma boot_bio_ok : bio_ok 0 0 true boot_bio [] (idle_view (blocks boot_disk) 1000).
Proof.
  split_and!; [exact boot_ok | vm_compute; lia | | |].
  - split_and!.
    + exists (rev (seq 0 NBUF)). exact boot_ring.
    + intros b Hb. unfold buf_ok. simpl. split_and!; [tauto | done | split; [done | by intros []] |].
      right. split; [apply not_elem_of_nil | done].
    + by intros b1 b2 _ _ Hd.
    + intros n Hn. by apply elem_of_empty in Hn.
  - split_and!; [constructor | constructor | by intros b n ?%elem_of_nil |]. intros n Hn. simpl.
    split_and!; [apply zero_block_ok | apply zero_block_ok | by left].
  - by split_and!.
Qed.

Lemma bread_correct_witness :
  exists b s', bread 1 ROOTDEV 7 boot_bio = Ret b s' /\ bdata (kbuf s' b) = replicate 512 0.
Proof.
  destruct (bread_correct (S := bst) 0 0 true boot_bio (idle_view (blocks boot_disk) 1000) 7 0)
    as (b & s' & E & _ & Hd & _).
  - exact boot_bio_ok.
  - simpl. lia.
  - apply not_elem_of_nil.
  - right. vm_compute. lia.
  - exists b, s'. split; [exact E | exact Hd].
Defined.

(** The state after one [bread]. *)
Definition after_bread : bst :=
  match bread 1 ROOTDEV 7 boot_bio with Ret _ s => s | _ => boot_bio end.

Lemma after_bread_ok :
  bio_ok 0 0 true after_bread [] (v_hold 0 7 (idle_view (blocks boot_disk) 1000)).
Proof.
  assert (Hwp : wp (bread 1 ROOTDEV 7) boot_bio (fun b s' =>
    bio_ok 0 0 true s' [] (v_hold b 7 (idle_view (blocks boot_disk) 1000)))).
  { apply (wp_bread (S := bst) 0 0 true _ (idle_view (blocks boot_disk) 1000)).
    - exact boot_bio_ok.
    - simpl. lia.
    - apply not_elem_of_nil.
    - right. vm_compute. lia.
    - auto. }
  destruct Hwp as (b & s' & E & Hok). unfold after_bread. rewrite E.
  assert (b = O) as ->; [|exact Hok].
  assert (E2 : match bread 1 ROOTDEV 7 boot_bio with Ret b _ => b | _ => 99%nat end = O)
    by (vm_compute; reflexivity).
  by rewrite E in E2.
Qed.

Lemma bwrite_brelse_correct_witness :
  exists s', (bwrite 0 ;; brelse 0) after_bread = Ret tt s' /\
    trace (lget s') = [(7, replicate 512 0)].
Proof.
  destruct (bwrite_brelse_correct (S := bst) 0 0 true after_bread
    (v_hold 0 7 (idle_view (blocks boot_disk) 1000)) 0 7 []) as (s' & E & _ & _ & Ht).
  - exact after_bread_ok.
  - reflexivity.
  - exists s'. split; [exact E | exact Ht].
Defined.

(** Every buffer dirty: block [100 + b] in buffer [b]. *)
Definition full_cache : bcache :=
  {| buf_of := fun b =>
       {| flags := 6; dev := 1; blockno := 100 + Z.of_nat b; refcnt := 0;
          next := if decide (b = 0)%nat then bhead else Nat.pred b;
          prev := if decide (b = bhead) then 0%nat else Datatypes.S b; bdata := replicate 512 0 |} |}.
Definition full_bio : bst :=
  (boot_core, ({| sl_of := fun _ => {| slocked := false; spid := 0 |} |}, (full_cache, boot_disk))).
Definition full_view : bview :=
  {| v_disk := blocks boot_disk; v_data := blocks boot_disk;
     v_pin := list_to_set ((fun b => 100 + Z.of_nat b) <$> seq 0 NBUF); v_held := []; v_trace := [];
     v_size := 1000 |}.

Lemma full_pin n : n ∈ v_pin full_view <-> 100 <= n < 130.
Proof.
  unfold full_view; cbn [v_pin]. rewrite elem_of_list_to_set, list_elem_of_fmap. split.
  - intros (b & -> & Hb%elem_of_seq). unfold NBUF in *. lia.
  - intros Hn. exists (Z.to_nat (n - 100)). rewrite elem_of_seq. unfold NBUF. lia.
Qed.

Lemma full_bio_ok : bio_ok 0 0 true full_bio [] full_view.
Proof.
  split_and!; [exact boot_ok | vm_compute; lia | | |].
  - split_and!.
    + exists (rev (seq 0 NBUF)). eapply ring_same_links; [| |exact boot_ring]; done.
    + intros b Hb. unfold NBUF in Hb. unfold buf_ok. rewrite full_pin. simpl.
      split_and!; [tauto | intros _; split_and!; done || lia | lia |].
      right. split; [apply not_elem_of_nil | done].
    + intros b1 b2 _ _ _ _. simpl. lia.
    + intros n Hn%full_pin. exists (Z.to_nat (n - 100)). unfold NBUF. simpl. lia.
  - split_and!; [constructor | constructor | by intros b n ?%elem_of_nil |]. intros n Hn.
    split_and!; [apply zero_block_ok | apply zero_block_ok | by left].
  - by split_and!.
Qed.

Lemma bread_no_buffers_witness :
  exists s', bread 1 ROOTDEV 7 full_bio = Panic "bget: no buffers" s'.
Proof.
  apply (bread_no_buffers (S := bst) 0 0 true full_bio full_view 7 1).
  - exact full_bio_ok.
  - intros b Hb. unfold is_block. simpl. lia.
  - intros b Hb. right. reflexivity.
Defined.

Lemma binit_correct_witness :
  wp binit boot_bio (fun _ s' => core_ok (lget s') 0 [] true (Some 0%nat) /\
    cache_ok 0 s' (idle_view (blocks boot_disk) 1000)).
Proof.
  apply (binit_correct (S := bst) 0 true boot_bio 0 (Some 0%nat)
    (idle_view (blocks boot_disk) 1000)).
  - exact boot_ok.
  - reflexivity.
  - reflexivity.
  - intros b _. split_and!; reflexivity.
Defined.

End BioLaws.
