(* ===== verification/LogSafety.v ===== *)
(** * Crash safety of the log

    First the disk-level argument on sequences of block writes, then the programs
    of [Log] produce exactly those sequences. *)

From stdpp Require Import base gmap list strings.
From Stdlib Require Import ZArith Lia.
From S2P Require Import Prelude Core Locking Bio BioLaws Log.
Import Log.

Module LogSafety.

(** ** The header block *)

Lemma block_ok_put32 d o v : block_ok d -> block_ok (put32 d o v).
Proof.
  intros [Hl Hf]. split; [by rewrite put32_length|]. unfold put32.
  repeat apply zset_Forall; auto using u8_range.
Qed.

Lemma put_blocks_spec l : forall d i,
  length d = 512%nat -> (i + length l <= 30)%nat ->
  length (put_blocks d i l) = 512%nat /\
  (forall o, 0 <= o -> o + 4 <= 4 + 4 * Z.of_nat i -> get32 (put_blocks d i l) o = get32 d o) /\
  forall j x, l !! j = Some x -> get32 (put_blocks d i l) (4 + 4 * Z.of_nat (i + j)) = u32 x.
Proof.
  induction l as [|y l IH]; intros d i Hd Hi; simpl; [done|].
  simpl in Hi. destruct (IH (put32 d (4 + 4 * Z.of_nat i) y) (Datatypes.S i)) as (H1 & H2 & H3);
    [by rewrite put32_length | lia |].
  split_and!; [done | |].
  - intros o Ho1 Ho2. rewrite H2 by lia. apply get32_put32_ne. lia.
  - intros [|j] x Hx; simpl in Hx.
    + injection Hx as ->. rewrite Nat.add_0_r, H2 by lia.
      apply get32_put32_eq; [lia|]. unfold zlen. lia.
    + replace (i + Datatypes.S j)%nat with (Datatypes.S i + j)%nat by lia. by apply H3.
Qed.

Lemma put_blocks_ok l : forall d i, block_ok d -> block_ok (put_blocks d i l).
Proof. induction l; intros; simpl; auto using block_ok_put32. Qed.

Lemma s32_u32 x : - 2 ^ 31 <= x < 2 ^ 31 -> s32 (u32 x) = x.
Proof. intros. zwrap. Qed.

(** What [write_head] writes is what [read_head] reads. *)
Lemma head_roundtrip d n l :
  block_ok d -> (n <= 30)%nat -> (n <= length l)%nat ->
  Forall (fun x => - 2 ^ 31 <= x < 2 ^ 31) (take n l) ->
  block_ok (encode_head d (Z.of_nat n) l) /\
  head_n (encode_head d (Z.of_nat n) l) = Z.of_nat n /\
  head_list (encode_head d (Z.of_nat n) l) = take n l.
Proof.
  intros [Hd Hb] Hn Hl Hf. unfold encode_head. rewrite Nat2Z.id.
  destruct (put_blocks_spec (take n l) (put32 d 0 (Z.of_nat n)) 0) as (H1 & H2 & H3);
    [by rewrite put32_length | rewrite length_take; lia |].
  assert (Hhn : head_n (put_blocks (put32 d 0 (Z.of_nat n)) 0 (take n l)) = Z.of_nat n).
  { unfold head_n. rewrite H2 by lia. rewrite get32_put32_eq by (unfold zlen; lia).
    apply s32_u32. lia. }
  split_and!; [by apply put_blocks_ok, block_ok_put32 | done |].
  unfold head_list. rewrite Hhn, Nat2Z.id. apply list_eq. intros j. rewrite list_lookup_fmap.
  destruct (decide (j < n)%nat) as [Hj|Hj].
  - rewrite lookup_seq_lt by done. simpl. destruct (lookup_lt_is_Some_2 l j) as [x Hx]; [lia|].
    rewrite lookup_take_lt by done. rewrite Hx. f_equal. unfold head_block.
    specialize (H3 j x). rewrite lookup_take_lt in H3 by done. specialize (H3 Hx).
    cbn [Nat.add] in *. rewrite H3. apply s32_u32.
    rewrite Forall_forall in Hf. apply Hf. apply list_elem_of_lookup. exists j.
    by rewrite lookup_take_lt.
  - rewrite lookup_seq_ge by lia. simpl. symmetry. apply lookup_ge_None_2. rewrite length_take. lia.
Qed.

Lemma get_blocks_spec d k : forall i l,
  (i + k <= length l)%nat ->
  length (get_blocks d i k l) = length l /\
  take (i + k) (get_blocks d i k l) = take i l ++ (head_block d <$> seq i k).
Proof.
  induction k as [|k IH]; intros i l Hl; simpl.
  - by rewrite Nat.add_0_r, app_nil_r.
  - destruct (IH (Datatypes.S i) (<[i:=head_block d i]> l)) as [H1 H2]; [rewrite length_insert; lia|].
    rewrite length_insert in H1. split; [done|].
    replace (i + Datatypes.S k)%nat with (Datatypes.S i + k)%nat by lia. rewrite H2.
    rewrite (take_S_r _ i (head_block d i)) by (rewrite list_lookup_insert_eq by lia; done).
    rewrite take_insert_ge by lia. by rewrite <- app_assoc.
Qed.

(** ** Block writes *)

Lemma apply_writes_app w1 w2 D : apply_writes (w1 ++ w2) D = apply_writes w2 (apply_writes w1 D).
Proof. apply fold_left_app. Qed.

Lemma apply_writes_notin w : forall D b, b ∉ w.*1 -> apply_writes w D b = D b.
Proof.
  induction w as [|[x d] w IH]; intros D b Hb; [done|]. csimpl in *.
  rewrite elem_of_cons in Hb. unfold apply_writes in *. simpl. rewrite IH by tauto.
  apply fupd_ne. tauto.
Qed.

Lemma apply_writes_in w : forall D b d,
  NoDup w.*1 -> (b, d) ∈ w -> apply_writes w D b = d.
Proof.
  induction w as [|[x e] w IH]; intros D b d HN Hin; [by apply elem_of_nil in Hin|].
  csimpl in *. apply NoDup_cons in HN as [Hni HN]. apply elem_of_cons in Hin as [Heq|Hin].
  - injection Heq as -> ->. unfold apply_writes. simpl. fold (apply_writes w (fupd x e D)).
    rewrite apply_writes_notin by done. apply fupd_eq.
  - unfold apply_writes. simpl. by apply IH.
Qed.

Lemma apply_writes_same w : forall D1 D2 b,
  b ∈ w.*1 -> apply_writes w D1 b = apply_writes w D2 b.
Proof.
  induction w as [|[x d] w IH]; intros D1 D2 b Hin; [by apply elem_of_nil in Hin|].
  csimpl in Hin. unfold apply_writes. simpl. destruct (decide (b ∈ w.*1)) as [Hin'|Hni].
  - by apply IH.
  - apply elem_of_cons in Hin as [->|?]; [|done].
    fold (apply_writes w (fupd x d D1)) (apply_writes w (fupd x d D2)).
    by rewrite !apply_writes_notin, !fupd_eq by done.
Qed.

Lemma apply_writes_inv (P : block -> Prop) w b : forall D,
  P (D b) -> Forall (fun wr => wr.1 = b -> P wr.2) w -> P (apply_writes w D b).
Proof.
  induction w as [|[x d] w IH]; intros D HD Hw; [done|]. inversion_clear Hw as [|? ? Hx Hw'].
  unfold apply_writes. simpl. apply IH; [|done]. unfold fupd. case_decide; [by apply Hx | done].
Qed.

Lemma take_keys (w : list (Z * block)) k b : b ∉ w.*1 -> b ∉ (take k w).*1.
Proof.
  intros Hb [p [-> Hp]]%list_elem_of_fmap. apply Hb, list_elem_of_fmap. exists p.
  split; [done|]. by eapply subseteq_take.
Qed.

(** The writes of [write_log] and of [install_trans]. *)
Definition log_writes (st : Z) (data : Z -> block) (bs : list Z) : list (Z * block) :=
  imap (fun i b => (st + Z.of_nat i + 1, data b)) bs.
Definition install_writes (st : Z) (data : Z -> block) (bs : list Z) : list (Z * block) :=
  imap (fun i b => (b, data (st + Z.of_nat i + 1))) bs.

Lemma log_writes_keys st f bs b :
  b ∈ (log_writes st f bs).*1 -> st < b <= st + Z.of_nat (length bs).
Proof.
  intros [[x d] [-> Hin]]%list_elem_of_fmap. apply elem_of_lookup_imap in Hin as (i & y & Heq & Hi).
  apply lookup_lt_Some in Hi. simplify_eq. simpl. lia.
Qed.

Lemma install_writes_keys st f bs : (install_writes st f bs).*1 = bs.
Proof.
  unfold install_writes. rewrite fmap_imap. apply list_eq. intros i.
  rewrite list_lookup_imap. by destruct (bs !! i).
Qed.

Lemma log_writes_nodup st f bs : NoDup (log_writes st f bs).*1.
Proof.
  apply NoDup_alt. intros i j x. unfold log_writes. rewrite fmap_imap, !list_lookup_imap.
  destruct (bs !! i), (bs !! j); simpl; intros; simplify_eq; lia.
Qed.

Lemma log_writes_at st f bs i b D :
  bs !! i = Some b -> apply_writes (log_writes st f bs) D (st + Z.of_nat i + 1) = f b.
Proof.
  intros Hi. apply apply_writes_in; [apply log_writes_nodup|].
  apply elem_of_lookup_imap. by exists i, b.
Qed.

(** ** The disk with its log *)

Lemma log_abs_clear D st b : head_n (D st) <= 0 -> log_abs D st b = D b.
Proof.
  intros Hn. unfold log_abs, head_list. by replace (Z.to_nat (head_n (D st))) with O by lia.
Qed.

Lemma redo_eq D (f : Z -> block) bs b : forall st,
  (forall i x, bs !! i = Some x -> D (st + Z.of_nat i) = f x) ->
  (b ∉ bs -> D b = f b) -> redo D st bs b = f b.
Proof.
  induction bs as [|x bs IH]; intros st Hlog Hout; simpl; [apply Hout, not_elem_of_nil|].
  case_decide as Hx.
  - subst. specialize (Hlog O x eq_refl). by rewrite Z.add_0_r in Hlog.
  - apply IH; [|intros Hni; apply Hout; rewrite elem_of_cons; tauto].
    intros i y Hy. specialize (Hlog (Datatypes.S i) y Hy). rewrite <- Hlog. f_equal. lia.
Qed.

(** A disk whose log holds the committed transaction [bs] with contents [f]. *)
Lemma log_abs_committed D st (f : Z -> block) bs b :
  head_list (D st) = bs ->
  (forall i x, bs !! i = Some x -> D (st + Z.of_nat i + 1) = f x) ->
  (b ∉ bs -> D b = f b) -> log_abs D st b = f b.
Proof.
  intros Hh Hlog Hout. unfold log_abs. rewrite Hh. apply redo_eq; [|done].
  intros i x Hx. rewrite <- (Hlog i x Hx). f_equal. lia.
Qed.

(** The blocks of a transaction lie outside of the log. *)
Definition apart (st : Z) (size : Z) (bs : list Z) : Prop :=
  NoDup bs /\ Z.of_nat (length bs) < size /\ Forall (fun b => b < st \/ st + size <= b) bs.

Definition home (st size b : Z) : Prop := b < st \/ st + size <= b.

Lemma apart_notin st size bs x : apart st size bs -> st <= x < st + size -> x ∉ bs.
Proof. intros (_ & _ & Hf) Hx Hin. eapply Forall_forall in Hf; [|done]. lia. Qed.

(** A crash while the committed blocks are being installed changes nothing. *)
Lemma install_prefix D st size (f : Z -> block) bs hdr0 k :
  apart st size bs -> head_list (D st) = bs -> head_n hdr0 = 0 ->
  (forall i x, bs !! i = Some x -> D (st + Z.of_nat i + 1) = f x) ->
  (forall b, home st size b -> b ∉ bs -> D b = f b) ->
  forall b, home st size b ->
    log_abs (apply_writes (take k (install_writes st D bs ++ [(st, hdr0)])) D) st b = f b.
Proof.
  intros Ha Hh H0 Hlog Hout b Hb. pose proof Ha as (HN & Hlen & _).
  assert (Hli : length (install_writes st D bs) = length bs)
    by (by unfold install_writes; rewrite length_imap).
  assert (Hst : forall x, st <= x < st + size -> x ∉ (install_writes st D bs).*1).
  { intros x Hx. rewrite install_writes_keys. by eapply apart_notin. }
  destruct (decide (k <= length bs)%nat) as [Hk|Hk].
  - rewrite take_app_le by lia. apply (log_abs_committed _ _ _ bs).
    + rewrite apply_writes_notin; [done|]. apply take_keys, Hst. lia.
    + intros i x Hx. rewrite apply_writes_notin; [by apply Hlog|]. apply take_keys, Hst.
      apply lookup_lt_Some in Hx. lia.
    + intros Hni. rewrite apply_writes_notin; [by apply Hout|].
      apply take_keys. by rewrite install_writes_keys.
  - rewrite take_ge by (rewrite length_app; simpl; lia). rewrite apply_writes_app.
    unfold apply_writes at 1. simpl. rewrite log_abs_clear by (rewrite fupd_eq; lia).
    rewrite fupd_ne by (unfold home in Hb; lia).
    destruct (decide (b ∈ bs)) as [Hin|Hni].
    + apply list_elem_of_lookup in Hin as [i Hi].
      rewrite (apply_writes_in _ _ b (f b)); [done | by rewrite install_writes_keys |].
      apply elem_of_lookup_imap. exists i, b. by rewrite (Hlog i b Hi).
    + rewrite apply_writes_notin; [by apply Hout | by rewrite install_writes_keys].
Qed.

(** The writes of a whole commit. *)
Definition commit_writes (st : Z) (data : Z -> block) (bs : list Z) (hdr hdr0 : block) : list (Z * block) :=
  log_writes st data bs ++ (st, hdr) :: ((fun b => (b, data b)) <$> bs) ++ [(st, hdr0)].

Lemma commit_writes_last st f bs hdr hdr0 D :
  apply_writes (commit_writes st f bs hdr hdr0) D st = hdr0.
Proof.
  unfold commit_writes. rewrite app_comm_cons, app_assoc, apply_writes_app.
  unfold apply_writes at 1. simpl. apply fupd_eq.
Qed.

Lemma commit_writes_keys st f bs hdr hdr0 b :
  b ∈ bs -> b ∈ (commit_writes st f bs hdr hdr0).*1.
Proof.
  intros Hb. unfold commit_writes. rewrite fmap_app, elem_of_app. right. csimpl. right.
  rewrite fmap_app, elem_of_app. left. rewrite <- list_fmap_compose.
  apply list_elem_of_fmap. by exists b.
Qed.

Lemma commit_writes_ext st f f' bs hdr hdr0 :
  (forall b, b ∈ bs -> f b = f' b) ->
  commit_writes st f bs hdr hdr0 = commit_writes st f' bs hdr hdr0.
Proof.
  intros He. unfold commit_writes, log_writes. f_equal.
  - apply imap_ext. intros i b Hb. f_equal. apply He. by eapply list_elem_of_lookup_2.
  - do 2 f_equal. apply list_fmap_ext. intros i b Hb. f_equal. apply He.
    by eapply list_elem_of_lookup_2.
Qed.

(** Once the transaction is in the log, installing it writes its own contents. *)
Lemma install_after_log st f bs hdr D :
  let D2 := fupd st hdr (apply_writes (log_writes st f bs) D) in
  (forall i x, bs !! i = Some x -> D2 (st + Z.of_nat i + 1) = f x) /\
  install_writes st D2 bs = (fun b => (b, f b)) <$> bs.
Proof.
  intros D2.
  assert (Hlog2 : forall i x, bs !! i = Some x -> D2 (st + Z.of_nat i + 1) = f x).
  { intros i x Hx. unfold D2. rewrite fupd_ne by lia. by apply log_writes_at. }
  split; [done|]. apply list_eq. intros i. unfold install_writes.
  rewrite list_lookup_fmap, list_lookup_imap.
  destruct (bs !! i) as [x|] eqn:Ex; [|done]. simpl. by rewrite (Hlog2 i x Ex).
Qed.

(** A crash anywhere in a commit leaves the old contents or the new ones. *)
Lemma commit_prefix D st size (f : Z -> block) bs hdr hdr0 k :
  apart st size bs -> head_n (D st) = 0 -> head_list hdr = bs -> head_n hdr0 = 0 ->
  (forall b, home st size b -> b ∉ bs -> D b = f b) ->
  forall b, home st size b ->
    log_abs (apply_writes (take k (commit_writes st f bs hdr hdr0)) D) st b =
      if decide (k <= length bs)%nat then D b else f b.
Proof.
  intros Ha H0 Hh Hh0 Hout b Hb. pose proof Ha as (HN & Hlen & _).
  assert (Hll : length (log_writes st f bs) = length bs) by (unfold log_writes; by rewrite length_imap).
  unfold commit_writes. case_decide as Hk.
  - rewrite take_app_le by lia.
    assert (Hni : forall x, (x = st \/ home st size x) -> x ∉ (take k (log_writes st f bs)).*1).
    { intros x Hx. apply take_keys. intros Hx'%log_writes_keys. unfold home in Hx. lia. }
    rewrite log_abs_clear by (rewrite apply_writes_notin by (apply Hni; by left); lia).
    apply apply_writes_notin, Hni. by right.
  - rewrite take_app_ge by lia. rewrite Hll.
    destruct (k - length bs)%nat as [|j] eqn:Ej; [lia|]. simpl take.
    rewrite apply_writes_app. set (D1 := apply_writes (log_writes st f bs) D).
    unfold apply_writes at 1. simpl. fold (apply_writes (take j (((fun b => (b, f b)) <$> bs) ++ [(st, hdr0)])) (fupd st hdr D1)).
    set (D2 := fupd st hdr D1).
    destruct (install_after_log st f bs hdr D) as [Hlog2 Heq].
    rewrite <- Heq. apply (install_prefix D2 st size f bs hdr0 j); try done.
    + unfold D2. by rewrite fupd_eq.
    + intros x Hx Hni. unfold D2. rewrite fupd_ne by (unfold home in Hx; lia).
      unfold D1. rewrite apply_writes_notin; [by apply Hout|].
      intros Hx'%log_writes_keys. unfold home in Hx. lia.
Qed.

(** ** The programs *)

Definition v_put (n : Z) (d : block) (v : bview) : bview :=
  {| v_disk := fupd n d (v_disk v); v_data := fupd n d (v_data v); v_pin := v_pin v ∖ {[n]};
     v_held := v_held v; v_trace := v_trace v ++ [(n, d)]; v_size := v_size v |}.
Definition v_puts (w : list (Z * block)) (v : bview) : bview :=
  fold_left (fun v wr => v_put wr.1 wr.2 v) w v.

Lemma v_write_modify n d v : v_write n (v_modify n d v) ≡ v_put n d v.
Proof.
  split_and!; try done; simpl; [intros m; unfold fupd; repeat case_decide; done|].
  by rewrite fupd_eq.
Qed.

Lemma v_puts_app w1 w2 v : v_puts (w1 ++ w2) v = v_puts w2 (v_puts w1 v).
Proof. apply fold_left_app. Qed.

Lemma v_puts_fields w : forall v,
  v_disk (v_puts w v) = apply_writes w (v_disk v) /\
  v_data (v_puts w v) = apply_writes w (v_data v) /\
  v_held (v_puts w v) = v_held v /\ v_trace (v_puts w v) = v_trace v ++ w /\
  v_size (v_puts w v) = v_size v /\
  (forall n, n ∈ v_pin (v_puts w v) <-> n ∈ v_pin v /\ n ∉ w.*1).
Proof.
  induction w as [|[x d] w IH]; intros v.
  - simpl. rewrite app_nil_r. split_and!; try done. intros n. split; [|tauto].
    intros ?. split; [done | apply not_elem_of_nil].
  - unfold v_puts in *. simpl. destruct (IH (v_put x d v)) as (-> & -> & -> & -> & -> & Hp).
    simpl. rewrite <- app_assoc. split_and!; try done. intros n. rewrite Hp. simpl.
    rewrite elem_of_difference, elem_of_singleton, elem_of_cons. tauto.
Qed.

Section Progs.
Context {S B : Type} {HLB : Lens S B} {HLg : Lens S logst} {HLc : Lens B core}
  {HBL : BlockLayer B} {HBW : BlockLaws B}.
Context {HBok : LensOk S B} {HGok : LensOk S logst} {Hsep : LensSep S B logst}
  {HCok : LensOk B core}.

Definition glog (s : S) : logst := lget s.

Ltac glens :=
  repeat first [rewrite lget_lset | rewrite lsep_l | rewrite lsep_r | rewrite lset_lset].

(** Copying block [src] to block [dst] through the cache, as both loops do. *)
Definition copy_block (first second : Z) (src_first : bool) : M S unit :=
  b1 ← lbread ROOTDEV first;
  b2 ← lbread ROOTDEV second;
  x ← ldata (if src_first then b1 else b2);
  let dst := if src_first then b2 else b1 in
  lsetdata dst x;;
  lbwrite dst;;
  lbrelse (if src_first then b1 else b2);;
  lbrelse dst.

Lemma wp_copy_block s v n1 n2 (sf : bool) (Q : unit -> S -> Prop) :
  let src := if sf then n1 else n2 in let dst := if sf then n2 else n1 in
  bl_ok (lget s) [] v -> v_held v = [] -> n1 <> n2 ->
  0 <= n1 < v_size v -> 0 <= n2 < v_size v ->
  n1 ∈ v_pin v \/ (size (v_pin v) < NBUF)%nat ->
  n2 ∈ v_pin v \/ (size (v_pin v) + 1 < NBUF)%nat ->
  (forall t, bl_ok t [] (v_put dst (v_data v src) v) -> Q tt (lset t s)) ->
  wp (copy_block n1 n2 sf) s Q.
Proof.
  intros src dst Hok Hh Hne Hr1 Hr2 Hc1 Hc2 HQ.
  assert (Hsd : src <> dst /\ 0 <= src < v_size v) by (unfold src, dst; destruct sf; lia).
  destruct Hsd as [Hsd Hsr].
  assert (Hclean : src ∈ v_pin v \/ v_data v src = v_disk v src).
  { destruct (decide (src ∈ v_pin v)); [by left | right]. eapply bl_ok_clean; eauto.
    rewrite Hh. apply not_elem_of_nil. }
  unfold copy_block, lbread, lbwrite, lbrelse, ldata, lsetdata. wp_step.
  apply wp_zoom. eapply bl_bread_law; [exact Hok | done | rewrite Hh; apply not_elem_of_nil
    | rewrite Hh; simpl; by rewrite Nat.add_0_r |].
  intros b1 t1 Hok1. wp_step. apply wp_zoom. glens.
  eapply bl_bread_law; [exact Hok1 | done | | |].
  { simpl. rewrite Hh. simpl. rewrite list_elem_of_singleton. congruence. }
  { simpl. rewrite Hh. done. }
  intros b2 t2 Hok2. wp_step. glens.
  set (v2 := v_hold b2 n2 (v_hold b1 n1 v)) in *.
  set (bs := if sf then b1 else b2). set (bd := if sf then b2 else b1).
  assert (Hin : (bs, src) ∈ v_held v2 /\ (bd, dst) ∈ v_held v2).
  { unfold v2, bs, bd, src, dst. simpl. rewrite Hh. destruct sf;
      rewrite !elem_of_cons; tauto. }
  destruct Hin as [Hins Hind].
  apply wp_zoom. glens. eapply bl_data_law; [exact Hok2 | exact Hins |]. wp_step.
  apply wp_zoom. glens. eapply bl_setdata_law; [exact Hok2 | exact Hind | |].
  { by eapply bl_ok_blocks. }
  intros t3 Hok3. wp_step. glens. apply wp_zoom. glens.
  eapply bl_bwrite_law; [exact Hok3 | exact Hind |]. intros t4 Hok4. wp_step. glens.
  eapply bl_ok_equiv in Hok4; [|apply v_write_modify].
  set (w := v_put dst (v_data v src) v).
  assert (Hw : exists H1 H2, v_held v2 = H1 ++ (bs, src) :: H2 /\ H1 ++ H2 = [(bd, dst)]).
  { unfold v2, bs, bd, src, dst. simpl. rewrite Hh. destruct sf.
    - by exists [(b2, n2)], []. - by exists [], [(b1, n1)]. }
  destruct Hw as (H1 & H2 & Hv2 & Hrest).
  apply wp_zoom. glens. eapply bl_brelse_law; [exact Hok4 | exact Hv2 | |].
  { simpl. rewrite elem_of_difference, elem_of_singleton, !fupd_ne by done. tauto. }
  rewrite Hrest. intros t5 Hok5. wp_step. glens. apply wp_zoom. glens.
  eapply (bl_brelse_law _ _ _ _ [] []); [exact Hok5 | done | |].
  { right. simpl. by rewrite !fupd_eq. }
  intros t6 Hok6. glens. apply HQ. eapply bl_ok_equiv; [|exact Hok6].
  by split_and!.
Qed.

(** The log in memory holds the transaction [bs]. *)
Definition log_ok (g : logst) (sz : Z) (bs : list Z) : Prop :=
  ldev g = ROOTDEV /\ 0 <= lstart g /\ lstart g + lsize g <= sz /\ sz <= 2 ^ 31 /\
  length (lh_block g) = 30%nat /\ lh_n g = Z.of_nat (length bs) /\
  take (length bs) (lh_block g) = bs /\ (length bs < NBUF)%nat /\
  apart (lstart g) (lsize g) bs /\ Forall (fun b => 0 <= b < sz) bs.

Lemma log_ok_entry g sz bs i b :
  log_ok g sz bs -> bs !! i = Some b ->
  zget 0 (lh_block g) (Z.of_nat i) = b /\ 0 <= b < sz /\ home (lstart g) (lsize g) b /\
  0 <= lstart g + Z.of_nat i + 1 < sz /\ lstart g + Z.of_nat i + 1 < lstart g + lsize g.
Proof.
  intros (_ & H0 & H1 & _ & _ & _ & Ht & _ & (_ & Hlen & Hf) & Hr) Hi.
  pose proof (lookup_lt_Some _ _ _ Hi) as Hlt.
  pose proof (proj1 (Forall_lookup _ _) Hr i b Hi) as Hb.
  pose proof (proj1 (Forall_lookup _ _) Hf i b Hi) as Hh. simpl in Hb, Hh.
  split_and!; try done; try lia.
  unfold zget. destruct (Z.of_nat i <? 0) eqn:E; zbool; [lia|]. rewrite Nat2Z.id.
  rewrite <- Ht, lookup_take_lt in Hi by done. by rewrite Hi.
Qed.

Lemma log_writes_ext st f g bs :
  (forall b, b ∈ bs -> f b = g b) -> log_writes st f bs = log_writes st g bs.
Proof.
  intros He. apply imap_ext. intros i b Hb. f_equal. apply He. by eapply list_elem_of_lookup_2.
Qed.

Lemma drop_imap {A C} (h : nat -> A -> C) l j x :
  l !! j = Some x -> drop j (imap h l) = h j x :: drop (Datatypes.S j) (imap h l).
Proof. intros Hx. apply drop_S. by rewrite list_lookup_imap, Hx. Qed.

Lemma size_diff_le (X Y : gset Z) : (size (X ∖ Y) <= size X)%nat.
Proof. apply subseteq_size. intros x. rewrite elem_of_difference. tauto. Qed.

Lemma wp_log_one s tail (Q : unit -> S -> Prop) :
  ldev (glog s) = ROOTDEV ->
  wp (copy_block (lstart (glog s) + Z.of_nat tail + 1)
        (zget 0 (lh_block (glog s)) (Z.of_nat tail)) false) s Q -> wp (log_one tail) s Q.
Proof. intros Hd Hc. unfold log_one, log_get. wp_prim. wp_prim. fold (glog s). by rewrite Hd. Qed.

Lemma wp_install_one s tail (Q : unit -> S -> Prop) :
  ldev (glog s) = ROOTDEV ->
  wp (copy_block (lstart (glog s) + Z.of_nat tail + 1)
        (zget 0 (lh_block (glog s)) (Z.of_nat tail)) true) s Q -> wp (install_one tail) s Q.
Proof. intros Hd Hc. unfold install_one, log_get. wp_prim. wp_prim. fold (glog s). by rewrite Hd. Qed.

Lemma wp_log_loop sz bs k : forall j s v (Q : unit -> S -> Prop),
  log_ok (glog s) sz bs -> bl_ok (lget s) [] v -> v_held v = [] -> v_size v = sz ->
  (forall b, b ∈ bs -> b ∈ v_pin v) -> (size (v_pin v) < NBUF)%nat -> (j + k = length bs)%nat ->
  (forall t, bl_ok t [] (v_puts (drop j (log_writes (lstart (glog s)) (v_data v) bs)) v) ->
     Q tt (lset t s)) ->
  wp (for_each log_one (seq j k)) s Q.
Proof.
  induction k as [|k IH]; intros j s v Q Hlg Hok Hh Hsz Hpin Hcap Hjk HQ; cbn [seq for_each].
  - apply wp_ret. specialize (HQ (lget s)). rewrite lset_lget in HQ. apply HQ.
    rewrite drop_ge; [done|]. unfold log_writes. rewrite length_imap. lia.
  - destruct (lookup_lt_is_Some_2 bs j) as [b Hb]; [lia|].
    destruct (log_ok_entry _ _ _ _ _ Hlg Hb) as (He & Hbr & Hhome & Hlr & Hll).
    pose proof Hlg as (Hdev & _). wp_step. apply wp_log_one; [done|]. rewrite He.
    set (l := lstart (glog s) + Z.of_nat j + 1) in *.
    assert (Hin : b ∈ bs) by (by eapply list_elem_of_lookup_2).
    assert (Hlb : l <> b) by (unfold home in Hhome; lia).
    eapply wp_copy_block; [exact Hok | done | done | lia | lia | by right | left; by apply Hpin |].
    intros t Ht.
    assert (Hgl : glog (lset t s) = glog s) by (unfold glog; by glens).
    eapply IH; [by rewrite Hgl | by glens | done | done | | | lia |].
    + intros x Hx. simpl. rewrite elem_of_difference, elem_of_singleton. split; [by apply Hpin|].
      intros ->. eapply (apart_notin _ _ _ l); [apply Hlg | lia | done].
    + simpl. pose proof (size_diff_le (v_pin v) {[l]}). lia.
    + intros t2 Ht2. glens. apply HQ. rewrite Hgl in Ht2.
      rewrite (log_writes_ext _ _ (v_data v)) in Ht2.
      * unfold log_writes. rewrite (drop_imap _ _ _ b) by done. exact Ht2.
      * intros x Hx. simpl. apply fupd_ne. intros ->.
        eapply (apart_notin _ _ _ l); [apply Hlg | lia | done].
Qed.

Lemma install_writes_ext st f g bs :
  (forall i, (i < length bs)%nat -> f (st + Z.of_nat i + 1) = g (st + Z.of_nat i + 1)) ->
  install_writes st f bs = install_writes st g bs.
Proof.
  intros He. apply imap_ext. intros i b Hb. f_equal. apply He. by eapply lookup_lt_Some.
Qed.

Lemma wp_install_loop sz bs k : forall j s v (Q : unit -> S -> Prop),
  log_ok (glog s) sz bs -> bl_ok (lget s) [] v -> v_held v = [] -> v_size v = sz ->
  (size (v_pin v) < NBUF)%nat ->
  (forall i b, (j <= i)%nat -> bs !! i = Some b -> b ∈ v_pin v) \/ (size (v_pin v) + 1 < NBUF)%nat ->
  (j + k = length bs)%nat ->
  (forall t, bl_ok t [] (v_puts (drop j (install_writes (lstart (glog s)) (v_data v) bs)) v) ->
     Q tt (lset t s)) ->
  wp (for_each install_one (seq j k)) s Q.
Proof.
  induction k as [|k IH]; intros j s v Q Hlg Hok Hh Hsz Hcap Hpin Hjk HQ; cbn [seq for_each].
  - apply wp_ret. specialize (HQ (lget s)). rewrite lset_lget in HQ. apply HQ.
    rewrite drop_ge; [done|]. unfold install_writes. rewrite length_imap. lia.
  - destruct (lookup_lt_is_Some_2 bs j) as [b Hb]; [lia|].
    destruct (log_ok_entry _ _ _ _ _ Hlg Hb) as (He & Hbr & Hhome & Hlr & Hll).
    pose proof Hlg as (Hdev & _). wp_step. apply wp_install_one; [done|]. rewrite He.
    set (l := lstart (glog s) + Z.of_nat j + 1) in *.
    assert (Hlb : l <> b) by (unfold home in Hhome; lia).
    eapply wp_copy_block; [exact Hok | done | done | lia | lia | by right | |].
    { destruct Hpin as [Hpin|?]; [left; by eapply Hpin | by right]. }
    intros t Ht.
    assert (Hgl : glog (lset t s) = glog s) by (unfold glog; by glens).
    pose proof (size_diff_le (v_pin v) {[b]}).
    eapply IH; [by rewrite Hgl | by glens | done | done | simpl; lia | | lia |].
    + destruct Hpin as [Hpin|?]; [left | right; simpl; lia]. intros i x Hi Hx. simpl.
      rewrite elem_of_difference, elem_of_singleton. split; [eapply Hpin; [|done]; lia|].
      intros ->. destruct Hlg as (_ & _ & _ & _ & _ & _ & _ & _ & (HN & _) & _).
      pose proof (NoDup_lookup _ _ _ _ HN Hx Hb). lia.
    + intros t2 Ht2. glens. apply HQ. rewrite Hgl in Ht2.
      rewrite (install_writes_ext _ _ (v_data v)) in Ht2.
      * unfold install_writes. rewrite (drop_imap _ _ _ b) by done. exact Ht2.
      * intros i Hi. simpl. apply fupd_ne. unfold home in Hhome.
        destruct Hlg as (_ & _ & _ & _ & _ & _ & _ & _ & (_ & Hlen & _) & _). lia.
Qed.

Lemma wp_write_head s v (n : nat) (Q : unit -> S -> Prop) :
  let g := glog s in
  ldev g = ROOTDEV -> lh_n g = Z.of_nat n -> (n <= 30)%nat -> (n <= length (lh_block g))%nat ->
  Forall (fun x => - 2 ^ 31 <= x < 2 ^ 31) (take n (lh_block g)) ->
  bl_ok (lget s) [] v -> v_held v = [] -> 0 <= lstart g < v_size v -> (size (v_pin v) < NBUF)%nat ->
  (forall s' hdr, head_n hdr = Z.of_nat n -> head_list hdr = take n (lh_block g) ->
     bl_ok (lget s') [] (v_put (lstart g) hdr v) -> glog s' = g -> Q tt s') ->
  wp write_head s Q.
Proof.
  intros g Hd Hn Hn30 Hnl Hf Hok Hh Hst Hcap HQ.
  unfold write_head, log_get, lbread, ldata, lsetdata, lbwrite, lbrelse. wp_step. fold (glog s). fold g.
  rewrite Hd, Hn. apply wp_zoom.
  eapply bl_bread_law; [exact Hok | done | rewrite Hh; apply not_elem_of_nil
    | right; rewrite Hh; simpl; lia |].
  intros b t1 Hok1. wp_step. apply wp_zoom. glens.
  assert (Hin : (b, lstart g) ∈ v_held (v_hold b (lstart g) v)) by left.
  eapply bl_data_law; [exact Hok1 | exact Hin |]. wp_step. apply wp_zoom. glens.
  destruct (head_roundtrip (v_data v (lstart g)) n (lh_block g)) as (Hb1 & Hb2 & Hb3); try done.
  { by eapply bl_ok_blocks. }
  eapply bl_setdata_law; [exact Hok1 | exact Hin | exact Hb1 |].
  intros t3 Hok3. wp_step. glens. apply wp_zoom. glens.
  eapply bl_bwrite_law; [exact Hok3 | exact Hin |]. intros t4 Hok4. glens.
  eapply bl_ok_equiv in Hok4; [|apply v_write_modify]. apply wp_zoom. glens.
  eapply (bl_brelse_law _ _ _ _ [] []); [exact Hok4 | simpl; by rewrite Hh | |].
  { right. simpl. by rewrite !fupd_eq. }
  intros t5 Hok5. glens. eapply HQ; [exact Hb2 | exact Hb3 | | unfold glog; by glens].
  glens. eapply bl_ok_equiv; [|exact Hok5]. by split_and!.
Qed.

Lemma wp_clear_lh s v (Q : unit -> S -> Prop) :
  bl_ok (lget s) [] v ->
  (forall s', bl_ok (lget s') [] v -> glog s' = set_lh 0 (lh_block (glog s)) (glog s) -> Q tt s') ->
  wp clear_lh s Q.
Proof.
  intros Hok HQ. unfold clear_lh, log_mod. wp_step. apply HQ; [by glens | unfold glog; by glens].
Qed.

(** Installing the transaction and clearing the log: the second half of a commit,
    and the whole of a recovery. *)
Lemma wp_install_and_clear s v sz bs (Q : unit -> S -> Prop) :
  let g := glog s in
  log_ok g sz bs -> bl_ok (lget s) [] v -> v_held v = [] -> v_size v = sz ->
  (size (v_pin v) < NBUF)%nat ->
  (forall b, b ∈ bs -> b ∈ v_pin v) \/ (size (v_pin v) + 1 < NBUF)%nat ->
  (forall s' hdr0, head_n hdr0 = 0 ->
     bl_ok (lget s') [] (v_puts (install_writes (lstart g) (v_data v) bs ++ [(lstart g, hdr0)]) v) ->
     glog s' = set_lh 0 (lh_block g) g -> Q tt s') ->
  wp (install_trans ;; clear_lh ;; write_head) s Q.
Proof.
  intros g Hlg Hok Hh Hsz Hcap Hpin HQ. unfold install_trans, log_get. wp_step. fold (glog s). fold g.
  pose proof Hlg as (Hdev & H0 & H1 & H2 & Hl30 & Hn & Ht & Hb30 & (HN & Hlen & Hap) & Hr).
  rewrite Hn, Nat2Z.id.
  eapply (wp_install_loop sz bs); [exact Hlg | exact Hok | done | done | done | | done |].
  { destruct Hpin as [Hpin|?]; [left | by right]. intros i b _ Hb.
    apply Hpin. by eapply list_elem_of_lookup_2. }
  intros t1 Hok1. rewrite drop_0 in Hok1. wp_step.
  set (v1 := v_puts (install_writes (lstart g) (v_data v) bs) v) in *.
  destruct (v_puts_fields (install_writes (lstart g) (v_data v) bs) v) as (_ & _ & Hh1 & _ & Hs1 & Hp1).
  fold v1 in Hh1, Hs1, Hp1.
  eapply wp_clear_lh; [by glens|]. intros s2 Hok2 Hg2.
  replace (glog (lset t1 s)) with g in Hg2 by (unfold g, glog; by glens).
  eapply (wp_write_head s2 v1 0); rewrite ?Hg2; simpl; try done; try lia.
  - by rewrite Hh1.
  - assert (size (v_pin v1) <= size (v_pin v))%nat; [|lia].
    apply subseteq_size. intros x Hx. by apply Hp1 in Hx as [? _].
  - intros s3 hdr0 Hn0 _ Hok3 Hg3. eapply HQ; [exact Hn0 | | done]. by rewrite v_puts_app.
Qed.

Lemma wp_commit s v sz bs (Q : unit -> S -> Prop) :
  let g := glog s in
  log_ok g sz bs -> bs <> [] -> bl_ok (lget s) [] v -> v_held v = [] -> v_size v = sz ->
  v_pin v = list_to_set bs ->
  (forall s' hdr hdr0, head_list hdr = bs -> head_n hdr0 = 0 ->
     bl_ok (lget s') [] (v_puts (commit_writes (lstart g) (v_data v) bs hdr hdr0) v) ->
     glog s' = set_lh 0 (lh_block g) g -> Q tt s') ->
  wp commit s Q.
Proof.
  intros g Hlg Hne Hok Hh Hsz Hpin HQ.
  pose proof Hlg as (Hdev & H0 & H1 & H2 & Hl30 & Hn & Ht & Hb30 & Hap & Hr).
  assert (Hps : (size (v_pin v) < NBUF)%nat).
  { rewrite Hpin, size_list_to_set by apply Hap. done. }
  assert (Hbs : forall b, b ∈ bs -> b ∈ v_pin v) by (intros b Hb; rewrite Hpin; by apply elem_of_list_to_set).
  unfold commit, log_get at 1. wp_prim. wp_prim. fold (glog s). fold g. rewrite Hn.
  assert (Hpos : (length bs <> 0)%nat) by (by intros ?%nil_length_inv).
  replace (0 <? Z.of_nat (length bs)) with true by lia.
  unfold write_log at 1, log_get at 1. wp_step. fold (glog s). fold g. rewrite Hn, Nat2Z.id.
  eapply (wp_log_loop sz bs); [exact Hlg | exact Hok | done | done | done | done | done |].
  intros t1 Hok1. rewrite drop_0 in Hok1. fold g in Hok1.
  assert (Hg1 : glog (lset t1 s) = g) by (unfold g, glog; by glens).
  set (v1 := v_puts (log_writes (lstart g) (v_data v) bs) v) in *.
  destruct (v_puts_fields (log_writes (lstart g) (v_data v) bs) v) as (_ & Hd1 & Hh1 & _ & Hs1 & Hp1).
  fold v1 in Hd1, Hh1, Hs1, Hp1.
  assert (Hps1 : (size (v_pin v1) < NBUF)%nat).
  { assert (size (v_pin v1) <= size (v_pin v))%nat; [|lia].
    apply subseteq_size. intros x Hx. by apply Hp1 in Hx as [? _]. }
  wp_prim. eapply (wp_write_head _ v1 (length bs)); rewrite ?Hg1; try done; try lia.
  { unfold NBUF in Hb30. lia. }
  { unfold NBUF in Hb30. lia. }
  { rewrite Ht. eapply Forall_impl; [exact Hr|]. simpl. lia. }
  { by glens. }
  { by rewrite Hh1. }
  { rewrite Hs1, Hsz. destruct Hap as (_ & Hl & _). lia. }
  intros s2 hdr _ Hhl Hok2 Hg2. rewrite Ht in Hhl.
  apply (wp_install_and_clear s2 (v_put (lstart g) hdr v1) sz bs); rewrite ?Hg2; try done.
  { simpl. by rewrite Hh1. }
  { simpl. by rewrite Hs1. }
  { simpl. pose proof (size_diff_le (v_pin v1) {[lstart g]}). lia. }
  { left. intros b Hb. simpl. rewrite elem_of_difference, elem_of_singleton, Hp1.
    split_and!; [by apply Hbs | |].
    - intros Hx%log_writes_keys. eapply (apart_notin _ _ _ b); [exact Hap | | done].
      destruct Hap as (_ & ? & _). lia.
    - intros ->. eapply (apart_notin _ _ _ (lstart g)); [exact Hap | | done].
      destruct Hap as (_ & ? & _). lia. }
  intros s3 hdr0 Hn0 Hok3 Hg3. apply (HQ s3 hdr hdr0); [done | done | | done].
  unfold commit_writes. rewrite v_puts_app. fold v1.
  simpl v_data in Hok3. rewrite Hd1 in Hok3.
  rewrite (proj2 (install_after_log (lstart g) (v_data v) bs hdr (v_data v))) in Hok3. exact Hok3.
Qed.

(** ** Recovery *)

(** The log on disk [D] is empty or holds a committed transaction. *)
Definition valid_head (d : block) (st size sz : Z) : Prop :=
  0 <= head_n d /\ (length (head_list d) < NBUF)%nat /\ apart st size (head_list d) /\
  Forall (fun b => 0 <= b < sz) (head_list d).
Definition valid_log (D : Z -> block) (st size sz : Z) : Prop := valid_head (D st) st size sz.

Lemma valid_head_empty d st size sz : 0 < size -> head_n d = 0 -> valid_head d st size sz.
Proof.
  intros Hs Hd. unfold valid_head, head_list. rewrite Hd.
  split_and!; try done; [unfold NBUF; simpl; lia|].
  split_and!; [constructor | simpl; lia | constructor].
Qed.

Lemma install_prefix_valid D st size sz f hdr0 k :
  valid_log D st size sz -> head_n hdr0 = 0 ->
  valid_log (apply_writes (take k (install_writes st f (head_list (D st)) ++ [(st, hdr0)])) D) st size sz.
Proof.
  intros Hval H0. pose proof Hval as (_ & _ & Hap & _). pose proof Hap as (_ & Hlen & _).
  apply (apply_writes_inv (fun d => valid_head d st size sz)); [done|].
  apply Forall_take, Forall_app. split; [|constructor; [intros _; apply valid_head_empty; [lia|done] | constructor]].
  apply Forall_forall. intros [x d] Hin Hx. simpl in Hx. subst x. exfalso.
  eapply (apart_notin _ _ _ st); [exact Hap | lia |].
  rewrite <- (install_writes_keys st f). apply list_elem_of_fmap. by exists (st, d).
Qed.

(** The log component after a reboot, once [initlog] has read the super block. *)
Definition geometry (g : logst) (st size sz : Z) : Prop :=
  ldev g = ROOTDEV /\ lstart g = st /\ lsize g = size /\ 0 <= st /\ 0 < size /\
  st + size <= sz /\ sz <= 2 ^ 31 /\ length (lh_block g) = 30%nat.

Lemma wp_read_head s v (Q : unit -> S -> Prop) :
  let g := glog s in let d := v_data v (lstart g) in
  ldev g = ROOTDEV -> bl_ok (lget s) [] v -> v_held v = [] -> v_pin v = ∅ ->
  0 <= lstart g < v_size v ->
  (forall s', bl_ok (lget s') [] v ->
     glog s' = set_lh (head_n d) (get_blocks d 0 (Z.to_nat (head_n d)) (lh_block g)) g -> Q tt s') ->
  wp read_head s Q.
Proof.
  intros g d Hd Hok Hh Hp Hst HQ. unfold read_head, log_get, log_mod, lbread, ldata, lbrelse. wp_step.
  fold (glog s). fold g. rewrite Hd. apply wp_zoom.
  eapply bl_bread_law; [exact Hok | done | rewrite Hh; apply not_elem_of_nil
    | right; rewrite Hh, Hp, size_empty; simpl; unfold NBUF; lia |].
  intros b t1 Hok1. wp_step. apply wp_zoom. glens.
  assert (Hin : (b, lstart g) ∈ v_held (v_hold b (lstart g) v)) by left.
  eapply bl_data_law; [exact Hok1 | exact Hin |]. wp_step. apply wp_zoom. glens.
  eapply (bl_brelse_law _ _ _ _ [] []); [exact Hok1 | simpl; by rewrite Hh | |].
  { right. simpl. eapply bl_ok_clean; [exact Hok | done | |].
    - rewrite Hp. apply not_elem_of_empty.
    - rewrite Hh. apply not_elem_of_nil. }
  intros t5 Hok5. apply HQ.
  - glens. eapply bl_ok_equiv; [|exact Hok5]. by split_and!.
  - unfold glog. by glens.
Qed.

Lemma wp_recover s v st size sz (Q : unit -> S -> Prop) :
  geometry (glog s) st size sz -> bl_ok (lget s) [] v -> v_held v = [] -> v_pin v = ∅ ->
  v_size v = sz -> valid_log (v_data v) st size sz ->
  (forall s' hdr0, head_n hdr0 = 0 ->
     bl_ok (lget s') [] (v_puts (install_writes st (v_data v) (head_list (v_data v st)) ++ [(st, hdr0)]) v) ->
     lh_n (glog s') = 0 -> geometry (glog s') st size sz -> Q tt s') ->
  wp recover_from_log s Q.
Proof.
  intros (Hd & Hst & Hsize & H0 & Hs0 & H1 & H2 & Hl30) Hok Hh Hp Hsz (Hn0 & Hb30 & Hap & Hr) HQ.
  unfold recover_from_log. wp_prim.
  eapply wp_read_head; [done | exact Hok | done | done | lia |].
  intros s1 Hok1 Hg1. rewrite Hst in Hg1.
  set (d := v_data v st) in *. set (bs := head_list d) in *.
  assert (Hlen : length bs = Z.to_nat (head_n d))
    by (unfold bs, head_list; by rewrite length_fmap, length_seq).
  destruct (get_blocks_spec d (Z.to_nat (head_n d)) 0 (lh_block (glog s))) as [Hgl Hgt];
    [unfold NBUF in Hb30; lia|].
  assert (Hlg : log_ok (glog s1) sz bs).
  { rewrite Hg1. unfold log_ok. simpl. rewrite Hst, Hsize, Hgl.
    split_and!; try done; [lia|]. rewrite Hlen. exact Hgt. }
  assert (Hs1 : lstart (glog s1) = st) by (by rewrite Hg1).
  eapply (wp_install_and_clear s1 v sz bs); try done.
  { rewrite Hp, size_empty. unfold NBUF. lia. }
  { right. rewrite Hp, size_empty. unfold NBUF. lia. }
  rewrite Hs1. intros s2 hdr0 Hn2 Hok2 Hg2. eapply HQ; [exact Hn2 | exact Hok2 | by rewrite Hg2 |].
  rewrite Hg2, Hg1. unfold geometry. simpl. rewrite Hgl. by split_and!.
Qed.

(** The log as an abstraction of the disk, for valid logs. *)
Lemma valid_log_spec D st size sz :
  valid_log D st size sz ->
  (forall i x, head_list (D st) !! i = Some x -> D (st + Z.of_nat i + 1) = log_abs D st x) /\
  (forall b, b ∉ head_list (D st) -> D b = log_abs D st b).
Proof.
  intros (_ & _ & (HN & _) & _). unfold log_abs. generalize dependent (head_list (D st)).
  intros bs HN. split.
  - intros i x Hx. replace (st + Z.of_nat i + 1) with (st + 1 + Z.of_nat i) by lia.
    generalize (st + 1). revert i Hx. induction bs as [|y bs IH]; intros i Hx z; [done|].
    apply NoDup_cons in HN as [Hni HN]. destruct i as [|i]; simpl in *.
    + injection Hx as ->. rewrite decide_True by done. f_equal. lia.
    + rewrite decide_False.
      * rewrite <- (IH HN i Hx). f_equal. lia.
      * intros ->. apply Hni. by eapply list_elem_of_lookup_2.
  - intros b Hb. generalize (st + 1). induction bs as [|y bs IH]; intros z; [done|]. simpl.
    rewrite elem_of_cons in Hb. apply NoDup_cons in HN as [_ HN].
    rewrite decide_False by tauto. apply IH; tauto.
Qed.

(** Recovery makes the disk what the log says it is. *)
Lemma recover_correct s D st size sz :
  geometry (glog s) st size sz -> bl_ok (lget s) [] (BioLaws.idle_view D sz) ->
  valid_log D st size sz ->
  exists s' v' w, recover_from_log s = Ret tt s' /\ bl_ok (lget s') [] v' /\
    v_disk v' = apply_writes w D /\ v_trace v' = w /\ lh_n (glog s') = 0 /\
    head_n (v_disk v' st) = 0 /\
    (forall b, home st size b -> v_disk v' b = log_abs D st b) /\
    forall k, valid_log (apply_writes (take k w) D) st size sz /\
      forall b, home st size b -> log_abs (apply_writes (take k w) D) st b = log_abs D st b.
Proof.
  intros Hg Hok Hval. pose proof Hval as (_ & _ & Hap & _).
  destruct (wp_recover s _ st size sz (fun _ s' => exists hdr0, head_n hdr0 = 0 /\
     bl_ok (lget s') [] (v_puts (install_writes st D (head_list (D st)) ++ [(st, hdr0)])
       (BioLaws.idle_view D sz)) /\ lh_n (glog s') = 0) Hg Hok)
    as ([] & s' & E & hdr0 & Hn0 & Hok' & Hl0); try done.
  { intros s' hdr0 H1 H2 H3 _. exists hdr0. by split_and!. }
  set (w := install_writes st D (head_list (D st)) ++ [(st, hdr0)]) in *.
  destruct (v_puts_fields w (BioLaws.idle_view D sz)) as (Hdk & _ & _ & Htr & _ & _).
  destruct (valid_log_spec _ _ _ _ Hval) as [Hv1 Hv2].
  assert (Hpre : forall k b, home st size b -> log_abs (apply_writes (take k w) D) st b = log_abs D st b).
  { intros k b Hb. unfold w. apply (install_prefix D st size (log_abs D st) _ hdr0 k); try done.
    intros x _ Hx. by apply Hv2. }
  assert (Hend : apply_writes w D st = hdr0).
  { unfold w. rewrite apply_writes_app. unfold apply_writes at 1. simpl. apply fupd_eq. }
  exists s', (v_puts w (BioLaws.idle_view D sz)), w.
  split_and!; [done | done | done | done | done | by rewrite Hdk; simpl; rewrite Hend | |].
  2:{ intros k. split; [by apply install_prefix_valid | by apply Hpre]. }
  intros b Hb. rewrite Hdk. simpl. rewrite <- (Hpre (length w) b Hb).
  rewrite firstn_all. rewrite log_abs_clear; [done|]. rewrite Hend. lia.
Qed.

(** A prefix of the writes of a commit leaves a valid log. *)
Lemma commit_prefix_valid D st size sz (f : Z -> block) bs hdr hdr0 k :
  apart st size bs -> Forall (fun b => 0 <= b < sz) bs -> (length bs < NBUF)%nat ->
  head_n (D st) = 0 -> head_list hdr = bs -> 0 <= head_n hdr -> head_n hdr0 = 0 ->
  valid_log (apply_writes (take k (commit_writes st f bs hdr hdr0)) D) st size sz.
Proof.
  intros Hap Hr Hb H0 Hh Hh1 Hh0. pose proof Hap as (_ & Hlen & _).
  assert (Hs0 : 0 < size) by lia.
  apply (apply_writes_inv (fun d => valid_head d st size sz)); [by apply valid_head_empty|].
  apply Forall_take. unfold commit_writes. apply Forall_app. split; [|constructor].
  - apply Forall_forall. intros [x d] Hin Hx.
    assert (Hk : x ∈ (log_writes st f bs).*1) by (apply list_elem_of_fmap; by exists (x, d)).
    apply log_writes_keys in Hk. simpl in Hx. lia.
  - intros _. simpl. unfold valid_head. by rewrite Hh.
  - apply Forall_app. split; [|constructor; [intros _; by apply valid_head_empty | constructor]].
    apply Forall_forall. intros [x d] Hin Hx.
    apply list_elem_of_fmap in Hin as (y & Heq & Hin). simpl in Hx. simplify_eq.
    exfalso. eapply apart_notin; [exact Hap | | exact Hin]. lia.
Qed.

(** What [commit] does to the disk, and what a crash after [k] of its writes leaves. *)
Lemma commit_effect (s : S) v sz bs :
  let g := glog s in
  log_ok g sz bs -> bs <> [] -> bl_ok (lget s) [] v -> v_held v = [] -> v_size v = sz ->
  v_pin v = list_to_set bs ->
  exists s' v' w, commit s = Ret tt s' /\ bl_ok (lget s') [] v' /\
    glog s' = set_lh 0 (lh_block g) g /\ v_held v' = [] /\ v_size v' = sz /\
    v_trace v' = v_trace v ++ w /\ v_pin v' = ∅ /\
    (head_n (v_disk v (lstart g)) = 0 ->
     (forall b, 0 <= b < sz -> home (lstart g) (lsize g) b ->
        v_disk v' b = v_data v b /\ v_data v' b = v_data v b) /\
     forall k, valid_log (apply_writes (take k w) (v_disk v)) (lstart g) (lsize g) sz /\
       forall b, 0 <= b < sz -> home (lstart g) (lsize g) b ->
         log_abs (apply_writes (take k w) (v_disk v)) (lstart g) b =
           if decide (k <= length bs)%nat then v_disk v b else v_data v b).
Proof.
  intros g Hlg Hne Hok Hh Hsz Hpin.
  destruct (wp_commit s v sz bs (fun _ s' => exists hdr hdr0, head_list hdr = bs /\ head_n hdr0 = 0 /\
     bl_ok (lget s') [] (v_puts (commit_writes (lstart g) (v_data v) bs hdr hdr0) v) /\
     glog s' = set_lh 0 (lh_block g) g)) as ([] & s' & E & hdr & hdr0 & Hhl & Hh0 & Hok' & Hl0); try done.
  { intros s' hdr hdr0 H1 H2 H3 H4. exists hdr, hdr0. by split_and!. }
  pose proof Hlg as (_ & Hst0 & Hst1 & _ & _ & _ & _ & Hb30 & Hap & Hr).
  set (w := commit_writes (lstart g) (v_data v) bs hdr hdr0) in *.
  destruct (v_puts_fields w v) as (Hdk & Hdt & Hhd & Htr & Hsize & Hpn).
  assert (Hout : forall b, 0 <= b < sz -> b ∉ bs -> v_disk v b = v_data v b).
  { intros b Hb Hni. symmetry. eapply bl_ok_clean; [exact Hok | lia | |].
    - by rewrite Hpin, elem_of_list_to_set.
    - rewrite Hh. apply not_elem_of_nil. }
  (* outside of the disk there is nothing to say *)
  set (f := fun b => if decide (0 <= b < sz) then v_data v b else v_disk v b).
  assert (Hwf : w = commit_writes (lstart g) f bs hdr hdr0).
  { apply commit_writes_ext. intros b Hb. unfold f. rewrite decide_True; [done|].
    by eapply Forall_forall in Hr. }
  assert (Hn1 : 0 <= head_n hdr).
  { assert (Hz : Z.to_nat (head_n hdr) = length bs)
      by (rewrite <- Hhl; unfold head_list; by rewrite length_fmap, length_seq).
    assert (length bs <> 0%nat) by (by intros ?%nil_length_inv). lia. }
  exists s', (v_puts w v), w. split_and!; try done; [by rewrite Hhd | by rewrite Hsize | |].
  - apply leibniz_equiv. intros b. rewrite Hpn, Hpin, elem_of_list_to_set.
    split; [|by intros ?%elem_of_empty]. intros [Hb Hni]. exfalso. apply Hni.
    by apply commit_writes_keys.
  - intros H0.
    assert (Hpre : forall k b, home (lstart g) (lsize g) b ->
      log_abs (apply_writes (take k w) (v_disk v)) (lstart g) b =
        if decide (k <= length bs)%nat then v_disk v b else f b).
    { intros k b Hb. rewrite Hwf. apply (commit_prefix _ _ (lsize g)); try done.
      intros x _ Hx. unfold f. case_decide; [by apply Hout | done]. }
    split.
    + intros b Hb Hhome. rewrite Hdk, Hdt.
      specialize (Hpre (length w) b Hhome). rewrite firstn_all in Hpre.
      rewrite log_abs_clear in Hpre by (unfold w; rewrite commit_writes_last; lia).
      rewrite decide_False in Hpre
        by (unfold w, commit_writes; rewrite length_app; simpl; unfold log_writes; rewrite length_imap; lia).
      unfold f in Hpre. rewrite decide_True in Hpre by done. split; [done|].
      destruct (decide (b ∈ w.*1)) as [Hin|Hni]; [|by apply apply_writes_notin].
      by rewrite <- Hpre; apply apply_writes_same.
    + intros k. split; [unfold w; by apply commit_prefix_valid|]. intros b Hb Hhome.
      rewrite Hpre by done. case_decide; [done|]. unfold f. by rewrite decide_True.
Qed.

(** C1: committing a transaction is atomic with respect to crashes.  [commit] runs
    to its end, every block of the transaction is on the disk and the log is empty
    again; and if the machine stops after any number [k] of the block writes that
    [commit] makes, then rebooting and recovering from the log ends with a disk
    that holds, in all blocks outside of the log, either exactly the contents before
    the transaction (if the header had not been written yet) or exactly the contents
    after it. *)
Theorem commit_crash_safe (s : S) v sz bs :
  let g := glog s in
  log_ok g sz bs -> bs <> [] -> bl_ok (lget s) [] v -> v_held v = [] -> v_size v = sz ->
  v_pin v = list_to_set bs -> head_n (v_disk v (lstart g)) = 0 ->
  exists s' v' w, commit s = Ret tt s' /\ bl_ok (lget s') [] v' /\ lh_n (glog s') = 0 /\
    v_trace v' = v_trace v ++ w /\ v_pin v' = ∅ /\
    (forall b, 0 <= b < sz -> home (lstart g) (lsize g) b ->
       v_disk v' b = v_data v b /\ v_data v' b = v_data v b) /\
    forall k s2, bl_ok (lget s2) [] (BioLaws.idle_view (apply_writes (take k w) (v_disk v)) sz) ->
      geometry (glog s2) (lstart g) (lsize g) sz ->
      exists s3 v3, recover_from_log s2 = Ret tt s3 /\ bl_ok (lget s3) [] v3 /\
        forall b, 0 <= b < sz -> home (lstart g) (lsize g) b ->
          v_disk v3 b = if decide (k <= length bs)%nat then v_disk v b else v_data v b.
Proof.
  intros g Hlg Hne Hok Hh Hsz Hpin H0.
  destruct (commit_effect s v sz bs Hlg Hne Hok Hh Hsz Hpin)
    as (s' & v' & w & E & Hok' & Hg' & _ & _ & Htr & Hp & Hrest).
  destruct (Hrest H0) as [Hend Hpre]. exists s', v', w. split_and!; try done; [by rewrite Hg'|].
  intros k s2 Hok2 Hgeo. destruct (Hpre k) as [Hval Habs].
  destruct (recover_correct s2 _ _ _ _ Hgeo Hok2 Hval) as (s3 & v3 & _ & E3 & Hok3 & _ & _ & _ & _ & Hd3 & _).
  exists s3, v3. split_and!; [done | done |]. intros b Hb Hhome. by rewrite Hd3, Habs.
Qed.

(** C2: recovery is idempotent, also when it is interrupted.  From any disk with a
    valid log, [recover_from_log] returns, the blocks outside of the log are what
    the log says, and the log is empty; and if the machine stops after any number
    of the block writes that the recovery has made, in their order, rebooting and
    recovering again ends with the same contents outside of the log. *)
Theorem recover_idempotent (s : S) D st size sz :
  geometry (glog s) st size sz -> bl_ok (lget s) [] (BioLaws.idle_view D sz) ->
  valid_log D st size sz ->
  exists s' v', recover_from_log s = Ret tt s' /\ bl_ok (lget s') [] v' /\
    v_disk v' = apply_writes (v_trace v') D /\
    lh_n (glog s') = 0 /\ head_n (v_disk v' st) = 0 /\
    (forall b, home st size b -> v_disk v' b = log_abs D st b) /\
    forall k s2, bl_ok (lget s2) [] (BioLaws.idle_view (apply_writes (take k (v_trace v')) D) sz) ->
      geometry (glog s2) st size sz ->
      exists s3 v3, recover_from_log s2 = Ret tt s3 /\ bl_ok (lget s3) [] v3 /\
        forall b, home st size b -> v_disk v3 b = v_disk v' b.
Proof.
  intros Hg Hok Hval.
  destruct (recover_correct s D st size sz Hg Hok Hval)
    as (s' & v' & w & E & Hok' & Hdk & Htr & Hl & Hn & Hd & Hpre).
  exists s', v'. rewrite Htr. split_and!; try done. intros k s2 Hok2 Hg2. destruct (Hpre k) as [Hval2 Hk].
  destruct (recover_correct s2 _ st size sz Hg2 Hok2 Hval2)
    as (s3 & v3 & _ & E3 & Hok3 & _ & _ & _ & _ & Hd3 & _).
  exists s3, v3. split_and!; try done. intros b Hb. by rewrite Hd3, Hd, Hk.
Qed.

(** ** Transactions *)

(** The log's lock around a change of the log. *)
Lemma wp_log_acquire s v (Q : unit -> S -> Prop) :
  bl_ok (lget s) [] v ->
  (forall t, bl_ok t [L_log] v -> Q tt (lset t s)) -> wp (zoom (acquire L_log : M B unit)) s Q.
Proof.
  intros Hok HQ. apply wp_zoom. destruct (bl_ok_core _ _ _ Hok) as [Hc _].
  eapply wp_acquire; [exact Hc | apply not_elem_of_nil |]. intros c Hc' (Hp & _). apply HQ.
  eapply bl_ok_frame; [exact Hok | done | by rewrite Hp].
Qed.

Lemma wp_log_release s v (Q : unit -> S -> Prop) :
  bl_ok (lget s) [L_log] v ->
  (forall t, bl_ok t [] v -> Q tt (lset t s)) -> wp (zoom (release L_log : M B unit)) s Q.
Proof.
  intros Hok HQ. apply wp_zoom. destruct (bl_ok_core _ _ _ Hok) as [Hc _].
  eapply wp_release; [exact Hc|]. intros c Hc' (Hp & _). apply HQ.
  eapply bl_ok_frame; [exact Hok | done | by rewrite Hp].
Qed.

Lemma wp_log_wakeup s v (Q : unit -> S -> Prop) :
  bl_ok (lget s) [L_log] v ->
  (forall t, bl_ok t [L_log] v -> procs (lget t) = wake_proc ch_log <$> procs (lget (lget s)) ->
     Q tt (lset t s)) -> wp (zoom (wakeup ch_log : M B unit)) s Q.
Proof.
  intros Hok HQ. apply wp_zoom. destruct (bl_ok_core _ _ _ Hok) as [Hc _].
  eapply wp_wakeup; [exact Hc | by intros ?%list_elem_of_singleton |]. intros c Hc' Hp. apply HQ.
  - eapply bl_ok_frame; [exact Hok | done |]. by rewrite Hp, BioLaws.wake_pids.
  - by rewrite lget_lset.
Qed.

(** [begin_op] admits an operation only when the log has room for MAXOPBLOCKS
    blocks of every admitted operation; it then reserves that room.  Otherwise, or
    during a commit, it sleeps on the log with the log unchanged. *)
Theorem begin_op_reserves (s : S) v fuel :
  bl_ok (lget s) [] v ->
  let g := glog s in
  if negb (committing g) && (lh_n g + (outstanding g + 1) * MAXOPBLOCKS <=? LOGSIZE) then
    exists s', begin_op (Datatypes.S fuel) s = Ret tt s' /\ bl_ok (lget s') [] v /\
      glog s' = set_outstanding (outstanding g + 1) g /\
      lh_n (glog s') + outstanding (glog s') * MAXOPBLOCKS <= LOGSIZE
  else
    exists s1 k, begin_op (Datatypes.S fuel) s = Sleep ch_log s1 k /\ glog s1 = g.
Proof.
  intros Hok g.
  destruct (wp_log_acquire s v (fun _ s' => exists t, s' = lset t s /\ bl_ok t [L_log] v) Hok)
    as ([] & s1 & E1 & t1 & -> & Hok1); [by eauto|].
  assert (Hg1 : glog (lset t1 s) = g) by (unfold g, glog; by glens).
  unfold begin_op. rewrite (bind_ret _ _ _ _ _ E1). cbn [begin_op_loop].
  unfold log_get. erewrite bind_ret by reflexivity. fold (glog (lset t1 s)). rewrite Hg1.
  assert (Hsleep : exists s1 k, (zoom (sleep ch_log L_log : M B unit) ;; begin_op_loop fuel) (lset t1 s)
    = Sleep ch_log s1 k /\ glog s1 = g).
  { destruct (bl_ok_core _ _ _ Hok1) as [Hc Hm].
    destruct (sleep_spec t1 bl_cpu bl_ie bl_me ch_log L_log Hc) as (c2 & k & E2 & _); [done | done |].
    eexists _, _. split.
    - erewrite bind_sleep; [reflexivity|]. unfold zoom. rewrite lget_lset, E2. reflexivity.
    - unfold glog. glens. done. }
  destruct (committing g); cbn [negb andb]; [done|].
  destruct (LOGSIZE <? lh_n g + (outstanding g + 1) * MAXOPBLOCKS) eqn:El; zbool.
  - by replace (lh_n g + (outstanding g + 1) * MAXOPBLOCKS <=? LOGSIZE) with false by lia.
  - replace (lh_n g + (outstanding g + 1) * MAXOPBLOCKS <=? LOGSIZE) with true by lia.
    assert (wp (log_mod (fun g => set_outstanding (outstanding g + 1) g) ;;
      zoom (release L_log : M B unit)) (lset t1 s) (fun _ s' => bl_ok (lget s') [] v /\
      glog s' = set_outstanding (outstanding g + 1) g)) as ([] & s2 & E2 & Hok2 & Hg2).
    { unfold log_mod. wp_step. eapply wp_log_release; [by glens|]. intros t2 Hok2. unfold glog. glens.
      split; [done|]. fold (glog s) g. done. }
    exists s2. split_and!; try done. rewrite Hg2. simpl. lia.
Qed.

(** The end of the last operation of a transaction. *)
Lemma wp_commit_all s v sz bs (Q : unit -> S -> Prop) :
  let g := glog s in
  log_ok g sz bs -> bl_ok (lget s) [] v -> v_held v = [] -> v_size v = sz ->
  v_pin v = list_to_set bs -> head_n (v_disk v (lstart g)) = 0 ->
  (forall s' v', bl_ok (lget s') [] v' -> glog s' = set_lh 0 (lh_block g) g -> v_held v' = [] ->
     v_pin v' = ∅ ->
     (forall b, 0 <= b < sz -> home (lstart g) (lsize g) b ->
        v_disk v' b = v_data v b /\ v_data v' b = v_data v b) -> Q tt s') ->
  wp commit s Q.
Proof.
  intros g Hlg Hok Hh Hsz Hpin H0 HQ. destruct (decide (bs = [])) as [->|Hne].
  - pose proof Hlg as (_ & _ & _ & _ & _ & Hn & _). simpl in Hn.
    unfold commit, log_get. wp_prim. wp_prim. fold (glog s). fold g. rewrite Hn.
    change (0 <? Z.of_nat 0) with false. cbv iota. wp_step. apply (HQ s v); try done.
    + fold g. revert Hn. generalize g. intros []; simpl. by intros ->.
    + intros b Hb _. split; [|done]. symmetry. eapply bl_ok_clean; [exact Hok | lia | |].
      * rewrite Hpin. apply not_elem_of_empty.
      * rewrite Hh. apply not_elem_of_nil.
  - destruct (commit_effect s v sz bs Hlg Hne Hok Hh Hsz Hpin)
      as (s' & v' & w & E & Hok' & Hg' & Hh' & _ & _ & Hp & Hrest).
    destruct (Hrest H0) as [Hend _]. exists tt, s'. split; [done|]. by apply (HQ s' v').
Qed.

Lemma log_ok_flags g sz bs n b : log_ok g sz bs -> log_ok (set_committing b (set_outstanding n g)) sz bs.
Proof. done. Qed.

(** [end_op] after the decrement, for the last operation and for the others. *)
Definition end_last : M S unit :=
  log_mod (set_committing true);;
  zoom (release L_log : M B unit);;
  commit;;
  zoom (acquire L_log : M B unit);;
  log_mod (set_committing false);;
  zoom (wakeup ch_log : M B unit);;
  zoom (release L_log : M B unit).
Definition end_other : M S unit :=
  zoom (wakeup ch_log : M B unit);;
  zoom (release L_log : M B unit);;
  mret tt.

Lemma wp_end_last s v sz bs (Q : unit -> S -> Prop) :
  let g := glog s in
  log_ok g sz bs -> bl_ok (lget s) [L_log] v -> v_held v = [] -> v_size v = sz ->
  v_pin v = list_to_set bs -> head_n (v_disk v (lstart g)) = 0 ->
  (forall s' v', bl_ok (lget s') [] v' ->
     glog s' = set_committing false (set_lh 0 (lh_block g) g) -> v_pin v' = ∅ ->
     (forall b, 0 <= b < sz -> home (lstart g) (lsize g) b ->
        v_disk v' b = v_data v b /\ v_data v' b = v_data v b) -> Q tt s') ->
  wp end_last s Q.
Proof.
  intros g Hlg Hok Hh Hsz Hpin H0 HQ. unfold end_last, log_mod. wp_step.
  eapply wp_log_release; [by rewrite lsep_l|]. intros t3 Hok3. wp_step.
  match goal with |- wp commit ?x _ => assert (Hg3 : glog x = set_committing true g)
    by (unfold glog, g; by glens) end.
  eapply (wp_commit_all _ v sz bs); rewrite ?Hg3; try done; [by glens|].
  intros s4 v4 Hok4 Hg4 Hh4 Hp4 Hd4. wp_step.
  eapply wp_log_acquire; [exact Hok4|]. intros t5 Hok5. wp_step.
  eapply wp_log_wakeup; [by rewrite lsep_l, lget_lset|]. intros t6 Hok6 _.
  eapply wp_log_release; [by glens|]. intros t7 Hok7. eapply HQ; [by glens | | done | done].
  unfold glog. glens. fold (glog s4). by rewrite Hg4.
Qed.

Lemma wp_end_other s v (Q : unit -> S -> Prop) :
  bl_ok (lget s) [L_log] v ->
  (forall s', bl_ok (lget s') [] v -> glog s' = glog s -> Q tt s') -> wp end_other s Q.
Proof.
  intros Hok HQ. unfold end_other. wp_step. eapply wp_log_wakeup; [done|]. intros t3 Hok3 _. wp_step.
  eapply wp_log_release; [by glens|]. intros t4 Hok4. wp_step. apply HQ; [by glens|].
  unfold glog. by glens.
Qed.

(** [end_op] commits exactly when the last operation of the transaction ends:
    then all blocks of the transaction are on the disk when it returns, the log is
    empty, nobody is committing any more and sleepers in [begin_op] have been woken.
    With other operations outstanding it only gives back the reservation.  It panics
    if a commit is under way. *)
Theorem end_op_commits (s : S) v sz bs :
  let g := glog s in
  log_ok g sz bs -> bl_ok (lget s) [] v -> v_held v = [] -> v_size v = sz ->
  v_pin v = list_to_set bs -> head_n (v_disk v (lstart g)) = 0 -> 1 <= outstanding g ->
  if committing g then exists s', end_op s = Panic "log.committing" s'
  else exists s' v', end_op s = Ret tt s' /\ bl_ok (lget s') [] v' /\ committing (glog s') = false /\
    outstanding (glog s') = outstanding g - 1 /\
    if outstanding g =? 1 then
      lh_n (glog s') = 0 /\ v_pin v' = ∅ /\
      forall b, 0 <= b < sz -> home (lstart g) (lsize g) b ->
        v_disk v' b = v_data v b /\ v_data v' b = v_data v b
    else v' = v /\ log_ok (glog s') sz bs.
Proof.
  intros g Hlg Hok Hh Hsz Hpin H0 Hout.
  destruct (wp_log_acquire s v (fun _ s' => exists t, s' = lset t s /\ bl_ok t [L_log] v) Hok)
    as ([] & s1 & E1 & t1 & -> & Hok1); [by eauto|].
  set (s2 := lset (set_outstanding (outstanding (glog s) - 1) (glog s)) (lset t1 s)).
  assert (Hs2 : glog s2 = set_outstanding (outstanding g - 1) g /\ lget s2 = t1)
    by (unfold s2, glog; by glens).
  destruct Hs2 as [Hg2 Ht2].
  assert (Hrun : end_op s = (if committing g then panic "log.committing"
    else if outstanding g - 1 =? 0 then end_last else end_other) s2).
  { unfold end_op. rewrite (bind_ret _ _ _ _ _ E1).
    unfold log_mod at 1. erewrite bind_ret by reflexivity. rewrite lsep_r. fold (glog s). fold s2.
    unfold log_get. erewrite bind_ret by reflexivity. fold (glog s2). rewrite Hg2.
    change (committing (set_outstanding (outstanding g - 1) g)) with (committing g).
    change (outstanding (set_outstanding (outstanding g - 1) g)) with (outstanding g - 1).
    by destruct (committing g), (outstanding g - 1 =? 0). }
  rewrite Hrun. destruct (committing g) eqn:Ec; [by eexists|].
  destruct (outstanding g =? 1) eqn:Eo; zbool.
  - replace (outstanding g - 1 =? 0) with true by lia.
    destruct (wp_end_last s2 v sz bs (fun _ s' => exists v', bl_ok (lget s') [] v' /\
      glog s' = set_committing false (set_lh 0 (lh_block g) (set_outstanding (outstanding g - 1) g)) /\
      v_pin v' = ∅ /\ forall b, 0 <= b < sz -> home (lstart g) (lsize g) b ->
        v_disk v' b = v_data v b /\ v_data v' b = v_data v b))
      as ([] & s' & E & v' & Hok' & Hg' & Hp' & Hd'); rewrite ?Hg2, ?Ht2; try done.
    { intros s' v' H1 H2 H3 H4. exists v'. by split_and!. }
    exists s', v'. rewrite Hg'. by split_and!.
  - replace (outstanding g - 1 =? 0) with false by lia.
    destruct (wp_end_other s2 v (fun _ s' => bl_ok (lget s') [] v /\ glog s' = glog s2))
      as ([] & s' & E & Hok' & Hg'); rewrite ?Ht2; try done.
    exists s', v. rewrite Hg', Hg2. by split_and!.
Qed.

(** *** Recording a block *)

Lemma log_index_spec l x n : forall i,
  let j := log_index l x i n in
  (i <= j <= i + n)%nat /\
  (j = (i + n)%nat \/ zget 0 l (Z.of_nat j) = x) /\
  (forall k, (i <= k < j)%nat -> zget 0 l (Z.of_nat k) <> x).
Proof.
  induction n as [|n IH]; intros i; simpl.
  - split_and!; [lia | lia | left; lia | lia].
  - destruct (zget 0 l (Z.of_nat i) =? x) eqn:E; zbool.
    + split_and!; [lia | lia | by right | lia].
    + destruct (IH (Datatypes.S i)) as (H1 & H2 & H3). split_and!; [lia | lia | |].
      * destruct H2 as [H2|H2]; [left; lia | by right].
      * intros k Hk. destruct (decide (k = i)) as [->|]; [done | apply H3; lia].
Qed.

(** The transaction after [log_write] of block [x]. *)
Definition record (bs : list Z) (x : Z) : list Z := if decide (x ∈ bs) then bs else bs ++ [x].

Lemma log_ok_record g sz bs x :
  log_ok g sz bs -> lh_n g < LOGSIZE - 1 -> lh_n g < lsize g - 1 -> 0 <= x < sz ->
  home (lstart g) (lsize g) x ->
  let i := log_index (lh_block g) x 0 (Z.to_nat (lh_n g)) in
  log_ok (set_lh (if Z.of_nat i =? lh_n g then lh_n g + 1 else lh_n g)
            (zset (lh_block g) (Z.of_nat i) x) g) sz (record bs x).
Proof.
  intros Hlg H30 Hsz Hx Hhome i.
  pose proof Hlg as (Hd & H0 & H1 & H2 & Hl & Hn & Ht & Hb & (HN & Hlen & Hap) & Hr).
  destruct (log_index_spec (lh_block g) x (Z.to_nat (lh_n g)) 0) as (Hi1 & Hi2 & Hi3). fold i in Hi1, Hi2, Hi3.
  unfold LOGSIZE in H30. rewrite Hn, Nat2Z.id in *. simpl in Hi1, Hi2.
  assert (Hget : forall j, (j < length bs)%nat -> bs !! j = Some (zget 0 (lh_block g) (Z.of_nat j))).
  { intros j Hj. destruct (lookup_lt_is_Some_2 bs j Hj) as [y Hy].
    by destruct (log_ok_entry _ _ _ _ _ Hlg Hy) as (-> & _). }
  destruct (decide (i = length bs)) as [Hi|Hi].
  - assert (Hni : x ∉ bs).
    { intros [j Hj]%list_elem_of_lookup. pose proof (lookup_lt_Some _ _ _ Hj) as Hlt.
      rewrite (Hget j Hlt) in Hj. injection Hj as Hj. apply (Hi3 j); [lia | done]. }
    unfold record. rewrite decide_False by done. rewrite Hi, Z.eqb_refl.
    unfold log_ok. simpl. rewrite zset_length, length_app. simpl.
    assert (Hz : zset (lh_block g) (Z.of_nat (length bs)) x = <[length bs := x]> (lh_block g)).
    { unfold zset. destruct (Z.of_nat (length bs) <? 0) eqn:E; zbool; [lia | by rewrite Nat2Z.id]. }
    rewrite Hz. split_and!; try done; try lia.
    + rewrite Nat.add_1_r. rewrite (take_S_r _ _ x) by (apply list_lookup_insert_eq; lia).
      by rewrite take_insert_ge, Ht by lia.
    + unfold NBUF in *. lia.
    + split_and!.
      * apply NoDup_app. split_and!; [done | | apply NoDup_singleton].
        intros y Hy ->%list_elem_of_singleton. done.
      * rewrite length_app. simpl. lia.
      * apply Forall_app. split; [done | by apply Forall_singleton].
    + apply Forall_app. split; [done | by apply Forall_singleton].
  - assert (Hlt : (i < length bs)%nat) by lia. destruct Hi2 as [?|Hi2]; [lia|].
    assert (Hin : x ∈ bs).
    { apply list_elem_of_lookup. exists i. by rewrite (Hget i Hlt), Hi2. }
    unfold record. rewrite decide_True by done.
    replace (Z.of_nat i =? Z.of_nat (length bs)) with false by lia.
    assert (Hz : zset (lh_block g) (Z.of_nat i) x = lh_block g).
    { unfold zset, zget in *. destruct (Z.of_nat i <? 0) eqn:E; zbool; [lia|]. rewrite Nat2Z.id in *.
      apply list_insert_id. destruct (lookup_lt_is_Some_2 (lh_block g) i) as [y Hy];
        [unfold NBUF in *; lia|]. rewrite Hy in *. simpl in Hi2. congruence. }
    rewrite Hz. unfold log_ok. simpl. by split_and!.
Qed.

Lemma wp_log_write s v sz bs b x (Q : unit -> S -> Prop) :
  let g := glog s in
  log_ok g sz bs -> bl_ok (lget s) [] v -> (b, x) ∈ v_held v -> 0 <= x < sz ->
  home (lstart g) (lsize g) x -> lsize g <= LOGSIZE -> lh_n g < lsize g - 1 -> 1 <= outstanding g ->
  (forall s', bl_ok (lget s') [] (v_setpin x v) -> log_ok (glog s') sz (record bs x) ->
     outstanding (glog s') = outstanding g -> lstart (glog s') = lstart g ->
     lsize (glog s') = lsize g -> Q tt s') ->
  wp (log_write b) s Q.
Proof.
  intros g Hlg Hok Hin Hx Hhome Hsz Hn Hout HQ.
  unfold log_write, log_get, log_mod. wp_prim. wp_prim. fold (glog s). fold g.
  replace ((LOGSIZE <=? lh_n g) || (lsize g - 1 <=? lh_n g)) with false
    by (symmetry; apply orb_false_iff; lia).
  replace (outstanding g <? 1) with false by lia. wp_step.
  eapply wp_log_acquire; [exact Hok|]. intros t1 Hok1. wp_step. apply wp_zoom. glens.
  eapply bl_blockno_law; [exact Hok1 | exact Hin |]. wp_step. apply wp_zoom. glens.
  eapply bl_pin_law; [exact Hok1 | exact Hin |]. intros t2 Hok2.
  eapply wp_log_release; [by glens|]. intros t3 Hok3.
  apply HQ; [by glens | | unfold glog; by glens..]. unfold glog. glens. fold (glog s). fold g.
  apply log_ok_record; try done; lia.
Qed.

(** [log_write] of a held buffer records its block in the transaction once
    (later writes of the same block are absorbed) and pins the buffer; it panics,
    before it changes anything, when the transaction would outgrow the log or when
    no operation is open. *)
Theorem log_write_records (s : S) v sz bs b x :
  let g := glog s in
  log_ok g sz bs -> bl_ok (lget s) [] v -> (b, x) ∈ v_held v -> 0 <= x < sz ->
  home (lstart g) (lsize g) x -> lsize g <= LOGSIZE ->
  if (lsize g - 1 <=? lh_n g) then log_write b s = Panic "too big a transaction" s
  else if (outstanding g <? 1) then log_write b s = Panic "log_write outside of trans" s
  else exists s', log_write b s = Ret tt s' /\ bl_ok (lget s') [] (v_setpin x v) /\
    log_ok (glog s') sz (record bs x) /\ outstanding (glog s') = outstanding g.
Proof.
  intros g Hlg Hok Hin Hx Hhome Hsz.
  destruct (lsize g - 1 <=? lh_n g) eqn:E1; zbool.
  - unfold log_write, log_get. erewrite bind_ret by reflexivity. fold (glog s). fold g.
    replace (lsize g - 1 <=? lh_n g) with true by lia. by rewrite orb_true_r.
  - destruct (outstanding g <? 1) eqn:E2.
    + unfold log_write, log_get. erewrite bind_ret by reflexivity. fold (glog s). fold g.
      replace ((LOGSIZE <=? lh_n g) || (lsize g - 1 <=? lh_n g)) with false
        by (symmetry; apply orb_false_iff; lia).
      by rewrite E2.
    + destruct (wp_log_write s v sz bs b x (fun _ s' => bl_ok (lget s') [] (v_setpin x v) /\
        log_ok (glog s') sz (record bs x) /\ outstanding (glog s') = outstanding g))
        as ([] & s' & E & Hr); try done; [zbool; fold g; lia | by exists s'].
Qed.

End Progs.

(** ** A concrete system: the buffer cache on a memory disk, with its log *)

Import BioLaws Bio.

Abbreviation lst := (bst * logst)%type.
#[local] Instance bst_layer : BlockLayer bst := bio_layer 0.
#[local] Instance bst_laws : BlockLaws bst := bio_laws 0 0 0 true.

Definition ones : block := replicate 512 1.

(** Block 500 has been modified in the cache and belongs to the transaction. *)
Definition one_cache : bcache :=
  {| buf_of := fun b =>
       {| flags := if decide (b = 0)%nat then 6 else 0; dev := if decide (b = 0)%nat then 1 else 0;
          blockno := if decide (b = 0)%nat then 500 else 0; refcnt := 0;
          next := if decide (b = 0)%nat then bhead else Nat.pred b;
          prev := if decide (b = bhead) then 0%nat else Datatypes.S b;
          bdata := if decide (b = 0)%nat then ones else [] |} |}.
Definition one_bio : bst :=
  (boot_core, ({| Sleeplock.sl_of := fun _ => {| Sleeplock.slocked := false; Sleeplock.spid := 0 |} |},
     (one_cache, boot_disk))).
Definition one_view : bview :=
  {| v_disk := blocks boot_disk; v_data := fupd 500 ones (blocks boot_disk); v_pin := {[500]};
     v_held := []; v_trace := []; v_size := 1000 |}.
Definition one_log (n out : Z) : logst :=
  {| lstart := 100; lsize := 30; outstanding := out; committing := false; ldev := 1;
     lh_n := n; lh_block := 500 :: replicate 29 0 |}.

Lemma one_bio_ok : bio_ok 0 0 true one_bio [] one_view.
Proof.
  split_and!; [exact boot_ok | vm_compute; lia | | |].
  - split_and!.
    + exists (rev (seq 0 NBUF)). eapply ring_same_links; [| |exact boot_ring]; done.
    + intros b Hb. unfold buf_ok, kbuf. simpl. destruct (decide (b = 0)%nat).
      * split_and!; [tauto | done | split; [by intros _; rewrite elem_of_singleton | done] |].
        right. split; [apply not_elem_of_nil | done].
      * split_and!; [tauto | done | split; [done | by intros []] |].
        right. split; [apply not_elem_of_nil | done].
    + intros b1 b2 _ _. unfold kbuf. simpl. by repeat case_decide; subst.
    + intros n Hn. unfold one_view in Hn. cbn [v_pin] in Hn. apply elem_of_singleton in Hn as ->. exists 0%nat. unfold NBUF. split_and!; [lia | done | done].
  - split_and!; [constructor | constructor | by intros b n ?%elem_of_nil |]. intros n Hn. simpl.
    unfold fupd. case_decide as He.
    + subst. split_and!; [|apply zero_block_ok | right; left; by apply elem_of_singleton].
      split; [done|]. apply Forall_replicate. lia.
    + split_and!; [apply zero_block_ok | apply zero_block_ok | by left].
  - by split_and!.
Qed.

Lemma one_log_ok out : log_ok (one_log 1 out) 1000 [500].
Proof.
  unfold log_ok. simpl. split_and!; try done; try lia; [unfold NBUF; lia | |by repeat constructor].
  split_and!; [apply NoDup_singleton | simpl; lia |]. apply Forall_singleton. lia.
Qed.

Lemma commit_crash_safe_witness :
  exists s' v', commit (S := lst) (B := bst) (one_bio, one_log 1 0) = Ret tt s' /\ bl_ok (B := bst) (lget s') [] v' /\
    v_disk v' 500 = ones.
Proof.
  destruct (commit_crash_safe (S := lst) (B := bst) (one_bio, one_log 1 0) one_view 1000 [500])
    as (s' & v' & w & E & Hok & _ & _ & _ & Hd & _).
  - apply one_log_ok.
  - discriminate.
  - exact one_bio_ok.
  - reflexivity.
  - reflexivity.
  - vm_compute. reflexivity.
  - vm_compute. reflexivity.
  - exists s', v'. split; [exact E|]. split; [exact Hok|].
    apply (Hd 500); [lia | right; simpl; lia].
Defined.

Lemma recover_idempotent_witness :
  exists s' v', recover_from_log (S := lst) (B := bst) (boot_bio, one_log 0 0) = Ret tt s' /\
    bl_ok (B := bst) (lget s') [] v' /\ head_n (v_disk v' 100) = 0.
Proof.
  destruct (recover_idempotent (S := lst) (B := bst) (boot_bio, one_log 0 0) (blocks boot_disk) 100 30 1000)
    as (s' & v' & E & Hok & _ & _ & Hn & _).
  - unfold geometry. simpl. split_and!; reflexivity || lia.
  - exact boot_bio_ok.
  - apply valid_head_empty; [lia | vm_compute; reflexivity].
  - exists s', v'. split; [exact E|]. split; [exact Hok | exact Hn].
Defined.

Lemma begin_op_reserves_witness :
  exists s', begin_op (S := lst) (B := bst) 1 (boot_bio, one_log 0 1) = Ret tt s' /\ outstanding (glog s') = 2.
Proof.
  destruct (begin_op_reserves (S := lst) (B := bst) (boot_bio, one_log 0 1)
    (idle_view (blocks boot_disk) 1000) 0) as (s' & E & _ & Hg & _).
  - exact boot_bio_ok.
  - exists s'. split; [exact E|]. rewrite Hg. reflexivity.
Defined.

Lemma end_op_commits_witness :
  exists s' v', end_op (S := lst) (B := bst) (one_bio, one_log 1 1) = Ret tt s' /\ bl_ok (B := bst) (lget s') [] v' /\
    v_disk v' 500 = ones.
Proof.
  destruct (end_op_commits (S := lst) (B := bst) (one_bio, one_log 1 1) one_view 1000 [500])
    as (s' & v' & E & Hok & _ & _ & _ & _ & Hd).
  - apply one_log_ok.
  - exact one_bio_ok.
  - reflexivity.
  - reflexivity.
  - vm_compute. reflexivity.
  - vm_compute. reflexivity.
  - simpl. lia.
  - exists s', v'. split; [exact E|]. split; [exact Hok|].
    apply (Hd 500); [lia | right; simpl; lia].
Defined.

Lemma log_write_records_witness :
  exists s', log_write (S := lst) (B := bst) 0 (after_bread, one_log 1 1) = Ret tt s' /\
    log_ok (glog s') 1000 [500; 7].
Proof.
  destruct (log_write_records (S := lst) (B := bst) (after_bread, one_log 1 1)
    (v_hold 0 7 (idle_view (blocks boot_disk) 1000)) 1000 [500] 0 7) as (s' & E & _ & Hl & _).
  - apply one_log_ok.
  - exact after_bread_ok.
  - left.
  - lia.
  - left. simpl. lia.
  - simpl. unfold LOGSIZE. lia.
  - exists s'. split; [exact E | exact Hl].
Defined.

End LogSafety.
