(* ===== verification/Tx.v ===== *)
(** * Transactions: what log.c and bio.c promise to the file system

    fs.c reads blocks with [bread], changes them in place, records the change with
    [log_write] and lets go with [brelse].  [TxLaws] states these calls in terms of
    the contents of the blocks; the log on any block layer satisfies it. *)

From stdpp Require Import base gmap list strings.
From Stdlib Require Import ZArith Lia.
From S2P Require Import Prelude Core Locking Bio BioLaws Log LogSafety.
Import Log LogSafety.

(** The contents of the blocks, the buffers this process holds with their block
    numbers, the blocks of the transaction, the blocks changed in place but not
    recorded yet, the size of the disk, the bounds of the log. *)
Record tview : Type := {
  t_data : Z -> block;
  t_held : list (nat * Z);
  t_mod : gset Z;
  t_touch : gset Z;
  t_size : Z;
  t_logst : Z;
  t_logsize : Z
}.

Definition t_hold (b : nat) (n : Z) (v : tview) : tview :=
  {| t_data := t_data v; t_held := (b, n) :: t_held v; t_mod := t_mod v; t_touch := t_touch v;
     t_size := t_size v; t_logst := t_logst v; t_logsize := t_logsize v |}.
Definition t_release (h : list (nat * Z)) (v : tview) : tview :=
  {| t_data := t_data v; t_held := h; t_mod := t_mod v; t_touch := t_touch v;
     t_size := t_size v; t_logst := t_logst v; t_logsize := t_logsize v |}.
Definition t_modify (n : Z) (d : block) (v : tview) : tview :=
  {| t_data := fupd n d (t_data v); t_held := t_held v; t_mod := t_mod v;
     t_touch := {[n]} ∪ t_touch v; t_size := t_size v; t_logst := t_logst v;
     t_logsize := t_logsize v |}.
Definition t_record (n : Z) (v : tview) : tview :=
  {| t_data := t_data v; t_held := t_held v; t_mod := {[n]} ∪ t_mod v; t_touch := t_touch v ∖ {[n]};
     t_size := t_size v; t_logst := t_logst v; t_logsize := t_logsize v |}.

Definition t_home (v : tview) (n : Z) : Prop := home (t_logst v) (t_logsize v) n.

Class TxLayer (T : Type) : Type := {
  tx_bread : Z -> Z -> M T nat;
  tx_data : nat -> M T block;
  tx_setdata : nat -> block -> M T unit;
  tx_log_write : nat -> M T unit;
  tx_brelse : nat -> M T unit
}.

Class TxLaws (T : Type) `{TxLayer T} : Type := {
  tx_ok : T -> tview -> Prop;
  tx_ok_block s v n : tx_ok s v -> 0 <= n < t_size v -> block_ok (t_data v n);
  tx_ok_ext s v d : (forall n, d n = t_data v n) -> tx_ok s v ->
    tx_ok s {| t_data := d; t_held := t_held v; t_mod := t_mod v; t_touch := t_touch v;
      t_size := t_size v; t_logst := t_logst v; t_logsize := t_logsize v |};
  tx_bread_law s v n (Q : nat -> T -> Prop) :
    tx_ok s v -> 0 <= n < t_size v -> n ∉ (t_held v).*2 ->
    (size (t_mod v) + length (t_held v) < NBUF)%nat ->
    (forall b s', tx_ok s' (t_hold b n v) -> Q b s') -> wp (tx_bread ROOTDEV n) s Q;
  tx_data_law s v b n (Q : block -> T -> Prop) :
    tx_ok s v -> (b, n) ∈ t_held v -> Q (t_data v n) s -> wp (tx_data b) s Q;
  tx_setdata_law s v b n d (Q : unit -> T -> Prop) :
    tx_ok s v -> (b, n) ∈ t_held v -> block_ok d ->
    (forall s', tx_ok s' (t_modify n d v) -> Q tt s') -> wp (tx_setdata b d) s Q;
  tx_log_write_law s v b n (Q : unit -> T -> Prop) :
    tx_ok s v -> (b, n) ∈ t_held v -> t_home v n ->
    Z.of_nat (size (t_mod v)) < t_logsize v - 1 ->
    (forall s', tx_ok s' (t_record n v) -> Q tt s') -> wp (tx_log_write b) s Q;
  tx_brelse_law s v b n H1 H2 (Q : unit -> T -> Prop) :
    tx_ok s v -> t_held v = H1 ++ (b, n) :: H2 -> n ∉ t_touch v ->
    (forall s', tx_ok s' (t_release (H1 ++ H2) v) -> Q tt s') -> wp (tx_brelse b) s Q
}.

Module Tx.
Section Log.
Context {S B : Type} {HLB : Lens S B} {HLg : Lens S logst} {HLc : Lens B core}
  {HBL : BlockLayer B} {HBW : BlockLaws B}.
Context {HBok : LensOk S B} {HGok : LensOk S logst} {Hsep : LensSep S B logst}
  {HCok : LensOk B core}.

#[export] Instance log_layer : TxLayer S := {|
  tx_bread := lbread;
  tx_data := ldata;
  tx_setdata := lsetdata;
  tx_log_write := log_write;
  tx_brelse := lbrelse
|}.

(** An open transaction [bs] that owns the pinned buffers. *)
Definition log_tx (s : S) (v : tview) : Prop :=
  exists bv bs, bl_ok (lget s) [] bv /\ log_ok (glog s) (t_size v) bs /\
    1 <= outstanding (glog s) /\ lsize (glog s) <= LOGSIZE /\
    t_logst v = lstart (glog s) /\ t_logsize v = lsize (glog s) /\
    v_size bv = t_size v /\ v_held bv = t_held v /\ (forall n, v_data bv n = t_data v n) /\
    v_pin bv = t_mod v /\ t_mod v = list_to_set bs /\
    (forall b n, (b, n) ∈ t_held v -> 0 <= n < t_size v) /\
    forall n, 0 <= n < t_size v -> n ∉ t_mod v -> n ∉ t_touch v -> v_data bv n = v_disk bv n.

Ltac glens :=
  repeat first [rewrite lget_lset | rewrite lsep_l | rewrite lsep_r | rewrite lset_lset].

Lemma wp_tx_log_write s v b n (Q : unit -> S -> Prop) :
  log_tx s v -> (b, n) ∈ t_held v -> t_home v n -> Z.of_nat (size (t_mod v)) < t_logsize v - 1 ->
  (forall s', log_tx s' (t_record n v) -> Q tt s') -> wp (log_write b) s Q.
Proof.
  intros (bv & bs & Hok & Hlg & Hout & Hcap & Hst & Hls & Hsz & Hh & Hd & Hp & Hm & Hr & Hcl)
    Hin Hhome Hroom HQ.
  assert (Hn : lh_n (glog s) = Z.of_nat (size (t_mod v))).
  { destruct Hlg as (_ & _ & _ & _ & _ & Hn & _ & _ & (HN & _) & _).
    by rewrite Hm, size_list_to_set, Hn by done. }
  eapply (wp_log_write _ bv (t_size v) bs b n); try done.
  - by rewrite Hh.
  - by eapply Hr.
  - unfold t_home in Hhome. by rewrite <- Hst, <- Hls.
  - lia.
  - intros s' Hok' Hlg' Hout' Hst' Hls'. apply HQ. exists (v_setpin n bv), (record bs n).
    simpl. rewrite Hst', Hls'. split_and!; try done; try lia.
    + by rewrite Hp.
    + rewrite Hm. unfold record. apply leibniz_equiv. intros x.
      case_decide; rewrite elem_of_union, elem_of_singleton, !elem_of_list_to_set;
        rewrite ?elem_of_app, ?list_elem_of_singleton; [|tauto]. split; [|tauto].
      by intros [->|?].
    + intros x Hx. rewrite elem_of_union, elem_of_difference, !elem_of_singleton. intros H1 H2.
      apply Hcl; [done | tauto |]. intros H3. apply H2. split; [done|]. intros ->. tauto.
Qed.

Program Definition log_tx_laws : TxLaws S := {| tx_ok := log_tx |}.
Next Obligation.
  intros s v n (bv & bs & Hok & _ & _ & _ & _ & _ & Hsz & _ & Hd & _) Hn. rewrite <- Hd.
  eapply bl_ok_blocks; [exact Hok | lia].
Qed.
Next Obligation.
  intros s v d Hd (bv & bs & H). exists bv, bs. simpl. destruct_and!. split_and!; try done.
  intros n. rewrite Hd. auto.
Qed.
Next Obligation.
  intros s v n Q (bv & bs & Hok & Hlg & Hout & Hcap & Hst & Hls & Hsz & Hh & Hd & Hp & Hm & Hr & Hcl)
    Hn Hnh Hroom HQ. apply wp_zoom.
  eapply bl_bread_law; [exact Hok | lia | by rewrite Hh | right; by rewrite Hp, Hh |].
  intros b t Ht. apply HQ. exists (v_hold b n bv), bs. unfold glog. glens. simpl. rewrite Hh.
  split_and!; try done. intros b' n' [Heq|?]%elem_of_cons; [by simplify_eq | by eapply Hr].
Qed.
Next Obligation.
  intros s v b n Q (bv & bs & Hok & _ & _ & _ & _ & _ & _ & Hh & Hd & _) Hin HQ. apply wp_zoom.
  eapply bl_data_law; [exact Hok | by rewrite Hh |]. by rewrite Hd, lset_lget.
Qed.
Next Obligation.
  intros s v b n d Q (bv & bs & Hok & Hlg & Hout & Hcap & Hst & Hls & Hsz & Hh & Hd & Hp & Hm & Hr & Hcl)
    Hin Hb HQ. apply wp_zoom.
  eapply bl_setdata_law; [exact Hok | by rewrite Hh | done |].
  intros t Ht. apply HQ. exists (v_modify n d bv), bs. unfold glog. glens. simpl.
  split_and!; try done.
  - intros x. unfold fupd. by case_decide.
  - intros x Hx H1. rewrite elem_of_union, elem_of_singleton. intros H2.
    rewrite fupd_ne by tauto. apply Hcl; tauto.
Qed.
Next Obligation. intros; by eapply wp_tx_log_write. Qed.
Next Obligation.
  intros s v b n H1 H2 Q (bv & bs & Hok & Hlg & Hout & Hcap & Hst & Hls & Hsz & Hh & Hd & Hp & Hm & Hr & Hcl)
    Heq Ht HQ. apply wp_zoom.
  eapply bl_brelse_law; [exact Hok | by rewrite Hh | |].
  { rewrite Hp. destruct (decide (n ∈ t_mod v)); [by left | right]. apply Hcl; try done.
    eapply (Hr b). rewrite Heq, elem_of_app, elem_of_cons. tauto. }
  intros t Ht'. apply HQ. exists (v_setheld (H1 ++ H2) bv), bs. unfold glog. glens. simpl.
  split_and!; try done. intros b' n' Hin. apply (Hr b'). rewrite Heq.
  rewrite elem_of_app, elem_of_cons in *. tauto.
Qed.

End Log.
End Tx.
