(* ===== verification/Fs.v ===== *)
(** * The file system: fs.c

    Block allocation, inodes on disk and in the inode cache, file contents,
    directories and path names, on any transaction layer.  An inode pointer is an
    index in the cache; a C string is the list of its bytes. *)

From stdpp Require Import base gmap list strings.
From Stdlib Require Import ZArith Lia.
From S2P Require Import Prelude Core Locking Bio Log Tx.
Import Sleeplock.

Module Fs.

Definition NINODE : nat := 50.
Definition NDEV : Z := 10.
Definition ROOTINO : Z := 1.
Definition NDIRECT : Z := 12.
Definition NINDIRECT : Z := BSIZE / 4.
Definition MAXFILE : Z := NDIRECT + NINDIRECT.
Definition IPB : Z := BSIZE / 64.
Definition BPB : Z := BSIZE * 8.
Definition DIRSIZ : nat := 14.
Definition sizeof_dirent : Z := 16.
Definition T_DIR : Z := 1.
Definition T_FILE : Z := 2.
Definition T_DEV : Z := 3.

Definition IBLOCK (i : Z) (sb : superblock) : Z := i / IPB + sb_inodestart sb.
Definition BBLOCK (b : Z) (sb : superblock) : Z := b / BPB + sb_bmapstart sb.

(** In-memory inode (file.h); its sleep lock is number [inode_lock i]. *)
Record inode : Type := {
  idev : Z;
  inum : Z;
  iref : Z;
  ivalid : bool;
  itype : Z;
  imajor : Z;
  iminor : Z;
  inlink : Z;
  isize : Z;
  iaddrs : list Z
}.

Record icache : Type := { inode_of : nat -> inode }.

Definition inode_lock (i : nat) : Z := 1000 + Z.of_nat i.

Definition set_ref (n : Z) (k : inode) : inode :=
  {| idev := idev k; inum := inum k; iref := n; ivalid := ivalid k; itype := itype k;
     imajor := imajor k; iminor := iminor k; inlink := inlink k; isize := isize k; iaddrs := iaddrs k |}.
Definition set_valid (b : bool) (k : inode) : inode :=
  {| idev := idev k; inum := inum k; iref := iref k; ivalid := b; itype := itype k;
     imajor := imajor k; iminor := iminor k; inlink := inlink k; isize := isize k; iaddrs := iaddrs k |}.
Definition set_itype (t : Z) (k : inode) : inode :=
  {| idev := idev k; inum := inum k; iref := iref k; ivalid := ivalid k; itype := t;
     imajor := imajor k; iminor := iminor k; inlink := inlink k; isize := isize k; iaddrs := iaddrs k |}.
Definition set_devno (ma mi : Z) (k : inode) : inode :=
  {| idev := idev k; inum := inum k; iref := iref k; ivalid := ivalid k; itype := itype k;
     imajor := ma; iminor := mi; inlink := inlink k; isize := isize k; iaddrs := iaddrs k |}.
Definition set_nlink (n : Z) (k : inode) : inode :=
  {| idev := idev k; inum := inum k; iref := iref k; ivalid := ivalid k; itype := itype k;
     imajor := imajor k; iminor := iminor k; inlink := n; isize := isize k; iaddrs := iaddrs k |}.
Definition set_size (n : Z) (k : inode) : inode :=
  {| idev := idev k; inum := inum k; iref := iref k; ivalid := ivalid k; itype := itype k;
     imajor := imajor k; iminor := iminor k; inlink := inlink k; isize := n; iaddrs := iaddrs k |}.
Definition set_addr (i : Z) (a : Z) (k : inode) : inode :=
  {| idev := idev k; inum := inum k; iref := iref k; ivalid := ivalid k; itype := itype k;
     imajor := imajor k; iminor := iminor k; inlink := inlink k; isize := isize k;
     iaddrs := zset (iaddrs k) i a |}.

(** *** On-disk inodes: 64 bytes at [64 * (inum % IPB)] of the inode block *)

Definition get16 (d : block) (o : Z) : Z := zget 0 d o + 2 ^ 8 * zget 0 d (o + 1).
Definition put16 (d : block) (o : Z) (v : Z) : block :=
  zset (zset d o (u8 v)) (o + 1) (u8 (v / 2 ^ 8)).

Definition dinode_off (n : Z) : Z := 64 * (n mod IPB).

Fixpoint put_addrs (d : block) (o : Z) (l : list Z) : block :=
  match l with
  | [] => d
  | a :: l' => put_addrs (put32 d o a) (o + 4) l'
  end.

(** The stores of [iupdate]. *)
Definition put_dinode (d : block) (k : inode) : block :=
  let o := dinode_off (inum k) in
  let d := put16 d o (itype k) in
  let d := put16 d (o + 2) (imajor k) in
  let d := put16 d (o + 4) (iminor k) in
  let d := put16 d (o + 6) (inlink k) in
  let d := put32 d (o + 8) (isize k) in
  put_addrs d (o + 12) (iaddrs k).

(** The loads of [ilock]. *)
Definition get_dinode (d : block) (k : inode) : inode :=
  let o := dinode_off (inum k) in
  {| idev := idev k; inum := inum k; iref := iref k; ivalid := ivalid k;
     itype := s16 (get16 d o); imajor := s16 (get16 d (o + 2)); iminor := s16 (get16 d (o + 4));
     inlink := s16 (get16 d (o + 6)); isize := get32 d (o + 8);
     iaddrs := (fun i => get32 d (o + 12 + 4 * Z.of_nat i)) <$> seq 0 13 |}.

(** [memset(dip, 0, sizeof( *dip))] *)
Fixpoint zero_bytes (d : block) (o : Z) (n : nat) : block :=
  match n with
  | O => d
  | Datatypes.S n' => zero_bytes (zset d o 0) (o + 1) n'
  end.

(** *** The bitmap *)

Definition bit_of (d : block) (bi : Z) : bool := Z.testbit (zget 0 d (bi / 8)) (bi mod 8).
Definition set_bit (d : block) (bi : Z) : block :=
  zset d (bi / 8) (Z.lor (zget 0 d (bi / 8)) (Z.shiftl 1 (bi mod 8))).
Definition clear_bit (d : block) (bi : Z) : block :=
  zset d (bi / 8) (Z.ldiff (zget 0 d (bi / 8)) (Z.shiftl 1 (bi mod 8))).

(** The inner loop of [balloc]: the first free bit from [bi] on. *)
Fixpoint first_free (fuel : nat) (d : block) (b size bi : Z) : option Z :=
  match fuel with
  | O => None
  | Datatypes.S f =>
      if (bi <? BPB) && (b + bi <? size) then
        if negb (bit_of d bi) then Some bi else first_free f d b size (bi + 1)
      else None
  end.

(** *** Names *)

(** [strncmp] on byte lists that end at the first NUL or at their end. *)
Fixpoint strncmp_l (n : nat) (s t : list Z) : Z :=
  match n with
  | O => 0
  | Datatypes.S n' =>
      let c := default 0 (head s) in let d := default 0 (head t) in
      if (c =? 0) || negb (c =? d) then u8 c - u8 d else strncmp_l n' (tail s) (tail t)
  end.
Definition namecmp (s t : list Z) : Z := strncmp_l DIRSIZ s t.

(** [strncpy] into a field of [n] bytes. *)
Definition strncpy_l (s : list Z) (n : nat) : list Z := take n s ++ replicate (n - length s) 0.

Definition ch_slash : Z := 47.

Fixpoint skip_slashes (p : list Z) : list Z :=
  match p with
  | c :: p' => if c =? ch_slash then skip_slashes p' else p
  | [] => []
  end.
Fixpoint path_elem (p : list Z) : list Z * list Z :=
  match p with
  | c :: p' => if c =? ch_slash then ([], p) else let '(e, r) := path_elem p' in (c :: e, r)
  | [] => ([], [])
  end.

(** The rest of the path and the name, or nothing. *)
Definition skipelem (path : list Z) : option (list Z * list Z) :=
  match skip_slashes path with
  | [] => None
  | p =>
      let '(e, r) := path_elem p in
      Some (skip_slashes r, take DIRSIZ e)
  end.

(** [struct stat] *)
Record stat : Type := { st_type : Z; st_dev : Z; st_ino : Z; st_nlink : Z; st_size : Z }.

Definition dirent_inum (de : list Z) : Z := get16 de 0.
Definition dirent_name (de : list Z) : list Z := drop 2 de.
Definition make_dirent (name : list Z) (n : Z) : list Z :=
  u8 n :: u8 (n / 2 ^ 8) :: strncpy_l name DIRSIZ.

(** The device table [devsw]: read and write functions by major number. *)
Class DevSw (S : Type) : Type := {
  dev_read : Z -> option (nat -> Z -> M S (Z * list Z));
  dev_write : Z -> option (nat -> list Z -> Z -> M S Z)
}.

Section Ops.
Context {S T : Type} {HLT : Lens S T} {HTx : TxLayer T} {HLc : Lens T core} {HLs : Lens T slocktab}
  {HLi : Lens S icache} {HLb : Lens S superblock} {HDv : DevSw S}.

Definition bread (d n : Z) : M S nat := zoom (tx_bread d n).
Definition brelse (b : nat) : M S unit := zoom (tx_brelse b).
Definition bdata (b : nat) : M S block := zoom (tx_data b).
Definition bset (b : nat) (d : block) : M S unit := zoom (tx_setdata b d).
Definition log_write (b : nat) : M S unit := zoom (tx_log_write b).
Definition getsb : M S superblock := lgets (T := superblock) (fun x => x).
Definition geti (i : nat) : M S inode := lgets (T := icache) (fun c => inode_of c i).
Definition modi (i : nat) (f : inode -> inode) : M S unit :=
  lmod (T := icache) (fun c => {| inode_of := fun j => if decide (j = i) then f (inode_of c j) else inode_of c j |}).
Definition lk_acquire (l : lockid) : M S unit := zoom (acquire l : M T unit).
Definition lk_release (l : lockid) : M S unit := zoom (release l : M T unit).

Definition bzero (d bno : Z) : M S unit :=
  bp ← bread d bno;
  bset bp (replicate 512 0);;
  log_write bp;;
  brelse bp.

(** The outer loop of [balloc]. *)
Fixpoint balloc_loop (fuel : nat) (d b : Z) : M S Z :=
  match fuel with
  | O => panic "balloc: out of blocks"
  | Datatypes.S f =>
      sb ← getsb;
      if b <? sb_size sb then
        bp ← bread d (BBLOCK b sb);
        x ← bdata bp;
        match first_free (Z.to_nat BPB) x b (sb_size sb) 0 with
        | Some bi =>
            bset bp (set_bit x bi);;
            log_write bp;;
            brelse bp;;
            bzero d (b + bi);;
            mret (b + bi)
        | None => brelse bp;; balloc_loop f d (b + BPB)
        end
      else panic "balloc: out of blocks"
  end.

Definition balloc (d : Z) : M S Z :=
  sb ← getsb;
  balloc_loop (Datatypes.S (Z.to_nat (sb_size sb / BPB + 1))) d 0.

Definition bfree (d b : Z) : M S unit :=
  sb ← getsb;
  bp ← bread d (BBLOCK b sb);
  x ← bdata bp;
  let bi := b mod BPB in
  if negb (bit_of x bi) then panic "freeing free block"
  else
    bset bp (clear_bit x bi);;
    log_write bp;;
    brelse bp.

Definition fs_readsb (d : Z) : M S superblock :=
  bp ← bread d 1;
  x ← bdata bp;
  brelse bp;;
  mret (decode_sb x).

(** The console message of [iinit] is not modelled. *)
Definition iinit (d : Z) : M S unit :=
  zoom (initlock L_icache : M T unit);;
  for_each (fun i => zoom (initsleeplock (inode_lock i) : M T unit)) (seq 0 NINODE);;
  sb ← fs_readsb d;
  lmod (T := superblock) (fun _ => sb).

(** The scan of [iget]: the entry of the inode, and the first empty slot. *)
Fixpoint iget_scan (c : icache) (d n : Z) (l : list nat) (empty : option nat) : option nat * option nat :=
  match l with
  | [] => (None, empty)
  | i :: l' =>
      let k := inode_of c i in
      if (0 <? iref k) && (idev k =? d) && (inum k =? n) then (Some i, empty)
      else iget_scan c d n l'
             (match empty with
              | None => if iref k =? 0 then Some i else None
              | Some _ => empty
              end)
  end.

Definition iget (d n : Z) : M S nat :=
  lk_acquire L_icache;;
  r ← lgets (T := icache) (fun c => iget_scan c d n (seq 0 NINODE) None);
  match r with
  | (Some i, _) =>
      modi i (fun k => set_ref (iref k + 1) k);;
      lk_release L_icache;;
      mret i
  | (None, None) => panic "iget: no inodes"
  | (None, Some i) =>
      modi i (fun k =>
        {| idev := d; inum := n; iref := 1; ivalid := false; itype := itype k;
           imajor := imajor k; iminor := iminor k; inlink := inlink k; isize := isize k;
           iaddrs := iaddrs k |});;
      lk_release L_icache;;
      mret i
  end.

Fixpoint ialloc_loop (fuel : nat) (d type n : Z) : M S nat :=
  match fuel with
  | O => panic "ialloc: no inodes"
  | Datatypes.S f =>
      sb ← getsb;
      if n <? sb_ninodes sb then
        bp ← bread d (IBLOCK n sb);
        x ← bdata bp;
        if s16 (get16 x (dinode_off n)) =? 0 then
          bset bp (put16 (zero_bytes x (dinode_off n) 64) (dinode_off n) type);;
          log_write bp;;
          brelse bp;;
          iget d n
        else brelse bp;; ialloc_loop f d type (n + 1)
      else panic "ialloc: no inodes"
  end.

Definition ialloc (d type : Z) : M S nat :=
  sb ← getsb;
  ialloc_loop (Z.to_nat (sb_ninodes sb)) d type 1.

Definition iupdate (i : nat) : M S unit :=
  k ← geti i;
  sb ← getsb;
  bp ← bread (idev k) (IBLOCK (inum k) sb);
  x ← bdata bp;
  bset bp (put_dinode x k);;
  log_write bp;;
  brelse bp.

Definition idup (i : nat) : M S nat :=
  lk_acquire L_icache;;
  modi i (fun k => set_ref (iref k + 1) k);;
  lk_release L_icache;;
  mret i.

(** [fuel] bounds the wakeups of [acquiresleep]. *)
Definition ilock (fuel : nat) (i : nat) : M S unit :=
  k ← geti i;
  if iref k <? 1 then panic "ilock"
  else
    zoom (acquiresleep fuel (inode_lock i) : M T unit);;
    k ← geti i;
    if ivalid k then mret tt
    else
      sb ← getsb;
      bp ← bread (idev k) (IBLOCK (inum k) sb);
      x ← bdata bp;
      modi i (get_dinode x);;
      brelse bp;;
      modi i (set_valid true);;
      k ← geti i;
      if itype k =? 0 then panic "ilock: no type" else mret tt.

Definition iunlock (i : nat) : M S unit :=
  h ← zoom (holdingsleep (inode_lock i) : M T bool);
  if negb h then panic "iunlock"
  else
    k ← geti i;
    if iref k <? 1 then panic "iunlock"
    else zoom (releasesleep (inode_lock i) : M T unit).

(** *** Contents *)

Definition bmap (i : nat) (bn : Z) : M S Z :=
  k ← geti i;
  if bn <? NDIRECT then
    let a := zget 0 (iaddrs k) bn in
    if a =? 0 then
      a ← balloc (idev k);
      modi i (set_addr bn a);;
      mret a
    else mret a
  else
    let bn := bn - NDIRECT in
    if bn <? NINDIRECT then
      a ← (let a := zget 0 (iaddrs k) NDIRECT in
           if a =? 0 then
             a ← balloc (idev k);
             modi i (set_addr NDIRECT a);;
             mret a
           else mret a);
      bp ← bread (idev k) a;
      x ← bdata bp;
      r ← (let e := get32 x (4 * bn) in
           if e =? 0 then
             e ← balloc (idev k);
             bset bp (put32 x (4 * bn) e);;
             log_write bp;;
             mret e
           else mret e);
      brelse bp;;
      mret r
    else panic "bmap: out of range".

(** The two loops of [itrunc]. *)
Definition trunc_direct (i : nat) (j : nat) : M S unit :=
  k ← geti i;
  let a := zget 0 (iaddrs k) (Z.of_nat j) in
  if a =? 0 then mret tt
  else bfree (idev k) a;; modi i (set_addr (Z.of_nat j) 0).

Definition itrunc (i : nat) : M S unit :=
  for_each (trunc_direct i) (seq 0 (Z.to_nat NDIRECT));;
  k ← geti i;
  (let a := zget 0 (iaddrs k) NDIRECT in
   if a =? 0 then mret tt
   else
     bp ← bread (idev k) a;
     x ← bdata bp;
     for_each (fun j => let e := get32 x (4 * Z.of_nat j) in
                        if e =? 0 then mret tt else bfree (idev k) e)
       (seq 0 (Z.to_nat NINDIRECT));;
     brelse bp;;
     bfree (idev k) a;;
     modi i (set_addr NDIRECT 0));;
  modi i (set_size 0);;
  iupdate i.

Definition iput (fuel : nat) (i : nat) : M S unit :=
  zoom (acquiresleep fuel (inode_lock i) : M T unit);;
  k ← geti i;
  (if ivalid k && (inlink k =? 0) then
     lk_acquire L_icache;;
     k ← geti i;
     lk_release L_icache;;
     if iref k =? 1 then
       itrunc i;;
       modi i (set_itype 0);;
       iupdate i;;
       modi i (set_valid false)
     else mret tt
   else mret tt);;
  zoom (releasesleep (inode_lock i) : M T unit);;
  lk_acquire L_icache;;
  modi i (fun k => set_ref (iref k - 1) k);;
  lk_release L_icache.

Definition iunlockput (fuel : nat) (i : nat) : M S unit :=
  iunlock i;;
  iput fuel i.

Definition stati (i : nat) : M S stat :=
  k ← geti i;
  mret {| st_type := itype k; st_dev := idev k; st_ino := inum k; st_nlink := inlink k;
          st_size := isize k |}.

(** The copying loop of [readi]; each round copies at least one byte. *)
Fixpoint readi_loop (fuel : nat) (i : nat) (off n tot : Z) : M S (list Z) :=
  match fuel with
  | O => mret []
  | Datatypes.S f =>
      if tot <? n then
        k ← geti i;
        a ← bmap i (off / BSIZE);
        bp ← bread (idev k) a;
        x ← bdata bp;
        let m := Z.min (n - tot) (BSIZE - off mod BSIZE) in
        let bytes := take (Z.to_nat m) (drop (Z.to_nat (off mod BSIZE)) x) in
        brelse bp;;
        rest ← readi_loop f i (off + m) n (tot + m);
        mret (bytes ++ rest)
      else mret []
  end.

(** The result and the bytes stored at [dst]. *)
Definition readi (i : nat) (off n : Z) : M S (Z * list Z) :=
  k ← geti i;
  if itype k =? T_DEV then
    if (imajor k <? 0) || (NDEV <=? imajor k) then mret (-1, [])
    else match dev_read (imajor k) with
         | None => mret (-1, [])
         | Some f => f i n
         end
  else if (isize k <? off) || (u32 (off + n) <? off) then mret (-1, [])
  else
    let n := if isize k <? u32 (off + n) then u32 (isize k - off) else n in
    bytes ← readi_loop (Datatypes.S (Z.to_nat n)) i off n 0;
    mret (n, bytes).

(** [memmove(bp->data + o, src, m)] *)
Definition splice (x : list Z) (o : nat) (bytes : list Z) : list Z :=
  take o x ++ bytes ++ drop (o + length bytes) x.

(** The copying loop of [writei]; it returns the final offset. *)
Fixpoint writei_loop (fuel : nat) (i : nat) (src : list Z) (off n tot : Z) : M S Z :=
  match fuel with
  | O => mret off
  | Datatypes.S f =>
      if tot <? n then
        k ← geti i;
        a ← bmap i (off / BSIZE);
        bp ← bread (idev k) a;
        x ← bdata bp;
        let m := Z.min (n - tot) (BSIZE - off mod BSIZE) in
        bset bp (splice x (Z.to_nat (off mod BSIZE)) (take (Z.to_nat m) (drop (Z.to_nat tot) src)));;
        log_write bp;;
        brelse bp;;
        writei_loop f i src (off + m) n (tot + m)
      else mret off
  end.

Definition writei (i : nat) (src : list Z) (off n : Z) : M S Z :=
  k ← geti i;
  if itype k =? T_DEV then
    if (imajor k <? 0) || (NDEV <=? imajor k) then mret (-1)
    else match dev_write (imajor k) with
         | None => mret (-1)
         | Some f => f i src n
         end
  else if (isize k <? off) || (u32 (off + n) <? off) then mret (-1)
  else if MAXFILE * BSIZE <? u32 (off + n) then mret (-1)
  else
    off ← writei_loop (Datatypes.S (Z.to_nat n)) i src off n 0;
    k ← geti i;
    (if (0 <? n) && (isize k <? off) then
       modi i (set_size off);; iupdate i
     else mret tt);;
    mret n.

(** *** Directories *)

Fixpoint dirlookup_loop (fuel : nat) (dp : nat) (name : list Z) (off : Z) : M S (option (nat * Z)) :=
  match fuel with
  | O => mret None
  | Datatypes.S f =>
      k ← geti dp;
      if off <? isize k then
        '(r, de) ← readi dp off sizeof_dirent;
        if negb (r =? sizeof_dirent) then panic "dirlookup read"
        else if dirent_inum de =? 0 then dirlookup_loop f dp name (off + sizeof_dirent)
        else if namecmp name (dirent_name de) =? 0 then
          ip ← iget (idev k) (dirent_inum de);
          mret (Some (ip, off))
        else dirlookup_loop f dp name (off + sizeof_dirent)
      else mret None
  end.

Definition dirlookup (dp : nat) (name : list Z) : M S (option (nat * Z)) :=
  k ← geti dp;
  if negb (itype k =? T_DIR) then panic "dirlookup not DIR"
  else dirlookup_loop (Datatypes.S (Z.to_nat (isize k))) dp name 0.

(** The offset of the first empty entry, or the size of the directory. *)
Fixpoint dirlink_loop (fuel : nat) (dp : nat) (off : Z) : M S Z :=
  match fuel with
  | O => mret off
  | Datatypes.S f =>
      k ← geti dp;
      if off <? isize k then
        '(r, de) ← readi dp off sizeof_dirent;
        if negb (r =? sizeof_dirent) then panic "dirlink read"
        else if dirent_inum de =? 0 then mret off
        else dirlink_loop f dp (off + sizeof_dirent)
      else mret off
  end.

Definition dirlink (fuel : nat) (dp : nat) (name : list Z) (n : Z) : M S Z :=
  r ← dirlookup dp name;
  match r with
  | Some (ip, _) => iput fuel ip;; mret (-1)
  | None =>
      k ← geti dp;
      off ← dirlink_loop (Datatypes.S (Z.to_nat (isize k))) dp 0;
      w ← writei dp (make_dirent name n) off sizeof_dirent;
      if negb (w =? sizeof_dirent) then panic "dirlink" else mret 0
  end.

(** *** Paths *)

Definition my_cwd : M S nat :=
  p ← zoom (myproc : M T (option nat));
  c ← lgets (T := T) (fun t => cwd (getp (lget t) (default O p)));
  mret (default O c).

(** The loop of [namex]; the path gets shorter in every round. *)
Fixpoint namex_loop (rounds fuel : nat) (ip : nat) (path : list Z) (parent : bool) (name : list Z) :
  M S (option nat * list Z) :=
  match rounds with
  | O => mret (None, name)
  | Datatypes.S r =>
      match skipelem path with
      | None => if parent then iput fuel ip;; mret (None, name) else mret (Some ip, name)
      | Some (rest, nm) =>
          ilock fuel ip;;
          k ← geti ip;
          if negb (itype k =? T_DIR) then iunlockput fuel ip;; mret (None, nm)
          else if parent && bool_decide (rest = []) then iunlock ip;; mret (Some ip, nm)
          else
            next ← dirlookup ip nm;
            match next with
            | None => iunlockput fuel ip;; mret (None, nm)
            | Some (nx, _) => iunlockput fuel ip;; namex_loop r fuel nx rest parent nm
            end
      end
  end.

Definition namex (fuel : nat) (path : list Z) (parent : bool) : M S (option nat * list Z) :=
  ip ← (match path with
        | c :: _ => if c =? ch_slash then iget ROOTDEV ROOTINO else (c ← my_cwd; idup c)
        | [] => c ← my_cwd; idup c
        end);
  namex_loop (Datatypes.S (length path)) fuel ip path parent [].

Definition namei (fuel : nat) (path : list Z) : M S (option nat) :=
  r ← namex fuel path false; mret r.1.

Definition nameiparent (fuel : nat) (path : list Z) : M S (option nat * list Z) :=
  namex fuel path true.

End Ops.
End Fs.
