(* ===== verification/FsProof.v ===== *)
(** * Correctness of the file system operations

    Path elements, the block bitmap, the on-disk inodes, the inode cache, and
    reading and writing the contents of a file. *)

From stdpp Require Import base gmap list strings.
From Stdlib Require Import ZArith Lia.
From S2P Require Import Prelude Core Locking Bio BioLaws Log LogSafety Tx Fs.
Import Fs.

Module FsProof.

(** ** Path elements *)

(** The elements of a path: its maximal runs of bytes other than '/'. *)
Fixpoint elements_from (cur : list Z) (p : list Z) : list (list Z) :=
  match p with
  | [] => match cur with [] => [] | _ => [cur] end
  | c :: p' =>
      if c =? ch_slash then
        match cur with
        | [] => elements_from [] p'
        | _ => cur :: elements_from [] p'
        end
      else elements_from (cur ++ [c]) p'
  end.
Definition path_elements (p : list Z) : list (list Z) := elements_from [] p.

Lemma elements_skip p : path_elements (skip_slashes p) = path_elements p.
Proof.
  induction p as [|c p IH]; [done|]. simpl. unfold path_elements in *. simpl.
  by destruct (c =? ch_slash) eqn:E; simpl; rewrite ?E.
Qed.

Lemma elements_elem p : forall cur,
  let '(e, r) := path_elem p in
  cur ++ e <> [] -> elements_from cur p = (cur ++ e) :: path_elements r.
Proof.
  induction p as [|c p IH]; intros cur; simpl.
  - rewrite app_nil_r. by destruct cur.
  - destruct (c =? ch_slash) eqn:E; simpl.
    + rewrite app_nil_r. unfold path_elements. simpl. rewrite E. by destruct cur.
    + specialize (IH (cur ++ [c])). destruct (path_elem p) as [e r].
      rewrite <- app_assoc in IH. simpl in IH. by intros H; apply IH.
Qed.

Lemma skip_slashes_head p :
  match skip_slashes p with [] => True | c :: _ => c <> ch_slash end.
Proof.
  induction p as [|c p IH]; simpl; [done|]. destruct (c =? ch_slash) eqn:E; zbool; done.
Qed.

(** [skipelem] splits off the first element of a path: repeated slashes count as
    one, the name is cut to DIRSIZ bytes, the returned path consists of the remaining
    elements and does not start with a slash (so it is empty exactly when the
    element was the last one), and it returns nothing exactly for a path without
    elements. *)
Theorem skipelem_correct path :
  match skipelem path with
  | None => path_elements path = []
  | Some (rest, name) =>
      exists e, e <> [] /\ path_elements path = e :: path_elements rest /\
        name = take DIRSIZ e /\ (rest = [] <-> path_elements rest = []) /\
        match rest with [] => True | c :: _ => c <> ch_slash end
  end.
Proof.
  unfold skipelem. pose proof (elements_skip path) as Hs. pose proof (skip_slashes_head path) as Hh.
  destruct (skip_slashes path) as [|c p] eqn:E; [by rewrite <- Hs|].
  pose proof (elements_elem (c :: p) []) as He. simpl in He.
  destruct (c =? ch_slash) eqn:Ec; zbool; [done|]. simpl.
  replace (c =? ch_slash) with false by lia.
  destruct (path_elem p) as [e r]. exists (c :: e). simpl in He.
  pose proof (skip_slashes_head r) as Hr. pose proof (elements_skip r) as Hse.
  split_and!; [done | | done | | done].
  - rewrite <- Hs. unfold path_elements at 1. simpl. replace (c =? ch_slash) with false by lia.
    rewrite He by done. by rewrite Hse.
  - destruct (skip_slashes r) as [|c' r'] eqn:Er; [done|]. split; [done|].
    unfold path_elements. simpl. replace (c' =? ch_slash) with false by lia.
    pose proof (elements_elem r' [c']) as Hx. destruct (path_elem r') as [e' r''].
    rewrite Hx by done. done.
Qed.

(** The examples in the source. *)
Example skipelem_doc :
  skipelem (bytes_of_string "a/bb/c") = Some (bytes_of_string "bb/c", bytes_of_string "a") /\
  skipelem (bytes_of_string "///a//bb") = Some (bytes_of_string "bb", bytes_of_string "a") /\
  skipelem (bytes_of_string "a") = Some ([], bytes_of_string "a") /\
  skipelem [] = None /\ skipelem (bytes_of_string "////") = None.
Proof. vm_compute. done. Qed.

(** ** The bitmap *)

Lemma byte_lor a b : 0 <= a < 256 -> 0 <= b < 256 -> 0 <= Z.lor a b < 256.
Proof.
  intros Ha Hb. assert (0 <= Z.lor a b) by (apply Z.lor_nonneg; lia). split; [done|].
  assert (Hs : Z.shiftr (Z.lor a b) 8 = 0).
  { rewrite Z.shiftr_lor, !Z.shiftr_div_pow2, !Z.div_small by lia. done. }
  rewrite Z.shiftr_div_pow2 in Hs by lia. Z.to_euclidean_division_equations. lia.
Qed.

Lemma byte_mask j : 0 <= j < 8 -> 0 <= Z.shiftl 1 j < 256.
Proof.
  intros Hj. rewrite Z.shiftl_mul_pow2, Z.mul_1_l by lia. split; [lia|].
  change 256 with (2 ^ 8). apply Z.pow_lt_mono_r; lia.
Qed.

Lemma byte_ldiff a b : 0 <= a < 256 -> 0 <= b -> 0 <= Z.ldiff a b < 256.
Proof.
  intros Ha Hb. split; [apply Z.ldiff_nonneg; lia|].
  assert (Z.ldiff a b <= a); [|lia]. apply Z.ldiff_le; [lia|].
  apply Z.bits_inj'. intros i Hi. rewrite !Z.ldiff_spec, Z.bits_0. by destruct (Z.testbit a i), (Z.testbit b i).
Qed.

Lemma zget_block d i : block_ok d -> 0 <= zget 0 d i < 256.
Proof.
  intros [_ Hf]. unfold zget. case_bool; [lia|]. destruct (d !! Z.to_nat i) as [x|] eqn:E; simpl; [|lia].
  rewrite Forall_forall in Hf. apply Hf. by eapply list_elem_of_lookup_2.
Qed.

Lemma set_bit_ok d bi : block_ok d -> block_ok (set_bit d bi).
Proof.
  intros Hd. pose proof Hd as [Hl Hf]. split; [unfold set_bit; by rewrite zset_length|].
  apply zset_Forall; [done|]. apply byte_lor; [by apply zget_block|].
  apply byte_mask. apply Z.mod_pos_bound. lia.
Qed.

Lemma clear_bit_ok d bi : block_ok d -> block_ok (clear_bit d bi).
Proof.
  intros Hd. pose proof Hd as [Hl Hf]. split; [unfold clear_bit; by rewrite zset_length|].
  apply zset_Forall; [done|]. apply byte_ldiff; [by apply zget_block|].
  apply byte_mask. apply Z.mod_pos_bound. lia.
Qed.

Lemma bit_of_zset d bi bj x :
  length d = 512%nat -> 0 <= bi < BPB -> 0 <= bj < BPB ->
  bit_of (zset d (bi / 8) x) bj =
    if bj / 8 =? bi / 8 then Z.testbit x (bj mod 8) else bit_of d bj.
Proof.
  intros Hl Hi Hj. unfold bit_of, BPB, BSIZE in *. destruct (bj / 8 =? bi / 8) eqn:E; zbool.
  - rewrite E, zget_zset_eq; [done|]. unfold zlen. rewrite Hl.
    Z.to_euclidean_division_equations. lia.
  - by rewrite zget_zset_ne by lia.
Qed.

Lemma bit_of_set d bi bj :
  length d = 512%nat -> 0 <= bi < BPB -> 0 <= bj < BPB ->
  bit_of (set_bit d bi) bj = (bi =? bj) || bit_of d bj.
Proof.
  intros Hl Hi Hj. unfold set_bit. rewrite bit_of_zset by done.
  pose proof (Z.mod_pos_bound bj 8). pose proof (Z.mod_pos_bound bi 8).
  destruct (bj / 8 =? bi / 8) eqn:E; zbool.
  - rewrite Z.lor_spec, Z.shiftl_spec by lia. unfold bit_of. rewrite E, orb_comm. f_equal.
    destruct (bi =? bj) eqn:E2; zbool.
    + subst. by rewrite Z.sub_diag.
    + destruct (decide (bj mod 8 < bi mod 8)); [apply Z.testbit_neg_r; lia|].
      apply Z.bits_above_log2; [lia|]. change (Z.log2 1) with 0.
      Z.to_euclidean_division_equations. lia.
  - destruct (bi =? bj) eqn:E2; zbool; [subst; lia | done].
Qed.

Lemma bit_of_clear d bi bj :
  length d = 512%nat -> 0 <= bi < BPB -> 0 <= bj < BPB ->
  bit_of (clear_bit d bi) bj = negb (bi =? bj) && bit_of d bj.
Proof.
  intros Hl Hi Hj. unfold clear_bit. rewrite bit_of_zset by done.
  pose proof (Z.mod_pos_bound bj 8). pose proof (Z.mod_pos_bound bi 8).
  destruct (bj / 8 =? bi / 8) eqn:E; zbool.
  - rewrite Z.ldiff_spec, Z.shiftl_spec by lia. unfold bit_of. rewrite E, andb_comm. f_equal. f_equal.
    destruct (bi =? bj) eqn:E2; zbool.
    + subst. by rewrite Z.sub_diag.
    + destruct (decide (bj mod 8 < bi mod 8)); [apply Z.testbit_neg_r; lia|].
      apply Z.bits_above_log2; [lia|]. change (Z.log2 1) with 0.
      Z.to_euclidean_division_equations. lia.
  - destruct (bi =? bj) eqn:E2; zbool; [subst; lia | done].
Qed.

Lemma first_free_spec d b size fuel : forall bi,
  0 <= bi -> BPB - bi <= Z.of_nat fuel ->
  match first_free fuel d b size bi with
  | Some r => bi <= r < BPB /\ b + r < size /\ bit_of d r = false /\
      forall j, bi <= j < r -> bit_of d j = true
  | None => forall j, bi <= j < BPB -> b + j < size -> bit_of d j = true
  end.
Proof.
  induction fuel as [|fuel IH]; intros bi Hbi Hf; simpl.
  - intros j Hj. lia.
  - destruct ((bi <? BPB) && (b + bi <? size)) eqn:E.
    + zbool. destruct (bit_of d bi) eqn:Eb; simpl.
      * specialize (IH (bi + 1)). destruct (first_free fuel d b size (bi + 1)) as [r|].
        -- destruct IH as (H1 & H2 & H3 & H4); [lia..|]. split_and!; try done; try lia.
           intros j Hj. destruct (decide (j = bi)) as [->|]; [done|]. apply H4. lia.
        -- intros j Hj Hs. destruct (decide (j = bi)) as [->|]; [done|]. apply IH; lia.
      * split_and!; try done; try lia.
    + intros j Hj Hs. apply andb_false_iff in E as [E|E]; zbool; lia.
Qed.

(** ** Inodes on disk *)

Lemma get16_put16_eq d o v : 0 <= o -> o + 2 <= zlen d -> get16 (put16 d o v) o = u16 v.
Proof.
  unfold zlen. intros H1 H2. unfold get16, put16.
  repeat first [ rewrite zget_zset_eq by (unfold zlen; rewrite ?zset_length; lia)
               | rewrite zget_zset_ne by lia ]. zwrap.
Qed.
Lemma zget_put16_ne d o v i : i < o \/ o + 2 <= i -> zget 0 (put16 d o v) i = zget 0 d i.
Proof. intros. unfold put16. by rewrite !zget_zset_ne by lia. Qed.
Lemma get16_put16_ne d o v p : p + 2 <= o \/ o + 2 <= p -> get16 (put16 d o v) p = get16 d p.
Proof. intros. unfold get16. by rewrite !zget_put16_ne by lia. Qed.
Lemma get32_put16_ne d o v p : p + 4 <= o \/ o + 2 <= p -> get32 (put16 d o v) p = get32 d p.
Proof. intros. unfold get32. by rewrite !zget_put16_ne by lia. Qed.
Lemma get16_put32_ne d o v p : p + 2 <= o \/ o + 4 <= p -> get16 (put32 d o v) p = get16 d p.
Proof. intros. unfold get16. by rewrite !zget_put32_ne by lia. Qed.
Lemma put16_length d o v : length (put16 d o v) = length d.
Proof. unfold put16. by rewrite !zset_length. Qed.

Lemma put_addrs_spec l : forall d o,
  0 <= o -> o + 4 * zlen l <= zlen d ->
  length (put_addrs d o l) = length d /\
  (forall i, i < o \/ o + 4 * zlen l <= i -> zget 0 (put_addrs d o l) i = zget 0 d i) /\
  forall j a, l !! j = Some a -> get32 (put_addrs d o l) (o + 4 * Z.of_nat j) = u32 a.
Proof.
  induction l as [|a l IH]; intros d o Ho Hl; simpl; [done|].
  rewrite zlen_cons in *. pose proof (zlen_nonneg l).
  assert (Hpl : zlen (put32 d o a) = zlen d) by (unfold zlen; by rewrite put32_length).
  destruct (IH (put32 d o a) (o + 4)) as (H1 & H2 & H3); [lia | lia |].
  split_and!.
  - by rewrite H1, put32_length.
  - intros i Hi. rewrite H2 by lia. apply zget_put32_ne. lia.
  - intros [|j] x Hx; simpl in Hx.
    + injection Hx as ->. rewrite Z.mul_0_r, Z.add_0_r.
      assert (Hg : get32 (put_addrs (put32 d o x) (o + 4) l) o = get32 (put32 d o x) o)
        by (unfold get32; by rewrite !H2 by lia).
      rewrite Hg. apply get32_put32_eq; lia.
    + replace (o + 4 * Z.of_nat (Datatypes.S j)) with (o + 4 + 4 * Z.of_nat j) by lia. by apply H3.
Qed.

Lemma s16_u16 x : - 2 ^ 15 <= x < 2 ^ 15 -> s16 (u16 x) = x.
Proof. intros. zwrap. Qed.

(** The fields of an in-memory inode fit their types. *)
Definition inode_fits (k : inode) : Prop :=
  - 2 ^ 15 <= itype k < 2 ^ 15 /\ - 2 ^ 15 <= imajor k < 2 ^ 15 /\ - 2 ^ 15 <= iminor k < 2 ^ 15 /\
  - 2 ^ 15 <= inlink k < 2 ^ 15 /\ 0 <= isize k < 2 ^ 32 /\ length (iaddrs k) = 13%nat /\
  Forall (fun a => 0 <= a < 2 ^ 32) (iaddrs k).

Lemma put_dinode_frame d k i :
  block_ok d -> 0 <= inum k -> length (iaddrs k) = 13%nat ->
  i < dinode_off (inum k) \/ dinode_off (inum k) + 64 <= i ->
  zget 0 (put_dinode d k) i = zget 0 d i.
Proof.
  intros [Hl _] Hn Ha Hi. unfold put_dinode.
  pose proof (Z.mod_pos_bound (inum k) IPB ltac:(done)) as Hm. unfold dinode_off, IPB, BSIZE in *.
  change (512 / 64) with 8 in *. set (o := 64 * (inum k mod 8)) in *.
  assert (0 <= o <= 448) by (unfold o; lia).
  match goal with |- zget 0 (put_addrs ?x _ _) _ = _ =>
    destruct (put_addrs_spec (iaddrs k) x (o + 12)) as (_ & Hfr & _) end; [lia | |].
  { unfold zlen. rewrite put32_length, !put16_length, Hl, Ha. lia. }
  rewrite Hfr by (unfold zlen; rewrite Ha; lia).
  by rewrite zget_put32_ne, !zget_put16_ne by lia.
Qed.

(** What [iupdate] writes is what [ilock] reads: for an inode whose fields fit
    their C types, storing it in its inode block and loading it into a cache entry
    for the same inode number gives back every field, and the other inodes of the
    block keep their bytes. *)
Theorem dinode_roundtrip d k e :
  block_ok d -> 0 <= inum k -> inode_fits k -> inum e = inum k ->
  let r := get_dinode (put_dinode d k) e in
  itype r = itype k /\ imajor r = imajor k /\ iminor r = iminor k /\ inlink r = inlink k /\
  isize r = isize k /\ iaddrs r = iaddrs k /\
  forall i, i < dinode_off (inum k) \/ dinode_off (inum k) + 64 <= i ->
    zget 0 (put_dinode d k) i = zget 0 d i.
Proof.
  intros Hb Hn (H1 & H2 & H3 & H4 & H5 & Hlen & Hf) He r.
  assert (Hframe : forall i, i < dinode_off (inum k) \/ dinode_off (inum k) + 64 <= i ->
    zget 0 (put_dinode d k) i = zget 0 d i) by (intros; by apply put_dinode_frame).
  destruct Hb as [Hl _]. unfold r, get_dinode, put_dinode in *.
  cbn [itype imajor iminor inlink isize iaddrs]. rewrite He.
  pose proof (Z.mod_pos_bound (inum k) IPB ltac:(done)) as Hm. unfold dinode_off, IPB, BSIZE in *.
  change (512 / 64) with 8 in *. set (o := 64 * (inum k mod 8)) in *.
  assert (Ho : 0 <= o <= 448) by (unfold o; lia).
  set (d4 := put32 (put16 (put16 (put16 (put16 d o (itype k)) (o + 2) (imajor k)) (o + 4) (iminor k))
    (o + 6) (inlink k)) (o + 8) (isize k)) in *.
  assert (Hd4 : zlen d4 = 512) by (unfold d4, zlen; rewrite put32_length, !put16_length, Hl; done).
  destruct (put_addrs_spec (iaddrs k) d4 (o + 12)) as (_ & Hfr & Hga);
    [lia | unfold zlen; rewrite Hlen; fold (zlen d4); lia |].
  assert (Hg16 : forall p, p + 2 <= o + 12 -> get16 (put_addrs d4 (o + 12) (iaddrs k)) p = get16 d4 p)
    by (intros p Hp; unfold get16; by rewrite !Hfr by lia).
  assert (Hg32 : get32 (put_addrs d4 (o + 12) (iaddrs k)) (o + 8) = get32 d4 (o + 8))
    by (unfold get32; by rewrite !Hfr by lia).
  rewrite !Hg16, Hg32 by lia. unfold d4.
  assert (Hz : forall a b c x, zlen (put16 a b c) = x <-> zlen a = x)
    by (intros; unfold zlen; by rewrite put16_length).
  assert (Hd0 : zlen d = 512) by (unfold zlen; by rewrite Hl).
  split_and!; try done.
  - rewrite get16_put32_ne, !get16_put16_ne, get16_put16_eq by lia. by apply s16_u16.
  - rewrite get16_put32_ne, !get16_put16_ne, get16_put16_eq by (try lia; unfold zlen; rewrite ?put16_length, Hl; lia).
    by apply s16_u16.
  - rewrite get16_put32_ne, get16_put16_ne, get16_put16_eq by (try lia; unfold zlen; rewrite ?put16_length, Hl; lia).
    by apply s16_u16.
  - rewrite get16_put32_ne, get16_put16_eq by (try lia; unfold zlen; rewrite ?put16_length, Hl; lia).
    by apply s16_u16.
  - rewrite get32_put32_eq by (try lia; unfold zlen; rewrite ?put16_length, Hl; lia). by apply u32_small.
  - apply list_eq. intros j. rewrite list_lookup_fmap. destruct (decide (j < 13)%nat) as [Hj|Hj].
    + rewrite lookup_seq_lt by done. cbn [fmap option_fmap option_map Nat.add]. destruct (lookup_lt_is_Some_2 (iaddrs k) j) as [a Ha]; [lia|].
      rewrite Ha. f_equal. fold d4. rewrite (Hga j a Ha). apply u32_small.
      rewrite Forall_forall in Hf. apply Hf. by eapply list_elem_of_lookup_2.
    + rewrite lookup_seq_ge by lia. simpl. symmetry. apply lookup_ge_None_2. lia.
Qed.

Definition some_inode : inode :=
  {| idev := 1; inum := 13; iref := 1; ivalid := true; itype := 2; imajor := -1; iminor := 0;
     inlink := 1; isize := 700; iaddrs := [100; 200] ++ replicate 11 0 |}.

Lemma dinode_roundtrip_witness :
  iaddrs (get_dinode (put_dinode (replicate 512 7) some_inode) some_inode) = iaddrs some_inode.
Proof.
  apply (dinode_roundtrip (replicate 512 7) some_inode some_inode).
  - split; [reflexivity|]. apply Forall_replicate. lia.
  - simpl. lia.
  - unfold inode_fits. simpl. split_and!; try lia. repeat constructor; lia.
  - reflexivity.
Defined.

(** ** Operations inside a transaction *)

Section Progs.
Context {S T : Type} {HLT : Lens S T} {HTx : TxLayer T} {HTl : TxLaws T} {HLc : Lens T core}
  {HLs : Lens T Sleeplock.slocktab} {HLi : Lens S icache} {HLb : Lens S superblock} {HDv : DevSw S}.
Context {HTok : LensOk S T} {HIok : LensOk S icache} {Hs1 : LensSep S T icache}
  {Hs2 : LensSep S T superblock} {Hs3 : LensSep S icache superblock}.

Ltac flens :=
  repeat first [rewrite lget_lset | rewrite lsep_l | rewrite lsep_r | rewrite lset_lset].

Definition ino (s : S) (i : nat) : inode := inode_of (lget s) i.
Definition fsb (s : S) : superblock := lget s.

Lemma ino_tx s (t : T) i : ino (lset t s) i = ino s i.
Proof. unfold ino. by flens. Qed.
Lemma fsb_tx s (t : T) : fsb (lset t s) = fsb s.
Proof. unfold fsb. by flens. Qed.

(** A block changed and recorded. *)
Definition t_put (n : Z) (d : block) (v : tview) : tview :=
  {| t_data := fupd n d (t_data v); t_held := t_held v; t_mod := {[n]} ∪ t_mod v;
     t_touch := ({[n]} ∪ t_touch v) ∖ {[n]}; t_size := t_size v; t_logst := t_logst v;
     t_logsize := t_logsize v |}.

Lemma t_put_touch n d v x : x ∉ t_touch v -> x ∉ t_touch (t_put n d v).
Proof. simpl. rewrite elem_of_difference, elem_of_union, elem_of_singleton. tauto. Qed.

Lemma t_put_size n d v : (size (t_mod (t_put n d v)) <= Datatypes.S (size (t_mod v)))%nat.
Proof.
  simpl. rewrite size_union_alt, size_singleton.
  assert (size (t_mod v ∖ {[n]}) <= size (t_mod v))%nat; [|lia].
  apply subseteq_size. intros x. rewrite elem_of_difference. tauto.
Qed.

Lemma t_drop b n v : t_release (t_held v) (t_hold b n v) = v.
Proof. by destruct v. Qed.

(** Reading a block: [bp = bread(...); x = bp->data; ...; brelse(bp)]. *)
Lemma wp_read_block {A} s v n (f : block -> A) (Q : A -> S -> Prop) :
  tx_ok (lget s) v -> 0 <= n < t_size v -> n ∉ (t_held v).*2 -> n ∉ t_touch v ->
  (size (t_mod v) + length (t_held v) < NBUF)%nat ->
  (forall t, tx_ok t v -> Q (f (t_data v n)) (lset t s)) ->
  wp (bp ← bread ROOTDEV n; x ← bdata bp; brelse bp;; mret (f x)) s Q.
Proof.
  intros Hok Hn Hh Ht Hc HQ. unfold bread, bdata, brelse. wp_step. apply wp_zoom.
  eapply tx_bread_law; [exact Hok | done | done | done |]. intros b t1 Hok1. wp_step.
  apply wp_zoom. flens. eapply (tx_data_law _ _ b n); [exact Hok1 | by left |]. wp_step. apply wp_zoom. flens.
  eapply (tx_brelse_law _ _ b n []); [exact Hok1 | done | done |]. intros t2 Hok2. simpl in Hok2.
  rewrite t_drop in Hok2. wp_step. flens. by apply HQ.
Qed.

(** Changing a block: [bread]; change; [log_write]; [brelse]. *)
Lemma wp_write_block s v n (f : block -> block) (Q : unit -> S -> Prop) :
  tx_ok (lget s) v -> 0 <= n < t_size v -> n ∉ (t_held v).*2 -> t_home v n ->
  (size (t_mod v) + length (t_held v) < NBUF)%nat -> Z.of_nat (size (t_mod v)) < t_logsize v - 1 ->
  block_ok (f (t_data v n)) ->
  (forall t, tx_ok t (t_put n (f (t_data v n)) v) -> Q tt (lset t s)) ->
  wp (bp ← bread ROOTDEV n; x ← bdata bp; bset bp (f x);; log_write bp;; brelse bp) s Q.
Proof.
  intros Hok Hn Hh Hho Hc Hl Hb HQ. unfold bread, bdata, bset, log_write, brelse. wp_step. apply wp_zoom.
  eapply tx_bread_law; [exact Hok | done | done | done |]. intros b t1 Hok1. wp_step.
  apply wp_zoom. flens. eapply (tx_data_law _ _ b n); [exact Hok1 | by left |]. wp_step. apply wp_zoom. flens.
  eapply (tx_setdata_law _ _ b n); [exact Hok1 | by left | exact Hb |]. intros t2 Hok2. wp_step. apply wp_zoom. flens.
  eapply (tx_log_write_law _ _ b n); [exact Hok2 | by left | done | done |]. intros t3 Hok3. apply wp_zoom. flens.
  eapply (tx_brelse_law _ _ b n [] (t_held v)); [exact Hok3 | done | |].
  { simpl. rewrite elem_of_difference, elem_of_singleton. tauto. }
  intros t4 Hok4. flens. apply HQ. exact Hok4.
Qed.

Lemma wp_bzero s v n (Q : unit -> S -> Prop) :
  tx_ok (lget s) v -> 0 <= n < t_size v -> n ∉ (t_held v).*2 -> t_home v n ->
  (size (t_mod v) + length (t_held v) < NBUF)%nat -> Z.of_nat (size (t_mod v)) < t_logsize v - 1 ->
  (forall t, tx_ok t (t_put n (replicate 512 0) v) -> Q tt (lset t s)) ->
  wp (bzero ROOTDEV n) s Q.
Proof.
  intros Hok Hn Hh Hho Hc Hl HQ. unfold bzero, bread, bset, log_write, brelse. wp_step. apply wp_zoom.
  eapply tx_bread_law; [exact Hok | done | done | done |]. intros b t1 Hok1. wp_step. apply wp_zoom. flens.
  eapply (tx_setdata_law _ _ b n); [exact Hok1 | by left | exact BioLaws.zero_block_ok |].
  intros t2 Hok2. wp_step. apply wp_zoom. flens.
  eapply (tx_log_write_law _ _ b n); [exact Hok2 | by left | done | done |]. intros t3 Hok3. apply wp_zoom. flens.
  eapply (tx_brelse_law _ _ b n [] (t_held v)); [exact Hok3 | done | |].
  { simpl. rewrite elem_of_difference, elem_of_singleton. tauto. }
  intros t4 Hok4. flens. apply HQ. exact Hok4.
Qed.

(** *** Allocation *)

Definition is_free (sb : superblock) (v : tview) (x : Z) : Prop :=
  bit_of (t_data v (BBLOCK x sb)) (x mod BPB) = false.

(** The bitmap covers the disk and lies outside of the log; free blocks are blocks
    nobody uses. *)
Definition bitmap_ok (sb : superblock) (v : tview) : Prop :=
  sb_size sb <= t_size v /\
  (forall x, 0 <= x < sb_size sb ->
     0 <= BBLOCK x sb < t_size v /\ t_home v (BBLOCK x sb) /\ (BBLOCK x sb ∉ (t_held v).*2) /\
     BBLOCK x sb ∉ t_touch v) /\
  (forall x, 0 <= x < sb_size sb -> is_free sb v x ->
     t_home v x /\ (x ∉ (t_held v).*2) /\ forall y, 0 <= y < sb_size sb -> BBLOCK y sb <> x).

(** The view after block [r] has been allocated. *)
Definition t_alloc (sb : superblock) (r : Z) (v : tview) : tview :=
  t_put r (replicate 512 0) (t_put (BBLOCK r sb) (set_bit (t_data v (BBLOCK r sb)) (r mod BPB)) v).

Lemma BBLOCK_base sb b j :
  b mod BPB = 0 -> 0 <= j < BPB -> BBLOCK (b + j) sb = BBLOCK b sb /\ (b + j) mod BPB = j.
Proof.
  unfold BBLOCK, BPB, BSIZE. intros Hb Hj. change (512 * 8) with 4096 in *.
  split; [f_equal|]; Z.to_euclidean_division_equations; lia.
Qed.

Lemma wp_balloc_loop sb fuel : forall b s v (Q : Z -> S -> Prop),
  fsb s = sb -> tx_ok (lget s) v -> bitmap_ok sb v -> 0 <= b -> b mod BPB = 0 ->
  sb_size sb - b < Z.of_nat fuel * BPB ->
  (forall y, 0 <= y < b -> y < sb_size sb -> ~ is_free sb v y) ->
  (exists x, 0 <= x < sb_size sb /\ is_free sb v x) ->
  (size (t_mod v) + 1 + length (t_held v) < NBUF)%nat ->
  Z.of_nat (size (t_mod v)) + 1 < t_logsize v - 1 ->
  (forall r t, 0 <= r < sb_size sb -> is_free sb v r ->
     (forall y, 0 <= y < r -> ~ is_free sb v y) -> tx_ok t (t_alloc sb r v) -> Q r (lset t s)) ->
  wp (balloc_loop fuel ROOTDEV b) s Q.
Proof.
  induction fuel as [|fuel IH]; intros b s v Q Hsb Hok Hbm Hb0 Hb Hf Hbefore Hex Hc Hl HQ.
  { destruct Hex as (x & Hx & Hfx). exfalso. apply (Hbefore x); [lia | lia | done]. }
  pose proof Hbm as (Hsz & Hblk & Hfree). cbn [balloc_loop].
  unfold getsb at 1. wp_prim. wp_prim. fold (fsb s). rewrite Hsb.
  destruct Hex as (x & Hx & Hfx).
  assert (Hxb : b <= x) by (destruct (decide (x < b)); [exfalso; apply (Hbefore x); [lia | lia | done] | lia]).
  replace (b <? sb_size sb) with true by lia.
  destruct (Hblk b) as (Hr1 & Hr2 & Hr3 & Hr4); [lia|].
  assert (Hd : block_ok (t_data v (BBLOCK b sb))) by (by eapply tx_ok_block).
  pose proof (first_free_spec (t_data v (BBLOCK b sb)) b (sb_size sb) (Z.to_nat BPB) 0 ltac:(lia) ltac:(unfold BPB, BSIZE; lia)) as Hff.
  assert (Hin : forall j, 0 <= j < BPB -> b + j < sb_size sb ->
    (is_free sb v (b + j) <-> bit_of (t_data v (BBLOCK b sb)) j = false)).
  { intros j Hj _. unfold is_free. destruct (BBLOCK_base sb b j Hb Hj) as [-> ->]. done. }
  unfold bread at 1, bdata at 1. wp_prim. apply wp_zoom.
  eapply tx_bread_law; [exact Hok | done | done | lia |]. intros bp t1 Hok1. wp_prim. apply wp_zoom. flens.
  eapply (tx_data_law _ _ bp (BBLOCK b sb)); [exact Hok1 | by left |]. flens. simpl t_data.
  destruct (first_free (Z.to_nat BPB) (t_data v (BBLOCK b sb)) b (sb_size sb) 0) as [bi|].
  - destruct Hff as (Hbi & Hbs & Hbit & Hused).
    destruct (BBLOCK_base sb b bi Hb Hbi) as [HB HM].
    assert (Hfb : is_free sb v (b + bi)) by (by apply Hin).
    destruct (Hfree (b + bi)) as (Hh1 & Hh2 & Hh3); [lia | done |].
    unfold bset at 1, log_write at 1, brelse at 1. wp_step. apply wp_zoom. flens.
    eapply (tx_setdata_law _ _ bp (BBLOCK b sb)); [exact Hok1 | by left | by apply set_bit_ok |].
    intros t2 Hok2. wp_step. apply wp_zoom. flens.
    eapply (tx_log_write_law _ _ bp (BBLOCK b sb)); [exact Hok2 | by left | done | simpl; lia |].
    intros t3 Hok3. wp_step. apply wp_zoom. flens.
    eapply (tx_brelse_law _ _ bp (BBLOCK b sb) [] (t_held v)); [exact Hok3 | done | |].
    { simpl. rewrite elem_of_difference, elem_of_singleton. tauto. }
    intros t4 Hok4. wp_step. flens.
    set (v1 := t_put (BBLOCK b sb) (set_bit (t_data v (BBLOCK b sb)) bi) v).
    change (tx_ok t4 v1) in Hok4. pose proof (t_put_size (BBLOCK b sb) (set_bit (t_data v (BBLOCK b sb)) bi) v).
    fold v1 in H.
    eapply (wp_bzero _ v1); [by flens | simpl; lia | done | done | simpl t_held; lia | simpl t_logsize; lia |].
    intros t5 Hok5. wp_step. flens. apply HQ; [lia | done | |].
    + intros y Hy Hfy. destruct (decide (y < b)); [by apply (Hbefore y); [lia | lia |]|].
      replace y with (b + (y - b)) in Hfy by lia. apply Hin in Hfy; [|lia|lia].
      rewrite (Hused (y - b)) in Hfy by lia. done.
    + unfold t_alloc. rewrite HB, HM. exact Hok5.
  - unfold brelse at 1. wp_prim. apply wp_zoom. flens.
    eapply (tx_brelse_law _ _ bp (BBLOCK b sb) [] (t_held v)); [exact Hok1 | done | done |].
    intros t2 Hok2. simpl in Hok2. rewrite t_drop in Hok2. flens.
    eapply (IH (b + BPB) _ v); [by rewrite fsb_tx | by flens | done | unfold BPB, BSIZE; lia | | lia
      | | by exists x | lia | lia |].
    + unfold BPB, BSIZE in *. change (512 * 8) with 4096 in *. Z.to_euclidean_division_equations. lia.
    + intros y Hy Hys Hfy. destruct (decide (y < b)); [by apply (Hbefore y); [lia | lia |]|].
      replace y with (b + (y - b)) in Hfy by lia. apply Hin in Hfy; [|lia|lia].
      rewrite (Hff (y - b)) in Hfy by lia. done.
    + intros r t Hr1' Hr2' Hr3' Hok3. flens. by apply HQ.
Qed.

(** With a free block left, [balloc] returns the first free block, which is now
    marked in the bitmap and filled with zeros; every other block keeps its bit and
    its contents, and all changes are recorded in the transaction. *)
Theorem balloc_correct (s : S) v :
  let sb := fsb s in
  tx_ok (lget s) v -> bitmap_ok sb v -> (exists x, 0 <= x < sb_size sb /\ is_free sb v x) ->
  (size (t_mod v) + 1 + length (t_held v) < NBUF)%nat ->
  Z.of_nat (size (t_mod v)) + 1 < t_logsize v - 1 -> 0 <= sb_size sb ->
  exists r t v', balloc ROOTDEV s = Ret r (lset t s) /\ tx_ok t v' /\
    0 <= r < sb_size sb /\ is_free sb v r /\ (forall y, 0 <= y < r -> ~ is_free sb v y) /\
    (forall y, 0 <= y < sb_size sb -> (is_free sb v' y <-> is_free sb v y /\ y <> r)) /\
    t_data v' r = replicate 512 0 /\
    (forall n, n <> r -> n <> BBLOCK r sb -> t_data v' n = t_data v n) /\
    t_held v' = t_held v /\ t_mod v' = {[r]} ∪ ({[BBLOCK r sb]} ∪ t_mod v).
Proof.
  intros sb Hok Hbm Hex Hc Hl H0.
  assert (wp (balloc ROOTDEV) s (fun r s' => exists t, s' = lset t s /\ 0 <= r < sb_size sb /\
    is_free sb v r /\ (forall y, 0 <= y < r -> ~ is_free sb v y) /\ tx_ok t (t_alloc sb r v)))
    as (r & s' & E & t & -> & Hr & Hfr & Hfirst & Hok').
  { unfold balloc, getsb. wp_step. fold (fsb s). fold sb.
    apply (wp_balloc_loop sb _ 0 s v); try done; [|lia|].
    - unfold BPB, BSIZE. change (512 * 8) with 4096. Z.to_euclidean_division_equations. lia.
    - intros r t ? ? ? ?. exists t. split_and!; done || lia. }
  exists r, t, (t_alloc sb r v). destruct Hbm as (Hsz & Hblk & Hfree).
  destruct (Hfree r Hr Hfr) as (_ & _ & Hne). destruct (Hblk r Hr) as (Hrange & _).
  assert (Hlen : length (t_data v (BBLOCK r sb)) = 512%nat)
    by (by destruct (tx_ok_block _ _ (BBLOCK r sb) Hok Hrange)).
  split_and!; try done; try lia.
  - intros y Hy. unfold is_free, t_alloc. simpl.
    rewrite (fupd_ne r) by (by apply Hne). unfold fupd. case_decide as HB.
    + assert (Hm : forall x, 0 <= x mod BPB < BPB) by (intros; by apply Z.mod_pos_bound).
      rewrite bit_of_set by done. rewrite orb_false_iff, Z.eqb_neq, HB. split.
      * intros [H1 H2]. split; [done|]. congruence.
      * intros [H1 H2]. split; [|done]. intros H3. apply H2.
        unfold BBLOCK, BPB, BSIZE in *. change (512 * 8) with 4096 in *.
        Z.to_euclidean_division_equations. lia.
    + split; [|tauto]. intros Hf. split; [done|]. congruence.
  - simpl. apply fupd_eq.
  - intros n Hn1 Hn2. simpl. by rewrite !fupd_ne by done.
Qed.

(** ** Contents *)

(** The address of block [j] of the file, and its bytes. *)
Definition addr (v : tview) (k : inode) (j : Z) : Z :=
  if j <? NDIRECT then zget 0 (iaddrs k) j
  else get32 (t_data v (zget 0 (iaddrs k) NDIRECT)) (4 * (j - NDIRECT)).
Definition byte (v : tview) (k : inode) (p : Z) : Z :=
  zget 0 (t_data v (addr v k (p / BSIZE))) (p mod BSIZE).
Definition bytes_at (v : tview) (k : inode) (off : Z) (n : nat) : list Z :=
  (fun p => byte v k (off + Z.of_nat p)) <$> seq 0 n.

(** A block this process may read. *)
Definition readable (v : tview) (a : Z) : Prop :=
  a <> 0 /\ 0 <= a < t_size v /\ (a ∉ (t_held v).*2) /\ (a ∉ t_touch v) /\ t_home v a.

(** The first [nb] blocks of the file are allocated, and are different blocks. *)
Definition mapped (v : tview) (k : inode) (nb : Z) : Prop :=
  idev k = ROOTDEV /\ nb <= MAXFILE /\
  (forall j, 0 <= j < nb -> readable v (addr v k j)) /\
  (forall i j, 0 <= i < nb -> 0 <= j < nb -> addr v k i = addr v k j -> i = j) /\
  (NDIRECT < nb -> readable v (zget 0 (iaddrs k) NDIRECT) /\
     forall j, 0 <= j < nb -> addr v k j <> zget 0 (iaddrs k) NDIRECT).

Lemma wp_bmap s i v nb j (Q : Z -> S -> Prop) :
  tx_ok (lget s) v -> mapped v (ino s i) nb -> 0 <= j < nb ->
  (size (t_mod v) + length (t_held v) < NBUF)%nat ->
  (forall t, tx_ok t v -> Q (addr v (ino s i) j) (lset t s)) -> wp (bmap i j) s Q.
Proof.
  intros Hok (Hd & Hmax & Hr & Hinj & Hind) Hj Hc HQ. unfold bmap, geti. wp_step. fold (ino s i).
  specialize (Hr j Hj). unfold addr in *. destruct (j <? NDIRECT) eqn:E; zbool.
  - destruct Hr as (Hnz & _). apply Z.eqb_neq in Hnz. rewrite Hnz. wp_step.
    specialize (HQ (lget s) Hok). by rewrite lset_lget in HQ.
  - replace (j - NDIRECT <? NINDIRECT) with true by (unfold MAXFILE in *; lia).
    destruct Hind as [(Hnz & Hrange & Hh & Ht & _) _]; [lia|]. apply Z.eqb_neq in Hnz. rewrite Hnz.
    destruct Hr as (Hez & _). apply Z.eqb_neq in Hez. wp_step. rewrite Hd.
    unfold bread, bdata, brelse. apply wp_zoom.
    eapply tx_bread_law; [exact Hok | done | done | done |]. intros b t1 Hok1. wp_step. apply wp_zoom. flens.
    eapply (tx_data_law _ _ b); [exact Hok1 | by left |]. wp_step. simpl t_data. rewrite Hez. wp_step.
    apply wp_zoom. flens. eapply (tx_brelse_law _ _ b _ []); [exact Hok1 | done | done |].
    intros t2 Hok2. simpl in Hok2. rewrite t_drop in Hok2. wp_step. flens. by apply HQ.
Qed.

Lemma bytes_at_app v k off a b :
  bytes_at v k off (a + b) = bytes_at v k off a ++ bytes_at v k (off + Z.of_nat a) b.
Proof.
  unfold bytes_at. rewrite seq_app, fmap_app. f_equal. simpl.
  rewrite <- (Nat.add_0_r a) at 1. rewrite <- fmap_add_seq, <- list_fmap_compose.
  apply list_fmap_ext. intros i x _. simpl. f_equal. lia.
Qed.

(** A piece of one block. *)
Lemma bytes_at_block v k off m :
  0 <= off -> off mod BSIZE + Z.of_nat m <= BSIZE ->
  length (t_data v (addr v k (off / BSIZE))) = 512%nat ->
  bytes_at v k off m = take m (drop (Z.to_nat (off mod BSIZE)) (t_data v (addr v k (off / BSIZE)))).
Proof.
  intros Ho Hm Hl. unfold BSIZE in *. apply list_eq. intros p. unfold bytes_at.
  rewrite list_lookup_fmap. destruct (decide (p < m)%nat) as [Hp|Hp].
  - rewrite lookup_seq_lt by done. rewrite lookup_take_lt, lookup_drop by done. simpl.
    unfold byte, BSIZE.
    assert ((off + Z.of_nat p) / 512 = off / 512 /\ (off + Z.of_nat p) mod 512 = off mod 512 + Z.of_nat p)
      as [-> ->] by (Z.to_euclidean_division_equations; lia).
    pose proof (Z.mod_pos_bound off 512 ltac:(lia)).
    unfold zget. destruct (off mod 512 + Z.of_nat p <? 0) eqn:E; zbool; [lia|].
    replace (Z.to_nat (off mod 512 + Z.of_nat p)) with (Z.to_nat (off mod 512) + p)%nat by lia.
    destruct (lookup_lt_is_Some_2 (t_data v (addr v k (off / 512))) (Z.to_nat (off mod 512) + p)) as [x ->]; [lia | done].
  - rewrite lookup_seq_ge by lia. simpl. symmetry. apply lookup_ge_None_2. rewrite length_take. lia.
Qed.

Lemma wp_readi_loop i v nb n fuel : forall s off tot (Q : list Z -> S -> Prop),
  tx_ok (lget s) v -> mapped v (ino s i) nb -> 0 <= off -> 0 <= tot <= n ->
  off + (n - tot) <= nb * BSIZE -> n - tot < Z.of_nat fuel ->
  (size (t_mod v) + length (t_held v) < NBUF)%nat ->
  (forall t, tx_ok t v -> Q (bytes_at v (ino s i) off (Z.to_nat (n - tot))) (lset t s)) ->
  wp (readi_loop fuel i off n tot) s Q.
Proof.
  induction fuel as [|fuel IH]; intros s off tot Q Hok Hmap Ho Ht Hnb Hf Hc HQ; [lia|].
  cbn [readi_loop]. destruct (tot <? n) eqn:E; zbool.
  2:{ apply wp_ret. replace (n - tot) with 0 in HQ by lia.
      specialize (HQ (lget s) Hok). by rewrite lset_lget in HQ. }
  assert (Hj : 0 <= off / BSIZE < nb) by (unfold BSIZE in *; Z.to_euclidean_division_equations; lia).
  pose proof Hmap as (Hd & _ & Hr & _). destruct (Hr _ Hj) as (_ & Hrange & Hh & Htch & _).
  unfold geti. wp_step. fold (ino s i). eapply wp_bmap; [exact Hok | exact Hmap | exact Hj | done |].
  intros t1 Hok1. rewrite Hd. wp_step. unfold bread, bdata, brelse. apply wp_zoom. flens.
  eapply tx_bread_law; [exact Hok1 | done | done | done |]. intros b t2 Hok2. wp_step. apply wp_zoom. flens.
  eapply (tx_data_law _ _ b); [exact Hok2 | by left |]. wp_step. apply wp_zoom. flens.
  eapply (tx_brelse_law _ _ b _ []); [exact Hok2 | done | done |].
  intros t3 Hok3. simpl in Hok3. rewrite t_drop in Hok3. wp_step. flens. simpl t_data.
  set (m := Z.min (n - tot) (BSIZE - off mod BSIZE)).
  assert (Hm : 1 <= m <= n - tot /\ 0 <= off mod BSIZE /\ off mod BSIZE + m <= BSIZE)
    by (unfold m, BSIZE; pose proof (Z.mod_pos_bound off 512); lia).
  eapply IH; [by flens | by rewrite ino_tx | lia | lia | lia | lia | done |].
  intros t4 Hok4. wp_step. flens. rewrite ino_tx.
  replace (Z.to_nat (n - tot)) with (Z.to_nat m + Z.to_nat (n - (tot + m)))%nat in HQ by lia.
  specialize (HQ t4 Hok4). rewrite bytes_at_app in HQ. rewrite Z2Nat.id in HQ by lia.
  rewrite bytes_at_block in HQ; [done | done | rewrite Z2Nat.id by lia; lia |].
  by destruct (tx_ok_block _ _ _ Hok Hrange).
Qed.

Lemma bytes_at_length v k off n : length (bytes_at v k off n) = n.
Proof. unfold bytes_at. by rewrite length_fmap, length_seq. Qed.

(** The blocks of a file of the given size. *)
Definition nblocks (size : Z) : Z := (size + BSIZE - 1) / BSIZE.

Lemma nblocks_bound size : 0 <= size -> size <= nblocks size * BSIZE.
Proof. unfold nblocks, BSIZE. intros. Z.to_euclidean_division_equations. lia. Qed.

(** What a read at [off] of up to [n] bytes gets. *)
Definition read_len (size off n : Z) : Z := if size <? off + n then size - off else n.

Lemma wp_readi s i v off n (Q : Z * list Z -> S -> Prop) :
  let k := ino s i in
  tx_ok (lget s) v -> itype k <> T_DEV -> mapped v k (nblocks (isize k)) ->
  0 <= off <= isize k -> 0 <= n -> off + n < 2 ^ 32 -> isize k < 2 ^ 32 ->
  (size (t_mod v) + length (t_held v) < NBUF)%nat ->
  (forall t, tx_ok t v ->
     Q (read_len (isize k) off n, bytes_at v k off (Z.to_nat (read_len (isize k) off n))) (lset t s)) ->
  wp (readi i off n) s Q.
Proof.
  intros k Hok Hty Hmap Hoff Hn Hov Hsz Hc HQ. unfold readi, geti. wp_step. fold (ino s i). fold k.
  replace (itype k =? T_DEV) with false by lia. rewrite !u32_small by lia.
  replace ((isize k <? off) || (off + n <? off)) with false by (symmetry; apply orb_false_iff; lia).
  change (if isize k <? off + n then isize k - off else n) with (read_len (isize k) off n).
  assert (Hr : 0 <= read_len (isize k) off n /\ off + read_len (isize k) off n <= isize k).
  { unfold read_len. destruct (isize k <? off + n) eqn:E; zbool; lia. }
  wp_step. pose proof (nblocks_bound (isize k) ltac:(lia)).
  eapply wp_readi_loop; [exact Hok | exact Hmap | lia | lia | lia | lia | done |].
  intros t Ht. wp_step. rewrite Z.sub_0_r. by apply HQ.
Qed.

(** [readi] of an allocated file returns exactly the bytes of the file from [off]
    on, cut at the end of the file, whether they lie in direct or in indirect
    blocks, and changes nothing; beyond the end, or when [off + n] overflows, it
    returns -1. *)
Theorem readi_correct (s : S) i v off n :
  let k := ino s i in
  tx_ok (lget s) v -> itype k <> T_DEV -> mapped v k (nblocks (isize k)) ->
  0 <= off < 2 ^ 32 -> 0 <= n < 2 ^ 32 -> 0 <= isize k < 2 ^ 32 ->
  (size (t_mod v) + length (t_held v) < NBUF)%nat ->
  if (isize k <? off) || (2 ^ 32 <=? off + n) then readi i off n s = Ret (-1, []) s
  else exists t, tx_ok t v /\
    readi i off n s = Ret (read_len (isize k) off n,
                           bytes_at v k off (Z.to_nat (read_len (isize k) off n))) (lset t s).
Proof.
  intros k Hok Hty Hmap Hoff Hn Hsz Hc.
  destruct ((isize k <? off) || (2 ^ 32 <=? off + n)) eqn:E.
  - unfold readi, geti. erewrite bind_ret by reflexivity. fold (ino s i). fold k.
    replace (itype k =? T_DEV) with false by lia.
    assert ((isize k <? off) || (u32 (off + n) <? off) = true) as ->; [|done].
    apply orb_true_iff in E. apply orb_true_iff. destruct E as [E|E]; [by left | right].
    zbool. zwrap.
  - apply orb_false_iff in E as [E1 E2]. zbool.
    assert (wp (readi i off n) s (fun r s' => exists t, tx_ok t v /\ s' = lset t s /\
      r = (read_len (isize k) off n, bytes_at v k off (Z.to_nat (read_len (isize k) off n)))))
      as (r & s' & Er & t & Ht & -> & ->); [|by exists t].
    apply (wp_readi s i v off n); try done; try (fold k; lia). intros t Ht. by exists t.
Qed.

(** ** Writing *)

Lemma splice_length x o bytes :
  (o + length bytes <= length x)%nat -> length (splice x o bytes) = length x.
Proof. intros. unfold splice. rewrite !length_app, length_take, length_drop. lia. Qed.

Lemma splice_get x o bytes p :
  (o + length bytes <= length x)%nat ->
  zget 0 (splice x o bytes) p =
    if (Z.of_nat o <=? p) && (p <? Z.of_nat (o + length bytes)) then zget 0 bytes (p - Z.of_nat o)
    else zget 0 x p.
Proof.
  intros Hl. unfold splice, zget.
  destruct ((Z.of_nat o <=? p) && (p <? Z.of_nat (o + length bytes))) eqn:E.
  - zbool. replace (p <? 0) with false by lia. replace (p - Z.of_nat o <? 0) with false by lia.
    rewrite lookup_app_r by (rewrite length_take; lia). rewrite length_take, lookup_app_l by lia.
    do 2 f_equal. lia.
  - case_bool; [done|]. zbool.
    + by rewrite lookup_app_l, lookup_take_lt by (rewrite ?length_take; lia).
    + rewrite lookup_app_r by (rewrite length_take; lia). rewrite length_take.
      rewrite lookup_app_r by lia. rewrite lookup_drop. do 2 f_equal. lia.
Qed.

Lemma splice_ok x o bytes :
  block_ok x -> Forall (fun b => 0 <= b < 256) bytes -> (o + length bytes <= 512)%nat ->
  block_ok (splice x o bytes).
Proof.
  intros [Hl Hf] Hb Ho. split; [rewrite splice_length; lia|]. unfold splice.
  apply Forall_app. split; [by apply Forall_take|]. apply Forall_app. split; [done | by apply Forall_drop].
Qed.

Lemma addr_put v k nb a d j :
  mapped v k nb -> (exists i, 0 <= i < nb /\ a = addr v k i) -> 0 <= j < nb ->
  addr (t_put a d v) k j = addr v k j.
Proof.
  intros (_ & _ & _ & _ & Hind) (i & Hi & ->) Hj. unfold addr at 1 3.
  destruct (j <? NDIRECT) eqn:E; [done|]. zbool. simpl.
  destruct Hind as [_ Hne]; [lia|]. rewrite fupd_ne; [done|]. intros He. symmetry in He.
  by apply (Hne i Hi) in He.
Qed.

Lemma mapped_put v k nb a d :
  mapped v k nb -> (exists i, 0 <= i < nb /\ a = addr v k i) -> mapped (t_put a d v) k nb.
Proof.
  intros Hm Ha. pose proof Hm as (Hd & Hmax & Hr & Hinj & Hind).
  assert (Haddr : forall j, 0 <= j < nb -> addr (t_put a d v) k j = addr v k j)
    by (intros; by eapply addr_put).
  assert (Hrd : forall x, readable v x -> readable (t_put a d v) x).
  { intros x (? & ? & ? & Ht & ?). unfold readable. split_and!; try done; [simpl; lia.. | by apply t_put_touch]. }
  split_and!; try done.
  - intros j Hj. rewrite Haddr by done. apply Hrd. by apply Hr.
  - intros i j Hi Hj. rewrite !Haddr by done. by apply Hinj.
  - intros Hn. destruct (Hind Hn) as [H1 H2]. split; [by apply Hrd|]. intros j Hj.
    rewrite Haddr by done. by apply H2.
Qed.

(** Writing a piece of one block of the file. *)
Lemma byte_put v k nb j o bytes p :
  mapped v k nb -> 0 <= j < nb -> 0 <= p < nb * BSIZE ->
  length (t_data v (addr v k j)) = 512%nat -> (o + length bytes <= 512)%nat ->
  byte (t_put (addr v k j) (splice (t_data v (addr v k j)) o bytes) v) k p =
    if (j * BSIZE + Z.of_nat o <=? p) && (p <? j * BSIZE + Z.of_nat (o + length bytes))
    then zget 0 bytes (p - (j * BSIZE + Z.of_nat o)) else byte v k p.
Proof.
  intros Hm Hj Hp Hl Ho. unfold byte.
  assert (Hpj : 0 <= p / BSIZE < nb) by (unfold BSIZE in *; Z.to_euclidean_division_equations; lia).
  erewrite addr_put by (eauto). pose proof Hm as (_ & _ & _ & Hinj & _). simpl.
  destruct (decide (p / BSIZE = j)) as [He|Hne].
  - rewrite He, fupd_eq, splice_get by lia. unfold BSIZE in *.
    replace ((j * 512 + Z.of_nat o <=? p) && (p <? j * 512 + Z.of_nat (o + length bytes)))
      with ((Z.of_nat o <=? p mod 512) && (p mod 512 <? Z.of_nat (o + length bytes))).
    + case_bool; [|done]. f_equal. Z.to_euclidean_division_equations. lia.
    + f_equal; apply eq_bool_prop_intro; rewrite !Is_true_true, ?Z.leb_le, ?Z.ltb_lt;
        Z.to_euclidean_division_equations; lia.
  - rewrite fupd_ne by (intros He; apply Hne; by apply Hinj).
    destruct ((j * BSIZE + Z.of_nat o <=? p) && (p <? j * BSIZE + Z.of_nat (o + length bytes))) eqn:E; [|done].
    exfalso. zbool. apply Hne. unfold BSIZE in *. Z.to_euclidean_division_equations. lia.
Qed.

(** The blocks a write of [n] bytes at [off] touches. *)
Definition touched (off n : Z) : Z := if n <=? 0 then 0 else (off mod BSIZE + n + BSIZE - 1) / BSIZE.

Lemma touched_step off n m :
  0 <= off -> 0 < n -> m = Z.min n (BSIZE - off mod BSIZE) ->
  1 + touched (off + m) (n - m) = touched off n.
Proof.
  intros Ho Hn ->. unfold touched, BSIZE. pose proof (Z.mod_pos_bound off 512 ltac:(lia)) as Hm.
  destruct (decide (n <= 512 - off mod 512)) as [Hc|Hc].
  - rewrite Z.min_l by lia. replace (n - n <=? 0) with true by lia. replace (n <=? 0) with false by lia.
    Z.to_euclidean_division_equations. lia.
  - rewrite Z.min_r by lia. replace (n - (512 - off mod 512) <=? 0) with false by lia.
    replace (n <=? 0) with false by lia.
    replace ((off + (512 - off mod 512)) mod 512) with 0 by (Z.to_euclidean_division_equations; lia).
    replace (off mod 512 + n + 512 - 1) with (0 + (n - (512 - off mod 512)) + 512 - 1 + 1 * 512) by lia.
    rewrite Z.div_add by lia. lia.
Qed.

Lemma touched_nonneg off n : 0 <= off -> 0 <= touched off n.
Proof.
  intros. unfold touched, BSIZE. case_bool; zbool; [lia|]. Z.to_euclidean_division_equations. lia.
Qed.

Lemma zget_take_drop (l : list Z) a b p :
  0 <= a -> 0 <= p < b -> zget 0 (take (Z.to_nat b) (drop (Z.to_nat a) l)) p = zget 0 l (a + p).
Proof.
  intros Ha Hp. unfold zget. replace (p <? 0) with false by lia. replace (a + p <? 0) with false by lia.
  rewrite lookup_take_lt, lookup_drop by lia. do 2 f_equal. lia.
Qed.

Lemma wp_writei_loop i nb src n fuel : forall s v off tot (Q : Z -> S -> Prop),
  tx_ok (lget s) v -> mapped v (ino s i) nb -> 0 <= off -> 0 <= tot <= n -> n = zlen src ->
  Forall (fun b => 0 <= b < 256) src ->
  off + (n - tot) <= nb * BSIZE -> n - tot < Z.of_nat fuel ->
  Z.of_nat (size (t_mod v)) + touched off (n - tot) <= t_logsize v - 1 ->
  Z.of_nat (size (t_mod v)) + touched off (n - tot) + zlen (t_held v) <= Z.of_nat NBUF ->
  (forall t v', tx_ok t v' -> mapped v' (ino s i) nb -> t_held v' = t_held v ->
     Z.of_nat (size (t_mod v')) <= Z.of_nat (size (t_mod v)) + touched off (n - tot) ->
     (forall p, 0 <= p < nb * BSIZE -> byte v' (ino s i) p =
        if (off <=? p) && (p <? off + (n - tot)) then zget 0 src (tot + (p - off))
        else byte v (ino s i) p) -> Q (off + (n - tot)) (lset t s)) ->
  wp (writei_loop fuel i src off n tot) s Q.
Proof.
  induction fuel as [|fuel IH]; intros s v off tot Q Hok Hmap Ho Ht Hn Hsrc Hnb Hf Hlog Hbuf HQ; [lia|].
  cbn [writei_loop]. destruct (tot <? n) eqn:E; zbool.
  2:{ apply wp_ret. specialize (HQ (lget s) v Hok Hmap eq_refl). rewrite lset_lget in HQ.
      replace (off + (n - tot)) with off in HQ by lia. apply HQ.
      - pose proof (touched_nonneg off (n - tot) Ho). lia.
      - intros p Hp. case_bool; [zbool; lia | done]. }
  set (m := Z.min (n - tot) (BSIZE - off mod BSIZE)).
  assert (Hm : 1 <= m <= n - tot /\ 0 <= off mod BSIZE /\ off mod BSIZE + m <= BSIZE)
    by (unfold m, BSIZE; pose proof (Z.mod_pos_bound off 512); lia).
  pose proof (touched_step off (n - tot) m Ho ltac:(lia) eq_refl) as Hstep.
  pose proof (touched_nonneg (off + m) (n - tot - m) ltac:(lia)) as Htn.
  assert (Hj : 0 <= off / BSIZE < nb) by (unfold BSIZE in *; Z.to_euclidean_division_equations; lia).
  pose proof Hmap as (Hd & _ & Hr & _). destruct (Hr _ Hj) as (_ & Hrange & Hh & _ & Hhome).
  assert (Hc : (size (t_mod v) + length (t_held v) < NBUF)%nat) by (unfold zlen in Hbuf; lia).
  unfold geti. wp_prim. wp_prim. fold (ino s i). wp_prim. eapply wp_bmap; [exact Hok | exact Hmap | exact Hj | done |].
  intros t1 Hok1. rewrite Hd.
  set (a := addr v (ino s i) (off / BSIZE)) in *.
  set (piece := take (Z.to_nat m) (drop (Z.to_nat tot) src)).
  assert (Hpl : length piece = Z.to_nat m)
    by (unfold piece, zlen in *; rewrite length_take, length_drop; lia).
  destruct (tx_ok_block _ _ _ Hok Hrange) as [Hbl Hbb].
  assert (Hsp : block_ok (splice (t_data v a) (Z.to_nat (off mod BSIZE)) piece)).
  { apply splice_ok; [done | by apply Forall_take, Forall_drop | rewrite Hpl; unfold BSIZE in *; lia]. }
  unfold bread, bdata, bset, log_write, brelse. wp_step. apply wp_zoom. flens.
  eapply tx_bread_law; [exact Hok1 | done | done | done |]. intros b t2 Hok2. wp_step. apply wp_zoom. flens.
  eapply (tx_data_law _ _ b a); [exact Hok2 | by left |]. wp_step. apply wp_zoom. flens. simpl t_data.
  eapply (tx_setdata_law _ _ b a); [exact Hok2 | by left | exact Hsp |]. intros t3 Hok3. wp_step. apply wp_zoom. flens.
  eapply (tx_log_write_law _ _ b a); [exact Hok3 | by left | done | simpl; lia |].
  intros t4 Hok4. wp_step. apply wp_zoom. flens.
  eapply (tx_brelse_law _ _ b a [] (t_held v)); [exact Hok4 | done | |].
  { simpl. rewrite elem_of_difference, elem_of_singleton. tauto. }
  intros t5 Hok5. flens.
  set (v1 := t_put a (splice (t_data v a) (Z.to_nat (off mod BSIZE)) piece) v).
  change (tx_ok t5 v1) in Hok5.
  pose proof (t_put_size a (splice (t_data v a) (Z.to_nat (off mod BSIZE)) piece) v) as Hsize. fold v1 in Hsize.
  assert (Hmap1 : mapped v1 (ino s i) nb) by (apply mapped_put; [done | by exists (off / BSIZE)]).
  fold m. replace (n - (tot + m)) with (n - tot - m) in * by lia.
  eapply (IH _ v1); [by flens | by rewrite ino_tx | lia | lia | done | done | lia | lia
    | replace (n - (tot + m)) with (n - tot - m) by lia; simpl t_logsize; lia
    | replace (n - (tot + m)) with (n - tot - m) by lia; simpl t_held; lia |].
  intros t6 v6 Hok6 Hmap6 Hheld6 Hsz6 Hby6. rewrite ino_tx in *. flens.
  replace (n - (tot + m)) with (n - tot - m) in * by lia.
  replace (off + m + (n - tot - m)) with (off + (n - tot)) in * by lia.
  apply (HQ t6 v6); [done | done | done | lia |].
  intros p Hp. rewrite Hby6 by done. unfold v1, a. rewrite (byte_put _ _ nb) by (done || (unfold BSIZE in *; lia)).
  assert (Hoff : off / BSIZE * BSIZE + Z.of_nat (Z.to_nat (off mod BSIZE)) = off).
  { rewrite Z2Nat.id by (apply Z.mod_pos_bound; done). unfold BSIZE. Z.to_euclidean_division_equations. lia. }
  rewrite Nat2Z.inj_add, Z.add_assoc, Hoff, Hpl, Z2Nat.id by lia.
  destruct ((off + m <=? p) && (p <? off + (n - tot))) eqn:E1;
    destruct ((off <=? p) && (p <? off + m)) eqn:E2;
    destruct ((off <=? p) && (p <? off + (n - tot))) eqn:E3; zbool; try lia; try done.
  - f_equal. lia.
  - unfold piece. rewrite zget_take_drop by lia. done.
Qed.

Lemma wp_writei s i v nb src off n (Q : Z -> S -> Prop) :
  let k := ino s i in
  tx_ok (lget s) v -> itype k <> T_DEV -> mapped v k nb -> n = zlen src ->
  Forall (fun b => 0 <= b < 256) src ->
  0 <= off -> off + n <= isize k -> isize k <= nb * BSIZE ->
  Z.of_nat (size (t_mod v)) + touched off n <= t_logsize v - 1 ->
  Z.of_nat (size (t_mod v)) + touched off n + zlen (t_held v) <= Z.of_nat NBUF ->
  (forall t v', tx_ok t v' -> mapped v' k nb -> t_held v' = t_held v ->
     Z.of_nat (size (t_mod v')) <= Z.of_nat (size (t_mod v)) + touched off n ->
     (forall p, 0 <= p < nb * BSIZE -> byte v' k p =
        if (off <=? p) && (p <? off + n) then zget 0 src (p - off) else byte v k p) -> Q n (lset t s)) ->
  wp (writei i src off n) s Q.
Proof.
  intros k Hok Hty Hmap Hn Hsrc Hoff Hend Hsz Hlog Hbuf HQ.
  assert (H0 : 0 <= n) by (rewrite Hn; apply zlen_nonneg).
  pose proof Hmap as (_ & Hmax & _). unfold MAXFILE, NDIRECT, NINDIRECT, BSIZE in Hmax, Hsz.
  change (12 + 512 / 4) with 140 in Hmax.
  unfold writei, geti. wp_prim. wp_prim. fold (ino s i). fold k.
  replace (itype k =? T_DEV) with false by lia. rewrite !u32_small by lia.
  replace ((isize k <? off) || (off + n <? off)) with false by (symmetry; apply orb_false_iff; lia).
  replace (MAXFILE * BSIZE <? off + n) with false
    by (unfold MAXFILE, NDIRECT, NINDIRECT, BSIZE; change (12 + 512 / 4) with 140; lia).
  wp_prim. eapply (wp_writei_loop i nb src n); try done; rewrite ?Z.sub_0_r; try lia; [unfold BSIZE; lia|].
  intros t v' Ht Hm' Hh' Hs' Hb'. wp_step. fold (ino (lset t s) i). rewrite ino_tx. fold k.
  replace ((0 <? n) && (isize k <? off + n)) with false
    by (symmetry; apply andb_false_iff; right; lia).
  wp_step. by apply (HQ t v').
Qed.

(** C5: overwriting part of an allocated file and reading it back gives the bytes
    written, whether they lie in direct or in indirect blocks; [writei] returns the
    length, records the changed blocks in the transaction, and every other byte of
    the file keeps its value. *)
Theorem write_read_roundtrip (s : S) i v src off :
  let k := ino s i in let n := zlen src in
  tx_ok (lget s) v -> itype k <> T_DEV -> mapped v k (nblocks (isize k)) ->
  Forall (fun b => 0 <= b < 256) src ->
  0 <= off -> off + n <= isize k ->
  Z.of_nat (size (t_mod v)) + touched off n <= t_logsize v - 1 ->
  Z.of_nat (size (t_mod v)) + touched off n + zlen (t_held v) < Z.of_nat NBUF ->
  exists t1 v1 t2, writei i src off n s = Ret n (lset t1 s) /\ tx_ok t1 v1 /\
    readi i off n (lset t1 s) = Ret (n, src) (lset t2 s) /\ tx_ok t2 v1 /\
    forall p, 0 <= p < isize k -> (p < off \/ off + n <= p) -> byte v1 k p = byte v k p.
Proof.
  intros k n Hok Hty Hmap Hsrc Hoff Hend Hlog Hbuf. pose proof (zlen_nonneg src).
  pose proof (nblocks_bound (isize k) ltac:(lia)) as Hnb.
  pose proof Hmap as (_ & Hmax & _). unfold MAXFILE, NDIRECT, NINDIRECT, BSIZE in Hmax.
  change (12 + 512 / 4) with 140 in Hmax.
  assert (wp (writei i src off n) s (fun r s' => exists t v1, s' = lset t s /\ r = n /\ tx_ok t v1 /\
    mapped v1 k (nblocks (isize k)) /\ t_held v1 = t_held v /\
    Z.of_nat (size (t_mod v1)) <= Z.of_nat (size (t_mod v)) + touched off n /\
    forall p, 0 <= p < nblocks (isize k) * BSIZE -> byte v1 k p =
        if (off <=? p) && (p <? off + n) then zget 0 src (p - off) else byte v k p))
    as (r & s1 & E1 & t1 & v1 & -> & -> & Hok1 & Hm1 & Hh1 & Hs1' & Hb1).
  { apply (wp_writei s i v (nblocks (isize k)) src off n); try done; [fold n; lia|].
    intros t v' ? ? ? ? ?. exists t, v'. by split_and!. }
  assert (wp (readi i off n) (lset t1 s) (fun r s' => exists t, s' = lset t s /\ tx_ok t v1 /\ r = (n, src)))
    as (r & s2 & E2 & t2 & -> & Hok2 & ->).
  { unfold BSIZE in Hnb.
    apply (wp_readi _ i v1); rewrite ?ino_tx; fold k; try done; try lia.
    - by flens.
    - rewrite Hh1. unfold zlen in *. lia.
    - intros t Ht. flens. exists t. split_and!; [done | done |].
      unfold read_len. replace (isize k <? off + n) with false by lia. f_equal.
      apply (list_eq_zget 0); [rewrite bytes_at_length; unfold n, zlen; lia|].
      intros p Hp. unfold zlen in Hp. rewrite bytes_at_length in Hp.
      unfold zget at 1. replace (p <? 0) with false by lia. unfold bytes_at.
      rewrite list_lookup_fmap, lookup_seq_lt by lia. simpl. rewrite Z2Nat.id by lia.
      rewrite Hb1 by (unfold BSIZE; lia). replace ((off <=? off + p) && (off + p <? off + n)) with true
        by (symmetry; apply andb_true_iff; lia). f_equal. lia. }
  exists t1, v1, t2. split_and!; try done. intros p Hp Hout. rewrite Hb1 by lia.
  case_bool; [zbool; lia | done].
Qed.

(** ** The inode cache *)

(** Reference counts are not negative, and two entries in use hold different inodes. *)
Definition icache_ok (c : icache) : Prop :=
  (forall i, (i < NINODE)%nat -> 0 <= iref (inode_of c i)) /\
  forall i j, (i < NINODE)%nat -> (j < NINODE)%nat ->
    0 < iref (inode_of c i) -> 0 < iref (inode_of c j) ->
    idev (inode_of c i) = idev (inode_of c j) -> inum (inode_of c i) = inum (inode_of c j) -> i = j.

(** Entry [i] is in use for inode [n] of device [d]. *)
Definition holds_ino (c : icache) (d n : Z) (i : nat) : Prop :=
  0 < iref (inode_of c i) /\ idev (inode_of c i) = d /\ inum (inode_of c i) = n.

Lemma iget_scan_spec c d n l : forall e,
  match iget_scan c d n l e with
  | (Some i, _) => i ∈ l /\ holds_ino c d n i
  | (None, r) => (forall i, i ∈ l -> ~ holds_ino c d n i) /\
      match e with
      | Some _ => r = e
      | None => match r with
                | Some i => i ∈ l /\ iref (inode_of c i) = 0
                | None => forall i, i ∈ l -> iref (inode_of c i) <> 0
                end
      end
  end.
Proof.
  induction l as [|i l IH]; intros e; simpl.
  { split; [by intros i ?%elem_of_nil|]. destruct e; [done|]. by intros i ?%elem_of_nil. }
  destruct ((0 <? iref (inode_of c i)) && (idev (inode_of c i) =? d) && (inum (inode_of c i) =? n)) eqn:E.
  { zbool. split; [by left | by split_and!]. }
  assert (Hi : ~ holds_ino c d n i).
  { clear IH. intros (H1 & H2 & H3). apply not_true_iff_false in E. apply E. rewrite !andb_true_iff. lia. }
  clear E.  set (e' := match e with Some _ => e | None => if iref (inode_of c i) =? 0 then Some i else None end).
  specialize (IH e'). destruct (iget_scan c d n l e') as [[j|] r].
  { destruct IH. split; [by right | done]. }
  destruct IH as [Hl Hr]. split; [intros j [->|?]%elem_of_cons; [done | by apply Hl]|].
  destruct e as [x|]; [done|]. subst e'. revert Hr. destruct (iref (inode_of c i) =? 0) eqn:E0; intros Hr; zbool.
  - subst r. split; [by left | done].
  - destruct r as [j|]; [destruct Hr; split; [by right | done]|].
    intros j [->|?]%elem_of_cons; [done | by apply Hr].
Qed.

(** What [iget] does to the cache. *)
Definition iget_entry (c : icache) (d n : Z) (i : nat) (c' : icache) : Prop :=
  (i < NINODE)%nat /\ holds_ino c' d n i /\ (forall j, j <> i -> inode_of c' j = inode_of c j) /\
  ((holds_ino c d n i /\ inode_of c' i = set_ref (iref (inode_of c i) + 1) (inode_of c i)) \/
   ((forall j, (j < NINODE)%nat -> ~ holds_ino c d n j) /\ iref (inode_of c i) = 0 /\
    iref (inode_of c' i) = 1 /\ ivalid (inode_of c' i) = false)).

Lemma iget_entry_ok c d n i c' : icache_ok c -> iget_entry c d n i c' -> icache_ok c'.
Proof.
  intros [Hr Hu] (Hi & (Hp & Hd & Hn) & Hfr & Hcase).
  assert (Hex : forall j, (j < NINODE)%nat -> j <> i -> ~ holds_ino c d n j).
  { intros j Hj Hji Hh. destruct Hcase as [[(H1 & H2 & H3) _]|[Hno _]]; [|by apply (Hno j)].
    destruct Hh as (? & ? & ?). apply Hji. apply (Hu j i); congruence || done. }
  split.
  - intros j Hj. destruct (decide (j = i)) as [->|Hne]; [lia|]. rewrite Hfr by done. by apply Hr.
  - intros a b Ha Hb Hpa Hpb Hdd Hnn. destruct (decide (a = i)) as [->|Hai], (decide (b = i)) as [->|Hbi]; [done|..].
    + destruct (Hex b Hb Hbi). rewrite (Hfr b Hbi) in *. split_and!; done || congruence.
    + destruct (Hex a Ha Hai). rewrite (Hfr a Hai) in *. split_and!; done || congruence.
    + rewrite (Hfr a Hai), (Hfr b Hbi) in *. by apply Hu.
Qed.

Context {HCok : LensOk T core}.

Lemma wp_lk_acquire (s : S) i L ie p l (Q : unit -> S -> Prop) :
  core_ok (lget (lget (T := T) s)) i L ie p -> l ∉ L ->
  (forall t, core_ok (lget t) i (l :: L) ie p -> Q tt (lset t s)) -> wp (lk_acquire l) s Q.
Proof.
  intros Hc Hl HQ. apply wp_zoom. eapply wp_acquire; [exact Hc | done |].
  intros c' Hc' _. apply HQ. by rewrite lget_lset.
Qed.

Lemma wp_lk_release (s : S) i L ie p l (Q : unit -> S -> Prop) :
  core_ok (lget (lget (T := T) s)) i (l :: L) ie p ->
  (forall t, core_ok (lget t) i L ie p -> Q tt (lset t s)) -> wp (lk_release l) s Q.
Proof.
  intros Hc HQ. apply wp_zoom. eapply wp_release; [exact Hc|].
  intros c' Hc' _. apply HQ. by rewrite lget_lset.
Qed.

Lemma wp_modi_release (s : S) i f u L ie p (Q : nat -> S -> Prop) :
  core_ok (lget (lget (T := T) s)) u (L_icache :: L) ie p ->
  (forall t c', core_ok (lget t) u L ie p ->
     inode_of c' i = f (ino s i) -> (forall j, j <> i -> inode_of c' j = ino s j) ->
     Q i (lset t (lset c' s))) ->
  wp (modi i f;; lk_release L_icache;; mret i) s Q.
Proof.
  intros Hc HQ. unfold modi. wp_step. eapply wp_lk_release; [flens; exact Hc|]. intros t Ht. wp_step.
  apply HQ; [done | simpl; by rewrite decide_True | intros j Hj; simpl; by rewrite decide_False].
Qed.

(** C35: [iget] keeps one cache entry per inode.  It returns the entry that already
    holds the inode, with one more reference, or else recycles an entry that nobody
    references, marked not valid; every other entry keeps its contents.  When the
    inode is not cached and all entries are in use, it panics. *)
Theorem iget_unique (s : S) d n u L ie p :
  let c := lget (T := icache) s in
  icache_ok c -> core_ok (lget (lget (T := T) s)) u L ie p -> L_icache ∉ L ->
  (exists i s', iget d n s = Ret i s' /\ core_ok (lget (lget (T := T) s')) u L ie p /\
     iget_entry c d n i (lget s') /\ icache_ok (lget s') /\ fsb s' = fsb s) \/
  (exists s', iget d n s = Panic "iget: no inodes" s' /\
     forall i, (i < NINODE)%nat -> 0 < iref (inode_of c i) /\ ~ holds_ino c d n i).
Proof.
  intros c Hc Hcore HL.
  assert (wp (lk_acquire L_icache) s (fun _ s' => exists t, s' = lset t s /\
    core_ok (lget t) u (L_icache :: L) ie p)) as ([] & s1 & E1 & t1 & -> & Ht1).
  { eapply wp_lk_acquire; [exact Hcore | done |]. intros t Ht. by exists t. }
  unfold iget. rewrite (bind_ret _ _ _ _ _ E1). erewrite bind_ret by reflexivity.
  assert (Hcl : lget (T := icache) (lset t1 s) = c) by (unfold c; by flens). rewrite Hcl.
  pose proof (iget_scan_spec c d n (seq 0 NINODE) None) as Hscan.
  assert (Hin : forall i, i ∈ seq 0 NINODE <-> (i < NINODE)%nat) by (intros i; rewrite elem_of_seq; lia).
  assert (Hino : forall i, ino (lset t1 s) i = inode_of c i) by (intros i; unfold ino; by rewrite Hcl).
  assert (Hdone : forall i f,
    (forall c', inode_of c' i = f (inode_of c i) ->
       (forall j, j <> i -> inode_of c' j = inode_of c j) -> iget_entry c d n i c') ->
    exists s', (modi i f;; lk_release L_icache;; mret i) (lset t1 s) = Ret i s' /\
      core_ok (lget (lget (T := T) s')) u L ie p /\ iget_entry c d n i (lget s') /\
      icache_ok (lget s') /\ fsb s' = fsb s).
  { intros i f Hent.
    destruct (wp_modi_release (lset t1 s) i f u L ie p (fun r s' => r = i /\
      core_ok (lget (lget (T := T) s')) u L ie p /\ iget_entry c d n i (lget s') /\
      icache_ok (lget s') /\ fsb s' = fsb s))
      as (r & s' & E & -> & Hr); [by flens | | by exists s'].
    intros t c' Hct H1 H2. flens. unfold fsb. flens.
    assert (He : iget_entry c d n i c').
    { apply Hent; [by rewrite H1, Hino | intros j Hj; by rewrite H2, Hino]. }
    split_and!; try done. by eapply iget_entry_ok. }
  destruct (iget_scan c d n (seq 0 NINODE) None) as [[i|] [e|]].
  1,2: left; exists i; apply Hdone; intros c' H1 H2; destruct Hscan as [Hi Hh]; apply Hin in Hi;
    pose proof Hh as (Hpos & Hd & Hn); split_and!; try done; [split_and!; rewrite H1; simpl; lia | by left].
  - left. exists e. apply Hdone. intros c' H1 H2. destruct Hscan as [Hno [He H0]]. apply Hin in He.
    split_and!; try done; [split_and!; by rewrite H1|]. right.
    split_and!; [intros j Hj; by apply Hno, Hin | done | by rewrite H1 | by rewrite H1].
  - right. exists (lset t1 s). split; [done|]. destruct Hscan as [Hno Hall]. intros i Hi.
    split; [|by apply Hno, Hin]. destruct Hc as [Hpos _]. specialize (Hpos i Hi).
    assert (iref (inode_of c i) <> 0) by (by apply Hall, Hin). lia.
Qed.

End Progs.

(** ** A concrete file system on the log, the buffer cache and a memory disk *)

Import BioLaws LogSafety Bio.

Abbreviation fst_ := (lst * (icache * superblock))%type.
#[local] Instance bst_layer : BlockLayer bst := bio_layer 0.
#[local] Instance bst_laws : BlockLaws bst := bio_laws 0 0 0 true.
#[local] Instance lst_tx : TxLayer lst := Tx.log_layer (S := lst) (B := bst).
#[local] Instance lst_laws : TxLaws lst := Tx.log_tx_laws (S := lst) (B := bst).
#[local] Instance no_devices : DevSw fst_ := {| dev_read := fun _ => None; dev_write := fun _ => None |}.

Definition fs_sb : superblock :=
  {| sb_size := 50; sb_nblocks := 40; sb_ninodes := 16; sb_nlog := 30; sb_logstart := 100;
     sb_inodestart := 140; sb_bmapstart := 60 |}.
(** Entry 0 is a file of 1000 bytes in blocks 200 and 201. *)
Definition fs_cache : icache :=
  {| inode_of := fun i =>
       {| idev := 1; inum := if decide (i = 0)%nat then 2 else 0; iref := if decide (i = 0)%nat then 1 else 0;
          ivalid := true; itype := T_FILE; imajor := 0; iminor := 0; inlink := 1; isize := 1000;
          iaddrs := 200 :: 201 :: replicate 11 0 |} |}.
Definition fs_state : fst_ := ((boot_bio, one_log 0 1), (fs_cache, fs_sb)).
Definition fs_view : tview :=
  {| t_data := blocks boot_disk; t_held := []; t_mod := ∅; t_touch := ∅; t_size := 1000;
     t_logst := 100; t_logsize := 30 |}.

Lemma empty_log_ok out : log_ok (one_log 0 out) 1000 [].
Proof.
  unfold log_ok. simpl. split_and!; try done; try lia; [unfold NBUF; lia|]. split_and!; [constructor | simpl; lia | constructor].
Qed.

Lemma fs_state_ok : tx_ok (T := lst) (lget fs_state) fs_view.
Proof.
  exists (idle_view (blocks boot_disk) 1000), []. split_and!; try done.
  - exact boot_bio_ok.
  - apply empty_log_ok.
  - by intros b n ?%elem_of_nil.
Qed.

Lemma fs_mapped : mapped fs_view (inode_of fs_cache 0) (nblocks 1000).
Proof.
  change (nblocks 1000) with 2. unfold mapped.
  assert (H2 : forall j, 0 <= j < 2 -> j = 0 \/ j = 1) by lia.
  split_and!; [done | vm_compute; done | | | unfold NDIRECT; lia].
  - intros j [-> | ->]%H2; split_and!; try apply not_elem_of_nil; try apply not_elem_of_empty;
      try (vm_compute; done); right; vm_compute; done.
  - intros a b [-> | ->]%H2 [-> | ->]%H2; vm_compute; done.
Qed.

Lemma balloc_correct_witness :
  exists t v', balloc (S := fst_) (T := lst) ROOTDEV fs_state = Ret 0 (lset t fs_state) /\
    tx_ok t v' /\ ~ is_free fs_sb v' 0 /\ is_free fs_sb v' 1.
Proof.
  assert (Hbb : forall x, 0 <= x < 50 -> BBLOCK x fs_sb = 60).
  { intros x Hx. unfold BBLOCK, BPB, BSIZE. simpl. rewrite Z.div_small; lia. }
  assert (Hfr : is_free fs_sb fs_view 0) by (vm_compute; reflexivity).
  destruct (balloc_correct (S := fst_) (T := lst) fs_state fs_view)
    as (r & t & v' & E & Hok & Hr & Hf & Hfirst & Hiff & _).
  - exact fs_state_ok.
  - split; [simpl; lia|]. split.
    + intros x Hx. change (fsb fs_state) with fs_sb. rewrite Hbb by exact Hx. simpl.
      split; [lia|]. split; [left; simpl; lia|]. split; [apply not_elem_of_nil | apply not_elem_of_empty].
    + intros x Hx _. change (fsb fs_state) with fs_sb in *. simpl in Hx. split; [left; simpl; lia|].
      split; [apply not_elem_of_nil|]. intros y Hy. rewrite Hbb by exact Hy. lia.
  - exists 0. split; [simpl; lia | exact Hfr].
  - vm_compute. lia.
  - vm_compute. reflexivity.
  - vm_compute. discriminate.
  - change (fsb fs_state) with fs_sb in *. simpl in Hr.
    assert (r = 0) as ->.
    { destruct (Z.lt_total r 0) as [|[|]]; [lia | assumption | destruct (Hfirst 0 ltac:(lia) Hfr)]. }
    exists t, v'. split; [exact E|]. split; [exact Hok|]. split.
    + intros [_ H]%Hiff; [by apply H | simpl; lia].
    + apply Hiff; [simpl; lia|]. split; [vm_compute; reflexivity | lia].
Defined.

Lemma readi_correct_witness :
  exists t : lst, readi (S := fst_) (T := lst) 0 500 2000 fs_state = Ret (500, replicate 500 0) (lset t fs_state).
Proof.
  destruct (readi_correct (S := fst_) (T := lst) fs_state 0 fs_view 500 2000) as (t & _ & E).
  - exact fs_state_ok.
  - vm_compute. discriminate.
  - exact fs_mapped.
  - lia.
  - lia.
  - vm_compute. split; [discriminate | reflexivity].
  - vm_compute. lia.
  - exists t. rewrite E. f_equal.
Defined.

Lemma write_read_roundtrip_witness :
  exists t1 t2 : lst, writei (S := fst_) (T := lst) 0 (replicate 20 7) 505 20 fs_state = Ret 20 (lset t1 fs_state) /\
    readi (S := fst_) (T := lst) 0 505 20 (lset t1 fs_state) = Ret (20, replicate 20 7) (lset t2 fs_state).
Proof.
  destruct (write_read_roundtrip (S := fst_) (T := lst) fs_state 0 fs_view (replicate 20 7) 505)
    as (t1 & v1 & t2 & E1 & _ & E2 & _).
  - exact fs_state_ok.
  - vm_compute. discriminate.
  - exact fs_mapped.
  - apply Forall_replicate. lia.
  - lia.
  - vm_compute. discriminate.
  - vm_compute. discriminate.
  - vm_compute. reflexivity.
  - exists t1, t2. split; [exact E1 | exact E2].
Defined.

Lemma iget_unique_witness :
  exists s', iget (S := fst_) (T := lst) 1 2 fs_state = Ret 0%nat s' /\ icache_ok (lget s').
Proof.
  assert (Hh : forall i, (0 < iref (inode_of fs_cache i) -> i = 0%nat)).
  { intros i. simpl. case_decide; [done | lia]. }
  destruct (iget_unique (S := fst_) (T := lst) fs_state 1 2 0 [] true (Some 0%nat))
    as [(i & s' & E & _ & (_ & _ & _ & Hc) & Hok & _) | (s' & _ & Hall)].
  - split; [intros i _; simpl; case_decide; lia|]. intros i j _ _ Hi Hj _ _.
    by rewrite (Hh i Hi), (Hh j Hj).
  - exact boot_ok.
  - apply not_elem_of_nil.
  - assert (i = 0%nat) as ->.
    { destruct Hc as [[[Hp _] _]|[Hno _]]; [by apply Hh|].
      destruct (Hno 0%nat); [unfold NINODE; lia | by split_and!]. }
    exists s'. split; [exact E | exact Hok].
  - destruct (Hall 0%nat) as [_ Hno]; [unfold NINODE; lia|]. destruct Hno. by split_and!.
Defined.

End FsProof.
