(* ===== verification/VgaData.v ===== *)
(** * VGA tables of console.c

    The register values of the three video modes (one miscellaneous register, 5
    sequencer, 25 CRT controller, 9 graphics controller and 21 attribute controller
    registers) and the glyphs of the text mode, 16 bytes for each character. *)

From Stdlib Require Import ZArith String Ascii.
From S2P Require Import Prelude.

(** The tables are written as hexadecimal digits, two for each byte. *)
Definition hex_digit (c : ascii) : Z :=
  let n := Z.of_N (N_of_ascii c) in if n <? 58 then n - 48 else n - 55.
Fixpoint hex (s : string) : list Z :=
  match s with
  | String a (String b s') => (16 * hex_digit a + hex_digit b) :: hex s'
  | _ => nil
  end.

Definition registers_80x25_text : list Z :=
  hex "6703000300025F4F50825581BF1F004F" ++
  hex "0D0E000000509C0E8F281F96B9A3FF00" ++
  hex "00000000100E00FF0001020304051407" ++
  hex "38393A3B3C3D3E3F0C000F0800".

Definition registers_320x200x256 : list Z :=
  hex "6303010F000E5F4F50825480BF1F0041" ++
  hex "0000000000009C0E8F284096B9A3FF00" ++
  hex "0000000040050FFF0001020304050607" ++
  hex "08090A0B0C0D0E0F41000F0000".

Definition registers_640x480x16 : list Z :=
  hex "E303010800065F4F508254800B3E0040" ++
  hex "000000000000EA0CDF2800E704E3FF00" ++
  hex "0000000300050FFF0001020304051407" ++
  hex "38393A3B3C3D3E3F01000F0000".

Definition font_8x16 : list Z :=
  hex "00000000000000000000000000000000" ++
  hex "00007E81A58181BD9981817E00000000" ++
  hex "00007EFFDBFFFFC3E7FFFF7E00000000" ++
  hex "000000006CFEFEFEFE7C381000000000" ++
  hex "0000000010387CFE7C38100000000000" ++
  hex "000000183C3CE7E7E799183C00000000" ++
  hex "000000183C7EFFFF7E18183C00000000" ++
  hex "000000000000183C3C18000000000000" ++
  hex "FFFFFFFFFFFFE7C3C3E7FFFFFFFFFFFF" ++
  hex "00000000003C664242663C0000000000" ++
  hex "FFFFFFFFFFC399BDBD99C3FFFFFFFFFF" ++
  hex "00001E0E1A3278CCCCCCCC7800000000" ++
  hex "00003C666666663C187E181800000000" ++
  hex "00003F333F3030303070F0E000000000" ++
  hex "00007F637F6363636367E7E6C0000000" ++
  hex "0000001818DB3CE73CDB181800000000" ++
  hex "0080C0E0F0F8FEF8F0E0C08000000000" ++
  hex "0002060E1E3EFE3E1E0E060200000000" ++
  hex "0000183C7E181818187E3C1800000000" ++
  hex "00006666666666666600666600000000" ++
  hex "00007FDBDBDB7B1B1B1B1B1B00000000" ++
  hex "007CC660386CC6C66C380CC67C000000" ++
  hex "0000000000000000FEFEFEFE00000000" ++
  hex "0000183C7E181818187E3C187E000000" ++
  hex "0000183C7E1818181818181800000000" ++
  hex "0000181818181818187E3C1800000000" ++
  hex "0000000000180CFE0C18000000000000" ++
  hex "00000000003060FE6030000000000000" ++
  hex "0000000000C0C0C0C0FE000000000000" ++
  hex "0000000000286CFE6C28000000000000" ++
  hex "000000001038387C7CFEFE0000000000" ++
  hex "00000000FEFE7C7C3838100000000000" ++
  hex "00000000000000000000000000000000" ++
  hex "0000183C3C3C18181800181800000000" ++
  hex "00666666240000000000000000000000" ++
  hex "0000006C6CFE6C6C6CFE6C6C00000000" ++
  hex "18187CC6C2C07C0686C67C1818000000" ++
  hex "00000000C2C60C183060C68600000000" ++
  hex "0000386C6C3876DCCCCCCC7600000000" ++
  hex "00303030600000000000000000000000" ++
  hex "00000C18303030303030180C00000000" ++
  hex "000030180C0C0C0C0C0C183000000000" ++
  hex "0000000000663CFF3C66000000000000" ++
  hex "000000000018187E1818000000000000" ++
  hex "00000000000000000018181830000000" ++
  hex "00000000000000FE0000000000000000" ++
  hex "00000000000000000000181800000000" ++
  hex "0000000002060C183060C08000000000" ++
  hex "00007CC6C6CED6D6E6C6C67C00000000" ++
  hex "00001838781818181818187E00000000" ++
  hex "00007CC6060C183060C0C6FE00000000" ++
  hex "00007CC606063C060606C67C00000000" ++
  hex "00000C1C3C6CCCFE0C0C0C1E00000000" ++
  hex "0000FEC0C0C0FC0E0606C67C00000000" ++
  hex "00003860C0C0FCC6C6C6C67C00000000" ++
  hex "0000FEC606060C183030303000000000" ++
  hex "00007CC6C6C67CC6C6C6C67C00000000" ++
  hex "00007CC6C6C67E0606060C7800000000" ++
  hex "00000000181800000018180000000000" ++
  hex "00000000181800000018183000000000" ++
  hex "000000060C18306030180C0600000000" ++
  hex "000000000000FE0000FE000000000000" ++
  hex "0000006030180C060C18306000000000" ++
  hex "00007CC6C60C18181800181800000000" ++
  hex "0000007CC6C6DEDEDEDCC07C00000000" ++
  hex "000010386CC6C6FEC6C6C6C600000000" ++
  hex "0000FC6666667C66666666FC00000000" ++
  hex "00003C66C2C0C0C0C0C2663C00000000" ++
  hex "0000F86C6666666666666CF800000000" ++
  hex "0000FE6662687868606266FE00000000" ++
  hex "0000FE6662687868606060F000000000" ++
  hex "00003C66C2C0C0DEC6C6663A00000000" ++
  hex "0000C6C6C6C6FEC6C6C6C6C600000000" ++
  hex "00003C18181818181818183C00000000" ++
  hex "00001E0C0C0C0C0CCCCCCC7800000000" ++
  hex "0000E6666C6C78786C6666E600000000" ++
  hex "0000F06060606060606266FE00000000" ++
  hex "0000C6EEFEFED6C6C6C6C6C600000000" ++
  hex "0000C6E6F6FEDECEC6C6C6C600000000" ++
  hex "0000386CC6C6C6C6C6C66C3800000000" ++
  hex "0000FC6666667C60606060F000000000" ++
  hex "00007CC6C6C6C6C6C6D6DE7C0C0E0000" ++
  hex "0000FC6666667C6C666666E600000000" ++
  hex "00007CC6C660380C06C6C67C00000000" ++
  hex "00007E7E5A1818181818183C00000000" ++
  hex "0000C6C6C6C6C6C6C6C6C67C00000000" ++
  hex "0000C6C6C6C6C6C6C66C381000000000" ++
  hex "0000C6C6C6C6C6D6D6FE6C6C00000000" ++
  hex "0000C6C66C6C38386C6CC6C600000000" ++
  hex "0000666666663C181818183C00000000" ++
  hex "0000FEC6860C183060C2C6FE00000000" ++
  hex "00003C30303030303030303C00000000" ++
  hex "00000080C0E070381C0E060200000000" ++
  hex "00003C0C0C0C0C0C0C0C0C3C00000000" ++
  hex "10386CC6000000000000000000000000" ++
  hex "00000000000000000000000000FF0000" ++
  hex "30301800000000000000000000000000" ++
  hex "0000000000780C7CCCCCCC7600000000" ++
  hex "0000E06060786C66666666DC00000000" ++
  hex "00000000007CC6C0C0C0C67C00000000" ++
  hex "00001C0C0C3C6CCCCCCCCC7600000000" ++
  hex "00000000007CC6FEC0C0C67C00000000" ++
  hex "0000386C6460F060606060F000000000" ++
  hex "000000000076CCCCCCCCCC7C0CCC7800" ++
  hex "0000E060606C7666666666E600000000" ++
  hex "00001818003818181818183C00000000" ++
  hex "00000606000E06060606060666663C00" ++
  hex "0000E06060666C78786C66E600000000" ++
  hex "00003818181818181818183C00000000" ++
  hex "0000000000ECFED6D6D6D6D600000000" ++
  hex "0000000000DC66666666666600000000" ++
  hex "00000000007CC6C6C6C6C67C00000000" ++
  hex "0000000000DC66666666667C6060F000" ++
  hex "000000000076CCCCCCCCCC7C0C0C1E00" ++
  hex "0000000000DC7662606060F000000000" ++
  hex "00000000007CC660380CC67C00000000" ++
  hex "0000103030FC30303030361C00000000" ++
  hex "0000000000CCCCCCCCCCCC7600000000" ++
  hex "000000000066666666663C1800000000" ++
  hex "0000000000C6C6C6D6D6FE6C00000000" ++
  hex "0000000000C66C3838386CC600000000" ++
  hex "0000000000C6C6C6C6C6C67E060CF800" ++
  hex "0000000000FECC183060C6FE00000000" ++
  hex "00000E18181870181818180E00000000" ++
  hex "00001818181800181818181800000000" ++
  hex "0000701818180E181818187000000000" ++
  hex "000076DC000000000000000000000000" ++
  hex "0000000010386CC6C6C6FE0000000000" ++
  hex "00003C66C2C0C0C0C2663C0C067C0000" ++
  hex "0000CCCC00CCCCCCCCCCCC7600000000" ++
  hex "000C1830007CC6FEC0C0C67C00000000" ++
  hex "0010386C00780C7CCCCCCC7600000000" ++
  hex "0000CCCC00780C7CCCCCCC7600000000" ++
  hex "0060301800780C7CCCCCCC7600000000" ++
  hex "00386C3800780C7CCCCCCC7600000000" ++
  hex "000000003C666060663C0C063C000000" ++
  hex "0010386C007CC6FEC0C0C67C00000000" ++
  hex "0000C6C6007CC6FEC0C0C67C00000000" ++
  hex "00603018007CC6FEC0C0C67C00000000" ++
  hex "00006666003818181818183C00000000" ++
  hex "00183C66003818181818183C00000000" ++
  hex "00603018003818181818183C00000000" ++
  hex "00C6C610386CC6C6FEC6C6C600000000" ++
  hex "386C3800386CC6C6FEC6C6C600000000" ++
  hex "18306000FE66607C606066FE00000000" ++
  hex "0000000000CC76367ED8D86E00000000" ++
  hex "00003E6CCCCCFECCCCCCCCCE00000000" ++
  hex "0010386C007CC6C6C6C6C67C00000000" ++
  hex "0000C6C6007CC6C6C6C6C67C00000000" ++
  hex "00603018007CC6C6C6C6C67C00000000" ++
  hex "003078CC00CCCCCCCCCCCC7600000000" ++
  hex "0060301800CCCCCCCCCCCC7600000000" ++
  hex "0000C6C600C6C6C6C6C6C67E060C7800" ++
  hex "00C6C600386CC6C6C6C66C3800000000" ++
  hex "00C6C600C6C6C6C6C6C6C67C00000000" ++
  hex "0018183C66606060663C181800000000" ++
  hex "00386C6460F060606060E6FC00000000" ++
  hex "000066663C187E187E18181800000000" ++
  hex "00F8CCCCF8C4CCDECCCCCCC600000000" ++
  hex "000E1B1818187E1818181818D8700000" ++
  hex "0018306000780C7CCCCCCC7600000000" ++
  hex "000C1830003818181818183C00000000" ++
  hex "00183060007CC6C6C6C6C67C00000000" ++
  hex "0018306000CCCCCCCCCCCC7600000000" ++
  hex "000076DC00DC66666666666600000000" ++
  hex "76DC00C6E6F6FEDECEC6C6C600000000" ++
  hex "003C6C6C3E007E000000000000000000" ++
  hex "00386C6C38007C000000000000000000" ++
  hex "0000303000303060C0C6C67C00000000" ++
  hex "000000000000FEC0C0C0C00000000000" ++
  hex "000000000000FE060606060000000000" ++
  hex "00C0C0C2C6CC183060CE93060C1F0000" ++
  hex "00C0C0C2C6CC183066CE9A3F060F0000" ++
  hex "00001818001818183C3C3C1800000000" ++
  hex "00000000003366CC6633000000000000" ++
  hex "0000000000CC663366CC000000000000" ++
  hex "11441144114411441144114411441144" ++
  hex "55AA55AA55AA55AA55AA55AA55AA55AA" ++
  hex "DD77DD77DD77DD77DD77DD77DD77DD77" ++
  hex "18181818181818181818181818181818" ++
  hex "18181818181818F81818181818181818" ++
  hex "1818181818F818F81818181818181818" ++
  hex "36363636363636F63636363636363636" ++
  hex "00000000000000FE3636363636363636" ++
  hex "0000000000F818F81818181818181818" ++
  hex "3636363636F606F63636363636363636" ++
  hex "36363636363636363636363636363636" ++
  hex "0000000000FE06F63636363636363636" ++
  hex "3636363636F606FE0000000000000000" ++
  hex "36363636363636FE0000000000000000" ++
  hex "1818181818F818F80000000000000000" ++
  hex "00000000000000F81818181818181818" ++
  hex "181818181818181F0000000000000000" ++
  hex "18181818181818FF0000000000000000" ++
  hex "00000000000000FF1818181818181818" ++
  hex "181818181818181F1818181818181818" ++
  hex "00000000000000FF0000000000000000" ++
  hex "18181818181818FF1818181818181818" ++
  hex "18181818181F181F1818181818181818" ++
  hex "36363636363636373636363636363636" ++
  hex "363636363637303F0000000000000000" ++
  hex "00000000003F30373636363636363636" ++
  hex "3636363636F700FF0000000000000000" ++
  hex "0000000000FF00F73636363636363636" ++
  hex "36363636363730373636363636363636" ++
  hex "0000000000FF00FF0000000000000000" ++
  hex "3636363636F700F73636363636363636" ++
  hex "1818181818FF00FF0000000000000000" ++
  hex "36363636363636FF0000000000000000" ++
  hex "0000000000FF00FF1818181818181818" ++
  hex "00000000000000FF3636363636363636" ++
  hex "363636363636363F0000000000000000" ++
  hex "18181818181F181F0000000000000000" ++
  hex "00000000001F181F1818181818181818" ++
  hex "000000000000003F3636363636363636" ++
  hex "36363636363636FF3636363636363636" ++
  hex "1818181818FF18FF1818181818181818" ++
  hex "18181818181818F80000000000000000" ++
  hex "000000000000001F1818181818181818" ++
  hex "FFFFFFFFFFFFFFFFFFFFFFFFFFFFFFFF" ++
  hex "00000000000000FFFFFFFFFFFFFFFFFF" ++
  hex "F0F0F0F0F0F0F0F0F0F0F0F0F0F0F0F0" ++
  hex "0F0F0F0F0F0F0F0F0F0F0F0F0F0F0F0F" ++
  hex "FFFFFFFFFFFFFF000000000000000000" ++
  hex "000000000076DCD8D8D8DC7600000000" ++
  hex "0000000000FCC6FCC6C6FCC0C0C00000" ++
  hex "0000FEC6C6C0C0C0C0C0C0C000000000" ++
  hex "0000000080FE6C6C6C6C6C6C00000000" ++
  hex "000000FEC66030183060C6FE00000000" ++
  hex "00000000007ED8D8D8D8D87000000000" ++
  hex "0000000066666666667C6060C0000000" ++
  hex "0000000076DC18181818181800000000" ++
  hex "0000007E183C6666663C187E00000000" ++
  hex "000000386CC6C6FEC6C66C3800000000" ++
  hex "0000386CC6C6C66C6C6C6CEE00000000" ++
  hex "00001E30180C3E666666663C00000000" ++
  hex "00000000007EDBDBDB7E000000000000" ++
  hex "00000003067ECFDBF37E60C000000000" ++
  hex "00001C3060607C606060301C00000000" ++
  hex "0000007CC6C6C6C6C6C6C6C600000000" ++
  hex "00000000FE0000FE0000FE0000000000" ++
  hex "0000000018187E18180000FF00000000" ++
  hex "00000030180C060C1830007E00000000" ++
  hex "0000000C18306030180C007E00000000" ++
  hex "00000E1B1B1818181818181818181818" ++
  hex "1818181818181818D8D8D87000000000" ++
  hex "000000001818007E0018180000000000" ++
  hex "000000000076DC0076DC000000000000" ++
  hex "00386C6C380000000000000000000000" ++
  hex "00000000000000181800000000000000" ++
  hex "00000000000000001800000000000000" ++
  hex "000F0C0C0C0C0CEC6C6C3C1C00000000" ++
  hex "00D86C6C6C6C6C000000000000000000" ++
  hex "0070983060C8F8000000000000000000" ++
  hex "000000007C7C7C7C7C7C7C0000000000" ++
  hex "00000000000000000000000000000000".
