(* ===== verification/Vga.v ===== *)
(** * The display: text screen, video modes, pixels (console.c)

    The VGA adapter is a parameter: [VgaHw] are the accesses the driver makes to its
    ports and to its memory, [VgaLaws] the documented behaviour it relies on (indexed
    register banks, the attribute controller's flip-flop, the CRT controller's write
    protection, and which planes an access to the memory window reaches).  On top of
    it, the driver: the text screen, the snapshot of the text screen that is kept
    while a graphics mode is on, mode switching, fonts and pixels.  Addresses are
    physical. *)

From stdpp Require Import base list strings.
From Stdlib Require Import ZArith Lia.
From S2P Require Import Prelude VgaData.

(** ** The adapter *)

Inductive bank : Type := SEQ | CRTC | GC | AC.

#[export] Instance bank_eq_dec : EqDecision bank.
Proof. solve_decision. Defined.

(** What the adapter documents: index and data registers of each bank, whether the
    next write to the attribute controller is an index, the four planes. *)
Record vga : Type := {
  vidx : bank -> Z;
  vreg : bank -> Z -> Z;
  vff : bool;
  vmisc : Z;
  vplane : Z -> Z -> Z
}.

Definition VGA_AC_INDEX : Z := 0x3C0.
Definition VGA_AC_WRITE : Z := 0x3C0.
Definition VGA_MISC_WRITE : Z := 0x3C2.
Definition VGA_SEQ_INDEX : Z := 0x3C4.
Definition VGA_SEQ_DATA : Z := 0x3C5.
Definition VGA_GC_INDEX : Z := 0x3CE.
Definition VGA_GC_DATA : Z := 0x3CF.
Definition VGA_CRTC_INDEX : Z := 0x3D4.
Definition VGA_CRTC_DATA : Z := 0x3D5.
Definition VGA_INSTAT_READ : Z := 0x3DA.

Definition set_vidx (b : bank) (x : Z) (v : vga) : vga :=
  {| vidx := fun c => if decide (c = b) then x else vidx v c; vreg := vreg v; vff := vff v;
     vmisc := vmisc v; vplane := vplane v |}.
Definition set_vreg (b : bank) (i x : Z) (v : vga) : vga :=
  {| vidx := vidx v;
     vreg := fun c j => if decide (c = b) then if j =? i then x else vreg v c j else vreg v c j;
     vff := vff v; vmisc := vmisc v; vplane := vplane v |}.
Definition set_vff (f : bool) (v : vga) : vga :=
  {| vidx := vidx v; vreg := vreg v; vff := f; vmisc := vmisc v; vplane := vplane v |}.
Definition set_vmisc (x : Z) (v : vga) : vga :=
  {| vidx := vidx v; vreg := vreg v; vff := vff v; vmisc := x; vplane := vplane v |}.
Definition set_vplane (f : Z -> Z -> Z) (v : vga) : vga :=
  {| vidx := vidx v; vreg := vreg v; vff := vff v; vmisc := vmisc v; vplane := f |}.

(** Bit 7 of CRTC register 0x11 protects registers 0 to 7. *)
Definition crtc_locked (v : vga) (i : Z) : bool := (i <? 8) && Z.testbit (vreg v CRTC 0x11) 7.

Definition vga_store (b : bank) (x : Z) (v : vga) : vga :=
  let i := vidx v b in
  match b with
  | CRTC => if crtc_locked v i then v else set_vreg CRTC i x v
  | _ => set_vreg b i x v
  end.

Definition index_port (p : Z) : option bank :=
  if p =? VGA_SEQ_INDEX then Some SEQ
  else if p =? VGA_GC_INDEX then Some GC
  else if p =? VGA_CRTC_INDEX then Some CRTC else None.
Definition data_port (p : Z) : option bank :=
  if p =? VGA_SEQ_DATA then Some SEQ
  else if p =? VGA_GC_DATA then Some GC
  else if p =? VGA_CRTC_DATA then Some CRTC else None.

Definition vga_out (p x : Z) (v : vga) : vga :=
  match index_port p, data_port p with
  | Some b, _ => set_vidx b x v
  | None, Some b => vga_store b x v
  | None, None =>
      if p =? VGA_MISC_WRITE then set_vmisc x v
      else if p =? VGA_AC_INDEX then
        if vff v then set_vff false (set_vidx AC (Z.land x 0x1F) v)
        else set_vff true (vga_store AC x v)
      else v
  end.

(** The window of the memory: its base and size (graphics register 6). *)
Definition win_base (v : vga) : Z :=
  let m := Z.land (Z.shiftr (vreg v GC 6) 2) 3 in
  if m <? 2 then 0xA0000 else if m =? 2 then 0xB0000 else 0xB8000.
Definition win_size (v : vga) : Z :=
  let m := Z.land (Z.shiftr (vreg v GC 6) 2) 3 in
  if m =? 0 then 0x20000 else if m =? 1 then 0x10000 else 0x8000.
Definition in_window (v : vga) (a : Z) : bool :=
  (win_base v <=? a) && (a <? win_base v + win_size v).

Definition chain4 (v : vga) : bool := Z.testbit (vreg v SEQ 4) 3.
Definition oddeven (v : vga) : bool := negb (Z.testbit (vreg v SEQ 4) 2).

(** The address in a plane of the byte at offset [o] of the window. *)
Definition plane_addr (v : vga) (o : Z) : Z :=
  if chain4 v then o - o mod 4 else if oddeven v then o - o mod 2 else o.
Definition writes_plane (v : vga) (o p : Z) : bool :=
  Z.testbit (vreg v SEQ 2) p &&
  (if chain4 v then p =? o mod 4 else if oddeven v then p mod 2 =? o mod 2 else true).
Definition read_plane (v : vga) (o : Z) : Z :=
  if chain4 v then o mod 4
  else if Z.testbit (vreg v GC 5) 4 then Z.land (vreg v GC 4) 2 + o mod 2
  else Z.land (vreg v GC 4) 3.

Definition vga_write (a x : Z) (v : vga) : vga :=
  if in_window v a then
    let o := a - win_base v in
    set_vplane (fun p q => if (0 <=? p) && (p <? 4) && writes_plane v o p && (q =? plane_addr v o)
                           then x else vplane v p q) v
  else v.
Definition vga_read (a : Z) (v : vga) : Z :=
  let o := a - win_base v in vplane v (read_plane v o) (plane_addr v o).

(** No rotation, logical operation, bit mask or set/reset: the processor's byte is
    what is stored (write mode 0, read mode 0). *)
Definition plain (v : vga) : Prop :=
  vreg v GC 1 = 0 /\ vreg v GC 3 = 0 /\ Z.land (vreg v GC 5) 0x0B = 0 /\ vreg v GC 8 = 0xFF.

Class VgaHw (D : Type) : Type := {
  hw_outb : Z -> Z -> M D unit;
  hw_inb : Z -> M D Z;
  hw_load : Z -> M D Z;
  hw_store : Z -> Z -> M D unit
}.

Class VgaLaws (D : Type) `{VgaHw D} : Type := {
  vv : D -> vga;
  hw_outb_law p x d (Q : unit -> D -> Prop) :
    (forall d', vv d' = vga_out p x (vv d) -> Q tt d') -> wp (hw_outb p x) d Q;
  hw_inb_data_law p b d (Q : Z -> D -> Prop) :
    data_port p = Some b -> (forall d', vv d' = vv d -> Q (vreg (vv d) b (vidx (vv d) b)) d') ->
    wp (hw_inb p) d Q;
  hw_inb_status_law d (Q : Z -> D -> Prop) :
    (forall x d', vv d' = set_vff true (vv d) -> Q x d') -> wp (hw_inb VGA_INSTAT_READ) d Q;
  hw_inb_other_law p d (Q : Z -> D -> Prop) :
    data_port p = None -> p <> VGA_INSTAT_READ ->
    (forall x d', 0 <= x < 256 -> vv d' = vv d -> Q x d') -> wp (hw_inb p) d Q;
  hw_load_law a d (Q : Z -> D -> Prop) :
    plain (vv d) -> in_window (vv d) a = true ->
    (forall d', vv d' = vv d -> Q (vga_read a (vv d)) d') -> wp (hw_load a) d Q;
  hw_store_law a x d (Q : unit -> D -> Prop) :
    plain (vv d) -> (forall d', vv d' = vga_write a x (vv d) -> Q tt d') -> wp (hw_store a x) d Q
}.

(** ** The driver *)

Module Vga.

Definition CRTPORT : Z := 0x3d4.
Definition BACKSPACE : Z := 0x100.
Definition VGA_0x03_MEMORY : Z := 0xB8000.
Definition VGA_0x13_MEMORY : Z := 0xA0000.
Definition VGA_0x13_WIDTH : Z := 320.
Definition VGA_NUM_SEQ_REGS : nat := 5.
Definition VGA_NUM_CRTC_REGS : nat := 25.
Definition VGA_NUM_GC_REGS : nat := 9.
Definition VGA_NUM_AC_REGS : nat := 21.

(** The variables of the driver.  The register tables are variables too:
    [writeVideoRegisters] changes the one it is given. *)
Record vst : Type := {
  currentvgamode : Z;
  cursorPos : Z;              (* consoleSnapshot *)
  registerCopy : list Z;
  tab_text : list Z;          (* registers_80x25_text *)
  tab_13 : list Z;            (* registers_320x200x256 *)
  tab_12 : list Z             (* registers_640x480x16 *)
}.

Definition set_mode (m : Z) (x : vst) : vst :=
  {| currentvgamode := m; cursorPos := cursorPos x; registerCopy := registerCopy x;
     tab_text := tab_text x; tab_13 := tab_13 x; tab_12 := tab_12 x |}.
Definition set_snap (pos : Z) (l : list Z) (x : vst) : vst :=
  {| currentvgamode := currentvgamode x; cursorPos := pos; registerCopy := l;
     tab_text := tab_text x; tab_13 := tab_13 x; tab_12 := tab_12 x |}.
Definition get_tab (m : Z) (x : vst) : list Z :=
  if m =? 0x03 then tab_text x else if m =? 0x13 then tab_13 x else tab_12 x.
Definition set_tab (m : Z) (l : list Z) (x : vst) : vst :=
  {| currentvgamode := currentvgamode x; cursorPos := cursorPos x; registerCopy := registerCopy x;
     tab_text := if m =? 0x03 then l else tab_text x;
     tab_13 := if (m =? 0x03) then tab_13 x else if m =? 0x13 then l else tab_13 x;
     tab_12 := if (m =? 0x03) || (m =? 0x13) then tab_12 x else l |}.

Section Ops.
Context {S D : Type} {HLd : Lens S D} {HLv : Lens S vst} {HHw : VgaHw D}.

Definition outb (p x : Z) : M S unit := zoom (hw_outb p (u8 x)).
Definition inb (p : Z) : M S Z := zoom (hw_inb p).
Definition vload (a : Z) : M S Z := zoom (hw_load a).
Definition vstore (a x : Z) : M S unit := zoom (hw_store a (u8 x)).
Definition vget {A} (f : vst -> A) : M S A := lgets (T := vst) f.
Definition vmod (f : vst -> vst) : M S unit := lmod (T := vst) f.

(** [crt[i]] with [ushort *crt = VGA_0x03_MEMORY]: two bytes. *)
Definition crt_get (i : Z) : M S Z :=
  lo ← vload (VGA_0x03_MEMORY + 2 * i);
  hi ← vload (VGA_0x03_MEMORY + 2 * i + 1);
  mret (lo + 256 * hi).
Definition crt_set (i x : Z) : M S unit :=
  vstore (VGA_0x03_MEMORY + 2 * i) (u16 x);;
  vstore (VGA_0x03_MEMORY + 2 * i + 1) (u16 x / 256).

(** [memmove] within the video memory towards lower addresses, and [memset]. *)
Definition vmove1 (dst src : Z) (i : nat) : M S unit :=
  x ← vload (src + Z.of_nat i);
  vstore (dst + Z.of_nat i) x.
Definition vmemmove (dst src : Z) (n : Z) : M S unit := for_each (vmove1 dst src) (seq 0 (Z.to_nat n)).
Definition vmemset (dst c : Z) (n : Z) : M S unit :=
  for_each (fun i => vstore (dst + Z.of_nat i) c) (seq 0 (Z.to_nat n)).

Definition cursor_read : M S Z :=
  outb CRTPORT 14;;
  hi ← inb (CRTPORT + 1);
  outb CRTPORT 15;;
  lo ← inb (CRTPORT + 1);
  mret (Z.lor (Z.shiftl hi 8) lo).
Definition cursor_write (pos : Z) : M S unit :=
  outb CRTPORT 14;;
  outb (CRTPORT + 1) (Z.shiftr pos 8);;
  outb CRTPORT 15;;
  outb (CRTPORT + 1) pos.

(** The branch of [cgaputc] for the text mode, from the cursor position on. *)
Definition cga_text (c pos : Z) : M S unit :=
  pos ← (if c =? ch_nl then mret (pos + (80 - Z.rem pos 80))
         else if c =? BACKSPACE then mret (if 0 <? pos then pos - 1 else pos)
         else crt_set pos (Z.lor (Z.land c 0xff) 0x0700);; mret (pos + 1));
  if (pos <? 0) || (25 * 80 <? pos) then panic "pos under/overflow"
  else
    pos ← (if 24 <=? Z.quot pos 80 then
             vmemmove VGA_0x03_MEMORY (VGA_0x03_MEMORY + 2 * 80) (2 * 23 * 80);;
             (let pos := pos - 80 in
              vmemset (VGA_0x03_MEMORY + 2 * pos) 0 (2 * (24 * 80 - pos));;
              mret pos)
           else mret pos);
    cursor_write pos;;
    crt_set pos (Z.lor ch_space 0x0700).

(** The branch for the graphics modes, on the snapshot; [registerCopy] holds
    [uchar]s, so the attribute byte does not fit. *)
Definition snap_advance (c : Z) (x : vst) : vst :=
  let pos := cursorPos x in let l := registerCopy x in
  if c =? ch_nl then set_snap (pos + (80 - Z.rem pos 80)) l x
  else if c =? BACKSPACE then set_snap (if 0 <? pos then pos - 1 else pos) l x
  else set_snap (pos + 1) (zset l pos (u8 (Z.lor (Z.land c 0xff) 0x0700))) x.

Fixpoint zero_from (l : list Z) (i : Z) (n : nat) : list Z :=
  match n with
  | O => l
  | Datatypes.S n' => zero_from (zset l i 0) (i + 1) n'
  end.

(** [memmove] down by 80 and [memset] of the rest. *)
Definition snap_scroll (x : vst) : vst :=
  if 24 <=? Z.quot (cursorPos x) 80 then
    let l := take (23 * 80) (drop 80 (registerCopy x)) ++ drop (23 * 80) (registerCopy x) in
    let pos := cursorPos x - 80 in
    set_snap pos (zero_from l pos (Z.to_nat (24 * 80 - pos))) x
  else x.

Definition cga_snap (c : Z) : M S unit :=
  vmod (snap_advance c);;
  pos ← vget cursorPos;
  if (pos <? 0) || (25 * 80 <? pos) then panic "pos under/overflow"
  else vmod snap_scroll.

Definition cgaputc (c : Z) : M S unit :=
  pos ← cursor_read;
  m ← vget currentvgamode;
  if m =? 0x03 then cga_text c pos else cga_snap c.

(** *** Registers and modes *)

Definition consolevgaplane (plane : Z) : M S unit :=
  let plane := Z.land plane 3 in
  outb VGA_GC_INDEX 4;;
  outb VGA_GC_DATA plane;;
  outb VGA_SEQ_INDEX 2;;
  outb VGA_SEQ_DATA (Z.shiftl 1 plane).

(** One loop of [writeVideoRegisters] over a bank. *)
Fixpoint write_bank (ip dp : Z) (i : Z) (l : list Z) : M S unit :=
  match l with
  | [] => mret tt
  | x :: l' => outb ip i;; outb dp x;; write_bank ip dp (i + 1) l'
  end.
Fixpoint write_ac (i : Z) (l : list Z) : M S unit :=
  match l with
  | [] => mret tt
  | x :: l' =>
      inb VGA_INSTAT_READ;; outb VGA_AC_INDEX i;; outb VGA_AC_WRITE x;; write_ac (i + 1) l'
  end.

(** The changes to the table: [regs] points past the sequencer's values. *)
Definition unlock_table (l : list Z) : list Z :=
  let crtc := 1 + Z.of_nat VGA_NUM_SEQ_REGS in
  let l := zset l (crtc + 0x03) (u8 (Z.lor (zget 0 l (crtc + 0x03)) 0x80)) in
  zset l (crtc + 0x11) (u8 (Z.land (zget 0 l (crtc + 0x11)) (Z.lnot 0x80))).

(** The parts of a table. *)
Definition tab_seq (l : list Z) : list Z := take VGA_NUM_SEQ_REGS (drop 1 l).
Definition tab_crtc (l : list Z) : list Z := take VGA_NUM_CRTC_REGS (drop 6 l).
Definition tab_gc (l : list Z) : list Z := take VGA_NUM_GC_REGS (drop 31 l).
Definition tab_ac (l : list Z) : list Z := take VGA_NUM_AC_REGS (drop 40 l).

Definition writeVideoRegisters (m : Z) : M S unit :=
  regs ← vget (get_tab m);
  outb VGA_MISC_WRITE (zget 0 regs 0);;
  write_bank VGA_SEQ_INDEX VGA_SEQ_DATA 0 (tab_seq regs);;
  outb VGA_CRTC_INDEX 0x03;;
  x ← inb VGA_CRTC_DATA;
  outb VGA_CRTC_DATA (Z.lor x 0x80);;
  outb VGA_CRTC_INDEX 0x11;;
  x ← inb VGA_CRTC_DATA;
  outb VGA_CRTC_DATA (Z.land x (Z.lnot 0x80));;
  vmod (fun v => set_tab m (unlock_table (get_tab m v)) v);;
  regs ← vget (get_tab m);
  write_bank VGA_CRTC_INDEX VGA_CRTC_DATA 0 (tab_crtc regs);;
  write_bank VGA_GC_INDEX VGA_GC_DATA 0 (tab_gc regs);;
  write_ac 0 (tab_ac regs);;
  inb VGA_INSTAT_READ;;
  outb VGA_AC_INDEX 0x20.

Definition snapshotTextRestore : M S unit :=
  for_each (fun i =>
    l ← vget registerCopy;
    crt_set (Z.of_nat i) (Z.lor (Z.land (zget 0 l (Z.of_nat i)) 0xff) 0x0700)) (seq 0 2000);;
  pos ← vget cursorPos;
  cursor_write pos.

Definition snapshotTextTake : M S unit :=
  m ← vget currentvgamode;
  if m =? 0x03 then
    for_each (fun i =>
      x ← crt_get (Z.of_nat i);
      vmod (fun v => set_snap (cursorPos v) (zset (registerCopy v) (Z.of_nat i) (u8 x)) v)) (seq 0 2000);;
    pos ← cursor_read;
    vmod (fun v => set_snap pos (registerCopy v) v)
  else mret tt.

(** The copy of the glyphs: [fontHeight] bytes for each of 256 characters. *)
Definition write_glyph (font : list Z) (h : nat) (i : nat) : M S unit :=
  for_each (fun j => vstore (0xB8000 + 32 * Z.of_nat i + Z.of_nat j)
                       (zget 0 font (Z.of_nat h * Z.of_nat i + Z.of_nat j))) (seq 0 h).

Definition writeFont (fontBuffer : list Z) (fontHeight : nat) : M S unit :=
  outb VGA_SEQ_INDEX 2;;
  seq2 ← inb VGA_SEQ_DATA;
  outb VGA_SEQ_INDEX 4;;
  seq4 ← inb VGA_SEQ_DATA;
  outb VGA_SEQ_DATA (Z.lor seq4 0x04);;
  outb VGA_GC_INDEX 4;;
  gc4 ← inb VGA_GC_DATA;
  outb VGA_GC_INDEX 5;;
  gc5 ← inb VGA_GC_DATA;
  outb VGA_GC_DATA (Z.land gc5 (Z.lnot 0x10));;
  outb VGA_GC_INDEX 6;;
  gc6 ← inb VGA_GC_DATA;
  outb VGA_GC_DATA (Z.land gc6 (Z.lnot 0x02));;
  consolevgaplane 2;;
  for_each (write_glyph fontBuffer fontHeight) (seq 0 256);;
  outb VGA_SEQ_INDEX 2;;
  outb VGA_SEQ_DATA seq2;;
  outb VGA_SEQ_INDEX 4;;
  outb VGA_SEQ_DATA seq4;;
  outb VGA_GC_INDEX 4;;
  outb VGA_GC_DATA gc4;;
  outb VGA_GC_INDEX 5;;
  outb VGA_GC_DATA gc5;;
  outb VGA_GC_INDEX 6;;
  outb VGA_GC_DATA gc6.

Definition consolevgamode (vgamode : Z) : M S Z :=
  if vgamode =? 0x03 then
    writeVideoRegisters 0x03;;
    writeFont font_8x16 16;;
    snapshotTextRestore;;
    vmod (set_mode 0x03);;
    mret 0
  else if vgamode =? 0x12 then
    snapshotTextTake;;
    writeVideoRegisters 0x12;;
    vmod (set_mode 0x12);;
    mret 0
  else if vgamode =? 0x13 then
    snapshotTextTake;;
    writeVideoRegisters 0x13;;
    vmod (set_mode 0x13);;
    mret 0
  else mret (-1).

(** *** Pixels *)

Definition consolevgabuffer : M S Z :=
  outb VGA_GC_INDEX 6;;
  plane ← inb VGA_GC_DATA;
  let plane := Z.land (Z.shiftr plane 2) 3 in
  mret (if plane <? 2 then 0xA0000 else if plane =? 2 then 0xB0000 else 0xB8000).

Definition binaryStuff (x_pos : Z) : Z :=
  let r := Z.rem x_pos 8 in
  if r =? 0 then 128 else if r =? 1 then 64 else if r =? 2 then 32 else if r =? 3 then 16
  else if r =? 4 then 8 else if r =? 5 then 4 else if r =? 6 then 2 else if r =? 7 then 1 else -1.

(** The block of [setpixel] for one plane.  [memmove] loads 8 bytes of which the
    first four are the [int]; what the other four overwrite is not modelled. *)
Definition add_bit (plane pos_x pos_y : Z) : M S unit :=
  consolevgaplane plane;;
  memoryPointer ← consolevgabuffer;
  let targetByte := memoryPointer + Z.quot (640 * pos_y + pos_x) 8 in
  b0 ← vload targetByte;
  b1 ← vload (targetByte + 1);
  b2 ← vload (targetByte + 2);
  b3 ← vload (targetByte + 3);
  vload (targetByte + 4);; vload (targetByte + 5);; vload (targetByte + 6);; vload (targetByte + 7);;
  let byteFromMemory := s32 (b0 + 2 ^ 8 * b1 + 2 ^ 16 * b2 + 2 ^ 24 * b3) in
  vstore targetByte (s32 (byteFromMemory + binaryStuff pos_x)).

Definition setpixel (pos_x pos_y VGA_COLOR : Z) : M S Z :=
  m ← vget currentvgamode;
  if m =? 0x13 then
    vstore (VGA_0x13_MEMORY + VGA_0x13_WIDTH * pos_y + pos_x) VGA_COLOR;;
    mret 0
  else if m =? 0x12 then
    let c := VGA_COLOR in
    let BIT0 := 0 <=? c - 8 in let c := if BIT0 then c - 8 else c in
    let BIT1 := 0 <=? c - 4 in let c := if BIT1 then c - 4 else c in
    let BIT2 := 0 <=? c - 2 in let c := if BIT2 then c - 2 else c in
    let BIT3 := 0 <=? c - 1 in
    (if BIT3 then add_bit 0 pos_x pos_y else mret tt);;
    (if BIT2 then add_bit 1 pos_x pos_y else mret tt);;
    (if BIT1 then add_bit 2 pos_x pos_y else mret tt);;
    (if BIT0 then add_bit 3 pos_x pos_y else mret tt);;
    mret 0
  else mret 0.

Definition zeroFillScreen13h : M S unit :=
  for_each (fun i => vstore (VGA_0x13_MEMORY + 2 * Z.of_nat i) 0;;
                     vstore (VGA_0x13_MEMORY + 2 * Z.of_nat i + 1) 0) (seq 0 (Z.to_nat 64000)).

Definition zeroFillScreen12h : M S unit :=
  for_each (fun planeNo =>
    consolevgaplane (Z.of_nat planeNo);;
    memoryPointer ← consolevgabuffer;
    for_each (fun pos_X =>
      for_each (fun pos_Y =>
        vstore (memoryPointer + 640 * Z.of_nat pos_Y + Z.of_nat pos_X) 0) (seq 0 480)) (seq 0 640))
    (seq 0 4).

End Ops.
End Vga.
