(* ===== verification/VgaProof.v ===== *)
(** * The display: proofs

    The text screen is a terminal of 24 lines of 80 cells; the mode tables reach the
    registers whatever the adapter's state; text printed in a graphics mode appears
    when the text mode comes back. *)

From stdpp Require Import base list strings.
From Stdlib Require Import ZArith Lia.
From S2P Require Import Prelude VgaData Vga.
Import Vga.

Module VgaProof.

(** ** The terminal *)

Record term : Type := { tpos : Z; tcells : Z -> Z }.

Definition COLS : Z := 80.
Definition SCREEN : Z := 24 * 80.

Definition term_advance (c : Z) (t : term) : term :=
  if c =? ch_nl then {| tpos := (tpos t / COLS + 1) * COLS; tcells := tcells t |}
  else if c =? BACKSPACE then {| tpos := Z.max 0 (tpos t - 1); tcells := tcells t |}
  else {| tpos := tpos t + 1; tcells := fupd (tpos t) (0x700 + u8 c) (tcells t) |}.

(** All lines move up by one and the last one becomes empty. *)
Definition term_scroll (t : term) : term :=
  if tpos t <? SCREEN then t
  else {| tpos := tpos t - COLS;
          tcells := fun i => if i <? SCREEN - COLS then tcells t (i + COLS)
                             else if i <? SCREEN then 0 else tcells t i |}.

Definition term_putc (c : Z) (t : term) : term :=
  let t := term_scroll (term_advance c t) in
  {| tpos := tpos t; tcells := fupd (tpos t) 0x720 (tcells t) |}.

Definition term_ok (t : term) : Prop := 0 <= tpos t < SCREEN.

Lemma term_putc_ok c t : term_ok t -> term_ok (term_putc c t).
Proof.
  unfold term_ok, term_putc, term_advance, term_scroll, SCREEN, COLS. simpl. intros H.
  repeat case_bool; zbool; simpl in *; Z.to_euclidean_division_equations; lia.
Qed.

(** ** Text memory *)

(** The registers that decide how the text memory is reached. *)
Definition text_cfg (v : vga) : Prop :=
  vreg v SEQ 2 = 3 /\ vreg v SEQ 4 = 2 /\ vreg v GC 1 = 0 /\ vreg v GC 3 = 0 /\
  vreg v GC 4 = 0 /\ vreg v GC 5 = 0x10 /\ vreg v GC 6 = 0x0E /\ vreg v GC 8 = 0xFF.

(** The byte at offset [o] of the text memory, and the cell [i] of the screen. *)
Definition tbyte (v : vga) (o : Z) : Z := vplane v (o mod 2) (o - o mod 2).
Definition tcell (v : vga) (i : Z) : Z := tbyte v (2 * i) + 256 * tbyte v (2 * i + 1).

Definition cursor_is (v : vga) (pos : Z) : Prop :=
  vreg v CRTC 14 = pos / 256 /\ vreg v CRTC 15 = pos mod 256.

Lemma text_cfg_plain v : text_cfg v -> plain v.
Proof. intros (?&?&?&?&?&E&?&?). unfold plain. rewrite E. by split_and!. Qed.

Lemma text_cfg_reg v v' : vreg v' = vreg v -> text_cfg v -> text_cfg v'.
Proof. unfold text_cfg. by intros ->. Qed.

Lemma text_window v o : text_cfg v -> 0 <= o < 0x8000 ->
  in_window v (VGA_0x03_MEMORY + o) = true /\ VGA_0x03_MEMORY + o - win_base v = o /\
  plane_addr v o = o - o mod 2.
Proof.
  intros (_&E4&_&_&_&_&E6&_) Ho. unfold in_window, win_base, win_size, plane_addr, chain4, oddeven.
  rewrite E4, E6. change (Z.land (Z.shiftr 14 2) 3) with 3. simpl. unfold VGA_0x03_MEMORY.
  split_and!; [|lia|done]. apply andb_true_iff. lia.
Qed.

Lemma text_read v o : text_cfg v -> 0 <= o < 0x8000 -> vga_read (VGA_0x03_MEMORY + o) v = tbyte v o.
Proof.
  intros Hc Ho. unfold vga_read, tbyte. destruct (text_window v o Hc Ho) as (_ & -> & ->).
  destruct Hc as (_&E4&_&_&E0&E5&_). unfold read_plane, chain4. rewrite E4, E5, E0. simpl. done.
Qed.

Lemma text_write v o x o' : text_cfg v -> 0 <= o < 0x8000 ->
  vreg (vga_write (VGA_0x03_MEMORY + o) x v) = vreg v /\
  tbyte (vga_write (VGA_0x03_MEMORY + o) x v) o' = if o' =? o then x else tbyte v o'.
Proof.
  intros Hc Ho. unfold vga_write. destruct (text_window v o Hc Ho) as (-> & -> & ->).
  destruct Hc as (E2&E4&_). split; [done|]. unfold tbyte, writes_plane, chain4, oddeven. simpl.
  rewrite E2, E4. simpl.
  pose proof (Z.mod_pos_bound o' 2 ltac:(lia)) as H1. pose proof (Z.mod_pos_bound o 2 ltac:(lia)) as H2.
  assert (Hb : Z.testbit 3 (o' mod 2) = true).
  { assert (o' mod 2 = 0 \/ o' mod 2 = 1) as [-> | ->] by lia; done. }
  rewrite Hb, Z.mod_mod by lia.
  destruct (o' =? o) eqn:E; zbool.
  - subst. rewrite !Z.eqb_refl. replace ((0 <=? o mod 2) && (o mod 2 <? 4)) with true; [done|].
    symmetry. apply andb_true_iff. lia.
  - replace ((0 <=? o' mod 2) && (o' mod 2 <? 4) && (true && (o' mod 2 =? o mod 2)) && (o' - o' mod 2 =? o - o mod 2))
      with false; [done|]. symmetry. rewrite !andb_false_iff. lia.
Qed.

Section Progs.
Context {S D : Type} {HLd : Lens S D} {HLv : Lens S vst} {HHw : VgaHw D} {HHl : VgaLaws D}.
Context {HDok : LensOk S D} {HVok : LensOk S vst} {Hsep : LensSep S D vst}.

Definition gv (s : S) : vga := vv (lget s).
Definition sv (s : S) : vst := lget s.

Ltac vlens := unfold gv, sv in *; repeat first [rewrite lget_lset | rewrite lsep_l | rewrite lsep_r].

(** *** Primitive accesses *)

Lemma wp_outb s p x (Q : unit -> S -> Prop) :
  (forall s', gv s' = vga_out p (u8 x) (gv s) -> sv s' = sv s -> Q tt s') -> wp (outb p x) s Q.
Proof. intros HQ. apply wp_zoom, hw_outb_law. intros d' Hd. apply HQ; by vlens. Qed.

Lemma wp_inb_data s p b (Q : Z -> S -> Prop) :
  data_port p = Some b ->
  (forall s', gv s' = gv s -> sv s' = sv s -> Q (vreg (gv s) b (vidx (gv s) b)) s') -> wp (inb p) s Q.
Proof. intros Hp HQ. apply wp_zoom. eapply hw_inb_data_law; [done|]. intros d' Hd. apply HQ; by vlens. Qed.

Lemma wp_inb_status s (Q : Z -> S -> Prop) :
  (forall x s', gv s' = set_vff true (gv s) -> sv s' = sv s -> Q x s') -> wp (inb VGA_INSTAT_READ) s Q.
Proof. intros HQ. apply wp_zoom, hw_inb_status_law. intros x d' Hd. apply HQ; by vlens. Qed.

Lemma wp_inb_other s p (Q : Z -> S -> Prop) :
  data_port p = None -> p <> VGA_INSTAT_READ ->
  (forall x s', 0 <= x < 256 -> gv s' = gv s -> sv s' = sv s -> Q x s') -> wp (inb p) s Q.
Proof. intros H1 H2 HQ. apply wp_zoom. apply hw_inb_other_law; [done | done |]. intros x d' Hx Hd. apply HQ; [done | by vlens | by vlens]. Qed.

Lemma wp_vload s a (Q : Z -> S -> Prop) :
  plain (gv s) -> in_window (gv s) a = true ->
  (forall s', gv s' = gv s -> sv s' = sv s -> Q (vga_read a (gv s)) s') -> wp (vload a) s Q.
Proof. intros Hp Hw HQ. apply wp_zoom. apply hw_load_law; [done | done |]. intros d' Hd. apply HQ; by vlens. Qed.

Lemma wp_vstore s a x (Q : unit -> S -> Prop) :
  plain (gv s) -> (forall s', gv s' = vga_write a (u8 x) (gv s) -> sv s' = sv s -> Q tt s') ->
  wp (vstore a x) s Q.
Proof. intros Hp HQ. apply wp_zoom. apply hw_store_law; [done|]. intros d' Hd. apply HQ; by vlens. Qed.

Lemma wp_vmod s f (Q : unit -> S -> Prop) :
  (forall s', gv s' = gv s -> sv s' = f (sv s) -> Q tt s') -> wp (vmod f) s Q.
Proof. intros HQ. unfold vmod. apply wp_lmod. apply HQ; by vlens. Qed.

(** *** The cursor *)

Lemma wp_cursor_read s pos (Q : Z -> S -> Prop) :
  cursor_is (gv s) pos -> 0 <= pos < 65536 ->
  (forall s', vreg (gv s') = vreg (gv s) -> vplane (gv s') = vplane (gv s) -> sv s' = sv s -> Q pos s') ->
  wp cursor_read s Q.
Proof.
  intros [H1 H2] Hpos HQ. unfold cursor_read, CRTPORT. wp_prim.
  apply wp_outb. intros s1 E1 S1. wp_prim. eapply wp_inb_data; [done|]. intros s2 E2 S2. wp_prim.
  apply wp_outb. intros s3 E3 S3. wp_prim. eapply wp_inb_data; [done|]. intros s4 E4 S4. wp_prim.
  assert (Hv : Z.lor (Z.shiftl (vreg (gv s1) CRTC (vidx (gv s1) CRTC)) 8) (vreg (gv s3) CRTC (vidx (gv s3) CRTC)) = pos).
  { rewrite E3, E2, E1. simpl. change (u8 14) with 14. change (u8 15) with 15. rewrite H1, H2.
    rewrite lor_shiftl_add; [|lia|apply Z.mod_pos_bound; lia]. Z.to_euclidean_division_equations. lia. }
  rewrite Hv. apply HQ; rewrite ?E4, ?E3, ?E2, ?E1; simpl; [done | done | congruence].
Qed.

(** Registers other than the cursor's. *)
Definition but_cursor (v v' : vga) : Prop :=
  forall b i, b <> CRTC \/ (i <> 14 /\ i <> 15) -> vreg v' b i = vreg v b i.

Lemma but_cursor_text v v' : but_cursor v v' -> text_cfg v -> text_cfg v'.
Proof. intros H. unfold text_cfg. rewrite !H by (by left). done. Qed.

Lemma wp_cursor_write s pos (Q : unit -> S -> Prop) :
  0 <= pos < 65536 ->
  (forall s', cursor_is (gv s') pos -> but_cursor (gv s) (gv s') -> vplane (gv s') = vplane (gv s) ->
     sv s' = sv s -> Q tt s') -> wp (cursor_write pos) s Q.
Proof.
  intros Hpos HQ. unfold cursor_write, CRTPORT. wp_prim.
  apply wp_outb. intros s1 E1 S1. wp_prim. apply wp_outb. intros s2 E2 S2. wp_prim.
  apply wp_outb. intros s3 E3 S3. apply wp_outb. intros s4 E4 S4.
  assert (E : gv s4 = set_vreg CRTC 15 (u8 pos) (set_vidx CRTC 15
    (set_vreg CRTC 14 (u8 (Z.shiftr pos 8)) (set_vidx CRTC 14 (gv s))))).
  { rewrite E4, E3, E2, E1. done. }
  apply HQ; [| | by rewrite E | congruence]; rewrite E.
  - split; simpl; [|done]. rewrite Z.shiftr_div_pow2 by lia. apply u8_small.
    Z.to_euclidean_division_equations. lia.
  - intros b i Hbi. simpl. case_decide; [|done]. destruct Hbi as [?|[H1 H2]]; [done|].
    by rewrite (proj2 (Z.eqb_neq _ _) H1), (proj2 (Z.eqb_neq _ _) H2).
Qed.

(** *** Text memory accesses *)

(** [s'] differs from [s] in the text memory only, which is now [f]. *)
Definition text_step (s s' : S) (f : Z -> Z) : Prop :=
  vreg (gv s') = vreg (gv s) /\ sv s' = sv s /\ forall o, tbyte (gv s') o = f o.

Lemma wp_text_load s o (Q : Z -> S -> Prop) :
  text_cfg (gv s) -> 0 <= o < 0x8000 ->
  (forall s', text_step s s' (tbyte (gv s)) -> Q (tbyte (gv s) o) s') ->
  wp (vload (VGA_0x03_MEMORY + o)) s Q.
Proof.
  intros Hc Ho HQ. apply wp_vload; [by apply text_cfg_plain | by apply text_window|].
  intros s' E ES. rewrite text_read by done. apply HQ. unfold text_step. by rewrite E.
Qed.

Lemma wp_text_store s o x (Q : unit -> S -> Prop) :
  text_cfg (gv s) -> 0 <= o < 0x8000 ->
  (forall s', text_step s s' (fun o' => if o' =? o then u8 x else tbyte (gv s) o') -> Q tt s') ->
  wp (vstore (VGA_0x03_MEMORY + o) x) s Q.
Proof.
  intros Hc Ho HQ. apply wp_vstore; [by apply text_cfg_plain|]. intros s' E ES. apply HQ.
  split_and!; [rewrite E; by apply text_write | done |]. intros o'. rewrite E. by apply text_write.
Qed.

Lemma text_step_cfg s s' f : text_step s s' f -> text_cfg (gv s) -> text_cfg (gv s').
Proof. intros (H & _). by apply text_cfg_reg. Qed.

Lemma text_step_trans s s1 s2 f g h : text_step s s1 f -> text_step s1 s2 g ->
  (forall o, g o = h o) -> text_step s s2 h.
Proof.
  intros (A1 & A2 & _) (B1 & B2 & B3) Hgh. split_and!; [congruence | congruence |].
  intros o. by rewrite B3.
Qed.

(** Storing cell [i]. *)
Definition put_cell (i x : Z) (f : Z -> Z) (o : Z) : Z :=
  if o =? 2 * i + 1 then u16 x / 256 else if o =? 2 * i then u8 x else f o.

Lemma wp_crt_set s i x (Q : unit -> S -> Prop) :
  text_cfg (gv s) -> 0 <= i < 0x4000 ->
  (forall s', text_step s s' (put_cell i x (tbyte (gv s))) -> Q tt s') -> wp (crt_set i x) s Q.
Proof.
  intros Hc Hi HQ. unfold crt_set. wp_prim. apply wp_text_store; [done | lia |]. intros s1 H1.
  rewrite <- Z.add_assoc. apply wp_text_store; [by eapply text_step_cfg | lia |]. intros s2 H2. apply HQ.
  eapply text_step_trans; [exact H1 | exact H2 |]. intros o. cbv beta. unfold put_cell.
  destruct H1 as (_ & _ & ->). repeat case_bool; zbool; try done; zwrap.
Qed.

Lemma wp_crt_get s i (Q : Z -> S -> Prop) :
  text_cfg (gv s) -> 0 <= i < 0x4000 ->
  (forall s', gv s' = gv s -> sv s' = sv s -> Q (tcell (gv s) i) s') -> wp (crt_get i) s Q.
Proof.
  intros Hc Hi HQ. unfold crt_get. wp_prim.
  apply wp_vload; [by apply text_cfg_plain | apply text_window; [done | lia] |]. intros s1 E1 S1. wp_prim.
  rewrite <- Z.add_assoc. apply wp_vload; rewrite ?E1; [by apply text_cfg_plain | apply text_window; [done | lia] |].
  intros s2 E2 S2. wp_prim. rewrite !text_read by (done || lia). apply HQ; congruence.
Qed.

(** The two loops of scrolling. *)
Lemma wp_vmemmove s n (Q : unit -> S -> Prop) :
  text_cfg (gv s) -> (forall o, 0 <= tbyte (gv s) o < 256) -> 0 <= n -> n + 160 <= 0x8000 ->
  (forall s', text_step s s' (fun o => if (0 <=? o) && (o <? n) then tbyte (gv s) (o + 160) else tbyte (gv s) o) -> Q tt s') ->
  wp (vmemmove VGA_0x03_MEMORY (VGA_0x03_MEMORY + 2 * 80) n) s Q.
Proof.
  intros Hc Hb Hn Hmax HQ. unfold vmemmove.
  apply (wp_for_seq _ (fun j s' => text_step s s' (fun o =>
    if (0 <=? o) && (o <? Z.of_nat j) then tbyte (gv s) (o + 160) else tbyte (gv s) o))).
  - split_and!; try done. intros o. case_bool; [zbool; lia | done].
  - intros j s1 Hj H1. unfold vmove1. wp_prim. rewrite <- Z.add_assoc.
    apply wp_text_load; [by eapply text_step_cfg | lia |]. intros s2 H2.
    apply wp_text_store; [by eapply text_step_cfg; [|eapply text_step_cfg] | lia |]. intros s3 H3.
    eapply text_step_trans; [exact H1 | eapply text_step_trans; [exact H2 | exact H3 | done] |].
    destruct H1 as (_ & _ & A1), H2 as (_ & _ & A2). intros o. cbv beta. rewrite A2, !A1.
    replace ((0 <=? 2 * 80 + Z.of_nat j) && (2 * 80 + Z.of_nat j <? Z.of_nat j)) with false
      by (symmetry; apply andb_false_iff; lia).
    rewrite u8_small by done.
    repeat case_bool; zbool; try lia; try done; f_equal; lia.
  - intros s1 H1. apply HQ. by rewrite Nat.add_0_l, Z2Nat.id in H1.
Qed.

Lemma wp_vmemset s p n (Q : unit -> S -> Prop) :
  text_cfg (gv s) -> 0 <= p -> 0 <= n -> p + n <= 0x8000 ->
  (forall s', text_step s s' (fun o => if (p <=? o) && (o <? p + n) then 0 else tbyte (gv s) o) -> Q tt s') ->
  wp (vmemset (VGA_0x03_MEMORY + p) 0 n) s Q.
Proof.
  intros Hc Hp Hn Hmax HQ. unfold vmemset.
  apply (wp_for_seq _ (fun j s' => text_step s s' (fun o =>
    if (p <=? o) && (o <? p + Z.of_nat j) then 0 else tbyte (gv s) o))).
  - split_and!; try done. intros o. case_bool; [zbool; lia | done].
  - intros j s1 Hj H1. rewrite <- Z.add_assoc.
    apply wp_text_store; [by eapply text_step_cfg | lia |]. intros s2 H2.
    eapply text_step_trans; [exact H1 | exact H2 |].
    destruct H1 as (_ & _ & A1). intros o. cbv beta. rewrite !A1. change (u8 0) with 0.
    repeat case_bool; zbool; try lia; try done.
  - intros s1 H1. apply HQ. by rewrite Nat.add_0_l, Z2Nat.id in H1.
Qed.

(** *** The text screen refines the terminal *)

Definition CELLS : Z := 25 * 80.

(** The adapter shows the cells [f]. *)
Definition shows (v : vga) (f : Z -> Z) : Prop :=
  text_cfg v /\ (forall o, 0 <= tbyte v o < 256) /\ forall i, 0 <= i < CELLS -> tcell v i = f i.

Lemma wp_show_cell s f i x (Q : unit -> S -> Prop) :
  shows (gv s) f -> 0 <= i < CELLS -> 0 <= x < 2 ^ 16 ->
  (forall s', shows (gv s') (fupd i x f) -> vreg (gv s') = vreg (gv s) -> sv s' = sv s -> Q tt s') ->
  wp (crt_set i x) s Q.
Proof.
  unfold CELLS. intros (Hc & Hb & Hf) Hi Hx HQ. apply wp_crt_set; [done | lia |]. intros s' Hs.
  pose proof Hs as (H1 & H2 & H3). apply HQ; [split_and!; [by eapply text_step_cfg | |] | done | done].
  - intros o. rewrite H3. unfold put_cell. repeat case_bool; [zwrap | apply u8_range | done].
  - intros j Hj. unfold tcell, fupd. rewrite !H3. unfold put_cell, CELLS in *.
    replace (2 * j =? 2 * i + 1) with false by lia. replace (2 * j + 1 =? 2 * i) with false by lia.
    case_decide as E; [subst|].
    + rewrite !Z.eqb_refl. zwrap.
    + replace (2 * j =? 2 * i) with false by lia. replace (2 * j + 1 =? 2 * i + 1) with false by lia.
      by apply Hf.
Qed.

Lemma shows_ext v f g : shows v f -> (forall i, 0 <= i < CELLS -> f i = g i) -> shows v g.
Proof. intros (H1 & H2 & H3) Hfg. split_and!; [done | done |]. intros i Hi. by rewrite H3, Hfg. Qed.

Lemma wp_scroll s f pos (Q : Z -> S -> Prop) :
  shows (gv s) f -> SCREEN <= pos <= SCREEN ->
  (forall s', shows (gv s') (tcells (term_scroll {| tpos := pos; tcells := f |})) ->
     vreg (gv s') = vreg (gv s) -> sv s' = sv s -> Q (pos - 80) s') ->
  wp (vmemmove VGA_0x03_MEMORY (VGA_0x03_MEMORY + 2 * 80) (2 * 23 * 80);;
      (let pos := pos - 80 in
       vmemset (VGA_0x03_MEMORY + 2 * pos) 0 (2 * (24 * 80 - pos));; mret pos)) s Q.
Proof.
  unfold SCREEN. intros (Hc & Hb & Hf) Hpos HQ. wp_prim. apply wp_vmemmove; [done | done | lia | lia |].
  intros s1 H1. wp_prim. apply wp_vmemset; [by eapply text_step_cfg | lia | lia | lia |].
  intros s2 H2. wp_prim. pose proof H1 as (A1 & A2 & A3). pose proof H2 as (B1 & B2 & B3).
  apply HQ; [|congruence|congruence]. unfold term_scroll, SCREEN, COLS. simpl.
  replace (pos <? 24 * 80) with false by lia. simpl. change (24 * 80 - 80) with 1840. change (24 * 80) with 1920.
  split_and!; [by eapply text_step_cfg; [|eapply text_step_cfg] | |].
  - intros o. rewrite B3, A3. repeat case_bool; try lia; apply Hb.
  - unfold CELLS. intros i Hi. unfold tcell. rewrite !B3, !A3.
    replace pos with 1920 by lia. change (2 * (1920 - 80)) with 3680.
    change (3680 + 2 * (24 * 80 - (1920 - 80))) with 3840. change (2 * 23 * 80) with 3680.
    destruct (i <? 1840) eqn:E1; zbool; [|destruct (i <? 1920) eqn:E2; zbool].
    + assert (forall o, 2 * i <= o < 2 * i + 2 -> (3680 <=? o) && (o <? 3840) = false /\ (0 <=? o) && (o <? 3680) = true)
        as Hr by (intros o Ho; rewrite andb_false_iff, andb_true_iff; lia).
      destruct (Hr (2 * i) ltac:(lia)) as [-> ->], (Hr (2 * i + 1) ltac:(lia)) as [-> ->].
      rewrite <- Hf by (unfold CELLS; lia). unfold tcell.
      replace (2 * (i + 80)) with (2 * i + 160) by lia. by replace (2 * i + 160 + 1) with (2 * i + 1 + 160) by lia.
    + replace ((3680 <=? 2 * i) && (2 * i <? 3840)) with true by (symmetry; apply andb_true_iff; lia).
      replace ((3680 <=? 2 * i + 1) && (2 * i + 1 <? 3840)) with true by (symmetry; apply andb_true_iff; lia). done.
    + assert (forall o, 2 * i <= o < 2 * i + 2 -> (3680 <=? o) && (o <? 3840) = false /\ (0 <=? o) && (o <? 3680) = false)
        as Hr by (intros o Ho; rewrite !andb_false_iff; lia).
      destruct (Hr (2 * i) ltac:(lia)) as [-> ->], (Hr (2 * i + 1) ltac:(lia)) as [-> ->].
      by apply Hf.
Qed.

Lemma attr_cell c : Z.lor (Z.land c 0xff) 0x0700 = 0x700 + u8 c.
Proof.
  rewrite Z.lor_comm, land_ff. change 0x0700 with (Z.shiftl 7 8). rewrite lor_shiftl_add; [done | lia | apply u8_range].
Qed.

Lemma wp_advance s c t (Q : Z -> S -> Prop) :
  shows (gv s) (tcells t) -> term_ok t ->
  (forall s', shows (gv s') (tcells (term_advance c t)) -> vreg (gv s') = vreg (gv s) -> sv s' = sv s ->
     Q (tpos (term_advance c t)) s') ->
  wp (if c =? ch_nl then mret (tpos t + (80 - Z.rem (tpos t) 80))
      else if c =? BACKSPACE then mret (if 0 <? tpos t then tpos t - 1 else tpos t)
      else crt_set (tpos t) (Z.lor (Z.land c 0xff) 0x0700);; mret (tpos t + 1)) s Q.
Proof.
  unfold term_ok, term_advance, COLS. intros Hsh Hok HQ. destruct (c =? ch_nl).
  - wp_prim. simpl in HQ. rewrite Z.rem_mod_nonneg by lia.
    replace (tpos t + (80 - tpos t mod 80)) with ((tpos t / 80 + 1) * 80)
      by (Z.to_euclidean_division_equations; lia). by apply HQ.
  - destruct (c =? BACKSPACE).
    + wp_prim. simpl in HQ. replace (if 0 <? tpos t then tpos t - 1 else tpos t) with (Z.max 0 (tpos t - 1))
        by (case_bool; zbool; lia). by apply HQ.
    + wp_prim. rewrite attr_cell. pose proof (u8_range c).
      apply (wp_show_cell _ (tcells t)); [done | unfold CELLS, SCREEN in *; lia | lia |].
      intros s1 ? ? ?. wp_prim. by apply HQ.
Qed.

Lemma wp_maybe_scroll s t (Q : Z -> S -> Prop) :
  shows (gv s) (tcells t) -> 0 <= tpos t <= SCREEN ->
  (forall s', shows (gv s') (tcells (term_scroll t)) -> vreg (gv s') = vreg (gv s) -> sv s' = sv s ->
     Q (tpos (term_scroll t)) s') ->
  wp (if 24 <=? Z.quot (tpos t) 80 then
        vmemmove VGA_0x03_MEMORY (VGA_0x03_MEMORY + 2 * 80) (2 * 23 * 80);;
        (let pos := tpos t - 80 in
         vmemset (VGA_0x03_MEMORY + 2 * pos) 0 (2 * (24 * 80 - pos));; mret pos)
      else mret (tpos t)) s Q.
Proof.
  unfold SCREEN. intros Hsh Hpos HQ. destruct (24 <=? Z.quot (tpos t) 80) eqn:E; zbool.
  - assert (1920 <= tpos t) by (Z.to_euclidean_division_equations; lia).
    apply (wp_scroll _ (tcells t)); [done | unfold SCREEN; lia |]. intros s2 Hsh2 Hr2 Hv2.
    replace (tpos t - 80) with (tpos (term_scroll t)); [apply HQ; [by destruct t | done | done]|].
    unfold term_scroll, SCREEN, COLS. by replace (tpos t <? 24 * 80) with false by lia.
  - assert (tpos t < 1920) by (Z.to_euclidean_division_equations; lia).
    assert (term_scroll t = t) as Et by (unfold term_scroll, SCREEN; by replace (tpos t <? 24 * 80) with true by lia).
    wp_prim. rewrite Et in HQ. by apply HQ.
Qed.

Lemma advance_range c t : term_ok t -> 0 <= tpos (term_advance c t) <= SCREEN.
Proof.
  unfold term_ok, term_advance, SCREEN, COLS. intros.
  repeat case_bool; simpl; Z.to_euclidean_division_equations; lia.
Qed.

Lemma wp_cga_text s c t (Q : unit -> S -> Prop) :
  shows (gv s) (tcells t) -> term_ok t ->
  (forall s', shows (gv s') (tcells (term_putc c t)) -> cursor_is (gv s') (tpos (term_putc c t)) ->
     but_cursor (gv s) (gv s') -> sv s' = sv s -> Q tt s') ->
  wp (cga_text c (tpos t)) s Q.
Proof.
  intros Hsh Hok HQ. unfold cga_text. wp_prim. apply wp_advance; [done | done |].
  intros s1 Hsh1 Hr1 Hv1. pose proof (advance_range c t Hok) as H1.
  replace ((tpos (term_advance c t) <? 0) || (25 * 80 <? tpos (term_advance c t))) with false
    by (symmetry; apply orb_false_iff; unfold SCREEN in *; lia).
  wp_prim. apply wp_maybe_scroll; [done | done |]. intros s2 Hsh2 Hr2 Hv2. wp_prim.
  pose proof (term_putc_ok c t Hok) as H2. unfold term_ok in H2. unfold term_putc in H2, HQ.
  set (t2 := term_scroll (term_advance c t)) in *. simpl in H2, HQ.
  apply wp_cursor_write; [unfold SCREEN in *; lia|]. intros s3 Hc3 Hb3 Hpl3 Hv3.
  apply (wp_show_cell _ (tcells t2)); [|unfold CELLS, SCREEN in *; lia | done |].
  { destruct Hsh2 as (A1 & A2 & A3). unfold shows, tcell, tbyte in *. rewrite Hpl3.
    split_and!; [by eapply but_cursor_text | done | done]. }
  intros s4 Hsh4 Hr4 Hv4. apply HQ; [done | unfold cursor_is; by rewrite Hr4 | | congruence].
  intros b i Hbi. rewrite Hr4, Hb3, Hr2, Hr1 by done. done.
Qed.

Lemma wp_cgaputc_text s c t (Q : unit -> S -> Prop) :
  currentvgamode (sv s) = 0x03 -> shows (gv s) (tcells t) -> cursor_is (gv s) (tpos t) -> term_ok t ->
  (forall s', shows (gv s') (tcells (term_putc c t)) -> cursor_is (gv s') (tpos (term_putc c t)) ->
     but_cursor (gv s) (gv s') -> sv s' = sv s -> Q tt s') ->
  wp (cgaputc c) s Q.
Proof.
  intros Hm Hsh Hcur Hok HQ. pose proof Hok as Hok'. unfold term_ok, SCREEN in Hok'.
  unfold cgaputc, vget. wp_prim. eapply (wp_cursor_read _ (tpos t)); [done | lia |].
  intros s1 Hr1 Hp1 Hv1. wp_step. fold (sv s1). rewrite Hv1, Hm. apply wp_cga_text; [|done|].
  { destruct Hsh as (A1 & A2 & A3). unfold shows, tcell, tbyte in *. rewrite Hp1.
    split_and!; [by eapply text_cfg_reg | done | done]. }
  intros s2 ? ? Hb2 Hv2. apply HQ; [done | done | | congruence].
  intros b i Hbi. rewrite Hb2, Hr1 by done. done.
Qed.

(** In text mode [cgaputc] is the terminal of 24 lines of 80 cells.  With the
    cursor on the screen it never panics, it writes the character, starts a new line
    or steps back, scrolls when the last line is full, leaves a blank at the cursor
    and the cursor on the screen; lines move up whole and the new line is empty. *)
Theorem cgaputc_terminal (s : S) c t :
  currentvgamode (sv s) = 0x03 -> shows (gv s) (tcells t) -> cursor_is (gv s) (tpos t) -> term_ok t ->
  exists s', cgaputc c s = Ret tt s' /\ shows (gv s') (tcells (term_putc c t)) /\
    cursor_is (gv s') (tpos (term_putc c t)) /\ term_ok (term_putc c t) /\ sv s' = sv s /\
    forall b i, b <> CRTC \/ (i <> 14 /\ i <> 15) -> vreg (gv s') b i = vreg (gv s) b i.
Proof.
  intros Hm Hsh Hcur Hok.
  assert (wp (cgaputc c) s (fun _ s' => shows (gv s') (tcells (term_putc c t)) /\
    cursor_is (gv s') (tpos (term_putc c t)) /\ sv s' = sv s /\ but_cursor (gv s) (gv s')))
    as ([] & s' & E & H1 & H2 & H3 & H4).
  { eapply wp_cgaputc_text; [done..|]. intros s' ? ? ? ?. by split_and!. }
  exists s'. split_and!; try done. by apply term_putc_ok.
Qed.

(** *** Loading a register table *)

Definition in_bank (c b : bank) (i n k : Z) : bool := bool_decide (c = b) && (i <=? k) && (k <? i + n).

Lemma in_bank_true c b i n k : in_bank c b i n k = true <-> c = b /\ i <= k < i + n.
Proof. unfold in_bank. rewrite !andb_true_iff, bool_decide_eq_true, Z.leb_le, Z.ltb_lt. tauto. Qed.

(** The registers after a run of values [l] has been stored from register [i] on. *)
Definition loaded (b : bank) (i : Z) (l : list Z) (v v' : vga) : Prop :=
  vplane v' = vplane v /\
  forall c k, vreg v' c k = if in_bank c b i (zlen l) k then zget 0 l (k - i) else vreg v c k.

Lemma loaded_cons b i x l v v1 v' :
  vplane v1 = vplane v ->
  (forall c k, vreg v1 c k = if decide (c = b) then if k =? i then x else vreg v c k else vreg v c k) ->
  loaded b (i + 1) l v1 v' -> loaded b i (x :: l) v v'.
Proof.
  intros Hp H1 [Hp' H']. split; [congruence|]. intros c k. rewrite H', H1. pose proof (zlen_nonneg l).
  rewrite zlen_cons. destruct (in_bank c b i (zlen l + 1) k) eqn:E.
  - apply in_bank_true in E as [-> Hk]. rewrite decide_True by done.
    destruct (decide (k = i)) as [->|Hne].
    + rewrite Z.eqb_refl. replace (in_bank b b (i + 1) (zlen l) i) with false.
      * by rewrite Z.sub_diag.
      * symmetry. apply not_true_iff_false. rewrite in_bank_true. lia.
    + replace (in_bank b b (i + 1) (zlen l) k) with true by (symmetry; apply in_bank_true; split; [done | lia]).
      replace (k - i) with (k - (i + 1) + 1) by lia. symmetry. apply zget_cons_S. lia.
  - apply not_true_iff_false in E. rewrite in_bank_true in E.
    replace (in_bank c b (i + 1) (zlen l) k) with false.
    + case_decide; [|done]. subst. replace (k =? i) with false; [done|]. symmetry. apply Z.eqb_neq.
      intros ->. apply E. split; [done | lia].
    + symmetry. apply not_true_iff_false. rewrite in_bank_true. intros [-> Hk]. apply E. split; [done | lia].
Qed.

(** Storing in bank [b] is possible: it is not the CRT controller, or that is
    unlocked and stays so. *)
Definition storable (b : bank) (i : Z) (l : list Z) (v : vga) : Prop :=
  b <> AC /\ (b = CRTC -> Z.testbit (vreg v CRTC 0x11) 7 = false /\
                          Z.testbit (zget 0 l (0x11 - i)) 7 = false).

Definition ports_of (b : bank) (ip dp : Z) : Prop :=
  index_port ip = Some b /\ index_port dp = None /\ data_port dp = Some b.

Lemma out_index b ip dp x v : ports_of b ip dp -> vga_out ip x v = set_vidx b x v.
Proof. intros (H & _). unfold vga_out. by rewrite H. Qed.
Lemma out_data b ip dp x v : ports_of b ip dp -> vga_out dp x v = vga_store b x v.
Proof. intros (_ & H1 & H2). unfold vga_out. by rewrite H1, H2. Qed.

Lemma storable_next b i x l v : storable b i (x :: l) v -> 0 <= i ->
  let v1 := vga_store b x (set_vidx b i v) in
  v1 = set_vreg b i x (set_vidx b i v) /\ storable b (i + 1) l v1.
Proof.
  intros [Hac Hs] Hi. assert (E : vga_store b x (set_vidx b i v) = set_vreg b i x (set_vidx b i v)).
  { destruct b; try done. unfold vga_store, crtc_locked. change (vreg (set_vidx CRTC i v)) with (vreg v).
    destruct (Hs eq_refl) as [-> _]. rewrite andb_false_r. f_equal. }
  split; [done|]. split; [done|]. intros ->. destruct (Hs eq_refl) as [H1 H2]. rewrite E.
  unfold set_vreg, set_vidx. cbn [vreg]. rewrite decide_True by done. destruct (17 =? i) eqn:Ei; zbool.
  - subst. split; [by rewrite Z.sub_diag in H2|]. rewrite zget_out by lia. done.
  - split; [done|]. destruct (decide (17 < i)); [by rewrite zget_out by lia|].
    replace (17 - i) with (17 - (i + 1) + 1) in H2 by lia. by rewrite zget_cons_S in H2 by lia.
Qed.

Lemma wp_write_bank b ip dp l : forall i s (Q : unit -> S -> Prop),
  ports_of b ip dp -> storable b i l (gv s) -> 0 <= i -> i + zlen l <= 256 ->
  Forall (fun x => 0 <= x < 256) l ->
  (forall s', loaded b i l (gv s) (gv s') -> sv s' = sv s -> Q tt s') ->
  wp (write_bank ip dp i l) s Q.
Proof.
  induction l as [|x l IH]; intros i s Q Hp Hs Hi Hn Hb HQ; cbn [write_bank].
  - wp_prim. apply HQ; [|done]. split; [done|]. intros c k. replace (in_bank c b i (zlen []) k) with false; [done|].
    symmetry. apply not_true_iff_false. rewrite in_bank_true. unfold zlen. simpl. lia.
  - rewrite zlen_cons in Hn. pose proof (zlen_nonneg l). apply Forall_cons in Hb as [Hx Hb].
    destruct (storable_next _ _ _ _ _ Hs Hi) as [E Hs'].
    wp_prim. apply wp_outb. intros s1 E1 S1. rewrite (out_index b ip dp), u8_small in E1 by (done || lia).
    wp_prim. apply wp_outb. intros s2 E2 S2. rewrite (out_data b ip dp), u8_small, E1, E in E2 by (done || lia).
    rewrite E in Hs'. apply IH; [done | by rewrite E2 | lia | lia | done |].
    intros s3 H3 S3. apply HQ; [|congruence]. rewrite E2 in H3.
    eapply loaded_cons; [| |exact H3]; done.
Qed.

Lemma wp_write_ac l : forall i s (Q : unit -> S -> Prop),
  0 <= i -> i + zlen l <= 32 -> Forall (fun x => 0 <= x < 256) l ->
  (forall s', loaded AC i l (gv s) (gv s') -> sv s' = sv s -> Q tt s') ->
  wp (write_ac i l) s Q.
Proof.
  induction l as [|x l IH]; intros i s Q Hi Hn Hb HQ; cbn [write_ac].
  - wp_prim. apply HQ; [|done]. split; [done|]. intros c k. replace (in_bank c AC i (zlen []) k) with false; [done|].
    symmetry. apply not_true_iff_false. rewrite in_bank_true. unfold zlen. simpl. lia.
  - rewrite zlen_cons in Hn. pose proof (zlen_nonneg l). apply Forall_cons in Hb as [Hx Hb].
    wp_prim. apply wp_inb_status. intros y s0 E0 S0.
    wp_prim. apply wp_outb. intros s1 E1 S1. rewrite u8_small, E0 in E1 by lia.
    wp_prim. apply wp_outb. intros s2 E2 S2. rewrite u8_small, E1 in E2 by lia.
    assert (Hland : Z.land i 0x1F = i) by (change 0x1F with (Z.ones 5); rewrite Z.land_ones by lia; apply Z.mod_small; lia).
    apply IH; [lia | lia | done |]. intros s3 H3 S3. apply HQ; [|congruence].
    eapply loaded_cons; [| |exact H3]; rewrite E2; [done|]. intros c k. simpl. by rewrite Hland.
Qed.

Lemma clear_bit7 x : Z.testbit (u8 (Z.land x (Z.lnot 0x80))) 7 = false.
Proof.
  unfold u8. rewrite Z.mod_pow2_bits_low by lia. rewrite Z.land_spec. change (Z.testbit (Z.lnot 0x80) 7) with false.
  apply andb_false_r.
Qed.

(** The steps that make the CRT controller's registers writable. *)
Lemma wp_unlock {A} s (k : M S A) (Q : A -> S -> Prop) :
  (forall s', vplane (gv s') = vplane (gv s) -> sv s' = sv s ->
     Z.testbit (vreg (gv s') CRTC 0x11) 7 = false ->
     (forall c i, c <> CRTC \/ (i <> 3 /\ i <> 17) -> vreg (gv s') c i = vreg (gv s) c i) -> wp k s' Q) ->
  wp (outb VGA_CRTC_INDEX 0x03;;
      x ← inb VGA_CRTC_DATA;
      outb VGA_CRTC_DATA (Z.lor x 0x80);;
      outb VGA_CRTC_INDEX 0x11;;
      x ← inb VGA_CRTC_DATA;
      outb VGA_CRTC_DATA (Z.land x (Z.lnot 0x80));; k) s Q.
Proof.
  intros HQ. assert (Hp : ports_of CRTC VGA_CRTC_INDEX VGA_CRTC_DATA) by done.
  wp_prim. apply wp_outb. intros s1 E1 S1. rewrite (out_index _ _ _ _ _ Hp) in E1.
  wp_prim. eapply wp_inb_data; [done|]. intros s2 E2 S2.
  wp_prim. apply wp_outb. intros s3 E3 S3. rewrite (out_data _ _ _ _ _ Hp) in E3.
  wp_prim. apply wp_outb. intros s4 E4 S4. rewrite (out_index _ _ _ _ _ Hp) in E4.
  wp_prim. eapply wp_inb_data; [done|]. intros s5 E5 S5.
  wp_prim. apply wp_outb. intros s6 E6 S6. rewrite (out_data _ _ _ _ _ Hp) in E6.
  change (u8 3) with 3 in *. change (u8 17) with 17 in *.
  assert (H3 : vplane (gv s3) = vplane (gv s) /\
    forall c i, c <> CRTC \/ i <> 3 -> vreg (gv s3) c i = vreg (gv s) c i).
  { rewrite E3, E2, E1. unfold vga_store. change (vidx (set_vidx CRTC 3 (gv s)) CRTC) with 3.
    case_bool; [by split|]. split; [done|]. intros c i Hc. unfold set_vreg, set_vidx. cbn [vreg].
    case_decide; [|done]. destruct Hc as [?|Hi]; [done|]. by rewrite (proj2 (Z.eqb_neq _ _) Hi). }
  destruct H3 as [Hpl3 Hreg3].
  assert (H6 : gv s6 = set_vreg CRTC 17 (u8 (Z.land (vreg (gv s4) CRTC (vidx (gv s4) CRTC)) (Z.lnot 0x80)))
    (set_vidx CRTC 17 (gv s3))).
  { rewrite E6, E5, E4. done. }
  apply HQ; [by rewrite H6 | congruence | |].
  - rewrite H6. unfold set_vreg. cbn [vreg]. rewrite decide_True, Z.eqb_refl by done. apply clear_bit7.
  - intros c i Hc. rewrite H6. unfold set_vreg, set_vidx. cbn [vreg].
    destruct (decide (c = CRTC)) as [->|].
    + destruct Hc as [?|[Hi1 Hi2]]; [done|]. rewrite (proj2 (Z.eqb_neq _ _) Hi2). apply Hreg3. by right.
    + apply Hreg3. by left.
Qed.

Definition tab_of (l : list Z) (b : bank) : list Z :=
  match b with SEQ => tab_seq l | CRTC => tab_crtc l | GC => tab_gc l | AC => tab_ac l end.

Lemma get_set_tab m l x : get_tab m (set_tab m l x) = l.
Proof. unfold get_tab, set_tab. simpl. destruct (m =? 3), (m =? 19); done. Qed.

Lemma unlock_table_ok l : length l = 61%nat -> Forall (fun x => 0 <= x < 256) l ->
  length (unlock_table l) = 61%nat /\ Forall (fun x => 0 <= x < 256) (unlock_table l) /\
  tab_seq (unlock_table l) = tab_seq l /\ Z.testbit (zget 0 (tab_crtc (unlock_table l)) 0x11) 7 = false.
Proof.
  intros Hl Hb.
  assert (exists x y, unlock_table l = <[23%nat := u8 (Z.land y (Z.lnot 0x80))]> (<[9%nat := u8 x]> l))
    as (x & y & ->) by (do 2 eexists; reflexivity).
  split_and!.
  - by rewrite !length_insert.
  - apply Forall_insert; [apply Forall_insert; [done|]|]; apply u8_range.
  - unfold tab_seq, VGA_NUM_SEQ_REGS. by rewrite !drop_insert_ge, !take_insert_ge by lia.
  - unfold tab_crtc, VGA_NUM_CRTC_REGS, zget. replace (17 <? 0) with false by lia.
    rewrite lookup_take_lt, lookup_drop by lia. replace (6 + Z.to_nat 17)%nat with 23%nat by lia.
    rewrite list_lookup_insert_eq by (rewrite length_insert; lia). apply clear_bit7.
Qed.

Lemma tab_of_ok l b : length l = 61%nat -> Forall (fun x => 0 <= x < 256) l ->
  zlen (tab_of l b) <= 25 /\ zlen (tab_of l AC) <= 21 /\ Forall (fun x => 0 <= x < 256) (tab_of l b).
Proof.
  intros Hl Hb. unfold zlen. split_and!.
  - destruct b; unfold tab_of, tab_seq, tab_crtc, tab_gc, tab_ac, VGA_NUM_SEQ_REGS, VGA_NUM_CRTC_REGS, VGA_NUM_GC_REGS, VGA_NUM_AC_REGS;
      rewrite length_take; lia.
  - unfold tab_of, tab_ac, VGA_NUM_AC_REGS. rewrite length_take. lia.
  - destruct b; by apply Forall_take, Forall_drop.
Qed.

Lemma wp_writeVideoRegisters s m (Q : unit -> S -> Prop) :
  let l := get_tab m (sv s) in let l' := unlock_table l in
  length l = 61%nat -> Forall (fun x => 0 <= x < 256) l ->
  (forall s', vplane (gv s') = vplane (gv s) -> sv s' = set_tab m l' (sv s) ->
     (forall b i, vreg (gv s') b i =
        if (0 <=? i) && (i <? zlen (tab_of l' b)) then zget 0 (tab_of l' b) i else vreg (gv s) b i) -> Q tt s') ->
  wp (writeVideoRegisters m) s Q.
Proof.
  intros l l' Hl Hb HQ. destruct (unlock_table_ok l Hl Hb) as (Hl' & Hb' & Hseq & Hbit). fold l' in Hl', Hb', Hseq, Hbit.
  assert (Hok : forall b, zlen (tab_of l' b) <= 25 /\ zlen (tab_of l' AC) <= 21 /\ Forall (fun x => 0 <= x < 256) (tab_of l' b))
    by (intros b; by apply tab_of_ok).
  unfold writeVideoRegisters, vget. wp_prim. wp_prim. fold (sv s). fold l.
  wp_prim. apply wp_outb. intros s1 E1 S1. wp_prim.
  eapply (wp_write_bank SEQ); [done | by split | done | rewrite <- Hseq; by destruct (Hok SEQ); simpl in *; lia
    | rewrite <- Hseq; apply (Hok SEQ) |].
  intros s2 [P2 R2] S2. apply wp_unlock. intros s3 P3 S3 U3 R3. wp_prim.
  apply wp_vmod. intros s4 E4 S4. wp_step. fold (sv s4).
  assert (Hs4 : sv s4 = set_tab m l' (sv s)) by (rewrite S4; replace (sv s3) with (sv s) by congruence; done).
  rewrite Hs4, get_set_tab.
  eapply (wp_write_bank CRTC); [done | by rewrite E4; split | done | destruct (Hok CRTC); simpl in *; lia | apply (Hok CRTC) |].
  intros s5 [P5 R5] S5. wp_prim.
  eapply (wp_write_bank GC); [done | by split | done | destruct (Hok GC); simpl in *; lia | apply (Hok GC) |].
  intros s6 [P6 R6] S6. wp_prim.
  eapply wp_write_ac; [done | destruct (Hok AC) as (_ & ? & _); simpl in *; lia | apply (Hok AC) |].
  intros s7 [P7 R7] S7. wp_prim. apply wp_inb_status. intros y s8 E8 S8. apply wp_outb. intros s9 E9 S9.
  assert (P1 : vplane (gv s1) = vplane (gv s)) by (rewrite E1; done).
  assert (P9 : vplane (gv s9) = vplane (gv s7)) by (rewrite E9, E8; done).
  apply HQ; [congruence | congruence |].
  assert (E9' : vreg (gv s9) = vreg (gv s7)) by (rewrite E9, E8; done).
  assert (E1' : vreg (gv s1) = vreg (gv s)) by (rewrite E1; done).
  rewrite <- Hseq in R2. change (tab_seq l') with (tab_of l' SEQ) in R2.
  change (tab_crtc l') with (tab_of l' CRTC) in R5. change (tab_gc l') with (tab_of l' GC) in R6.
  change (tab_ac l') with (tab_of l' AC) in R7. intros b i. rewrite E9'.
  assert (Hlen : zlen (tab_of l' CRTC) = 25).
  { unfold tab_of, tab_crtc, zlen, VGA_NUM_CRTC_REGS. rewrite length_take, length_drop, Hl'. done. }
  rewrite R7, R6, R5, E4. unfold in_bank.
  destruct b; simpl bool_decide; cbn [andb]; rewrite ?Z.sub_0_r, ?Z.add_0_l.
  - rewrite R3 by (by left). rewrite R2, E1'. unfold in_bank. simpl bool_decide. cbn [andb].
    by rewrite Z.sub_0_r, Z.add_0_l.
  - case_bool; [done|]. rewrite R3.
    + rewrite R2, E1'. done.
    + right. apply andb_false_iff in Heqb. rewrite Hlen in Heqb. lia.
  - case_bool; [done|]. rewrite R3 by (by left). rewrite R2, E1'. done.
  - case_bool; [done|]. rewrite R3 by (by left). rewrite R2, E1'. done.
Qed.

(** [writeVideoRegisters] loads every register of the mode, whatever state the
    adapter is in, also when the CRT controller's registers are write protected; the
    table keeps its values apart from the two protection bits, registers beyond the
    banks and the contents of the planes are not touched. *)
Theorem writeVideoRegisters_loads (s : S) m :
  let l := get_tab m (sv s) in let l' := unlock_table l in
  length l = 61%nat -> Forall (fun x => 0 <= x < 256) l ->
  exists s', writeVideoRegisters m s = Ret tt s' /\ vplane (gv s') = vplane (gv s) /\
    sv s' = set_tab m l' (sv s) /\
    forall b i, vreg (gv s') b i =
      if (0 <=? i) && (i <? zlen (tab_of l' b)) then zget 0 (tab_of l' b) i else vreg (gv s) b i.
Proof.
  intros l l' Hl Hb.
  assert (wp (writeVideoRegisters m) s (fun _ s' => vplane (gv s') = vplane (gv s) /\
    sv s' = set_tab m l' (sv s) /\ forall b i, vreg (gv s') b i =
      if (0 <=? i) && (i <? zlen (tab_of l' b)) then zget 0 (tab_of l' b) i else vreg (gv s) b i))
    as ([] & s' & E & H); [|by exists s'].
  apply wp_writeVideoRegisters; [done | done |]. intros s' ? ? ?. by split_and!.
Qed.

(** *** The font *)

(** Registers through which the glyphs are stored in plane 2. *)
Definition font_cfg (v : vga) : Prop :=
  vreg v SEQ 2 = 4 /\ vreg v SEQ 4 = 6 /\ vreg v GC 1 = 0 /\ vreg v GC 3 = 0 /\
  vreg v GC 5 = 0 /\ vreg v GC 6 = 0x0C /\ vreg v GC 8 = 0xFF.

Lemma font_write v o x : font_cfg v -> 0 <= o < 0x8000 ->
  vreg (vga_write (0xB8000 + o) x v) = vreg v /\
  forall p q, vplane (vga_write (0xB8000 + o) x v) p q = if (p =? 2) && (q =? o) then x else vplane v p q.
Proof.
  intros (E2 & E4 & _ & _ & _ & E6 & _) Ho. unfold vga_write, in_window, win_base, win_size.
  rewrite E6. change (Z.land (Z.shiftr 12 2) 3) with 3. simpl.
  replace ((0xB8000 <=? 0xB8000 + o) && (0xB8000 + o <? 0xB8000 + 0x8000)) with true
    by (symmetry; apply andb_true_iff; lia).
  split; [done|]. intros p q. unfold set_vplane, writes_plane, plane_addr, chain4, oddeven. cbn [vplane].
  rewrite E2, E4. change (Z.testbit 6 3) with false. change (Z.testbit 6 2) with true. cbn [negb].
  replace (0xB8000 + o - 0xB8000) with o by lia. rewrite andb_true_r.
  destruct (decide (0 <= p < 4)) as [Hp|Hp].
  - assert (p = 0 \/ p = 1 \/ p = 2 \/ p = 3) as [-> | [-> | [-> | ->]]] by lia; done.
  - replace ((0 <=? p) && (p <? 4)) with false by (symmetry; apply andb_false_iff; lia).
    replace (p =? 2) with false by lia. done.
Qed.

Lemma font_cfg_plain v : font_cfg v -> plain v.
Proof. intros (?&?&?&?&E&?&?). unfold plain. rewrite E. by split_and!. Qed.

Lemma wp_write_glyphs s font h (Q : unit -> S -> Prop) :
  font_cfg (gv s) -> (h <= 32)%nat ->
  (forall s', vreg (gv s') = vreg (gv s) -> sv s' = sv s ->
     (forall p q, p <> 2 -> vplane (gv s') p q = vplane (gv s) p q) -> Q tt s') ->
  wp (for_each (write_glyph font h) (seq 0 256)) s Q.
Proof.
  intros Hc Hh HQ.
  set (I := fun (_ : nat) (s' : S) => vreg (gv s') = vreg (gv s) /\ sv s' = sv s /\
     forall p q, p <> 2 -> vplane (gv s') p q = vplane (gv s) p q).
  apply (wp_for_seq _ I); [by split_and! | |].
  - intros i s1 Hi H1. unfold write_glyph. apply (wp_for_seq _ I); [done | | done].
    intros j s2 Hj (A1 & A2 & A3). assert (Hc2 : font_cfg (gv s2)) by (unfold font_cfg; by rewrite A1).
    apply wp_vstore; [by apply font_cfg_plain|]. intros s3 E3 S3. rewrite <- Z.add_assoc in E3.
    destruct (font_write (gv s2) (32 * Z.of_nat i + Z.of_nat j)
      (u8 (zget 0 font (Z.of_nat h * Z.of_nat i + Z.of_nat j))) Hc2 ltac:(lia)) as [F1 F2].
    split_and!; [rewrite E3; congruence | congruence |]. intros p q Hp. rewrite E3, F2.
    replace (p =? 2) with false by lia. by apply A3.
  - intros s1 (A1 & A2 & A3). by apply HQ.
Qed.

(** Step over port accesses, keeping [E : gv s' = ...] and [SV : sv s' = sv s]. *)
Ltac hw_next E SV :=
  let s' := fresh "s" in let E' := fresh "E" in let SV' := fresh "SV" in
  intros s' E' SV'; rewrite ?E in E'; rewrite SV in SV'; rewrite ?E; clear E SV;
  rename E' into E; rename SV' into SV; cbv beta.
Ltac hw_step E SV :=
  lazymatch goal with
  | |- wp (mbind _ _) _ _ => apply wp_bind; hw_step E SV
  | |- wp (outb _ _) _ _ => apply wp_outb; hw_next E SV
  end.
Lemma wp_inb_val s p x (Q : Z -> S -> Prop) :
  (exists b, data_port p = Some b /\ vreg (gv s) b (vidx (gv s) b) = x) ->
  (forall s', gv s' = gv s -> sv s' = sv s -> Q x s') -> wp (inb p) s Q.
Proof. intros (b & Hp & <-) HQ. by eapply wp_inb_data. Qed.

(** A load of a register whose value [x] is known from [T]. *)
Ltac hw_in E SV x T :=
  apply wp_bind; apply (wp_inb_val _ _ x); [eexists; split; [reflexivity | rewrite E; exact T]|]; hw_next E SV.

(** The registers after a list of stores. *)
Fixpoint put_regs (l : list (bank * Z * Z)) (f : bank -> Z -> Z) : bank -> Z -> Z :=
  match l with
  | [] => f
  | (b, i, x) :: l' => put_regs l' (fun c j => if decide (c = b) then if j =? i then x else f c j else f c j)
  end.

Lemma wp_writeFont s font h (Q : unit -> S -> Prop) :
  text_cfg (gv s) -> (h <= 32)%nat ->
  (forall s', (forall b i, vreg (gv s') b i = vreg (gv s) b i) -> sv s' = sv s ->
     (forall p q, p <> 2 -> vplane (gv s') p q = vplane (gv s) p q) -> Q tt s') ->
  wp (writeFont font h) s Q.
Proof.
  intros (T1&T2&T3&T4&T5&T6&T7&T8) Hh HQ. unfold writeFont, consolevgaplane.
  remember (gv s) as v eqn:E. symmetry in E. remember (sv s) as x eqn:SV. symmetry in SV.
  hw_step E SV. hw_in E SV 3 T1. hw_step E SV. hw_in E SV 2 T2. do 2 hw_step E SV.
  hw_in E SV 0 T5. hw_step E SV. hw_in E SV 16 T6. do 2 hw_step E SV. hw_in E SV 14 T7.
  do 5 hw_step E SV. wp_prim. apply wp_write_glyphs; [|done|].
  { rewrite E. split_and!; first [reflexivity | exact T3 | exact T4 | exact T8]. }
  intros sf R2 S2 P2. rewrite E in R2, P2. remember (gv sf) as v2 eqn:E2. symmetry in E2. rewrite SV in S2.
  repeat hw_step E2 S2. apply HQ; [|done|].
  - assert (R3 : vreg (gv s26) = put_regs [(SEQ, 2, 3); (SEQ, 4, 2); (GC, 4, 0); (GC, 5, 16); (GC, 6, 14)] (vreg v2))
      by (rewrite E2; reflexivity).
    assert (R2' : vreg v2 = put_regs [(SEQ, 4, 6); (GC, 5, 0); (GC, 6, 12); (GC, 4, 2); (SEQ, 2, 4)] (vreg v))
      by (rewrite R2; reflexivity).
    rewrite R3, R2'. intros b i. clear -T1 T2 T5 T6 T7. unfold put_regs.
    destruct b; simpl; repeat case_bool; zbool; subst; congruence.
  - intros p q Hp. rewrite E2. cbn. rewrite P2 by done. reflexivity.
Qed.

(** *** The snapshot *)

(** The snapshot holds the characters of the terminal. *)
Definition snap_is (x : vst) (t : term) : Prop :=
  cursorPos x = tpos t /\ length (registerCopy x) = 2000%nat /\
  forall i, 0 <= i < CELLS -> zget 0 (registerCopy x) i = u8 (tcells t i).

Lemma zero_from_get n : forall l i k,
  0 <= i -> zget 0 (zero_from l i n) k = if (i <=? k) && (k <? i + Z.of_nat n) then 0 else zget 0 l k.
Proof.
  induction n as [|n IH]; intros l i k Hi; cbn [zero_from].
  - case_bool; [zbool; lia | done].
  - rewrite IH by lia. destruct (decide (k = i)) as [->|Hne].
    + replace ((i + 1 <=? i) && (i <? i + 1 + Z.of_nat n)) with false by (symmetry; apply andb_false_iff; lia).
      replace ((i <=? i) && (i <? i + Z.of_nat (Datatypes.S n))) with true
        by (symmetry; rewrite andb_true_iff, Z.leb_le, Z.ltb_lt; lia).
      destruct (decide (i < zlen l)); [by rewrite zget_zset_eq by lia|].
      rewrite zget_out; [done|]. unfold zlen in *. rewrite zset_length. lia.
    + rewrite zget_zset_ne by done.
      replace ((i <=? k) && (k <? i + Z.of_nat (Datatypes.S n)))
        with ((i + 1 <=? k) && (k <? i + 1 + Z.of_nat n)); [done|].
      apply eq_true_iff_eq. rewrite !andb_true_iff, !Z.leb_le, !Z.ltb_lt. lia.
Qed.

Lemma zero_from_length n : forall l i, length (zero_from l i n) = length l.
Proof. induction n as [|n IH]; intros l i; cbn [zero_from]; [done|]. by rewrite IH, zset_length. Qed.

Lemma shift_get (l : list Z) k : length l = 2000%nat -> 0 <= k ->
  zget 0 (take (23 * 80) (drop 80 l) ++ drop (23 * 80) l) k = if k <? 1840 then zget 0 l (k + 80) else zget 0 l k.
Proof.
  intros Hl Hk. unfold zget. replace (k <? 0) with false by lia. replace (k + 80 <? 0) with false by lia.
  assert (Ht : length (take (23 * 80) (drop 80 l)) = 1840%nat) by (rewrite length_take, length_drop, Hl; lia).
  case_bool; zbool.
  - rewrite lookup_app_l by lia. rewrite lookup_take_lt, lookup_drop by lia. do 2 f_equal. lia.
  - rewrite lookup_app_r by lia. rewrite lookup_drop, Ht. do 2 f_equal. lia.
Qed.

Lemma snap_advance_is c x t : snap_is x t -> term_ok t -> snap_is (snap_advance c x) (term_advance c t).
Proof.
  intros (Hp & Hl & Hc) Hok. unfold term_ok, SCREEN, COLS in *. unfold snap_advance, term_advance, COLS. rewrite Hp.
  destruct (c =? ch_nl); [|destruct (c =? BACKSPACE)]; simpl.
  - split_and!; simpl; [|done|done]. rewrite Z.rem_mod_nonneg by lia. Z.to_euclidean_division_equations. lia.
  - split_and!; simpl; [|done|done]. case_bool; zbool; lia.
  - split_and!; simpl; [lia | by rewrite zset_length |]. intros i Hi. rewrite attr_cell. unfold fupd.
    case_decide as E; [subst; rewrite zget_zset_eq by (unfold zlen, CELLS in *; lia); zwrap|].
    rewrite zget_zset_ne by done. by apply Hc.
Qed.

Lemma snap_scroll_is x t : snap_is x t -> 0 <= tpos t <= SCREEN -> snap_is (snap_scroll x) (term_scroll t).
Proof.
  intros (Hp & Hl & Hc) Hr. unfold SCREEN in Hr. unfold snap_scroll, term_scroll, SCREEN, COLS. rewrite Hp.
  destruct (24 <=? Z.quot (tpos t) 80) eqn:E; zbool.
  - assert (Hpos : tpos t = 1920) by (Z.to_euclidean_division_equations; lia).
    rewrite Hpos. change (1920 <? 24 * 80) with false. change (Z.to_nat (24 * 80 - (1920 - 80))) with 80%nat.
    unfold CELLS in *. split_and!; [done | |].
    + cbn [registerCopy set_snap]. rewrite zero_from_length, length_app, length_take, !length_drop, Hl. lia.
    + intros i Hi. cbn [registerCopy set_snap tcells]. rewrite zero_from_get, shift_get by (done || lia).
      change (1920 - 80) with 1840. change (24 * 80 - 80) with 1840. change (24 * 80) with 1920.
      change (1840 + Z.of_nat 80) with 1920.
      destruct (i <? 1840) eqn:E1; zbool.
      * replace (1840 <=? i) with false by lia. cbn [andb]. apply Hc. unfold CELLS. lia.
      * replace (1840 <=? i) with true by lia. cbn [andb]. case_bool; [done | by apply Hc].
  - assert (tpos t < 1920) by (Z.to_euclidean_division_equations; lia).
    replace (tpos t <? 24 * 80) with true by lia. by split_and!.
Qed.

(** A snapshot differs from the variables [x] in the snapshot only. *)
Definition snap_of (x y : vst) : Prop := y = set_snap (cursorPos y) (registerCopy y) x.

Lemma snap_of_refl x : snap_of x x.
Proof. by destruct x. Qed.
Lemma snap_of_trans x y z : snap_of x y -> snap_of y z -> snap_of x z.
Proof. unfold snap_of. intros -> ->. done. Qed.
Lemma snap_of_putc c x : snap_of x (snap_scroll (snap_advance c x)).
Proof. unfold snap_of, snap_scroll, snap_advance. by repeat case_bool. Qed.

Lemma wp_cgaputc_snap s c t (Q : unit -> S -> Prop) :
  currentvgamode (sv s) <> 0x03 -> snap_is (sv s) t -> term_ok t ->
  (forall s', vreg (gv s') = vreg (gv s) -> vplane (gv s') = vplane (gv s) ->
     snap_is (sv s') (term_scroll (term_advance c t)) -> snap_of (sv s) (sv s') -> Q tt s') ->
  wp (cgaputc c) s Q.
Proof.
  intros Hm Hs Hok HQ. unfold cgaputc, cursor_read, CRTPORT, cga_snap, vget.
  wp_prim. wp_prim. apply wp_outb. intros s1 E1 S1. wp_prim. eapply wp_inb_data; [done|]. intros s2 E2 S2.
  wp_prim. apply wp_outb. intros s3 E3 S3. wp_prim. eapply wp_inb_data; [done|]. intros s4 E4 S4. wp_step.
  fold (sv s4). assert (Hs4 : sv s4 = sv s) by congruence. rewrite Hs4.
  replace (currentvgamode (sv s) =? 3) with false by lia. wp_prim. apply wp_vmod. intros s5 E5 S5.
  wp_step. fold (sv s5). rewrite S5, Hs4. pose proof (snap_advance_is c (sv s) t Hs Hok) as Hadv.
  pose proof (advance_range c t Hok) as Hr. rewrite (proj1 Hadv).
  replace ((tpos (term_advance c t) <? 0) || (25 * 80 <? tpos (term_advance c t))) with false
    by (symmetry; apply orb_false_iff; unfold SCREEN in *; lia).
  apply wp_vmod. intros s6 E6 S6. rewrite S5, Hs4 in S6. apply HQ; rewrite ?S6.
  - by rewrite E6, E5, E4, E3, E2, E1.
  - by rewrite E6, E5, E4, E3, E2, E1.
  - by apply snap_scroll_is.
  - apply snap_of_putc.
Qed.

Lemma wp_snapshotTextTake s t (Q : unit -> S -> Prop) :
  currentvgamode (sv s) = 0x03 -> shows (gv s) (tcells t) -> cursor_is (gv s) (tpos t) -> term_ok t ->
  length (registerCopy (sv s)) = 2000%nat ->
  (forall s', (forall o, 0 <= tbyte (gv s') o < 256) -> snap_is (sv s') t -> snap_of (sv s) (sv s') -> Q tt s') ->
  wp snapshotTextTake s Q.
Proof.
  intros Hm (Hc & Hb & Hf) Hcur Hok Hl HQ. unfold snapshotTextTake, vget. wp_step. fold (sv s). rewrite Hm, Z.eqb_refl.
  wp_prim. apply (wp_for_seq _ (fun j s' => gv s' = gv s /\ snap_of (sv s) (sv s') /\
    length (registerCopy (sv s')) = 2000%nat /\
    forall i, 0 <= i < Z.of_nat j -> zget 0 (registerCopy (sv s')) i = u8 (tcells t i))).
  - split_and!; [done | apply snap_of_refl | done |]. lia.
  - intros j s1 Hj (G1 & G2 & G3 & G4). wp_prim. apply wp_crt_get; [by rewrite G1 | lia |].
    intros s2 E2 S2. apply wp_vmod. intros s3 E3 S3.
    split_and!; [congruence | | |].
    + eapply snap_of_trans; [exact G2|]. rewrite S3, S2. done.
    + rewrite S3, S2. simpl. by rewrite zset_length.
    + intros i Hi. rewrite S3, S2. simpl. rewrite G1, Hf by (unfold CELLS; lia).
      destruct (decide (i = Z.of_nat j)) as [->|Hne].
      * rewrite zget_zset_eq; [done|]. unfold zlen. lia.
      * rewrite zget_zset_ne by done. apply G4. lia.
  - intros s1 (G1 & G2 & G3 & G4). wp_prim. unfold term_ok, SCREEN in Hok.
    apply (wp_cursor_read _ (tpos t)); [by rewrite G1 | lia |]. intros s2 R2 P2 S2.
    apply wp_vmod. intros s3 E3 S3. apply HQ.
    + intros o. unfold tbyte. rewrite E3, P2, G1. apply Hb.
    + split_and!; rewrite S3, ?S2; simpl; [done | done |]. intros i Hi. apply G4. unfold CELLS in *. lia.
    + eapply snap_of_trans; [exact G2|]. rewrite S3, S2. done.
Qed.

Lemma wp_snapshotTextRestore s (Q : unit -> S -> Prop) :
  text_cfg (gv s) -> (forall o, 0 <= tbyte (gv s) o < 256) -> 0 <= cursorPos (sv s) < 65536 ->
  (forall s', shows (gv s') (fun i => 0x700 + u8 (zget 0 (registerCopy (sv s)) i)) ->
     cursor_is (gv s') (cursorPos (sv s)) -> sv s' = sv s -> Q tt s') ->
  wp snapshotTextRestore s Q.
Proof.
  intros Hc Hb Hp HQ. unfold snapshotTextRestore, vget. wp_prim.
  set (g := fun i => 0x700 + u8 (zget 0 (registerCopy (sv s)) i)) in *.
  apply (wp_for_seq _ (fun j s' => vreg (gv s') = vreg (gv s) /\ sv s' = sv s /\
    shows (gv s') (fun i => if i <? Z.of_nat j then g i else tcell (gv s) i))).
  - split_and!; [done | done |]. split; [done|]. split; [done|]. intros i Hi. by rewrite (proj2 (Z.ltb_ge _ _)) by lia.
  - intros j s1 Hj (G1 & G2 & G3). wp_step. fold (sv s1). rewrite G2, attr_cell.
    pose proof (u8_range (zget 0 (registerCopy (sv s)) (Z.of_nat j))).
    eapply wp_show_cell; [exact G3 | unfold CELLS; lia | lia |]. intros s2 Hsh R2 S2.
    split_and!; [congruence | congruence |]. eapply shows_ext; [exact Hsh|]. intros i Hi. unfold fupd. cbv beta.
    case_decide as E; [subst; by rewrite (proj2 (Z.ltb_lt _ _)) by lia|].
    replace (i <? Z.of_nat (Datatypes.S j)) with (i <? Z.of_nat j); [done|].
    apply eq_true_iff_eq. rewrite !Z.ltb_lt. lia.
  - intros s1 (G1 & G2 & G3). wp_step. fold (sv s1). rewrite G2. apply wp_cursor_write; [done|].
    intros s2 C2 B2 P2 S2. apply HQ; [|done|congruence].
    destruct G3 as (A1 & A2 & A3). unfold shows, tcell, tbyte in *. rewrite P2.
    split_and!; [by eapply but_cursor_text | done |]. intros i Hi. rewrite A3 by done.
    by rewrite (proj2 (Z.ltb_lt _ _)) by (unfold CELLS in *; lia).
Qed.

(** *** Output while a graphics mode is on *)

(** What a cell shows: NUL and the space are both blank. *)
Definition glyph (z : Z) : Z := let b := u8 z in if b =? 0 then ch_space else b.

(** Two terminals with the same cursor and the same glyphs, blank from the cursor on. *)
Definition alike (t u : term) : Prop :=
  tpos t = tpos u /\ (forall i, 0 <= i < CELLS -> glyph (tcells t i) = glyph (tcells u i)) /\
  forall i, tpos t <= i < SCREEN -> glyph (tcells t i) = ch_space.

Lemma alike_advance c t u : c <> BACKSPACE -> term_ok t -> alike t u ->
  alike (term_advance c t) (term_advance c u).
Proof.
  intros Hc Hok (Hp & Hg & Hb). unfold term_ok, term_advance, COLS in *. rewrite <- Hp.
  replace (c =? BACKSPACE) with false by lia. destruct (c =? ch_nl); simpl.
  - split_and!; [done | done |]. simpl. intros i Hi. apply Hb. Z.to_euclidean_division_equations. lia.
  - split_and!; simpl; [done | |]; intros i Hi; unfold fupd.
    + case_decide; [done | by apply Hg].
    + rewrite decide_False by lia. apply Hb. lia.
Qed.

Lemma alike_scroll t u : 0 <= tpos t <= SCREEN -> alike t u -> alike (term_scroll t) (term_scroll u).
Proof.
  intros Hr (Hp & Hg & Hb). unfold term_scroll. rewrite <- Hp. case_bool; [by split_and!|]. zbool.
  unfold SCREEN, COLS, CELLS in *. split_and!; simpl; [done | |].
  - intros i Hi. repeat case_bool; zbool; [apply Hg; lia | done | by apply Hg].
  - unfold SCREEN. intros i Hi. repeat case_bool; zbool; [lia | done | lia].
Qed.

Lemma alike_putc c t u : c <> BACKSPACE -> term_ok t -> alike t u ->
  alike (term_putc c t) (term_scroll (term_advance c u)).
Proof.
  intros Hc Hok Ha. pose proof (advance_range c t Hok) as Hr.
  destruct (alike_scroll _ _ Hr (alike_advance c t u Hc Hok Ha)) as (Hp & Hg & Hb).
  pose proof (term_putc_ok c t Hok) as Hok'. unfold term_putc, term_ok in *. simpl in *.
  set (t' := term_scroll (term_advance c t)) in *. split_and!; simpl; [done | |].
  - intros i Hi. unfold fupd. case_decide as E; [|by apply Hg]. subst i. rewrite <- Hg by done.
    symmetry. apply Hb. lia.
  - intros i Hi. unfold fupd. case_decide as E; [done | by apply Hb].
Qed.

Definition term_puts (cs : list Z) (t : term) : term := foldl (fun t c => term_putc c t) t cs.

Lemma term_puts_ok cs : forall t, term_ok t -> term_ok (term_puts cs t).
Proof. induction cs as [|c cs IH]; intros t H; simpl; [done|]. by apply IH, term_putc_ok. Qed.

Lemma wp_puts_snap cs : forall s t u (Q : unit -> S -> Prop),
  currentvgamode (sv s) <> 0x03 -> snap_is (sv s) u -> term_ok t -> alike t u ->
  Forall (fun c => c <> BACKSPACE) cs ->
  (forall s' u', vplane (gv s') = vplane (gv s) -> snap_is (sv s') u' -> alike (term_puts cs t) u' ->
     snap_of (sv s) (sv s') -> Q tt s') ->
  wp (for_each cgaputc cs) s Q.
Proof.
  induction cs as [|c cs IH]; intros s t u Q Hm Hs Hok Ha Hcs HQ; cbn [for_each].
  - wp_prim. eapply HQ; [done | exact Hs | done | apply snap_of_refl].
  - apply Forall_cons in Hcs as [Hc Hcs]. wp_prim.
    apply (wp_cgaputc_snap _ c u); [done | done | unfold term_ok; by rewrite <- (proj1 Ha) |].
    intros s1 R1 P1 Hs1 Ho1. eapply (IH _ (term_putc c t)); [| exact Hs1 | by apply term_putc_ok
      | by apply alike_putc | done |].
    + by rewrite Ho1.
    + intros s2 u' P2 Hs2 Ha2 Ho2. apply (HQ s2 u'); [congruence | done | done | by eapply snap_of_trans].
Qed.

(** The tables as they are in the source. *)
Definition tables_ok (x : vst) : Prop :=
  tab_text x = registers_80x25_text /\ tab_13 x = registers_320x200x256 /\ tab_12 x = registers_640x480x16.

Lemma bytes_check l : forallb (fun x => (0 <=? x) && (x <? 256)) l = true -> Forall (fun x => 0 <= x < 256) l.
Proof.
  induction l as [|x l IH]; simpl; [constructor|]. rewrite !andb_true_iff, Z.leb_le, Z.ltb_lt.
  intros [Hx Hl]. constructor; [done | by apply IH].
Qed.

Lemma wp_load_mode s m (Q : unit -> S -> Prop) :
  tables_ok (sv s) -> m = 0x03 \/ m = 0x12 \/ m = 0x13 ->
  (forall s', vplane (gv s') = vplane (gv s) -> sv s' = sv s -> (m = 0x03 -> text_cfg (gv s')) -> Q tt s') ->
  wp (writeVideoRegisters m) s Q.
Proof.
  intros (T1 & T2 & T3) Hm HQ.
  assert (Ht : get_tab m (sv s) = registers_80x25_text /\ m = 0x03 \/ get_tab m (sv s) = registers_640x480x16 /\ m = 0x12 \/
    get_tab m (sv s) = registers_320x200x256 /\ m = 0x13)
    by (destruct Hm as [-> | [-> | ->]]; [left | right; left | right; right]; done).
  assert (Hun : unlock_table (get_tab m (sv s)) = get_tab m (sv s))
    by (destruct Ht as [[-> _] | [[-> _] | [-> _]]]; vm_compute; done).
  apply wp_writeVideoRegisters.
  - destruct Ht as [[-> _] | [[-> _] | [-> _]]]; done.
  - apply bytes_check. destruct Ht as [[-> _] | [[-> _] | [-> _]]]; vm_compute; done.
  - rewrite Hun. intros s' P' S' R'. apply HQ; [done | |].
    + rewrite S'. destruct (sv s), Hm as [-> | [-> | ->]]; done.
    + intros ->. unfold text_cfg. rewrite !R'. unfold get_tab. simpl (0x03 =? 0x03). cbn iota. rewrite T1.
      split_and!; vm_compute; done.
Qed.

Lemma wp_enter_graphics s m t (Q : Z -> S -> Prop) :
  currentvgamode (sv s) = 0x03 -> tables_ok (sv s) -> length (registerCopy (sv s)) = 2000%nat ->
  shows (gv s) (tcells t) -> cursor_is (gv s) (tpos t) -> term_ok t -> m = 0x12 \/ m = 0x13 ->
  (forall s', (forall o, 0 <= tbyte (gv s') o < 256) -> snap_is (sv s') t ->
     currentvgamode (sv s') = m -> tables_ok (sv s') -> Q 0 s') ->
  wp (consolevgamode m) s Q.
Proof.
  intros Hm Htab Hl Hsh Hcur Hok Hmode HQ.
  assert (Hk : wp (snapshotTextTake;; writeVideoRegisters m;; vmod (set_mode m);; mret 0) s Q).
  { wp_prim. apply (wp_snapshotTextTake _ t); [done..|]. intros s1 Hb1 Hs1 Ho1. wp_prim.
    assert (Ht1 : tables_ok (sv s1)) by (by rewrite Ho1).
    apply wp_load_mode; [done | tauto |]. intros s2 P2 S2 _. wp_prim. apply wp_vmod. intros s3 E3 S3. wp_prim.
    apply HQ; rewrite ?S3, ?S2; try done. intros o. unfold tbyte. rewrite E3, P2. apply Hb1. }
  unfold consolevgamode. destruct Hmode; subst m; exact Hk.
Qed.

Lemma wp_enter_text s t (Q : Z -> S -> Prop) :
  tables_ok (sv s) -> (forall o, 0 <= tbyte (gv s) o < 256) -> snap_is (sv s) t -> term_ok t ->
  (forall s', currentvgamode (sv s') = 0x03 -> shows (gv s') (fun i => 0x700 + u8 (tcells t i)) ->
     cursor_is (gv s') (tpos t) -> Q 0 s') ->
  wp (consolevgamode 0x03) s Q.
Proof.
  intros Htab Hb (Hp & Hl & Hc) Hok HQ. unfold consolevgamode. simpl (3 =? 3). cbn iota. wp_prim.
  apply wp_load_mode; [done | by left |]. intros s1 P1 S1 T1. specialize (T1 eq_refl). wp_prim.
  apply wp_writeFont; [done | lia |]. intros s2 R2 S2 P2. wp_prim.
  assert (H2 : text_cfg (gv s2)) by (unfold text_cfg; rewrite !R2; done).
  assert (Hs2 : sv s2 = sv s) by congruence. unfold term_ok, SCREEN in Hok.
  apply wp_snapshotTextRestore; rewrite ?Hs2; [done | | lia |].
  { intros o. unfold tbyte. rewrite P2, P1; [apply Hb|]. pose proof (Z.mod_pos_bound o 2). lia. }
  intros s3 Hsh3 Hc3 S3. wp_prim. apply wp_vmod. intros s4 E4 S4. wp_prim. rewrite Hp in Hc3.
  apply HQ; rewrite ?E4, ?S4; [done | | done].
  eapply shows_ext; [exact Hsh3|]. intros i Hi. cbv beta. rewrite Hc by done. by rewrite u8_u8.
Qed.

(** C31: text printed while a graphics mode is on is not lost.  Switch from the text
    mode to 0x12 or 0x13, print characters, and switch back: the cursor is where it
    would be, and every cell shows the character it would show, had the characters
    been printed in text mode all along.  (Backspaces excepted: the erased character
    stays in the snapshot; and all cells come back with the attribute 7.) *)
Theorem graphics_output_preserved (s : S) m cs t :
  currentvgamode (sv s) = 0x03 -> tables_ok (sv s) -> length (registerCopy (sv s)) = 2000%nat ->
  shows (gv s) (tcells t) -> cursor_is (gv s) (tpos t) -> term_ok t -> alike t t ->
  m = 0x12 \/ m = 0x13 -> Forall (fun c => c <> BACKSPACE) cs ->
  let t' := term_puts cs t in
  exists s' f, (consolevgamode m;; for_each cgaputc cs;; consolevgamode 0x03) s = Ret 0 s' /\
    currentvgamode (sv s') = 0x03 /\ shows (gv s') f /\ cursor_is (gv s') (tpos t') /\ term_ok t' /\
    forall i, 0 <= i < CELLS -> glyph (f i) = glyph (tcells t' i) /\ f i / 256 = 7.
Proof.
  intros Hm Htab Hl Hsh Hcur Hok Hal Hmode Hcs t'.
  assert (Hok' : term_ok t') by (by apply term_puts_ok).
  assert (wp (consolevgamode m;; for_each cgaputc cs;; consolevgamode 0x03) s (fun r s' => r = 0 /\
    exists f, currentvgamode (sv s') = 0x03 /\ shows (gv s') f /\ cursor_is (gv s') (tpos t') /\
    forall i, 0 <= i < CELLS -> glyph (f i) = glyph (tcells t' i) /\ f i / 256 = 7))
    as (r & s' & E & -> & f & H1 & H2 & H3 & H4).
  2:{ exists s', f. by split_and!. }
  wp_prim. apply (wp_enter_graphics _ m t); try done. intros s1 Hb1 Hs1 Hm1 Ht1.
  wp_prim. eapply (wp_puts_snap cs _ t); [by rewrite Hm1; destruct Hmode; subst | exact Hs1 | done | done | done |].
  intros s2 u P2 Hs2 (Hpos & Hgl & _) Ho2. fold t' in Hpos, Hgl.
  apply (wp_enter_text _ u); [by rewrite Ho2 | | done | unfold term_ok; by rewrite <- Hpos |].
  { intros o. unfold tbyte. rewrite P2. apply Hb1. }
  intros s3 M3 Hsh3 Hc3. split; [done|]. exists (fun i => 0x700 + u8 (tcells u i)).
  split_and!; [done | done | by rewrite Hpos |]. intros i Hi. pose proof (u8_range (tcells u i)). split.
  - rewrite Hgl by done. unfold glyph. replace (u8 (0x700 + u8 (tcells u i))) with (u8 (tcells u i)); [done | zwrap].
  - Z.to_euclidean_division_equations. lia.
Qed.

(** *** Pixels of mode 0x12 *)

(** The registers of mode 0x12 that decide how its memory is reached; the plane
    registers are left to the driver. *)
Definition planar_cfg (v : vga) : Prop :=
  vreg v SEQ 4 = 6 /\ vreg v GC 1 = 0 /\ vreg v GC 3 = 0 /\ vreg v GC 5 = 0 /\
  vreg v GC 6 = 5 /\ vreg v GC 8 = 0xFF.

Definition pix_addr (x y : Z) : Z := (640 * y + x) / 8.
Definition pix_bit (x : Z) : Z := 7 - x mod 8.

Lemma binaryStuff_bit x : 0 <= x -> binaryStuff x = 2 ^ pix_bit x.
Proof.
  intros Hx. unfold binaryStuff, pix_bit. rewrite Z.rem_mod_nonneg by lia.
  pose proof (Z.mod_pos_bound x 8 ltac:(lia)).
  assert (x mod 8 = 0 \/ x mod 8 = 1 \/ x mod 8 = 2 \/ x mod 8 = 3 \/ x mod 8 = 4 \/ x mod 8 = 5 \/
    x mod 8 = 6 \/ x mod 8 = 7) as Hc by lia.
  by repeat (destruct Hc as [-> | Hc]; [done|]); rewrite Hc.
Qed.

Lemma planar_window v o : planar_cfg v -> 0 <= o < 0x10000 ->
  in_window v (0xA0000 + o) = true /\ 0xA0000 + o - win_base v = o /\ plane_addr v o = o /\
  read_plane v o = Z.land (vreg v GC 4) 3 /\ forall p, writes_plane v o p = Z.testbit (vreg v SEQ 2) p.
Proof.
  intros (E4 & _ & _ & E5 & E6 & _) Ho.
  assert (Hb : win_base v = 0xA0000) by (unfold win_base; rewrite E6; reflexivity).
  assert (Hs : win_size v = 0x10000) by (unfold win_size; rewrite E6; reflexivity).
  assert (H4 : chain4 v = false) by (unfold chain4; rewrite E4; reflexivity).
  assert (H2 : oddeven v = false) by (unfold oddeven; rewrite E4; reflexivity).
  unfold in_window, plane_addr, read_plane, writes_plane. rewrite Hb, Hs, H4, H2, E5.
  split_and!; [apply andb_true_iff; lia | lia | done | done | intros; by rewrite andb_true_r].
Qed.

Lemma planar_plain v : planar_cfg v -> plain v.
Proof. intros (?&?&?&E&?&?). unfold plain. rewrite E. by split_and!. Qed.

Lemma wp_planar_load s o (Q : Z -> S -> Prop) :
  planar_cfg (gv s) -> 0 <= o < 0x10000 ->
  (forall s', gv s' = gv s -> sv s' = sv s -> Q (vplane (gv s) (Z.land (vreg (gv s) GC 4) 3) o) s') ->
  wp (vload (0xA0000 + o)) s Q.
Proof.
  intros Hc Ho HQ. destruct (planar_window _ _ Hc Ho) as (H1 & H2 & H3 & H4 & _).
  apply wp_vload; [by apply planar_plain | done |]. intros s' E' S'. unfold vga_read.
  rewrite H2, H3, H4. by apply HQ.
Qed.

(** One plane: the bit of the pixel is added to the byte. *)
Definition plane_added (p a b : Z) (v v' : vga) : Prop :=
  forall p' q, vplane v' p' q = if (p' =? p) && (q =? a) then u8 (vplane v p a + b) else vplane v p' q.

Lemma low_byte_add b0 b1 b2 b3 b :
  u8 (s32 (s32 (b0 + 2 ^ 8 * b1 + 2 ^ 16 * b2 + 2 ^ 24 * b3) + b)) = u8 (b0 + b).
Proof. unfold u8, s32. Z.to_euclidean_division_equations. lia. Qed.

(** The load, addition and store, with plane [p] selected. *)
Lemma wp_add_byte s p a b (Q : unit -> S -> Prop) :
  planar_cfg (gv s) -> vreg (gv s) GC 4 = p -> vreg (gv s) SEQ 2 = 2 ^ p -> 0 <= p < 4 -> 0 <= a < 38400 ->
  (forall s', vreg (gv s') = vreg (gv s) -> sv s' = sv s -> plane_added p a b (gv s) (gv s') -> Q tt s') ->
  wp (b0 ← vload (0xA0000 + a);
      b1 ← vload (0xA0000 + a + 1);
      b2 ← vload (0xA0000 + a + 2);
      b3 ← vload (0xA0000 + a + 3);
      vload (0xA0000 + a + 4);; vload (0xA0000 + a + 5);; vload (0xA0000 + a + 6);; vload (0xA0000 + a + 7);;
      vstore (0xA0000 + a) (s32 (s32 (b0 + 2 ^ 8 * b1 + 2 ^ 16 * b2 + 2 ^ 24 * b3) + b))) s Q.
Proof.
  intros Hc G4 S2 Hp Ha HQ. remember (gv s) as v eqn:E. symmetry in E. remember (sv s) as z eqn:SV. symmetry in SV.
  assert (L : Z.land p 3 = p) by (assert (p = 0 \/ p = 1 \/ p = 2 \/ p = 3) as [-> | [-> | [-> | ->]]] by lia; done).
  wp_prim. apply wp_planar_load; [by rewrite E | lia |]. hw_next E SV. rewrite G4, L.
  do 7 (wp_prim; rewrite <- Z.add_assoc; apply wp_planar_load; [by rewrite E | lia |]; hw_next E SV).
  apply wp_vstore; [rewrite E; by apply planar_plain|]. hw_next E SV. rewrite low_byte_add in E.
  destruct (planar_window v a Hc ltac:(lia)) as (H1 & H2 & H3 & _ & H5).
  unfold vga_write in E. rewrite H1, H2, H3 in E. apply HQ; [by rewrite E | done |].
  intros p' q. rewrite E. unfold set_vplane. cbn [vplane]. rewrite H5, S2, Z.pow2_bits_eqb by lia.
  rewrite (Z.eqb_sym p p'). destruct (p' =? p) eqn:Ep; zbool; [subst p'|by rewrite andb_false_r].
  replace ((0 <=? p) && (p <? 4)) with true by (symmetry; apply andb_true_iff; lia). done.
Qed.

Lemma wp_add_bit s p x y (Q : unit -> S -> Prop) :
  planar_cfg (gv s) -> 0 <= p < 4 -> 0 <= x < 640 -> 0 <= y < 480 ->
  (forall s', planar_cfg (gv s') -> sv s' = sv s ->
     plane_added p (pix_addr x y) (2 ^ pix_bit x) (gv s) (gv s') -> Q tt s') ->
  wp (add_bit p x y) s Q.
Proof.
  intros Hc Hp Hx Hy HQ. unfold add_bit, consolevgaplane, consolevgabuffer.
  assert (L2 : u8 (Z.land p 3) = p /\ u8 (Z.shiftl 1 (Z.land p 3)) = 2 ^ p)
    by (assert (p = 0 \/ p = 1 \/ p = 2 \/ p = 3) as [-> | [-> | [-> | ->]]] by lia; done).
  destruct L2 as (L2 & L3).
  remember (gv s) as v eqn:E. symmetry in E. remember (sv s) as z eqn:SV. symmetry in SV.
  pose proof Hc as (E4 & E1 & E3 & E5 & E6 & E8).
  do 5 hw_step E SV. hw_in E SV 5 E6. wp_prim. rewrite L2, L3 in E.
  change (if Z.land (Z.shiftr 5 2) 3 <? 2 then 0xA0000 else _) with 0xA0000.
  assert (Ha : Z.quot (640 * y + x) 8 = pix_addr x y) by (unfold pix_addr; apply Z.quot_div_nonneg; lia).
  rewrite Ha, binaryStuff_bit by lia. set (a := pix_addr x y) in *.
  assert (Hr : 0 <= a < 38400) by (unfold a, pix_addr; Z.to_euclidean_division_equations; lia).
  assert (Hc' : planar_cfg (gv s5))
    by (rewrite E; split_and!; first [exact E4 | exact E1 | exact E3 | exact E5 | exact E6 | exact E8]).
  apply (wp_add_byte s5 p a (2 ^ pix_bit x)); try done; try (rewrite E; reflexivity).
  intros s6 R6 S6 A6. apply HQ; [unfold planar_cfg; by rewrite R6 | congruence |].
  intros p' q. rewrite A6, E. reflexivity.
Qed.

(** The colour of a pixel: bit [p] is in plane [p]. *)
Definition pix_plane (v : vga) (x y p : Z) : bool := Z.testbit (vplane v p (pix_addr x y)) (pix_bit x).
Definition pixel (v : vga) (x y : Z) : Z :=
  Z.b2z (pix_plane v x y 0) + 2 * Z.b2z (pix_plane v x y 1) +
  4 * Z.b2z (pix_plane v x y 2) + 8 * Z.b2z (pix_plane v x y 3).

(** The planes after the planes of the colour [c] have been added. *)
Definition colour_added (c a b : Z) (v v' : vga) : Prop :=
  forall p q, 0 <= p < 4 ->
    vplane v' p q = if Z.testbit c p && (q =? a) then u8 (vplane v p a + b) else vplane v p q.

Lemma wp_maybe_add s p x y (d : bool) (Q : unit -> S -> Prop) :
  planar_cfg (gv s) -> 0 <= p < 4 -> 0 <= x < 640 -> 0 <= y < 480 ->
  (forall s', planar_cfg (gv s') -> sv s' = sv s ->
     (forall p' q, vplane (gv s') p' q = if (p' =? p) && d && (q =? pix_addr x y)
        then u8 (vplane (gv s) p (pix_addr x y) + 2 ^ pix_bit x) else vplane (gv s) p' q) -> Q tt s') ->
  wp (if d then add_bit p x y else mret tt) s Q.
Proof.
  intros Hc Hp Hx Hy HQ. destruct d.
  - apply wp_add_bit; try done. intros s' ? ? Ha. apply HQ; try done. intros p' q. rewrite Ha. by rewrite andb_true_r.
  - wp_prim. apply HQ; try done. intros p' q. by rewrite andb_false_r.
Qed.

Lemma colour_bits c : 0 <= c < 16 ->
  let d3 := 0 <=? c - 8 in let c1 := if d3 then c - 8 else c in
  let d2 := 0 <=? c1 - 4 in let c2 := if d2 then c1 - 4 else c1 in
  let d1 := 0 <=? c2 - 2 in let c3 := if d1 then c2 - 2 else c2 in
  d3 = Z.testbit c 3 /\ d2 = Z.testbit c 2 /\ d1 = Z.testbit c 1 /\ (0 <=? c3 - 1) = Z.testbit c 0.
Proof.
  intros Hc. assert (exists n, (n < 16)%nat /\ c = Z.of_nat n) as (n & Hn & ->) by (exists (Z.to_nat c); lia).
  do 16 (destruct n as [|n]; [done|]). lia.
Qed.

Lemma wp_setpixel_12 s x y c (Q : Z -> S -> Prop) :
  currentvgamode (sv s) = 0x12 -> planar_cfg (gv s) -> 0 <= x < 640 -> 0 <= y < 480 -> 0 <= c < 16 ->
  (forall s', planar_cfg (gv s') -> sv s' = sv s ->
     colour_added c (pix_addr x y) (2 ^ pix_bit x) (gv s) (gv s') -> Q 0 s') ->
  wp (setpixel x y c) s Q.
Proof.
  intros Hm Hc Hx Hy Hcol HQ. unfold setpixel, vget. wp_step. fold (sv s). rewrite Hm.
  change (0x12 =? 0x13) with false. change (0x12 =? 0x12) with true. cbn iota.
  destruct (colour_bits c Hcol) as (B3 & B2 & B1 & B0). cbv zeta. rewrite B3 in *. rewrite B2 in *. rewrite B1 in *. rewrite B0.
  wp_prim. apply wp_maybe_add; try done. intros s1 C1 S1 A1.
  wp_prim. apply wp_maybe_add; try done. intros s2 C2 S2 A2.
  wp_prim. apply wp_maybe_add; try done. intros s3 C3 S3 A3.
  wp_prim. apply wp_maybe_add; try done. intros s4 C4 S4 A4. wp_prim.
  apply HQ; [done | congruence |]. intros p q Hp. rewrite A4, !A3, !A2, !A1.
  assert (p = 0 \/ p = 1 \/ p = 2 \/ p = 3) as [-> | [-> | [-> | ->]]] by lia; cbn; done.
Qed.

Lemma testbit_add b k j : 0 <= b < 256 -> 0 <= k < 8 -> Z.testbit b k = false ->
  Z.testbit (u8 (b + 2 ^ k)) j = (k =? j) || Z.testbit b j.
Proof.
  intros Hb Hk Hbit.
  assert (Hl : Z.land b (2 ^ k) = 0).
  { apply Z.bits_inj'. intros n Hn. rewrite Z.land_spec, Z.bits_0, Z.pow2_bits_eqb by lia.
    destruct (k =? n) eqn:E; zbool; [subst; by rewrite Hbit | apply andb_false_r]. }
  assert (He : b + 2 ^ k = Z.lor b (2 ^ k)) by (rewrite Z.add_nocarry_lxor, Z.lxor_lor by done; done).
  rewrite u8_small.
  - rewrite He, Z.lor_spec, Z.pow2_bits_eqb by lia. apply orb_comm.
  - rewrite He. destruct (Z.lor_nonneg b (2 ^ k)) as [_ Hn]. split; [apply Hn; split; [lia | apply Z.pow_nonneg; lia]|].
    destruct (decide (Z.lor b (2 ^ k) <= 0)); [lia|].
    apply (Z.log2_lt_pow2 _ 8); [lia|]. rewrite Z.log2_lor by (lia || (apply Z.pow_nonneg; lia)).
    apply Z.max_lub_lt; [|rewrite Z.log2_pow2; lia]. destruct (decide (b = 0)) as [->|]; [done|].
    apply Z.log2_lt_pow2; lia.
Qed.

Lemma pix_inj x y x' y' : 0 <= x < 640 -> 0 <= x' < 640 ->
  pix_addr x y = pix_addr x' y' -> pix_bit x = pix_bit x' -> x = x' /\ y = y'.
Proof. unfold pix_addr, pix_bit. intros. Z.to_euclidean_division_equations. lia. Qed.

(** In mode 0x12, [setpixel] on a black pixel of the screen gives it the colour
    [c] (0 to 15) and changes no other pixel of the screen. *)
Theorem setpixel_12_draws (s : S) x y c :
  currentvgamode (sv s) = 0x12 -> planar_cfg (gv s) -> (forall p q, 0 <= vplane (gv s) p q < 256) ->
  0 <= x < 640 -> 0 <= y < 480 -> 0 <= c < 16 -> pixel (gv s) x y = 0 ->
  exists s', setpixel x y c s = Ret 0 s' /\ planar_cfg (gv s') /\ sv s' = sv s /\ pixel (gv s') x y = c /\
    forall x' y', 0 <= x' < 640 -> 0 <= y' < 480 -> (x', y') <> (x, y) -> pixel (gv s') x' y' = pixel (gv s) x' y'.
Proof.
  intros Hm Hc Hb Hx Hy Hcol Hblack.
  assert (wp (setpixel x y c) s (fun r s' => r = 0 /\ planar_cfg (gv s') /\ sv s' = sv s /\
    colour_added c (pix_addr x y) (2 ^ pix_bit x) (gv s) (gv s'))) as (r & s' & E & -> & H1 & H2 & H3).
  { apply wp_setpixel_12; try done. }
  exists s'. split; [done|]. split; [done|]. split; [done|].
  assert (Hbit : forall p, 0 <= p < 4 -> pix_plane (gv s) x y p = false).
  { unfold pixel in Hblack. intros p Hp.
    assert (p = 0 \/ p = 1 \/ p = 2 \/ p = 3) as [-> | [-> | [-> | ->]]] by lia;
      destruct (pix_plane (gv s) x y 0), (pix_plane (gv s) x y 1), (pix_plane (gv s) x y 2), (pix_plane (gv s) x y 3);
      simpl in *; lia || done. }
  assert (Hkr : 0 <= pix_bit x < 8) by (unfold pix_bit; pose proof (Z.mod_pos_bound x 8); lia).
  assert (Hpl : forall p, 0 <= p < 4 -> forall x' y',
    pix_plane (gv s') x' y' p = (Z.testbit c p && (pix_addr x' y' =? pix_addr x y) && (pix_bit x =? pix_bit x'))
                                || pix_plane (gv s) x' y' p).
  { intros p Hp x' y'. unfold pix_plane. rewrite H3 by done. destruct (Z.testbit c p); cbn [andb]; [|done].
    destruct (pix_addr x' y' =? pix_addr x y) eqn:Ea; cbn [andb]; [|done]. zbool.
    rewrite testbit_add; [by rewrite Ea | done | done | by apply Hbit]. }
  unfold pixel. split.
  - rewrite !Hpl, !Hbit by lia. rewrite !Z.eqb_refl, !andb_true_r, !orb_false_r.
    assert (exists n, (n < 16)%nat /\ c = Z.of_nat n) as (n & Hn & ->) by (exists (Z.to_nat c); lia).
    do 16 (destruct n as [|n]; [done|]). lia.
  - intros x' y' Hx' Hy' Hne. rewrite !Hpl by lia.
    replace (pix_addr x' y' =? pix_addr x y) with ((pix_addr x' y' =? pix_addr x y) && negb (pix_bit x =? pix_bit x')).
    + destruct (pix_addr x' y' =? pix_addr x y), (pix_bit x =? pix_bit x'); cbn [andb negb]; rewrite ?andb_false_r; done.
    + destruct (pix_addr x' y' =? pix_addr x y) eqn:Ea; [|done]. cbn [andb]. apply negb_true_iff, Z.eqb_neq.
      intros Hb'. zbool. destruct (pix_inj x' y' x y) as [-> ->]; done.
Qed.

End Progs.
(** ** An adapter that behaves as documented *)

#[export] Instance ideal_hw : VgaHw vga := {|
  hw_outb := fun p x => modify (vga_out p x);
  hw_inb := fun p v =>
    match data_port p with
    | Some b => Ret (vreg v b (vidx v b)) v
    | None => if p =? VGA_INSTAT_READ then Ret 0 (set_vff true v) else Ret 0 v
    end;
  hw_load := fun a => gets (vga_read a);
  hw_store := fun a x => modify (vga_write a x)
|}.

#[export, program] Instance ideal_laws : VgaLaws vga := {| vv := fun v => v |}.
Next Obligation. intros. apply wp_modify. auto. Qed.
Next Obligation. intros p b d Q Hp HQ. exists (vreg d b (vidx d b)), d. simpl. rewrite Hp. auto. Qed.
Next Obligation. intros d Q HQ. exists 0, (set_vff true d). auto. Qed.
Next Obligation.
  intros p d Q Hp Hne HQ. exists 0, d. simpl. rewrite Hp. replace (p =? VGA_INSTAT_READ) with false by lia.
  split; [done|]. apply HQ; [lia | done].
Qed.
Next Obligation. intros. apply wp_gets. auto. Qed.
Next Obligation. intros. apply wp_modify. auto. Qed.

Abbreviation vsys := (vga * vst)%type.

Definition vars0 (m : Z) : vst :=
  {| currentvgamode := m; cursorPos := 0; registerCopy := replicate 2000 0;
     tab_text := registers_80x25_text; tab_13 := registers_320x200x256; tab_12 := registers_640x480x16 |}.

(** The text mode with the CRT controller locked, the cursor at the last cell of the
    screen and every cell up to there an [x]. *)
Definition text_screen : vga :=
  {| vidx := fun _ => 0;
     vreg := fun b i => match b with
       | CRTC => if i =? 14 then 7 else if i =? 15 then 127 else if i =? 17 then 0x8E else 0
       | _ => zget 0 (tab_of registers_80x25_text b) i end;
     vff := false; vmisc := 0;
     vplane := fun p q => if p =? 0 then (if q <? 2 * 1919 then 120 else 32) else if p =? 1 then 7 else 0 |}.
Definition screen_term : term :=
  {| tpos := 1919; tcells := fun i => if i <? 1919 then 0x778 else 0x720 |}.

Lemma text_screen_shows : shows text_screen (tcells screen_term).
Proof.
  split; [by vm_compute|]. split.
  - intros o. unfold tbyte. simpl. repeat case_bool; lia.
  - intros i Hi. unfold tcell, tbyte. replace ((2 * i) mod 2) with 0 by (Z.to_euclidean_division_equations; lia).
    replace ((2 * i + 1) mod 2) with 1 by (Z.to_euclidean_division_equations; lia).
    cbn [text_screen vplane screen_term tcells]. change (0 =? 0) with true. change (1 =? 0) with false.
    change (1 =? 1) with true. cbn iota. repeat case_bool; zbool; lia.
Qed.

Lemma cgaputc_terminal_witness :
  exists s', cgaputc (S := vsys) (D := vga) 33 (text_screen, vars0 3) = Ret tt s' /\
    tcell (gv s') 1839 = 0x721 /\ tcell (gv s') 1840 = 0x720 /\ cursor_is (gv s') 1840.
Proof.
  destruct (cgaputc_terminal (S := vsys) (D := vga) (text_screen, vars0 3) 33 screen_term)
    as (s' & E & (_ & _ & Hc) & Hcur & _).
  - reflexivity.
  - exact text_screen_shows.
  - vm_compute. split; reflexivity.
  - unfold term_ok, SCREEN. simpl. lia.
  - exists s'. split; [exact E|]. rewrite !Hc by (unfold CELLS; lia). split; [reflexivity|].
    split; [reflexivity | exact Hcur].
Defined.

Lemma writeVideoRegisters_loads_witness :
  exists s', writeVideoRegisters (S := vsys) (D := vga) 0x13 (text_screen, vars0 3) = Ret tt s' /\
    vreg (gv s') CRTC 1 = 0x4F /\ vreg (gv s') SEQ 4 = 0x0E /\ vreg (gv s') GC 6 = 5.
Proof.
  destruct (writeVideoRegisters_loads (S := vsys) (D := vga) (text_screen, vars0 3) 0x13)
    as (s' & E & _ & _ & Hr).
  - reflexivity.
  - apply bytes_check. vm_compute. reflexivity.
  - exists s'. split; [exact E|]. rewrite !Hr. split; [|split]; vm_compute; reflexivity.
Defined.

Lemma graphics_output_preserved_witness :
  exists s' f, (consolevgamode (S := vsys) (D := vga) 0x13;; for_each cgaputc [104; 105; 10; 33];;
                consolevgamode 0x03) (text_screen, vars0 3) = Ret 0 s' /\ shows (gv s') f /\
    glyph (f 1759) = 104 /\ glyph (f 1760) = 105 /\ glyph (f 1840) = 33.
Proof.
  destruct (graphics_output_preserved (S := vsys) (D := vga) (text_screen, vars0 3) 0x13 [104; 105; 10; 33] screen_term)
    as (s' & f & E & _ & Hsh & _ & _ & Hg).
  - reflexivity.
  - split_and!; reflexivity.
  - vm_compute. reflexivity.
  - exact text_screen_shows.
  - vm_compute. split; reflexivity.
  - unfold term_ok, SCREEN. simpl. lia.
  - split; [reflexivity|]. split; [intros; reflexivity|]. intros i Hi.
    cbn [screen_term tpos tcells] in *. rewrite (proj2 (Z.ltb_ge _ _)) by lia. reflexivity.
  - right. reflexivity.
  - repeat constructor; discriminate.
  - exists s', f. split; [exact E|]. split; [exact Hsh|].
    rewrite (proj1 (Hg 1759 ltac:(unfold CELLS; lia))), (proj1 (Hg 1760 ltac:(unfold CELLS; lia))),
      (proj1 (Hg 1840 ltac:(unfold CELLS; lia))).
    vm_compute. split; [|split]; reflexivity.
Defined.

(** A black screen in mode 0x12. *)
Definition black_12 : vga :=
  {| vidx := fun _ => 0; vreg := fun b i => zget 0 (tab_of registers_640x480x16 b) i;
     vff := false; vmisc := 0; vplane := fun _ _ => 0 |}.

Lemma setpixel_12_draws_witness :
  exists s', setpixel (S := vsys) (D := vga) 639 479 11 (black_12, vars0 0x12) = Ret 0 s' /\
    pixel (gv s') 639 479 = 11 /\ pixel (gv s') 638 479 = 0.
Proof.
  destruct (setpixel_12_draws (S := vsys) (D := vga) (black_12, vars0 0x12) 639 479 11)
    as (s' & E & _ & _ & Hp & Ho).
  - reflexivity.
  - vm_compute. split_and!; reflexivity.
  - intros p q. simpl. lia.
  - lia.
  - lia.
  - lia.
  - vm_compute. reflexivity.
  - exists s'. split; [exact E|]. split; [exact Hp|]. rewrite Ho; [vm_compute; reflexivity | lia | lia | congruence].
Defined.

(** Drawing a pixel twice adds its bit twice: the pixel goes out and its left
    neighbour lights up. *)
Lemma setpixel_12_twice :
  match (setpixel (S := vsys) (D := vga) 9 0 1;; setpixel 9 0 1) (black_12, vars0 0x12) with
  | Ret _ s' => pixel (gv s') 9 0 = 0 /\ pixel (gv s') 8 0 = 1
  | _ => False
  end.
Proof. vm_compute. split; reflexivity. Qed.

End VgaProof.
