(* ===== verification/KbdData.v ===== *)
(** * Keyboard tables of kbd.h

    Indexed by scan code: the modifier keys, the toggle keys, and the characters
    without modifier, with Shift and with Control. *)

From Stdlib Require Import ZArith String.
From S2P Require Import Prelude VgaData.

Definition shiftcode : list Z :=
  hex "00000000000000000000000000000000" ++
  hex "00000000000000000000000000020000" ++
  hex "00000000000000000000010000000000" ++
  hex "00000000000001000400000000000000" ++
  hex "00000000000000000000000000000000" ++
  hex "00000000000000000000000000000000" ++
  hex "00000000000000000000000000000000" ++
  hex "00000000000000000000000000000000" ++
  hex "00000000000000000000000000000000" ++
  hex "00000000000000000000000000020000" ++
  hex "00000000000000000000000000000000" ++
  hex "00000000000000000400000000000000" ++
  hex "00000000000000000000000000000000" ++
  hex "00000000000000000000000000000000" ++
  hex "00000000000000000000000000000000" ++
  hex "00000000000000000000000000000000".

Definition togglecode : list Z :=
  hex "00000000000000000000000000000000" ++
  hex "00000000000000000000000000000000" ++
  hex "00000000000000000000000000000000" ++
  hex "00000000000000000000080000000000" ++
  hex "00000000001020000000000000000000" ++
  hex "00000000000000000000000000000000" ++
  hex "00000000000000000000000000000000" ++
  hex "00000000000000000000000000000000" ++
  hex "00000000000000000000000000000000" ++
  hex "00000000000000000000000000000000" ++
  hex "00000000000000000000000000000000" ++
  hex "00000000000000000000000000000000" ++
  hex "00000000000000000000000000000000" ++
  hex "00000000000000000000000000000000" ++
  hex "00000000000000000000000000000000" ++
  hex "00000000000000000000000000000000".

Definition normalmap : list Z :=
  hex "001B313233343536373839302D3D0809" ++
  hex "71776572747975696F705B5D0A006173" ++
  hex "646667686A6B6C3B2760005C7A786376" ++
  hex "626E6D2C2E2F002A0020000000000000" ++
  hex "000000000000003738392D3435362B31" ++
  hex "3233302E000000000000000000000000" ++
  hex "00000000000000000000000000000000" ++
  hex "00000000000000000000000000000000" ++
  hex "00000000000000000000000000000000" ++
  hex "00000000000000E0000000000A000000" ++
  hex "00000000000000000000000000000000" ++
  hex "00000000002F00000000000000000000" ++
  hex "0000000000000000E2E600E400E500E1" ++
  hex "E3E7E8E9000000000000000000000000" ++
  hex "00000000000000000000000000000000" ++
  hex "00000000000000000000000000000000".

Definition shiftmap : list Z :=
  hex "001B21402324255E262A28295F2B0809" ++
  hex "51574552545955494F507B7D0A004153" ++
  hex "444647484A4B4C3A227E007C5A584356" ++
  hex "424E4D3C3E3F002A0020000000000000" ++
  hex "000000000000003738392D3435362B31" ++
  hex "3233302E000000000000000000000000" ++
  hex "00000000000000000000000000000000" ++
  hex "00000000000000000000000000000000" ++
  hex "00000000000000000000000000000000" ++
  hex "00000000000000E0000000000A000000" ++
  hex "00000000000000000000000000000000" ++
  hex "00000000002F00000000000000000000" ++
  hex "0000000000000000E2E600E400E500E1" ++
  hex "E3E7E8E9000000000000000000000000" ++
  hex "00000000000000000000000000000000" ++
  hex "00000000000000000000000000000000".

Definition ctlmap : list Z :=
  hex "00000000000000000000000000000000" ++
  hex "11170512141915090F1000000D000113" ++
  hex "040607080A0B0C000000001C1A180316" ++
  hex "020E0D0000EF00000000000000000000" ++
  hex "00000000000000000000000000000000" ++
  hex "00000000000000000000000000000000" ++
  hex "00000000000000000000000000000000" ++
  hex "00000000000000000000000000000000" ++
  hex "00000000000000000000000000000000" ++
  hex "00000000000000E0000000000D000000" ++
  hex "00000000000000000000000000000000" ++
  hex "0000000000EF00000000000000000000" ++
  hex "0000000000000000E2E600E400E500E1" ++
  hex "E3E7E8E9000000000000000000000000" ++
  hex "00000000000000000000000000000000" ++
  hex "00000000000000000000000000000000".
