(* ===== verification/Console.v ===== *)
(** * The console: keyboard, serial port, line editing (console.c, kbd.c, uart.c)

    Characters arrive from the keyboard or the serial port, are echoed and edited in
    a ring of 128 bytes, and become available to readers a line at a time. *)

From stdpp Require Import base list strings.
From Stdlib Require Import ZArith Lia.
From S2P Require Import Prelude Format Core Locking Bio Log Tx Fs KbdData VgaData Vga.

Module Console.

Definition INPUT_BUF : Z := 128.
Definition COM1 : Z := 0x3f8.
Definition KBSTATP : Z := 0x64.
Definition KBDATAP : Z := 0x60.
Definition CAPSLOCK : Z := 8.
Definition E0ESC : Z := 64.
Definition CONSOLE : Z := 1.

(** [C('x')]: the control character. *)
Definition ctl (c : Z) : Z := c - 64.
Definition ctl_P : Z := ctl 80.
Definition ctl_U : Z := ctl 85.
Definition ctl_H : Z := ctl 72.
Definition ctl_D : Z := ctl 68.
Definition ch_del : Z := 127.

(** The variables of console.c ([panicked], [cons.locking], [input]), kbd.c
    ([shift]) and uart.c ([uart]). *)
Record cvars : Type := {
  panicked : bool;
  locking : bool;
  kshift : Z;
  uart : bool;
  ibuf : list Z;
  ir : Z;
  iw : Z;
  ie : Z
}.

Definition set_kshift (x : Z) (v : cvars) : cvars :=
  {| panicked := panicked v; locking := locking v; kshift := x; uart := uart v; ibuf := ibuf v;
     ir := ir v; iw := iw v; ie := ie v |}.
Definition set_uart (b : bool) (v : cvars) : cvars :=
  {| panicked := panicked v; locking := locking v; kshift := kshift v; uart := b; ibuf := ibuf v;
     ir := ir v; iw := iw v; ie := ie v |}.
Definition set_locking (b : bool) (v : cvars) : cvars :=
  {| panicked := panicked v; locking := b; kshift := kshift v; uart := uart v; ibuf := ibuf v;
     ir := ir v; iw := iw v; ie := ie v |}.
Definition set_input (l : list Z) (r w e : Z) (v : cvars) : cvars :=
  {| panicked := panicked v; locking := locking v; kshift := kshift v; uart := uart v; ibuf := l;
     ir := r; iw := w; ie := e |}.

Section Ops.
Context {S W D : Type} {HLw : Lens S W} {HLd : Lens W D} {HLv : Lens W Vga.vst} {HHw : VgaHw D}
  {HLc : Lens S core} {HLx : Lens S cvars}.
(** The return addresses on the stack of a sleeping process ([Panic.getcallerpcs] of its saved
    frame pointer, which [struct proc] here does not have). *)
Context (callerpcs : proc -> list Z).

Definition cget {A} (f : cvars -> A) : M S A := lgets (T := cvars) f.
Definition cmod (f : cvars -> cvars) : M S unit := lmod (T := cvars) f.
Definition inb (p : Z) : M S Z := zoom (Vga.inb p : M W Z).
Definition outb (p x : Z) : M S unit := zoom (Vga.outb p x : M W unit).

(** ** uart.c *)

Fixpoint uart_wait (n : nat) : M S unit :=
  match n with
  | O => mret tt
  | Datatypes.S n' =>
      x ← inb (COM1 + 5);
      if Z.land x 0x20 =? 0 then uart_wait n' else mret tt
  end.

Definition uartputc (c : Z) : M S unit :=
  on ← cget uart;
  if negb (on : bool) then mret tt
  else uart_wait 128;; outb (COM1 + 0) c.

(** [enable] is the call of [ioapicenable] ([Machine.ioapicenable], see [Main]). *)
Definition uartinit (enable : M S unit) : M S unit :=
  outb (COM1 + 2) 0;;
  outb (COM1 + 3) 0x80;;
  outb (COM1 + 0) (115200 / 9600);;
  outb (COM1 + 1) 0;;
  outb (COM1 + 3) 0x03;;
  outb (COM1 + 4) 0;;
  outb (COM1 + 1) 0x01;;
  x ← inb (COM1 + 5);
  if x =? 0xFF then mret tt
  else
    cmod (set_uart true);;
    inb (COM1 + 2);; inb (COM1 + 0);;
    enable;;
    for_each uartputc (bytes_of_string "xv6..." ++ [ch_nl]).

Definition uartgetc : M S Z :=
  on ← cget uart;
  if negb (on : bool) then mret (-1)
  else
    x ← inb (COM1 + 5);
    if Z.land x 0x01 =? 0 then mret (-1) else inb (COM1 + 0).

(** ** kbd.c *)

Definition charcode (i : Z) : list Z :=
  if i =? 0 then normalmap else if i =? 1 then shiftmap else ctlmap.

(** The part of [kbdgetc] after the scan code has been read: the new shift state and
    the character. *)
Definition kbd_code (shift data : Z) : Z * Z :=
  if data =? 0xE0 then (Z.lor shift E0ESC, 0)
  else if negb (Z.land data 0x80 =? 0) then
    let data := if negb (Z.land shift E0ESC =? 0) then data else Z.land data 0x7F in
    (Z.land shift (Z.lnot (Z.lor (zget 0 shiftcode data) E0ESC)), 0)
  else
    let esc := negb (Z.land shift E0ESC =? 0) in
    let data := if esc then Z.lor data 0x80 else data in
    let shift := if esc then Z.land shift (Z.lnot E0ESC) else shift in
    let shift := Z.lor shift (zget 0 shiftcode data) in
    let shift := Z.lxor shift (zget 0 togglecode data) in
    let c := zget 0 (charcode (Z.land shift 3)) data in
    let c := if negb (Z.land shift CAPSLOCK =? 0) then
               if (97 <=? c) && (c <=? 122) then c + (65 - 97)
               else if (65 <=? c) && (c <=? 90) then c + (97 - 65) else c
             else c in
    (shift, c).

Definition kbdgetc : M S Z :=
  st ← inb KBSTATP;
  if Z.land st 0x01 =? 0 then mret (-1)
  else
    data ← inb KBDATAP;
    sh ← cget kshift;
    (let '(sh', c) := kbd_code sh data in
     cmod (set_kshift sh');; mret c).

(** ** Output *)

(** After a panic the other CPUs stop here. *)
Definition consputc (c : Z) : M S unit :=
  p ← cget panicked;
  if (p : bool) then cli;; spin
  else
    (if c =? Vga.BACKSPACE then uartputc 8;; uartputc ch_space;; uartputc 8
     else uartputc c);;
    zoom (Vga.cgaputc c : M W unit).

(** One [cprintf], given the characters it prints. *)
Definition cputs (l : list Z) : M S unit :=
  lk ← cget locking;
  (if (lk : bool) then acquire L_cons else mret tt);;
  for_each consputc l;;
  if (lk : bool) then release L_cons else mret tt.

(** ** procdump *)

Definition state_name (st : procstate) : list Z :=
  bytes_of_string (match st with
    | UNUSED => "unused" | EMBRYO => "embryo" | SLEEPING => "sleep "
    | RUNNABLE => "runble" | RUNNING => "run   " | ZOMBIE => "zombie" end).

Fixpoint nonzero_prefix (l : list Z) : list Z :=
  match l with
  | [] => []
  | x :: l' => if x =? 0 then [] else x :: nonzero_prefix l'
  end.

Definition procdump_one (p : proc) : M S unit :=
  if bool_decide (pstate p = UNUSED) then mret tt
  else
    cputs (Int.kprintint (pid p) 10 true ++ [ch_space] ++ state_name (pstate p) ++ [ch_space] ++ pname p);;
    (if bool_decide (pstate p = SLEEPING) then
       for_each (fun pc => cputs (ch_space :: Int.kprintint (s32 pc) 16 false))
         (nonzero_prefix (take 10 (callerpcs p)))
     else mret tt);;
    cputs [ch_nl].

Definition procdump : M S unit :=
  ps ← core_get procs;
  for_each procdump_one ps.

(** ** Line editing *)

(** [while(input.e != input.w && input.buf[(input.e-1) % INPUT_BUF] != '\n')]; the
    loop ends after at most [e - w] rounds. *)
Fixpoint kill_line (fuel : nat) : M S unit :=
  match fuel with
  | O => mret tt
  | Datatypes.S f =>
      x ← cget (fun v => v);
      if negb (ie x =? iw x) && negb (zget 0 (ibuf x) (u32 (ie x - 1) mod INPUT_BUF) =? ch_nl) then
        cmod (fun v => set_input (ibuf v) (ir v) (iw v) (u32 (ie v - 1)) v);;
        consputc Vga.BACKSPACE;;
        kill_line f
      else mret tt
  end.

(** The [switch] of [consoleintr]; the result is true for control-P. *)
Definition cons_char (c : Z) : M S bool :=
  if c =? ctl_P then mret true
  else if c =? ctl_U then
    n ← cget (fun v => u32 (ie v - iw v));
    kill_line (Datatypes.S (Z.to_nat n));;
    mret false
  else if (c =? ctl_H) || (c =? ch_del) then
    x ← cget (fun v => v);
    (if negb (ie x =? iw x) then
       cmod (fun v => set_input (ibuf v) (ir v) (iw v) (u32 (ie v - 1)) v);;
       consputc Vga.BACKSPACE
     else mret tt);;
    mret false
  else
    x ← cget (fun v => v);
    (if negb (c =? 0) && (u32 (ie x - ir x) <? INPUT_BUF) then
       let c := if c =? ch_cr then ch_nl else c in
       cmod (fun v => set_input (zset (ibuf v) (ie v mod INPUT_BUF) (s8 c)) (ir v) (iw v) (u32 (ie v + 1)) v);;
       consputc c;;
       x ← cget (fun v => v);
       if (c =? ch_nl) || (c =? ctl_D) || (ie x =? u32 (ir x + INPUT_BUF)) then
         cmod (fun v => set_input (ibuf v) (ir v) (ie v) (ie v) v);;
         wakeup ch_input
       else mret tt
     else mret tt);;
    mret false.

(** [fuel] bounds the number of characters one interrupt delivers. *)
Fixpoint intr_loop (fuel : nat) (getc : M S Z) (dump : bool) : M S bool :=
  match fuel with
  | O => spin
  | Datatypes.S f =>
      c ← getc;
      if c <? 0 then mret dump
      else d ← cons_char c; intr_loop f getc (dump || d)
  end.

Definition consoleintr (fuel : nat) (getc : M S Z) : M S unit :=
  acquire L_cons;;
  dump ← intr_loop fuel getc false;
  release L_cons;;
  if (dump : bool) then procdump else mret tt.

Definition kbdintr (fuel : nat) : M S unit := consoleintr fuel kbdgetc.
Definition uartintr (fuel : nat) : M S unit := consoleintr fuel uartgetc.

(** Poll the keyboard; [fuel] bounds the number of polls. *)
Fixpoint poll_kbd (fuel : nat) : M S Z :=
  match fuel with
  | O => spin
  | Datatypes.S f =>
      c ← kbdgetc;
      if c <=? 0 then
        (if c =? 0 then kbdgetc;; mret tt else mret tt);;
        poll_kbd f
      else mret c
  end.

Definition consoleget (fuel : nat) : M S Z :=
  acquire L_cons;;
  c ← poll_kbd fuel;
  release L_cons;;
  mret c.

(** ** Reading and writing *)

Definition my_killed : M S bool :=
  p ← myproc; core_get (fun c => killed (getp c (default O p))).

(** Wait for input; false when the process has been killed. *)
Fixpoint read_wait (fuel : nat) : M S bool :=
  match fuel with
  | O => spin
  | Datatypes.S f =>
      x ← cget (fun v => v);
      if ir x =? iw x then
        k ← my_killed;
        if (k : bool) then mret false
        else sleep ch_input L_cons;; read_wait f
      else mret true
  end.

(** The outer loop of [consoleread]: what is left of [n] and the bytes read, or
    nothing when the process has been killed.  [wf] bounds the wakeups. *)
Fixpoint read_loop (fuel wf : nat) (n target : Z) (acc : list Z) : M S (option (Z * list Z)) :=
  match fuel with
  | O => mret (Some (n, acc))
  | Datatypes.S f =>
      if 0 <? n then
        ok ← read_wait wf;
        if negb (ok : bool) then mret None
        else
          c ← cget (fun v => zget 0 (ibuf v) (ir v mod INPUT_BUF));
          cmod (fun v => set_input (ibuf v) (u32 (ir v + 1)) (iw v) (ie v) v);;
          if c =? ctl_D then
            (if n <? target then
               cmod (fun v => set_input (ibuf v) (u32 (ir v - 1)) (iw v) (ie v) v)
             else mret tt);;
            mret (Some (n, acc))
          else if c =? ch_nl then mret (Some (n - 1, acc ++ [u8 c]))
          else read_loop f wf (n - 1) target (acc ++ [u8 c])
      else mret (Some (n, acc))
  end.

Section Inodes.
Context {T : Type} {HLT : Lens S T} {HTx : TxLayer T} {HLtc : Lens T core} {HLts : Lens T Sleeplock.slocktab}
  {HLi : Lens S Fs.icache} {HLb : Lens S superblock}.

(** [ilock] with the wakeup bound of its sleep lock. *)
Definition consoleread (wf : nat) (ip : nat) (n : Z) : M S (Z * list Z) :=
  Fs.iunlock (T := T) ip;;
  acquire L_cons;;
  r ← read_loop (Datatypes.S (Z.to_nat n)) wf n n [];
  release L_cons;;
  Fs.ilock (T := T) wf ip;;
  match r with
  | None => mret (-1, [])
  | Some (m, l) => mret (n - m, l)
  end.

Definition consolewrite (wf : nat) (ip : nat) (buf : list Z) (n : Z) : M S Z :=
  Fs.iunlock (T := T) ip;;
  acquire L_cons;;
  for_each (fun i => consputc (Z.land (zget 0 buf (Z.of_nat i)) 0xff)) (seq 0 (Z.to_nat n));;
  release L_cons;;
  Fs.ilock (T := T) wf ip;;
  mret n.

(** The entries that [consoleinit] makes in the device table. *)
Definition console_devsw (wf : nat) : Fs.DevSw S := {|
  Fs.dev_read := fun m => if m =? CONSOLE then Some (consoleread wf) else None;
  Fs.dev_write := fun m => if m =? CONSOLE then Some (consolewrite wf) else None
|}.
End Inodes.

(** The device table is [console_devsw]; [enable] is the call of [ioapicenable]. *)
Definition consoleinit (enable : M S unit) : M S unit :=
  initlock L_cons;;
  cmod (set_locking true);;
  enable.

End Ops.
End Console.
