(* ===== verification/ConsoleProof.v ===== *)
(** * The console: proofs

    The ring of console.c holds the committed lines and the line being edited; the
    interrupt handler edits it character by character. *)

From stdpp Require Import base list strings.
From Stdlib Require Import ZArith Lia.
From S2P Require Import Prelude Core Vga VgaProof Console.
Import Console VgaProof.

Module ConsoleProof.

(** ** Line editing, abstractly *)

(** The bytes that readers may take, and the line being edited. *)
Record line : Type := { ready : list Z; editing : list Z }.

Definition edit (c : Z) (l : line) : line :=
  if c =? ctl_P then l
  else if c =? ctl_U then {| ready := ready l; editing := [] |}
  else if (c =? ctl_H) || (c =? ch_del) then {| ready := ready l; editing := removelast (editing l) |}
  else if negb (c =? 0) && (zlen (ready l) + zlen (editing l) <? INPUT_BUF) then
    let c := if c =? ch_cr then ch_nl else c in
    let e := editing l ++ [s8 c] in
    if (c =? ch_nl) || (c =? ctl_D) || (zlen (ready l) + zlen e =? INPUT_BUF)
    then {| ready := ready l ++ e; editing := [] |}
    else {| ready := ready l; editing := e |}
  else l.

Definition edits (cs : list Z) (l : line) : line := foldl (fun l c => edit c l) l cs.

(** The ring of the driver holds the bytes [q] for readers and the line [e]. *)
Definition ring_is (x : cvars) (q e : list Z) : Prop :=
  let b := q ++ e in
  length (ibuf x) = 128%nat /\ 0 <= ir x < 2 ^ 32 /\ zlen b <= INPUT_BUF /\
  iw x = u32 (ir x + zlen q) /\ ie x = u32 (ir x + zlen b) /\
  forall j, 0 <= j < zlen b -> zget 0 (ibuf x) ((ir x + j) mod INPUT_BUF) = zget 0 b j.

Definition input_is (x : cvars) (l : line) : Prop :=
  ring_is x (ready l) (editing l) /\ Forall (fun c => c <> ch_nl) (editing l).

Lemma ring_mod r j : u32 (r + j) mod 128 = (r + j) mod 128.
Proof. unfold u32. Z.to_euclidean_division_equations. lia. Qed.

Lemma ring_len x q e : ring_is x q e -> u32 (ie x - ir x) = zlen q + zlen e /\ u32 (ie x - iw x) = zlen e.
Proof.
  intros (_ & Hr & Hlen & Hw & He & _). rewrite zlen_app in *. pose proof (zlen_nonneg q). pose proof (zlen_nonneg e).
  rewrite Hw, He. unfold INPUT_BUF in *. split; zwrap.
Qed.

Lemma ring_push x q e c : ring_is x q e -> zlen q + zlen e < INPUT_BUF ->
  ring_is (set_input (zset (ibuf x) (ie x mod INPUT_BUF) c) (ir x) (iw x) (u32 (ie x + 1)) x) q (e ++ [c]).
Proof.
  intros (Hl & Hr & Hlen & Hw & He & Hb) Hlt. rewrite <- zlen_app in Hlt.
  unfold ring_is. cbn [set_input ibuf ir iw ie]. rewrite (assoc_L (++)).
  set (b := q ++ e) in *. unfold INPUT_BUF in *. pose proof (zlen_nonneg b).
  rewrite zlen_app, zset_length. change (zlen [c]) with 1.
  split_and!; [done | lia | lia | lia | done | rewrite He; zwrap |].
  rewrite He, ring_mod. intros j Hj. destruct (decide (j = zlen b)) as [->|Hne].
  - rewrite zget_zset_eq; [by rewrite zget_snoc|]. unfold zlen. rewrite Hl. apply Z.mod_pos_bound. lia.
  - rewrite zget_zset_ne, Hb, zget_app_l by (lia || (Z.to_euclidean_division_equations; lia)). done.
Qed.

Lemma ring_commit x q e : ring_is x q e -> ring_is (set_input (ibuf x) (ir x) (ie x) (ie x) x) (q ++ e) [].
Proof.
  intros (Hl & Hr & Hlen & Hw & He & Hb). unfold ring_is. cbn [set_input ibuf ir iw ie].
  rewrite (app_nil_r (q ++ e)). split_and!; done || lia.
Qed.

Lemma ring_last x q e c : ring_is x q (e ++ [c]) ->
  ie x <> iw x /\ zget 0 (ibuf x) (u32 (ie x - 1) mod INPUT_BUF) = c /\
  ring_is (set_input (ibuf x) (ir x) (iw x) (u32 (ie x - 1)) x) q e.
Proof.
  intros (Hl & Hr & Hlen & Hw & He & Hb). rewrite (assoc_L (++)) in *. rewrite zlen_app in *.
  change (zlen [c]) with 1 in *. set (b := q ++ e) in *. unfold INPUT_BUF in *.
  pose proof (zlen_nonneg q). pose proof (zlen_nonneg e). assert (Hbl : zlen b = zlen q + zlen e) by apply zlen_app.
  assert (He1 : u32 (ie x - 1) = u32 (ir x + zlen b)) by (rewrite He; zwrap).
  split_and!.
  - rewrite He, Hw, Hbl. intros E. zwrap.
  - rewrite He1, ring_mod, Hb by lia. apply zget_snoc.
  - unfold ring_is. cbn [set_input ibuf ir iw ie]. fold b. unfold INPUT_BUF.
    split_and!; try done; try lia. intros j Hj. rewrite Hb by lia. by apply zget_app_l; lia.
Qed.

Lemma ring_empty x q : ring_is x q [] -> ie x = iw x.
Proof. intros (_ & _ & _ & Hw & He & _). rewrite app_nil_r in He. congruence. Qed.

Lemma ring_full x q e : ring_is x q e -> (ie x =? u32 (ir x + INPUT_BUF)) = (zlen q + zlen e =? INPUT_BUF).
Proof.
  intros (_ & Hr & Hlen & _ & He & _). rewrite zlen_app in *. rewrite He. pose proof (zlen_nonneg q).
  pose proof (zlen_nonneg e). unfold INPUT_BUF in *. apply eq_true_iff_eq. rewrite !Z.eqb_eq. zwrap.
Qed.

Lemma ring_take x c q e : ring_is x (c :: q) e ->
  ir x <> iw x /\ zget 0 (ibuf x) (ir x mod INPUT_BUF) = c /\
  ring_is (set_input (ibuf x) (u32 (ir x + 1)) (iw x) (ie x) x) q e.
Proof.
  intros (Hl & Hr & Hlen & Hw & He & Hb). cbn [app] in *. rewrite zlen_cons in *. set (b := q ++ e) in *.
  pose proof (zlen_nonneg q). pose proof (zlen_nonneg e). assert (Hbl : zlen b = zlen q + zlen e) by apply zlen_app.
  unfold INPUT_BUF in *. split_and!.
  - rewrite Hw. zwrap.
  - specialize (Hb 0 ltac:(lia)). by rewrite Z.add_0_r in Hb.
  - unfold ring_is. cbn [set_input ibuf ir iw ie]. fold b. unfold INPUT_BUF.
    split_and!; [done | apply u32_range | apply u32_range | lia | rewrite Hw; zwrap | rewrite He; zwrap |].
    intros j Hj. specialize (Hb (j + 1) ltac:(lia)). rewrite zget_cons_S in Hb by lia. rewrite <- Hb. f_equal. zwrap.
Qed.

Lemma ring_untake x q e : ring_is x q e -> u32 (u32 (ir x + 1) - 1) = ir x.
Proof. intros (_ & Hr & _). zwrap. Qed.

(** What a reader gets from the bytes [q] when it asks for [n] of them: up to and
    including a newline, or up to control-D, which is an end of file of its own and
    is kept for the next reader unless it comes first.  The result is what was not
    used of [n], the bytes, and what is left; none while the line is incomplete. *)
Fixpoint take_line (q : list Z) (n : Z) (target : Z) : option (Z * list Z * list Z) :=
  if 0 <? n then
    match q with
    | [] => None
    | c :: q' =>
        if c =? ctl_D then Some (n, [], if n <? target then q else q')
        else if c =? ch_nl then Some (n - 1, [u8 c], q')
        else match take_line q' (n - 1) target with
             | None => None
             | Some (m, l, r) => Some (m, u8 c :: l, r)
             end
    end
  else Some (n, [], q).

Section Progs.
Context {S W D : Type} {HLw : Lens S W} {HLd : Lens W D} {HLv : Lens W Vga.vst} {HHw : VgaHw D} {HHl : VgaLaws D}
  {HLc : Lens S core} {HLx : Lens S cvars} {HLp : Lens S (list Z)}.
Context {O1 : LensOk S W} {O2 : LensOk W D} {O3 : LensOk W Vga.vst} {O4 : LensOk S core} {O5 : LensOk S cvars}
  {O6 : LensOk S (list Z)}.
Context {P1 : LensSep W D Vga.vst} {P2 : LensSep S W core} {P3 : LensSep S W cvars} {P4 : LensSep S core cvars}
  {P5 : LensSep S W (list Z)} {P6 : LensSep S core (list Z)} {P7 : LensSep S cvars (list Z)}.
Context (callerpcs : proc -> list Z).

Ltac clens := repeat first [rewrite lget_lset | rewrite lsep_l | rewrite lsep_r].

(** The display is in a state in which it can print. *)
Definition disp_ok (w : W) : Prop :=
  exists t, term_ok t /\
    ((Vga.currentvgamode (sv w) = 0x03 /\ shows (gv w) (tcells t) /\ cursor_is (gv w) (tpos t)) \/
     (Vga.currentvgamode (sv w) <> 0x03 /\ snap_is (sv w) t)).

Lemma disp_ok_same w w' : gv w' = gv w -> sv w' = sv w -> disp_ok w -> disp_ok w'.
Proof. unfold disp_ok. by intros -> ->. Qed.

Lemma scroll_ok c t : term_ok t -> term_ok (term_scroll (term_advance c t)).
Proof. apply (term_putc_ok c t). Qed.

Lemma wp_disp_putc w c (Q : unit -> W -> Prop) :
  disp_ok w -> (forall w', disp_ok w' -> Q tt w') -> wp (Vga.cgaputc c) w Q.
Proof.
  intros (t & Hok & [(Hm & Hsh & Hcur) | (Hm & Hs)]) HQ.
  - eapply wp_cgaputc_text; [done..|]. intros w' Hsh' Hcur' _ Hv. apply HQ. exists (term_putc c t).
    split; [by apply term_putc_ok|]. left. by rewrite Hv.
  - eapply wp_cgaputc_snap; [done..|]. intros w' _ _ Hs' Ho. apply HQ. eexists. split; [by apply scroll_ok|].
    right. split; [by rewrite Ho | done].
Qed.

Lemma wp_port_in (s : S) p (Q : Z -> S -> Prop) :
  data_port p = None -> p <> VGA_INSTAT_READ -> disp_ok (lget s) ->
  (forall x w', 0 <= x < 256 -> disp_ok w' -> Q x (lset w' s)) -> wp (inb p) s Q.
Proof.
  intros H1 H2 Hd HQ. apply wp_zoom. apply wp_inb_other; [done | done |]. intros x w' Hx Hg Hv.
  apply HQ; [done|]. by eapply disp_ok_same.
Qed.

Lemma wp_port_out (s : S) p x (Q : unit -> S -> Prop) :
  (forall v, vga_out p (u8 x) v = v) -> disp_ok (lget s) ->
  (forall w', disp_ok w' -> Q tt (lset w' s)) -> wp (outb p x) s Q.
Proof.
  intros H1 Hd HQ. apply wp_zoom. apply wp_outb. intros w' Hg Hv. apply HQ.
  apply (disp_ok_same (lget s)); [by rewrite Hg, H1 | done | done].
Qed.

Lemma wp_uart_wait n : forall (s : S) (Q : unit -> S -> Prop),
  disp_ok (lget s) -> (forall w', disp_ok w' -> Q tt (lset w' s)) -> wp (uart_wait n) s Q.
Proof.
  induction n as [|n IH]; intros s Q Hd HQ; cbn [uart_wait].
  - wp_prim. specialize (HQ (lget s) Hd). by rewrite lset_lget in HQ.
  - wp_prim. apply wp_port_in; [done | done | done |]. intros x w' _ Hd'. case_bool; [|wp_prim; by apply HQ].
    apply IH; [by clens|]. intros w'' ?. rewrite lset_lset. by apply HQ.
Qed.

Lemma wp_uartputc (s : S) c (Q : unit -> S -> Prop) :
  disp_ok (lget s) -> (forall w', disp_ok w' -> Q tt (lset w' s)) -> wp (uartputc c) s Q.
Proof.
  intros Hd HQ. unfold uartputc, cget. wp_step. case_bool.
  - wp_prim. specialize (HQ (lget s) Hd). by rewrite lset_lget in HQ.
  - wp_prim. apply wp_uart_wait; [done|]. intros w1 H1. apply wp_port_out; [done | by clens |].
    intros w2 H2. rewrite lset_lset. by apply HQ.
Qed.

Lemma wp_consputc (s : S) c (Q : unit -> S -> Prop) :
  panicked (lget s) = false -> disp_ok (lget s) ->
  (forall w', disp_ok w' -> Q tt (lset w' s)) -> wp (consputc c) s Q.
Proof.
  intros Hp Hd HQ. unfold consputc, cget. wp_step. rewrite Hp. wp_prim.
  assert (Hu : forall k, (forall w', disp_ok w' -> wp k (lset w' s) Q) ->
    wp (if c =? Vga.BACKSPACE then uartputc 8;; uartputc ch_space;; uartputc 8 else uartputc c) s (fun _ s' => wp k s' Q)).
  { intros k Hk. case_bool; [|by apply wp_uartputc]. wp_prim. apply wp_uartputc; [done|]. intros w1 H1.
    wp_prim. apply wp_uartputc; [by clens|]. intros w2 H2. rewrite lset_lset.
    apply wp_uartputc; [by clens|]. intros w3 H3. rewrite lset_lset. by apply Hk. }
  apply Hu. intros w1 H1. apply wp_zoom. clens. apply wp_disp_putc; [done|]. intros w2 H2. rewrite lset_lset. by apply HQ.
Qed.

(** *** The handler *)

(** The driver holds the locks [L] on CPU [i] and can print. *)
Definition running (s : S) (i : nat) (L : list lockid) (en : bool) (p : option nat) : Prop :=
  core_ok (lget s) i L en p /\ disp_ok (lget s) /\ panicked (lget s) = false.

(** [s'] differs from [s] in the input ring, the display and the locks only. *)
Definition quiet (s s' : S) : Prop :=
  lget (T := list Z) s' = lget s /\ locking (lget s') = locking (lget s).

Lemma wp_run_consputc s i L en p c (Q : unit -> S -> Prop) :
  running s i L en p ->
  (forall s', running s' i L en p -> quiet s s' -> lget (T := cvars) s' = lget s -> Q tt s') ->
  wp (consputc c) s Q.
Proof.
  intros (Hc & Hd & Hp) HQ. apply wp_consputc; [done | done |]. intros w' Hd'.
  apply HQ; [split_and!; by clens | split; by clens | by clens].
Qed.

Lemma wp_run_mod s i L en p f (Q : unit -> S -> Prop) :
  running s i L en p -> (forall x, panicked (f x) = panicked x /\ locking (f x) = locking x) ->
  (forall s', running s' i L en p -> quiet s s' -> lget (T := cvars) s' = f (lget s) -> Q tt s') ->
  wp (cmod f) s Q.
Proof.
  intros (Hc & Hd & Hp) Hf HQ. unfold cmod. wp_prim. destruct (Hf (lget s)) as [F1 F2].
  apply HQ; [split_and!; clens; done || congruence | split; by clens | by clens].
Qed.

Lemma wp_run_wakeup s i L en p ch (Q : unit -> S -> Prop) :
  running s i L en p -> L_ptable ∉ L ->
  (forall s', running s' i L en p -> quiet s s' -> lget (T := cvars) s' = lget s -> Q tt s') ->
  wp (wakeup ch) s Q.
Proof.
  intros (Hc & Hd & Hp) HL HQ. eapply wp_wakeup; [done | done |]. intros c' Hc' _.
  apply HQ; [split_and!; by clens | split; by clens | by clens].
Qed.

Lemma quiet_trans s1 s2 s3 : quiet s1 s2 -> quiet s2 s3 -> quiet s1 s3.
Proof. intros [] []. split; congruence. Qed.

Lemma wp_kill_line i L en p q : forall e fuel s (Q : unit -> S -> Prop),
  running s i L en p -> ring_is (lget s) q e -> Forall (fun c => c <> ch_nl) e -> (length e < fuel)%nat ->
  (forall s', running s' i L en p -> quiet s s' -> ring_is (lget s') q [] -> Q tt s') ->
  wp (kill_line fuel) s Q.
Proof.
  induction e as [|c e IH] using rev_ind; intros fuel s Q Hrun Hr Hnl Hf HQ;
    (destruct fuel as [|fuel]; [simpl in Hf; lia|]); cbn [kill_line]; unfold cget; wp_step.
  - rewrite (ring_empty _ _ Hr), Z.eqb_refl. cbn [negb andb]. wp_prim. apply HQ; [done | by split | done].
  - apply Forall_app in Hnl as [Hnl Hc]. apply Forall_cons in Hc as [Hc _]. rewrite length_app in Hf. simpl in Hf.
    destruct (ring_last _ _ _ _ Hr) as (Hne & Hlast & Hpop). rewrite Hlast.
    replace (ie (lget s) =? iw (lget s)) with false by lia. replace (c =? ch_nl) with false by lia.
    cbn [negb andb]. wp_prim. eapply wp_run_mod; [exact Hrun | done |]. intros s1 Hrun1 Hq1 Hx1. wp_prim.
    eapply wp_run_consputc; [exact Hrun1|]. intros s2 Hrun2 Hq2 Hx2.
    apply (IH fuel); [done | by rewrite Hx2, Hx1 | done | lia |]. intros s3 ? ? ?.
    apply HQ; [done | by eapply quiet_trans; [|eapply quiet_trans] | done].
Qed.

Lemma s8_nl c : 0 <= c < 256 -> s8 c = ch_nl -> c = ch_nl.
Proof. unfold ch_nl. intros. zwrap. Qed.

Lemma wp_cons_char s i L en p c l (Q : bool -> S -> Prop) :
  running s i L en p -> L_ptable ∉ L -> input_is (lget s) l -> 0 <= c < 256 ->
  (forall s', running s' i L en p -> quiet s s' -> input_is (lget s') (edit c l) -> Q (c =? ctl_P) s') ->
  wp (cons_char c) s Q.
Proof.
  intros Hrun HL [Hr Hnl] Hc HQ. destruct l as [q e]. simpl in Hr, Hnl. unfold cons_char, edit, cget in *.
  cbn [ready editing] in *.
  destruct (c =? ctl_P) eqn:EP. { wp_prim. apply HQ; [done | by split | by split]. }
  destruct (c =? ctl_U) eqn:EU.
  { wp_step. destruct (ring_len _ _ _ Hr) as [_ ->]. eapply (wp_kill_line i L en p q e); [done | done | done | unfold zlen; lia |].
    intros s' ? ? ?. wp_prim. apply HQ; [done | done |]. split; [done | constructor]. }
  destruct ((c =? ctl_H) || (c =? ch_del)) eqn:EH.
  { wp_step. destruct e as [|x e _] using rev_ind.
    - rewrite (ring_empty _ _ Hr), Z.eqb_refl. cbn [negb]. wp_step. apply HQ; [done | by split | by split].
    - rewrite removelast_last in HQ. destruct (ring_last _ _ _ _ Hr) as (Hne & _ & Hpop).
      replace (ie (lget s) =? iw (lget s)) with false by lia. cbn [negb]. wp_prim.
      eapply wp_run_mod; [exact Hrun | done |]. intros s1 Hrun1 Hq1 Hx1.
      eapply wp_run_consputc; [exact Hrun1|]. intros s2 Hrun2 Hq2 Hx2. wp_prim.
      apply HQ; [done | by eapply quiet_trans |]. split; [by rewrite Hx2, Hx1|].
      by apply Forall_app in Hnl as [? _]. }
  wp_step. destruct (ring_len _ _ _ Hr) as [-> _].
  destruct (negb (c =? 0) && (zlen q + zlen e <? INPUT_BUF)) eqn:E0.
  2:{ wp_step. apply HQ; [done | by split | by split]. }
  apply andb_true_iff in E0 as [_ E0]. zbool. cbv zeta in *.
  set (d := if c =? ch_cr then ch_nl else c) in *.
  assert (Hd : 0 <= d < 256) by (unfold d, ch_nl; case_bool; lia).
  wp_prim. eapply wp_run_mod; [exact Hrun | done |]. intros s1 Hrun1 Hq1 Hx1. wp_prim.
  pose proof (ring_push _ _ _ (s8 d) Hr E0) as Hr1. cbv beta in Hx1. rewrite <- Hx1 in Hr1.
  eapply wp_run_consputc; [exact Hrun1|]. intros s2 Hrun2 Hq2 Hx2. wp_step. rewrite Hx2.
  rewrite (ring_full _ _ _ Hr1).
  destruct ((d =? ch_nl) || (d =? ctl_D) || (zlen q + zlen (e ++ [s8 d]) =? INPUT_BUF)) eqn:E1.
  - wp_prim. eapply wp_run_mod; [exact Hrun2 | done |]. intros s3 Hrun3 Hq3 Hx3.
    eapply wp_run_wakeup; [exact Hrun3 | done |]. intros s4 Hrun4 Hq4 Hx4. wp_prim.
    apply HQ; [done | by repeat (eapply quiet_trans; [eassumption|]) |].
    split; [|constructor]. rewrite Hx4, Hx3, Hx2. by apply ring_commit.
  - wp_step. apply HQ; [done | by eapply quiet_trans |]. split; [by rewrite Hx2|].
    apply Forall_app. split; [done|]. constructor; [|constructor]. intros Heq. apply s8_nl in Heq; [|done].
    rewrite Heq in E1. done.
Qed.

(** A device that delivers the characters of its queue. *)
Definition getc_queue : M S Z :=
  l ← lgets (T := list Z) (fun l => l);
  match l with
  | [] => mret (-1)
  | c :: l' => lmod (T := list Z) (fun _ => l');; mret c
  end.

Lemma wp_intr_loop i L en p cs : forall fuel s l dump (Q : bool -> S -> Prop),
  running s i L en p -> L_ptable ∉ L -> input_is (lget s) l -> lget (T := list Z) s = cs ->
  Forall (fun c => 0 <= c < 256) cs -> (length cs < fuel)%nat ->
  (forall s' d, running s' i L en p -> locking (lget s') = locking (lget s) -> lget (T := list Z) s' = [] ->
     input_is (lget s') (edits cs l) -> Q d s') ->
  wp (intr_loop fuel getc_queue dump) s Q.
Proof.
  induction cs as [|c cs IH]; intros fuel s l dump Q Hrun HL Hin Hcs Hb Hf HQ;
    (destruct fuel as [|fuel]; [simpl in Hf; lia|]); cbn [intr_loop]; unfold getc_queue; wp_step; rewrite Hcs.
  - wp_step. simpl. wp_step. by apply HQ.
  - apply Forall_cons in Hb as [Hc Hb]. wp_step. replace (c <? 0) with false by lia. wp_prim.
    eapply (wp_cons_char _ i L en p c l); [| done | by clens | done |].
    { destruct Hrun as (? & ? & ?). split_and!; by clens. }
    intros s1 Hrun1 [Hq1 Hq2] Hin1. apply (IH fuel _ (edit c l)); [done | done | done | by rewrite Hq1; clens | done | simpl in Hf; lia |].
    intros s2 d Hrun2 Hl2 He2 Hin2. apply HQ; [done | | done | done]. rewrite Hl2, Hq2. by clens.
Qed.

Lemma wp_run_each {A} (f : A -> M S unit) i L en p l : forall s (Q : unit -> S -> Prop),
  (forall a s (Q : unit -> S -> Prop), running s i L en p ->
     (forall s', running s' i L en p -> quiet s s' -> lget (T := cvars) s' = lget s -> Q tt s') -> wp (f a) s Q) ->
  running s i L en p ->
  (forall s', running s' i L en p -> quiet s s' -> lget (T := cvars) s' = lget s -> Q tt s') ->
  wp (for_each f l) s Q.
Proof.
  induction l as [|a l IH]; intros s Q Hf Hrun HQ; cbn [for_each].
  - wp_prim. apply HQ; [done | by split | done].
  - wp_prim. apply Hf; [done|]. intros s1 ? ? ?. apply IH; [done | done |]. intros s2 ? ? ?.
    apply HQ; [done | by eapply quiet_trans | congruence].
Qed.

(** Printing leaves the variables of the driver alone. *)
Lemma wp_run_cputs s i L en p l (Q : unit -> S -> Prop) :
  running s i L en p -> L_cons ∉ L ->
  (forall s', running s' i L en p -> quiet s s' -> lget (T := cvars) s' = lget s -> Q tt s') ->
  wp (cputs l) s Q.
Proof.
  intros Hrun HL HQ.
  assert (Hput : forall L' s (Q : unit -> S -> Prop), running s i L' en p ->
    (forall s', running s' i L' en p -> quiet s s' -> lget (T := cvars) s' = lget s -> Q tt s') ->
    wp (for_each consputc l) s Q).
  { intros L' s' Q'. apply wp_run_each. intros a s2 Q2. apply wp_run_consputc. }
  unfold cputs, cget. wp_step. destruct (locking (lget s)).
  - destruct Hrun as (Hc & Hd & Hp). eapply wp_acquire; [exact Hc | done |]. intros c1 Hc1 _. wp_prim.
    eapply (Hput (L_cons :: L)); [split_and!; by clens|]. intros s2 (Hc2 & Hd2 & Hp2) Hq2 Hx2.
    eapply wp_release; [exact Hc2|]. intros c3 Hc3 _. apply HQ; [split_and!; by clens | |].
    + eapply quiet_trans; [|eapply quiet_trans; [exact Hq2|]]; split; by clens.
    + clens. rewrite Hx2. by clens.
  - wp_step. eapply (Hput L); [done|]. intros s2 ? ? ?. wp_prim. by apply HQ.
Qed.

Lemma wp_procdump s i L en p (Q : unit -> S -> Prop) :
  running s i L en p -> L_cons ∉ L ->
  (forall s', running s' i L en p -> quiet s s' -> lget (T := cvars) s' = lget s -> Q tt s') ->
  wp (procdump callerpcs) s Q.
Proof.
  intros Hrun HL HQ. unfold procdump, core_get. wp_step. eapply wp_run_each; [|exact Hrun | exact HQ].
  clear s Q Hrun HQ. intros a s Q Hrun HQ. unfold procdump_one. case_bool; [wp_prim; apply HQ; [done | by split | done]|].
  wp_prim. eapply wp_run_cputs; [exact Hrun | done |]. intros s1 Hrun1 Hq1 Hx1. wp_prim.
  assert (Hlast : forall s2, running s2 i L en p -> quiet s s2 -> lget (T := cvars) s2 = lget s -> wp (cputs [ch_nl]) s2 Q).
  { intros s2 Hrun2 Hq2 Hx2. eapply wp_run_cputs; [exact Hrun2 | done |]. intros s3 ? ? ?.
    apply HQ; [done | by eapply quiet_trans | congruence]. }
  case_bool; [|wp_prim; by apply Hlast]. eapply wp_run_each; [|exact Hrun1|].
  - intros x s2 Q2 Hrun2 HQ2. by eapply wp_run_cputs.
  - intros s2 ? ? ?. apply Hlast; [done | by eapply quiet_trans | congruence].
Qed.

(** C34: the console's interrupt handler edits the input line.  From a ring that holds
    the bytes [ready] for readers and the line [editing], any batch of characters
    leaves the ring with what editing them one by one gives: printable characters
    are appended (carriage return as newline), backspace and delete remove the last
    one, control-U removes the line, newline, control-D or a full buffer hand the
    line over to readers; bytes already handed over are never changed, and
    characters beyond the 128 bytes of the buffer are dropped. *)
Theorem consoleintr_edits (s : S) i L en p l :
  let cs := lget (T := list Z) s in
  running s i L en p -> L_ptable ∉ L -> L_cons ∉ L -> input_is (lget s) l ->
  Forall (fun c => 0 <= c < 256) cs ->
  exists s', consoleintr callerpcs (Datatypes.S (length cs)) getc_queue s = Ret tt s' /\
    running s' i L en p /\ lget (T := list Z) s' = [] /\ input_is (lget s') (edits cs l).
Proof.
  intros cs (Hc & Hd & Hp) HL1 HL2 Hin Hb.
  assert (wp (consoleintr callerpcs (Datatypes.S (length cs)) getc_queue) s (fun _ s' =>
    running s' i L en p /\ lget (T := list Z) s' = [] /\ input_is (lget s') (edits cs l)))
    as ([] & s' & E & H); [|by exists s'].
  unfold consoleintr. wp_prim. eapply wp_acquire; [exact Hc | done |]. intros c1 Hc1 _. wp_prim.
  eapply (wp_intr_loop i (L_cons :: L) en p cs); [split_and!; by clens | | by clens | by clens | done | lia |].
  { intros [?|?]%elem_of_cons; done. }
  intros s2 d (Hc2 & Hd2 & Hp2) Hlk2 He2 Hin2. wp_prim. eapply wp_release; [exact Hc2|]. intros c3 Hc3 _.
  destruct d.
  - eapply wp_procdump; [split_and!; by clens | done |]. intros s4 Hrun4 [Hq4 _] Hx4.
    split_and!; [done | rewrite Hq4; by clens | rewrite Hx4; by clens].
  - wp_prim. split; [split_and!; by clens|]. split; by clens.
Qed.

(** *** Readers *)

Lemma read_ready s i L en p x q e wf :
  running s i L en p -> ring_is (lget s) (x :: q) e -> read_wait (Datatypes.S wf) s = Ret true s.
Proof.
  intros Hrun Hr. destruct (ring_take _ _ _ _ Hr) as (Hne & _). cbn [read_wait]. unfold cget.
  erewrite bind_ret by reflexivity. by replace (ir (lget s) =? iw (lget s)) with false by lia.
Qed.

Lemma wp_read_loop i L en p wf e target q : forall fuel n acc s m l r (Q : option (Z * list Z) -> S -> Prop),
  running s i L en p -> ring_is (lget s) q e -> take_line q n target = Some (m, l, r) -> n < Z.of_nat fuel ->
  (forall s', running s' i L en p -> quiet s s' -> ring_is (lget s') r e -> Q (Some (m, acc ++ l)) s') ->
  wp (read_loop fuel (Datatypes.S wf) n target acc) s Q.
Proof.
  induction q as [|c q IH]; intros fuel n acc s m l r Q Hrun Hr Ht Hf HQ;
    cbn [take_line] in Ht; destruct (0 <? n) eqn:En; try done.
  1,3: simplify_eq; rewrite app_nil_r in HQ;
    destruct fuel as [|fuel]; cbn [read_loop]; rewrite ?En; wp_prim; apply HQ; done || by split.
  destruct fuel as [|fuel]; [zbool; simpl in Hf; lia|]. cbn [read_loop]. rewrite En. wp_prim.
  exists true, s. split; [by eapply read_ready|]. cbn [negb].
  destruct (ring_take _ _ _ _ Hr) as (_ & Hc & Hr1). unfold cget. wp_prim. wp_prim. rewrite Hc.
  wp_prim. eapply wp_run_mod; [exact Hrun | done |]. intros s1 Hrun1 Hq1 Hx1. cbv beta in Hx1. rewrite <- Hx1 in Hr1.
  destruct (c =? ctl_D) eqn:ED.
  - injection Ht as <- <- <-. rewrite app_nil_r in HQ. wp_prim. destruct (n <? target).
    + eapply wp_run_mod; [exact Hrun1 | done |]. intros s2 Hrun2 Hq2 Hx2. wp_prim.
      apply HQ; [done | by eapply quiet_trans |]. rewrite Hx2, Hx1. cbn [set_input ibuf ir iw ie].
      rewrite (ring_untake _ _ _ Hr). destruct (lget s); exact Hr.
    + wp_step. by apply HQ.
  - destruct (c =? ch_nl) eqn:EN.
    + injection Ht as <- <- <-. wp_prim. by apply HQ.
    + destruct (take_line q (n - 1) target) as [[[m1 l1] r1]|] eqn:Et; [|done]. injection Ht as <- <- <-.
      eapply (IH fuel (n - 1) (acc ++ [u8 c])); [exact Hrun1 | exact Hr1 | exact Et | lia |].
      intros s2 Hrun2 Hq2 Hr2. rewrite <- (assoc_L (++)). apply HQ; [done | by eapply quiet_trans | done].
Qed.

(** A reader of the console gets one line.  With a complete line (or [n] bytes)
    in the ring, the loop of [consoleread] does not sleep and returns the bytes up
    to the newline, at most [n], in order; control-D ends the read without being
    delivered and stays for the next read if bytes were read before it; the rest of
    the ring and the line being edited are untouched. *)
Theorem consoleread_line (s : S) i L en p wf q e n m l r :
  running s i L en p -> ring_is (lget s) q e -> take_line q n n = Some (m, l, r) ->
  exists s', read_loop (Datatypes.S (Z.to_nat n)) (Datatypes.S wf) n n [] s = Ret (Some (m, l)) s' /\
    running s' i L en p /\ ring_is (lget s') r e.
Proof.
  intros Hrun Hr Ht.
  assert (wp (read_loop (Datatypes.S (Z.to_nat n)) (Datatypes.S wf) n n []) s (fun a s' => a = Some (m, l) /\
    running s' i L en p /\ ring_is (lget s') r e)) as (a & s' & E & -> & H); [|by exists s'].
  eapply wp_read_loop; [exact Hrun | exact Hr | exact Ht | lia |]. intros s' ? _ ?. by split.
Qed.

End Progs.
(** ** A concrete console *)

Abbreviation csys := ((vsys * core) * (cvars * list Z))%type.

(** The line being edited is [a]; the counters are about to wrap around. *)
Definition cvars0 : cvars :=
  {| panicked := false; locking := true; kshift := 0; uart := false;
     ibuf := replicate 127 0 ++ [97]; ir := 2 ^ 32 - 1; iw := 2 ^ 32 - 1; ie := 0 |}.
Definition console0 (cs : list Z) : csys := (((text_screen, vars0 3), boot_core), (cvars0, cs)).

Lemma console0_running cs :
  running (S := csys) (W := vsys) (D := vga) (console0 cs) 0 [] true (Some 0%nat).
Proof.
  split; [exact boot_ok|]. split; [|done]. exists screen_term.
  split; [unfold term_ok, SCREEN; simpl; lia|]. left. split; [done|].
  split; [exact text_screen_shows | vm_compute; done].
Qed.

Lemma cvars0_ring : ring_is cvars0 [] [97].
Proof.
  unfold ring_is. split; [reflexivity|]. split; [cbn [cvars0 ir]; lia|].
  split; [unfold INPUT_BUF; vm_compute; discriminate|]. split; [reflexivity|]. split; [reflexivity|]. intros j Hj. change (zlen ([] ++ [97])) with 1 in Hj.
  replace j with 0 by lia. reflexivity.
Qed.

Lemma consoleintr_edits_witness :
  exists s', consoleintr (S := csys) (W := vsys) (D := vga) (fun _ => []) 5 getc_queue (console0 [98; 8; 99; 13])
      = Ret tt s' /\ input_is (lget s') {| ready := [97; 99; 10]; editing := [] |}.
Proof.
  destruct (consoleintr_edits (S := csys) (W := vsys) (D := vga) (fun _ => []) (console0 [98; 8; 99; 13]) 0 [] true
    (Some 0%nat) {| ready := []; editing := [97] |}) as (s' & E & _ & _ & Hin).
  - apply console0_running.
  - apply not_elem_of_nil.
  - apply not_elem_of_nil.
  - split; [exact cvars0_ring | repeat constructor; discriminate].
  - repeat constructor; lia.
  - exists s'. split; [exact E|]. exact Hin.
Defined.

(** Two bytes and a newline are ready; a reader that asks for 100 gets the line. *)
Definition cvars1 : cvars :=
  set_input ([98; 10] ++ replicate 125 0 ++ [97]) (2 ^ 32 - 1) 2 2 cvars0.

Lemma consoleread_line_witness :
  exists s', read_loop (S := csys) 101 1 100 100 [] (((text_screen, vars0 3), boot_core), (cvars1, []))
      = Ret (Some (97, [97; 98; 10])) s' /\ ring_is (lget s') [] [].
Proof.
  destruct (consoleread_line (S := csys) (W := vsys) (D := vga) (((text_screen, vars0 3), boot_core), (cvars1, []))
    0 [] true (Some 0%nat) 0 [97; 98; 10] [] 100 97 [97; 98; 10] []) as (s' & E & _ & Hr).
  - destruct (console0_running []) as (H1 & H2 & _). split; [exact H1|]. split; [exact H2 | reflexivity].
  - unfold ring_is. split; [reflexivity|]. split; [cbn [lget cvars1 set_input ir]; simpl; lia|].
    split; [vm_compute; discriminate|]. split; [reflexivity|]. split; [reflexivity|]. intros j Hj.
    change (zlen ([97; 98; 10] ++ [])) with 3 in Hj.
    assert (j = 0 \/ j = 1 \/ j = 2) as [-> | [-> | ->]] by lia; reflexivity.
  - reflexivity.
  - exists s'. split; [exact E | exact Hr].
Defined.

End ConsoleProof.
