(* ===== verification/Panic.v ===== *)
(** * Panics

    [panic] of console.c and [getcallerpcs] of spinlock.c.  A panic prints without the console
    lock, so that it is seen even if the lock is held, and then stops every CPU that prints. *)

From stdpp Require Import base list strings.
From Stdlib Require Import ZArith Lia.
From S2P Require Import Prelude CString Format Core Vga VgaProof Console ConsoleProof Kalloc.
Import Console VgaProof.

Module Panic.

(** ** The call stack *)

(** The first loop of [getcallerpcs] for [n] more entries; the entries that it does not reach
    are zero. *)
Fixpoint pcs_from (m : mem) (n : nat) (ebp : Z) : list Z :=
  match n with
  | O => []
  | S n' =>
      if (ebp =? 0) || (ebp <? KERNBASE) || (ebp =? 0xffffffff) then replicate n 0
      else load32 m (u32 (ebp + 4)) :: pcs_from m n' (load32 m ebp)
  end.
Definition getcallerpcs (m : mem) (v : Z) : list Z := pcs_from m 10 (u32 (v - 8)).

(** Frames from [ebp] on with the return addresses [l], up to a frame pointer that is not one of
    the kernel. *)
Fixpoint frames (m : mem) (ebp : Z) (l : list Z) : Prop :=
  match l with
  | [] => ebp < KERNBASE \/ ebp = 0xffffffff
  | pc :: l' => KERNBASE <= ebp < 0xffffffff /\ load32 m (u32 (ebp + 4)) = pc /\ frames m (load32 m ebp) l'
  end.

Lemma pcs_from_frames m n : forall ebp l, frames m ebp l -> pcs_from m n ebp = take n (l ++ replicate n 0).
Proof.
  induction n as [|n IH]; intros ebp l Hf; [done|]. cbn [pcs_from]. destruct l as [|pc l]; cbn [frames] in Hf.
  - replace ((ebp =? 0) || (ebp <? KERNBASE) || (ebp =? 0xffffffff)) with true.
    + cbn [app]. by rewrite take_ge by (rewrite length_replicate; lia).
    + symmetry. destruct Hf as [H| ->]; [|by rewrite orb_true_r]. by rewrite (proj2 (Z.ltb_lt _ _)), orb_true_r by done.
  - destruct Hf as ([H1 H2] & Hpc & Hf). unfold KERNBASE in H1 |- *.
    rewrite (proj2 (Z.eqb_neq ebp 0)), (proj2 (Z.ltb_ge _ _)), (proj2 (Z.eqb_neq _ _)) by lia. cbn [orb app firstn].
    rewrite Hpc, (IH _ l Hf). f_equal. rewrite replicate_S_end, app_assoc, (take_app_le (l ++ _)); [done|].
    rewrite length_app, length_replicate. lia.
Qed.

(** ** The report *)

Section Report.
Context {S W D : Type} {HLw : Lens S W} {HLd : Lens W D} {HLv : Lens W Vga.vst} {HHw : VgaHw D} {HHl : VgaLaws D}
  {HLc : Lens S core} {HLx : Lens S cvars}.
(** Memory with a bound on the length of strings, and the read of the local APIC ([lapicid]). *)
Context (m : mem) (strfuel : nat) (lapicid : M S Z).

Definition set_panicked (v : cvars) : cvars :=
  {| panicked := true; locking := locking v; kshift := kshift v; uart := uart v; ibuf := ibuf v; ir := ir v; iw := iw v; ie := ie v |}.
Definition kprint (fmt args : list Z) : M S unit := cputs (Fmt.cprintf m strfuel fmt args).

(** [v] is the address of the argument of [panic]; [rest] are the words above it, where
    [cprintf(s)] would look for arguments. *)
Definition panic_report (v : Z) (s rest : list Z) : M S unit :=
  cli;;
  cmod (set_locking false);;
  id ← lapicid;
  kprint (bytes_of_string "lapicid %d: panic: ") [id];;
  kprint s rest;;
  kprint [ch_nl] [];;
  for_each (fun pc => kprint (bytes_of_string " %p") [pc]) (getcallerpcs m v);;
  cmod set_panicked.
Definition panic (v : Z) (s rest : list Z) : M S unit := panic_report v s rest;; spin.

Context {O1 : LensOk S W} {O2 : LensOk W D} {O3 : LensOk W Vga.vst} {O4 : LensOk S core} {O5 : LensOk S cvars}.
Context {P1 : LensSep W D Vga.vst} {P2 : LensSep S W core} {P3 : LensSep S W cvars} {P4 : LensSep S core cvars}.

Ltac clens := repeat first [rewrite lget_lset | rewrite lsep_l | rewrite lsep_r].

(** The display is in text mode and shows [t]. *)
Definition text_is (w : W) (t : term) : Prop :=
  term_ok t /\ Vga.currentvgamode (sv w) = 0x03 /\ shows (gv w) (tcells t) /\ cursor_is (gv w) (tpos t).
Definition print (l : list Z) (t : term) : term := foldl (fun t c => term_putc c t) t l.

(** The serial port leaves the display alone. *)
Lemma wp_uart_wait_same n : forall (s : S) (Q : unit -> S -> Prop),
  (forall w', gv w' = gv (lget s) -> sv w' = sv (lget s) -> Q tt (lset w' s)) -> wp (uart_wait n) s Q.
Proof.
  induction n as [|n IH]; intros s Q HQ; cbn [uart_wait].
  - wp_prim. specialize (HQ (lget s) eq_refl eq_refl). by rewrite lset_lget in HQ.
  - wp_prim. unfold inb. apply wp_zoom, wp_inb_other; [done | done |]. intros x w' _ Hg Hv. case_bool; [|wp_prim; by apply HQ].
    apply IH. intros w2. rewrite lget_lset, lset_lset. intros Hg2 Hv2. apply HQ; congruence.
Qed.

Lemma wp_uartputc_same (s : S) c (Q : unit -> S -> Prop) :
  (forall w', gv w' = gv (lget s) -> sv w' = sv (lget s) -> Q tt (lset w' s)) -> wp (uartputc c) s Q.
Proof.
  intros HQ. unfold uartputc, cget. wp_step. case_bool.
  - wp_prim. specialize (HQ (lget s) eq_refl eq_refl). by rewrite lset_lget in HQ.
  - wp_prim. apply wp_uart_wait_same. intros w1 Hg Hv. unfold outb. apply wp_zoom, wp_outb. rewrite lget_lset.
    intros w2 Hg2 Hv2. rewrite lset_lset. apply HQ; [by rewrite Hg2 | congruence].
Qed.

Lemma wp_consputc_text (s : S) t c (Q : unit -> S -> Prop) :
  panicked (lget s) = false -> text_is (lget s) t -> c <> Vga.BACKSPACE ->
  (forall w', text_is w' (term_putc c t) -> Q tt (lset w' s)) -> wp (consputc c) s Q.
Proof.
  intros Hp (Hok & Hm & Hsh & Hcur) Hc HQ. unfold consputc, cget. wp_step. rewrite Hp, (proj2 (Z.eqb_neq _ _)) by done. wp_prim.
  apply wp_uartputc_same. intros w1 Hg Hv. apply wp_zoom. rewrite lget_lset.
  apply (wp_cgaputc_text _ _ t); [by rewrite Hv | by rewrite Hg | by rewrite Hg | done |]. intros w2 H1 H2 _ H4.
  rewrite lset_lset. apply HQ. split_and!; [by apply term_putc_ok | by rewrite H4, Hv | done | done].
Qed.

Lemma wp_print l : forall (s : S) t (Q : unit -> S -> Prop),
  panicked (lget s) = false -> text_is (lget s) t -> Forall (fun c => c < 256) l ->
  (forall w', text_is w' (print l t) -> Q tt (lset w' s)) -> wp (for_each consputc l) s Q.
Proof.
  induction l as [|c l IH]; intros s t Q Hp Ht Hl HQ; cbn [for_each].
  - wp_prim. specialize (HQ (lget s) Ht). by rewrite lset_lget in HQ.
  - inversion_clear Hl. wp_prim. eapply wp_consputc_text; [done | exact Ht | unfold Vga.BACKSPACE; lia |]. intros w1 H1.
    eapply IH; [by clens | by rewrite lget_lset | done |]. intros w2. rewrite lset_lset. apply HQ.
Qed.

(** What a panic prints. *)
Definition bytes (l : list Z) : Prop := Forall (fun c => c < 256) l.
Definition report (id : Z) (s pcs : list Z) : list Z :=
  bytes_of_string "lapicid " ++ Int.kprintint (s32 id) 10 true ++ bytes_of_string ": panic: " ++ s ++ [ch_nl] ++
  concat ((fun pc => ch_space :: Int.kprintint (s32 pc) 16 false) <$> pcs).

Lemma cprintf_app s fmt args : ch_percent ∉ s -> Fmt.cprintf m strfuel (s ++ fmt) args = s ++ Fmt.cprintf m strfuel fmt args.
Proof.
  induction s as [|c s IH]; [done|]. intros [Hc Hs]%not_elem_of_cons. cbn [app].
  rewrite Fmt.cprintf_plain by (apply Z.eqb_neq; congruence). by rewrite IH.
Qed.
Lemma cprintf_no_percent s rest : ch_percent ∉ s -> Fmt.cprintf m strfuel s rest = s.
Proof. intros H. rewrite <- (app_nil_r s) at 1. rewrite cprintf_app by done. apply app_nil_r. Qed.

Lemma digits_bytes x base f : bytes (Int.digit_loop Int.digits_lower f x base).
Proof.
  revert x. induction f as [|f IH]; intros x; cbn [Int.digit_loop]; constructor.
  - assert (H : bytes Int.digits_lower) by (unfold bytes; by repeat constructor). unfold zget. destruct (_ <? _); [done|].
    destruct (_ !! _) as [d|] eqn:E; [|done]. by apply (Forall_lookup_1 _ _ _ _ H E).
  - destruct (_ =? _); [by constructor | apply IH].
Qed.

Lemma kprintint_bytes x base sg : bytes (Int.kprintint x base sg).
Proof.
  unfold Int.kprintint. apply Forall_rev. destruct (sg && _); [|apply digits_bytes].
  apply Forall_app. split; [apply digits_bytes | by repeat constructor].
Qed.

Lemma wp_cprintf (s : S) t l (fmt args : list Z) (Q : unit -> S -> Prop) :
  panicked (lget s) = false -> locking (lget s) = false -> text_is (lget s) t -> Fmt.cprintf m strfuel fmt args = l -> bytes l ->
  (forall w', text_is w' (print l t) -> Q tt (lset w' s)) -> wp (kprint fmt args) s Q.
Proof.
  intros Hp Hk Ht <- Hl HQ. unfold kprint, cputs, cget. wp_step. rewrite Hk. wp_step.
  eapply wp_print; [done | exact Ht | done |]. intros w' H'. wp_prim. by apply HQ.
Qed.

Lemma wp_print_pcs pcs : forall (s : S) t (Q : unit -> S -> Prop),
  panicked (lget s) = false -> locking (lget s) = false -> text_is (lget s) t ->
  (forall w', text_is w' (print (concat ((fun pc => ch_space :: Int.kprintint (s32 pc) 16 false) <$> pcs)) t) -> Q tt (lset w' s)) ->
  wp (for_each (fun pc => kprint (bytes_of_string " %p") [pc]) pcs) s Q.
Proof.
  induction pcs as [|pc pcs IH]; intros s t Q Hp Hk Ht HQ; cbn [for_each].
  - wp_prim. specialize (HQ (lget s) Ht). by rewrite lset_lget in HQ.
  - wp_prim. apply (wp_cprintf _ t (ch_space :: Int.kprintint (s32 pc) 16 false)); [done | done | done | | |].
    + change (bytes_of_string " %p") with [32; 37; 112]. cbn -[Int.kprintint s32]. by rewrite app_nil_r.
    + constructor; [done | apply kprintint_bytes].
    + intros w1 H1. eapply IH; [by clens | by clens | by rewrite lget_lset |]. intros w2 H2. rewrite lset_lset. apply HQ.
      unfold print in *. cbn [fmap list_fmap concat]. by rewrite foldl_app.
Qed.

Lemma bytes_const s : Forall (fun c => c < 256) (bytes_of_string s).
Proof.
  unfold bytes_of_string. induction s as [|[] s IH]; cbn; constructor; [by repeat match goal with b : bool |- _ => destruct b end | done].
Qed.

Lemma print_app l1 l2 t : print (l1 ++ l2) t = print l2 (print l1 t).
Proof. apply foldl_app. Qed.

Lemma cprintf_lapicid id :
  Fmt.cprintf m strfuel (bytes_of_string "lapicid %d: panic: ") [id] = bytes_of_string "lapicid " ++ Int.kprintint (s32 id) 10 true ++ bytes_of_string ": panic: ".
Proof.
  change (bytes_of_string "lapicid %d: panic: ") with (bytes_of_string "lapicid " ++ ch_percent :: 100 :: bytes_of_string ": panic: ").
  rewrite cprintf_app by (refine (bool_decide_unpack _ _); by vm_compute). f_equal.
Qed.

Lemma wp_panic_report (s : S) t id v msg rest l (Q : unit -> S -> Prop) :
  panicked (lget s) = false -> text_is (lget s) t -> (forall s, lapicid s = Ret id s) -> ch_percent ∉ msg -> bytes msg -> frames m (u32 (v - 8)) l ->
  (forall s', text_is (lget s') (print (report id msg (take 10 (l ++ replicate 10 0))) t) -> lget (T := core) s' = set_hw_if false (lget s) ->
     lget (T := cvars) s' = set_panicked (set_locking false (lget s)) -> Q tt s') ->
  wp (panic_report v msg rest) s Q.
Proof.
  intros Hp Ht Hid Hpc Hb Hf HQ. unfold panic_report, cli, cmod, core_mod. wp_step.
  exists id. eexists. split; [apply Hid|]. cbv beta. wp_prim.
  eapply wp_cprintf; [by clens | by clens | clens; exact Ht | apply cprintf_lapicid | |].
  { apply Forall_app. split; [apply bytes_const|]. apply Forall_app. split; [apply kprintint_bytes | apply bytes_const]. }
  intros w1 H1. wp_prim. eapply wp_cprintf; [by clens | by clens | clens; exact H1 | by apply cprintf_no_percent | done |].
  intros w2 H2. wp_prim. eapply (wp_cprintf _ _ [ch_nl]); [by clens | by clens | clens; exact H2 | done | by repeat constructor |].
  intros w3 H3. wp_prim. eapply wp_print_pcs; [by clens | by clens | clens; exact H3 |].
  intros w4 H4. wp_step. unfold getcallerpcs in H4. rewrite (pcs_from_frames _ _ _ _ Hf) in H4.
  apply HQ; [|by clens|by clens]. clens. rewrite <- !print_app in H4. unfold report. by rewrite <- !app_assoc in H4.
Qed.

Lemma spin_after (body : M S unit) s (Q : unit -> S -> Prop) : wp body s Q -> exists s', (body;; spin : M S unit) s = Spin s' /\ Q tt s'.
Proof. intros ([] & s' & E & HQ). exists s'. split; [|done]. unfold mbind, M_bind. by rewrite E. Qed.

(** A panic is reported and stops the machine.  Whatever locks are held, that of the console
    too, the screen shows the CPU, the message and the return addresses of the innermost
    frames, ten at most; interrupts stay off, no lock has changed, and any CPU that prints
    a character from then on stops. *)
Theorem panic_stops (s : S) t id v msg rest l :
  panicked (lget s) = false -> text_is (lget s) t -> (forall s, lapicid s = Ret id s) -> ch_percent ∉ msg -> bytes msg -> frames m (u32 (v - 8)) l ->
  exists s', panic v msg rest s = Spin s' /\ text_is (lget s') (print (report id msg (take 10 (l ++ replicate 10 0))) t) /\
    lget (T := core) s' = set_hw_if false (lget s) /\ forall c, exists s2, consputc c s' = Spin s2.
Proof.
  intros Hp Ht Hid Hpc Hb Hf. unfold panic.
  destruct (spin_after (panic_report v msg rest) s (fun _ s' => text_is (lget s') (print (report id msg (take 10 (l ++ replicate 10 0))) t) /\
    lget (T := core) s' = set_hw_if false (lget s) /\ lget (T := cvars) s' = set_panicked (set_locking false (lget s)))) as (s' & E & H1 & H2 & H3).
  - eapply wp_panic_report; [done..|]. intros s' H1 H2 H3. done.
  - exists s'. split_and!; [done | done | done |]. intros c. exists (lset (set_hw_if false (lget s')) s').
    unfold consputc, cget, lgets, gets, mbind, M_bind. cbn. by rewrite H3.
Qed.

End Report.
End Panic.
