(* ===== verification/File.v ===== *)
(** * Open files: file.c, and the allocation of pipes in pipe.c

    The table of open files counts the references of descriptors to files; a file is
    an end of a pipe or an inode with an offset. *)

From stdpp Require Import base gmap list strings.
From Stdlib Require Import ZArith Lia.
From S2P Require Import Prelude Core Locking Kalloc Pipe Bio Log Tx Fs.
Import Sleeplock.

(** Where file system operations begin and end, and the recovery at boot (log.c). *)
Class TxBounds (T : Type) : Type := { tx_begin : M T unit; tx_end : M T unit; tx_init : Z -> M T unit }.

(** The log provides them; [wf] bounds the wakeups of [begin_op]. *)
Definition log_bounds {S B : Type} {HLB : Lens S B} {HLg : Lens S Log.logst} {HLc : Lens B core}
  {HBL : BlockLayer B} (wf : nat) : TxBounds S :=
  {| tx_begin := Log.begin_op wf; tx_end := Log.end_op; tx_init := Log.initlog |}.

Module File.

Definition NFILE : nat := 100.

Inductive ftype : Type := FD_NONE | FD_PIPE | FD_INODE.

#[export] Instance ftype_eq_dec : EqDecision ftype.
Proof. solve_decision. Defined.

(** [struct file]; the pipe is the address of its page, the inode an index of the cache. *)
Record file : Type := {
  type : ftype;
  ref : Z;
  readable : bool;
  writable : bool;
  fpipe : Z;
  fip : nat;
  off : Z
}.

Record ftable : Type := { file_of : nat -> file }.

Definition set_ref (n : Z) (f : file) : file :=
  {| type := type f; ref := n; readable := readable f; writable := writable f;
     fpipe := fpipe f; fip := fip f; off := off f |}.
Definition set_type (t : ftype) (f : file) : file :=
  {| type := t; ref := ref f; readable := readable f; writable := writable f;
     fpipe := fpipe f; fip := fip f; off := off f |}.
Definition set_off (n : Z) (f : file) : file :=
  {| type := type f; ref := ref f; readable := readable f; writable := writable f;
     fpipe := fpipe f; fip := fip f; off := n |}.
(** One end of pipe [p]. *)
Definition as_pipe (p : Z) (r w : bool) (f : file) : file :=
  {| type := FD_PIPE; ref := ref f; readable := r; writable := w;
     fpipe := p; fip := fip f; off := off f |}.
(** An open inode. *)
Definition as_inode (i : nat) (r w : bool) (f : file) : file :=
  {| type := FD_INODE; ref := ref f; readable := r; writable := w;
     fpipe := fpipe f; fip := i; off := 0 |}.

Section Ops.
Context {S T : Type} {HLT : Lens S T} {HTx : TxLayer T} {HTb : TxBounds T} {HLc : Lens T core}
  {HLs : Lens T slocktab} {HLi : Lens S Fs.icache} {HLb : Lens S superblock} {HDv : Fs.DevSw S}
  {HP : Lens S Pipe.pipetab} {HA : PageAlloc S} {HF : Lens S ftable}.
(** The bound on the wakeups of each wait. *)
Context (wf : nat).

#[local] Instance core_lens : Lens S core := lens_comp (T := T).

Definition getf (f : nat) : M S file := lgets (T := ftable) (fun t => file_of t f).
Definition modf (f : nat) (g : file -> file) : M S unit :=
  lmod (T := ftable) (fun t => {| file_of := fun j => if decide (j = f) then g (file_of t j) else file_of t j |}).

Definition begin_op : M S unit := zoom (tx_begin : M T unit).
Definition end_op : M S unit := zoom (tx_end : M T unit).

Definition fileinit : M S unit := initlock L_ftable.

(** The scan of [filealloc]: the first entry without references. *)
Fixpoint unused_file (t : ftable) (l : list nat) : option nat :=
  match l with
  | [] => None
  | f :: l' => if ref (file_of t f) =? 0 then Some f else unused_file t l'
  end.

Definition filealloc : M S (option nat) :=
  acquire L_ftable;;
  r ← lgets (T := ftable) (fun t => unused_file t (seq 0 NFILE));
  match r with
  | Some f => modf f (set_ref 1);; release L_ftable;; mret (Some f)
  | None => release L_ftable;; mret None
  end.

Definition filedup (f : nat) : M S nat :=
  acquire L_ftable;;
  k ← getf f;
  if ref k <? 1 then panic "filedup"
  else
    modf f (fun k => set_ref (ref k + 1) k);;
    release L_ftable;;
    mret f.

Definition fileclose (f : nat) : M S unit :=
  acquire L_ftable;;
  k ← getf f;
  if ref k <? 1 then panic "fileclose"
  else
    modf f (fun k => set_ref (ref k - 1) k);;
    ff ← getf f;
    if 0 <? ref ff then release L_ftable
    else
      modf f (set_ref 0);;
      modf f (set_type FD_NONE);;
      release L_ftable;;
      match type ff with
      | FD_PIPE => Pipe.pipeclose (fpipe ff) (writable ff)
      | FD_INODE => begin_op;; Fs.iput (T := T) wf (fip ff);; end_op
      | FD_NONE => mret tt
      end.

Definition filestat (f : nat) : M S (option Fs.stat) :=
  k ← getf f;
  match type k with
  | FD_INODE =>
      Fs.ilock (T := T) wf (fip k);;
      st ← Fs.stati (fip k);
      Fs.iunlock (T := T) (fip k);;
      mret (Some st)
  | _ => mret None
  end.

(** The result and the bytes stored at [addr]. *)
Definition fileread (f : nat) (n : Z) : M S (Z * list Z) :=
  k ← getf f;
  if negb (readable k) then mret (-1, [])
  else match type k with
  | FD_PIPE => Pipe.piperead wf (fpipe k) (Z.to_nat n)
  | FD_INODE =>
      Fs.ilock (T := T) wf (fip k);;
      k ← getf f;
      r ← Fs.readi (T := T) (fip k) (off k) n;
      (if 0 <? r.1 then modf f (fun k => set_off (u32 (off k + r.1)) k) else mret tt);;
      Fs.iunlock (T := T) (fip k);;
      mret r
  | FD_NONE => panic "fileread"
  end.

(** [((MAXOPBLOCKS - 1 - 1 - 2) / 2) * 512] *)
Definition max_write : Z := ((MAXOPBLOCKS - 1 - 1 - 2) / 2) * 512.

(** The loop of [filewrite]: the number of bytes written; every round that goes on
    writes at least one byte. *)
Fixpoint filewrite_loop (fuel : nat) (f : nat) (src : list Z) (n i : Z) : M S Z :=
  match fuel with
  | O => mret i
  | Datatypes.S fl =>
      if i <? n then
        let n1 := if max_write <? n - i then max_write else n - i in
        begin_op;;
        k ← getf f;
        Fs.ilock (T := T) wf (fip k);;
        k ← getf f;
        r ← Fs.writei (T := T) (fip k) (drop (Z.to_nat i) src) (off k) n1;
        (if 0 <? r then modf f (fun k => set_off (u32 (off k + r)) k) else mret tt);;
        Fs.iunlock (T := T) (fip k);;
        end_op;;
        if r <? 0 then mret i
        else if negb (r =? n1) then panic "short filewrite"
        else filewrite_loop fl f src n (i + r)
      else mret i
  end.

(** [src] are the bytes at [addr]. *)
Definition filewrite (f : nat) (src : list Z) (n : Z) : M S Z :=
  k ← getf f;
  if negb (writable k) then mret (-1)
  else match type k with
  | FD_PIPE => Pipe.pipewrite wf (fpipe k) (take (Z.to_nat n) src)
  | FD_INODE =>
      i ← filewrite_loop (Datatypes.S (Z.to_nat n)) f src n 0;
      mret (if i =? n then n else -1)
  | FD_NONE => panic "filewrite"
  end.

(** ** Pipes as pairs of files (pipe.c) *)

Definition cleanuppipealloc (p : Z) (f0 f1 : option nat) : M S unit :=
  (if p =? 0 then mret tt else kfree_page p);;
  (match f0 with Some f => fileclose f | None => mret tt end);;
  (match f1 with Some f => fileclose f | None => mret tt end).

(** The two files, or nothing. *)
Definition pipealloc : M S (option (nat * nat)) :=
  f0 ← filealloc;
  match f0 with
  | None => cleanuppipealloc 0 None None;; mret None
  | Some r =>
      f1 ← filealloc;
      match f1 with
      | None => cleanuppipealloc 0 (Some r) None;; mret None
      | Some w =>
          p ← kalloc_page;
          if p =? 0 then cleanuppipealloc p (Some r) (Some w);; mret None
          else
            Pipe.pipe_init p;;
            modf r (as_pipe p true false);;
            modf w (as_pipe p false true);;
            mret (Some (r, w))
      end
  end.

End Ops.
End File.
