(* ===== verification/Vm.v ===== *)
(** * Virtual memory: vm.c

    Two-level page tables, stored in pages of physical memory that the kernel
    reaches at [P2V].  Of the registers that [switchuvm] loads, the page table
    base and the kernel stack of the current task are here; its segment descriptors, with
    [seginit], are in [Seg].  The messages of [allocuvm] are left out. *)

From stdpp Require Import base gmap list strings.
From Stdlib Require Import ZArith Lia.
From S2P Require Import Prelude CString Core Locking Kalloc Bio Log Tx Fs.

Module Vm.

Definition NPDENTRIES : nat := 1024.
Definition PTE_P : Z := 1.
Definition PTE_W : Z := 2.
Definition PTE_U : Z := 4.
Definition PTE_ADDR (pte : Z) : Z := Z.land pte (Z.lnot 0xFFF).
Definition PTE_FLAGS (pte : Z) : Z := Z.land pte 0xFFF.
Definition PDX (va : Z) : Z := Z.land (Z.shiftr va 22) 0x3FF.
Definition PTX (va : Z) : Z := Z.land (Z.shiftr va 12) 0x3FF.
Definition PGADDR (d t o : Z) : Z := u32 (Z.lor (Z.lor (Z.shiftl d 22) (Z.shiftl t 12)) o).

Definition present (pte : Z) : bool := negb (Z.land pte PTE_P =? 0).
Definition is_user (pte : Z) : bool := negb (Z.land pte PTE_U =? 0).

(** [kpgdir], and the registers: page table base and kernel stack of the task. *)
Record vmvars : Type := { kpgdir : Z; cr3 : Z; esp0 : Z }.

(** A row of the table [kmap]. *)
Record kmapping : Type := { virt : Z; phys_start : Z; phys_end : Z; perm : Z }.

(** Bytes stored from address [a] on. *)
Fixpoint store_list (m : mem) (a : Z) (l : list Z) : mem :=
  match l with
  | [] => m
  | b :: l' => store_list (storeb m a b) (a + 1) l'
  end.

Section Ops.
Context {S : Type} {HR : Lens S ram} {HA : PageAlloc S} {HC : Lens S core} {HV : Lens S vmvars}.
(** The address [data] of the linker script. *)
Context (kdata : Z).

Definition rget (a : Z) : M S Z := lgets (T := ram) (fun r => load32 (ram_bytes r) a).
Definition rset (a v : Z) : M S unit :=
  lmod (T := ram) (fun r => {| ram_bytes := store32 (ram_bytes r) a v |}).
Definition rmod (f : mem -> mem) : M S unit :=
  lmod (T := ram) (fun r => {| ram_bytes := f (ram_bytes r) |}).

(** The address of the entry for [va], or 0. *)
Definition walkpgdir (pgdir va : Z) (alloc : bool) : M S Z :=
  let pde := pgdir + 4 * PDX va in
  e ← rget pde;
  if present e then mret (P2V (PTE_ADDR e) + 4 * PTX va)
  else if negb alloc then mret 0
  else
    pgtab ← kalloc_page;
    if pgtab =? 0 then mret 0
    else
      rmod (fun m => Str.memset m pgtab 0 PGSIZE);;
      rset pde (Z.lor (Z.lor (Z.lor (V2P pgtab) PTE_P) PTE_W) PTE_U);;
      mret (pgtab + 4 * PTX va).

(** The loop of [mappages]; it ends when [a] reaches [last]. *)
Fixpoint map_loop (fuel : nat) (pgdir a last pa perm : Z) : M S Z :=
  match fuel with
  | O => spin
  | Datatypes.S f =>
      pte ← walkpgdir pgdir a true;
      if pte =? 0 then mret (-1)
      else
        e ← rget pte;
        if present e then panic "remap"
        else
          rset pte (Z.lor (Z.lor pa perm) PTE_P);;
          if a =? last then mret 0
          else map_loop f pgdir (u32 (a + PGSIZE)) last (u32 (pa + PGSIZE)) perm
  end.

Definition mappages (pgdir va size pa perm : Z) : M S Z :=
  let a := PGROUNDDOWN va in
  let last := PGROUNDDOWN (u32 (va + size - 1)) in
  map_loop (Datatypes.S (Z.to_nat (u32 (last - a) / PGSIZE))) pgdir a last pa perm.

(** The loop of [deallocuvm]. *)
Fixpoint dealloc_loop (fuel : nat) (pgdir a oldsz : Z) : M S unit :=
  match fuel with
  | O => mret tt
  | Datatypes.S f =>
      if a <? oldsz then
        pte ← walkpgdir pgdir a false;
        if pte =? 0 then
          dealloc_loop f pgdir (u32 (u32 (PGADDR (PDX a + 1) 0 0 - PGSIZE) + PGSIZE)) oldsz
        else
          e ← rget pte;
          (if present e then
             let pa := PTE_ADDR e in
             if pa =? 0 then panic "kfree"
             else kfree_page (P2V pa);; rset pte 0
           else mret tt);;
          dealloc_loop f pgdir (u32 (a + PGSIZE)) oldsz
      else mret tt
  end.

Definition deallocuvm (pgdir oldsz newsz : Z) : M S Z :=
  if oldsz <=? newsz then mret oldsz
  else
    dealloc_loop (Datatypes.S (Z.to_nat (oldsz / PGSIZE + 1))) pgdir (PGROUNDUP newsz) oldsz;;
    mret newsz.

Definition free_table (pgdir : Z) (i : nat) : M S unit :=
  e ← rget (pgdir + 4 * Z.of_nat i);
  if present e then kfree_page (P2V (PTE_ADDR e)) else mret tt.

Definition freevm (pgdir : Z) : M S unit :=
  if pgdir =? 0 then panic "freevm: no pgdir"
  else
    deallocuvm pgdir KERNBASE 0;;
    for_each (free_table pgdir) (seq 0 NPDENTRIES);;
    kfree_page pgdir.

Definition kmap : list kmapping :=
  [ {| virt := KERNBASE; phys_start := 0; phys_end := EXTMEM; perm := PTE_W |};
    {| virt := KERNLINK; phys_start := V2P KERNLINK; phys_end := V2P kdata; perm := 0 |};
    {| virt := kdata; phys_start := V2P kdata; phys_end := PHYSTOP; perm := PTE_W |};
    {| virt := DEVSPACE; phys_start := DEVSPACE; phys_end := 0; perm := PTE_W |} ].

Fixpoint setup_loop (pgdir : Z) (l : list kmapping) : M S Z :=
  match l with
  | [] => mret pgdir
  | k :: l' =>
      r ← mappages pgdir (virt k) (u32 (phys_end k - phys_start k)) (phys_start k) (perm k);
      if r <? 0 then freevm pgdir;; mret 0 else setup_loop pgdir l'
  end.

Definition setupkvm : M S Z :=
  pgdir ← kalloc_page;
  if pgdir =? 0 then mret 0
  else
    rmod (fun m => Str.memset m pgdir 0 PGSIZE);;
    if DEVSPACE <? P2V PHYSTOP then panic "PHYSTOP too high"
    else setup_loop pgdir kmap.

Definition switchkvm : M S unit :=
  lmod (T := vmvars) (fun v => {| kpgdir := kpgdir v; cr3 := V2P (kpgdir v); esp0 := esp0 v |}).

Definition kvmalloc : M S unit :=
  d ← setupkvm;
  lmod (T := vmvars) (fun v => {| kpgdir := d; cr3 := cr3 v; esp0 := esp0 v |});;
  switchkvm.

Definition switchuvm (p : option nat) : M S unit :=
  match p with
  | None => panic "switchuvm: no process"
  | Some p =>
      q ← core_get (fun c => getp c p);
      if kstack q =? 0 then panic "switchuvm: no kstack"
      else if pgdir q =? 0 then panic "switchuvm: no pgdir"
      else
        pushcli;;
        lmod (T := vmvars) (fun v => {| kpgdir := kpgdir v; cr3 := V2P (pgdir q);
                                        esp0 := kstack q + KSTACKSIZE |});;
        popcli
  end.

(** [init] is the program, of [sz] bytes, at [init] in the kernel. *)
Definition inituvm (pgdir init sz : Z) : M S unit :=
  if PGSIZE <=? sz then panic "inituvm: more than a page"
  else
    m ← kalloc_page;
    rmod (fun r => Str.memset r m 0 PGSIZE);;
    mappages pgdir 0 PGSIZE (V2P m) (Z.lor PTE_W PTE_U);;
    rmod (fun r => Str.memmove r m init sz).

(** The loop of [allocuvm]. *)
Fixpoint alloc_loop (fuel : nat) (pgdir a oldsz newsz : Z) : M S Z :=
  match fuel with
  | O => mret newsz
  | Datatypes.S f =>
      if a <? newsz then
        m ← kalloc_page;
        if m =? 0 then deallocuvm pgdir newsz oldsz;; mret 0
        else
          rmod (fun r => Str.memset r m 0 PGSIZE);;
          r ← mappages pgdir a PGSIZE (V2P m) (Z.lor PTE_W PTE_U);
          if r <? 0 then deallocuvm pgdir newsz oldsz;; kfree_page m;; mret 0
          else alloc_loop f pgdir (u32 (a + PGSIZE)) oldsz newsz
      else mret newsz
  end.

Definition allocuvm (pgdir oldsz newsz : Z) : M S Z :=
  if KERNBASE <=? newsz then mret 0
  else if newsz <? oldsz then mret oldsz
  else alloc_loop (Datatypes.S (Z.to_nat (newsz / PGSIZE + 1))) pgdir (PGROUNDUP oldsz) oldsz newsz.

Definition clearpteu (pgdir uva : Z) : M S unit :=
  pte ← walkpgdir pgdir uva false;
  if pte =? 0 then panic "clearpteu"
  else e ← rget pte; rset pte (Z.land e (Z.lnot PTE_U)).

Fixpoint copy_loop (fuel : nat) (pgdir d i sz : Z) : M S Z :=
  match fuel with
  | O => mret d
  | Datatypes.S f =>
      if i <? sz then
        pte ← walkpgdir pgdir i false;
        if pte =? 0 then panic "copyuvm: pte should exist"
        else
          e ← rget pte;
          if negb (present e) then panic "copyuvm: page not present"
          else
            let pa := PTE_ADDR e in let flags := PTE_FLAGS e in
            m ← kalloc_page;
            if m =? 0 then freevm d;; mret 0
            else
              rmod (fun r => Str.memmove r m (P2V pa) PGSIZE);;
              r ← mappages d i PGSIZE (V2P m) flags;
              if r <? 0 then kfree_page m;; freevm d;; mret 0
              else copy_loop f pgdir d (u32 (i + PGSIZE)) sz
      else mret d
  end.

Definition copyuvm (pgdir sz : Z) : M S Z :=
  d ← setupkvm;
  if d =? 0 then mret 0
  else copy_loop (Datatypes.S (Z.to_nat (sz / PGSIZE + 1))) pgdir d 0 sz.

(** [uva2ka] does not test the result of [walkpgdir]: without a page table it loads
    the entry from address 0. *)
Definition uva2ka (pgdir uva : Z) : M S Z :=
  pte ← walkpgdir pgdir uva false;
  e ← rget pte;
  if negb (present e) then mret 0
  else if negb (is_user e) then mret 0
  else mret (P2V (PTE_ADDR e)).

(** [buf] are the [len] bytes at the pointer that the caller passes. *)
Fixpoint copyout_loop (fuel : nat) (pgdir va : Z) (buf : list Z) : M S Z :=
  match fuel with
  | O => mret 0
  | Datatypes.S f =>
      let len := zlen buf in
      if 0 <? len then
        let va0 := PGROUNDDOWN va in
        pa0 ← uva2ka pgdir va0;
        if pa0 =? 0 then mret (-1)
        else
          let n := u32 (PGSIZE - (va - va0)) in
          let n := if len <? n then len else n in
          rmod (fun r => store_list r (pa0 + (va - va0)) (take (Z.to_nat n) buf));;
          copyout_loop f pgdir (u32 (va0 + PGSIZE)) (drop (Z.to_nat n) buf)
      else mret 0
  end.

Definition copyout (pgdir va : Z) (buf : list Z) : M S Z :=
  copyout_loop (Datatypes.S (length buf)) pgdir va buf.

Section Load.
Context {T : Type} {HLT : Lens S T} {HTx : TxLayer T}
  {HLi : Lens S Fs.icache} {HLb : Lens S superblock} {HDv : Fs.DevSw S}.

Fixpoint load_loop (fuel : nat) (pgdir addr : Z) (ip : nat) (offset i sz : Z) : M S Z :=
  match fuel with
  | O => mret 0
  | Datatypes.S f =>
      if i <? sz then
        pte ← walkpgdir pgdir (u32 (addr + i)) false;
        if pte =? 0 then panic "loaduvm: address should exist"
        else
          e ← rget pte;
          let pa := PTE_ADDR e in
          let n := if sz - i <? PGSIZE then sz - i else PGSIZE in
          r ← Fs.readi (T := T) ip (u32 (offset + i)) n;
          rmod (fun m => store_list m (P2V pa) r.2);;
          if negb (r.1 =? n) then mret (-1)
          else load_loop f pgdir addr ip offset (u32 (i + PGSIZE)) sz
      else mret 0
  end.

Definition loaduvm (pgdir addr : Z) (ip : nat) (offset sz : Z) : M S Z :=
  if negb (addr mod PGSIZE =? 0) then panic "loaduvm: addr must be page aligned"
  else load_loop (Datatypes.S (Z.to_nat (sz / PGSIZE + 1))) pgdir addr ip offset 0 sz.
End Load.

End Ops.
End Vm.
