(* ===== verification/VmProof.v ===== *)
(** * Virtual memory: proofs

    A page table is the function from virtual pages to entries that the hardware
    would find; [mappages] changes exactly the entries it is asked to. *)

From stdpp Require Import base gmap list strings.
From Stdlib Require Import ZArith Lia.
From S2P Require Import Prelude CString Core Kalloc Vm.
Import Vm.

Module VmProof.

(** ** Addresses *)

Lemma land_page x : Z.land x (Z.lnot 0xFFF) = x - x mod 4096.
Proof.
  change 0xFFF with (Z.ones 12). rewrite <- Z.ldiff_land, Z.ldiff_ones_r by lia.
  rewrite Z.shiftl_mul_pow2, Z.shiftr_div_pow2 by lia. Z.to_euclidean_division_equations. lia.
Qed.

Lemma PGROUNDDOWN_eq a : PGROUNDDOWN a = a - a mod 4096.
Proof. apply land_page. Qed.

Lemma PDX_eq va : 0 <= va < 2 ^ 32 -> PDX va = va / 2 ^ 22.
Proof.
  intros H. unfold PDX. change 0x3FF with (Z.ones 10). rewrite Z.land_ones, Z.shiftr_div_pow2 by lia.
  apply Z.mod_small. Z.to_euclidean_division_equations. lia.
Qed.
Lemma PTX_eq va : PTX va = va / 2 ^ 12 mod 1024.
Proof. unfold PTX. change 0x3FF with (Z.ones 10). by rewrite Z.land_ones, Z.shiftr_div_pow2 by lia. Qed.

Lemma PDX_range va : 0 <= PDX va < 1024.
Proof. unfold PDX. change 0x3FF with (Z.ones 10). rewrite Z.land_ones by lia. apply Z.mod_pos_bound. lia. Qed.
Lemma PTX_range va : 0 <= PTX va < 1024.
Proof. rewrite PTX_eq. apply Z.mod_pos_bound. lia. Qed.

Lemma same_page va va' : 0 <= va < 2 ^ 32 -> 0 <= va' < 2 ^ 32 ->
  PDX va = PDX va' /\ PTX va = PTX va' <-> va / 4096 = va' / 4096.
Proof.
  intros H H'. rewrite !PDX_eq, !PTX_eq by done. change (2 ^ 12) with 4096.
  replace (va / 2 ^ 22) with (va / 4096 / 1024) by (rewrite Z.div_div by lia; done).
  replace (va' / 2 ^ 22) with (va' / 4096 / 1024) by (rewrite Z.div_div by lia; done).
  split; [|by intros ->]. intros [H1 H2]. rewrite (Z.div_mod (va / 4096) 1024), (Z.div_mod (va' / 4096) 1024) by lia. lia.
Qed.

Lemma low_bits x k : 0 <= k < 4096 -> x mod 4096 = 0 -> Z.lor x k = x + k.
Proof.
  intros Hk Hx. replace x with (Z.shiftl (x / 4096) 12).
  - rewrite lor_shiftl_add by lia. rewrite Z.shiftl_mul_pow2 by lia. done.
  - rewrite Z.shiftl_mul_pow2 by lia. change (2 ^ 12) with 4096. Z.to_euclidean_division_equations. lia.
Qed.

Lemma present_odd e : present e = Z.odd e.
Proof.
  unfold present, PTE_P. change 1 with (Z.ones 1). rewrite Z.land_ones by lia. change (2 ^ 1) with 2.
  rewrite Zmod_odd. by destruct (Z.odd e).
Qed.

(** The entry for a page table page. *)
Lemma pde_of_page p : p mod PGSIZE = 0 -> KERNBASE < p < KERNBASE + PHYSTOP ->
  let e := Z.lor (Z.lor (Z.lor (V2P p) PTE_P) PTE_W) PTE_U in
  0 <= e < 2 ^ 32 /\ present e = true /\ P2V (PTE_ADDR e) = p.
Proof.
  unfold KERNBASE, PHYSTOP, PGSIZE. intros Hp Hr.
  assert (HV : V2P p = p - KERNBASE) by (unfold V2P, KERNBASE; apply u32_small; lia).
  assert (Hm : (p - KERNBASE) mod 4096 = 0) by (unfold KERNBASE; Z.to_euclidean_division_equations; lia).
  rewrite HV. unfold PTE_P, PTE_W, PTE_U. rewrite <- !Z.lor_assoc. change (Z.lor 1 (Z.lor 2 4)) with 7.
  rewrite low_bits by (done || lia). unfold KERNBASE in *. split_and!; [lia | lia | |].
  - rewrite present_odd, Z.odd_add.
    replace (Z.odd (p - 2147483648)) with false; [done|]. symmetry.
    rewrite <- Z.negb_even. apply negb_false_iff. apply Z.even_spec. exists ((p - 2147483648) / 2).
    Z.to_euclidean_division_equations. lia.
  - unfold PTE_ADDR, P2V, KERNBASE. rewrite land_page. rewrite u32_small; Z.to_euclidean_division_equations; lia.
Qed.

(** ** Translation *)

Definition pde (m : mem) (d va : Z) : Z := load32 m (d + 4 * PDX va).
Definition pt_base (e : Z) : Z := P2V (PTE_ADDR e).

(** The entry for the page of [va], 0 when there is none. *)
Definition mapping (m : mem) (d va : Z) : Z :=
  let e := pde m d va in
  if present e then
    let t := load32 m (pt_base e + 4 * PTX va) in if present t then t else 0
  else 0.

Section Progs.
Context {S : Type} {HR : Lens S ram} {HRok : LensOk S ram} {HA : PageAlloc S} {HAL : PageAllocLaws S}.

(** [m] holds a page directory at [d] whose tables are the pages [T]: each present
    entry has a table of its own. *)
Definition pt_ok (m : mem) (d : Z) (T : list Z) : Prop :=
  bytes_ok m /\ NoDup (d :: T) /\ Forall pa_page (d :: T) /\
  (forall i, 0 <= i < 1024 -> present (load32 m (d + 4 * i)) = true ->
     pt_base (load32 m (d + 4 * i)) ∈ T) /\
  (forall i j, 0 <= i < 1024 -> 0 <= j < 1024 ->
     present (load32 m (d + 4 * i)) = true -> present (load32 m (d + 4 * j)) = true ->
     pt_base (load32 m (d + 4 * i)) = pt_base (load32 m (d + 4 * j)) -> i = j).

Lemma vpages_apart p q : pa_page p -> pa_page q -> p <> q -> p + PGSIZE <= q \/ q + PGSIZE <= p.
Proof.
  intros Hp Hq Hne. destruct (pa_page_range _ Hp) as [Hp1 _], (pa_page_range _ Hq) as [Hq1 _].
  unfold PGSIZE in *. Z.to_euclidean_division_equations. lia.
Qed.

(** Words of page [p]. *)
Lemma load32_other p q m m' i : pa_page p -> pa_page q -> p <> q -> 0 <= i < 1024 ->
  (forall a, a < q \/ q + PGSIZE <= a -> loadb m' a = loadb m a) ->
  load32 m' (p + 4 * i) = load32 m (p + 4 * i).
Proof.
  intros Hp Hq Hne Hi Hfr. pose proof (vpages_apart _ _ Hp Hq Hne). unfold PGSIZE in *. unfold load32.
  rewrite !Hfr by lia. done.
Qed.

Lemma load32_zero m p i : 0 <= i < 1024 -> load32 (Str.memset m p 0 PGSIZE) (p + 4 * i) = 0.
Proof.
  intros Hi. unfold load32, PGSIZE.
  assert (Hz : forall a, p <= a < p + 4096 -> loadb (Str.memset m p 0 4096) a = 0).
  { intros a Ha. rewrite Str.memset_spec by lia.
    replace ((p <=? a) && (a <? p + 4096)) with true by (symmetry; apply andb_true_iff; lia). done. }
  rewrite !Hz by lia. done.
Qed.

(** *** Changing one entry of a table *)

Lemma set_pte m d T va va' v :
  pt_ok m d T -> 0 <= va < 2 ^ 32 -> 0 <= va' < 2 ^ 32 -> present (pde m d va) = true -> 0 <= v < 2 ^ 32 ->
  let m' := store32 m (pt_base (pde m d va) + 4 * PTX va) v in
  pt_ok m' d T /\ mapping m' d va' =
    if va' / 4096 =? va / 4096 then (if present v then v else 0) else mapping m d va'.
Proof.
  intros (Hb & HN & HF & Htab & Hinj) Hva Hva' Hp Hv m'.
  pose proof (PDX_range va) as Hd. pose proof (PDX_range va') as Hd'. pose proof (PTX_range va) as Ht. pose proof (PTX_range va') as Ht'.
  pose proof (Htab _ Hd Hp) as Hin. fold (pde m d va) in Hin. set (t := pt_base (pde m d va)) in *.
  apply NoDup_cons in HN as [Hdn HN]. apply Forall_cons in HF as [Hdp HF].
  assert (Htp : pa_page t) by (by eapply Forall_forall in HF; [|exact Hin]).
  assert (Hdt : d <> t) by (intros Heq; apply Hdn; by rewrite Heq).
  assert (Hfr : forall p i, pa_page p -> p <> t -> 0 <= i < 1024 -> load32 m' (p + 4 * i) = load32 m (p + 4 * i)).
  { intros p i Hpp Hne Hi. apply (load32_other _ t); try done. intros a Ha. unfold PGSIZE in Ha.
    apply loadb_store32_ne. lia. }
  assert (Hpd : forall i, 0 <= i < 1024 -> load32 m' (d + 4 * i) = load32 m (d + 4 * i)) by (intros; by apply Hfr).
  split.
  - split_and!; [by apply bytes_ok_store32 | by constructor | by constructor | |].
    + intros i Hi. rewrite Hpd by done. by apply Htab.
    + intros i j Hi Hj. rewrite !Hpd by done. by apply Hinj.
  - assert (Hpde : pde m' d va' = pde m d va') by (unfold pde; by rewrite Hpd).
    unfold mapping. rewrite Hpde.
    destruct (decide (va' / 4096 = va / 4096)) as [E|E].
    + rewrite E, Z.eqb_refl. apply same_page in E as [E1 E2]; [|done|done]. unfold pde. rewrite E1, E2.
      fold (pde m d va). rewrite Hp. unfold m'. fold t. rewrite load32_store32_eq, u32_small by done. done.
    + rewrite (proj2 (Z.eqb_neq _ _) E). destruct (present (pde m d va')) eqn:Hp'; [|done].
      assert (load32 m' (pt_base (pde m d va') + 4 * PTX va') = load32 m (pt_base (pde m d va') + 4 * PTX va')) as ->; [|done].
      destruct (decide (pt_base (pde m d va') = t)) as [Et|Et].
      * assert (PDX va' = PDX va) as Ed by (by apply Hinj).
        assert (PTX va' <> PTX va) by (intros Ep; apply E, same_page; done).
        rewrite Et. unfold m'. fold t. apply load32_store32_ne. lia.
      * apply Hfr; [|done|done]. eapply Forall_forall; [exact HF|]. by apply Htab.
Qed.

(** *** Walking *)

Definition rm (s : S) : mem := ram_bytes (lget s).

Lemma rm_lset s m : rm (lset {| ram_bytes := m |} s) = m.
Proof. unfold rm. by rewrite lget_lset. Qed.

(** The directory, its tables and the free pages are different pages. *)
Definition pt_state (s : S) (d : Z) (T l : list Z) : Prop :=
  pa_inv s l /\ pt_ok (rm s) d T /\ NoDup (d :: T ++ l).

(** A new, empty table for the region of [va]. *)
Lemma new_table m d T p va va' :
  pt_ok m d T -> pa_page p -> p ∉ d :: T -> 0 <= va < 2 ^ 32 -> 0 <= va' < 2 ^ 32 -> present (pde m d va) = false ->
  let e := Z.lor (Z.lor (Z.lor (V2P p) PTE_P) PTE_W) PTE_U in
  let m' := store32 (Str.memset m p 0 PGSIZE) (d + 4 * PDX va) e in
  pt_ok m' d (p :: T) /\ mapping m' d va' = mapping m d va' /\ pde m' d va = e /\ pt_base e = p /\ present e = true.
Proof.
  intros (Hb & HN & HF & Htab & Hinj) Hp Hpn Hva Hva' Hnp e m'.
  apply not_elem_of_cons in Hpn as [Hpd HpT].
  pose proof (PDX_range va) as Hd. destruct (pa_page_range _ Hp) as [Hp1 Hp2].
  destruct (pde_of_page p Hp1 Hp2) as (He1 & He2 & He3). fold e in He1, He2, He3. change (pt_base e = p) in He3.
  pose proof HF as [Hdp HT]%Forall_cons. apply NoDup_cons in HN as [Hdn HN].
  set (m1 := Str.memset m p 0 PGSIZE) in *.
  assert (Hm1 : forall q i, pa_page q -> q <> p -> 0 <= i < 1024 -> load32 m1 (q + 4 * i) = load32 m (q + 4 * i)).
  { intros q i Hq Hne Hi. apply (load32_other _ p); try done. intros a Ha. unfold m1. rewrite Str.memset_spec by done.
    replace ((p <=? a) && (a <? p + PGSIZE)) with false; [done|]. symmetry. apply andb_false_iff. lia. }
  assert (Hm2 : forall q i, pa_page q -> q <> d -> 0 <= i < 1024 -> load32 m' (q + 4 * i) = load32 m1 (q + 4 * i)).
  { intros q i Hq Hne Hi. apply (load32_other _ d); try done. intros a Ha. unfold PGSIZE in Ha.
    apply loadb_store32_ne. lia. }
  assert (Hdir : forall i, 0 <= i < 1024 -> load32 m' (d + 4 * i) = if i =? PDX va then e else load32 m (d + 4 * i)).
  { intros i Hi. unfold m'. destruct (i =? PDX va) eqn:E; zbool.
    - rewrite E, load32_store32_eq. by apply u32_small.
    - rewrite load32_store32_ne by lia. apply Hm1; [done | congruence | done]. }
  assert (Hbytes : bytes_ok m').
  { apply bytes_ok_store32. intros a. unfold m1. rewrite Str.memset_spec by done. case_bool; [done | apply Hb]. }
  assert (Hne : forall i, 0 <= i < 1024 -> i <> PDX va -> present (load32 m (d + 4 * i)) = true ->
    pt_base (load32 m (d + 4 * i)) <> p) by (intros i Hi _ Hpi E; apply HpT; rewrite <- E; by apply Htab).
  split_and!; [split_and!; [done | | | |] | | unfold pde; by rewrite Hdir, Z.eqb_refl | done | done].
  - constructor; [rewrite elem_of_cons; intros [?|?]; congruence | by constructor].
  - constructor; [done | by constructor].
  - intros i Hi. rewrite Hdir by done. destruct (i =? PDX va); [intros _; rewrite He3; by left | right; by apply Htab].
  - intros i j Hi Hj. rewrite !Hdir by done. destruct (i =? PDX va) eqn:Ei, (j =? PDX va) eqn:Ej; zbool; try congruence;
      intros Hpi Hpj Heq; rewrite ?He3 in Heq.
    + destruct (Hne j Hj Ej Hpj). done.
    + destruct (Hne i Hi Ei Hpi). done.
    + by apply Hinj.
  - pose proof (PDX_range va') as Hd'. pose proof (PTX_range va') as Ht'. unfold mapping.
    replace (pde m' d va') with (if PDX va' =? PDX va then e else pde m d va') by (unfold pde; by rewrite Hdir).
    destruct (PDX va' =? PDX va) eqn:E; zbool.
    + rewrite He2, He3. rewrite Hm2 by (done || congruence). unfold m1. rewrite load32_zero by done.
      unfold pde. rewrite E. fold (pde m d va). by rewrite Hnp.
    + destruct (present (pde m d va')) eqn:Hp'; [|done].
      assert (Hq : pt_base (pde m d va') ∈ T) by (by apply Htab).
      assert (Hqp : pa_page (pt_base (pde m d va'))) by (by eapply Forall_forall in HT; [|exact Hq]).
      rewrite Hm2, Hm1; try done; intros Heq; rewrite Heq in Hq; done.
Qed.

Lemma pt_state_set s d T l (m : mem) :
  pt_state s d T l -> (forall v a, v ∈ l -> v <= a < v + PGSIZE -> loadb m a = loadb (rm s) a) ->
  pt_ok m d T -> pt_state (lset {| ram_bytes := m |} s) d T l.
Proof.
  intros (Hi & _ & HN) Hfr Hok. split_and!; [by apply pa_inv_frame | unfold rm; by rewrite lget_lset | done].
Qed.

Lemma table_page s d T l va : pt_state s d T l -> present (pde (rm s) d va) = true ->
  pt_base (pde (rm s) d va) ∈ T /\ pa_page (pt_base (pde (rm s) d va)).
Proof.
  intros (_ & (_ & _ & HF & Htab & _) & _) Hp. pose proof (Htab _ (PDX_range va) Hp) as Hin.
  split; [done|]. apply Forall_cons in HF as [_ HF]. by eapply Forall_forall in HF; [|exact Hin].
Qed.

(** [walkpgdir] that may allocate: it finds the entry, perhaps in a new table, and
    changes no translation. *)
Lemma wp_walk s d T l va (Q : Z -> S -> Prop) :
  pt_state s d T l -> 0 <= va < 2 ^ 32 -> l <> [] ->
  (forall s' T' l', pt_state s' d T' l' -> present (pde (rm s') d va) = true ->
     (forall va', 0 <= va' < 2 ^ 32 -> mapping (rm s') d va' = mapping (rm s) d va') ->
     (length l <= Datatypes.S (length l'))%nat -> Q (pt_base (pde (rm s') d va) + 4 * PTX va) s') ->
  wp (walkpgdir d va true) s Q.
Proof.
  intros Hst Hva Hl HQ. unfold walkpgdir, rget. wp_step. fold (rm s). fold (pde (rm s) d va).
  destruct (present (pde (rm s) d va)) eqn:Hp. { wp_prim. by apply (HQ s T l); [| | |lia]. }
  cbn [negb]. wp_prim. pose proof Hst as (Hi & Hok & HN). destruct l as [|p l]; [done|].
  destruct (pa_inv_pages _ _ Hi) as [_ HFl]. apply Forall_cons in HFl as [Hpp HFl].
  eapply pa_alloc; [exact Hi|]. intros s1 Hi1 Hm1. simpl in *.
  destruct (pa_page_range _ Hpp) as [Hp1 Hp2]. replace (p =? 0) with false by (unfold KERNBASE in *; lia).
  unfold rmod, rset. wp_step. rewrite !lset_lset, !lget_lset. cbn [ram_bytes]. fold (rm s1).
  assert (Hrm : rm s1 = rm s) by exact Hm1. rewrite Hrm.
  assert (Hpn : p ∉ d :: T).
  { rewrite elem_of_cons. apply NoDup_cons in HN as [Hdn HN]. apply NoDup_app in HN as (_ & Hdis & _).
    intros [->|Hin]; [apply Hdn; rewrite elem_of_app; right; by left | apply (Hdis p Hin); by left]. }
  pose proof (new_table (rm s) d T p va va Hok Hpp Hpn Hva Hva Hp) as (Hok' & _ & Hpde & Hbase & Hpres).
  set (e := Z.lor (Z.lor (Z.lor (V2P p) PTE_P) PTE_W) PTE_U) in *.
  set (m' := store32 (Str.memset (rm s) p 0 PGSIZE) (d + 4 * PDX va) e) in *.
  assert (Hrm' : rm (lset {| ram_bytes := m' |} s1) = m') by (unfold rm; by rewrite lget_lset).
  replace (p + 4 * PTX va) with (pt_base (pde (rm (lset {| ram_bytes := m' |} s1)) d va) + 4 * PTX va)
    by (by rewrite Hrm', Hpde, Hbase).
  apply (HQ _ (p :: T) l); rewrite ?Hrm'.
  - split_and!; [|by rewrite Hrm'|].
    + apply pa_inv_frame; [done|]. fold (rm s1). rewrite Hrm. intros v a Hv Ha.
      assert (Hvp : pa_page v) by (by eapply Forall_forall in HFl; [|exact Hv]).
      assert (v <> p /\ v <> d) as [Hne1 Hne2].
      { apply NoDup_cons in HN as [Hdn HN]. apply NoDup_app in HN as (_ & _ & HN). apply NoDup_cons in HN as [Hpl _].
        split; [by intros -> | intros ->; apply Hdn; rewrite elem_of_app; right; by right]. }
      destruct Hok as (_ & _ & HF & _). apply Forall_cons in HF as [Hdp _]. pose proof (PDX_range va).
      pose proof (vpages_apart _ _ Hvp Hpp Hne1). pose proof (vpages_apart _ _ Hvp Hdp Hne2). unfold PGSIZE in *.
      unfold m'. rewrite loadb_store32_ne by lia. rewrite Str.memset_spec by lia.
      replace ((p <=? a) && (a <? p + 4096)) with false; [done|]. symmetry. apply andb_false_iff. lia.
    + eapply NoDup_Permutation_proper; [|exact HN]. cbn [app]. constructor. apply Permutation_middle.
  - by rewrite Hpde.
  - intros va' Hva'. by apply (new_table (rm s) d T p va va').
  - lia.
Qed.

(** Storing the entry for [va]. *)
Lemma store_entry s d T l va v :
  pt_state s d T l -> 0 <= va < 2 ^ 32 -> present (pde (rm s) d va) = true -> 0 <= v < 2 ^ 32 ->
  let s' := lset {| ram_bytes := store32 (rm s) (pt_base (pde (rm s) d va) + 4 * PTX va) v |} s in
  pt_state s' d T l /\ forall va', 0 <= va' < 2 ^ 32 ->
    mapping (rm s') d va' = if va' / 4096 =? va / 4096 then (if present v then v else 0) else mapping (rm s) d va'.
Proof.
  intros Hst Hva Hp Hv s'. destruct (table_page _ _ _ _ _ Hst Hp) as [Hin Htp].
  pose proof Hst as (Hi & Hok & HN). destruct (pa_inv_pages _ _ Hi) as [_ HFl]. pose proof (PTX_range va).
  unfold s'. split.
  - apply pt_state_set; [done | | by apply (set_pte _ _ _ va va)]. intros w a Hw Ha.
    assert (Hwp : pa_page w) by (by eapply Forall_forall in HFl; [|exact Hw]).
    assert (Hne : w <> pt_base (pde (rm s) d va)).
    { apply NoDup_cons in HN as [_ HN]. apply NoDup_app in HN as (_ & Hdis & _). intros ->. by apply (Hdis _ Hin). }
    pose proof (vpages_apart _ _ Hwp Htp Hne). unfold PGSIZE in *. apply loadb_store32_ne. lia.
  - intros va' Hva'. unfold rm at 1. rewrite lget_lset. by apply (set_pte _ _ T).
Qed.

(** The directory is not changed by that. *)
Lemma store_entry_dir s d T l va v i :
  pt_state s d T l -> present (pde (rm s) d va) = true -> 0 <= i < 1024 ->
  load32 (store32 (rm s) (pt_base (pde (rm s) d va) + 4 * PTX va) v) (d + 4 * i) = load32 (rm s) (d + 4 * i).
Proof.
  intros Hst Hp Hi. destruct (table_page _ _ _ _ _ Hst Hp) as [Hin Htp]. pose proof (PTX_range va).
  pose proof Hst as (_ & (_ & HN & HF & _) & _). apply Forall_cons in HF as [Hdp _]. apply NoDup_cons in HN as [Hdn _].
  apply (load32_other _ (pt_base (pde (rm s) d va))); try done; [intros Heq; apply Hdn; by rewrite Heq |].
  intros a Ha. unfold PGSIZE in Ha. apply loadb_store32_ne. lia.
Qed.

(** The entry of a page of physical address [pa]. *)
Definition pte_for (pa perm : Z) : Z := Z.lor (Z.lor pa perm) PTE_P.

Lemma pte_for_ok pa perm : 0 <= pa < 2 ^ 32 -> pa mod 4096 = 0 -> 0 <= perm < 4096 ->
  0 <= pte_for pa perm < 2 ^ 32 /\ present (pte_for pa perm) = true.
Proof.
  intros Hpa Hm Hp. unfold pte_for, PTE_P. rewrite <- Z.lor_assoc.
  assert (Hk : 0 <= Z.lor perm 1 < 4096).
  { replace perm with (Z.land perm (Z.ones 12)) by (rewrite Z.land_ones by lia; apply Z.mod_small; lia).
    change 1 with (Z.land 1 (Z.ones 12)). rewrite <- Z.land_lor_distr_l, Z.land_ones by lia.
    apply Z.mod_pos_bound. lia. }
  rewrite low_bits by done. split; [Z.to_euclidean_division_equations; lia|].
  rewrite present_odd, Z.odd_add. replace (Z.odd pa) with false.
  - rewrite xorb_false_l, <- Z.bit0_odd, Z.lor_spec. change (Z.testbit 1 0) with true. apply orb_true_r.
  - symmetry. rewrite <- Z.negb_even. apply negb_false_iff, Z.even_spec. exists (pa / 2).
    Z.to_euclidean_division_equations. lia.
Qed.

(** One round of the loop: the entry of [a] is made. *)
Lemma wp_map_entry s d T l a pa perm (k : M S Z) (Q : Z -> S -> Prop) :
  pt_state s d T l -> 0 <= a < 2 ^ 32 -> 0 <= pa < 2 ^ 32 -> pa mod 4096 = 0 -> 0 <= perm < 4096 -> l <> [] ->
  mapping (rm s) d a = 0 ->
  (forall s' T' l', pt_state s' d T' l' -> (length l <= Datatypes.S (length l'))%nat ->
     (forall va, 0 <= va < 2 ^ 32 -> mapping (rm s') d va =
        if va / 4096 =? a / 4096 then pte_for pa perm else mapping (rm s) d va) -> wp k s' Q) ->
  wp (pte ← walkpgdir d a true;
      if pte =? 0 then mret (-1)
      else e ← rget pte;
           if present e then panic "remap" else rset pte (Z.lor (Z.lor pa perm) PTE_P);; k) s Q.
Proof.
  intros Hst Ha Hpa Hm Hperm Hl Hfree HQ. wp_prim. eapply wp_walk; [exact Hst | done | done |].
  intros s1 T1 l1 Hst1 Hpres1 Hmap1 Hl1.
  destruct (table_page _ _ _ _ _ Hst1 Hpres1) as [_ Htp]. destruct (pa_page_range _ Htp) as [_ Hr].
  pose proof (PTX_range a). rewrite (proj2 (Z.eqb_neq _ 0)) by (unfold KERNBASE in Hr; lia).
  unfold rget. wp_step. fold (rm s1). set (e := load32 (rm s1) _).
  assert (Hnp : present e = false).
  { assert (Hz : mapping (rm s1) d a = 0) by (rewrite Hmap1 by lia; apply Hfree; lia).
    unfold mapping in Hz. rewrite Hpres1 in Hz. fold e in Hz. destruct (present e) eqn:Ee; [|done].
    rewrite Hz in Ee. done. }
  rewrite Hnp. unfold rset. wp_step. fold (rm s1). fold (pte_for pa perm).
  destruct (pte_for_ok pa perm Hpa Hm Hperm) as [Hv1 Hv2].
  destruct (store_entry s1 d T1 l1 a (pte_for pa perm) Hst1 Ha Hpres1 Hv1) as [Hst2 Hmap2].
  apply (HQ _ _ _ Hst2 Hl1). intros va Hva. rewrite Hmap2, Hv2 by done. by rewrite Hmap1.
Qed.

(** [n + 1] pages from virtual address [a] on are mapped to the pages from [pa] on. *)
Definition mapped (m m' : mem) (d a n pa perm : Z) : Prop :=
  forall va, 0 <= va < 2 ^ 32 -> mapping m' d va =
    if (a <=? va) && (va <? a + 4096 * n) then pte_for (pa + (va - va mod 4096 - a)) perm else mapping m d va.

Lemma mapped_step m m1 m' d a n pa perm :
  a mod 4096 = 0 -> 0 <= n ->
  (forall va, 0 <= va < 2 ^ 32 ->
     mapping m1 d va = if va / 4096 =? a / 4096 then pte_for pa perm else mapping m d va) ->
  mapped m1 m' d (a + 4096) n (pa + 4096) perm -> mapped m m' d a (n + 1) pa perm.
Proof.
  intros Ha Hn H1 H2 va Hva. rewrite (H2 va Hva), (H1 va Hva).
  destruct ((a <=? va) && (va <? a + 4096 * (n + 1))) eqn:E;
    destruct ((a + 4096 <=? va) && (va <? a + 4096 + 4096 * n)) eqn:E2.
  - f_equal. lia.
  - zbool; rewrite (proj2 (Z.eqb_eq _ _)) by (Z.to_euclidean_division_equations; lia); f_equal;
      Z.to_euclidean_division_equations; lia.
  - zbool; lia.
  - rewrite (proj2 (Z.eqb_neq _ _)); [done|]. zbool; Z.to_euclidean_division_equations; lia.
Qed.

Lemma wp_map_loop perm n : forall s d T l a pa (Q : Z -> S -> Prop),
  pt_state s d T l -> 0 <= perm < 4096 -> a mod 4096 = 0 -> pa mod 4096 = 0 ->
  0 <= a -> a + 4096 * (Z.of_nat n + 1) <= 2 ^ 32 -> 0 <= pa -> pa + 4096 * (Z.of_nat n + 1) <= 2 ^ 32 ->
  (n < length l)%nat ->
  (forall va, a <= va < a + 4096 * (Z.of_nat n + 1) -> mapping (rm s) d va = 0) ->
  (forall s' T' l', pt_state s' d T' l' -> (length l <= Datatypes.S n + length l')%nat ->
     mapped (rm s) (rm s') d a (Z.of_nat n + 1) pa perm -> Q 0 s') ->
  wp (map_loop (Datatypes.S n) d a (a + 4096 * Z.of_nat n) pa perm) s Q.
Proof.
  induction n as [|n IH]; intros s d T l a pa Q Hst Hperm Ha Hpa Ha0 Ha1 Hp0 Hp1 Hl Hfree HQ;
    cbn [map_loop]; (eapply wp_map_entry; [exact Hst | lia | lia | done | done | by destruct l; [simpl in Hl; lia|] | apply Hfree; lia |]);
    intros s1 T1 l1 Hst1 Hl1 Hmap1.
  - rewrite (proj2 (Z.eqb_eq a _)) by lia. wp_prim. apply (HQ _ _ _ Hst1); [lia|].
    eapply (mapped_step _ _ _ _ _ 0); [done | lia | exact Hmap1 |]. intros va Hva.
    rewrite (proj2 (andb_false_iff _ _)); [done|]. lia.
  - rewrite (proj2 (Z.eqb_neq a _)) by lia. unfold PGSIZE.
    rewrite (u32_small (a + 4096)), (u32_small (pa + 4096)) by lia.
    replace (a + 4096 * Z.of_nat (Datatypes.S n)) with (a + 4096 + 4096 * Z.of_nat n) by lia.
    apply (IH _ _ _ _ _ _ _ Hst1); try lia; try (Z.to_euclidean_division_equations; lia).
    + intros va Hva. rewrite Hmap1 by lia. rewrite (proj2 (Z.eqb_neq _ _)); [apply Hfree; lia|].
      Z.to_euclidean_division_equations; lia.
    + intros s2 T2 l2 Hst2 Hl2 Hmap2. apply (HQ _ _ _ Hst2); [lia|].
      replace (Z.of_nat (Datatypes.S n) + 1) with (Z.of_nat n + 1 + 1) by lia.
      eapply mapped_step; [done | lia | exact Hmap1 | exact Hmap2].
Qed.

(** C7: [mappages(pgdir, va, size, pa, perm)] on a range of unmapped pages, none of them
    wrapping around, succeeds when there are pages for the tables it may need; afterwards
    every page the range touches translates to its page from [pa] on with the permissions
    [perm] and the present bit, every other translation of the address space is what it was,
    and the directory, its tables and the free list are still disjoint and well formed. *)
Theorem mappages_correct s d T l va size pa perm :
  pt_state s d T l -> 0 <= va -> 0 < size -> va + size <= 2 ^ 32 -> 0 <= perm < 4096 ->
  0 <= pa -> pa mod 4096 = 0 ->
  let n := (va + size - 1) / 4096 - va / 4096 + 1 in
  pa + 4096 * n <= 2 ^ 32 -> n <= zlen l ->
  (forall va', va / 4096 <= va' / 4096 < va / 4096 + n -> mapping (rm s) d va' = 0) ->
  wp (mappages d va size pa perm) s (fun r s' => r = 0 /\ exists T' l', pt_state s' d T' l' /\
    forall va', 0 <= va' < 2 ^ 32 -> mapping (rm s') d va' =
      let k := va' / 4096 - va / 4096 in
      if (0 <=? k) && (k <? n) then pte_for (pa + 4096 * k) perm else mapping (rm s) d va').
Proof.
  intros Hst Hva Hsz Hend Hperm Hpa0 Hpa n Hpn Hl Hfree. unfold mappages. rewrite !PGROUNDDOWN_eq.
  rewrite (u32_small (va + size - 1)) by lia.
  set (a := va - va mod 4096). set (last := va + size - 1 - (va + size - 1) mod 4096).
  assert (Ha : a mod 4096 = 0 /\ a / 4096 = va / 4096 /\ 0 <= a /\ n >= 1 /\ a + 4096 * n <= 2 ^ 32 /\ last = a + 4096 * (n - 1)).
  { unfold a, last, n. Z.to_euclidean_division_equations. lia. }
  destruct Ha as (Ha & Hav & Ha0 & Hn & Han & Hlast).
  assert (Hlen : u32 (last - a) / PGSIZE = n - 1).
  { rewrite Hlast, u32_small by lia. unfold PGSIZE. Z.to_euclidean_division_equations. lia. }
  rewrite Hlen, Hlast. unfold zlen in Hl.
  replace (a + 4096 * (n - 1)) with (a + 4096 * Z.of_nat (Z.to_nat (n - 1))) by lia.
  apply (wp_map_loop perm (Z.to_nat (n - 1)) s d T l); try lia; [done | |].
  - intros va' Hva'. apply Hfree. Z.to_euclidean_division_equations; lia.
  - intros s' T' l' Hst' _ Hm. split; [done|]. exists T', l'. split; [done|]. intros va' Hva'. rewrite (Hm va' Hva').
    replace (Z.of_nat (Z.to_nat (n - 1)) + 1) with n by lia. cbv zeta.
    replace ((a <=? va') && (va' <? a + 4096 * n)) with ((0 <=? va' / 4096 - va / 4096) && (va' / 4096 - va / 4096 <? n)).
    + destruct (_ && _); [|done]. do 2 f_equal. Z.to_euclidean_division_equations; lia.
    + apply eq_bool_prop_intro. rewrite !andb_True, !Is_true_true, !Z.leb_le, !Z.ltb_lt.
      Z.to_euclidean_division_equations; lia.
Qed.

End Progs.

(** A machine with an empty directory and three free pages. *)
Definition three_pages : Kalloc.kst :=
  (boot_core, ({| Kalloc.use_lock := true; Kalloc.freelist := 0x80403000 |},
    {| ram_bytes := store32 (store32 (store32 ∅ 0x80403000 0x80402000) 0x80402000 0x80401000) 0x80401000 0 |})).

#[local] Instance three_alloc : PageAlloc Kalloc.kst := Kalloc.kalloc_PageAlloc 0x80200000.
#[local] Instance three_laws : PageAllocLaws Kalloc.kst :=
  Kalloc.kalloc_laws 0x80200000 0 [] true (Some 0%nat) eq_refl.

Lemma three_state : pt_state three_pages 0x80400000 [] [0x80403000; 0x80402000; 0x80401000].
Proof.
  assert (Hz : forall i, 0 <= i < 1024 -> load32 (rm three_pages) (0x80400000 + 4 * i) = 0).
  { intros i Hi. unfold rm, three_pages. cbn [lget lens_snd lens_fst lens_id ram_bytes snd fst].
    rewrite !load32_store32_ne by lia. reflexivity. }
  split_and!.
  - split.
    + split_and!; [vm_compute; split_and!; discriminate || reflexivity | |].
      * repeat constructor; rewrite ?elem_of_cons, ?elem_of_nil; intuition discriminate.
      * repeat constructor.
    + intros _. split; [exact boot_ok | apply not_elem_of_nil].
  - split_and!.
    + unfold rm, three_pages. cbn [lget lens_snd lens_fst lens_id ram_bytes snd fst]. auto with cint.
    + repeat constructor; rewrite ?elem_of_nil; intuition.
    + repeat constructor.
    + intros i Hi. by rewrite Hz.
    + intros i j Hi Hj. by rewrite Hz.
  - apply (bool_decide_unpack _). vm_compute. exact I.
Qed.

(** Two pages that straddle the regions of two tables. *)
Lemma mappages_correct_witness :
  wp (mappages 0x80400000 0x3FF800 0x1000 0x500000 6) three_pages (fun r s' => r = 0 /\
    mapping (rm s') 0x80400000 0x3FF123 = 0x500007 /\ mapping (rm s') 0x80400000 0x400FFF = 0x501007 /\
    mapping (rm s') 0x80400000 0x401000 = 0).
Proof.
  assert (Hz : forall va, mapping (rm three_pages) 0x80400000 va = 0).
  { intros va. unfold mapping, pde. pose proof (PDX_range va).
    assert (load32 (rm three_pages) (0x80400000 + 4 * PDX va) = 0) as ->; [|done].
    unfold rm, three_pages. cbn [lget lens_snd lens_fst lens_id ram_bytes snd fst].
    rewrite !load32_store32_ne by lia. reflexivity. }
  eapply wp_conseq; [eapply (mappages_correct three_pages 0x80400000 [] _ 0x3FF800 0x1000 0x500000 6);
    [exact three_state | lia | lia | lia | lia | lia | done | done | done | intros; apply Hz]|].
  intros r s' (-> & T' & l' & _ & Hm). rewrite !Hm, Hz by lia. done.
Defined.

End VmProof.
