(* ===== verification/VmFree.v ===== *)
(** * Virtual memory: giving an address space back

    [freevm] returns every page of an address space to the allocator exactly once: the
    user pages, the page tables and the directory. *)

From stdpp Require Import base gmap list strings.
From Stdlib Require Import ZArith Lia.
From S2P Require Import Prelude CString Core Kalloc Vm VmProof.
Import Vm VmProof.

Module VmFree.

Section Progs.
Context {S : Type} {HR : Lens S ram} {HRok : LensOk S ram} {HA : PageAlloc S} {HAL : PageAllocLaws S}.

(** Every table in [T] is in use. *)
Definition tables_used (m : mem) (d : Z) (T : list Z) : Prop :=
  forall t, t ∈ T -> exists i, 0 <= i < 1024 /\ present (load32 m (d + 4 * i)) = true /\
    pt_base (load32 m (d + 4 * i)) = t.

(** [U] lists the user pages: virtual page numbers below the kernel with their pages. *)
Definition user_ok (m : mem) (d : Z) (U : list (Z * Z)) : Prop :=
  NoDup U.*1 /\ forall k u, (k, u) ∈ U <-> 0 <= k < 524288 /\
    present (mapping m d (4096 * k)) = true /\ pt_base (mapping m d (4096 * k)) = u.

(** An address space that owns its directory, its tables and its user pages, all
    different and none of them free. *)
Definition as_state (s : S) (d : Z) (T : list Z) (U : list (Z * Z)) (l : list Z) : Prop :=
  pa_inv s l /\ pt_ok (rm s) d T /\ tables_used (rm s) d T /\ user_ok (rm s) d U /\
  Forall pa_page U.*2 /\ NoDup (d :: T ++ U.*2 ++ l).

Lemma as_state_perm s d T U U' l : U ≡ₚ U' -> as_state s d T U l -> as_state s d T U' l.
Proof.
  intros HP (H1 & H2 & H3 & (HN & HU) & HF & HNd). split_and!; try done.
  - split; [by rewrite <- HP | intros k u; by rewrite <- HP].
  - by rewrite <- HP.
  - by rewrite <- HP.
Qed.

(** Memory that differs only in a page outside of the tables translates as before. *)
Lemma mapping_frame m m' d T u :
  pt_ok m d T -> bytes_ok m' -> pa_page u -> u ∉ d :: T ->
  (forall a, a < u \/ u + PGSIZE <= a -> loadb m' a = loadb m a) ->
  pt_ok m' d T /\ (forall va, pde m' d va = pde m d va) /\ (forall va, mapping m' d va = mapping m d va) /\
  (forall i, 0 <= i < 1024 -> load32 m' (d + 4 * i) = load32 m (d + 4 * i)).
Proof.
  intros (Hb & HN & HF & Htab & Hinj) Hb' Hu Hun Hfr. apply not_elem_of_cons in Hun as [Hud HuT].
  pose proof HF as [Hdp HT]%Forall_cons.
  assert (Hd : forall i, 0 <= i < 1024 -> load32 m' (d + 4 * i) = load32 m (d + 4 * i)).
  { intros i Hi. by apply (load32_other d u). }
  assert (Hpde : forall va, pde m' d va = pde m d va) by (intros va; apply Hd, PDX_range).
  split_and!; [split_and!| | |]; try done.
  - intros i Hi. rewrite Hd by done. by apply Htab.
  - intros i j Hi Hj. rewrite !Hd by done. by apply Hinj.
  - intros va. unfold mapping. rewrite Hpde. destruct (present (pde m d va)) eqn:E; [|done].
    pose proof (Htab _ (PDX_range va) E) as Hin. fold (pde m d va) in Hin.
    assert (Hp : pa_page (pt_base (pde m d va))) by (by eapply Forall_forall in HT; [|exact Hin]).
    rewrite (load32_other _ u m m'); try done; [intros Heq; by rewrite Heq in Hin | apply PTX_range].
Qed.

Lemma wp_find s d va (Q : Z -> S -> Prop) :
  Q (if present (pde (rm s) d va) then pt_base (pde (rm s) d va) + 4 * PTX va else 0) s ->
  wp (walkpgdir d va false) s Q.
Proof.
  intros HQ. unfold walkpgdir, rget. wp_step. fold (rm s). fold (pde (rm s) d va).
  destruct (present (pde (rm s) d va)); cbn [negb]; apply wp_ret, HQ.
Qed.

Lemma as_pt s d T U l : as_state s d T U l -> pt_state s d T l.
Proof.
  intros (H1 & H2 & _ & _ & _ & HN). split_and!; [done | done |].
  apply NoDup_cons in HN as [Hd HN]. apply NoDup_app in HN as (HT & Hdis & HN).
  apply NoDup_app in HN as (_ & _ & Hl). constructor.
  - rewrite !elem_of_app in *. tauto.
  - apply NoDup_app. split_and!; [done | | done]. intros x Hx Hxl. apply (Hdis x Hx). rewrite elem_of_app. by right.
Qed.

(** A user page taken out of the tables and freed. *)
Lemma wp_free_user s d T U l k u (Q : unit -> S -> Prop) :
  as_state s d T ((k, u) :: U) l ->
  (forall s', as_state s' d T U (u :: l) -> Q tt s') ->
  wp (kfree_page u ;; rset (pt_base (pde (rm s) d (4096 * k)) + 4 * PTX (4096 * k)) 0) s Q.
Proof.
  intros Hst HQ. pose proof Hst as (Hi & Hok & Hused & (HN1 & HU) & HF & HN).
  destruct (proj1 (HU k u)) as (Hk & Hpres & Hbase); [by left|].
  assert (Hp : present (pde (rm s) d (4096 * k)) = true).
  { revert Hpres. unfold mapping. by destruct (present (pde _ _ _)). }
  cbn [fmap list_fmap fst snd] in *. apply Forall_cons in HF as [Hup HF]. apply NoDup_cons in HN1 as [Hk1 HN1].
  assert (HPm : d :: T ++ u :: U.*2 ++ l ≡ₚ u :: d :: T ++ U.*2 ++ l).
  { rewrite <- (Permutation_middle T). apply perm_swap. }
  assert (HN' := HN). cbn [app] in HN'. rewrite HPm in HN'. apply NoDup_cons in HN' as [Hun HN'].
  assert (Hur : u ∉ d :: T) by (rewrite !elem_of_cons, !elem_of_app in *; tauto).
  assert (Hul : u ∉ l) by (rewrite !elem_of_cons, !elem_of_app in *; tauto).
  wp_step. eapply pa_free; [exact Hi | done | done |]. intros s1 Hi1 Hfr Hb1. fold (rm s) (rm s1) in *.
  destruct (mapping_frame (rm s) (rm s1) d T u Hok) as (Hok1 & Hpde1 & Hmap1 & Hd1); try done.
  { apply Hb1, Hok. }
  assert (Hst1 : pt_state s1 d T (u :: l)).
  { split_and!; [done | done |]. destruct (as_pt _ _ _ _ _ Hst) as (_ & _ & HNl).
    eapply NoDup_Permutation_proper; [symmetry; rewrite <- (Permutation_middle T); apply perm_swap|].
    constructor; [|done]. rewrite !elem_of_cons, !elem_of_app in *. tauto. }
  unfold rset. wp_step. fold (rm s1). rewrite <- Hpde1.
  destruct (store_entry s1 d T (u :: l) (4096 * k) 0 Hst1) as [Hst2 Hmap2]; [lia | by rewrite Hpde1 | lia |].
  change (if present 0 then 0 else 0) with 0 in Hmap2.
  apply HQ. split_and!; [apply Hst2 | apply Hst2 | | | done |].
  - intros t Ht. destruct (Hused t Ht) as (i & Hj1 & Hj2 & Hj3). exists i. rewrite rm_lset.
    rewrite (store_entry_dir s1 d T (u :: l)) by (done || by rewrite Hpde1). by rewrite Hd1.
  - split; [done|]. intros k' u'. destruct (decide (k' = k)) as [->|Hne].
    + split; [intros Hin; destruct Hk1; by apply (list_elem_of_fmap_2 fst) in Hin|].
      intros (Hr & Hp' & _). rewrite Hmap2, Z.eqb_refl in Hp' by lia. done.
    + transitivity ((k', u') ∈ (k, u) :: U); [rewrite elem_of_cons; split; [by right | intros [Heq|?]; congruence]|].
      rewrite HU.
      split; intros (Hr & Hp' & Hb'); (split_and!; [lia | lia | |]); revert Hp' Hb'; rewrite Hmap2, Hmap1 by lia;
        (rewrite (proj2 (Z.eqb_neq _ _)) by (Z.to_euclidean_division_equations; lia)); done.
  - eapply NoDup_Permutation_proper; [|exact HN]. cbn [app]. constructor. apply Permutation_app_head.
    symmetry. apply Permutation_middle.
Qed.

(** Freeing a page that is not part of the address space. *)
Lemma wp_free_other s d T U l v (Q : unit -> S -> Prop) :
  as_state s d T U l -> pa_page v -> v ∉ d :: T ++ U.*2 ++ l ->
  (forall s', as_state s' d T U (v :: l) -> Q tt s') -> wp (kfree_page v) s Q.
Proof.
  intros (Hi & Hok & Hused & (HN1 & HU) & HF & HN) Hv Hni HQ. rewrite !elem_of_cons, !elem_of_app in Hni.
  eapply pa_free; [exact Hi | done | tauto |]. intros s1 Hi1 Hfr Hb. fold (rm s) (rm s1) in *.
  destruct (mapping_frame (rm s) (rm s1) d T v Hok) as (Hok1 & _ & Hmap1 & Hd1);
    [apply Hb, Hok | done | rewrite elem_of_cons; tauto | done |].
  apply HQ. split_and!; [done | done | | | done |].
  - intros t Ht. destruct (Hused t Ht) as (i & Hj1 & Hj2). exists i. by rewrite Hd1.
  - split; [done|]. intros k u. by rewrite Hmap1, HU.
  - eapply NoDup_Permutation_proper; [|apply NoDup_cons; split; [|exact HN]].
    + rewrite <- (Permutation_middle (U.*2)), <- (Permutation_middle T). apply perm_swap.
    + rewrite !elem_of_cons, !elem_of_app. tauto.
Qed.

(** *** The loop of [deallocuvm] *)

Definition within (a b : Z) (x : Z * Z) : Prop := a <= 4096 * x.1 < b.

Lemma user_present s d T U l k u :
  as_state s d T U l -> (k, u) ∈ U -> 0 <= k < 524288 /\ present (pde (rm s) d (4096 * k)) = true /\
    mapping (rm s) d (4096 * k) = load32 (rm s) (pt_base (pde (rm s) d (4096 * k)) + 4 * PTX (4096 * k)).
Proof.
  intros (_ & _ & _ & (_ & HU) & _) Hin. apply HU in Hin as (Hk & Hp & _). split; [done|]. revert Hp. unfold mapping.
  destruct (present (pde _ _ _)); [|done]. by destruct (present (load32 _ _)).
Qed.

Lemma next_region a : 0 <= a < 2 ^ 31 ->
  u32 (u32 (PGADDR (PDX a + 1) 0 0 - PGSIZE) + PGSIZE) = (a / 2 ^ 22 + 1) * 2 ^ 22.
Proof.
  intros Ha. unfold PGADDR. rewrite Z.shiftl_0_l, !Z.lor_0_r, Z.shiftl_mul_pow2, PDX_eq by lia.
  assert (0 <= (a / 2 ^ 22 + 1) * 2 ^ 22 < 2 ^ 32) by (Z.to_euclidean_division_equations; lia).
  rewrite u32_add_l, (u32_small (_ * _)), Z.sub_add by done. by apply u32_small.
Qed.

Lemma wp_dealloc_loop d T b fuel : forall s U l a (Q : unit -> S -> Prop),
  as_state s d T U l -> 0 <= a -> a mod 4096 = 0 -> b <= 2 ^ 31 -> b - a <= Z.of_nat fuel * 4096 ->
  (forall s' U' F l', as_state s' d T U' l' -> U ≡ₚ F ++ U' -> l' ≡ₚ F.*2 ++ l ->
     Forall (within a b) F -> (forall x, x ∈ U' -> ~ within a b x) -> Q tt s') ->
  wp (dealloc_loop fuel d a b) s Q.
Proof.
  induction fuel as [|fuel IH]; intros s U l a Q Hst Ha Ham Hb Hf HQ; cbn [dealloc_loop].
  { apply wp_ret, (HQ s U [] l Hst); [done | done | constructor |]. intros x _. unfold within. lia. }
  destruct (a <? b) eqn:Eab; zbool.
  2:{ apply wp_ret, (HQ s U [] l Hst); [done | done | constructor |]. intros x _. unfold within. lia. }
  wp_step. apply wp_find. destruct (present (pde (rm s) d a)) eqn:Hp.
  2:{ rewrite Z.eqb_refl, next_region by lia. assert (a / 2 ^ 22 * 2 ^ 22 <= a < (a / 2 ^ 22 + 1) * 2 ^ 22) by (Z.to_euclidean_division_equations; lia).
    eapply IH; [exact Hst | lia | Z.to_euclidean_division_equations; lia | done | Z.to_euclidean_division_equations; lia |].
    intros s' U' F l' Hst' HU HL HF Hn. apply (HQ s' U' F l' Hst' HU HL).
    - eapply Forall_impl; [exact HF|]. unfold within. intros x. lia.
    - intros [k u] Hx Hw. apply (Hn _ Hx). unfold within in *. simpl in *.
      destruct (user_present s d T U l k u Hst) as (Hk & Hpk & _); [rewrite HU, elem_of_app; by right|].
      split; [|lia]. destruct (decide ((a / 2 ^ 22 + 1) * 2 ^ 22 <= 4096 * k)) as [|Hlt]; [done|]. exfalso.
      revert Hp Hpk. unfold pde. rewrite !PDX_eq by lia.
      assert (a / 2 ^ 22 = 4096 * k / 2 ^ 22) as -> by (Z.to_euclidean_division_equations; lia). congruence. }
  destruct (table_page _ _ _ _ _ (as_pt _ _ _ _ _ Hst) Hp) as [_ Htp]. destruct (pa_page_range _ Htp) as [_ Hr].
  pose proof (PTX_range a). rewrite (proj2 (Z.eqb_neq _ 0)) by (unfold KERNBASE in Hr; lia).
  unfold rget. wp_step. fold (rm s). set (e := load32 (rm s) _).
  assert (Hm : mapping (rm s) d a = if present e then e else 0) by (unfold mapping; by rewrite Hp).
  assert (Hak : a = 4096 * (a / 4096)) by (Z.to_euclidean_division_equations; lia).
  assert (Hnext : forall s1 U1 l1, as_state s1 d T U1 l1 ->
    (forall s' U' F l', as_state s' d T U' l' -> U1 ≡ₚ F ++ U' -> l' ≡ₚ F.*2 ++ l1 ->
       Forall (within (a + 4096) b) F -> (forall x, x ∈ U' -> ~ within (a + 4096) b x) -> Q tt s') ->
    wp (dealloc_loop fuel d (u32 (a + PGSIZE)) b) s1 Q).
  { intros s1 U1 l1 Hst1 HQ1. unfold PGSIZE. rewrite u32_small by lia.
    eapply IH; [exact Hst1 | lia | Z.to_euclidean_division_equations; lia | done | lia | exact HQ1]. }
  destruct (present e) eqn:He.
  - assert (Hin : (a / 4096, pt_base e) ∈ U).
    { apply Hst. rewrite <- Hak, Hm. split_and!; [Z.to_euclidean_division_equations; lia.. | done | done]. }
    apply elem_of_Permutation in Hin as [U0 HU0].
    assert (Hst0 : as_state s d T ((a / 4096, pt_base e) :: U0) l) by (by eapply as_state_perm).
    pose proof Hst0 as (_ & _ & _ & (HN0 & _) & HF0 & _). apply Forall_cons in HF0 as [Hup _].
    destruct (pa_page_range _ Hup) as [_ Hur]. apply NoDup_cons in HN0 as [Hk0 _].
    rewrite (proj2 (Z.eqb_neq (PTE_ADDR e) 0)).
    2:{ intros Hz. unfold pt_base in Hur. cbn [snd] in Hur. rewrite Hz in Hur. change (P2V 0) with KERNBASE in Hur. lia. }
    eapply (wp_conseq _ _ (fun _ s' => as_state s' d T U0 (pt_base e :: l))).
    + pose proof (wp_free_user s d T U0 l _ _ (fun _ s' => as_state s' d T U0 (pt_base e :: l)) Hst0 (fun s' H => H)) as Hw.
      rewrite <- Hak in Hw. exact Hw.
    + intros _ s1 Hst1. apply (Hnext _ _ _ Hst1). intros s' U' F l' Hst' HU' HL' HF' Hn'.
      apply (HQ s' U' ((a / 4096, pt_base e) :: F) l' Hst').
      * by rewrite HU0, HU'.
      * rewrite HL'. cbn [fmap list_fmap snd app]. symmetry. apply Permutation_middle.
      * constructor; [unfold within; simpl; lia|]. eapply Forall_impl; [exact HF'|]. unfold within. intros x. lia.
      * intros [k u] Hx Hw. apply (Hn' _ Hx). unfold within in *. simpl in *.
        assert (k <> a / 4096); [|Z.to_euclidean_division_equations; lia]. intros ->. apply Hk0.
        apply (list_elem_of_fmap_2 fst _ (a / 4096, u)). rewrite HU', elem_of_app. by right.
  - wp_step. apply (Hnext _ _ _ Hst). intros s' U' F l' Hst' HU' HL' HF' Hn'.
    apply (HQ s' U' F l' Hst' HU' HL').
    + eapply Forall_impl; [exact HF'|]. unfold within. intros x. lia.
    + intros [k u] Hx Hw. apply (Hn' _ Hx). unfold within in *. simpl in *.
      assert (k <> a / 4096); [|Z.to_euclidean_division_equations; lia]. intros ->.
      assert (Hin : (a / 4096, u) ∈ U) by (rewrite HU', elem_of_app; by right).
      apply Hst in Hin as (_ & Hpk & _). rewrite <- Hak, Hm in Hpk. done.
Qed.

(** *** The loop of [freevm] over the directory *)

Definition tabs (m : mem) (d : Z) (l : list nat) : list Z :=
  omap (fun i => let e := load32 m (d + 4 * Z.of_nat i) in if present e then Some (pt_base e) else None) l.

Lemma wp_free_tables d m js : forall s l (Q : unit -> S -> Prop),
  pa_inv s l -> pa_page d -> Forall (fun i => (i < 1024)%nat) js ->
  (forall i, (i < 1024)%nat -> load32 (rm s) (d + 4 * Z.of_nat i) = load32 m (d + 4 * Z.of_nat i)) ->
  Forall pa_page (tabs m d js) -> NoDup (d :: tabs m d js ++ l) ->
  (forall s' l', pa_inv s' l' -> l' ≡ₚ tabs m d js ++ l -> Q tt s') ->
  wp (for_each (free_table d) js) s Q.
Proof.
  induction js as [|i js IH]; intros s l Q Hi Hd Hlt Hm HF HN HQ; cbn [for_each tabs omap list_omap].
  { by apply wp_ret, (HQ s l). }
  apply Forall_cons in Hlt as [Hi' Hlt]. wp_prim. unfold free_table at 1, rget. wp_step. fold (rm s). rewrite Hm by done.
  cbn [tabs omap list_omap] in *. destruct (present (load32 m (d + 4 * Z.of_nat i))) eqn:E.
  - fold (pt_base (load32 m (d + 4 * Z.of_nat i))). set (t := pt_base _) in *.
    fold (tabs m d js) in *. apply Forall_cons in HF as [Htp HF]. cbn [app] in HN.
    assert (HN2 : NoDup (t :: d :: tabs m d js ++ l)) by (eapply NoDup_Permutation_proper; [apply perm_swap | done]).
    apply NoDup_cons in HN2 as [Htn HN2]. rewrite elem_of_cons, elem_of_app in Htn.
    eapply pa_free; [exact Hi | done | tauto |]. intros s1 Hi1 Hfr _. fold (rm s) (rm s1) in *.
    eapply (IH s1 (t :: l)); [exact Hi1 | done | done | | done | |].
    + intros j Hj. rewrite <- Hm by done. apply (load32_other d t); try done; [|lia]. intros Heq. apply Htn. by left.
    + eapply NoDup_Permutation_proper; [|exact HN]. constructor. symmetry. apply Permutation_middle.
    + intros s' l' Hi2 HP. apply (HQ s' l' Hi2). rewrite HP. symmetry. apply Permutation_middle.
  - wp_step. fold (tabs m d js) in *. by eapply IH.
Qed.

Lemma tabs_nodup m d T n : forall k, pt_ok m d T -> (k + n <= 1024)%nat -> NoDup (tabs m d (seq k n)).
Proof.
  induction n as [|n IH]; intros k Hok Hk; cbn [seq tabs omap list_omap]; [constructor|].
  pose proof (IH (Datatypes.S k) Hok ltac:(lia)) as HN. unfold tabs in HN.
  destruct (present (load32 m (d + 4 * Z.of_nat k))) eqn:E; [|done]. constructor; [|done].
  intros (j & Hj & Ej)%list_elem_of_omap. apply elem_of_seq in Hj. cbv zeta in Ej.
  destruct (present (load32 m (d + 4 * Z.of_nat j))) eqn:Epj; [|done]. injection Ej as Ej.
  destruct Hok as (_ & _ & _ & _ & Hinj). assert (Z.of_nat j = Z.of_nat k) by (apply Hinj; lia || done). lia.
Qed.

Lemma tabs_all m d T n : n = 1024%nat -> pt_ok m d T -> tables_used m d T -> tabs m d (seq 0 n) ≡ₚ T.
Proof.
  intros Hn Hok Hused. apply NoDup_Permutation; [apply (tabs_nodup m d T); [done | lia] | |].
  { destruct Hok as (_ & HN & _). by apply NoDup_cons in HN as [_ HN]. }
  intros t. split.
  - intros (j & Hj & Ej)%list_elem_of_omap. apply elem_of_seq in Hj. cbv zeta in Ej.
    destruct (present (load32 m (d + 4 * Z.of_nat j))) eqn:Epj; [|done]. injection Ej as <-. apply Hok; [lia | done].
  - intros (i & Hi & Hp & Hb)%Hused. apply list_elem_of_omap. exists (Z.to_nat i). rewrite elem_of_seq.
    split; [lia|]. cbv zeta. rewrite Z2Nat.id by lia. by rewrite Hp, Hb.
Qed.

Lemma wp_deallocuvm s d T U l b (Q : Z -> S -> Prop) :
  as_state s d T U l -> 0 < b <= 2 ^ 31 ->
  (forall s' U' F l', as_state s' d T U' l' -> U ≡ₚ F ++ U' -> l' ≡ₚ F.*2 ++ l ->
     Forall (within 0 b) F -> (forall x, x ∈ U' -> ~ within 0 b x) -> Q 0 s') ->
  wp (deallocuvm d b 0) s Q.
Proof.
  intros Hst Hb HQ. unfold deallocuvm. rewrite (proj2 (Z.leb_gt b 0)) by lia. wp_step.
  change (PGROUNDUP 0) with 0. eapply wp_dealloc_loop; [exact Hst | lia | done | lia | |].
  - unfold PGSIZE. Z.to_euclidean_division_equations. lia.
  - intros s' U' F l' H1 H2 H3 H4 H5. apply wp_ret. by apply (HQ s' U' F l').
Qed.

(** What [freevm] does, for its callers. *)
Lemma wp_freevm s d T U l (Q : unit -> S -> Prop) :
  as_state s d T U l ->
  (forall s' l', pa_inv s' l' -> l' ≡ₚ d :: T ++ U.*2 ++ l -> Q tt s') -> wp (freevm d) s Q.
Proof.
  intros Hst HQ. pose proof Hst as (_ & (_ & _ & HF & _) & _). apply Forall_cons in HF as [Hdp HT].
  destruct (pa_page_range _ Hdp) as [_ Hr]. unfold freevm.
  rewrite (proj2 (Z.eqb_neq d 0)) by (unfold KERNBASE in Hr; lia). wp_step.
  eapply wp_deallocuvm; [exact Hst | unfold KERNBASE; lia |]. intros s1 U1 F l1 Hst1 HU HL _ Hw. wp_step.
  assert (U1 = []) as ->.
  { destruct U1 as [|[k u] U1]; [done|]. exfalso. apply (Hw (k, u)); [by left|].
    destruct (user_present s1 d T _ l1 k u Hst1) as (Hk & _); [by left|]. unfold within, KERNBASE. simpl. lia. }
  rewrite app_nil_r in HU. pose proof Hst1 as (Hi1 & Hok1 & Hus1 & _ & _ & HN1).
  cbn [fmap list_fmap app] in HN1.
  assert (Hn : NPDENTRIES = 1024%nat) by done. revert Hn. generalize NPDENTRIES. intros n Hn.
  pose proof (tabs_all _ _ _ n Hn Hok1 Hus1) as HPt.
  eapply (wp_free_tables d (rm s1) (seq 0 n) s1 l1); [done | done | | done | by rewrite HPt | by rewrite HPt |].
  { apply Forall_forall. intros i Hi%elem_of_seq. lia. }
  intros s2 l2 Hi2 HL2. rewrite HPt in HL2.
  eapply pa_free; [exact Hi2 | done | |].
  - apply NoDup_cons in HN1 as [Hd1 _]. by rewrite HL2.
  - intros s3 Hi3 _ _. apply (HQ s3 _ Hi3). by rewrite HL2, HL, HU.
Qed.


End Progs.

(** ** A small address space: one user page, at address 0x1000 *)

Definition small_mem : mem :=
  store32 (store32 (ram_bytes (three_pages.2.2)) 0x80400000 0x404007) 0x80404004 0x405007.
Definition small_space : Kalloc.kst := (three_pages.1, (three_pages.2.1, {| ram_bytes := small_mem |})).

#[local] Instance small_alloc : PageAlloc Kalloc.kst := Kalloc.kalloc_PageAlloc 0x80200000.
#[local] Instance small_laws : PageAllocLaws Kalloc.kst :=
  Kalloc.kalloc_laws 0x80200000 0 [] true (Some 0%nat) eq_refl.

Lemma small_dir i : 0 <= i < 1024 -> load32 small_mem (0x80400000 + 4 * i) = if i =? 0 then 0x404007 else 0.
Proof.
  intros Hi. unfold small_mem. rewrite load32_store32_ne by lia. destruct (i =? 0) eqn:E; zbool.
  - rewrite E. change (0x80400000 + 4 * 0) with 0x80400000. by rewrite load32_store32_eq.
  - rewrite load32_store32_ne by lia. unfold three_pages. cbn [ram_bytes snd]. rewrite !load32_store32_ne by lia. done.
Qed.
Lemma small_tab i : 0 <= i < 1024 -> load32 small_mem (0x80404000 + 4 * i) = if i =? 1 then 0x405007 else 0.
Proof.
  intros Hi. unfold small_mem. destruct (i =? 1) eqn:E; zbool.
  - rewrite E. change (0x80404000 + 4 * 1) with 0x80404004. by rewrite load32_store32_eq.
  - rewrite !load32_store32_ne by lia. unfold three_pages. cbn [ram_bytes snd]. rewrite !load32_store32_ne by lia. done.
Qed.

Lemma small_mapping k : 0 <= k < 524288 -> mapping small_mem 0x80400000 (4096 * k) = if k =? 1 then 0x405007 else 0.
Proof.
  intros Hk. unfold mapping, pde. rewrite small_dir by apply PDX_range. rewrite PDX_eq by lia.
  destruct (4096 * k / 2 ^ 22 =? 0) eqn:E; zbool.
  - change (present 0x404007) with true. change (pt_base 0x404007) with 0x80404000. cbv iota.
    rewrite small_tab by apply PTX_range. rewrite PTX_eq.
    replace (4096 * k / 2 ^ 12 mod 1024) with k by (Z.to_euclidean_division_equations; lia). by destruct (k =? 1).
  - change (present 0) with false. rewrite (proj2 (Z.eqb_neq k 1)); [done|]. intros ->. done.
Qed.

Lemma small_as :
  as_state small_space 0x80400000 [0x80404000] [(1, 0x80405000)] [0x80403000; 0x80402000; 0x80401000].
Proof.
  split_and!.
  - destruct three_state as (Hi & _ & _). apply (pa_inv_frame three_pages _ small_mem) in Hi; [exact Hi|].
    intros v a Hv Ha. unfold small_mem, PGSIZE in *. rewrite !elem_of_cons, elem_of_nil in Hv.
    rewrite !loadb_store32_ne by lia. done.
  - change (rm small_space) with small_mem. split_and!.
    + unfold small_mem, three_pages. cbn [ram_bytes snd]. auto 10 with cint.
    + apply (bool_decide_unpack _). vm_compute. exact I.
    + repeat constructor.
    + intros i Hi. rewrite small_dir by done. case_bool; [intros _; by left | done].
    + intros i j Hi Hj. rewrite !small_dir by done. repeat case_bool; zbool; try done. lia.
  - intros t Ht%list_elem_of_singleton. exists 0. split; [lia|]. change (rm small_space) with small_mem.
    rewrite small_dir, Ht by lia. done.
  - split; [apply (bool_decide_unpack _); vm_compute; exact I|]. intros k u. change (rm small_space) with small_mem.
    rewrite list_elem_of_singleton. split.
    + intros [= -> ->]. split; [lia|]. rewrite small_mapping by lia. done.
    + intros (Hk & Hp & Hb). rewrite small_mapping in Hp, Hb by lia. destruct (k =? 1) eqn:E; zbool; [|done].
      rewrite E, <- Hb. done.
  - repeat constructor.
  - apply (bool_decide_unpack _). vm_compute. exact I.
Qed.


End VmFree.
