(* ===== verification/Proc.v ===== *)
(** * Processes: proc.c

    Creation, exit, waiting, scheduling.  [sleep], [wakeup] and [sched] are in [Core].
    A process pointer is an index of the table; dereferencing the null pointer is a
    page fault in the kernel, on which [trap] panics.  Giving the CPU to another
    context with [swtch] is a [Sleep] outcome that carries the rest of the computation. *)

From stdpp Require Import base gmap list strings.
From Stdlib Require Import ZArith Lia.
From S2P Require Import Prelude CString Core Locking Kalloc Pipe Bio Log Tx Fs File Vm.
Import Sleeplock.

Module Proc.

(** *** Field updates *)

Definition with_sz (n : Z) (p : proc) : proc :=
    {| sz := n; pgdir := pgdir p; kstack := kstack p; pstate := pstate p; pid := pid p; parent :=
     parent p; tf := tf p; ctx_eip := ctx_eip p; pchan := pchan p; killed := killed p; ofile :=
     ofile p; cwd := cwd p; pname := pname p |}.
Definition with_pgdir (d : Z) (p : proc) : proc :=
    {| sz := sz p; pgdir := d; kstack := kstack p; pstate := pstate p; pid := pid p; parent :=
     parent p; tf := tf p; ctx_eip := ctx_eip p; pchan := pchan p; killed := killed p; ofile :=
     ofile p; cwd := cwd p; pname := pname p |}.
Definition with_kstack (k : Z) (p : proc) : proc :=
    {| sz := sz p; pgdir := pgdir p; kstack := k; pstate := pstate p; pid := pid p; parent :=
     parent p; tf := tf p; ctx_eip := ctx_eip p; pchan := pchan p; killed := killed p; ofile :=
     ofile p; cwd := cwd p; pname := pname p |}.
Definition with_pid (n : Z) (p : proc) : proc :=
    {| sz := sz p; pgdir := pgdir p; kstack := kstack p; pstate := pstate p; pid := n; parent :=
     parent p; tf := tf p; ctx_eip := ctx_eip p; pchan := pchan p; killed := killed p; ofile :=
     ofile p; cwd := cwd p; pname := pname p |}.
Definition with_parent (q : option nat) (p : proc) : proc :=
    {| sz := sz p; pgdir := pgdir p; kstack := kstack p; pstate := pstate p; pid := pid p; parent
     := q; tf := tf p; ctx_eip := ctx_eip p; pchan := pchan p; killed := killed p; ofile := ofile
     p; cwd := cwd p; pname := pname p |}.
Definition with_tf (t : trapframe) (p : proc) : proc :=
    {| sz := sz p; pgdir := pgdir p; kstack := kstack p; pstate := pstate p; pid := pid p; parent
     := parent p; tf := t; ctx_eip := ctx_eip p; pchan := pchan p; killed := killed p; ofile :=
     ofile p; cwd := cwd p; pname := pname p |}.
Definition with_ctx_eip (a : Z) (p : proc) : proc :=
    {| sz := sz p; pgdir := pgdir p; kstack := kstack p; pstate := pstate p; pid := pid p; parent
     := parent p; tf := tf p; ctx_eip := a; pchan := pchan p; killed := killed p; ofile := ofile
     p; cwd := cwd p; pname := pname p |}.
Definition with_ofile (l : list (option nat)) (p : proc) : proc :=
    {| sz := sz p; pgdir := pgdir p; kstack := kstack p; pstate := pstate p; pid := pid p; parent
     := parent p; tf := tf p; ctx_eip := ctx_eip p; pchan := pchan p; killed := killed p; ofile :=
     l; cwd := cwd p; pname := pname p |}.
Definition with_cwd (i : option nat) (p : proc) : proc :=
    {| sz := sz p; pgdir := pgdir p; kstack := kstack p; pstate := pstate p; pid := pid p; parent
     := parent p; tf := tf p; ctx_eip := ctx_eip p; pchan := pchan p; killed := killed p; ofile :=
     ofile p; cwd := i; pname := pname p |}.
Definition with_name (l : list Z) (p : proc) : proc :=
    {| sz := sz p; pgdir := pgdir p; kstack := kstack p; pstate := pstate p; pid := pid p; parent
     := parent p; tf := tf p; ctx_eip := ctx_eip p; pchan := pchan p; killed := killed p; ofile :=
     ofile p; cwd := cwd p; pname := l |}.

Definition with_eax (v : Z) (t : trapframe) : trapframe :=
  {| tf_eax := v; tf_eip := tf_eip t; tf_esp := tf_esp t; tf_cs := tf_cs t; tf_ds := tf_ds t;
     tf_es := tf_es t; tf_ss := tf_ss t; tf_eflags := tf_eflags t; tf_trapno := tf_trapno t;
     tf_err := tf_err t |}.

Definition SEG_UCODE : Z := 3.
Definition SEG_UDATA : Z := 4.
Definition DPL_USER : Z := 3.
Definition FL_IF : Z := 0x200.
(** [sizeof(struct trapframe)] and [sizeof(struct context)] *)
Definition sizeof_trapframe : Z := 76.
Definition sizeof_context : Z := 20.

(** The trap frame of the first process. *)
Definition init_tf : trapframe :=
  let ds := Z.lor (Z.shiftl SEG_UDATA 3) DPL_USER in
  {| tf_eax := 0; tf_eip := 0; tf_esp := PGSIZE; tf_cs := Z.lor (Z.shiftl SEG_UCODE 3) DPL_USER;
     tf_ds := ds; tf_es := ds; tf_ss := ds; tf_eflags := FL_IF; tf_trapno := 0; tf_err := 0 |}.

(** [safestrcpy] into [p->name], whose value is the bytes before the NUL. *)
Fixpoint until_nul (l : list Z) : list Z :=
  match l with
  | [] => []
  | c :: l' => if c =? 0 then [] else c :: until_nul l'
  end.
Definition set_name (l : list Z) : list Z := take 15 (until_nul l).

(** The static variable of [forkret]. *)
Record procvars : Type := { first : bool }.

(** The channel on which the process behind a pointer waits for its children. *)
Definition wait_chan (p : option nat) : chan :=
  match p with Some p => ch_proc p | None => ch_none end.

Section Ops.
Context {S T : Type} {HLT : Lens S T} {HTx : TxLayer T} {HTb : TxBounds T} {HLc : Lens T core}
  {HLs : Lens T slocktab} {HLi : Lens S Fs.icache} {HLb : Lens S superblock} {HDv : Fs.DevSw S}
  {HP : Lens S Pipe.pipetab} {HA : PageAlloc S} {HF : Lens S File.ftable}
  {HR : Lens S ram} {HV : Lens S Vm.vmvars} {HPv : Lens S procvars}.
(** The bound on the wakeups of each wait; addresses the linker chooses. *)
Context (wf : nat) (kdata forkret_addr trapret_addr initcode_start initcode_size : Z).

#[local] Instance core_lens : Lens S core := lens_comp (T := T).

Definition this_proc : M S nat :=
  p ← myproc; match p with Some p => mret p | None => panic "trap" end.
Definition getproc (p : nat) : M S proc := core_get (fun c => getp c p).
Definition modproc (p : nat) (f : proc -> proc) : M S unit := core_mod (updp p f).

Definition pinit : M S unit := initlock L_ptable.

Definition cpuid : M S nat := mycpu.

(** The first process of the table that satisfies [f]. *)
Fixpoint find_proc (f : proc -> bool) (i : nat) (l : list proc) : option nat :=
  match l with
  | [] => None
  | p :: l' => if f p then Some i else find_proc f (Datatypes.S i) l'
  end.
Definition scan (f : proc -> bool) : M S (option nat) := core_get (fun c => find_proc f 0 (procs c)).

Definition is_unused (p : proc) : bool := bool_decide (pstate p = UNUSED).

(** The trap frame is at the top of the kernel stack, then the return address and the
    context for [swtch]. *)
Definition setup_stack (p : nat) (k : Z) : M S unit :=
  let sp := k + KSTACKSIZE - sizeof_trapframe - 4 in
  Vm.rset sp trapret_addr;;
  let sp := sp - sizeof_context in
  Vm.rmod (fun m => Str.memset m sp 0 sizeof_context);;
  Vm.rset (sp + 16) forkret_addr;;
  modproc p (with_ctx_eip forkret_addr).

Definition allocproc : M S (option nat) :=
  acquire L_ptable;;
  r ← scan is_unused;
  match r with
  | None => release L_ptable;; mret None
  | Some p =>
      modproc p (with_state EMBRYO);;
      n ← core_get nextpid;
      core_mod (set_nextpid (s32 (n + 1)));;
      modproc p (with_pid n);;
      release L_ptable;;
      k ← kalloc_page;
      modproc p (with_kstack k);;
      if k =? 0 then modproc p (with_state UNUSED);; mret None
      else setup_stack p k;; mret (Some p)
  end.

Definition userinit : M S unit :=
  r ← allocproc;
  core_mod (set_initproc r);;
  d ← Vm.setupkvm kdata;
  match r with
  | None => panic "trap"
  | Some p =>
      modproc p (with_pgdir d);;
      if d =? 0 then panic "userinit: out of memory?"
      else
        Vm.inituvm d initcode_start initcode_size;;
        modproc p (with_sz PGSIZE);;
        modproc p (with_tf init_tf);;
        modproc p (with_name (set_name (bytes_of_string "initcode")));;
        ip ← Fs.namei (T := T) wf (bytes_of_string "/");
        modproc p (with_cwd ip);;
        acquire L_ptable;;
        modproc p (with_state RUNNABLE);;
        release L_ptable
  end.

Definition growproc (n : Z) : M S Z :=
  p ← this_proc;
  q ← getproc p;
  let sz0 := sz q in
  z ← (if 0 <? n then Vm.allocuvm (pgdir q) sz0 (u32 (sz0 + n))
       else if n <? 0 then Vm.deallocuvm (pgdir q) sz0 (u32 (sz0 + n))
       else mret sz0);
  if negb (n =? 0) && (z =? 0) then mret (-1)
  else
    modproc p (with_sz z);;
    Vm.switchuvm (Some p);;
    mret 0.

(** One round of the loop of [fork] over the descriptors. *)
Definition dup_file (p np : nat) (fd : nat) : M S unit :=
  q ← getproc p;
  match ofile q !! fd with
  | Some (Some f) =>
      g ← File.filedup (T := T) f;
      modproc np (fun k => with_ofile (<[fd := Some g]> (ofile k)) k)
  | _ => mret tt
  end.

Definition fork : M S Z :=
  p ← this_proc;
  r ← allocproc;
  match r with
  | None => mret (-1)
  | Some np =>
      q ← getproc p;
      d ← Vm.copyuvm kdata (pgdir q) (sz q);
      modproc np (with_pgdir d);;
      if d =? 0 then
        k ← getproc np;
        kfree_page (kstack k);;
        modproc np (with_kstack 0);;
        modproc np (with_state UNUSED);;
        mret (-1)
      else
        q ← getproc p;
        modproc np (with_sz (sz q));;
        modproc np (with_parent (Some p));;
        modproc np (with_tf (tf q));;
        modproc np (fun k => with_tf (with_eax 0 (tf k)) k);;
        for_each (dup_file p np) (seq 0 NOFILE);;
        q ← getproc p;
        ip ← (match cwd q with Some i => Fs.idup (T := T) i | None => panic "trap" end);
        modproc np (with_cwd (Some ip));;
        modproc np (with_name (set_name (pname q)));;
        k ← getproc np;
        let n := pid k in
        acquire L_ptable;;
        modproc np (with_state RUNNABLE);;
        release L_ptable;;
        mret n
  end.

(** One round of the loop of [exit] over the descriptors. *)
Definition close_file (p : nat) (fd : nat) : M S unit :=
  q ← getproc p;
  match ofile q !! fd with
  | Some (Some f) =>
      File.fileclose (T := T) wf f;;
      modproc p (fun k => with_ofile (<[fd := None]> (ofile k)) k)
  | _ => mret tt
  end.

(** Abandoned children go to init. *)
Definition reparent (p : nat) (i : nat) : M S unit :=
  q ← getproc i;
  if bool_decide (parent q = Some p) then
    ip ← core_get initproc;
    modproc i (with_parent ip);;
    q ← getproc i;
    if bool_decide (pstate q = ZOMBIE) then wakeup1 (wait_chan ip) else mret tt
  else mret tt.

(** The last part of [exit], with the table locked. *)
Definition exit_table (p : nat) : M S unit :=
  q ← getproc p;
  wakeup1 (wait_chan (parent q));;
  for_each (reparent p) (seq 0 NPROC);;
  modproc p (with_state ZOMBIE).

(** [exit] from the point where it takes the lock of the table. *)
Definition exit_last (p : nat) : M S unit :=
  acquire L_ptable;;
  exit_table p;;
  sched ch_none;;
  panic "zombie exit".

Definition exit : M S unit :=
  p ← this_proc;
  ip ← core_get initproc;
  if bool_decide (ip = Some p) then panic "init exiting"
  else
    for_each (close_file p) (seq 0 NOFILE);;
    File.begin_op (T := T);;
    q ← getproc p;
    (match cwd q with Some i => Fs.iput (T := T) wf i | None => panic "trap" end);;
    File.end_op (T := T);;
    modproc p (with_cwd None);;
    exit_last p.

Definition is_child (p : nat) (q : proc) : bool := bool_decide (parent q = Some p).
Definition is_zombie_child (p : nat) (q : proc) : bool :=
  is_child p q && bool_decide (pstate q = ZOMBIE).

(** [wait] has found the zombie [i]. *)
Definition reap (i : nat) : M S Z :=
  q ← getproc i;
  let n := pid q in
  kfree_page (kstack q);;
  modproc i (with_kstack 0);;
  Vm.freevm (pgdir q);;
  modproc i (with_pid 0);;
  modproc i (with_parent None);;
  modproc i (with_name []);;
  modproc i (with_killed false);;
  modproc i (with_state UNUSED);;
  release L_ptable;;
  mret n.

Fixpoint wait_loop (fuel : nat) (p : nat) : M S Z :=
  match fuel with
  | O => spin
  | Datatypes.S f =>
      z ← scan (is_zombie_child p);
      match z with
      | Some i => reap i
      | None =>
          kids ← scan (is_child p);
          q ← getproc p;
          if bool_decide (kids = None) || killed q then release L_ptable;; mret (-1)
          else sleep (ch_proc p) L_ptable;; wait_loop f p
      end
  end.

Definition wait : M S Z :=
  p ← this_proc;
  acquire L_ptable;;
  wait_loop wf p.

(** *** Scheduling *)

Definition swtch : M S unit := fun s => Sleep ch_none s (fun s' => Ret tt s').

(** One round of the loop of [scheduler] over the table, on the CPU [c]. *)
Definition sched_proc (c : nat) (i : nat) : M S unit :=
  q ← getproc i;
  if negb (bool_decide (pstate q = RUNNABLE)) then mret tt
  else
    mod_cpu c (set_cproc (Some i));;
    Vm.switchuvm (Some i);;
    modproc i (with_state RUNNING);;
    swtch;;
    Vm.switchkvm;;
    mod_cpu c (set_cproc None).

(** [rounds] turns of the endless loop. *)
Fixpoint sched_loop (rounds : nat) (c : nat) : M S unit :=
  match rounds with
  | O => mret tt
  | Datatypes.S r =>
      sti;;
      acquire L_ptable;;
      for_each (sched_proc c) (seq 0 NPROC);;
      release L_ptable;;
      sched_loop r c
  end.

Definition scheduler (rounds : nat) : M S unit :=
  c ← mycpu;
  mod_cpu c (set_cproc None);;
  sched_loop rounds c.

Definition yield : M S unit :=
  acquire L_ptable;;
  p ← this_proc;
  modproc p (with_state RUNNABLE);;
  sched ch_none;;
  release L_ptable.

Definition forkret : M S unit :=
  release L_ptable;;
  b ← lgets (T := procvars) first;
  if (b : bool) then
    lmod (T := procvars) (fun _ => {| first := false |});;
    Fs.iinit (T := T) ROOTDEV;;
    zoom (tx_init ROOTDEV : M T unit)
  else mret tt.

Definition kill (n : Z) : M S Z :=
  acquire L_ptable;;
  r ← scan (fun q => pid q =? n);
  match r with
  | Some i =>
      modproc i (with_killed true);;
      q ← getproc i;
      (if bool_decide (pstate q = SLEEPING) then modproc i (with_state RUNNABLE) else mret tt);;
      release L_ptable;;
      mret 0
  | None => release L_ptable;; mret (-1)
  end.

End Ops.
End Proc.
