(* ===== verification/ProcTable.v ===== *)
(** * The process table as a state machine

    The life of a process: a free slot becomes an embryo, then alternates between
    runnable, running and sleeping, becomes a zombie and, when its parent has waited
    for it, a free slot again.  [tstep] is the abstract step relation, and [table_ok] the
    invariant it keeps: unique process ids, no zombie without a living parent, and
    well-formed entries.  [ProcProof] and [ProcRun] show that the operations of proc.c take
    the table through these steps only. *)

From stdpp Require Import base gmap list strings.
From Stdlib Require Import ZArith Lia.
From S2P Require Import Prelude Core Proc.
Import Proc.

Module ProcTable.

(** The table and the next process id. *)
Abbreviation ptab := (list proc * Z)%type.

(** Has run and has not exited. *)
Definition alive (p : proc) : Prop :=
  match pstate p with SLEEPING | RUNNABLE | RUNNING => True | _ => False end.
#[export] Instance alive_dec p : Decision (alive p).
Proof. unfold alive. destruct (pstate p); apply _. Defined.

Definition in_use (p : proc) : Prop := pstate p <> UNUSED.

(** *** The effects of the operations on the table *)

Definition killed_proc (p : proc) : proc :=
  let p := with_killed true p in
  if bool_decide (pstate p = SLEEPING) then with_state RUNNABLE p else p.

Definition adopt (init p : nat) (q : proc) : proc :=
  if bool_decide (parent q = Some p) then with_parent (Some init) q else q.

Definition zombie_orphan (p : nat) (q : proc) : bool :=
  bool_decide (parent q = Some p) && bool_decide (pstate q = ZOMBIE).

(** [p] exits: its parent is woken, its children are given to init, which is woken if
    one of them is a zombie. *)
Definition exited (init p : nat) (l : list proc) : list proc :=
  let l1 := wake_proc (wait_chan (parent (default proc0 (l !! p)))) <$> l in
  let l2 := (fun q => adopt init p (if existsb (zombie_orphan p) l1 then wake_proc (ch_proc init) q else q)) <$> l1 in
  alter (with_state ZOMBIE) p l2.

Definition reaped (p : proc) : proc :=
  with_state UNUSED (with_killed false (with_name [] (with_parent None (with_pid 0 (with_kstack 0 p))))).

Inductive tstep (init : nat) : ptab -> ptab -> Prop :=
| T_alloc l n i p :
    l !! i = Some p -> pstate p = UNUSED -> n + 1 < 2 ^ 31 ->
    tstep init (l, n) (<[i := with_pid n (with_state EMBRYO p)]> l, n + 1)
| T_adopted l n i p q r :                      (* fork sets the parent of the embryo *)
    l !! i = Some p -> pstate p = EMBRYO -> l !! q = Some r -> pstate r = RUNNING ->
    tstep init (l, n) (<[i := with_parent (Some q) p]> l, n)
| T_abort l n i p :                            (* out of memory *)
    l !! i = Some p -> pstate p = EMBRYO -> parent p = None ->
    tstep init (l, n) (<[i := with_state UNUSED p]> l, n)
| T_ready l n i p :                            (* fork is done *)
    l !! i = Some p -> pstate p = EMBRYO -> parent p <> None ->
    tstep init (l, n) (<[i := with_state RUNNABLE p]> l, n)
| T_run l n i p : l !! i = Some p -> pstate p = RUNNABLE ->
    tstep init (l, n) (<[i := with_state RUNNING p]> l, n)
| T_yield l n i p : l !! i = Some p -> pstate p = RUNNING ->
    tstep init (l, n) (<[i := with_state RUNNABLE p]> l, n)
| T_sleep l n i p ch : l !! i = Some p -> pstate p = RUNNING ->
    tstep init (l, n) (<[i := with_state SLEEPING (with_chan ch p)]> l, n)
| T_wake l n ch : tstep init (l, n) (wake_proc ch <$> l, n)
| T_kill l n i p : l !! i = Some p ->
    tstep init (l, n) (<[i := killed_proc p]> l, n)
| T_private l n i p p' :                       (* memory, files, registers, name *)
    l !! i = Some p -> pstate p' = pstate p -> pid p' = pid p -> parent p' = parent p ->
    length (ofile p') = length (ofile p) ->
    tstep init (l, n) (<[i := p']> l, n)
| T_exit l n i p : l !! i = Some p -> pstate p = RUNNING -> i <> init ->
    tstep init (l, n) (exited init i l, n)
| T_reap l n i p q : l !! i = Some p -> pstate p = ZOMBIE -> parent p = Some q ->
    tstep init (l, n) (<[i := reaped p]> l, n).

(** *** The invariant *)

Definition living_parent (l : list proc) (p : proc) : Prop :=
  exists q r, parent p = Some q /\ l !! q = Some r /\ alive r.

Definition parent_ok (init : nat) (l : list proc) (i : nat) (p : proc) : Prop :=
  match pstate p with
  | UNUSED => parent p = None
  | EMBRYO => parent p = None \/ living_parent l p
  | _ => i = init \/ living_parent l p
  end.

Definition table_ok (init : nat) (t : ptab) : Prop :=
  let '(l, n) := t in
  length l = NPROC /\ 0 < n < 2 ^ 31 /\
  (exists r, l !! init = Some r /\ alive r) /\
  (forall i p, l !! i = Some p -> length (ofile p) = NOFILE) /\
  (forall i p, l !! i = Some p -> in_use p -> 0 < pid p < n) /\
  (forall i j p q, l !! i = Some p -> l !! j = Some q -> in_use p -> in_use q -> pid p = pid q -> i = j) /\
  (forall i p, l !! i = Some p -> parent_ok init l i p).

(** The part of an entry that the invariant is about. *)
Definition class (st : procstate) : Z :=
  match st with UNUSED => 0 | EMBRYO => 1 | ZOMBIE => 3 | _ => 2 end.
Definition alike (p p' : proc) : Prop :=
  pid p' = pid p /\ parent p' = parent p /\ class (pstate p') = class (pstate p) /\
  length (ofile p') = length (ofile p).

Lemma alike_refl p : alike p p.
Proof. done. Qed.
Lemma class_alive p p' : class (pstate p') = class (pstate p) -> alive p -> alive p'.
Proof. unfold alive. by destruct (pstate p), (pstate p'). Qed.
Lemma class_use p p' : class (pstate p') = class (pstate p) -> in_use p' -> in_use p.
Proof. unfold in_use. by destruct (pstate p), (pstate p'). Qed.

Lemma living_parent_mono l l' p p' :
  (forall q r, l !! q = Some r -> alive r -> exists r', l' !! q = Some r' /\ alive r') ->
  parent p' = parent p -> living_parent l p -> living_parent l' p'.
Proof.
  intros Hl Hp (q & r & Hq & Hr & Ha). destruct (Hl q r Hr Ha) as (r' & Hr' & Ha').
  exists q, r'. by rewrite Hp.
Qed.

Lemma parent_ok_mono init l l' i p p' :
  (forall q r, l !! q = Some r -> alive r -> exists r', l' !! q = Some r' /\ alive r') ->
  parent p' = parent p -> class (pstate p') = class (pstate p) ->
  parent_ok init l i p -> parent_ok init l' i p'.
Proof.
  intros Hl Hp Hc. unfold parent_ok.
  pose proof (living_parent_mono l l' p p' Hl Hp).
  destruct (pstate p), (pstate p'); try done; rewrite ?Hp; tauto.
Qed.

(** Steps that change every entry only alike keep the invariant. *)
Lemma table_ok_alike init l l' n :
  length l' = length l -> (forall i p', l' !! i = Some p' -> exists p, l !! i = Some p /\ alike p p') ->
  table_ok init (l, n) -> table_ok init (l', n).
Proof.
  intros Hlen Hev (HL & Hn & (r & Hr & Ha) & Hof & Hpid & Hinj & Hpar).
  assert (Hal : forall q r, l !! q = Some r -> alive r -> exists r', l' !! q = Some r' /\ alive r').
  { intros q r0 Hq Ha0. destruct (l' !! q) as [r'|] eqn:E.
    - destruct (Hev _ _ E) as (p & Hp & _ & _ & Hc & _). exists r'. split; [done|].
      assert (p = r0) as -> by congruence. by eapply class_alive.
    - apply lookup_ge_None in E. apply lookup_lt_Some in Hq. lia. }
  split_and!; try done; try lia.
  - by destruct (Hal _ _ Hr Ha) as (r' & ? & ?); exists r'.
  - intros i p' Hi. destruct (Hev _ _ Hi) as (p & Hp & _ & _ & _ & ->). by eapply Hof.
  - intros i p' Hi Hu. destruct (Hev _ _ Hi) as (p & Hp & -> & _ & Hc & _). eapply Hpid; [done|]. by eapply class_use.
  - intros i j p' q' Hi Hj Hu Hu' Heq. destruct (Hev _ _ Hi) as (p & Hp & H1 & _ & Hc & _), (Hev _ _ Hj) as (q & Hq & H2 & _ & Hc' & _).
    eapply Hinj; [exact Hp | exact Hq | by eapply class_use | by eapply class_use | congruence].
  - intros i p' Hi. destruct (Hev _ _ Hi) as (p & Hp & _ & Hpa & Hc & _). eapply parent_ok_mono; [exact Hal | done | done |].
    by apply Hpar.
Qed.

Lemma table_ok_insert init l n i p p' :
  l !! i = Some p -> alike p p' -> table_ok init (l, n) -> table_ok init (<[i := p']> l, n).
Proof.
  intros Hi Ha. apply table_ok_alike; [apply length_insert|]. intros j q Hj.
  destruct (decide (i = j)) as [<-|Hne].
  - rewrite list_lookup_insert_eq in Hj by (by eapply lookup_lt_Some). simplify_eq. eauto.
  - rewrite list_lookup_insert_ne in Hj by done. eauto using alike_refl.
Qed.

(** One entry changes, and no living process disappears. *)
Lemma table_ok_entry init l n n' i p p' :
  l !! i = Some p -> table_ok init (l, n) ->
  length (ofile p') = length (ofile p) -> (alive p -> alive p') ->
  n <= n' < 2 ^ 31 -> (in_use p' -> 0 < pid p' < n') ->
  (in_use p' -> forall j q, j <> i -> l !! j = Some q -> in_use q -> pid q <> pid p') ->
  parent_ok init (<[i := p']> l) i p' ->
  table_ok init (<[i := p']> l, n').
Proof.
  intros Hi (HL & Hn & (r & Hr & Ha) & Hof & Hpid & Hinj & Hpar) Hofp Hal Hn' Hpidp Hfresh Hparp.
  pose proof (lookup_lt_Some _ _ _ Hi) as Hlt.
  assert (Hcase : forall j q, <[i := p']> l !! j = Some q -> (j = i /\ q = p') \/ (j <> i /\ l !! j = Some q)).
  { intros j q. destruct (decide (i = j)) as [<-|Hne].
    - rewrite list_lookup_insert_eq by done. intros [= <-]. by left.
    - rewrite list_lookup_insert_ne by done. right. by split; [congruence|]. }
  assert (Hmono : forall q r, l !! q = Some r -> alive r -> exists r', <[i := p']> l !! q = Some r' /\ alive r').
  { intros q r0 Hq Ha0. destruct (decide (i = q)) as [<-|Hne].
    - exists p'. rewrite list_lookup_insert_eq by done. split; [done|]. apply Hal. congruence.
    - exists r0. by rewrite list_lookup_insert_ne. }
  split_and!; try done; try lia.
  - by rewrite length_insert.
  - destruct (Hmono _ _ Hr Ha) as (r' & ? & ?). by exists r'.
  - intros j q [[-> ->]|[_ Hj]]%Hcase; [rewrite Hofp|]; by eapply Hof.
  - intros j q [[-> ->]|[_ Hj]]%Hcase Hu; [by apply Hpidp|]. pose proof (Hpid _ _ Hj Hu). lia.
  - intros j k q q' [[-> ->]|[Hj1 Hj]]%Hcase [[-> ->]|[Hk1 Hk]]%Hcase Hu Hu' Heq; [done | | |].
    + by destruct (Hfresh Hu k q' Hk1 Hk Hu').
    + by destruct (Hfresh Hu' j q Hj1 Hj Hu).
    + by eapply Hinj.
  - intros j q [[-> ->]|[Hj1 Hj]]%Hcase; [done|].
    eapply parent_ok_mono; [exact Hmono | done | done | by apply Hpar].
Qed.

(** Another in-use entry has another id. *)
Lemma other_pid init l n i j p q :
  table_ok init (l, n) -> l !! i = Some p -> in_use p -> j <> i -> l !! j = Some q -> in_use q -> pid q <> pid p.
Proof.
  intros (_ & _ & _ & _ & _ & Hinj & _) Hi Hu Hne Hj Hu' Heq. apply Hne. by eapply (Hinj j i q p).
Qed.

Lemma table_parent init l n i p : table_ok init (l, n) -> l !! i = Some p -> parent_ok init l i p.
Proof. intros (_ & _ & _ & _ & _ & _ & H). apply H. Qed.
Lemma table_pid init l n i p : table_ok init (l, n) -> l !! i = Some p -> in_use p -> 0 < pid p < n.
Proof. intros (_ & _ & _ & _ & H & _). apply H. Qed.

(** A living parent is still there when a dead or embryonic entry changes. *)
Lemma living_parent_insert l i p p' x x' :
  l !! i = Some p -> (alive p -> alive p') -> parent x' = parent x -> living_parent l x ->
  living_parent (<[i := p']> l) x'.
Proof.
  intros Hi Ha Hx. apply living_parent_mono; [|done]. intros q r Hq Hr. destruct (decide (i = q)) as [<-|Hne].
  - exists p'. rewrite list_lookup_insert_eq by (by eapply lookup_lt_Some). split; [done|]. apply Ha. congruence.
  - exists r. by rewrite list_lookup_insert_ne.
Qed.

(** *** Exit *)

Lemma wake_alike ch p : alike p (wake_proc ch p).
Proof.
  unfold wake_proc. case_bool; [|done]. apply andb_true_iff in Heqb as [Hs _].
  apply bool_decide_eq_true in Hs. unfold alike. simpl. by rewrite Hs.
Qed.

Lemma alike_trans p q r : alike p q -> alike q r -> alike p r.
Proof. intros (?&?&?&?) (?&?&?&?). unfold alike. split_and!; congruence. Qed.

(** What the entries become when [i] exits. *)
Lemma exited_lookup init i l j p' :
  exited init i l !! j = Some p' -> exists p, l !! j = Some p /\ pid p' = pid p /\
    length (ofile p') = length (ofile p) /\
    parent p' = (if decide (parent p = Some i) then Some init else parent p) /\
    (if decide (j = i) then pstate p' = ZOMBIE else class (pstate p') = class (pstate p)).
Proof.
  unfold exited. set (w := wake_proc (wait_chan _)). set (b := existsb _ _). intros Hj.
  set (g := fun q => adopt init i (if b then wake_proc (ch_proc init) q else q)) in Hj.
  assert (Hg : forall p, pid (g (w p)) = pid p /\ length (ofile (g (w p))) = length (ofile p) /\
    parent (g (w p)) = (if decide (parent p = Some i) then Some init else parent p) /\
    class (pstate (g (w p))) = class (pstate p)).
  { intros p. assert (Ha : alike p (if b then wake_proc (ch_proc init) (w p) else w p)).
    { destruct b; [eapply alike_trans|]; apply wake_alike. }
    unfold g, adopt. set (q := if b then _ else _) in *. destruct Ha as (H1 & H2 & H3 & H4). rewrite H2.
    case_decide; [rewrite bool_decide_eq_true_2 by done | rewrite bool_decide_eq_false_2 by done]; by split_and!. }
  destruct (decide (j = i)) as [->|Hne].
  - rewrite list_lookup_alter_eq, !list_lookup_fmap in Hj. destruct (l !! i) as [p|] eqn:E; [|done].
    cbn in Hj. injection Hj as <-. exists p. destruct (Hg p) as (H1 & H2 & H3 & _). by split_and!.
  - rewrite list_lookup_alter_ne, !list_lookup_fmap in Hj by done. destruct (l !! j) as [p|] eqn:E; [|done].
    cbn in Hj. injection Hj as <-. exists p. destruct (Hg p) as (H1 & H2 & H3 & H4). by split_and!.
Qed.

Lemma exited_length init i l : length (exited init i l) = length l.
Proof. unfold exited. by rewrite length_alter, !length_fmap. Qed.

Lemma table_ok_exit init l n i p :
  l !! i = Some p -> pstate p = RUNNING -> i <> init -> table_ok init (l, n) -> table_ok init (exited init i l, n).
Proof.
  intros Hi Hrun Hne Hok. pose proof Hok as (HL & Hn & (r & Hr & Ha) & Hof & Hpid & Hinj & Hpar).
  assert (Hal : forall q r, q <> i -> l !! q = Some r -> alive r -> exists r', exited init i l !! q = Some r' /\ alive r').
  { intros q r0 Hq Hr0 Ha0. destruct (exited init i l !! q) as [r'|] eqn:E.
    - destruct (exited_lookup _ _ _ _ _ E) as (p0 & Hp0 & _ & _ & _ & Hst). rewrite decide_False in Hst by done.
      exists r'. split; [done|]. assert (p0 = r0) as -> by congruence. by eapply class_alive.
    - apply lookup_ge_None in E. rewrite exited_length in E. apply lookup_lt_Some in Hr0. lia. }
  assert (Huse : forall j p' q, (if decide (j = i) then pstate p' = ZOMBIE else class (pstate p') = class (pstate q)) ->
    l !! j = Some q -> in_use p' -> in_use q).
  { intros j p' q Hst Hq Hu. case_decide; [|by eapply class_use]. subst j. unfold in_use. congruence. }
  split_and!; try done; try lia.
  - by rewrite exited_length.
  - destruct (Hal init r ltac:(congruence) Hr Ha) as (r' & ? & ?). by exists r'.
  - intros j p' (q & Hq & _ & -> & _)%exited_lookup. by eapply Hof.
  - intros j p' (q & Hq & -> & _ & _ & Hst)%exited_lookup Hu. eapply Hpid; [exact Hq | by eapply Huse].
  - intros j k p' q' (x & Hx & H1 & _ & _ & Hst)%exited_lookup (y & Hy & H2 & _ & _ & Hst')%exited_lookup Hu Hu' Heq.
    eapply Hinj; [exact Hx | exact Hy | by eapply Huse | by eapply Huse | congruence].
  - intros j p' Hj. destruct (exited_lookup _ _ _ _ _ Hj) as (q & Hq & _ & _ & Hpq & Hst).
    assert (Hlive : living_parent l q -> living_parent (exited init i l) p').
    { intros (k & r0 & Hk & Hr0 & Ha0). destruct (decide (parent q = Some i)) as [Hd|Hd].
      - destruct (Hal init r ltac:(congruence) Hr Ha) as (r' & ? & ?). by exists init, r'.
      - destruct (Hal k r0 ltac:(congruence) Hr0 Ha0) as (r' & ? & ?). exists k, r'. by rewrite Hpq. }
    pose proof (Hpar _ _ Hq) as Hpo. unfold parent_ok in *. destruct (decide (j = i)) as [->|Hji].
    + rewrite Hst. assert (q = p) as -> by congruence. rewrite Hrun in Hpo. destruct Hpo; [done | right; auto].
    + destruct (pstate q) eqn:Eq, (pstate p') eqn:Ep; try done; rewrite ?Hpq; try tauto.
      * rewrite Hpo. by rewrite decide_False.
      * destruct Hpo as [Hpo|Hpo]; [|tauto]. left. rewrite Hpo. by rewrite decide_False.
Qed.

(** *** Every step keeps the invariant *)

Lemma killed_alike p : alike p (killed_proc p).
Proof. unfold killed_proc, alike. case_bool; [apply bool_decide_eq_true in Heqb; simpl in *; by rewrite Heqb | done]. Qed.

Lemma tstep_ok init t t' : table_ok init t -> tstep init t t' -> table_ok init t'.
Proof.
  intros Hok Hst. destruct Hst as [l n i p Hi Hs Hn|l n i p q r Hi Hs Hq Hr|l n i p Hi Hs Hp|l n i p Hi Hs Hp
    |l n i p Hi Hs|l n i p Hi Hs|l n i p ch Hi Hs|l n ch|l n i p Hi|l n i p p' Hi Hs Hpid Hpar Hof
    |l n i p Hi Hs Hne|l n i p q Hi Hs Hp];
    try (pose proof (table_parent _ _ _ _ _ Hok Hi) as Hpo; unfold parent_ok in Hpo; rewrite ?Hs in Hpo).
  - pose proof Hok as (_ & Hn0 & _). eapply (table_ok_entry _ _ n); [done | done | done | | lia | simpl; lia | |].
    + unfold alive. by rewrite Hs.
    + intros _ j q Hne Hj Hu. pose proof (table_pid _ _ _ _ _ Hok Hj Hu). simpl. lia.
    + by left.
  - eapply (table_ok_entry _ _ n); try done; [pose proof Hok as (_ & ? & _); lia | | |].
    + apply (table_pid _ _ _ _ _ Hok Hi).
    + intros Hu j q' Hne Hj Hu'. by apply (other_pid init l n i j p q').
    + unfold parent_ok. simpl. rewrite Hs. right. exists q, r. split; [done|]. rewrite list_lookup_insert_ne; [|congruence].
      split; [done|]. unfold alive. by rewrite Hr.
  - eapply (table_ok_entry _ _ n); try done; [unfold alive; by rewrite Hs | pose proof Hok as (_ & ? & _); lia].
  - eapply (table_ok_entry _ _ n); try done; [pose proof Hok as (_ & ? & _); lia | | |].
    + intros _. eapply (table_pid _ _ _ _ _ Hok Hi). unfold in_use. by rewrite Hs.
    + intros _ j q' Hne Hj Hu'. eapply (other_pid init l n i j p); try done. unfold in_use. by rewrite Hs.
    + right. destruct Hpo as [?|Hlp]; [done|]. by eapply living_parent_insert.
  - eapply table_ok_insert; [done | | done]. unfold alike. simpl. by rewrite Hs.
  - eapply table_ok_insert; [done | | done]. unfold alike. simpl. by rewrite Hs.
  - eapply table_ok_insert; [done | | done]. unfold alike. simpl. by rewrite Hs.
  - eapply table_ok_alike; [by rewrite length_fmap | | done]. intros i p' Hi. rewrite list_lookup_fmap in Hi.
    destruct (l !! i) as [p|]; [|done]. injection Hi as <-. exists p. split; [done | apply wake_alike].
  - eapply table_ok_insert; [done | apply killed_alike | done].
  - eapply table_ok_insert; [done | | done]. unfold alike. by rewrite Hs.
  - by eapply table_ok_exit.
  - eapply (table_ok_entry _ _ n); try done; [unfold alive; by rewrite Hs | pose proof Hok as (_ & ? & _); lia].
Qed.

(** The table when the first user process has been set up. *)
Definition boot_entry : proc := with_state RUNNABLE (with_pid 1 proc0).
Definition boot_table : ptab := (boot_entry :: replicate 63 proc0, 2).

Lemma boot_table_ok : table_ok 0 boot_table.
Proof.
  assert (Hl : forall i p, boot_table.1 !! i = Some p -> (i = O /\ p = boot_entry) \/ p = proc0).
  { intros [|i] p; [by intros [= <-]; left|]. intros Hp. right. by apply lookup_replicate in Hp as [-> _]. }
  cbn [boot_table fst] in Hl. split_and!; try done.
  - by exists boot_entry.
  - by intros i p [[-> ->]| ->]%Hl.
  - intros i p [[-> ->]| ->]%Hl Hu; [done|]. by destruct Hu.
  - intros i j p q [[-> ->]| ->]%Hl [[-> ->]| ->]%Hl Hu Hu'; try done; by destruct Hu, Hu'.
  - intros i p [[-> ->]| ->]%Hl; [by left | done].
Qed.

End ProcTable.
