(* ===== verification/ProcProof.v ===== *)
(** * Processes: the single operations of proc.c

    [kill], [wakeup], [allocproc], [wait] and [exit]: what each does to the table, and that
    this is a step of the state machine of [ProcTable]. *)

From stdpp Require Import base gmap list strings.
From Stdlib Require Import ZArith Lia.
From S2P Require Import Prelude Core Locking Kalloc Pipe Bio Log Tx Vm VmProof VmFree Fs File Proc ProcTable.
Import Vm VmProof VmFree Proc ProcTable.

Module ProcProof.

Section Table.
Context {S T : Type} {HLT : Lens S T} {HLc : Lens T core} {O1 : LensOk S T} {O2 : LensOk T core}.
#[local] Hint Extern 0 (Lens S core) => exact (Proc.core_lens (T := T)) : typeclass_instances.
#[local] Instance core_ok_lens : LensOk S core := lens_comp_ok (T := T).

(** The table and the next process id of a state. *)
Definition tab (s : S) : ptab := (procs (lget s), nextpid (lget s)).

Ltac clens := autorewrite with lens; cbn [hw_apicid hw_if cpus locks procs nextpid initproc
  set_hw_if set_cpus set_lock set_procs set_nextpid set_initproc updp] in *.

Lemma getp_lookup c i p : procs c !! i = Some p -> getp c i = p.
Proof. intros H. unfold getp. by rewrite H. Qed.

(** A list that differs from another in one entry. *)
Lemma alter_is {A} (f : A -> A) j x (l l' : list A) :
  l !! j = Some x -> l' !! j = Some (f x) -> (forall k, k <> j -> l' !! k = l !! k) -> l' = alter f j l.
Proof.
  intros Hj Hj' Hk. apply list_eq. intros k. destruct (decide (k = j)) as [->|Hne].
  - by rewrite list_lookup_alter_eq, Hj, Hj'.
  - by rewrite list_lookup_alter_ne, Hk.
Qed.

(** *** Scans of the table *)

Lemma find_proc_spec f l : forall k,
  match find_proc f k l with
  | Some i => exists j p, i = (k + j)%nat /\ l !! j = Some p /\ f p = true /\
      forall j' p', (j' < j)%nat -> l !! j' = Some p' -> f p' = false
  | None => Forall (fun p => f p = false) l
  end.
Proof.
  induction l as [|p l IH]; intros k; simpl; [constructor|]. destruct (f p) eqn:E.
  - exists O, p. split_and!; [lia | done | done | lia].
  - specialize (IH (Datatypes.S k)). destruct (find_proc f (Datatypes.S k) l) as [i|].
    + destruct IH as (j & q & -> & Hj & Hq & Hmin). exists (Datatypes.S j), q. split_and!; [lia | done | done |].
      intros [|j'] p' Hlt; [by intros [= <-]|]. apply Hmin. lia.
    + by constructor.
Qed.

(** *** [exit] with the table locked *)

Lemma wake_idem ch q : wake_proc ch (wake_proc ch q) = wake_proc ch q.
Proof. unfold wake_proc at 2 3. destruct (_ && _) eqn:E; unfold wake_proc; [done | by rewrite E]. Qed.
Lemma wake_adopt init p ch q : wake_proc ch (adopt init p q) = adopt init p (wake_proc ch q).
Proof.
  unfold adopt, wake_proc. destruct (bool_decide (parent q = Some p)) eqn:E; cbn [pstate pchan with_parent];
    destruct (_ && _); cbn [parent with_state]; by rewrite E.
Qed.

(** The table after the first [j] rounds of the loop over the children. *)
Definition stage (init p : nat) (j : nat) (l : list proc) : list proc :=
  let b := existsb (zombie_orphan p) (take j l) in
  imap (fun k q => let q := if b then wake_proc (ch_proc init) q else q in
                   if (k <? j)%nat then adopt init p q else q) l.

Lemma stage_length init p j l : length (stage init p j l) = length l.
Proof. apply length_imap. Qed.

Lemma stage_lookup init p j l k :
  stage init p j l !! k =
    (fun q => let q := if existsb (zombie_orphan p) (take j l) then wake_proc (ch_proc init) q else q in
              if (k <? j)%nat then adopt init p q else q) <$> l !! k.
Proof. apply list_lookup_imap. Qed.

Lemma wake_parent ch q : parent (wake_proc ch q) = parent q.
Proof. by destruct (wake_alike ch q) as (_ & ? & _). Qed.

Lemma wake_with_parent ch x q : wake_proc ch (with_parent x q) = with_parent x (wake_proc ch q).
Proof. unfold wake_proc. cbn [pstate pchan with_parent]. by destruct (_ && _). Qed.

Lemma adopt_other init p z : bool_decide (parent z = Some p) = false -> adopt init p z = z.
Proof. intros H. unfold adopt. by rewrite H. Qed.

Lemma ltb_succ k j : k <> j -> (k <? Datatypes.S j)%nat = (k <? j)%nat.
Proof.
  intros Hne. destruct (k <? j)%nat eqn:E; [apply Nat.ltb_lt in E; apply Nat.ltb_lt; lia|].
  apply Nat.ltb_ge in E. apply Nat.ltb_ge. lia.
Qed.

Lemma stage_step init p j l q : l !! j = Some q ->
  stage init p (Datatypes.S j) l =
    (if bool_decide (parent q = Some p) then
       (if bool_decide (pstate q = ZOMBIE) then fmap (wake_proc (ch_proc init)) else id)
         (alter (with_parent (Some init)) j (stage init p j l))
     else stage init p j l).
Proof.
  intros Hj. apply list_eq. intros k. rewrite stage_lookup.
  rewrite (take_S_r _ _ _ Hj), existsb_app. cbn [existsb]. rewrite orb_false_r.
  change (zombie_orphan p q) with (bool_decide (parent q = Some p) && bool_decide (pstate q = ZOMBIE)).
  assert (Hlook : forall f : proc -> proc,
    (if bool_decide (pstate q = ZOMBIE) then fmap (wake_proc (ch_proc init)) else id) (alter f j (stage init p j l)) !! k =
    (fun z => if bool_decide (pstate q = ZOMBIE) then wake_proc (ch_proc init) z else z) <$> (alter f j (stage init p j l) !! k)).
  { intros f. case_bool; [apply list_lookup_fmap | by rewrite option_fmap_id]. }
  destruct (bool_decide (parent q = Some p)) eqn:Ep; cbn [andb].
  - rewrite Hlook. destruct (decide (k = j)) as [->|Hne].
    + rewrite list_lookup_alter_eq, stage_lookup, Hj, (proj2 (Nat.ltb_lt j (Datatypes.S j))), Nat.ltb_irrefl by lia.
      cbn [fmap option_fmap option_map]. f_equal. unfold adopt.
      destruct (existsb _ _), (bool_decide (pstate q = ZOMBIE)); cbn [orb];
        rewrite ?wake_parent, Ep, ?wake_with_parent, ?wake_idem; done.
    + rewrite list_lookup_alter_ne, stage_lookup, ltb_succ by done. destruct (l !! k) as [x|]; [|done].
      cbn [fmap option_fmap option_map]. f_equal.
      destruct (existsb _ _), (bool_decide (pstate q = ZOMBIE)); cbn [orb]; try done;
        destruct (k <? j)%nat; rewrite ?wake_adopt, ?wake_idem; done.
  - rewrite orb_false_r, stage_lookup. destruct (l !! k) as [x|] eqn:E; [|done]. cbn [fmap option_fmap option_map]. f_equal.
    destruct (decide (k = j)) as [->|Hne]; [|by rewrite ltb_succ].
    assert (x = q) as -> by congruence. rewrite (proj2 (Nat.ltb_lt j (Datatypes.S j))), Nat.ltb_irrefl by lia.
    apply adopt_other. destruct (existsb _ _); by rewrite ?wake_parent.
Qed.

(** The state with another process table. *)
Definition with_procs (l : list proc) (s : S) : S := lset (set_procs l (lget s)) s.

Lemma wp_reparent s init p j l q (Q : unit -> S -> Prop) :
  initproc (lget s) = Some init -> procs (lget s) = stage init p j l -> l !! j = Some q ->
  Q tt (with_procs (stage init p (Datatypes.S j) l) s) ->
  wp (reparent p j) s Q.
Proof.
  intros Hin Hp Hj HQ. unfold reparent, getproc, core_get.
  set (q' := if existsb (zombie_orphan p) (take j l) then wake_proc (ch_proc init) q else q).
  assert (Hq' : stage init p j l !! j = Some q') by (by rewrite stage_lookup, Hj, Nat.ltb_irrefl).
  assert (Hal : alike q q') by (unfold q'; destruct (existsb _ _); [apply wake_alike | done]).
  destruct Hal as (_ & Hpar & Hcl & _).
  assert (Hz : bool_decide (pstate q' = ZOMBIE) = bool_decide (pstate q = ZOMBIE)).
  { apply bool_decide_ext. destruct (pstate q'), (pstate q); done. }
  assert (Hs : forall c, procs c = procs (lget s) -> set_procs (procs (lget s)) c = c) by (intros [] ?; cbn in *; by subst).
  wp_step. rewrite (getp_lookup _ _ q') by (by rewrite Hp). rewrite Hpar. unfold with_procs in HQ.
  rewrite (stage_step init p j l q Hj) in HQ. destruct (bool_decide (parent q = Some p)); wp_step.
  2:{ rewrite <- Hp, Hs, lset_lget in HQ by done. exact HQ. }
  unfold modproc, core_mod. wp_step. clens. rewrite Hin.
  rewrite (getp_lookup _ _ (with_parent (Some init) q')) by (clens; by rewrite list_lookup_alter_eq, Hp, Hq').
  cbn [pstate with_parent]. rewrite Hz, <- Hp in *. destruct (bool_decide (pstate q = ZOMBIE)).
  - unfold wakeup1, core_mod. wp_step. clens. exact HQ.
  - wp_step. exact HQ.
Qed.

Lemma stage_zero init p l : stage init p 0 l = l.
Proof.
  apply list_eq. intros k. rewrite stage_lookup. cbn [take existsb]. by destruct (l !! k).
Qed.

Lemma stage_end init p l : stage init p (length l) l =
  (fun q => adopt init p (if existsb (zombie_orphan p) l then wake_proc (ch_proc init) q else q)) <$> l.
Proof.
  apply list_eq. intros k. rewrite stage_lookup, list_lookup_fmap, take_ge by lia. destruct (l !! k) as [q|] eqn:E; [|done].
  apply lookup_lt_Some in E. cbn [fmap option_fmap option_map]. by rewrite (proj2 (Nat.ltb_lt _ _) E).
Qed.

Lemma wp_exit_table s init p (Q : unit -> S -> Prop) :
  initproc (lget s) = Some init -> length (procs (lget s)) = NPROC ->
  Q tt (with_procs (exited init p (procs (lget s))) s) ->
  wp (exit_table p) s Q.
Proof.
  intros Hin Hlen HQ. unfold exit_table, getproc, wakeup1, core_get, core_mod. wp_step.
  set (l1 := wake_proc (wait_chan (parent (getp (lget s) p))) <$> procs (lget s)).
  assert (Hlen1 : length l1 = NPROC) by (unfold l1; by rewrite length_fmap).
  eapply (wp_for_seq _ (fun j s1 => s1 = with_procs (stage init p j l1) s)).
  - rewrite stage_zero. done.
  - intros j s1 Hj ->. destruct (lookup_lt_is_Some_2 l1 j) as [q Hq]; [lia|].
    eapply (wp_reparent _ init p j l1 q); unfold with_procs; clens; try done.
  - intros s1 ->. unfold modproc, core_mod. wp_step. unfold with_procs in *. clens. revert HQ. clens.
    rewrite Nat.add_0_l. unfold exited, getp in *. fold l1. by rewrite <- Hlen1, stage_end.
Qed.

(** What the others see of it. *)
Lemma exited_hands init p l q : l !! p = Some q -> p <> init ->
  (exists q', exited init p l !! p = Some q' /\ pstate q' = ZOMBIE /\ pid q' = pid q) /\
  (forall j x, exited init p l !! j = Some x -> parent x <> Some p) /\
  (forall k r, parent q = Some k -> k <> p -> l !! k = Some r -> pstate r = SLEEPING -> pchan r = ch_proc k ->
    exists r', exited init p l !! k = Some r' /\ pstate r' = RUNNABLE).
Proof.
  intros Hq Hne. split_and!.
  - destruct (lookup_lt_is_Some_2 (exited init p l) p) as [q' Hq'].
    { rewrite exited_length. by eapply lookup_lt_Some. }
    destruct (exited_lookup _ _ _ _ _ Hq') as (q0 & Hq0 & Hpid & _ & _ & Hst). rewrite decide_True in Hst by done.
    exists q'. split_and!; [done | done | congruence].
  - intros j x (y & _ & _ & _ & -> & _)%exited_lookup. case_decide; congruence.
  - intros k r Hk Hkp Hr Hs Hch. unfold exited. rewrite Hq. cbn [from_option id]. rewrite Hk. cbn [wait_chan].
    rewrite list_lookup_alter_ne by done. rewrite !list_lookup_fmap, Hr. cbn [fmap option_fmap option_map].
    eexists. split; [reflexivity|].
    assert (Hw : wake_proc (ch_proc k) r = with_state RUNNABLE r).
    { unfold wake_proc. by rewrite Hs, Hch, !bool_decide_eq_true_2. }
    rewrite Hw. unfold adopt. case_bool; cbn [pstate with_parent]; (case_bool; [|done]); unfold wake_proc; by case_bool.
Qed.

(** [exit] from its [acquire] on ends in the scheduler, and panics when it comes back. *)
Lemma exit_last_spec (s : S) i ie init p q :
  core_ok (lget s) i [] ie (Some p) -> initproc (lget s) = Some init -> length (procs (lget s)) = NPROC ->
  procs (lget s) !! p = Some q -> p <> init ->
  exists s' k, exit_last (T := T) p s = Sleep ch_none s' k /\ core_ok (lget s') i [L_ptable] ie (Some p) /\
    nextpid (lget s') = nextpid (lget s) /\ procs (lget s') = exited init p (procs (lget s)) /\
    forall s2, exists e s3, k s2 = Panic e s3.
Proof.
  intros Hc Hin Hlen Hq Hne. unfold exit_last.
  assert (HE : wp (acquire L_ptable;; exit_table (T := T) p) s (fun _ s' => core_ok (lget s') i [L_ptable] ie (Some p) /\
    nextpid (lget s') = nextpid (lget s) /\ procs (lget s') = exited init p (procs (lget s)))).
  { wp_step. eapply wp_acquire; [exact Hc | apply not_elem_of_nil |]. intros c1 Hc1 (Hp1 & Hn1 & Hi1).
    eapply (wp_exit_table _ init); unfold with_procs; clens; [congruence | congruence |].
    rewrite Hn1, Hp1. split_and!; [by apply core_ok_procs | done | done]. }
  destruct HE as ([] & s1 & E1 & Hc1 & Hn1 & Hp1). destruct (exited_hands init p _ q Hq Hne) as ((q' & Hq' & Hz & _) & _).
  destruct (sched_spec s1 i ie p ch_none Hc1) as (c2 & k & E2 & Hc2 & (Hp2 & Hn2 & _) & Hk).
  { unfold getp. rewrite Hp1, Hq'. cbn. by rewrite Hz. }
  exists (lset c2 s1), (fun s2 => obind (k s2) (fun _ => panic "zombie exit")). split_and!; clens; [| done | congruence | congruence |].
  - apply bind_ret_inv in E1 as (a & s0 & Ea & Eb). rewrite (bind_ret _ _ _ _ _ Ea), (bind_ret _ _ _ _ _ Eb). by apply bind_sleep.
  - intros s2. rewrite Hk. unfold mycpu, readeflags_if, mod_cpu, core_get, core_mod, lgets, lmod, mbind, M_bind. cbn.
    destruct (hw_if _); cbn; [by eauto|]. destruct (find_cpu _ _); cbn; by eauto.
Qed.

Lemma wp_wakeup_tab s i ie o ch (Q : unit -> S -> Prop) :
  core_ok (lget s) i [] ie o ->
  (forall s', core_ok (lget s') i [] ie o -> tab s' = (wake_proc ch <$> procs (lget s), nextpid (lget s)) -> Q tt s') ->
  wp (wakeup ch) s Q.
Proof.
  intros Hc HQ. unfold wakeup, wakeup1, core_mod. wp_step.
  eapply wp_acquire; [exact Hc | apply not_elem_of_nil |]. intros c1 Hc1 (Hp1 & Hn1 & _). wp_step. clens.
  eapply wp_release; clens; [by apply core_ok_procs|]. intros c2 Hc2 (Hp2 & Hn2 & _). clens.
  apply HQ; clens; [done|]. unfold tab. clens. congruence.
Qed.

(** *** [kill] *)

Lemma wp_kill s i ie o n (Q : Z -> S -> Prop) :
  core_ok (lget s) i [] ie o ->
  (forall c' r, core_ok c' i [] ie o -> nextpid c' = nextpid (lget s) -> initproc c' = initproc (lget s) ->
     match find_proc (fun q => pid q =? n) 0 (procs (lget s)) with
     | Some j => r = 0 /\ procs c' = alter killed_proc j (procs (lget s))
     | None => r = -1 /\ procs c' = procs (lget s)
     end -> Q r (lset c' s)) ->
  wp (kill n) s Q.
Proof.
  intros Hc HQ. unfold kill, scan, core_get. wp_step.
  eapply wp_acquire; [exact Hc | apply not_elem_of_nil |]. intros c1 Hc1 (Hp1 & Hn1 & Hi1). wp_step. clens. rewrite Hp1.
  pose proof (find_proc_spec (fun q => pid q =? n) (procs (lget s)) 0) as Hf.
  destruct (find_proc _ 0 _) as [j|] eqn:E.
  - destruct Hf as (j' & q & -> & Hj & _). cbn [Nat.add] in *. unfold modproc, getproc, core_mod, core_get. wp_step. clens.
    rewrite (getp_lookup _ _ (with_killed true q)) by (clens; by rewrite list_lookup_alter_eq, Hp1, Hj).
    destruct (bool_decide (pstate (with_killed true q) = SLEEPING)) eqn:Es; wp_step; clens;
      (eapply wp_release; clens; [exact Hc1|]); intros c2 Hc2 (Hp2 & Hn2 & Hi2); wp_step; clens; apply HQ;
      try done; try congruence; (split; [done|]); rewrite Hp2, Hp1.
    + apply (alter_is _ _ q); [done | rewrite !list_lookup_alter_eq, Hj; cbn; unfold killed_proc; by rewrite Es |].
      intros k Hk. by rewrite !list_lookup_alter_ne.
    + apply (alter_is _ _ q); [done | rewrite !list_lookup_alter_eq, Hj; cbn; unfold killed_proc; by rewrite Es |].
      intros k Hk. by rewrite !list_lookup_alter_ne.
  - wp_step. eapply wp_release; clens; [exact Hc1|]. intros c2 Hc2 (Hp2 & Hn2 & Hi2). wp_step. clens.
    apply HQ; try done; try congruence.
    split; [done | congruence].
Qed.

End Table.

(** *** [exit] *)

(** No run returns, whatever happens to the state while the process sleeps. *)
Fixpoint never_returns {S A} (o : outcome S A) : Prop :=
  match o with
  | Ret _ _ => False
  | Panic _ _ | Spin _ => True
  | Sleep _ _ k => forall s, never_returns (k s)
  end.

Lemma never_returns_bind {S A B} (m : M S A) (f : A -> M S B) s :
  (forall a s', never_returns (f a s')) -> never_returns ((m ≫= f) s).
Proof. intros Hf. unfold mbind, M_bind. induction (m s); cbn; auto. Qed.

(** A zombie stays one until its parent has waited for it. *)
Lemma zombie_stays init l n l' n' j q : tstep init (l, n) (l', n') -> l !! j = Some q -> pstate q = ZOMBIE ->
  exists q', l' !! j = Some q' /\ (pstate q' = ZOMBIE \/ pstate q' = UNUSED).
Proof.
  intros Hst Hj Hz.
  assert (HI : forall i p p', l !! i = Some p -> (pstate p = ZOMBIE -> pstate p' = ZOMBIE \/ pstate p' = UNUSED) ->
    exists q', <[i := p']> l !! j = Some q' /\ (pstate q' = ZOMBIE \/ pstate q' = UNUSED)).
  { intros i p p' Hi Hp. destruct (decide (i = j)) as [->|Hne].
    - exists p'. rewrite list_lookup_insert_eq by (by eapply lookup_lt_Some). split; [done|]. apply Hp. congruence.
    - exists q. rewrite list_lookup_insert_ne by done. auto. }
  inversion Hst; subst; try (eapply HI; [eassumption|]; intros Hp; cbn; rewrite ?Hp; (congruence || (left; congruence) || auto)).
  - exists (wake_proc ch q). rewrite list_lookup_fmap, Hj. split; [done|]. left. unfold wake_proc. by rewrite Hz.
  - unfold killed_proc. cbn. rewrite Hp. auto.
  - destruct (exited init i l !! j) as [q'|] eqn:E.
    + exists q'. split; [done|]. left. destruct (exited_lookup _ _ _ _ _ E) as (q0 & Hq0 & _ & _ & _ & Hc). case_decide; [done|].
      assert (q0 = q) as -> by congruence. rewrite Hz in Hc. by destruct (pstate q').
    + apply lookup_ge_None in E. rewrite exited_length in E. apply lookup_lt_Some in Hj. lia.
Qed.

Section Exit.
Context {S T : Type} {HLT : Lens S T} {HTx : TxLayer T} {HTb : TxBounds T} {HLc : Lens T core}
  {HLs : Lens T Sleeplock.slocktab} {HLi : Lens S Fs.icache} {HLb : Lens S superblock} {HDv : Fs.DevSw S}
  {HP : Lens S Pipe.pipetab} {HA : PageAlloc S} {HF : Lens S File.ftable}
  {HR : Lens S ram} {HV : Lens S Vm.vmvars} {O1 : LensOk S T} {O2 : LensOk T core}.
#[local] Hint Extern 0 (Lens S core) => exact (Proc.core_lens (T := T)) : typeclass_instances.
#[local] Existing Instance core_ok_lens.

(** C16: [exit] never returns.  From the point where it takes the lock of the table it makes the
    process a zombie that keeps its id, wakes the parent that waits for it, hands all its children
    over to the first process, so that no process is left with a parent that has exited, and gives
    the CPU to the scheduler with only that lock held; the table is well formed again.  If the
    process were ever switched to again the kernel would panic; but the scheduler leaves every
    process alone that is not runnable, and no step of the process table makes anything else of a
    zombie than a free slot. *)
Theorem exit_hands_over wf (s : S) i ie init p q :
  core_ok (lget s) i [] ie (Some p) -> initproc (lget s) = Some init -> table_ok init (tab s) ->
  procs (lget s) !! p = Some q -> pstate q = RUNNING -> p <> init ->
  (forall s0 : S, never_returns (exit (T := T) wf s0)) /\
  (exists (s' : S) k, exit_last (T := T) p s = Sleep ch_none s' k /\
    core_ok (lget s') i [L_ptable] ie (Some p) /\ tstep init (tab s) (tab s') /\ table_ok init (tab s') /\
    (exists q', procs (lget s') !! p = Some q' /\ pstate q' = ZOMBIE /\ pid q' = pid q) /\
    (forall j x, procs (lget s') !! j = Some x -> parent x <> Some p) /\
    (forall k r, parent q = Some k -> procs (lget s) !! k = Some r -> pstate r = SLEEPING -> pchan r = ch_proc k ->
      exists r', procs (lget s') !! k = Some r' /\ pstate r' = RUNNABLE) /\
    (forall s2, exists e s3, k s2 = Panic e s3)) /\
  (forall c j (s2 : S), pstate (getp (lget s2) j) <> RUNNABLE -> sched_proc (T := T) c j s2 = Ret tt s2) /\
  (forall l n l' n' z, tstep init (l, n) (l', n') -> l !! p = Some z -> pstate z = ZOMBIE ->
    exists z', l' !! p = Some z' /\ (pstate z' = ZOMBIE \/ pstate z' = UNUSED)).
Proof.
  intros Hc Hi Hok Hq Hrun Hne. split; [|split; [|split]].
  - intros s0. unfold exit. apply never_returns_bind. intros p0 s1. apply never_returns_bind. intros ip s2.
    case_bool_decide; [done|]. unfold exit_last. by repeat (apply never_returns_bind; intros ? ?).
  - pose proof Hok as (Hlen & _). destruct (exit_last_spec s i ie init p q) as (s' & k & E & Hc' & Hn' & Hp' & Hk); try done.
    destruct (exited_hands init p _ q Hq Hne) as (H1 & H2 & H3). exists s', k. unfold tab in *. rewrite Hn', Hp'.
    split; [done|].
    split; [done|].
    split; [by eapply T_exit|].
    split; [by eapply table_ok_exit|].
    split; [done|].
    split; [done|].
    split; [|done]. intros k0 r Hk0 Hr Hs Hch. eapply H3; try done. congruence.
  - intros c j s2 Hj. unfold sched_proc, getproc, core_get, lgets. erewrite bind_ret by reflexivity.
    rewrite bool_decide_eq_false_2 by exact Hj. done.
  - intros l n l' n' z. by apply zombie_stays.
Qed.
End Exit.

(** ** Operations that allocate and free memory *)

Section Mem.
Context {S T : Type} {HLT : Lens S T} {HLc : Lens T core} {O1 : LensOk S T} {O2 : LensOk T core}.
#[local] Hint Extern 0 (Lens S core) => exact (Proc.core_lens (T := T)) : typeclass_instances.
#[local] Instance core_ok_lens' : LensOk S core := lens_comp_ok (T := T).
Context {HK : Lens S Kalloc.kmem} {HR : Lens S ram} {O3 : LensOk S Kalloc.kmem} {O4 : LensOk S ram}
  {P1 : LensSep S core Kalloc.kmem} {P2 : LensSep S core ram} {P3 : LensSep S Kalloc.kmem ram}.
Context (kend : Z) (Hend : KERNBASE < kend).
#[local] Instance palloc : PageAlloc S := Kalloc.kalloc_PageAlloc kend.

Ltac klens :=
  repeat first [rewrite lget_lset | rewrite lsep_l | rewrite lsep_r | rewrite lset_lset];
  cbn [hw_apicid hw_if cpus locks procs nextpid initproc ram_bytes
    set_hw_if set_cpus set_lock set_procs set_nextpid set_initproc updp] in *.

(** The kernel holding the locks [L], with the process table of [s] and the free pages [l]. *)
Definition kern (s : S) (i : nat) (L : list lockid) (ie : bool) (o : option nat) (l : list Z) : Prop :=
  Kalloc.kernel_at kend (lget s) i L ie o s l.

Lemma kern_core s i L ie o l : kern s i L ie o l -> core_ok (lget s) i L ie o.
Proof. by intros (_ & _ & ? & _). Qed.

(** Changing the core keeps the allocator. *)
Lemma kern_lset s i L ie o l c' i' L' ie' o' :
  kern s i L ie o l -> core_ok c' i' L' ie' o' -> kern (lset c' s) i' L' ie' o' l.
Proof.
  intros (Hk & Hu & _ & _) Hc. unfold kern, Kalloc.kernel_at, Kalloc.kmem_ok in *. klens.
  destruct Hk as (? & ? & ?). by split_and!.
Qed.
Lemma kern_ram s i L ie o l m :
  kern s i L ie o l -> (forall v a, v ∈ l -> v <= a < v + PGSIZE -> loadb m a = loadb (ram_bytes (lget s)) a) ->
  kern (lset {| ram_bytes := m |} s) i L ie o l.
Proof.
  intros (Hk & Hu & Hc & Hs) Hm. pose proof Hk as (Hch & HN & HF). unfold kern, Kalloc.kernel_at, Kalloc.kmem_ok. klens.
  split_and!; try done. eapply Kalloc.chain_frame; [|done]. intros v Hv. unfold load32.
  unfold PGSIZE in Hm. by rewrite !(Hm v) by (done || lia).
Qed.

Lemma wp_kalloc_page s i L ie o l (Q : Z -> S -> Prop) :
  kern s i L ie o l -> L_kmem ∉ L ->
  (forall s', kern s' i L ie o (tail l) -> same_procs (lget s) (lget s') ->
     ram_bytes (lget s') = ram_bytes (lget s) -> Q (default 0 (head l)) s') ->
  wp kalloc_page s Q.
Proof.
  intros Hk Hni HQ. pose proof Hk as (Hkm & Hu & Hc & _).
  apply (Kalloc.wp_kalloc kend s i L ie o l); [done | by intros _; split |]. intros s' Hk' Hl' Hs' Hu' Hr'. rewrite Hu in Hu'.
  destruct (Hl' Hu') as [Hc' _]. apply HQ; [|done|done]. by split_and!.
Qed.

(** *** [allocproc] *)

Context (forkret_addr trapret_addr : Z).

(** Filling in the top of a page that is not free is harmless. *)
Lemma wp_setup_stack s i L ie o l p k (Q : unit -> S -> Prop) :
  kern s i L ie o l -> Kalloc.page_ok kend k -> k ∉ l ->
  (forall s', kern s' i L ie o l -> nextpid (lget s') = nextpid (lget s) -> initproc (lget s') = initproc (lget s) ->
     procs (lget s') = alter (with_ctx_eip forkret_addr) p (procs (lget s)) -> Q tt s') ->
  wp (setup_stack forkret_addr trapret_addr p k) s Q.
Proof.
  intros Hk Hp Hkl HQ. unfold setup_stack, rset, rmod, modproc, core_mod. wp_step. klens.
  set (m := store32 _ (_ + 16) _).
  assert (Hm : kern (lset {| ram_bytes := m |} s) i L ie o l).
  { apply kern_ram; [done|]. intros v a Hv Ha. pose proof Hk as ((_ & _ & HF) & _).
    assert (Hvp : Kalloc.page_ok kend v) by (by eapply Forall_forall in HF; [|exact Hv]).
    assert (v <> k) as Hne by (by intros ->). pose proof (Kalloc.page_ok_aligned _ _ Hp). pose proof (Kalloc.page_ok_aligned _ _ Hvp).
    assert (k + PGSIZE <= v \/ v + PGSIZE <= k) by (unfold PGSIZE in *; Z.to_euclidean_division_equations; lia).
    unfold m, KSTACKSIZE, sizeof_trapframe, sizeof_context, PGSIZE in *. rewrite loadb_store32_ne by lia.
    rewrite CString.Str.memset_spec by lia. case_bool; zbool; [lia | by rewrite loadb_store32_ne by lia | by rewrite loadb_store32_ne by lia]. }
  apply HQ; klens; try done. eapply kern_lset; [exact Hm|]. apply kern_core in Hm. revert Hm. klens. apply core_ok_procs.
Qed.

(** The entry of a new process, and of one for which there was no kernel stack. *)
Definition embryo (n : Z) (q : proc) : proc := with_pid n (with_state EMBRYO q).
Definition born (n k : Z) (q : proc) : proc := with_ctx_eip forkret_addr (with_kstack k (embryo n q)).
Definition stillborn (n : Z) (q : proc) : proc := with_state UNUSED (with_kstack 0 (embryo n q)).

(** What [allocproc] returns, leaves free, and does to the table. *)
Definition alloc_result (s s' : S) (l : list Z) (r : option nat) (l' : list Z) : Prop :=
  match find_proc is_unused 0 (procs (lget s)) with
  | None => r = None /\ l' = l /\ tab s' = tab s
  | Some j =>
      l' = tail l /\ nextpid (lget s') = s32 (nextpid (lget s) + 1) /\
      match l with
      | [] => r = None /\ procs (lget s') = alter (stillborn (nextpid (lget s))) j (procs (lget s))
      | k :: _ => r = Some j /\ procs (lget s') = alter (born (nextpid (lget s)) k) j (procs (lget s))
      end
  end.

Lemma alter_twice {A} (f g : A -> A) j (l : list A) : alter g j (alter f j l) = alter (fun x => g (f x)) j l.
Proof.
  apply list_eq. intros k. destruct (decide (k = j)) as [->|Hne].
  - rewrite !list_lookup_alter_eq. by destruct (l !! j).
  - by rewrite !list_lookup_alter_ne.
Qed.

Lemma wp_allocproc s i ie o l (Q : option nat -> S -> Prop) :
  kern s i [] ie o l ->
  (forall s' r l', kern s' i [] ie o l' -> initproc (lget s') = initproc (lget s) -> alloc_result s s' l r l' -> Q r s') ->
  wp (allocproc forkret_addr trapret_addr) s Q.
Proof.
  intros Hk HQ. unfold allocproc, scan, core_get. wp_step.
  eapply wp_acquire; [by eapply kern_core | apply not_elem_of_nil |]. intros c1 Hc1 (Hp1 & Hn1 & Hi1). wp_step. klens.
  rewrite Hp1. unfold alloc_result in HQ. destruct (find_proc is_unused 0 (procs (lget s))) as [j|] eqn:Ef.
  2:{ wp_step. eapply wp_release; klens; [exact Hc1|]. intros c2 Hc2 (Hp2 & Hn2 & Hi2). wp_step. klens.
    apply (HQ _ _ l); klens; [by eapply kern_lset | congruence |]. unfold tab. klens. by rewrite Hp2, Hn2, Hp1, Hn1. }
  unfold modproc, core_mod. wp_step. klens.
  eapply wp_release; klens; [exact Hc1|]. intros c2 Hc2 (Hp2 & Hn2 & Hi2). wp_step. klens.
  eapply wp_kalloc_page; [eapply kern_lset; [exact Hk | exact Hc2] | apply not_elem_of_nil |].
  intros s3 Hk3 (Hp3 & Hn3 & Hi3) _. wp_step. revert Hp3 Hn3 Hi3. klens. intros Hp3 Hn3 Hi3.
  pose proof (kern_core _ _ _ _ _ _ Hk3) as Hc3.
  assert (Hc4 : forall f, core_ok (updp j f (lget s3)) i [] ie o) by (intros f; by apply core_ok_procs).
  destruct l as [|k l]; cbn [default head tail] in *.
  - cbn [from_option Z.eqb]. wp_step. klens. apply (HQ _ _ []); klens; [by eapply kern_lset | congruence |].
    split_and!; [done | congruence | done |]. rewrite Hp3, Hp2, Hp1, Hn1, !alter_twice. done.
  - cbn [from_option id]. pose proof Hk as ((_ & HN & HF) & _). apply Forall_cons in HF as [Hpk _]. apply NoDup_cons in HN as [Hkl _].
    destruct (Kalloc.page_ok_range _ _ Hend Hpk) as [Hr _].
    rewrite (proj2 (Z.eqb_neq k 0)) by (unfold KERNBASE in Hr; lia). wp_step.
    eapply wp_setup_stack; [eapply kern_lset; [exact Hk3 | apply Hc4] | done | done |].
    intros s5 Hk5 Hn5 Hi5 Hp5. revert Hn5 Hi5 Hp5. klens. intros Hn5 Hi5 Hp5. wp_step.
    apply (HQ _ _ l); [done | congruence |]. split_and!; [done | congruence | done |].
    rewrite Hp5, Hp3, Hp2, Hp1, Hn1, !alter_twice. done.
Qed.

(** *** Waiting for a child *)

(** The kernel with an address space that owns its pages. *)
Definition space (s : S) (i : nat) (L : list lockid) (ie : bool) (o : option nat) (l : list Z) (Hni : L_kmem ∉ L)
  (d : Z) (V : list Z) (U : list (Z * Z)) : Prop :=
  as_state (HAL := Kalloc.kalloc_laws_at kend (lget s) i L ie o Hend Hni) s d V U l.

Lemma space_kern s i L ie o l Hni d V U : space s i L ie o l Hni d V U -> kern s i L ie o l.
Proof. by intros [? _]. Qed.

Lemma rm_core (c' : core) (s : S) : rm (lset c' s) = rm s.
Proof. unfold rm. by rewrite lsep_r. Qed.

Lemma space_lset s i L ie o l Hni d V U c' L' Hni' :
  space s i L ie o l Hni d V U -> core_ok c' i L' ie o -> space (lset c' s) i L' ie o l Hni' d V U.
Proof.
  intros (Hk & Hrest) Hc. split; [exact (kern_lset _ _ _ _ _ _ _ _ _ _ _ Hk Hc)|]. rewrite rm_core. exact Hrest.
Qed.

(** [as_state] for the table of [c0] is a [space] when the table is still that one. *)
Lemma space_of s i L ie o l Hni c0 d V U :
  as_state (HAL := Kalloc.kalloc_laws_at kend c0 i L ie o Hend Hni) s d V U l ->
  space s i L ie o l Hni d V U /\ same_procs c0 (lget s).
Proof. intros ((H1 & H2 & H3 & H4) & Hrest). split; [|done]. split; [by split_and! | exact Hrest]. Qed.

Lemma core_ok_updp c i L ie o j f : core_ok c i L ie o -> core_ok (updp j f c) i L ie o.
Proof. apply core_ok_procs. Qed.

Lemma wp_reap s i ie o l Hni j q V U (Q : Z -> S -> Prop) :
  space s i [L_ptable] ie o l Hni (pgdir q) V U -> procs (lget s) !! j = Some q ->
  Kalloc.page_ok kend (kstack q) -> kstack q ∉ pgdir q :: V ++ U.*2 ++ l ->
  (forall s' l', kern s' i [] ie o l' -> l' ≡ₚ kstack q :: pgdir q :: V ++ U.*2 ++ l ->
     nextpid (lget s') = nextpid (lget s) -> procs (lget s') = alter reaped j (procs (lget s)) -> Q (pid q) s') ->
  wp (reap j) s Q.
Proof.
  intros Hsp Hj Hks Hkn HQ. unfold reap, getproc, core_get. wp_step. rewrite (getp_lookup _ _ q Hj).
  eapply (wp_free_other (HAL := Kalloc.kalloc_laws_at kend (lget s) i [L_ptable] ie o Hend Hni)); [exact Hsp | done | done |].
  intros s1 (Hs1 & Hp1 & Hn1 & Hi1)%space_of. unfold modproc, core_mod. wp_step.
  set (c2 := updp j (with_kstack 0) (lget s1)).
  assert (Hc2 : core_ok c2 i [L_ptable] ie o) by (apply core_ok_updp; eapply kern_core, space_kern, Hs1).
  pose proof (space_lset _ _ _ _ _ _ _ _ _ _ _ _ Hni Hs1 Hc2) as Hs2.
  eapply (wp_freevm (HAL := Kalloc.kalloc_laws_at kend (lget (lset c2 s1)) i [L_ptable] ie o Hend Hni)); [exact Hs2|].
  intros s3 l3 (Hk3 & Hu3 & Hc3 & Hsp3) HL3. wp_step. klens. destruct Hsp3 as (Hp3 & Hn3 & Hi3). revert Hp3 Hn3 Hi3. klens. intros Hp3 Hn3 Hi3.
  assert (Hkern3 : kern s3 i [L_ptable] ie o l3) by (by split_and!).
  eapply wp_release; klens; [by repeat apply core_ok_updp|]. intros c4 Hc4 (Hp4 & Hn4 & Hi4). wp_step. klens.
  apply (HQ _ l3).
  - by eapply kern_lset.
  - rewrite HL3. rewrite <- (Permutation_middle (U.*2)), <- (Permutation_middle V). apply perm_swap.
  - klens. rewrite Hn4, Hn3. unfold c2. klens. done.
  - klens. rewrite Hp4, Hp3. unfold c2. klens. rewrite Hp1, !alter_twice. done.
Qed.

Lemma wp_this_proc s i L ie p (Q : nat -> S -> Prop) :
  core_ok (lget s) i L ie (Some p) ->
  (forall c', core_ok c' i L ie (Some p) -> same_procs (lget s) c' -> Q p (lset c' s)) -> wp this_proc s Q.
Proof. intros Hc HQ. unfold this_proc. wp_step. eapply wp_myproc; [exact Hc|]. intros c' Hc' Hs. apply wp_ret. by apply HQ. Qed.

Lemma alter_at {A} (f : A -> A) j x (l : list A) : l !! j = Some x -> alter f j l = <[j := f x]> l.
Proof.
  intros Hj. symmetry. apply (alter_is _ _ x); [done | |].
  - rewrite list_lookup_insert_eq; [done | by eapply lookup_lt_Some].
  - intros k Hk. by rewrite list_lookup_insert_ne.
Qed.

(** What [wait] needs when it looks at the table, with its lock held: the memory of the child
    that it is going to free is that of an address space. *)
Definition no_kmem_lock : L_kmem ∉ [L_ptable] := fun H => ltac:(by apply list_elem_of_singleton in H).
Definition waitable (s : S) (i : nat) (ie : bool) (p : nat) (l : list Z) (V : list Z) (U : list (Z * Z)) : Prop :=
  kern s i [L_ptable] ie (Some p) l /\
  match find_proc (is_zombie_child p) 0 (procs (lget s)) with
  | Some j => exists q, procs (lget s) !! j = Some q /\ space s i [L_ptable] ie (Some p) l no_kmem_lock (pgdir q) V U /\
      Kalloc.page_ok kend (kstack q) /\ kstack q ∉ pgdir q :: V ++ U.*2 ++ l
  | None => (p < length (procs (lget s)))%nat
  end.

(** One look at the table that ends in [o]; [again] holds of what happens when the process
    has slept and runs again. *)
Definition looks (again : S -> nat -> outcome S Z -> Prop) (s : S) (i : nat) (ie : bool) (p : nat)
    (l : list Z) (V : list Z) (U : list (Z * Z)) (o : outcome S Z) : Prop :=
  match find_proc (is_zombie_child p) 0 (procs (lget s)) with
  | Some j => exists q s' l', procs (lget s) !! j = Some q /\ o = Ret (pid q) s' /\ kern s' i [] ie (Some p) l' /\
      tab s' = (<[j := reaped q]> (procs (lget s)), nextpid (lget s)) /\ l' ≡ₚ kstack q :: pgdir q :: V ++ U.*2 ++ l
  | None =>
      if bool_decide (find_proc (is_child p) 0 (procs (lget s)) = None) || killed (getp (lget s) p)
      then exists s', o = Ret (-1) s' /\ kern s' i [] ie (Some p) l /\ tab s' = tab s
      else exists s' k, o = Sleep (ch_proc p) s' k /\ kern s' i [L_ptable] ie (Some p) l /\
        tab s' = (asleep p (ch_proc p) (procs (lget s)), nextpid (lget s)) /\
        forall s2 j ie2, core_ok (lget s2) j [L_ptable] ie2 (Some p) ->
          exists c3, core_ok c3 j [L_ptable] ie (Some p) /\ procs c3 = alter (with_chan ch_none) p (procs (lget s2)) /\
            again (lset c3 s2) j (k s2)
  end.

(** At most [n] looks at the table, the first one in state [s] on CPU [i]. *)
Fixpoint waits (n : nat) (ie : bool) (p : nat) (s : S) (i : nat) (o : outcome S Z) : Prop :=
  match n with
  | O => True
  | Datatypes.S n' => forall l V U, waitable s i ie p l V U -> looks (waits n' ie p) s i ie p l V U o
  end.

Lemma wait_loop_waits n ie p : forall s i, waits n ie p s i (wait_loop (T := T) n p s).
Proof.
  induction n as [|n IH]; intros s i; [done|]. intros l V U [Hk Hz]. unfold looks. cbn [wait_loop].
  unfold scan, getproc, core_get, lgets. erewrite bind_ret by reflexivity. cbn [lget lens_comp].
  destruct (find_proc (is_zombie_child p) 0 (procs (lget s))) as [j|].
  - destruct Hz as (q & Hq & Hsp & Hks & Hkn). exists q.
    destruct (wp_reap s i ie (Some p) l no_kmem_lock j q V U (fun r s' => exists l', r = pid q /\ kern s' i [] ie (Some p) l' /\
      tab s' = (<[j := reaped q]> (procs (lget s)), nextpid (lget s)) /\ l' ≡ₚ kstack q :: pgdir q :: V ++ U.*2 ++ l))
      as (r & s' & E & l' & -> & H1 & H2 & H3); [done | done | done | done | |].
    + intros s' l' Hk' HL Hn' Hp'. exists l'. split_and!; try done. unfold tab. by rewrite Hn', Hp', (alter_at _ _ q).
    + by exists s', l'.
  - do 2 (erewrite bind_ret by reflexivity).
    pose proof (kern_core _ _ _ _ _ _ Hk) as Hc. destruct (bool_decide _ || _).
    + destruct (wp_release s i [] ie (Some p) L_ptable (fun _ s' => kern s' i [] ie (Some p) l /\ tab s' = tab s))
        as ([] & s' & E & H1 & H2); [done | |].
      * intros c' Hc' (Hp' & Hn' & _). split; [by eapply kern_lset|]. unfold tab. klens. by rewrite Hp', Hn'.
      * exists s'. by rewrite (bind_ret _ _ _ _ _ E).
    + destruct (sleep_ptable_spec s i ie p (ch_proc p) Hc Hz) as (c1 & k & E & Hc1 & Hp1 & Hn1 & _ & Hres).
      eexists _, _. split; [by apply bind_sleep|]. split; [by eapply kern_lset|]. split; [unfold tab; klens; by rewrite Hp1, Hn1|].
      intros s2 j ie2 Hc2. destruct (Hres s2 j ie2 Hc2) as (c3 & E3 & Hc3 & Hp3). exists c3. split; [done|]. split; [done|].
      cbv beta. rewrite E3. apply IH.
Qed.

(** C15: [wait] looks at the table with its lock held.  If a child has exited it returns the id
    of the first one in the table, makes its slot free for another process, and gives its
    kernel stack, its user pages, its page tables and its directory back to the allocator, each
    exactly once.  Without an exited child, a process that has no children or has been killed
    gets -1 and nothing changes; another one sleeps on the channel of its own table entry, with
    only the lock of the table held, and when it runs again, on any CPU, it looks at the
    table as it is then.  No lock is held when [wait] returns. *)
Theorem wait_reaps n s i ie p :
  core_ok (lget s) i [] ie (Some p) ->
  exists c, core_ok c i [L_ptable] ie (Some p) /\ same_procs (lget s) c /\
    waits n ie p (lset c s) i (wait (T := T) n s).
Proof.
  intros Hc. unfold wait.
  destruct (wp_this_proc s i [] ie p (fun a s' => a = p /\ exists c, s' = lset c s /\ core_ok c i [] ie (Some p) /\ same_procs (lget s) c))
    as (a & s1 & E1 & -> & c1 & -> & Hc1 & Hs1); [done | by eauto |].
  destruct (wp_acquire (lset c1 s) i [] ie (Some p) L_ptable (fun _ s' => exists c, s' = lset c s /\ core_ok c i [L_ptable] ie (Some p) /\ same_procs c1 c))
    as (a & s2 & E2 & c2 & -> & Hc2 & Hs2); [by klens | apply not_elem_of_nil | |].
  { intros c' Hc' Hs'. revert Hs'. klens. eauto. }
  exists c2. split; [done|]. split; [destruct Hs1 as (? & ? & ?), Hs2 as (? & ? & ?); split_and!; congruence|]. rewrite (bind_ret _ _ _ _ _ E1), (bind_ret _ _ _ _ _ E2). apply wait_loop_waits.
Qed.

(** C14: [kill], [wakeup] and [allocproc] take the process table through steps of the
    state machine only, and leave no lock held: [kill] marks the first process with the
    id and wakes it if it sleeps, or returns -1 without a change; [allocproc] takes the
    first free slot, gives it a fresh id and the first free page as kernel stack, and
    without a slot or a page returns nothing. *)
Theorem table_ops_refine s i ie o init l :
  kern s i [] ie o l -> table_ok init (tab s) -> nextpid (lget s) + 1 < 2 ^ 31 ->
  (forall n, wp (kill n) s (fun r s' => core_ok (lget s') i [] ie o /\ star (tstep init) (tab s) (tab s') /\
     match find_proc (fun q => pid q =? n) 0 (procs (lget s)) with
     | Some j => r = 0 /\ procs (lget s') = alter killed_proc j (procs (lget s))
     | None => r = -1 /\ tab s' = tab s
     end)) /\
  (forall ch, wp (wakeup ch) s (fun _ s' => core_ok (lget s') i [] ie o /\ star (tstep init) (tab s) (tab s') /\
     procs (lget s') = wake_proc ch <$> procs (lget s))) /\
  wp (allocproc forkret_addr trapret_addr) s (fun r s' => exists l', kern s' i [] ie o l' /\
     star (tstep init) (tab s) (tab s') /\ alloc_result s s' l r l').
Proof.
  intros Hk Hok Hn. pose proof (kern_core _ _ _ _ _ _ Hk) as Hc. split_and!.
  - intros n. eapply wp_kill; [exact Hc|]. intros c' r Hc' Hn' Hi' Hr. klens. split; [done|]. unfold tab. klens. rewrite Hn'.
    pose proof (find_proc_spec (fun q => pid q =? n) (procs (lget s)) 0) as Hf.
    destruct (find_proc _ 0 _) as [j|].
    + destruct Hr as [-> ->]. destruct Hf as (j' & q & -> & Hj & _). cbn [Nat.add]. split; [|done].
      rewrite (alter_at _ _ q) by done. eapply star_step; [by apply T_kill | apply star_refl].
    + destruct Hr as [-> ->]. split; [apply star_refl | done].
  - intros ch. eapply wp_wakeup_tab; [exact Hc|]. intros s' Hc' Ht. split; [done|]. rewrite Ht. split.
    + eapply star_step; [apply T_wake | apply star_refl].
    + by injection Ht.
  - eapply wp_allocproc; [exact Hk|]. intros s' r l' Hk' _ Hr. exists l'. split; [done|]. split; [|done].
    unfold alloc_result in Hr. pose proof (find_proc_spec is_unused (procs (lget s)) 0) as Hf. destruct (find_proc is_unused 0 _) as [j|].
    2:{ destruct Hr as (_ & _ & ->). apply star_refl. }
    destruct Hf as (j' & q & -> & Hj & Hu & _). apply bool_decide_eq_true in Hu. cbn [Nat.add] in *.
    pose proof Hok as (_ & Hnr & _). pose proof (table_parent _ _ _ _ _ Hok Hj) as Hpo. unfold parent_ok in Hpo. rewrite Hu in Hpo.
    pose proof (lookup_lt_Some _ _ _ Hj) as Hlt.
    destruct Hr as (_ & Hn' & Hr). rewrite s32_small in Hn' by lia. unfold tab. rewrite Hn'.
    eapply star_step; [by apply (T_alloc _ _ _ j' q)|]. fold (embryo (nextpid (lget s)) q). destruct l as [|k l].
    + destruct Hr as [_ ->]. rewrite (alter_at _ _ q) by done.
      eapply star_step; [apply (T_private _ _ _ j' (embryo (nextpid (lget s)) q) (with_kstack 0 (embryo (nextpid (lget s)) q))); [by rewrite list_lookup_insert_eq | done..]|].
      rewrite list_insert_insert_eq. eapply star_step; [apply (T_abort _ _ _ j' (with_kstack 0 (embryo (nextpid (lget s)) q))); [by rewrite list_lookup_insert_eq | done | done]|].
      rewrite list_insert_insert_eq. apply star_refl.
    + destruct Hr as [_ ->]. rewrite (alter_at _ _ q) by done.
      eapply star_step; [apply (T_private _ _ _ j' (embryo (nextpid (lget s)) q) (born (nextpid (lget s)) k q)); [by rewrite list_lookup_insert_eq | done..]|].
      rewrite list_insert_insert_eq. apply star_refl.
Qed.

(** C39: [kill] does not look at the state of the entry it finds: [kill(0)] succeeds on a
    free slot whose id is 0, and since [allocproc] does not clear the mark, the next
    process that gets the slot is killed before it has run. *)
Theorem kill_zero_poisons s i ie o k l j q :
  kern s i [] ie o (k :: l) -> find_proc (fun x => pid x =? 0) 0 (procs (lget s)) = Some j ->
  find_proc is_unused 0 (procs (lget s)) = Some j -> procs (lget s) !! j = Some q ->
  wp (r ← kill 0; p ← allocproc forkret_addr trapret_addr; mret (r, p)) s (fun rp s' =>
    rp = (0, Some j) /\ exists q', procs (lget s') !! j = Some q' /\ pstate q' = EMBRYO /\ killed q' = true).
Proof.
  intros Hk Hz Hf Hq. wp_step. eapply wp_kill; [by eapply kern_core|]. intros c1 r Hc1 Hn1 Hi1 Hr. rewrite Hz in Hr.
  destruct Hr as [-> Hp1]. wp_step. eapply wp_allocproc; [by eapply kern_lset|]. intros s2 p l2 Hk2 Hi2 Hres. wp_step.
  pose proof (find_proc_spec is_unused (procs (lget s)) 0) as Hs. rewrite Hf in Hs.
  destruct Hs as (j' & q0 & -> & Hj & Hu & Hmin). cbn [Nat.add] in *. assert (q0 = q) as -> by congruence.
  assert (Hu' : bool_decide (pstate q = UNUSED) = true) by exact Hu. apply bool_decide_eq_true in Hu'.
  assert (Hkq : killed_proc q = with_killed true q).
  { unfold killed_proc. cbn [pstate with_killed]. by rewrite Hu', bool_decide_eq_false_2. }
  assert (Hf1 : find_proc is_unused 0 (procs c1) = Some j').
  { pose proof (find_proc_spec is_unused (procs c1) 0) as Hs. destruct (find_proc is_unused 0 (procs c1)) as [j2|].
    - destruct Hs as (j3 & q3 & -> & Hj3 & Hu3 & Hmin3). cbn [Nat.add]. f_equal.
      destruct (lt_eq_lt_dec j3 j') as [[Hlt| ->]|Hlt]; [|done|].
      + rewrite Hp1, list_lookup_alter_ne in Hj3 by lia. rewrite (Hmin _ _ Hlt Hj3) in Hu3. done.
      + assert (Hj4 : procs c1 !! j' = Some (with_killed true q)) by (by rewrite Hp1, list_lookup_alter_eq, Hj, <- Hkq).
        pose proof (Hmin3 _ _ Hlt Hj4) as Hcon. unfold is_unused in *. cbn [pstate with_killed] in Hcon. congruence.
    - assert (Hj4 : procs c1 !! j' = Some (with_killed true q)) by (by rewrite Hp1, list_lookup_alter_eq, Hj, <- Hkq).
      eapply Forall_lookup_1 in Hs; [|exact Hj4]. unfold is_unused in *. cbn [pstate with_killed] in Hs. congruence. }
  unfold alloc_result in Hres. revert Hres. klens. rewrite Hf1. intros (_ & _ & -> & Hp2). split; [done|].
  rewrite Hp2, Hp1, list_lookup_alter_eq, list_lookup_alter_eq, Hj. cbn [fmap option_fmap option_map]. rewrite Hkq.
  eexists. split; [reflexivity|]. done.
Qed.

End Mem.

(** ** Concrete states *)

Definition no_kmem : L_kmem ∉ [] := not_elem_of_nil L_kmem.

Lemma kst_sep_kmem : @LensSep Kalloc.kst core Kalloc.kmem (Proc.core_lens (T := core)) _.
Proof. by split. Qed.
Lemma kst_sep_ram : @LensSep Kalloc.kst core ram (Proc.core_lens (T := core)) _.
Proof. by split. Qed.
#[local] Existing Instance kst_sep_kmem.
#[local] Existing Instance kst_sep_ram.
#[local] Instance kst_palloc : PageAlloc Kalloc.kst := palloc (T := core) 0x80200000.

(** A table in which process 0 runs and process 1 is its exited child. *)
Definition dead_child : proc :=
  with_pgdir 0x80400000 (with_kstack 0x80406000 (with_pid 7 (with_parent (Some 0%nat) (with_state ZOMBIE proc0)))).
Definition family : Kalloc.kst :=
  (set_procs [with_state RUNNING proc0; dead_child] boot_core, small_space.2).

Lemma family_kern : kern (T := core) 0x80200000 family 0 [] true (Some 0%nat) [0x80403000; 0x80402000; 0x80401000].
Proof. destruct small_as as ((Hk & _) & _). split_and!; [exact Hk | done | exact boot_ok | done]. Qed.

Lemma wait_reaps_witness :
  exists s', (wait (T := core) 1 : M Kalloc.kst Z) family = Ret 7 s' /\ pstate (getp s'.1 1) = UNUSED.
Proof.
  destruct (wait_reaps (T := core) 0x80200000 eq_refl 1 family 0 true 0) as (c & Hc & (Hp & Hn & _) & HW); [exact boot_ok|].
  specialize (HW [0x80403000; 0x80402000; 0x80401000] [0x80404000] [(1, 0x80405000)]). unfold looks, waitable in HW.
  match type of HW with context [find_proc ?f 0 ?l] => assert (Hl : l = procs (lget family)) by exact Hp end.
  rewrite Hl in HW. change (find_proc _ 0 _) with (Some 1%nat) in HW.
  destruct HW as (q & s' & l' & Hq' & E & _ & Ht & _).
  - split; [by eapply (kern_lset (T := core)); [exact family_kern|]|]. exists dead_child. split; [done|]. split; [|split].
    + eapply (space_lset (T := core) 0x80200000 eq_refl family 0 [] _ _ _ no_kmem); [split; [exact family_kern | exact (proj2 small_as)] | exact Hc].
    + by split.
    + apply (bool_decide_unpack _). vm_compute. exact I.
  - injection Hq' as <-. exists s'. split; [exact E|]. injection Ht as Hp' _. unfold getp. change (procs (lget s')) with (procs s'.1) in Hp'. by rewrite Hp'.
Defined.

(** The table after boot, with the first process running. *)
Definition booted : Kalloc.kst :=
  (set_procs (<[0%nat := with_state RUNNING boot_entry]> boot_table.1) boot_core, small_space.2).

Lemma booted_steps : star (tstep 0) boot_table (<[0%nat := with_state RUNNING boot_entry]> boot_table.1, 2).
Proof. eapply star_step; [by apply (T_run 0 _ _ 0 boot_entry) | apply star_refl]. Qed.

Lemma booted_ok : table_ok 0 (<[0%nat := with_state RUNNING boot_entry]> boot_table.1, 2).
Proof. eapply star_invariant; [apply tstep_ok | exact booted_steps | apply boot_table_ok]. Qed.

Lemma booted_kern : kern (T := core) 0x80200000 booted 0 [] true (Some 0%nat) [0x80403000; 0x80402000; 0x80401000].
Proof. destruct small_as as ((Hk & _) & _). split_and!; [exact Hk | done | exact boot_ok | done]. Qed.

Lemma table_ops_refine_witness :
  wp (allocproc (T := core) 100 200 : M Kalloc.kst (option nat)) booted (fun r s' => r = Some 1%nat /\ s'.1.(nextpid) = 3).
Proof.
  destruct (table_ops_refine (T := core) 0x80200000 eq_refl 100 200 booted 0 true (Some 0%nat) 0 _ booted_kern booted_ok eq_refl)
    as (_ & _ & Hal).
  eapply wp_conseq; [exact Hal|]. intros r s' (l' & _ & _ & Hres). unfold alloc_result in Hres.
  change (find_proc is_unused 0 (procs (lget booted))) with (Some 1%nat) in Hres.
  destruct Hres as (_ & Hn & -> & _). split; [done | exact Hn].
Defined.

Lemma kill_zero_poisons_witness :
  wp (r ← kill (T := core) 0; p ← allocproc (T := core) 100 200; mret (r, p) : M Kalloc.kst _) booted
    (fun rp s' => rp = (0, Some 1%nat) /\ killed (getp s'.1 1) = true).
Proof.
  eapply wp_conseq; [apply (kill_zero_poisons (T := core) 0x80200000 eq_refl 100 200 booted 0 true (Some 0%nat) 0x80403000
    [0x80402000; 0x80401000] 1 proc0 booted_kern); reflexivity|].
  intros rp s' (-> & q' & Hq & _ & Hk). split; [done|]. unfold getp. change (procs (lget s')) with (procs s'.1) in Hq. by rewrite Hq.
Defined.

(** Process 1, a child of the first process, exits. *)
Definition child_table : list proc :=
  <[1%nat := with_state RUNNING (with_parent (Some 0%nat) (with_pid 2 (with_state EMBRYO proc0)))]>
    (<[0%nat := with_state RUNNING boot_entry]> boot_table.1).

Lemma child_ok : table_ok 0 (child_table, 3).
Proof.
  eapply star_invariant; [apply tstep_ok | | apply booted_ok].
  eapply star_step; [by apply (T_alloc 0 _ _ 1 proc0)|]. cbn [fst].
  eapply star_step; [by eapply (T_adopted 0 _ _ 1 _ 0)|].
  eapply star_step; [by apply (T_ready 0 _ _ 1 (with_parent (Some 0%nat) (with_pid 2 (with_state EMBRYO proc0))))|].
  eapply star_step; [by eapply (T_run 0 _ _ 1)|]. apply star_refl.
Qed.

Section Example.
Abbreviation ks := (core * Sleeplock.slocktab)%type.
Abbreviation sys := (ks * (ram * (Vm.vmvars * (File.ftable * (Fs.icache * (superblock * Pipe.pipetab))))))%type.
#[local] Instance no_tx : TxLayer ks := {|
  tx_bread _ _ := spin; tx_brelse _ := spin; tx_data _ := spin; tx_setdata _ _ := spin; tx_log_write _ := spin |}.
#[local] Instance no_bounds : TxBounds ks := {| tx_begin := spin; tx_end := spin; tx_init _ := spin |}.
#[local] Instance no_dev : Fs.DevSw sys := {| Fs.dev_read _ := None; Fs.dev_write _ := None |}.
#[local] Instance no_pages : PageAlloc sys := {| kalloc_page := spin; kfree_page _ := spin |}.

Definition exiting : core :=
  {| hw_apicid := 7; hw_if := true; cpus := [{| apicid := 7; ncli := 0; intena := true; cproc := Some 1%nat |}];
     locks := fun _ => {| locked := false; lcpu := None |}; procs := child_table; nextpid := 3; initproc := Some 0%nat |}.
Definition exit_state : sys :=
  ((exiting, {| Sleeplock.sl_of := fun _ => {| Sleeplock.slocked := false; Sleeplock.spid := 0 |} |}),
   ({| ram_bytes := ∅ |}, ({| Vm.kpgdir := 0; Vm.cr3 := 0; Vm.esp0 := 0 |},
    ({| File.file_of _ := {| File.type := File.FD_NONE; File.ref := 0; File.readable := false; File.writable := false; File.fpipe := 0;
          File.fip := 0; File.off := 0 |} |},
     ({| Fs.inode_of := fun _ => Fs.get_dinode [] {| Fs.idev := 0; Fs.inum := 0; Fs.iref := 0; Fs.ivalid := false; Fs.itype := 0;
           Fs.imajor := 0; Fs.iminor := 0; Fs.inlink := 0; Fs.isize := 0; Fs.iaddrs := [] |} |},
      (decode_sb [], {| Pipe.pipe_of := fun _ => Pipe.ring |})))))).

Lemma exiting_ok : core_ok exiting 0 [] true (Some 1%nat).
Proof.
  split; [split_and!; [done | done | by eexists; split_and!]|]. split; [apply NoDup_nil_2|]. intros l. cbn [locks exiting].
  by rewrite decide_False by apply not_elem_of_nil.
Qed.

Lemma exit_hands_over_witness :
  exists (s' : sys) k, exit_last (T := ks) 1 exit_state = Sleep ch_none s' k /\ pstate (getp s'.1.1 1) = ZOMBIE.
Proof.
  destruct (exit_hands_over (S := sys) (T := ks) 0 exit_state 0 true 0 1
    (with_state RUNNING (with_parent (Some 0%nat) (with_pid 2 (with_state EMBRYO proc0))))) as (_ & (s' & k & E & _ & _ & _ & (q' & Hq & Hz & _) & _) & _);
    [exact exiting_ok | done | exact child_ok | done | done | done |].
  exists s', k. split; [exact E|]. unfold getp. change (procs (lget s')) with (procs s'.1.1) in Hq. by rewrite Hq.
Defined.
End Example.

End ProcProof.
