(* ===== verification/ProcRun.v ===== *)
(** * The operations of proc.c run the process table's state machine

    A run of an operation is cut into segments at the points where it gives the CPU up.
    Whatever else happens to the state in between, each segment takes the table through
    steps of [tstep]; so a kernel in which the processes call [fork], [exit], [wait],
    [yield], [sleep], [wakeup], [kill] and [growproc], and the scheduler runs them, never has
    a table that is not well formed. *)

From stdpp Require Import base gmap list strings.
From Stdlib Require Import ZArith Lia.
From S2P Require Import Prelude CString Core Locking Kalloc Pipe Bio Log Tx Vm VmProof VmFree Fs File Proc ProcTable ProcProof.
Import Vm Proc ProcTable.

Module ProcRun.

(** ** Code that leaves the table alone *)

(** The identity of the CPUs and what they run. *)
Definition who (c : core) : Z * list (Z * option nat) := (hw_apicid c, (fun k => (apicid k, cproc k)) <$> cpus c).

(** The table, and who runs what, are as before. *)
Definition still (c c' : core) : Prop :=
  procs c' = procs c /\ nextpid c' = nextpid c /\ initproc c' = initproc c /\ who c' = who c.

#[export] Instance still_preorder : PreOrder still.
Proof. split; [by intros c | intros a b c (? & ? & ? & ?) (? & ? & ? & ?); split_and!; congruence]. Qed.

(** No run of [m] sleeps, and every run leaves the table as it was, also one that panics. *)
Definition quiet {S A} `{Lens S core} (m : M S A) : Prop :=
  forall s, match m s with
            | Ret _ s' | Panic _ s' | Spin s' => still (lget s) (lget s')
            | Sleep _ _ _ => False
            end.

Create HintDb quiet.

Section Quiet.
Context {S : Type} {HL : Lens S core} {HLok : LensOk S core}.

Lemma quiet_ret {A} (a : A) : quiet (mret a : M S A).
Proof. intros s. cbn. reflexivity. Qed.
Lemma quiet_panic {A} e : quiet (panic e : M S A).
Proof. intros s. cbn. reflexivity. Qed.
Lemma quiet_spin {A} : quiet (spin : M S A).
Proof. intros s. cbn. reflexivity. Qed.
Lemma quiet_bind {A B} (m : M S A) (f : A -> M S B) : quiet m -> (forall a, quiet (f a)) -> quiet (m ≫= f).
Proof.
  intros Hm Hf s. unfold mbind, M_bind. specialize (Hm s). destruct (m s) as [a s1|e s1|s1|c s1 k]; cbn; try done.
  specialize (Hf a s1). destruct (f a s1); try done; by etrans.
Qed.
Lemma quiet_get {T A} `{Lens S T} (f : T -> A) : quiet (lgets f : M S A).
Proof. intros s. cbn. reflexivity. Qed.
Lemma quiet_mod {T} `{Lens S T} `{!LensSep S core T} (f : T -> T) : quiet (lmod f : M S unit).
Proof. intros s. cbn. rewrite lsep_l. reflexivity. Qed.
Lemma quiet_core_get {A} (f : core -> A) : quiet (core_get f : M S A).
Proof. apply quiet_get. Qed.
Lemma quiet_core_mod (f : core -> core) : (forall c, still c (f c)) -> quiet (core_mod f : M S unit).
Proof. intros Hf s. cbn. rewrite lget_lset. apply Hf. Qed.
Lemma quiet_if {A} (b : bool) (m1 m2 : M S A) : quiet m1 -> quiet m2 -> quiet (if b then m1 else m2).
Proof. by destruct b. Qed.
Lemma quiet_for {A} (f : A -> M S unit) l : (forall x, quiet (f x)) -> quiet (for_each f l).
Proof. intros Hf. induction l as [|x l IH]; cbn [for_each]; [apply quiet_ret | by apply quiet_bind]. Qed.

Lemma quiet_mod_cpu i g : (forall k, apicid (g k) = apicid k /\ cproc (g k) = cproc k) -> quiet (mod_cpu i g : M S unit).
Proof.
  intros Hg. apply quiet_core_mod. intros c. split_and!; try done. unfold who. cbn. f_equal. apply list_eq. intros j.
  rewrite !list_lookup_fmap. destruct (decide (j = i)) as [->|Hne]; [rewrite list_lookup_alter_eq | by rewrite list_lookup_alter_ne].
  destruct (cpus c !! i) as [k|]; [|done]. cbn. destruct (Hg k). congruence.
Qed.

End Quiet.

#[export] Hint Resolve quiet_ret quiet_panic quiet_spin quiet_get quiet_core_get quiet_if quiet_for : quiet.
#[export] Hint Extern 1 (quiet (lmod _)) => apply quiet_mod; apply _ : quiet.
#[export] Hint Extern 1 (quiet (core_mod _)) => (apply quiet_core_mod; by intros) : quiet.
#[export] Hint Extern 1 (quiet (mod_cpu _ _)) => (apply quiet_mod_cpu; by intros) : quiet.

(** Take a computation apart. *)
Ltac quiet :=
  repeat first
    [ progress intros
    | solve [eauto 2 with quiet nocore]
    | apply quiet_bind
    | apply quiet_if
    | match goal with |- quiet (match ?x with _ => _ end) => destruct x end
    | progress cbv zeta ].

Section Locks.
Context {S : Type} {HL : Lens S core} {HLok : LensOk S core}.

Lemma quiet_mycpu : quiet (mycpu : M S nat).
Proof. unfold mycpu, readeflags_if. quiet. Qed.
#[local] Hint Resolve quiet_mycpu : quiet.
Lemma quiet_pushcli : quiet (pushcli : M S unit).
Proof. unfold pushcli, readeflags_if, cli, get_cpu. quiet. Qed.
Lemma quiet_popcli : quiet (popcli : M S unit).
Proof. unfold popcli, readeflags_if, sti, get_cpu. quiet. Qed.
#[local] Hint Resolve quiet_pushcli quiet_popcli : quiet.
Lemma quiet_holding l : quiet (holding l : M S bool).
Proof. unfold holding. quiet. Qed.
Lemma quiet_xchg l : quiet (xchg l : M S bool).
Proof. unfold xchg. quiet. Qed.
#[local] Hint Resolve quiet_holding quiet_xchg : quiet.
Lemma quiet_acquire l : quiet (acquire l : M S unit).
Proof. unfold acquire. quiet. Qed.
Lemma quiet_release l : quiet (release l : M S unit).
Proof. unfold release. quiet. Qed.
Lemma quiet_myproc : quiet (myproc : M S (option nat)).
Proof. unfold myproc, get_cpu. quiet. Qed.
Lemma quiet_sched_enter : quiet (sched_enter : M S unit).
Proof. pose proof quiet_myproc. unfold sched_enter, readeflags_if, get_cpu. quiet. Qed.

End Locks.

#[export] Hint Resolve quiet_mycpu quiet_pushcli quiet_popcli quiet_acquire quiet_release quiet_myproc quiet_sched_enter : quiet.

(** *** The page allocator and vm.c *)

(** What the processes need of the page allocator. *)
Class QuietPages (S : Type) `{Lens S core} `{PageAlloc S} : Prop := {
  quiet_kalloc : quiet (kalloc_page : M S Z);
  quiet_kfree v : quiet (kfree_page v : M S unit)
}.

#[export] Instance kalloc_quiet {S} `{LensOk S core} `{Lens S Kalloc.kmem} `{Lens S ram}
    `{!LensSep S core Kalloc.kmem} `{!LensSep S core ram} kend : QuietPages S (H0 := Kalloc.kalloc_PageAlloc kend).
Proof.
  split; [|intros v]; cbn [kalloc_page kfree_page Kalloc.kalloc_PageAlloc].
  - unfold Kalloc.kalloc, Kalloc.if_lock, Kalloc.ram_get, Kalloc.set_freelist. quiet.
  - unfold Kalloc.kfree, Kalloc.if_lock, Kalloc.ram_mod, Kalloc.set_freelist. quiet.
Qed.

Section Memory.
Context {S : Type} {HC : Lens S core} {HCok : LensOk S core} {HR : Lens S ram} {HA : PageAlloc S} {HV : Lens S Vm.vmvars}
  {P1 : LensSep S core ram} {P2 : LensSep S core Vm.vmvars} {HQ : QuietPages S}.
#[local] Hint Resolve quiet_kalloc quiet_kfree : quiet.

Lemma quiet_rget a : quiet (rget a : M S Z).
Proof. apply quiet_get. Qed.
Lemma quiet_rset a v : quiet (rset a v : M S unit).
Proof. by apply quiet_mod. Qed.
Lemma quiet_rmod f : quiet (rmod f : M S unit).
Proof. by apply quiet_mod. Qed.
#[local] Hint Resolve quiet_rget quiet_rset quiet_rmod : quiet.

Lemma quiet_walkpgdir d va b : quiet (walkpgdir d va b : M S Z).
Proof. unfold walkpgdir. quiet. Qed.
#[local] Hint Resolve quiet_walkpgdir : quiet.
Lemma quiet_map_loop fuel d z perm : forall a pa, quiet (map_loop fuel d a z pa perm : M S Z).
Proof. induction fuel as [|f IH]; intros a pa; cbn [map_loop]; quiet. Qed.
Lemma quiet_mappages d va n pa perm : quiet (mappages d va n pa perm : M S Z).
Proof. apply quiet_map_loop. Qed.
#[local] Hint Resolve quiet_mappages : quiet.
Lemma quiet_dealloc_loop fuel d z : forall a, quiet (dealloc_loop fuel d a z : M S unit).
Proof. induction fuel as [|f IH]; intros a; cbn [dealloc_loop]; quiet. Qed.
#[local] Hint Resolve quiet_dealloc_loop : quiet.
Lemma quiet_deallocuvm d a b : quiet (deallocuvm d a b : M S Z).
Proof. unfold deallocuvm. quiet. Qed.
#[local] Hint Resolve quiet_deallocuvm : quiet.
Lemma quiet_freevm d : quiet (freevm d : M S unit).
Proof.
  unfold freevm. generalize (seq 0 NPDENTRIES) as l. intros l. apply quiet_if; [quiet|]. apply quiet_bind; [quiet|]. intros _.
  apply quiet_bind; [|quiet]. apply quiet_for. unfold free_table. quiet.
Qed.
#[local] Hint Resolve quiet_freevm : quiet.
Lemma quiet_setupkvm kdata : quiet (setupkvm kdata : M S Z).
Proof. unfold setupkvm. quiet. Qed.
#[local] Hint Resolve quiet_setupkvm : quiet.
Lemma quiet_copy_loop fuel d e n : forall i, quiet (copy_loop fuel d e i n : M S Z).
Proof. induction fuel as [|f IH]; intros i; cbn [copy_loop]; quiet. Qed.
Lemma quiet_alloc_loop fuel d a b : forall x, quiet (alloc_loop fuel d x a b : M S Z).
Proof. induction fuel as [|f IH]; intros x; cbn [alloc_loop]; quiet. Qed.
#[local] Hint Resolve quiet_copy_loop quiet_alloc_loop : quiet.
Lemma quiet_copyuvm kdata d n : quiet (copyuvm kdata d n : M S Z).
Proof. unfold copyuvm. quiet. Qed.
Lemma quiet_allocuvm d a b : quiet (allocuvm d a b : M S Z).
Proof. unfold allocuvm. quiet. Qed.
Lemma quiet_switchuvm o : quiet (switchuvm o : M S unit).
Proof. unfold switchuvm. quiet. Qed.

End Memory.

#[export] Hint Resolve quiet_kalloc quiet_kfree quiet_rset quiet_rmod quiet_deallocuvm quiet_freevm quiet_copyuvm quiet_allocuvm quiet_switchuvm : quiet.

(** *** The process that runs *)

Fixpoint runs_on (id : Z) (l : list (Z * option nat)) : option nat :=
  match l with
  | [] => None
  | (a, o) :: l' => if a =? id then o else runs_on id l'
  end.
Definition cur (c : core) : option nat := runs_on (who c).1 (who c).2.

Lemma cur_still c c' : still c c' -> cur c' = cur c.
Proof. intros (_ & _ & _ & Hw). unfold cur. by rewrite Hw. Qed.

Lemma cur_cpu c i k : find_cpu (hw_apicid c) (cpus c) = Some i -> cpus c !! i = Some k -> cur c = cproc k.
Proof.
  unfold cur, who. cbn. generalize (cpus c). intros l. revert i. induction l as [|x l IH]; intros i Hi Hk; [done|]. cbn in *.
  destruct (apicid x =? hw_apicid c); [injection Hi as <-; by injection Hk as <-|].
  destruct (find_cpu _ l) as [j|]; [|done]. injection Hi as <-. by apply (IH j).
Qed.

Lemma find_cpu_lookup id l i : find_cpu id l = Some i -> is_Some (l !! i).
Proof.
  revert i. induction l as [|x l IH]; intros i; cbn; [done|]. destruct (apicid x =? id); [by intros [= <-]|].
  destruct (find_cpu id l) as [j|]; [|done]. intros [= <-]. by apply IH.
Qed.

Lemma mycpu_ret {S} `{Lens S core} (s : S) i s' : mycpu s = Ret i s' -> s' = s /\ find_cpu (hw_apicid (lget s)) (cpus (lget s)) = Some i.
Proof.
  unfold mycpu, readeflags_if, core_get, lgets, mbind, M_bind. cbn [obind]. destruct (hw_if (lget s)); [done|]. cbn [obind].
  destruct (find_cpu _ _) as [j|] eqn:E; [|done]. by intros [= -> ->].
Qed.

Section Procs.
Context {S T : Type} {HLT : Lens S T} {HTx : TxLayer T} {HTb : TxBounds T} {HLc : Lens T core}
  {HLs : Lens T Sleeplock.slocktab} {HLi : Lens S Fs.icache} {HLb : Lens S superblock} {HDv : Fs.DevSw S}
  {HP : Lens S Pipe.pipetab} {HA : PageAlloc S} {HF : Lens S File.ftable}
  {HR : Lens S ram} {HV : Lens S Vm.vmvars} {O1 : LensOk S T} {O2 : LensOk T core}.
#[local] Hint Extern 0 (Lens S core) => exact (Proc.core_lens (T := T)) : typeclass_instances.
#[local] Instance core_lens_ok : LensOk S core := lens_comp_ok (T := T).
Context {P1 : LensSep S core ram} {P2 : LensSep S core Vm.vmvars} {P3 : LensSep S core File.ftable} {P4 : LensSep S core Fs.icache}
  {HQ : QuietPages S}.
Context (wf : nat) (kdata forkret_addr trapret_addr : Z).
#[local] Hint Resolve core_lens_ok : quiet.

Lemma quiet_zoom {A} (m : M T A) : quiet m -> quiet (zoom m : M S A).
Proof. intros Hm s. unfold zoom. specialize (Hm (lget s)). destruct (m (lget s)); cbn; try done; by rewrite lget_lset. Qed.

Lemma quiet_this_proc : quiet (this_proc : M S nat).
Proof. unfold this_proc. quiet. Qed.
Lemma quiet_filedup f : quiet (File.filedup (T := T) f : M S nat).
Proof. unfold File.filedup, File.getf, File.modf. quiet. Qed.
Lemma quiet_idup i : quiet (Fs.idup (T := T) i : M S nat).
Proof. unfold Fs.idup, Fs.modi, Fs.lk_acquire, Fs.lk_release. quiet; apply quiet_zoom; quiet. Qed.
#[local] Hint Resolve quiet_this_proc quiet_filedup quiet_idup : quiet.

(** [myproc()] is the process that the CPU runs. *)
Lemma myproc_cur (s : S) o s' : myproc s = Ret o s' -> cur (lget s) = o.
Proof.
  unfold myproc. intros E. apply bind_ret_inv in E as (u & s1 & E1 & (i & s2 & E2 & (k & s3 & E3 & (u' & s5 & E4 & E6)%bind_ret_inv)%bind_ret_inv)%bind_ret_inv).
  injection E6 as Hk _. pose proof (quiet_pushcli (S := S) s) as Hq. rewrite E1 in Hq. rewrite <- (cur_still _ _ Hq).
  destruct (mycpu_ret _ _ _ E2) as [-> Ef]. injection E3 as <- ->.
  destruct (find_cpu_lookup _ _ _ Ef) as [k Hk2]. rewrite (cur_cpu _ _ _ Ef Hk2). etrans; [|exact Hk]. cbn in Hk2 |- *. by rewrite Hk2.
Qed.

Lemma this_proc_cur (s : S) r s' : this_proc s = Ret r s' -> cur (lget s) = Some r.
Proof. unfold this_proc. intros (o & s4 & E & E5)%bind_ret_inv. apply myproc_cur in E. destruct o; [by injection E5 as -> _ | done]. Qed.

(** *** Changes of the private fields of processes *)

Context (init : nat).
#[local] Abbreviation tab := (ProcProof.tab (S := S) (T := T)).

Definition goes_by (s s' : S) : Prop := star (tstep init) (tab s) (tab s') /\ initproc (lget s') = initproc (lget s).

Definition like (q q' : proc) : Prop :=
  pstate q' = pstate q /\ pid q' = pid q /\ parent q' = parent q /\ length (ofile q') = length (ofile q).
Definition near (s s' : S) : Prop :=
  goes_by s s' /\ nextpid (lget s') = nextpid (lget s) /\ who (lget s') = who (lget s) /\
  forall j q, procs (lget s) !! j = Some q -> exists q', procs (lget s') !! j = Some q' /\ like q q'.

#[export] Instance goes_by_preorder : PreOrder goes_by.
Proof. split; [intros s; split; [apply star_refl | done] | intros a b c [? ?] [? ?]; split; [by eapply star_trans | congruence]]. Qed.
#[export] Instance near_preorder : PreOrder near.
Proof.
  split.
  - intros s. split_and!; [reflexivity | done | done |]. intros j q Hq. by exists q.
  - intros a b c (H1 & H2 & H3 & H4) (K1 & K2 & K3 & K4). split_and!; [by etrans | congruence | congruence |].
    intros j q Hq. destruct (H4 j q Hq) as (q' & Hq' & ? & ? & ? & ?). destruct (K4 j q' Hq') as (q2 & Hq2 & ? & ? & ? & ?).
    exists q2. split; [done|]. split_and!; congruence.
Qed.

Lemma near_still s s' : still (lget s) (lget s') -> near s s'.
Proof.
  intros (Hp & Hn & Hi & Hw). split_and!; try done; [split; [|done]; unfold ProcProof.tab; rewrite Hp, Hn; apply star_refl|].
  intros j q Hq. exists q. by rewrite Hp.
Qed.

Lemma near_goes s s' : near s s' -> goes_by s s'.
Proof. by intros [? _]. Qed.

Lemma near_mod s j f : (forall q, like q (f q)) -> near s (lset (updp j f (lget s)) s).
Proof.
  intros Hf. assert (HL : forall k q, procs (lget s) !! k = Some q -> exists q', alter f j (procs (lget s)) !! k = Some q' /\ like q q').
  { intros k q Hq. destruct (decide (k = j)) as [->|Hne]; [rewrite list_lookup_alter_eq, Hq; by eexists|].
    rewrite list_lookup_alter_ne by done. exists q. by split. }
  split_and!; unfold ProcProof.tab; rewrite ?lget_lset; try done. split; unfold ProcProof.tab; rewrite ?lget_lset; [|done]. cbn [procs nextpid updp set_procs].
  destruct (procs (lget s) !! j) as [q|] eqn:E.
  - rewrite (ProcProof.alter_at _ _ q) by done. destruct (Hf q) as (? & ? & ? & ?). eapply star_step; [by eapply T_private | apply star_refl].
  - replace (alter f j (procs (lget s))) with (procs (lget s)); [apply star_refl|]. apply list_eq. intros k.
    destruct (decide (k = j)) as [->|Hne]; [by rewrite list_lookup_alter_eq, E | by rewrite list_lookup_alter_ne].
Qed.

(** No run of [m] sleeps, and every run changes private fields only. *)
Definition mild {A} (m : M S A) : Prop :=
  forall s, match m s with
            | Ret _ s' | Panic _ s' | Spin s' => near s s'
            | Sleep _ _ _ => False
            end.

Lemma mild_quiet {A} (m : M S A) : quiet m -> mild m.
Proof. intros Hm s. specialize (Hm s). destruct (m s); try done; by apply near_still. Qed.
Lemma mild_bind {A B} (m : M S A) (f : A -> M S B) : mild m -> (forall a, mild (f a)) -> mild (m ≫= f).
Proof.
  intros Hm Hf s. unfold mbind, M_bind. specialize (Hm s). destruct (m s) as [a s1|e s1|s1|c s1 k]; cbn; try done.
  specialize (Hf a s1). destruct (f a s1); try done; by etrans.
Qed.
Lemma mild_modproc j f : (forall q, like q (f q)) -> mild (modproc j f).
Proof. intros Hf s. cbn. by apply near_mod. Qed.
Lemma mild_for {A} (f : A -> M S unit) l : (forall x, mild (f x)) -> mild (for_each f l).
Proof. intros Hf. induction l as [|x l IH]; cbn [for_each]; [apply mild_quiet, quiet_ret | by apply mild_bind]. Qed.

(** Take a computation apart; what is left are the changes of fields. *)
Ltac mild :=
  repeat first
    [ progress intros
    | solve [apply mild_quiet; quiet]
    | solve [apply mild_modproc; by intros]
    | apply mild_bind
    | match goal with |- mild (match ?x with _ => _ end) => destruct x end ].

(** ** Segments

    Process [p] runs, in the kernel: the table is well formed and [p] is RUNNING. *)
Definition ok (p : nat) (s : S) : Prop :=
  table_ok init (tab s) /\ initproc (lget s) = Some init /\ nextpid (lget s) + 1 < 2 ^ 31 /\ cur (lget s) = Some p /\
  exists q, procs (lget s) !! p = Some q /\ pstate q = RUNNING.

(** The segments of a run of process [p], of which the first started in [s0]: in each one the
    table goes through steps of the state machine.  At its end, [Q]. *)
Fixpoint segs {A} (p : nat) (s0 : S) (o : outcome S A) (Q : A -> S -> Prop) : Prop :=
  match o with
  | Ret a s' => goes_by s0 s' /\ Q a s'
  | Panic _ s' | Spin s' => goes_by s0 s'
  | Sleep _ s' k => goes_by s0 s' /\ forall s2, ok p s2 -> segs p s2 (k s2) Q
  end.

Lemma goes_table_ok s s' : goes_by s s' -> table_ok init (tab s) -> table_ok init (tab s').
Proof. intros [Hst _] Hok. eapply star_invariant; [apply tstep_ok | exact Hst | exact Hok]. Qed.

Lemma ok_near p s s' : ok p s -> near s s' -> ok p s'.
Proof.
  intros (H1 & H2 & H3 & H4 & q & Hq & Hr) Hn. pose proof Hn as (Hg & Hn2 & Hw & Hj). split_and!.
  - by eapply goes_table_ok.
  - destruct Hg as [_ ->]. done.
  - by rewrite Hn2.
  - unfold cur. by rewrite Hw.
  - destruct (Hj p q Hq) as (q' & Hq' & E & _). exists q'. by rewrite E.
Qed.

Lemma segs_lead {A} p s0 s1 (o : outcome S A) Q : goes_by s0 s1 -> segs p s1 o Q -> segs p s0 o Q.
Proof. intros Hg. destruct o; cbn; intros Ho; try (by etrans); destruct Ho; split; try done; by etrans. Qed.

Lemma segs_conseq {A} p (o : outcome S A) (Q Q' : A -> S -> Prop) : (forall a s, Q a s -> Q' a s) ->
  forall s0, segs p s0 o Q -> segs p s0 o Q'.
Proof. intros HQQ. induction o as [a s1|e s1|s1|c s1 k IH]; cbn; intros s0 Ho; try done; destruct Ho; split; auto. Qed.

Lemma segs_bind {A B} p (m : M S A) (f : A -> M S B) s0 s Q :
  segs p s0 (m s) (fun a s' => segs p s' (f a s') Q) -> segs p s0 ((m ≫= f) s) Q.
Proof.
  unfold mbind, M_bind. revert s0. induction (m s) as [a s1|e s1|s1|c s1 k IH]; cbn; intros s0 Ho; try done.
  - destruct Ho as [Hg Ho]. by eapply segs_lead.
  - destruct Ho as [Hg Ho]. split; [done|]. intros s2 H2. apply IH. by apply Ho.
Qed.

(** A part that does not sleep, somewhere in a segment. *)
Lemma segs_mild {A B} p (m : M S A) (f : A -> M S B) s0 s Q : mild m -> goes_by s0 s ->
  (forall a s', m s = Ret a s' -> near s s' -> segs p s0 (f a s') Q) -> segs p s0 ((m ≫= f) s) Q.
Proof.
  intros Hm Hg Hf. unfold mbind, M_bind. specialize (Hm s). specialize (Hf) . destruct (m s) as [a s1|e s1|s1|c s1 k] eqn:E; cbn; [|..|done].
  - by apply Hf.
  - by etrans; [|apply near_goes].
  - by etrans; [|apply near_goes].
Qed.

Lemma segs_mild_end {A} p (m : M S A) s0 s (Q : A -> S -> Prop) : mild m -> goes_by s0 s ->
  (forall a s', m s = Ret a s' -> near s s' -> Q a s') -> segs p s0 (m s) Q.
Proof.
  intros Hm Hg Hf. specialize (Hm s). destruct (m s) as [a s1|e s1|s1|c s1 k]; cbn; [split; [|by apply Hf]|..|done];
    by etrans; [|apply near_goes].
Qed.

(** Giving up the CPU. *)
Lemma segs_sched p ch s0 s (Q : unit -> S -> Prop) : goes_by s0 s -> (forall s', ok p s' -> Q tt s') -> segs p s0 (sched ch s) Q.
Proof.
  intros Hg HQQ. unfold sched. apply segs_mild; [mild | done |]. intros _ s1 _ H1.
  apply segs_mild; [mild | by etrans; [|apply near_goes] |]. intros i s2 _ H2.
  apply segs_mild; [unfold get_cpu; mild | by etrans; [|apply near_goes; etrans] |]. intros k s3 _ H3.
  unfold mbind at 1, M_bind at 1. cbn [obind segs]. split; [etrans; [exact Hg|]; apply near_goes; by repeat (etrans; [eassumption|])|].
  intros s4 H4. apply segs_mild_end; [mild | reflexivity |]. intros [] s' _ H5. apply HQQ. by eapply ok_near.
Qed.

(** A change of the table in the middle of a segment. *)
Lemma segs_mod {A} p j f (g : unit -> M S A) s0 s Q :
  segs p s0 (g tt (lset (updp j f (lget s)) s)) Q -> segs p s0 ((modproc j f ≫= g) s) Q.
Proof. done. Qed.

Lemma goes_mod s j q f : procs (lget s) !! j = Some q ->
  tstep init (tab s) (<[j := f q]> (procs (lget s)), nextpid (lget s)) -> goes_by s (lset (updp j f (lget s)) s).
Proof.
  intros Hq Ht. split; unfold ProcProof.tab in *; rewrite ?lget_lset; [|done]. cbn [procs nextpid updp set_procs].
  rewrite (ProcProof.alter_at _ _ q) by done. eapply star_step; [exact Ht | apply star_refl].
Qed.

(** The process that runs leaves the state RUNNING, and gives up the CPU. *)
Lemma segs_off p ch st s0 s (Q : unit -> S -> Prop) (g : unit -> M S unit) : ok p s -> goes_by s0 s -> st = RUNNABLE \/ st = SLEEPING ->
  (forall s', ok p s' -> segs p s' (g tt s') Q) -> segs p s0 ((modproc p (with_state st);; sched ch ≫= g) s) Q.
Proof.
  intros (_ & _ & _ & _ & q & Hq & Hr) Hg Hst HQQ. apply segs_mod, segs_bind, segs_sched; [|done]. etrans; [exact Hg|].
  apply (goes_mod _ _ q); [done|]. destruct Hst as [->| ->]; [by apply T_yield|].
  replace q with (with_chan (pchan q) q) at 1 by (by destruct q). by apply T_sleep.
Qed.

Lemma segs_sleep p ch lk s : ok p s -> segs p s (sleep ch lk s) (fun _ s' => ok p s').
Proof.
  intros Hok. unfold sleep. apply segs_mild; [mild | reflexivity |]. intros o s1 E1 H1.
  apply myproc_cur in E1. pose proof Hok as (_ & _ & _ & Hcur & _). rewrite Hcur in E1. subst o.
  apply segs_mild; [mild | by apply near_goes |]. intros _ s2 _ H2. rewrite <- H1 in H2.
  apply segs_mild; [by apply mild_modproc | by apply near_goes |]. intros _ s3 _ H3. rewrite <- H2 in H3.
  apply segs_off; [by eapply ok_near | by apply near_goes | by right |]. intros s4 H4.
  apply segs_mild; [by apply mild_modproc | reflexivity |]. intros _ s5 _ H5.
  apply segs_mild_end; [mild | by apply near_goes |]. intros _ s6 _ H6. eapply ok_near; [exact H4 | by etrans].
Qed.

Lemma segs_yield p s : ok p s -> segs p s (yield s) (fun _ s' => ok p s').
Proof.
  intros Hok. unfold yield. apply segs_mild; [mild | reflexivity |]. intros _ s1 _ H1.
  apply segs_mild; [mild | by apply near_goes |]. intros p' s2 E2 H2. rewrite <- H1 in H2.
  apply this_proc_cur in E2. pose proof (ok_near _ _ _ Hok H1) as (_ & _ & _ & Hcur & _). rewrite Hcur in E2. injection E2 as <-.
  apply segs_off; [by eapply ok_near | by apply near_goes | by left |]. intros s3 H3.
  apply segs_mild_end; [mild | reflexivity |]. intros _ s4 _ H4. by eapply ok_near.
Qed.

Lemma segs_growproc p n s : ok p s -> segs p s (growproc (T := T) n s) (fun _ _ => True).
Proof. intros _. apply segs_mild_end; [|reflexivity | done]. unfold growproc, getproc. mild. Qed.

Lemma segs_wakeup p ch s : ok p s -> segs p s (wakeup ch s) (fun _ _ => True).
Proof.
  intros _. unfold wakeup. apply segs_mild; [mild | reflexivity |]. intros _ s1 _ H1. unfold wakeup1, core_mod, lmod.
  unfold mbind, M_bind. cbn [obind]. apply segs_mild_end; [mild | | done]. etrans; [by apply near_goes|].
  split; unfold ProcProof.tab; rewrite ?lget_lset; [|done]. eapply star_step; [apply T_wake | apply star_refl].
Qed.

(** A scan, and what it found. *)
Lemma segs_scan {A} p f (g : option nat -> M S A) s0 s Q :
  (forall i q, procs (lget s) !! i = Some q -> f q = true -> segs p s0 (g (Some i) s) Q) -> segs p s0 (g None s) Q ->
  segs p s0 ((scan f ≫= g) s) Q.
Proof.
  intros HS HN. unfold scan, core_get, lgets, mbind, M_bind. cbn [obind].
  pose proof (ProcProof.find_proc_spec f (procs (lget s)) 0) as Hf. destruct (find_proc f 0 _) as [i|] eqn:E; [|exact HN].
  destruct Hf as (j & q & -> & Hj & Hq & _). by apply (HS j q).
Qed.

Lemma segs_kill p n s : ok p s -> segs p s (kill n s) (fun _ _ => True).
Proof.
  intros _. unfold kill. apply segs_mild; [mild | reflexivity |]. intros _ s1 _ H1. apply segs_scan.
  2:{ apply segs_mild_end; [mild | by apply near_goes | done]. }
  intros i q Hq _. apply segs_mod. unfold getproc, core_get, lgets, mbind at 1, M_bind at 1. cbn [obind].
  set (s2 := lset _ s1). assert (Hq2 : procs (lget s2) !! i = Some (with_killed true q)).
  { unfold s2. rewrite lget_lset. cbn [procs updp set_procs]. by rewrite list_lookup_alter_eq, Hq. }
  assert (Hg : goes_by s1 s2) by (by apply near_goes, near_mod).
  assert (Hst : pstate (getp (lget s2) i) = pstate (with_killed true q)) by (unfold getp; by rewrite Hq2). rewrite Hst.
  case_bool_decide as Hs.
  - unfold mbind at 1, M_bind at 1. cbn [obind modproc core_mod lmod]. apply segs_mild_end; [mild | | done].
    etrans; [apply near_goes, H1|]. etrans; [exact Hg|]. apply (goes_mod _ _ (with_killed true q)); [done|].
    pose proof (T_kill init (procs (lget s2)) (nextpid (lget s2)) i _ Hq2) as Ht. unfold killed_proc in Ht.
    rewrite bool_decide_eq_true_2 in Ht by done. exact Ht.
  - apply segs_mild_end; [mild | | done]. etrans; [apply near_goes, H1 | exact Hg].
Qed.

(** Several changes of one entry that together are one step. *)
Lemma goes_mods s s' j q q' : procs (lget s) !! j = Some q -> procs (lget s') = <[j := q']> (procs (lget s)) ->
  nextpid (lget s') = nextpid (lget s) -> initproc (lget s') = initproc (lget s) ->
  star (tstep init) (tab s) (<[j := q']> (procs (lget s)), nextpid (lget s)) -> goes_by s s'.
Proof. intros Hq Hp Hn Hi Ht. split; [|done]. unfold ProcProof.tab in *. by rewrite Hp, Hn. Qed.

Lemma reap_steps l n i q : l !! i = Some q -> pstate q = ZOMBIE -> parent q <> None ->
  star (tstep init) (l, n) (<[i := with_state UNUSED (with_killed false (with_name [] (with_parent None (with_pid 0 q))))]> l, n).
Proof.
  intros Hq Hz Hp. destruct (parent q) as [p|] eqn:Ep; [|done]. pose proof (lookup_lt_Some _ _ _ Hq) as Hlt.
  eapply star_step; [by eapply T_reap|]. eapply star_step; [|apply star_refl].
  replace (<[i := with_state UNUSED _]> l) with (<[i := with_kstack (kstack q) (reaped q)]> (<[i := reaped q]> l)) by (by rewrite list_insert_insert_eq).
  eapply T_private; [by rewrite list_lookup_insert_eq | done..].
Qed.

Lemma segs_reap p i q s0 s : goes_by s0 s -> procs (lget s) !! i = Some q -> pstate q = ZOMBIE -> parent q <> None ->
  segs p s0 (reap i s) (fun _ _ => True).
Proof.
  intros Hg Hq Hz Hp. unfold reap, getproc, core_get, lgets. unfold mbind at 1, M_bind at 1. cbn [obind].
  apply segs_mild; [mild | done |]. intros _ s1 _ H1.
  apply segs_mild; [by apply mild_modproc | by etrans; [|apply near_goes] |]. intros _ s2 _ H2. rewrite <- H1 in H2.
  apply segs_mild; [mild | by etrans; [|apply near_goes] |]. intros _ s3 _ H3. rewrite <- H2 in H3.
  destruct H3 as (Hg3 & _ & _ & Hj). destruct (Hj i q Hq) as (q3 & Hq3 & E1 & E2 & E3 & _).
  do 5 apply segs_mod. apply segs_mild_end; [mild | | done]. etrans; [exact Hg|]. etrans; [exact Hg3|].
  eapply (goes_mods _ _ i q3); [done | | | | apply reap_steps; [done | congruence | congruence]]; rewrite !lget_lset; [|done..].
  cbn [procs updp set_procs]. rewrite !ProcProof.alter_twice. by rewrite (ProcProof.alter_at _ _ q3).
Qed.

Lemma segs_wait_loop p n : forall s, ok p s -> segs p s (wait_loop (T := T) n p s) (fun _ _ => True).
Proof.
  induction n as [|n IH]; intros s Hok; cbn [wait_loop]; [cbn; reflexivity|]. apply segs_scan.
  - intros i q Hq Hz. unfold is_zombie_child, is_child in Hz. apply andb_true_iff in Hz as [Hp%bool_decide_eq_true Hz%bool_decide_eq_true].
    apply (segs_reap p i q); [reflexivity | done | done | congruence].
  - apply segs_mild; [mild | reflexivity |]. intros k s1 _ H1. apply segs_mild; [unfold getproc; mild | by apply near_goes |].
    intros q s2 _ H2. rewrite <- H1 in H2. destruct (_ || _); [apply segs_mild_end; [mild | by apply near_goes | done]|].
    eapply segs_lead; [by apply near_goes|]. apply segs_bind. eapply segs_conseq; [|apply segs_sleep; by eapply ok_near].
    intros a s3 H3. by apply IH.
Qed.

Lemma segs_wait p n s : ok p s -> segs p s (wait (T := T) n s) (fun _ _ => True).
Proof.
  intros Hok. unfold wait. apply segs_mild; [mild | reflexivity |]. intros p' s1 E1 H1.
  apply this_proc_cur in E1. pose proof Hok as (_ & _ & _ & Hcur & _). rewrite Hcur in E1. injection E1 as <-.
  apply segs_mild; [mild | by apply near_goes |]. intros _ s2 _ H2. rewrite <- H1 in H2.
  eapply segs_lead; [by apply near_goes|]. apply segs_wait_loop. by eapply ok_near.
Qed.

Lemma segs_exit_last p s : ok p s -> p <> init -> segs p s (exit_last (T := T) p s) (fun _ _ => False).
Proof.
  intros Hok Hne. unfold exit_last. apply segs_mild; [mild | reflexivity |]. intros _ s1 _ H1.
  pose proof (ok_near _ _ _ Hok H1) as ((Hlen & _) & Hin & _ & _ & q & Hq & Hr).
  apply (wp_lead (fun o => segs p s o (fun _ _ => False))). apply (ProcProof.wp_exit_table _ init); [done | done |].
  apply segs_bind, segs_sched.
  - etrans; [by apply near_goes|]. split; unfold ProcProof.tab, ProcProof.with_procs; rewrite lget_lset; [|done].
    cbn [procs nextpid set_procs]. eapply star_step; [by eapply T_exit | apply star_refl].
  - intros s2 H2. cbn. reflexivity.
Qed.

(** *** [fork] *)

Definition runner (p : nat) (s : S) : Prop := exists q, procs (lget s) !! p = Some q /\ pstate q = RUNNING.
Definition embryo (i : nat) (s : S) : Prop := exists q, procs (lget s) !! i = Some q /\ pstate q = EMBRYO /\ parent q = None.

Lemma near_runner p s s' : near s s' -> runner p s -> runner p s'.
Proof. intros (_ & _ & _ & Hj) (q & Hq & Hr). destruct (Hj p q Hq) as (q' & Hq' & E & _). exists q'. by rewrite E. Qed.
Lemma near_embryo i s s' : near s s' -> embryo i s -> embryo i s'.
Proof. intros (_ & _ & _ & Hj) (q & Hq & Hr & Hp). destruct (Hj i q Hq) as (q' & Hq' & E & _ & E2 & _). exists q'. split_and!; congruence. Qed.
Lemma runner_not_embryo p i s : runner p s -> embryo i s -> p <> i.
Proof. intros (q & Hq & Hr) (q' & Hq' & Hr' & _) ->. congruence. Qed.

(** The embryo is given up. *)
Lemma goes_abort i s : embryo i s -> goes_by s (lset (updp i (with_state UNUSED) (lget s)) s).
Proof. intros (q & Hq & He & Hp). apply (goes_mod _ _ q); [done|]. by apply T_abort. Qed.

(** A free slot becomes an embryo. *)
Definition taken (i : nat) (s : S) : S :=
  let s1 := lset (updp i (with_state EMBRYO) (lget s)) s in
  let n := nextpid (lget s1) in
  let s2 := lset (set_nextpid (s32 (n + 1)) (lget s1)) s1 in
  lset (updp i (with_pid n) (lget s2)) s2.

Lemma taken_spec p i q s : ok p s -> procs (lget s) !! i = Some q -> pstate q = UNUSED ->
  goes_by s (taken i s) /\ runner p (taken i s) /\ embryo i (taken i s).
Proof.
  intros (Hok & _ & Hn & _ & (r & Hr & Hrun)) Hq Hu. assert (Hne : p <> i) by (intros ->; congruence).
  pose proof (table_parent _ _ _ _ _ Hok Hq) as Hpar. unfold parent_ok in Hpar. rewrite Hu in Hpar. pose proof Hok as (_ & Hn0 & _).
  assert (Hp : procs (lget (taken i s)) = alter (fun x => with_pid (nextpid (lget s)) (with_state EMBRYO x)) i (procs (lget s))).
  { unfold taken. rewrite !lget_lset. cbn [procs updp set_procs set_nextpid]. by rewrite ProcProof.alter_twice. }
  assert (Hnp : nextpid (lget (taken i s)) = nextpid (lget s) + 1).
  { unfold taken. rewrite !lget_lset. cbn [nextpid updp set_procs set_nextpid]. apply s32_small. lia. }
  split_and!.
  - split; [|unfold taken; by rewrite !lget_lset]. unfold ProcProof.tab. rewrite Hp, Hnp, (ProcProof.alter_at _ _ q) by done.
    eapply star_step; [by eapply T_alloc | apply star_refl].
  - exists r. by rewrite Hp, list_lookup_alter_ne by done.
  - eexists. rewrite Hp, list_lookup_alter_eq, Hq. by split_and!.
Qed.

Lemma segs_allocproc p s : ok p s ->
  segs p s (allocproc forkret_addr trapret_addr s) (fun r s' => runner p s' /\ match r with Some i => embryo i s' | None => True end).
Proof.
  intros Hok. unfold allocproc. apply segs_mild; [mild | reflexivity |]. intros _ s1 _ H1. pose proof (ok_near _ _ _ Hok H1) as Hok1.
  apply segs_scan.
  2:{ apply segs_mild_end; [mild | by apply near_goes |]. intros r s2 E2 H2. apply bind_ret_inv in E2 as (u & s3 & _ & [= <- _]).
    split; [|done]. eapply near_runner; [exact H2|]. apply Hok1. }
  intros i q Hq Hu%bool_decide_eq_true. destruct (taken_spec p i q s1 Hok1 Hq Hu) as (Hg & Hrun & Hemb).
  assert (Hg' : goes_by s (taken i s1)) by (by etrans; [apply near_goes|]).
  apply segs_mod. unfold core_get, core_mod, lgets, lmod. unfold mbind at 1, M_bind at 1. cbn [obind].
  unfold mbind at 1, M_bind at 1. cbn [obind]. apply segs_mod.
  match goal with |- segs _ _ (?m ?x) _ => change x with (taken i s1) end.
  apply segs_mild; [mild | done |]. intros _ s2 _ H2.
  apply segs_mild; [mild | by etrans; [|apply near_goes] |]. intros k s3 _ H3. rewrite <- H2 in H3.
  apply segs_mild; [by apply mild_modproc | by etrans; [|apply near_goes] |]. intros _ s4 _ H4. rewrite <- H3 in H4.
  destruct (k =? 0).
  - apply segs_mod. unfold mret, M_ret. cbn [segs]. split; [|split; [|done]].
    + etrans; [exact Hg'|]. etrans; [by apply near_goes|]. by eapply goes_abort, near_embryo.
    + destruct (near_runner _ _ _ H4 Hrun) as (r & Hr & Hst). pose proof (runner_not_embryo _ _ _ (near_runner _ _ _ H4 Hrun) (near_embryo _ _ _ H4 Hemb)).
      exists r. rewrite lget_lset. cbn [procs updp set_procs]. by rewrite list_lookup_alter_ne by done.
  - apply segs_mild_end; [unfold setup_stack; mild | by etrans; [|apply near_goes] |]. intros r s5 E5 H5.
    apply bind_ret_inv in E5 as (u & s6 & _ & [= <- _]). rewrite <- H4 in H5. split; [by eapply near_runner | by eapply near_embryo].
Qed.

Definition adopted (i : nat) (s : S) : Prop := exists q, procs (lget s) !! i = Some q /\ pstate q = EMBRYO /\ parent q <> None.

Lemma near_adopted i s s' : near s s' -> adopted i s -> adopted i s'.
Proof. intros (_ & _ & _ & Hj) (q & Hq & Hr & Hp). destruct (Hj i q Hq) as (q' & Hq' & E & _ & E2 & _). exists q'. split_and!; congruence. Qed.

Lemma goes_adopt p i s : runner p s -> embryo i s ->
  let s' := lset (updp i (with_parent (Some p)) (lget s)) s in goes_by s s' /\ adopted i s'.
Proof.
  intros (r & Hr & Hrun) (q & Hq & He & _). split.
  - apply (goes_mod _ _ q); [done|]. by eapply T_adopted.
  - exists (with_parent (Some p) q). rewrite lget_lset. cbn [procs updp set_procs]. by rewrite list_lookup_alter_eq, Hq.
Qed.

Lemma mild_dup_file p i fd : mild (dup_file (T := T) p i fd).
Proof.
  unfold dup_file, getproc. apply mild_bind; [mild|]. intros q. destruct (ofile q !! fd) as [[f|]|]; [|mild..].
  apply mild_bind; [mild|]. intros g. apply mild_modproc. intros k. split_and!; try done. apply length_insert.
Qed.

(** The last part of [fork], with the child in the table. *)
Lemma segs_ready {A} p i s0 s (a : A) : goes_by s0 s -> adopted i s ->
  segs p s0 ((acquire L_ptable;; modproc i (with_state RUNNABLE);; release L_ptable;; mret a) s) (fun _ _ => True).
Proof.
  intros Hg Ha. apply segs_mild; [mild | done |]. intros _ s1 _ H1. apply segs_mod.
  destruct (near_adopted _ _ _ H1 Ha) as (q & Hq & He & Hp).
  apply segs_mild_end; [mild | | done]. etrans; [exact Hg|]. etrans; [by apply near_goes|]. apply (goes_mod _ _ q); [done|]. by apply T_ready.
Qed.

Lemma segs_mild_adopted {A B} p i (m : M S A) (f : A -> M S B) s0 s Q : mild m -> goes_by s0 s -> adopted i s ->
  (forall a s', goes_by s0 s' -> adopted i s' -> segs p s0 (f a s') Q) -> segs p s0 ((m ≫= f) s) Q.
Proof.
  intros Hm Hg Ha Hf. apply segs_mild; [done | done |]. intros a s' _ Hn. apply Hf; [by etrans; [|apply near_goes] | by eapply near_adopted].
Qed.

Lemma segs_fork_rest p i q s0 s : goes_by s0 s -> adopted i s ->
  segs p s0 ((modproc i (with_tf (tf q));;
    modproc i (fun k => with_tf (with_eax 0 (tf k)) k);;
    for_each (dup_file (T := T) p i) (seq 0 NOFILE);;
    q ← getproc p;
    ip ← (match cwd q with Some i => Fs.idup (T := T) i | None => panic "trap" end);
    modproc i (with_cwd (Some ip));;
    modproc i (with_name (set_name (pname q)));;
    k ← getproc i;
    let n := pid k in
    acquire L_ptable;; modproc i (with_state RUNNABLE);; release L_ptable;; mret n) s) (fun _ _ => True).
Proof.
  intros Hg Ha. generalize (seq 0 NOFILE) as l. intros l. unfold getproc.
  do 2 (apply (segs_mild_adopted _ i); [by apply mild_modproc | done | done |]; clear s Hg Ha; intros _ s Hg Ha).
  apply (segs_mild_adopted _ i); [apply mild_for, mild_dup_file | done | done |]. clear s Hg Ha. intros _ s Hg Ha.
  apply (segs_mild_adopted _ i); [mild | done | done |]. clear s Hg Ha. intros q' s Hg Ha.
  apply (segs_mild_adopted _ i); [mild | done | done |]. clear s Hg Ha. intros ip s Hg Ha.
  do 2 (apply (segs_mild_adopted _ i); [by apply mild_modproc | done | done |]; clear s Hg Ha; intros _ s Hg Ha).
  apply (segs_mild_adopted _ i); [mild | done | done |]. clear s Hg Ha. intros k s Hg Ha. cbv zeta. by apply segs_ready.
Qed.

Lemma segs_fork p s : ok p s -> segs p s (fork (T := T) kdata forkret_addr trapret_addr s) (fun _ _ => True).
Proof.
  intros Hok. unfold fork, getproc. apply segs_mild; [mild | reflexivity |]. intros p' s1 E1 H1.
  apply this_proc_cur in E1. pose proof Hok as (_ & _ & _ & Hcur & _). rewrite Hcur in E1. injection E1 as <-.
  eapply segs_lead; [by apply near_goes|]. apply segs_bind. eapply segs_conseq; [|apply segs_allocproc; by eapply ok_near].
  intros r s2 [Hrun Hemb]. destruct r as [i|]; [|by split; [reflexivity|]].
  apply segs_mild; [mild | reflexivity |]. intros q s3 _ H3.
  apply segs_mild; [mild | by apply near_goes |]. intros d s4 _ H4. rewrite <- H3 in H4.
  apply segs_mild; [by apply mild_modproc | by apply near_goes |]. intros _ s5 _ H5. rewrite <- H4 in H5. destruct (d =? 0).
  - apply segs_mild; [mild | by apply near_goes |]. intros k s6 _ H6. rewrite <- H5 in H6.
    apply segs_mild; [mild | by apply near_goes |]. intros _ s7 _ H7. rewrite <- H6 in H7.
    apply segs_mild; [by apply mild_modproc | by apply near_goes |]. intros _ s8 _ H8. rewrite <- H7 in H8.
    apply segs_mod. unfold mret, M_ret. cbn [segs]. split; [|done]. etrans; [by apply near_goes|]. by eapply goes_abort, near_embryo.
  - apply segs_mild; [mild | by apply near_goes |]. intros q' s6 _ H6. rewrite <- H5 in H6.
    apply segs_mild; [by apply mild_modproc | by apply near_goes |]. intros _ s7 _ H7. rewrite <- H6 in H7.
    apply segs_mod. destruct (goes_adopt p i s7) as [Hg Had]; [by eapply near_runner | by eapply near_embryo |].
    eapply segs_fork_rest; [by etrans; [apply near_goes|] | exact Had].
Qed.

(** ** The kernel as a whole *)

(** What a process calls in the kernel. *)
Inductive kcall : Type :=
| C_fork | C_wait (n : nat) | C_yield | C_kill (n : Z) | C_grow (n : Z) | C_sleep (ch : chan) (lk : lockid) | C_wakeup (ch : chan).

Definition run (c : kcall) : M S Z :=
  match c with
  | C_fork => fork (T := T) kdata forkret_addr trapret_addr
  | C_wait n => wait (T := T) n
  | C_yield => yield;; mret 0
  | C_kill n => kill n
  | C_grow n => growproc (T := T) n
  | C_sleep ch lk => sleep ch lk;; mret 0
  | C_wakeup ch => wakeup ch;; mret 0
  end.

Lemma segs_run p c s : ok p s -> segs p s (run c s) (fun _ _ => True).
Proof.
  intros Hok. assert (Hret : forall m : M S unit, segs p s (m s) (fun _ _ => True) -> segs p s ((m;; mret 0) s) (fun _ _ => True)).
  { intros m Hm. apply segs_bind. eapply segs_conseq; [|exact Hm]. intros a s' _. split; [reflexivity | done]. }
  assert (HW : forall o : outcome S unit, segs p s o (fun _ s' => ok p s') -> segs p s o (fun _ _ => True)) by (intros o; by apply segs_conseq).
  destruct c; cbn [run]; [by apply segs_fork | by apply segs_wait | by apply Hret, HW, segs_yield | by apply segs_kill | by apply segs_growproc
    | by apply Hret, HW, segs_sleep | by apply Hret, segs_wakeup].
Qed.

(** The state, and for each process that has given up the CPU in the kernel the rest of its call. *)
Record kernel : Type := { st : S; susp : nat -> option (S -> outcome S Z) }.

Definition end_state {A} (o : outcome S A) : S := match o with Ret _ s | Panic _ s | Spin s | Sleep _ s _ => s end.

(** A segment of process [p] has ended in [o]. *)
Definition settle (p : nat) (m : kernel) (o : outcome S Z) : kernel :=
  {| st := end_state o;
     susp := fun j => if decide (j = p) then match o with Sleep _ _ k => Some k | _ => None end else susp m j |}.

(** Everything else, in the kernel, in user mode and on other CPUs: the table may change in the
    private fields of one process. *)
Definition elsewhere (s s' : S) : Prop :=
  nextpid (lget s') = nextpid (lget s) /\ initproc (lget s') = initproc (lget s) /\
  (procs (lget s') = procs (lget s) \/
   exists j q q', procs (lget s) !! j = Some q /\ like q q' /\ procs (lget s') = <[j := q']> (procs (lget s))).

(** Process [p] runs and ids are left for new processes. *)
Definition running (p : nat) (s : S) : Prop := cur (lget s) = Some p /\ pstate (getp (lget s) p) = RUNNING /\ nextpid (lget s) + 1 < 2 ^ 31.

Inductive kstep : kernel -> kernel -> Prop :=
| K_call m p c : susp m p = None -> running p (st m) -> kstep m (settle p m (run c (st m)))
| K_exit m p : susp m p = None -> running p (st m) -> initproc (lget (st m)) <> Some p ->
    kstep m {| st := end_state (exit_last (T := T) p (st m)); susp := susp m |}
| K_switch m c p ch s1 k1 : find_cpu (hw_apicid (lget (st m))) (cpus (lget (st m))) = Some c -> nextpid (lget (st m)) + 1 < 2 ^ 31 ->
    sched_proc (T := T) c p (st m) = Sleep ch s1 k1 ->
    kstep m (match susp m p with Some k => settle p m (k s1) | None => {| st := s1; susp := susp m |} end)
| K_elsewhere m s' : elsewhere (st m) s' -> kstep m {| st := s'; susp := susp m |}.

Definition kinv (m : kernel) : Prop :=
  table_ok init (tab (st m)) /\ initproc (lget (st m)) = Some init /\
  forall p k, susp m p = Some k -> forall s2, ok p s2 -> segs p s2 (k s2) (fun _ _ => True).

Lemma segs_end {A} p s0 (o : outcome S A) Q : segs p s0 o Q -> goes_by s0 (end_state o).
Proof. destruct o; cbn; naive_solver. Qed.

Lemma kinv_settle m p s0 o : kinv m -> goes_by (st m) s0 -> segs p s0 o (fun _ _ => True) ->
  kinv (settle p m o) /\ goes_by (st m) (st (settle p m o)).
Proof.
  intros (H1 & H2 & H3) Hg Ho. assert (Hg2 : goes_by (st m) (end_state o)) by (by etrans; [|eapply segs_end]). split; [|done].
  split_and!; cbn [settle st susp]; [by eapply goes_table_ok | destruct Hg2 as [_ ->]; done |].
  intros j k Hj. case_decide; [subst j | by apply H3]. destruct o; try done. injection Hj as <-. by destruct Ho.
Qed.

Lemma running_ok m p : kinv m -> running p (st m) -> ok p (st m).
Proof.
  intros (H1 & H2 & _) (Hc & Hr & Hn). split_and!; try done. unfold getp in Hr. destruct (procs (lget (st m)) !! p) as [q|]; [by exists q | done].
Qed.

Lemma elsewhere_goes s s' : elsewhere s s' -> goes_by s s'.
Proof.
  intros (Hn & Hi & Hp). split; [|done]. unfold ProcProof.tab. rewrite Hn. destruct Hp as [->|(j & q & q' & Hq & (? & ? & ? & ?) & ->)]; [apply star_refl|].
  eapply star_step; [by eapply T_private | apply star_refl].
Qed.

(** The scheduler switches to a runnable process only, which is then the one that runs. *)
Lemma sched_proc_runs c p s ch s1 k1 : table_ok init (tab s) -> initproc (lget s) = Some init ->
  find_cpu (hw_apicid (lget s)) (cpus (lget s)) = Some c -> nextpid (lget s) + 1 < 2 ^ 31 ->
  sched_proc (T := T) c p s = Sleep ch s1 k1 -> goes_by s s1 /\ ok p s1.
Proof.
  intros Hok Hin Hc Hn. unfold sched_proc, getproc, core_get, lgets. unfold mbind at 1, M_bind at 1. cbn [obind].
  case_bool_decide as Hr; cbn [negb]; [|done]. set (s2 := lset (set_cpus (alter (set_cproc (Some p)) c (cpus (lget s))) (lget s)) s).
  unfold mbind at 1, M_bind at 1. change (obind (mod_cpu c (set_cproc (Some p)) s) ?f) with (f tt s2). cbv beta.
  assert (Hs2 : lget s2 = set_cpus (alter (set_cproc (Some p)) c (cpus (lget s))) (lget s)) by apply lget_lset.
  assert (Hcur : cur (lget s2) = Some p).
  { destruct (find_cpu_lookup _ _ _ Hc) as [k Hk]. rewrite Hs2. apply (cur_cpu _ c (set_cproc (Some p) k)).
    - cbn [hw_apicid cpus set_cpus]. by apply find_cpu_alter.
    - cbn [cpus set_cpus]. by rewrite list_lookup_alter_eq, Hk. }
  unfold mbind at 1, M_bind at 1. pose proof (quiet_switchuvm (S := S) (Some p) s2) as Hq.
  destruct (switchuvm (Some p) s2) as [a s3|e s3|s3|ch' s3 k] eqn:E; try done. cbn [obind]. intros [= _ <- _].
  pose proof Hq as (Hp3 & Hn3 & Hi3 & Hw3). rewrite Hs2 in Hp3, Hn3, Hi3. cbn [procs nextpid initproc set_cpus] in Hp3, Hn3, Hi3.
  unfold getp in Hr. destruct (procs (lget s) !! p) as [q|] eqn:Eq; [|done]. cbn in Hr.
  set (s4 := lset (updp p (with_state RUNNING) (lget s3)) s3). change (goes_by s s4 /\ ok p s4).
  assert (Hs4 : lget s4 = updp p (with_state RUNNING) (lget s3)) by apply lget_lset.
  assert (Hp4 : procs (lget s4) = <[p := with_state RUNNING q]> (procs (lget s))).
  { rewrite Hs4. cbn [procs updp set_procs]. rewrite Hp3. by rewrite (ProcProof.alter_at _ _ q). }
  assert (Hg : goes_by s s4).
  { eapply (goes_mods _ _ p q); [done | done | by rewrite Hs4 | by rewrite Hs4 |]. eapply star_step; [by apply T_run | apply star_refl]. }
  split; [done|]. split_and!; [by eapply goes_table_ok | by rewrite Hs4; cbn [initproc updp set_procs]; rewrite Hi3
    | by rewrite Hs4; cbn [nextpid updp set_procs]; rewrite Hn3 | |].
  - rewrite Hs4. change (cur (updp p (with_state RUNNING) (lget s3))) with (cur (lget s3)). by rewrite (cur_still _ _ Hq).
  - exists (with_state RUNNING q). rewrite Hp4, list_lookup_insert_eq by (by eapply lookup_lt_Some). done.
Qed.

Lemma kstep_inv m m' : kinv m -> kstep m m' -> kinv m' /\ goes_by (st m) (st m').
Proof.
  intros HI Hs. pose proof HI as (H1 & H2 & H3). destruct Hs as [m p c Hp Hr|m p Hp Hr Hne|m c p ch s1 k1 Hc Hn E|m s' He].
  - apply (kinv_settle _ _ (st m)); [done | reflexivity |]. by apply segs_run, running_ok.
  - assert (Hg : goes_by (st m) (end_state (exit_last (T := T) p (st m)))).
    { eapply segs_end, segs_exit_last; [by apply running_ok | congruence]. }
    split; [|done]. split_and!; cbn [st susp]; [by eapply goes_table_ok | destruct Hg as [_ ->]; done | done].
  - destruct (sched_proc_runs c p (st m) ch s1 k1 H1 H2 Hc Hn E) as [Hg Hok]. destruct (susp m p) as [k|] eqn:Ek.
    + apply (kinv_settle _ _ s1); [done | done |]. by apply (H3 p k).
    + split; [|done]. split_and!; cbn [st susp]; [by eapply goes_table_ok | destruct Hg as [_ ->]; done | done].
  - apply elsewhere_goes in He. split; [|done]. split_and!; cbn [st susp]; [by eapply goes_table_ok | destruct He as [_ ->]; done | done].
Qed.

Lemma ksteps_inv m m' : star kstep m m' -> kinv m -> kinv m' /\ goes_by (st m) (st m').
Proof.
  intros Hs. induction Hs as [m|m1 m2 m3 H1 H2 IH]; intros HI; [by split; [|reflexivity]|].
  destruct (kstep_inv _ _ HI H1) as [HI2 Hg2]. destruct (IH HI2) as [HI3 Hg3]. split; [done | by etrans].
Qed.

(** C13: in a kernel that starts with a well-formed process table, processes that run call [fork],
    [wait], [yield], [kill], [growproc], [sleep] and [wakeup], and the last part of [exit], in any
    order and with any arguments; each call runs until it returns or gives up the CPU; the scheduler
    switches to runnable processes, which go on with the rest of their calls; and anything else may
    happen in between that changes at most the private fields of processes.  As long as the process
    ids do not run out, the table stays well formed: it has [NPROC] entries, the in-use ones have
    different positive ids below the next one, each has its [NOFILE] descriptors, free slots have no
    parent, the first process is alive, and every other process that has started, in particular every
    zombie, has a parent that is alive and can wait for it.  And the table has only gone through the
    transitions of the life of a process. *)
Theorem process_table_invariant m0 m :
  table_ok init (tab (st m0)) -> initproc (lget (st m0)) = Some init -> (forall p, susp m0 p = None) -> star kstep m0 m ->
  table_ok init (tab (st m)) /\ star (tstep init) (tab (st m0)) (tab (st m)).
Proof.
  intros H1 H2 H3 Hs. assert (HI : kinv m0) by (split_and!; [done | done | intros p k Hp; by rewrite H3 in Hp]).
  destruct (ksteps_inv m0 m Hs HI) as [(Hok & _) [Hg _]]. by split.
Qed.

End Procs.

(** ** The first process yields and is scheduled again *)

Section Example.
Abbreviation ks := (core * Sleeplock.slocktab)%type.
Abbreviation sys := (ks * (ram * (Vm.vmvars * (Kalloc.kmem * (File.ftable * (Fs.icache * (superblock * Pipe.pipetab)))))))%type.
#[local] Instance no_tx : TxLayer ks := {|
  tx_bread _ _ := spin; tx_brelse _ := spin; tx_data _ := spin; tx_setdata _ _ := spin; tx_log_write _ := spin |}.
#[local] Instance no_bounds : TxBounds ks := {| tx_begin := spin; tx_end := spin; tx_init _ := spin |}.
#[local] Instance no_dev : Fs.DevSw sys := {| Fs.dev_read _ := None; Fs.dev_write _ := None |}.
#[local] Hint Extern 0 (Lens sys core) => exact (Proc.core_lens (T := ks)) : typeclass_instances.
#[local] Instance pages : PageAlloc sys := Kalloc.kalloc_PageAlloc 0x80200000.
#[local] Instance pages_quiet : QuietPages sys.
Proof. apply kalloc_quiet. Qed.

Definition first_proc : proc := with_kstack 0x80300000 (with_pgdir 0x80301000 (with_state RUNNING boot_entry)).
Definition up : core :=
  {| hw_apicid := 7; hw_if := true; cpus := [{| apicid := 7; ncli := 0; intena := true; cproc := Some 0%nat |}];
     locks := fun _ => {| locked := false; lcpu := None |}; procs := <[0%nat := first_proc]> boot_table.1; nextpid := 2; initproc := Some 0%nat |}.
Definition up_state : sys :=
  ((up, {| Sleeplock.sl_of := fun _ => {| Sleeplock.slocked := false; Sleeplock.spid := 0 |} |}),
   ({| ram_bytes := ∅ |}, ({| Vm.kpgdir := 0x80302000; Vm.cr3 := 0x301000; Vm.esp0 := 0 |}, ({| Kalloc.use_lock := true; Kalloc.freelist := 0 |},
    ({| File.file_of _ := {| File.type := File.FD_NONE; File.ref := 0; File.readable := false; File.writable := false; File.fpipe := 0;
          File.fip := 0; File.off := 0 |} |},
     ({| Fs.inode_of := fun _ => Fs.get_dinode [] {| Fs.idev := 0; Fs.inum := 0; Fs.iref := 0; Fs.ivalid := false; Fs.itype := 0;
           Fs.imajor := 0; Fs.iminor := 0; Fs.inlink := 0; Fs.isize := 0; Fs.iaddrs := [] |} |},
      (decode_sb [], {| Pipe.pipe_of := fun _ => Pipe.ring |}))))))).

Lemma up_ok : table_ok 0 (<[0%nat := first_proc]> boot_table.1, 2).
Proof.
  eapply tstep_ok; [exact ProcProof.booted_ok|].
  replace (<[0%nat := first_proc]> boot_table.1) with (<[0%nat := first_proc]> (<[0%nat := with_state RUNNING boot_entry]> boot_table.1)) by done.
  by eapply T_private.
Qed.

Definition running_kernel : kernel (S := sys) := {| st := up_state; susp := fun _ => None |}.
(** After [yield] has given up the CPU; after the scheduler has scheduled it. *)
Definition yielded : kernel (S := sys) := settle 0 running_kernel (run (T := ks) 0 0 0 C_yield up_state).
Definition scheduled : kernel (S := sys) :=
  match sched_proc (T := ks) 0 0 (st yielded) with
  | Sleep _ s1 _ => match susp yielded 0%nat with Some k => settle 0 yielded (k s1) | None => {| st := s1; susp := susp yielded |} end
  | _ => yielded
  end.

Lemma process_table_invariant_witness :
  pstate (getp (st yielded).1.1 0) = RUNNABLE /\ pstate (getp (st scheduled).1.1 0) = RUNNING /\
  table_ok 0 (ProcProof.tab (S := sys) (T := ks) (st scheduled)).
Proof.
  split; [vm_compute; reflexivity|]. split; [vm_compute; reflexivity|].
  assert (H1 : kstep (S := sys) (T := ks) 0 0 0 running_kernel yielded).
  { apply (K_call _ _ _ running_kernel 0 C_yield); [reflexivity | split_and!; vm_compute; reflexivity]. }
  assert (H2 : kstep (S := sys) (T := ks) 0 0 0 yielded scheduled).
  { assert (Hs : match sched_proc (T := ks) 0 0 (st yielded) with Sleep _ _ _ => true | _ => false end = true) by (vm_compute; reflexivity).
    unfold scheduled. destruct (sched_proc (T := ks) 0 0 (st yielded)) as [a s1|e s1|s1|ch s1 k1] eqn:E; [discriminate Hs .. |].
    eapply (K_switch _ _ _ yielded 0 0 ch s1 k1); [vm_compute; reflexivity | vm_compute; reflexivity | exact E]. }
  destruct (process_table_invariant (S := sys) (T := ks) 0 0 0 0 running_kernel scheduled) as [H3 _];
    [exact up_ok | reflexivity | reflexivity | by eapply star_step, star_step, star_refl | exact H3].
Defined.

End Example.

End ProcRun.
