(* ===== verification/Sh.v ===== *)
(** * The shell: sh.c

    The parser works on the bytes of a line; a [char] pointer into the line is its
    offset with the bytes from there to the end [es], and a token is the pair of its
    start and end offsets.  Running a command is a program of system calls: [fork]
    has a child and a parent branch, [exec] and [exit] end a branch. *)

From stdpp Require Import base gmap list strings.
From Stdlib Require Import ZArith Lia.
From S2P Require Import Prelude.

Module Sh.

Definition MAXARGS : nat := 10.
Definition O_RDONLY : Z := 0.
Definition O_WRONLY : Z := 1.
Definition O_RDWR : Z := 2.
Definition O_CREATE : Z := 0x200.

(** The five kinds of commands; [A] is what stands for a string. *)
Inductive cmd (A : Type) : Type :=
| EXEC (argv : list A)
| REDIR (c : cmd A) (file : A) (mode fd : Z)
| PIPE (left right : cmd A)
| LIST (left right : cmd A)
| BACK (c : cmd A).
Arguments EXEC {A} _.
Arguments REDIR {A} _ _ _ _.
Arguments PIPE {A} _ _.
Arguments LIST {A} _ _.
Arguments BACK {A} _.

Fixpoint cmd_map {A B} (f : A -> B) (c : cmd A) : cmd B :=
  match c with
  | EXEC l => EXEC (f <$> l)
  | REDIR c a m d => REDIR (cmd_map f c) (f a) m d
  | PIPE l r => PIPE (cmd_map f l) (cmd_map f r)
  | LIST l r => LIST (cmd_map f l) (cmd_map f r)
  | BACK c => BACK (cmd_map f c)
  end.

(** ** Tokens *)

Abbreviation ptr := (nat * list Z)%type.
Abbreviation tok := (nat * nat)%type.

Definition whitespace : list Z := [32; 9; 13; 10; 11].
Definition symbols : list Z := bytes_of_string "<|>&;()".

(** [strchr] finds [c] in a list of bytes without NUL. *)
Definition chr_in (l : list Z) (c : Z) : bool := existsb (Z.eqb c) l.

Fixpoint skip_while (f : Z -> bool) (i : nat) (l : list Z) : ptr :=
  match l with
  | c :: l' => if f c then skip_while f (S i) l' else (i, l)
  | [] => (i, l)
  end.
Definition skip_ws (p : ptr) : ptr := skip_while (chr_in whitespace) p.1 p.2.
Definition skip_word (p : ptr) : ptr :=
  skip_while (fun c => negb (chr_in whitespace c) && negb (chr_in symbols c)) p.1 p.2.

Definition ch_gt : Z := 62.
Definition ch_plus : Z := 43.
Definition ch_a : Z := 97.

(** The kind of the token, its bounds, and the pointer behind it. *)
Definition gettoken (p : ptr) : Z * tok * ptr :=
  let s := skip_ws p in
  let '(ret, e) :=
    match s.2 with
    | [] => (0, s)
    | c :: r =>
        if chr_in (bytes_of_string "|();&<") c then (c, (S s.1, r))
        else if c =? ch_gt then
          match r with
          | d :: r' => if d =? ch_gt then (ch_plus, (S (S s.1), r')) else (ch_gt, (S s.1, r))
          | [] => (ch_gt, (S s.1, r))
          end
        else (ch_a, skip_word s)
    end in
  (ret, (s.1, e.1), skip_ws e).

Definition peek (p : ptr) (toks : string) : bool * ptr :=
  let s := skip_ws p in
  (match s.2 with [] => false | c :: _ => chr_in (bytes_of_string toks) c end, s).

(** ** Parsing *)

(** [panic] ends the process with a message; [Oof] is running out of fuel. *)
Inductive res (A : Type) : Type :=
| Ok (a : A)
| Err (msg : string)
| Oof.
Arguments Ok {A} _.
Arguments Err {A} _.
Arguments Oof {A}.

#[export] Instance res_ret : MRet res := @Ok.
#[export] Instance res_bind : MBind res := fun A B f r =>
  match r with Ok a => f a | Err e => Err e | Oof => Oof end.

(** A redirection: file, mode and descriptor. *)
Abbreviation redir := (tok * Z * Z)%type.
Definition redircmd {A} (c : cmd A) (r : A * Z * Z) : cmd A := REDIR c r.1.1 r.1.2 r.2.
Definition wrap {A} (c : cmd A) (rs : list (A * Z * Z)) : cmd A := fold_left redircmd rs c.

(** The loop of [parseredirs]: the redirections it adds around the command. *)
Fixpoint redirs (fuel : nat) (p : ptr) : res (list redir * ptr) :=
  match fuel with
  | O => Oof
  | S f =>
      let '(b, p) := peek p "<>" in
      if (b : bool) then
        let '(t, _, p) := gettoken p in
        let '(t2, w, p) := gettoken p in
        if negb (t2 =? ch_a) then Err "missing file for redirection"
        else
          let r := if t =? 60 then (w, O_RDONLY, 0) else (w, Z.lor O_WRONLY O_CREATE, 1) in
          '(rs, p) ← redirs f p;
          mret (r :: rs, p)
      else mret ([], p)
  end.
Definition len (p : ptr) : nat := length p.2.
Definition parseredirs (c : cmd tok) (p : ptr) : res (cmd tok * ptr) :=
  '(rs, p) ← redirs (S (len p)) p; mret (wrap c rs, p).

(** The loop of [parseexec]: the arguments, and the redirections around the command,
    which is filled in place. *)
Fixpoint args (fuel : nat) (p : ptr) (argv : list tok) (rs : list redir) : res (list tok * list redir * ptr) :=
  match fuel with
  | O => Oof
  | S f =>
      let '(b, p) := peek p "|)&;" in
      if (b : bool) then mret (argv, rs, p)
      else
        let '(t, w, p) := gettoken p in
        if t =? 0 then mret (argv, rs, p)
        else if negb (t =? ch_a) then Err "syntax"
        else
          let argv := argv ++ [w] in
          if (MAXARGS <=? length argv)%nat then Err "too many args"
          else
            '(rs', p) ← redirs (S (len p)) p;
            args f p argv (rs ++ rs')
  end.

(** The [while] loop of [parseline]. *)
Fixpoint backs (fuel : nat) (c : cmd tok) (p : ptr) : res (cmd tok * ptr) :=
  match fuel with
  | O => Oof
  | S f =>
      let '(b, p) := peek p "&" in
      if (b : bool) then let '(_, _, p) := gettoken p in backs f (BACK c) p
      else mret (c, p)
  end.

Fixpoint parseline (fuel : nat) (p : ptr) : res (cmd tok * ptr) :=
  match fuel with
  | O => Oof
  | S f =>
      '(c, p) ← parsepipe f p;
      '(c, p) ← backs (S (len p)) c p;
      let '(b, p) := peek p ";" in
      if (b : bool) then
        let '(_, _, p) := gettoken p in
        '(r, p) ← parseline f p;
        mret (LIST c r, p)
      else mret (c, p)
  end
with parsepipe (fuel : nat) (p : ptr) : res (cmd tok * ptr) :=
  match fuel with
  | O => Oof
  | S f =>
      '(c, p) ← parseexec f p;
      let '(b, p) := peek p "|" in
      if (b : bool) then
        let '(_, _, p) := gettoken p in
        '(r, p) ← parsepipe f p;
        mret (PIPE c r, p)
      else mret (c, p)
  end
with parseexec (fuel : nat) (p : ptr) : res (cmd tok * ptr) :=
  match fuel with
  | O => Oof
  | S f =>
      let '(b, p) := peek p "(" in
      if (b : bool) then parseblock f p
      else
        '(rs, p) ← redirs (S (len p)) p;
        '(argv, rs, p) ← args (S (len p)) p [] rs;
        mret (wrap (EXEC argv) rs, p)
  end
with parseblock (fuel : nat) (p : ptr) : res (cmd tok * ptr) :=
  match fuel with
  | O => Oof
  | S f =>
      let '(b, p) := peek p "(" in
      if negb b then Err "parseblock"
      else
        let '(_, _, p) := gettoken p in
        '(c, p) ← parseline f p;
        let '(b, p) := peek p ")" in
        if negb b then Err "syntax - missing )"
        else
          let '(_, _, p) := gettoken p in
          parseredirs c p
  end.

(** A NUL is stored at the end of every string. *)
Definition store_nul (b : list Z) (w : tok) : list Z := <[w.2 := 0]> b.
Fixpoint nulterminate (c : cmd tok) (b : list Z) : list Z :=
  match c with
  | EXEC argv => fold_left store_nul argv b
  | REDIR c f _ _ => store_nul (nulterminate c b) f
  | PIPE l r => nulterminate r (nulterminate l b)
  | LIST l r => nulterminate r (nulterminate l b)
  | BACK c => nulterminate c b
  end.

(** The command and the buffer, in which the strings now end. *)
Definition parsecmd (s : list Z) : res (cmd tok * list Z) :=
  '(c, p) ← parseline (4 * length s + 4) (O, s);
  let '(_, p) := peek p "" in
  match p.2 with
  | [] => mret (c, nulterminate c (s ++ [0]))
  | _ => Err "syntax"
  end.

(** The C string at an offset. *)
Fixpoint cstr_of (l : list Z) : list Z :=
  match l with
  | [] => []
  | c :: l' => if c =? 0 then [] else c :: cstr_of l'
  end.
Definition string_at (b : list Z) (w : tok) : list Z := cstr_of (drop w.1 b).

(** What a command line means, with its strings. *)
Definition parse (s : list Z) : res (cmd (list Z)) :=
  '(c, b) ← parsecmd s; mret (cmd_map (string_at b) c).

Example parse_demo :
  parse (bytes_of_string "grep x <f|(wc;cat)>out &") =
  Ok (BACK (PIPE (REDIR (EXEC [bytes_of_string "grep"; bytes_of_string "x"]) (bytes_of_string "f") 0 0)
        (REDIR (LIST (EXEC [bytes_of_string "wc"]) (EXEC [bytes_of_string "cat"])) (bytes_of_string "out") 0x201 1))).
Proof. vm_compute. reflexivity. Qed.

(** ** Running commands *)

(** What a shell process does: system calls with the continuations for their results. *)
Inductive prog : Type :=
| PExit
| PExec (argv : list (list Z)) (failed : prog)
| PFork (k : Z -> prog)
| PWait (k : prog)
| PClose (fd : Z) (k : prog)
| PDup (fd : Z) (k : prog)
| POpen (file : list Z) (mode : Z) (k : Z -> prog)
| PPipe (k : option (Z * Z) -> prog)
| PChdir (dir : list Z) (k : Z -> prog)
| PPrint (fd : Z) (bytes : list Z) (k : prog)
| PGets (n : nat) (k : list Z -> prog).

(** [panic] of the shell *)
Definition sh_panic (s : string) : prog := PPrint 2 (bytes_of_string s ++ [ch_nl]) PExit.

(** The child and the parent branch of [fork1]. *)
Definition fork1 (child parent : prog) : prog :=
  PFork (fun pid => if pid =? -1 then sh_panic "fork" else if pid =? 0 then child else parent).

Fixpoint runcmd (c : cmd (list Z)) : prog :=
  match c with
  | EXEC [] => PExit
  | EXEC (a :: argv) =>
      PExec (a :: argv) (PPrint 2 (bytes_of_string "exec " ++ a ++ bytes_of_string " failed" ++ [ch_nl]) PExit)
  | REDIR c f m d =>
      PClose d (POpen f m (fun r =>
        if r <? 0 then PPrint 2 (bytes_of_string "open " ++ f ++ bytes_of_string " failed" ++ [ch_nl]) PExit
        else runcmd c))
  | LIST l r => fork1 (runcmd l) (PWait (runcmd r))
  | PIPE l r =>
      PPipe (fun p =>
        match p with
        | None => sh_panic "pipe"
        | Some (p0, p1) =>
            fork1 (PClose 1 (PDup p1 (PClose p0 (PClose p1 (runcmd l)))))
              (fork1 (PClose 0 (PDup p0 (PClose p0 (PClose p1 (runcmd r)))))
                (PClose p0 (PClose p1 (PWait (PWait PExit)))))
        end)
  | BACK c => fork1 (runcmd c) PExit
  end.

(** [getcmd], with the line or the end of the input. *)
Definition getcmd (k : option (list Z) -> prog) : prog :=
  PPrint 2 (bytes_of_string "$ ") (PGets 100 (fun buf =>
    match buf with [] => k None | c :: _ => if c =? 0 then k None else k (Some buf) end)).

(** The loop that makes sure that three descriptors are open. *)
Fixpoint open_console (fuel : nat) (k : prog) : prog :=
  match fuel with
  | O => k
  | S f => POpen (bytes_of_string "console") O_RDWR (fun fd =>
             if 0 <=? fd then if 3 <=? fd then PClose fd k else open_console f k else k)
  end.

(** [rounds] turns of the loop of [main]. *)
Fixpoint main_loop (rounds : nat) : prog :=
  match rounds with
  | O => PExit
  | S n =>
      getcmd (fun line =>
        match line with
        | None => PExit
        | Some buf =>
            let buf := cstr_of buf in
            if bool_decide (take 3 buf = bytes_of_string "cd ") then
              let dir := drop 3 (take (length buf - 1) buf) in
              PChdir dir (fun r =>
                if r <? 0 then PPrint 2 (bytes_of_string "cannot cd " ++ dir ++ [ch_nl]) (main_loop n)
                else main_loop n)
            else
              fork1 (match parse buf with Ok c => runcmd c | Err e => sh_panic e | Oof => PExit end)
                (PWait (main_loop n))
        end)
  end.

Definition main (rounds : nat) : prog := open_console 4 (main_loop rounds).

End Sh.
