(* ===== verification/ShProof.v ===== *)
(** * The shell: proofs about the parser *)

From stdpp Require Import base gmap list strings.
From Stdlib Require Import ZArith Lia.
From S2P Require Import Prelude Sh.
Import Sh.

Module ShProof.

(** ** Pointers and tokens *)

Definition is_ws : Z -> bool := chr_in whitespace.
Definition is_word (c : Z) : bool := negb (chr_in whitespace c) && negb (chr_in symbols c).

#[local] Arguments chr_in : simpl never.
#[local] Arguments is_word : simpl never.

(** A pointer into the line [s]. *)
Definition inside (s : list Z) (p : ptr) : Prop := drop p.1 s = p.2 /\ (p.1 <= length s)%nat.

Lemma skip_while_inside f s l : forall i, inside s (i, l) -> inside s (skip_while f i l).
Proof.
  induction l as [|c l IH]; intros i Hi; simpl; [done|]. destruct (f c); [|done]. apply IH.
  destruct Hi as [H1 H2]. simpl in *. assert (i < length s)%nat.
  { destruct (decide (i < length s)%nat); [done|]. by rewrite drop_ge in H1 by lia. }
  split; simpl; [|lia]. by rewrite <- Nat.add_1_r, <- drop_drop, H1.
Qed.
Lemma skip_while_len f l : forall i, (length (skip_while f i l).2 <= length l)%nat.
Proof. induction l as [|c l IH]; intros i; simpl; [lia|]. destruct (f c); [specialize (IH (S i)); lia | simpl; lia]. Qed.
Lemma skip_while_head f l : forall i, match (skip_while f i l).2 with [] => True | c :: _ => f c = false end.
Proof. induction l as [|c l IH]; intros i; simpl; [done|]. destruct (f c) eqn:E; [apply IH | done]. Qed.

Lemma skip_ws_inside s p : inside s p -> inside s (skip_ws p).
Proof. destruct p. apply skip_while_inside. Qed.
Lemma skip_ws_len p : (len (skip_ws p) <= len p)%nat.
Proof. apply skip_while_len. Qed.
Lemma skip_while_idem f l : forall i, skip_while f (skip_while f i l).1 (skip_while f i l).2 = skip_while f i l.
Proof. induction l as [|c l IH]; intros i; simpl; [done|]. destruct (f c) eqn:E; [apply IH | simpl; by rewrite E]. Qed.
Lemma skip_ws_idem p : skip_ws (skip_ws p) = skip_ws p.
Proof. apply skip_while_idem. Qed.

(** A token: a longest sequence of word characters of the line. *)
Definition tok_ok (s : list Z) (w : tok) : Prop :=
  (w.1 < w.2 <= length s)%nat /\
  (forall k, (w.1 <= k < w.2)%nat -> exists c, s !! k = Some c /\ is_word c = true) /\
  (forall c, s !! w.2 = Some c -> is_word c = false).

Lemma skip_word_spec s l : forall i, inside s (i, l) ->
  let e := skip_word (i, l) in
  (i <= e.1 <= length s)%nat /\
  (forall k, (i <= k < e.1)%nat -> exists c, s !! k = Some c /\ is_word c = true) /\
  (forall c, s !! e.1 = Some c -> is_word c = false) /\
  (match l with c :: _ => is_word c = true -> (i < e.1)%nat | [] => True end).
Proof.
  change (forall i, inside s (i, l) -> let e := skip_while is_word i l in
    (i <= e.1 <= length s)%nat /\
    (forall k, (i <= k < e.1)%nat -> exists c, s !! k = Some c /\ is_word c = true) /\
    (forall c, s !! e.1 = Some c -> is_word c = false) /\
    (match l with c :: _ => is_word c = true -> (i < e.1)%nat | [] => True end)).
  induction l as [|c l IH]; intros i Hin; pose proof Hin as [H1 H2]; simpl in H1, H2.
  - simpl. split_and!; try lia. intros c Hc. by rewrite <- (Nat.add_0_r i), <- lookup_drop, H1 in Hc.
  - assert (Hc : s !! i = Some c) by (by rewrite <- (Nat.add_0_r i), <- lookup_drop, H1).
    pose proof (lookup_lt_Some _ _ _ Hc) as Hlt. simpl. destruct (is_word c) eqn:E.
    + destruct (IH (S i)) as (Ha & Hb & Hd & _).
      { split; simpl; [|lia]. by rewrite <- Nat.add_1_r, <- drop_drop, H1. }
      split_and!; try lia; try done. intros k Hk. destruct (decide (k = i)) as [->|]; [by exists c|]. apply Hb. lia.
    + simpl. split_and!; try lia; try done. intros c' Hc'. congruence.
Qed.

Lemma skip_word_inside s p : inside s p -> inside s (skip_word p).
Proof. destruct p. apply skip_while_inside. Qed.

(** What the tokenizer promises. *)
Lemma symbol_cases c : chr_in symbols c = chr_in (bytes_of_string "|();&<") c || (c =? ch_gt).
Proof.
  unfold chr_in, ch_gt. change symbols with [60; 124; 62; 38; 59; 40; 41].
  change (bytes_of_string "|();&<") with [124; 40; 41; 59; 38; 60]. cbn [existsb]. repeat match goal with |- context [c =? ?x] => destruct (c =? x) end; done. Qed.

Lemma gettoken_spec s p : inside s p -> Forall (fun c => c <> 0) s ->
  let '(t, w, p') := gettoken p in
  inside s p' /\ (len p' <= len p)%nat /\
  match (skip_ws p).2 with
  | [] => t = 0
  | c :: _ => (len p' < len p)%nat /\ t <> 0 /\ (t = ch_a -> tok_ok s w)
  end.
Proof.
  intros Hp Hnz. pose proof (skip_ws_inside _ _ Hp) as Hs. pose proof (skip_ws_len p) as Hl.
  pose proof (skip_while_head (chr_in whitespace) p.2 p.1) as Hh. fold (skip_ws p) in Hh.
  unfold gettoken. destruct (skip_ws p) as [i [|c r]] eqn:Es; cbn [fst snd] in *.
  { pose proof (skip_ws_len (i, [])) as Hl2. split_and!; [by apply skip_ws_inside | unfold len in *; simpl in *; lia | done]. }
  assert (Hstep : forall j l, (j, l) = (S i, r) \/ (exists d, r = d :: l /\ j = S (S i)) -> inside s (j, l) /\ (length l < length (c :: r))%nat).
  { destruct Hs as [H1 H2]. simpl in H1, H2. assert (Hlt : (length (drop i s) = length (c :: r))) by (by rewrite H1).
    rewrite length_drop in Hlt. simpl in Hlt. intros j l [[= -> ->]|(d & -> & ->)]; (split; [split; simpl in *; [|lia]|simpl; lia]).
    - by rewrite <- Nat.add_1_r, <- drop_drop, H1.
    - replace (S (S i)) with (i + 2)%nat by lia. by rewrite <- drop_drop, H1. }
  assert (Hgo : forall (t : Z) (e : ptr), inside s e -> (length e.2 < length (c :: r))%nat -> t <> 0 -> (t = ch_a -> tok_ok s (i, e.1)) ->
    inside s (skip_ws e) /\ (len (skip_ws e) <= len p)%nat /\ (len (skip_ws e) < len p)%nat /\ t <> 0 /\ (t = ch_a -> tok_ok s (i, e.1))).
  { intros t e He Hle Ht Hw. pose proof (skip_ws_len e). unfold len in *. simpl in Hl, Hle. split_and!; [by apply skip_ws_inside | lia | lia | done | done]. }
  assert (Hc0 : c <> 0).
  { destruct Hs as [H1 _]. simpl in H1. assert (Hin : s !! i = Some c) by (by rewrite <- (Nat.add_0_r i), <- lookup_drop, H1).
    by eapply (Forall_lookup_1 _ _ _ _ Hnz). }
  destruct (chr_in (bytes_of_string "|();&<") c) eqn:E1.
  { apply Hgo; [apply Hstep; by left | by apply (Hstep (S i) r); left | done |]. intros ->. done. }
  destruct (c =? ch_gt) eqn:E2.
  - destruct r as [|d r']; [|destruct (d =? ch_gt)]; (apply Hgo; [apply Hstep; eauto | simpl; lia | done | done]).
  - assert (Hw : is_word c = true) by (unfold is_word; by rewrite Hh, symbol_cases, E1, E2).
    destruct (skip_word_spec s (c :: r) i Hs) as (Ha & Hb & Hd & He). specialize (He Hw).
    apply Hgo; [by apply skip_word_inside | | done |].
    + pose proof (skip_word_inside _ _ Hs) as [H1 H2]. rewrite <- H1, length_drop. destruct Hs as [H3 H4]. simpl in H3, H4.
      assert (length (drop i s) = length (c :: r)) as H5 by (by rewrite H3). rewrite length_drop in H5. lia.
    + intros _. split_and!; simpl; [lia | lia | done | done].
Qed.

Lemma peek_spec s p toks : inside s p ->
  let '(b, p') := peek p toks in p' = skip_ws p /\ inside s p' /\ (len p' <= len p)%nat /\ (b = true -> p'.2 <> []).
Proof.
  intros Hp. unfold peek. split_and!; [done | by apply skip_ws_inside | apply skip_ws_len |].
  by destruct ((skip_ws p).2).
Qed.

(** ** What the parser returns *)

(** Returns a result with a property, or stops with a message. *)
Definition rspec {A} (r : res A) (Q : A -> Prop) : Prop :=
  match r with Ok a => Q a | Err _ => True | Oof => False end.

Lemma rspec_bind {A B} (r : res A) (f : A -> res B) Q : rspec r (fun a => rspec (f a) Q) -> rspec (r ≫= f) Q.
Proof. by destruct r. Qed.
Lemma rspec_conseq {A} (r : res A) (P Q : A -> Prop) : rspec r P -> (forall a, P a -> Q a) -> rspec r Q.
Proof. destruct r; simpl; auto. Qed.

Definition redir_mode (m d : Z) : Prop := (m = O_RDONLY /\ d = 0) \/ (m = Z.lor O_WRONLY O_CREATE /\ d = 1).

Fixpoint cmd_ok (s : list Z) (c : cmd tok) : Prop :=
  match c with
  | EXEC argv => (length argv < MAXARGS)%nat /\ Forall (tok_ok s) argv
  | REDIR c f m d => cmd_ok s c /\ tok_ok s f /\ redir_mode m d
  | PIPE l r | LIST l r => cmd_ok s l /\ cmd_ok s r
  | BACK c => cmd_ok s c
  end.

Definition redir_ok (s : list Z) (r : redir) : Prop := tok_ok s r.1.1 /\ redir_mode r.1.2 r.2.

Lemma wrap_ok s rs : forall c, cmd_ok s c -> Forall (redir_ok s) rs -> cmd_ok s (wrap c rs).
Proof.
  induction rs as [|r rs IH]; intros c Hc HF; [done|]. apply Forall_cons in HF as [[H1 H2] HF]. by apply IH.
Qed.

Section Total.
Context (s : list Z) (Hnz : Forall (fun c => c <> 0) s).

(** A pointer not behind [p]. *)
Definition after (p p' : ptr) : Prop := inside s p' /\ (len p' <= len p)%nat.

Lemma peek_get p toks :
  inside s p -> let '(b, p1) := peek p toks in after p p1 /\ (b = true -> let '(_, _, p2) := gettoken p1 in inside s p2 /\ (len p2 < len p)%nat).
Proof.
  intros Hp. pose proof (peek_spec s p toks Hp) as H. destruct (peek p toks) as [b p1]. destruct H as (-> & Hi & Hl & Hb).
  split; [done|]. intros Hbt. pose proof (gettoken_spec s (skip_ws p) Hi Hnz) as Hg. rewrite skip_ws_idem in Hg.
  destruct (gettoken (skip_ws p)) as [[t w] p2]. destruct Hg as (H1 & H2 & H3).
  destruct ((skip_ws p).2); [by destruct Hb|]. destruct H3 as (H3 & _). split; [done | lia].
Qed.

Lemma redirs_ok fuel : forall p, inside s p -> (len p < fuel)%nat ->
  rspec (redirs fuel p) (fun '(rs, p') => after p p' /\ Forall (redir_ok s) rs).
Proof.
  induction fuel as [|f IH]; intros p Hp Hf; [lia|]. cbn [redirs].
  pose proof (peek_get p "<>" Hp) as H. destruct (peek p "<>") as [b p1]. destruct H as [Ha Hg]. destruct b; [|by split].
  specialize (Hg eq_refl). destruct (gettoken p1) as [[t w0] p2]. destruct Hg as [H1 H2].
  pose proof (gettoken_spec s p2 H1 Hnz) as Hg2. destruct (gettoken p2) as [[t2 w] p3]. destruct Hg2 as (H3 & H4 & H5).
  destruct (t2 =? ch_a) eqn:Et; zbool; cbn [negb]; [|done].
  assert (Hw : tok_ok s w) by (destruct ((skip_ws p2).2); [by subst t2 | tauto]).
  apply rspec_bind. eapply rspec_conseq; [apply (IH p3); [done | lia]|]. intros [rs p'] [[H6 H7] H8]. split.
  - split; [done | lia].
  - constructor; [|done]. destruct (t =? 60); (split; [done|]); [by left | by right].
Qed.

Lemma args_ok fuel : forall p argv rs, inside s p -> (len p < fuel)%nat -> (length argv < MAXARGS)%nat -> Forall (tok_ok s) argv ->
  Forall (redir_ok s) rs ->
  rspec (args fuel p argv rs) (fun '(argv', rs', p') => after p p' /\ (length argv' < MAXARGS)%nat /\
    Forall (tok_ok s) argv' /\ Forall (redir_ok s) rs').
Proof.
  induction fuel as [|f IH]; intros p argv rs Hp Hf Hla HFa HFr; [lia|]. cbn [args].
  pose proof (peek_spec s p "|)&;" Hp) as H. destruct (peek p "|)&;") as [b p1]. destruct H as (-> & Hi & Hl & _).
  destruct b; [by split_and!|]. pose proof (gettoken_spec s (skip_ws p) Hi Hnz) as Hg. rewrite skip_ws_idem in Hg.
  destruct (gettoken (skip_ws p)) as [[t w] p2]. destruct Hg as (H1 & H2 & H3).
  destruct (t =? 0) eqn:E0; zbool. { simpl. split_and!; try done. split; [done | lia]. }
  destruct ((skip_ws p).2) as [|c r]; [done|]. destruct H3 as (H3 & _ & H4).
  destruct (t =? ch_a) eqn:Et; zbool; cbn [negb]; [|done].
  destruct (MAXARGS <=? length (argv ++ [w]))%nat eqn:Em; [done|]. apply Nat.leb_gt in Em.
  apply rspec_bind. eapply rspec_conseq; [apply (redirs_ok _ p2); [done | lia]|]. intros [rs' p3] [[H5 H6] H7].
  eapply rspec_conseq; [apply (IH p3); [done | lia | done | | by apply Forall_app]|].
  - apply Forall_app. split; [done|]. constructor; [by apply H4 | done].
  - intros [[argv' rs''] p'] ([H8 H9] & H10 & H11). split; [split; [done | lia] | done].
Qed.

Lemma backs_ok fuel : forall p c, inside s p -> (len p < fuel)%nat -> cmd_ok s c ->
  rspec (backs fuel c p) (fun '(c', p') => after p p' /\ cmd_ok s c').
Proof.
  induction fuel as [|f IH]; intros p c Hp Hf Hc; [lia|]. cbn [backs].
  pose proof (peek_get p "&" Hp) as H. destruct (peek p "&") as [b p1]. destruct H as [Ha Hg]. destruct b; [|by split].
  specialize (Hg eq_refl). destruct (gettoken p1) as [[t w] p2]. destruct Hg as [H1 H2].
  eapply rspec_conseq; [apply (IH p2 (BACK c)); [done | lia | done]|]. intros [c' p'] [[H3 H4] H5]. split; [split; [done | lia] | done].
Qed.

(** The result of a parsing function from [p]. *)
Definition parsed (p : ptr) (r : res (cmd tok * ptr)) : Prop := rspec r (fun '(c, p') => after p p' /\ cmd_ok s c).

Lemma parsed_mono p q r : (len q <= len p)%nat -> parsed q r -> parsed p r.
Proof. intros Hl Hr. eapply rspec_conseq; [exact Hr|]. intros [c p'] [[H1 H2] H3]. split; [split; [done | lia] | done]. Qed.

Lemma parse_ok fuel : forall p, inside s p ->
  ((4 * len p + 4 <= fuel)%nat -> parsed p (parseline fuel p)) /\
  ((4 * len p + 3 <= fuel)%nat -> parsed p (parsepipe fuel p)) /\
  ((4 * len p + 2 <= fuel)%nat -> parsed p (parseexec fuel p)) /\
  ((4 * len p + 1 <= fuel)%nat -> parsed p (parseblock fuel p)).
Proof.
  induction fuel as [|f IH]; intros p Hp; [split_and!; lia|]. split_and!; intros Hf.
  - cbn [parseline]. apply rspec_bind. destruct (IH p Hp) as (_ & H & _). eapply rspec_conseq; [apply H; lia|]. clear H.
    intros [c p1] [[H1 H2] H3]. apply rspec_bind. eapply rspec_conseq; [apply (backs_ok _ p1); [done | lia | done]|].
    intros [c2 p2] [[H4 H5] H6]. pose proof (peek_get p2 ";" H4) as H. destruct (peek p2 ";") as [b p3]. destruct H as [[H7 H8] Hg].
    destruct b; [|split; [split; [done | lia] | done]]. specialize (Hg eq_refl). destruct (gettoken p3) as [[t w] p4]. destruct Hg as [H9 H10].
    apply rspec_bind. destruct (IH p4 H9) as (H & _). eapply rspec_conseq; [apply H; lia|]. intros [r p5] [[H11 H12] H13].
    split; [split; [done | lia] | done].
  - cbn [parsepipe]. apply rspec_bind. destruct (IH p Hp) as (_ & _ & H & _). eapply rspec_conseq; [apply H; lia|]. clear H.
    intros [c p1] [[H1 H2] H3]. pose proof (peek_get p1 "|" H1) as H. destruct (peek p1 "|") as [b p3]. destruct H as [[H7 H8] Hg].
    destruct b; [|split; [split; [done | lia] | done]]. specialize (Hg eq_refl). destruct (gettoken p3) as [[t w] p4]. destruct Hg as [H9 H10].
    apply rspec_bind. destruct (IH p4 H9) as (_ & H & _). eapply rspec_conseq; [apply H; lia|]. intros [r p5] [[H11 H12] H13].
    split; [split; [done | lia] | done].
  - cbn [parseexec]. pose proof (peek_get p "(" Hp) as H. destruct (peek p "(") as [b p1]. destruct H as [[H1 H2] _]. destruct b.
    + destruct (IH p1 H1) as (_ & _ & _ & H). apply (parsed_mono p p1); [lia|]. apply H. lia.
    + apply rspec_bind. eapply rspec_conseq; [apply (redirs_ok _ p1); [done | lia]|]. intros [rs p2] [[H3 H4] H5].
      apply rspec_bind. eapply rspec_conseq; [apply (args_ok _ p2 [] rs); [done | lia | by vm_compute; lia | constructor | done]|].
      intros [[argv rs'] p3] ([H6 H7] & H8 & H9 & H10). split; [split; [done | lia] | by apply wrap_ok].
  - cbn [parseblock]. pose proof (peek_get p "(" Hp) as H. destruct (peek p "(") as [b p1]. destruct H as [[H1 H2] Hg].
    destruct b; [|done]. specialize (Hg eq_refl). cbn [negb]. destruct (gettoken p1) as [[t w] p2]. destruct Hg as [H3 H4].
    apply rspec_bind. destruct (IH p2 H3) as (H & _). eapply rspec_conseq; [apply H; lia|]. clear H. intros [c p3] [[H5 H6] H7].
    pose proof (peek_get p3 ")" H5) as H. destruct (peek p3 ")") as [b p4]. destruct H as [_ Hg].
    destruct b; [|done]. specialize (Hg eq_refl). cbn [negb]. destruct (gettoken p4) as [[t2 w2] p5]. destruct Hg as [H8 H9].
    unfold parseredirs. apply rspec_bind. eapply rspec_conseq; [apply (redirs_ok _ p5); [done | lia]|]. intros [rs p6] [[H10 H11] H12].
    split; [split; [done | lia] | by apply wrap_ok].
Qed.

End Total.

(** ** NUL-terminating the strings *)

Fixpoint toks (c : cmd tok) : list tok :=
  match c with
  | EXEC argv => argv
  | REDIR c f _ _ => toks c ++ [f]
  | PIPE l r | LIST l r => toks l ++ toks r
  | BACK c => toks c
  end.

Lemma nulterminate_toks c : forall b, nulterminate c b = fold_left store_nul (toks c) b.
Proof.
  induction c as [argv|c IH f m d|l IHl r IHr|l IHl r IHr|c IH]; intros b; cbn [nulterminate toks];
    rewrite ?fold_left_app, ?IHl, ?IHr, ?IH; done.
Qed.

Lemma store_nuls_lookup ws : forall b k,
  fold_left store_nul ws b !! k = if decide (k ∈ ws.*2) then (fun _ => 0) <$> b !! k else b !! k.
Proof.
  induction ws as [|w ws IH]; intros b k; [by rewrite decide_False by apply not_elem_of_nil|].
  cbn [fold_left fmap list_fmap]. rewrite IH. unfold store_nul. destruct (decide (k = w.2)) as [->|Hne].
  - rewrite (decide_True (P := w.2 ∈ w.2 :: _)) by (by left).
    assert (Hw : <[w.2 := 0]> b !! w.2 = (fun _ => 0) <$> b !! w.2).
    { destruct (decide (w.2 < length b)%nat) as [Hlt|Hge].
      - rewrite list_lookup_insert_eq by done. by destruct (lookup_lt_is_Some_2 b _ Hlt) as [x ->].
      - rewrite !lookup_ge_None_2 by (rewrite ?length_insert; lia). done. }
    rewrite Hw. case_decide; [|done]. by destruct (b !! w.2).
  - rewrite list_lookup_insert_ne by done. apply decide_ext. rewrite elem_of_cons. tauto.
Qed.

Lemma cstr_prefix l : forall n, (forall j, (j < n)%nat -> exists c, l !! j = Some c /\ c <> 0) -> l !! n = Some 0 ->
  cstr_of l = take n l.
Proof.
  induction l as [|c l IH]; intros n Hj Hn; [done|]. destruct n as [|n]; cbn [cstr_of take].
  - injection Hn as ->. done.
  - destruct (Hj O) as (c' & Hc & Hnz); [lia|]. injection Hc as <-. rewrite (proj2 (Z.eqb_neq c 0) Hnz). f_equal.
    apply IH; [|done]. intros j Hlt. apply (Hj (S j)). lia.
Qed.

Lemma string_at_tok s c w :
  Forall (fun c => c <> 0) s -> Forall (tok_ok s) (toks c) -> w ∈ toks c ->
  string_at (nulterminate c (s ++ [0])) w = take (w.2 - w.1) (drop w.1 s).
Proof.
  intros Hnz HF Hw. pose proof (proj1 (Forall_forall _ _) HF w Hw) as ([H1 H2] & H3 & H4).
  assert (Hin : forall k, (w.1 <= k < w.2)%nat -> nulterminate c (s ++ [0]) !! k = s !! k).
  { intros k Hk. rewrite nulterminate_toks, store_nuls_lookup. destruct (H3 k Hk) as (x & Hx & Hwd).
    rewrite decide_False, lookup_app_l; [done | by eapply lookup_lt_Some |].
    intros (w' & -> & Hw')%list_elem_of_fmap. pose proof (proj1 (Forall_forall _ _) HF w' Hw') as (_ & _ & H5).
    rewrite (H5 x Hx) in Hwd. done. }
  unfold string_at. rewrite (cstr_prefix _ (w.2 - w.1)).
  - apply list_eq. intros j. destruct (decide (j < w.2 - w.1)%nat) as [Hj|Hj].
    + rewrite !lookup_take_lt, !lookup_drop by done. apply Hin. lia.
    + rewrite !lookup_take_ge by lia. done.
  - intros j Hj. rewrite lookup_drop, Hin by lia. destruct (H3 (w.1 + j)%nat) as (x & Hx & _); [lia|]. exists x.
    split; [done|]. by eapply (Forall_lookup_1 _ _ _ _ Hnz).
  - rewrite lookup_drop. replace (w.1 + (w.2 - w.1))%nat with w.2 by lia. rewrite nulterminate_toks, store_nuls_lookup.
    rewrite decide_True by (by apply list_elem_of_fmap_2).
    destruct (lookup_lt_is_Some_2 (s ++ [0]) w.2) as [x ->]; [rewrite length_app; simpl; lia | done].
Qed.

Lemma cmd_ok_toks s c : cmd_ok s c -> Forall (tok_ok s) (toks c).
Proof.
  induction c as [argv|c IH f m d|l IHl r IHr|l IHl r IHr|c IH]; cbn [cmd_ok toks]; rewrite ?Forall_app; try tauto.
  intros (H1 & H2 & _). split; [auto | by constructor].
Qed.

Lemma inside_start s : inside s (O, s).
Proof. split; simpl; [done | lia]. Qed.

Lemma parsecmd_spec s : Forall (fun c => c <> 0) s ->
  rspec (parsecmd s) (fun '(c, b) => cmd_ok s c /\ b = nulterminate c (s ++ [0])).
Proof.
  intros Hnz. unfold parsecmd. apply rspec_bind. destruct (parse_ok s Hnz (4 * length s + 4) (O, s) (inside_start s)) as (H & _).
  eapply rspec_conseq; [apply H; unfold len; simpl; lia|]. intros [c p] [[H1 H2] H3]. unfold peek.
  by destruct ((skip_ws p).2).
Qed.

(** C29: parsing always ends, with a command or with an error message, whatever the line
    is; a command it returns is well formed: at most [MAXARGS - 1] arguments, the file
    modes of the three redirections, every token inside of the line; and after
    [nulterminate] the C string at each token is exactly the bytes of the token, none of
    them cut short by the NUL of another. *)
Theorem parsecmd_well_formed s : Forall (fun c => c <> 0) s ->
  parsecmd s <> Oof /\
  forall c b, parsecmd s = Ok (c, b) ->
    cmd_ok s c /\ forall w, w ∈ toks c -> string_at b w = take (w.2 - w.1) (drop w.1 s).
Proof.
  intros Hnz. pose proof (parsecmd_spec s Hnz) as H. split; [by intros E; rewrite E in H|].
  intros c b E. rewrite E in H. destruct H as [Hc ->]. split; [done|]. intros w Hw.
  apply string_at_tok; [done | by apply cmd_ok_toks | done].
Qed.

Lemma parsecmd_well_formed_witness :
  exists c b, parsecmd (bytes_of_string "ls>out;cat<in") = Ok (c, b) /\ cmd_ok (bytes_of_string "ls>out;cat<in") c.
Proof.
  destruct (parsecmd_well_formed (bytes_of_string "ls>out;cat<in")) as [_ H].
  { repeat constructor; discriminate. }
  eassert (E : parsecmd (bytes_of_string "ls>out;cat<in") = Ok (_, _)) by (vm_compute; reflexivity).
  eexists _, _. split; [exact E|]. exact (proj1 (H _ _ E)).
Defined.

End ShProof.
