(* ===== verification/ShPrint.v ===== *)
(** * The shell: every command can be written down and is parsed back

    [print] writes a command as a line, with parentheses where the grammar needs
    them; the parser reads it back as the same command. *)

From stdpp Require Import base gmap list strings.
From Stdlib Require Import ZArith Lia.
From S2P Require Import Prelude Sh ShProof.
Import Sh ShProof.

Module ShPrint.

#[local] Arguments chr_in : simpl never.
#[local] Arguments is_word : simpl never.

Abbreviation text := (list Z).

Definition pword (w : text) : text := 32 :: w.
Definition predir (r : text * Z * Z) : text := 32 :: (if r.2 =? 0 then 60 else 62) :: 32 :: r.1.1.
Definition pwords : list text -> text := flat_map pword.
Definition predirs : list (text * Z * Z) -> text := flat_map predir.
Definition paren (b : bool) (x : text) : text := if b then 32 :: 40 :: x ++ [32; 41] else x.

(** Level 0 is a simple or parenthesised command with its redirections, level 1 a
    pipeline, level 2 with [&], level 3 a list. *)
Fixpoint print (lv : nat) (c : cmd text) : text :=
  match c with
  | EXEC argv => pwords argv
  | REDIR c f m d => print 0 c ++ predir (f, m, d)
  | PIPE l r => paren (lv <? 1)%nat (print 0 l ++ 32 :: 124 :: print 1 r)
  | BACK c => paren (lv <? 2)%nat (print 2 c ++ [32; 38])
  | LIST l r => paren (lv <? 3)%nat (print 2 l ++ 32 :: 59 :: print 3 r)
  end.

Definition word_ok (w : text) : Prop := w <> [] /\ Forall (fun c => is_word c = true /\ c <> 0) w.
Definition redir_wf (r : text * Z * Z) : Prop := word_ok r.1.1 /\ redir_mode r.1.2 r.2.

(** The commands with proper words and redirections, and not too many arguments. *)
Fixpoint printable (c : cmd text) : Prop :=
  match c with
  | EXEC argv => (length argv < MAXARGS)%nat /\ Forall word_ok argv
  | REDIR c f m d => printable c /\ redir_wf (f, m, d)
  | PIPE l r | LIST l r => printable l /\ printable r
  | BACK c => printable c
  end.

(** ** Tokens of a printed line *)

Definition spell (s : list Z) (w : tok) : text := take (w.2 - w.1) (drop w.1 s).
Definition spell_r (s : list Z) (r : redir) : text * Z * Z := (spell s r.1.1, r.1.2, r.2).

(** What is left after white space, and what may come next. *)
Definition trim (k : text) : text := (skip_ws (O, k)).2.
Definition stops (k : text) : Prop := match k with [] => True | c :: _ => is_word c = false end.
Definition follow (ts : text) (k : text) : Prop := match trim k with [] => True | c :: _ => chr_in ts c = true end.

Lemma skip_while_indep f l : forall i j, (skip_while f i l).2 = (skip_while f j l).2.
Proof. induction l as [|c l IH]; intros i j; simpl; [done|]. destruct (f c); [apply IH | done]. Qed.
Lemma skip_ws_trim i k : (skip_ws (i, k)).2 = trim k.
Proof. apply skip_while_indep. Qed.
Lemma skip_ws_cons i c k : chr_in whitespace c = true -> skip_ws (i, c :: k) = skip_ws (S i, k).
Proof. intros H. unfold skip_ws. cbn [fst snd skip_while]. by rewrite H. Qed.
Lemma skip_ws_stop i c k : chr_in whitespace c = false -> skip_ws (i, c :: k) = (i, c :: k).
Proof. intros H. unfold skip_ws. cbn [fst snd skip_while]. by rewrite H. Qed.
Lemma word_not_ws c : is_word c = true -> chr_in whitespace c = false /\ chr_in symbols c = false.
Proof. unfold is_word. intros H. zbool. by split. Qed.

Lemma follow_stops ts k : follow ts k -> (forall c, chr_in ts c = true -> is_word c = false) -> stops k.
Proof.
  unfold follow, trim, stops. destruct k as [|c k]; [done|]. intros Hf Hs. destruct (chr_in whitespace c) eqn:E.
  - unfold is_word. by rewrite E.
  - rewrite skip_ws_stop in Hf by done. by apply Hs.
Qed.

(** Tests on the byte sets of the grammar, by computation. *)
Lemma chr_in_iff ts c : chr_in ts c = true <-> c ∈ ts.
Proof.
  unfold chr_in. induction ts as [|t ts IH]; simpl; [split; [done | intros H; by apply elem_of_nil in H]|].
  rewrite orb_true_iff, IH, elem_of_cons, Z.eqb_eq. done.
Qed.
Ltac byte_sets :=
  intros; repeat match goal with H : chr_in _ _ = true |- _ =>
    apply chr_in_iff in H; cbn in H; rewrite ?elem_of_cons, ?elem_of_nil in H end;
  repeat match goal with H : _ \/ _ |- _ => destruct H | H : False |- _ => destruct H end; subst; try reflexivity; try done.

Definition F0 : text := bytes_of_string "|&;)".
Definition F1 : text := bytes_of_string "&;)".
Definition F3 : text := bytes_of_string ")".

Lemma F0_word c : chr_in F0 c = true -> is_word c = false.
Proof. byte_sets. Qed.
Lemma F10 k : follow F1 k -> follow F0 k.
Proof. unfold follow. destruct (trim k); [done|]. byte_sets. Qed.
Lemma F31 k : follow F3 k -> follow F1 k.
Proof. unfold follow. destruct (trim k); [done|]. byte_sets. Qed.
Lemma stops_F0 k : follow F0 k -> stops k.
Proof. intros H. eapply follow_stops; [exact H | apply F0_word]. Qed.

Lemma gettoken_skip p : gettoken (skip_ws p) = gettoken p.
Proof. unfold gettoken. by rewrite skip_ws_idem. Qed.
Lemma peek_skip p ts : peek (skip_ws p) ts = peek p ts.
Proof. unfold peek. by rewrite skip_ws_idem. Qed.

Lemma skip_word_app w k : forall i, Forall (fun c => is_word c = true /\ c <> 0) w -> stops k ->
  skip_word (i, w ++ k) = ((i + length w)%nat, k).
Proof.
  change (forall i, Forall (fun c => is_word c = true /\ c <> 0) w -> stops k ->
    skip_while is_word i (w ++ k) = ((i + length w)%nat, k)).
  induction w as [|c w IH]; intros i HF Hk; cbn [app length].
  - rewrite Nat.add_0_r. destruct k as [|c k]; [done|]. cbn [skip_while]. by rewrite Hk.
  - apply Forall_cons in HF as [[Hc _] HF]. cbn [skip_while]. rewrite Hc, IH by done. f_equal. lia.
Qed.

Lemma get_word i w k : word_ok w -> stops k ->
  gettoken (i, 32 :: w ++ k) = (ch_a, (S i, (S i + length w)%nat), skip_ws ((S i + length w)%nat, k)).
Proof.
  intros [Hne HF] Hk. destruct w as [|c w]; [done|]. pose proof HF as [[Hc _] _]%Forall_cons.
  destruct (word_not_ws _ Hc) as [H1 H2]. rewrite symbol_cases in H2. apply orb_false_iff in H2 as [H2 H3].
  unfold gettoken. cbn [app]. rewrite skip_ws_cons, (skip_ws_stop (S i)) by done. cbn [snd fst]. rewrite H2, H3.
  pose proof (skip_word_app (c :: w) k (S i) HF Hk) as Hw. cbn [app] in Hw. by rewrite Hw.
Qed.

Lemma get_sym i c k : chr_in (bytes_of_string "|();&<") c = true ->
  gettoken (i, 32 :: c :: k) = (c, (S i, S (S i)), skip_ws (S (S i), k)).
Proof.
  intros Hc. assert (chr_in whitespace c = false) by (revert Hc; byte_sets).
  unfold gettoken. rewrite skip_ws_cons, (skip_ws_stop (S i)) by done. cbn [snd fst]. by rewrite Hc.
Qed.

Lemma get_gt i k : gettoken (i, 32 :: 62 :: 32 :: k) = (62, (S i, S (S i)), skip_ws (S (S i), 32 :: k)).
Proof. unfold gettoken. rewrite skip_ws_cons, (skip_ws_stop (S i)) by done. done. Qed.

Lemma peek_sp i c k ts : chr_in whitespace c = false ->
  peek (i, 32 :: c :: k) ts = (chr_in (bytes_of_string ts) c, skip_ws (i, 32 :: c :: k)).
Proof. intros H. unfold peek. rewrite skip_ws_cons, (skip_ws_stop (S i)) by done. done. Qed.

Lemma peek_follow i k ts t : follow ts k -> (forall c, chr_in ts c = true -> chr_in (bytes_of_string t) c = false) ->
  peek (i, k) t = (false, skip_ws (i, k)).
Proof.
  intros Hf Hd. unfold peek. f_equal. rewrite skip_ws_trim. unfold follow in Hf. destruct (trim k); [done|]. by apply Hd.
Qed.

(** *** Redirections *)

(** The next byte does not start another redirection. *)
Definition no_redir (k : text) : Prop := match trim k with [] => True | c :: _ => chr_in (bytes_of_string "<>") c = false end.

Lemma drop_cons s i (c : Z) l : drop i s = c :: l -> drop (S i) s = l.
Proof. intros H. by rewrite <- Nat.add_1_r, <- drop_drop, H. Qed.
Lemma drop_app_more s i (x l : list Z) : drop i s = x ++ l -> drop (i + length x) s = l.
Proof. intros H. by rewrite <- drop_drop, H, drop_app_length. Qed.
Lemma spell_word s i w k : drop i s = w ++ k -> spell s (i, (i + length w)%nat) = w.
Proof.
  intros H. unfold spell. cbn [fst snd]. rewrite H. replace (i + length w - i)%nat with (length w) by lia. apply take_app_length.
Qed.

Lemma redirs_print s rs : forall i k f, drop i s = predirs rs ++ k -> Forall redir_wf rs -> no_redir k -> stops k ->
  (length rs < f)%nat ->
  exists rs', redirs f (i, predirs rs ++ k) = Ok (rs', skip_ws ((i + length (predirs rs))%nat, k)) /\ spell_r s <$> rs' = rs.
Proof.
  induction rs as [|r rs IH]; intros i k f Hd HF Hk Hs Hf; (destruct f as [|f]; [simpl in Hf; lia|]); cbn [redirs].
  - exists []. cbn [predirs flat_map app length] in *. rewrite Nat.add_0_r.
    assert (peek (i, k) "<>" = (false, skip_ws (i, k))) as ->; [|done].
    unfold peek. f_equal. rewrite skip_ws_trim. unfold no_redir in Hk. by destruct (trim k).
  - apply Forall_cons in HF as [[Hw Hm] HF]. destruct r as [[w m] d]. cbn [fst snd] in *.
    set (c := if d =? 0 then 60 else 62).
    assert (Hc : chr_in (bytes_of_string "<>") c = true /\ chr_in whitespace c = false) by (unfold c; destruct (d =? 0); done).
    change (predirs ((w, m, d) :: rs) ++ k) with ((32 :: c :: (32 :: w) ++ predirs rs) ++ k) in *.
    cbn [app] in *. rewrite <- app_assoc in *. rewrite peek_sp by apply Hc. rewrite (proj1 Hc), gettoken_skip.
    assert (Hg : gettoken (i, 32 :: c :: 32 :: w ++ predirs rs ++ k) = (c, (S i, S (S i)), skip_ws (S (S i), 32 :: w ++ predirs rs ++ k))).
    { unfold c. destruct (d =? 0); [by apply get_sym | apply get_gt]. }
    rewrite Hg, gettoken_skip, get_word; [|done | by destruct rs; [|done]]. rewrite Z.eqb_refl. cbn [negb].
    assert (Hrest : drop (S (S (S i)) + length w) s = predirs rs ++ k).
    { apply drop_app_more. by do 3 eapply drop_cons in Hd as Hd. }
    destruct (IH (S (S (S i)) + length w)%nat k f Hrest HF Hk Hs) as (rs' & Hr & Hsp); [simpl in Hf; lia|].
    assert (Hskip : redirs f (skip_ws ((S (S (S i)) + length w)%nat, predirs rs ++ k)) = redirs f ((S (S (S i)) + length w)%nat, predirs rs ++ k)).
    { destruct f as [|f']; [done|]. cbn [redirs]. by rewrite peek_skip. }
    rewrite Hskip, Hr. unfold mbind, res_bind, mret, res_ret.
    replace (i + length (predirs ((w, m, d) :: rs)))%nat with (S (S (S i)) + length w + length (predirs rs))%nat
      by (unfold predirs; cbn [flat_map predir fst app length]; rewrite length_app; lia).
    eexists. split; [reflexivity|].
    cbn [fmap list_fmap]. f_equal; [|done]. unfold spell_r. destruct Hm as [[-> ->]|[-> ->]]; unfold c; cbn [fst snd Z.eqb Pos.eqb];
      (rewrite (spell_word s _ w (predirs rs ++ k)); [done|]; by do 3 eapply drop_cons in Hd as Hd).
Qed.

(** Skipping white space first makes no difference. *)
Lemma redirs_skip f p : redirs f (skip_ws p) = redirs f p.
Proof. destruct f; [done|]. cbn [redirs]. by rewrite peek_skip. Qed.
Lemma args_skip f p a r : args f (skip_ws p) a r = args f p a r.
Proof. destruct f; [done|]. cbn [args]. by rewrite peek_skip. Qed.
Lemma backs_skip f c p : backs f c (skip_ws p) = backs f c p.
Proof. destruct f; [done|]. cbn [backs]. by rewrite peek_skip. Qed.
Lemma parseexec_skip f p : parseexec f (skip_ws p) = parseexec f p.
Proof. destruct f; [done|]. cbn [parseexec]. by rewrite peek_skip. Qed.
Lemma parsepipe_skip f p : parsepipe f (skip_ws p) = parsepipe f p.
Proof. destruct f; [done|]. cbn [parsepipe]. by rewrite parseexec_skip. Qed.
Lemma parseline_skip f p : parseline f (skip_ws p) = parseline f p.
Proof. destruct f; [done|]. cbn [parseline]. by rewrite parsepipe_skip. Qed.

(** There is fuel for all redirections. *)
Lemma predirs_len rs i k : (length rs <= len (skip_ws (i, predirs rs ++ k)))%nat.
Proof.
  destruct rs as [|r rs]; [simpl; lia|].
  assert (Hl : forall l, (length l <= length (predirs l))%nat).
  { induction l as [|x l IH]; [simpl; lia|]. unfold predirs in *. cbn [flat_map predir app length]. rewrite length_app. lia. }
  change (predirs (r :: rs) ++ k) with ((32 :: (if r.2 =? 0 then 60 else 62) :: (32 :: r.1.1) ++ predirs rs) ++ k). cbn [app].
  rewrite skip_ws_cons, skip_ws_stop by (by destruct (r.2 =? 0)). unfold len. cbn [snd length].
  rewrite !length_app. specialize (Hl rs). lia.
Qed.

Lemma no_redir_F0 k : follow F0 k -> no_redir k.
Proof.
  unfold follow, no_redir. destruct (trim k) as [|c t]; [done|]. intros Hc.
  destruct (chr_in (bytes_of_string "<>") c) eqn:E; [|done]. exfalso. revert Hc. byte_sets.
Qed.
Lemma no_redir_word w k : word_ok w -> no_redir (32 :: w ++ k).
Proof.
  intros [Hne HF]. destruct w as [|c w]; [done|]. apply Forall_cons in HF as [[Hc _] _]. apply word_not_ws in Hc as [H1 H2].
  unfold no_redir, trim. cbn [app]. rewrite skip_ws_cons, skip_ws_stop by done. cbn [snd].
  destruct (chr_in (bytes_of_string "<>") c) eqn:E; [|done]. exfalso. revert H2. byte_sets.
Qed.

(** *** Arguments *)

Lemma args_end i k f acc racc : follow F0 k -> args (S f) (i, k) acc racc = Ok (acc, racc, skip_ws (i, k)).
Proof.
  intros Hk. cbn [args]. unfold peek. unfold follow in Hk. rewrite <- (skip_ws_trim i) in Hk.
  destruct ((skip_ws (i, k)).2) as [|c t] eqn:E.
  - unfold gettoken. rewrite skip_ws_idem, E. cbn [fst snd]. by rewrite skip_ws_idem.
  - assert (chr_in (bytes_of_string "|)&;") c = true) as ->; [|done]. revert Hk. byte_sets.
Qed.

Lemma pwords_len w argv : length (pwords (w :: argv)) = S (length w + length (pwords argv)).
Proof. unfold pwords. cbn [flat_map pword app length]. by rewrite length_app. Qed.

Lemma args_print s argv : forall i rs k f acc racc,
  drop i s = pwords argv ++ predirs rs ++ k -> argv <> [] \/ rs = [] -> Forall word_ok argv -> Forall redir_wf rs ->
  follow F0 k -> (length argv < f)%nat -> (length acc + length argv < MAXARGS)%nat ->
  exists argv' rs', args f (i, pwords argv ++ predirs rs ++ k) acc racc =
      Ok (acc ++ argv', racc ++ rs', skip_ws ((i + length (pwords argv ++ predirs rs))%nat, k)) /\
    spell s <$> argv' = argv /\ spell_r s <$> rs' = rs.
Proof.
  induction argv as [|w argv IH]; intros i rs k f acc racc Hd Hor HFa HFr Hk Hf Hlen; (destruct f as [|f]; [simpl in Hf; lia|]).
  { destruct Hor as [?| ->]; [done|]. exists [], []. cbn [pwords predirs flat_map app length] in *.
    rewrite args_end, !app_nil_r, Nat.add_0_r by done. done. }
  apply Forall_cons in HFa as [Hw HFa]. set (rest := pwords argv ++ predirs rs ++ k).
  change (pwords (w :: argv) ++ predirs rs ++ k) with ((32 :: w ++ pwords argv) ++ predirs rs ++ k) in *.
  cbn [app] in *. rewrite <- app_assoc in *. fold rest in Hd |- *.
  assert (Hst : stops rest) by (unfold rest; destruct argv; [destruct rs; [by apply stops_F0 | done] | done]).
  assert (Hd2 : drop (S i + length w) s = rest) by (apply drop_app_more; by eapply drop_cons in Hd).
  cbn [args]. assert (Hpk : peek (i, 32 :: w ++ rest) "|)&;" = (false, skip_ws (i, 32 :: w ++ rest))).
  { destruct Hw as [Hne HF]. destruct w as [|c w]; [done|]. apply Forall_cons in HF as [[Hc _] _]. apply word_not_ws in Hc as [H1 H2].
    cbn [app]. rewrite peek_sp by done. f_equal. destruct (chr_in (bytes_of_string "|)&;") c) eqn:E; [|done]. exfalso. revert H2. byte_sets. }
  rewrite Hpk, gettoken_skip, get_word by done. change (ch_a =? 0) with false. change (ch_a =? ch_a) with true. cbn [negb].
  rewrite (proj2 (Nat.leb_gt _ _)) by (rewrite length_app; simpl in *; lia). rewrite redirs_skip.
  set (w' := (S i, (S i + length w)%nat)). assert (Hsw : spell s w' = w).
  { apply (spell_word s (S i) w rest). by eapply drop_cons in Hd. }
  destruct (decide (argv = [])) as [->|Hne].
  - destruct (redirs_print s rs (S i + length w)%nat k (S (len (skip_ws ((S i + length w)%nat, rest))))) as (rs' & Hr & Hsr);
      [done | done | by apply no_redir_F0 | by apply stops_F0 | pose proof (predirs_len rs (S i + length w)%nat k) as Hpl; change (predirs rs ++ k) with rest in Hpl; lia |].
    change (predirs rs ++ k) with rest in Hr. rewrite Hr. unfold mbind, res_bind. rewrite args_skip.
    destruct f as [|f]; [simpl in Hf; lia|]. rewrite args_end by done. exists [w'], rs'. split_and!; [|cbn [fmap list_fmap]; by rewrite Hsw | done].
    do 4 f_equal. rewrite length_app, pwords_len. simpl. lia.
  - destruct (redirs_print s [] (S i + length w)%nat rest (S (len (skip_ws ((S i + length w)%nat, rest))))) as (rs0 & Hr & Hs0);
      [done | constructor | | done | simpl; lia |].
    { unfold rest. destruct argv as [|x argv]; [done|]. apply Forall_cons in HFa as [Hx _].
      change (pwords (x :: argv) ++ predirs rs ++ k) with ((32 :: x ++ pwords argv) ++ predirs rs ++ k). cbn [app].
      rewrite <- app_assoc. by apply no_redir_word. }
    apply fmap_nil_inv in Hs0 as ->. cbn [predirs flat_map app length] in Hr. rewrite Hr. unfold mbind, res_bind. rewrite args_skip, Nat.add_0_r, app_nil_r.
    destruct (IH (S i + length w)%nat rs k f (acc ++ [w']) racc) as (argv' & rs' & Ha & Hsa & Hsr);
      [done | by left | done | done | done | simpl in Hf; lia | rewrite length_app; simpl in *; lia |].
    fold rest in Ha. rewrite Ha. exists (w' :: argv'), rs'. split_and!; [|cbn [fmap list_fmap]; by rewrite Hsw, Hsa | done].
    rewrite <- app_assoc. do 4 f_equal. rewrite !length_app, pwords_len. lia.
Qed.

(** ** The levels of the grammar *)

Section Levels.
Context (s : list Z).

Definition PE (c : cmd text) : Prop := forall rs i k f,
  drop i s = print 0 c ++ predirs rs ++ k -> Forall redir_wf rs -> follow F0 k ->
  (4 * length (print 0 c ++ predirs rs ++ k) + 2 <= f)%nat ->
  exists c', parseexec f (i, print 0 c ++ predirs rs ++ k) =
      Ok (c', skip_ws ((i + length (print 0 c ++ predirs rs))%nat, k)) /\ cmd_map (spell s) c' = wrap c rs.
Definition PP (c : cmd text) : Prop := forall i k f,
  drop i s = print 1 c ++ k -> follow F1 k -> (4 * length (print 1 c ++ k) + 3 <= f)%nat ->
  exists c', parsepipe f (i, print 1 c ++ k) = Ok (c', skip_ws ((i + length (print 1 c))%nat, k)) /\ cmd_map (spell s) c' = c.
(** A pipeline and what the loop over [&] makes of the rest. *)
Definition pipe_backs (f : nat) (p : ptr) : res (cmd tok * ptr) :=
  '(c, p) ← parsepipe f p; backs (S (len p)) c p.
Definition PB (c : cmd text) : Prop := forall i k f,
  drop i s = print 2 c ++ k -> follow F1 k -> (4 * length (print 2 c ++ k) + 3 <= f)%nat ->
  exists c', pipe_backs f (i, print 2 c ++ k) = backs (S (length k)) c' ((i + length (print 2 c))%nat, k) /\
    cmd_map (spell s) c' = c.
Definition PL (c : cmd text) : Prop := forall i k f,
  drop i s = print 3 c ++ k -> follow F3 k -> (4 * length (print 3 c ++ k) + 4 <= f)%nat ->
  exists c', parseline f (i, print 3 c ++ k) = Ok (c', skip_ws ((i + length (print 3 c))%nat, k)) /\ cmd_map (spell s) c' = c.

Lemma backs_fuel f : forall f' c p, (len (skip_ws p) < f)%nat -> (len (skip_ws p) < f')%nat -> backs f c p = backs f' c p.
Proof.
  induction f as [|f IH]; intros f' c p Hf Hf'; [lia|]. destruct f' as [|f']; [lia|]. cbn [backs]. unfold peek.
  destruct ((skip_ws p).2) as [|x r] eqn:E; [done|]. destruct (chr_in (bytes_of_string "&") x) eqn:Ex; [|done].
  assert (x = 38) as -> by (revert Ex; byte_sets). rewrite gettoken_skip. unfold gettoken. rewrite E.
  change (chr_in (bytes_of_string "|();&<") 38) with true. cbn [fst snd]. unfold len in *. rewrite E in Hf, Hf'. cbn [length] in *.
  pose proof (skip_ws_len (S (skip_ws p).1, r)) as Hl. unfold len in Hl. cbn [snd] in Hl.
  apply IH; rewrite skip_ws_idem; unfold len; lia.
Qed.

Lemma backs_end f c i k ts : follow ts k -> (forall x, chr_in ts x = true -> chr_in (bytes_of_string "&") x = false) ->
  backs (S f) c (i, k) = Ok (c, skip_ws (i, k)).
Proof. intros Hk Hd. cbn [backs]. by rewrite (peek_follow i k ts "&"). Qed.

Lemma parseline_unfold f p : parseline (S f) p =
  '(c, p) ← pipe_backs f p;
  let '(b, p) := peek p ";" in
  if (b : bool) then let '(_, _, p) := gettoken p in '(r, p) ← parseline f p; mret (LIST c r, p) else mret (c, p).
Proof. cbn [parseline]. unfold pipe_backs. by destruct (parsepipe f p) as [[c q]| |]. Qed.

(** *** From one level to the next *)

Lemma PE_PP c : print 1 c = print 0 c -> PE c -> PP c.
Proof.
  intros Heq HE i k f Hd Hk Hf. rewrite Heq in *. destruct f as [|f]; [lia|]. cbn [parsepipe].
  destruct (HE [] i k f) as (c' & Hp & Hc); [done | constructor | by apply F10 | cbn [predirs flat_map app]; lia |].
  cbn [predirs flat_map app] in Hp. rewrite app_nil_r in Hp. rewrite Hp. unfold mbind, res_bind.
  rewrite peek_skip, (peek_follow _ k F1 "|") by (done || byte_sets). by exists c'.
Qed.

Lemma PP_PB c : print 2 c = print 1 c -> PP c -> PB c.
Proof.
  intros Heq HP i k f Hd Hk Hf. rewrite Heq in *. destruct (HP i k f) as (c' & Hp & Hc); [done..|].
  exists c'. split; [|done]. unfold pipe_backs. rewrite Hp. unfold mbind, res_bind. rewrite backs_skip. apply backs_fuel; [lia|].
  pose proof (skip_ws_len ((i + length (print 1 c))%nat, k)) as Hl. unfold len in *. simpl in *. lia.
Qed.

Lemma PB_PL c : print 3 c = print 2 c -> PB c -> PL c.
Proof.
  intros Heq HB i k f Hd Hk Hf. rewrite Heq in *. destruct f as [|f]; [lia|]. rewrite parseline_unfold.
  destruct (HB i k f) as (c' & Hp & Hc); [done | by apply F31 | lia |]. rewrite Hp.
  rewrite (backs_end _ _ _ _ F3) by (done || byte_sets). unfold mbind, res_bind.
  rewrite peek_skip, (peek_follow _ k F3 ";") by (done || byte_sets). by exists c'.
Qed.

Lemma cmd_map_wrap rs : forall c, cmd_map (spell s) (wrap c rs) = wrap (cmd_map (spell s) c) (spell_r s <$> rs).
Proof. induction rs as [|r rs IH]; intros c; [done|]. cbn [wrap fold_left fmap list_fmap]. apply (IH (redircmd c r)). Qed.

(** In parentheses every command is a simple one. *)
Lemma PL_PE c : print 0 c = 32 :: 40 :: print 3 c ++ [32; 41] -> PL c -> PE c.
Proof.
  intros Heq HL rs i k f Hd HF Hk Hf. rewrite Heq in *. set (k1 := 32 :: 41 :: predirs rs ++ k).
  assert (Hs : (32 :: 40 :: print 3 c ++ [32; 41]) ++ predirs rs ++ k = 32 :: 40 :: print 3 c ++ k1).
  { cbn [app]. by rewrite <- app_assoc. }
  rewrite Hs in *. cbn [length] in Hf. destruct f as [|[|f]]; [lia | lia |]. cbn [parseexec].
  rewrite peek_sp by done. change (chr_in (bytes_of_string "(") 40) with true. cbn [parseblock].
  rewrite peek_skip, peek_sp by done. change (chr_in (bytes_of_string "(") 40) with true. cbn [negb].
  rewrite gettoken_skip, get_sym, parseline_skip by done.
  assert (Hd2 : drop (S (S i)) s = print 3 c ++ k1) by (do 2 eapply drop_cons in Hd as Hd; done).
  destruct (HL (S (S i)) k1 f) as (c' & Hp & Hc); [done | done | lia |]. rewrite Hp. unfold mbind at 1, res_bind at 1.
  set (j := (S (S i) + length (print 3 c))%nat). unfold k1. rewrite peek_skip, peek_sp by done.
  change (chr_in (bytes_of_string ")") 41) with true. cbn [negb]. rewrite gettoken_skip, get_sym by done.
  unfold parseredirs. rewrite redirs_skip.
  assert (Hd3 : drop (S (S j)) s = predirs rs ++ k).
  { apply drop_app_more in Hd2. fold j in Hd2. do 2 eapply drop_cons in Hd2 as Hd2. done. }
  destruct (redirs_print s rs (S (S j)) k (S (len (skip_ws (S (S j), predirs rs ++ k))))) as (rs' & Hr & Hsr);
    [done | done | by apply no_redir_F0 | by apply stops_F0 | pose proof (predirs_len rs (S (S j)) k); lia |].
  rewrite Hr. unfold mbind, res_bind, mret, res_ret. exists (wrap c' rs'). rewrite cmd_map_wrap, Hc, Hsr. split; [|done].
  do 4 f_equal. unfold j. rewrite !length_app. cbn [length]. rewrite length_app. simpl. lia.
Qed.

(** *** Each kind of command at its own level *)

Lemma pwords_fuel argv i k : Forall word_ok argv -> (length argv <= len (skip_ws (i, pwords argv ++ k)))%nat.
Proof.
  intros HF. destruct argv as [|w argv]; [simpl; lia|].
  assert (Hl : forall l, (length l <= length (pwords l))%nat).
  { induction l as [|x l IH]; [simpl; lia|]. rewrite pwords_len. simpl. lia. }
  apply Forall_cons in HF as [[Hne HF] _]. destruct w as [|c w]; [done|]. apply Forall_cons in HF as [[Hc _] _].
  apply word_not_ws in Hc as [H1 _].
  change (pwords ((c :: w) :: argv) ++ k) with ((32 :: c :: w ++ pwords argv) ++ k). cbn [app].
  rewrite skip_ws_cons, skip_ws_stop by done. unfold len. cbn [snd length]. rewrite !length_app. specialize (Hl argv). lia.
Qed.

Lemma no_open argv rs k i : Forall word_ok argv -> follow F0 k ->
  peek (i, pwords argv ++ predirs rs ++ k) "(" = (false, skip_ws (i, pwords argv ++ predirs rs ++ k)).
Proof.
  intros HF Hk. destruct argv as [|w argv]; [destruct rs as [|r rs]|].
  - cbn [pwords predirs flat_map app]. apply (peek_follow _ _ F0); [done|]. byte_sets.
  - change (pwords [] ++ predirs (r :: rs) ++ k) with ((32 :: (if r.2 =? 0 then 60 else 62) :: (32 :: r.1.1) ++ predirs rs) ++ k).
    cbn [app]. destruct (r.2 =? 0); by rewrite peek_sp.
  - apply Forall_cons in HF as [[Hne HF] _]. destruct w as [|c w]; [done|]. apply Forall_cons in HF as [[Hc _] _].
    apply word_not_ws in Hc as [H1 H2].
    change (pwords ((c :: w) :: argv) ++ predirs rs ++ k) with (32 :: c :: (w ++ pwords argv) ++ predirs rs ++ k).
    rewrite peek_sp by done. f_equal. destruct (chr_in (bytes_of_string "(") c) eqn:E; [|done]. exfalso. revert H2. byte_sets.
Qed.

Lemma PE_exec argv : printable (EXEC argv) -> PE (EXEC argv).
Proof.
  intros [Hn HFa] rs i k f Hd HF Hk Hf. cbn [print] in *. destruct f as [|f]; [lia|]. cbn [parseexec].
  rewrite no_open, redirs_skip by done. destruct (decide (argv = [])) as [->|Hne].
  - cbn [pwords flat_map app] in *.
    destruct (redirs_print s rs i k (S (len (skip_ws (i, predirs rs ++ k))))) as (rs' & Hr & Hsr);
      [done | done | by apply no_redir_F0 | by apply stops_F0 | pose proof (predirs_len rs i k); lia |].
    rewrite Hr. unfold mbind at 1, res_bind at 1. rewrite args_skip, args_end by done. unfold mbind, res_bind, mret, res_ret.
    exists (wrap (EXEC []) rs'). by rewrite cmd_map_wrap, Hsr.
  - set (rest := pwords argv ++ predirs rs ++ k) in *.
    destruct (redirs_print s [] i rest (S (len (skip_ws (i, rest))))) as (rs0 & Hr & Hs0); [done | constructor | | | simpl; lia |].
    { unfold rest. destruct argv as [|w argv]; [done|]. apply Forall_cons in HFa as [Hw _].
      change (pwords (w :: argv) ++ predirs rs ++ k) with ((32 :: w ++ pwords argv) ++ predirs rs ++ k). cbn [app].
      rewrite <- app_assoc. by apply no_redir_word. }
    { unfold rest. by destruct argv. }
    apply fmap_nil_inv in Hs0 as ->. cbn [predirs flat_map app length] in Hr. rewrite Hr, Nat.add_0_r.
    unfold mbind at 1, res_bind at 1. rewrite args_skip.
    destruct (args_print s argv i rs k (S (len (skip_ws (i, rest)))) [] []) as (argv' & rs' & Ha & Hsa & Hsr);
      [done | by left | done | done | done | pose proof (pwords_fuel argv i (predirs rs ++ k) HFa); unfold rest; lia | simpl; lia |].
    fold rest in Ha. rewrite Ha. unfold mbind, res_bind, mret, res_ret. cbn [app]. exists (wrap (EXEC argv') rs').
    split; [done|]. rewrite cmd_map_wrap. cbn [cmd_map]. by rewrite Hsa, Hsr.
Qed.

Lemma PE_redir c f m d : redir_wf (f, m, d) -> PE c -> PE (REDIR c f m d).
Proof.
  intros Hr HE rs i k fl Hd HF Hk Hf. cbn [print] in *. rewrite <- app_assoc in *.
  change (predir (f, m, d) ++ predirs rs ++ k) with (predir (f, m, d) ++ (predirs rs ++ k)) in *.
  assert (Heq : predir (f, m, d) ++ predirs rs ++ k = predirs ((f, m, d) :: rs) ++ k) by (unfold predirs; cbn [flat_map]; by rewrite <- app_assoc).
  rewrite Heq in *. destruct (HE ((f, m, d) :: rs) i k fl) as (c' & Hp & Hc); [done | by constructor | done | done |].
  exists c'. split; [|exact Hc]. rewrite Hp. do 4 f_equal. unfold predirs. cbn [flat_map]. by rewrite app_assoc.
Qed.

Lemma PP_pipe l r : PE l -> PP r -> PP (PIPE l r).
Proof.
  intros HL HR i k f Hd Hk Hf. cbn [print paren Nat.ltb Nat.leb] in *. rewrite <- app_assoc in *. cbn [app] in *.
  destruct f as [|f]; [lia|]. cbn [parsepipe]. rewrite length_app in Hf. cbn [length] in Hf. set (k1 := 32 :: 124 :: print 1 r ++ k) in *.
  destruct (HL [] i k1 f) as (l' & Hp & Hl); [done | constructor | done | cbn [predirs flat_map app]; rewrite length_app; unfold k1; cbn [length]; lia |].
  cbn [predirs flat_map app] in Hp. rewrite app_nil_r in Hp. rewrite Hp. unfold mbind at 1, res_bind at 1. unfold k1.
  rewrite peek_skip, peek_sp by done. change (chr_in (bytes_of_string "|") 124) with true.
  rewrite gettoken_skip, get_sym, parsepipe_skip by done. set (j := (i + length (print 0 l))%nat).
  apply drop_app_more in Hd. fold j in Hd. do 2 eapply drop_cons in Hd as Hd.
  destruct (HR (S (S j)) k f) as (r' & Hpr & Hr); [done | done | lia |].
  rewrite Hpr. unfold mbind, res_bind, mret, res_ret. exists (PIPE l' r'). cbn [cmd_map]. rewrite Hl, Hr. split; [|done].
  do 4 f_equal. unfold j. rewrite length_app. cbn [length]. lia.
Qed.

Lemma backs_amp f c i k : backs (S f) c (i, 32 :: 38 :: k) = backs f (BACK c) (S (S i), k).
Proof.
  cbn [backs]. rewrite peek_sp by done. change (chr_in (bytes_of_string "&") 38) with true.
  by rewrite gettoken_skip, get_sym, backs_skip.
Qed.

Lemma PB_back c : PB c -> PB (BACK c).
Proof.
  intros HB i k f Hd Hk Hf. cbn [print paren Nat.ltb Nat.leb] in *. rewrite <- app_assoc in *. cbn [app] in *.
  destruct (HB i (32 :: 38 :: k) f) as (c' & Hp & Hc); [done | done | done |]. rewrite Hp.
  exists (BACK c'). cbn [cmd_map]. rewrite Hc. split; [|done]. cbn [length]. rewrite backs_amp.
  replace (S (S (i + length (print 2 c)))) with (i + length (print 2 c ++ [32; 38]%Z))%nat by (rewrite length_app; simpl; lia).
  set (q := (_, k) : ptr). pose proof (skip_ws_len q). apply (backs_fuel (S (S (length k))) (S (length k))); unfold len in *; simpl in *; lia.
Qed.

Lemma PL_list l r : PB l -> PL r -> PL (LIST l r).
Proof.
  intros HL HR i k f Hd Hk Hf. cbn [print paren Nat.ltb Nat.leb] in *. rewrite <- app_assoc in *. cbn [app] in *.
  destruct f as [|f]; [lia|]. rewrite parseline_unfold. rewrite length_app in Hf. cbn [length] in Hf. set (k1 := 32 :: 59 :: print 3 r ++ k) in *.
  destruct (HL i k1 f) as (l' & Hp & Hl); [done | done | rewrite length_app; unfold k1; cbn [length]; lia |].
  rewrite Hp. cbn [backs]. unfold k1. rewrite peek_sp by done. change (chr_in (bytes_of_string "&") 59) with false.
  unfold mbind at 1, res_bind at 1. unfold mret at 1, res_ret at 1. rewrite peek_skip, peek_sp by done.
  change (chr_in (bytes_of_string ";") 59) with true. rewrite gettoken_skip, get_sym, parseline_skip by done.
  set (j := (i + length (print 2 l))%nat). apply drop_app_more in Hd. fold j in Hd. do 2 eapply drop_cons in Hd as Hd.
  destruct (HR (S (S j)) k f) as (r' & Hpr & Hr); [done | done | lia |].
  rewrite Hpr. unfold mbind, res_bind, mret, res_ret. exists (LIST l' r'). cbn [cmd_map]. rewrite Hl, Hr. split; [|done].
  do 4 f_equal. unfold j. rewrite length_app. cbn [length]. lia.
Qed.

Lemma parse_levels c : printable c -> PE c /\ PP c /\ PB c /\ PL c.
Proof.
  induction c as [argv|c IH f m d|l IHl r IHr|l IHl r IHr|c IH]; intros Hp.
  - pose proof (PE_exec argv Hp) as HE. assert (HP : PP (EXEC argv)) by (by apply PE_PP).
    assert (HB : PB (EXEC argv)) by (by apply PP_PB). split_and!; try done. by apply PB_PL.
  - destruct Hp as [Hc Hr]. destruct (IH Hc) as (HE0 & _). pose proof (PE_redir c f m d Hr HE0) as HE.
    assert (HP : PP (REDIR c f m d)) by (by apply PE_PP). assert (HB : PB (REDIR c f m d)) by (by apply PP_PB).
    split_and!; try done. by apply PB_PL.
  - destruct Hp as [Hl Hr]. destruct (IHl Hl) as (HE & _), (IHr Hr) as (_ & HPr & _). pose proof (PP_pipe l r HE HPr) as HP.
    assert (HB : PB (PIPE l r)) by (by apply PP_PB). assert (HL : PL (PIPE l r)) by (by apply PB_PL). split_and!; try done.
    by apply PL_PE.
  - destruct Hp as [Hl Hr]. destruct (IHl Hl) as (_ & _ & HB & _), (IHr Hr) as (_ & _ & _ & HLr). pose proof (PL_list l r HB HLr) as HL.
    assert (HE : PE (LIST l r)) by (by apply PL_PE). assert (HP : PP (LIST l r)) by (by apply PE_PP). split_and!; try done. by apply PP_PB.
  - destruct (IH Hp) as (_ & _ & HB0 & _). pose proof (PB_back c HB0) as HB. assert (HL : PL (BACK c)) by (by apply PB_PL).
    assert (HE : PE (BACK c)) by (by apply PL_PE). split_and!; try done. by apply PE_PP.
Qed.

End Levels.

(** ** The round trip *)

Lemma byte_nz c : is_word c = true /\ c <> 0 -> c <> 0.
Proof. tauto. Qed.

Lemma print_nz c : forall lv, printable c -> Forall (fun x => x <> 0) (print lv c).
Proof.
  assert (Hw : forall w, word_ok w -> Forall (fun x : Z => x <> 0) w).
  { intros w [_ HF]. eapply Forall_impl; [exact HF|]. intros x. apply byte_nz. }
  assert (Hpar : forall b x, Forall (fun x : Z => x <> 0) x -> Forall (fun x : Z => x <> 0) (paren b x)).
  { intros [] x Hx; [|done]. unfold paren. repeat (constructor; [done|]). apply Forall_app. split; [done|]. by repeat constructor. }
  induction c as [argv|c IH f m d|l IHl r IHr|l IHl r IHr|c IH]; intros lv Hp; cbn [print printable] in *.
  - destruct Hp as [_ HF]. induction HF as [|w argv Hx HF IH]; [constructor|]. unfold pwords in *. cbn [flat_map pword].
    apply Forall_app. split; [|done]. constructor; [done | by apply Hw].
  - destruct Hp as [Hc [Hf _]]. apply Forall_app. split; [by apply IH|]. unfold predir. cbn [fst snd].
    constructor; [done|]. constructor; [by destruct (d =? 0)|]. constructor; [done | by apply Hw].
  - destruct Hp as [Hl Hr]. apply Hpar, Forall_app. split; [by apply IHl|]. by repeat (constructor; [done|]); apply IHr.
  - destruct Hp as [Hl Hr]. apply Hpar, Forall_app. split; [by apply IHl|]. by repeat (constructor; [done|]); apply IHr.
  - apply Hpar, Forall_app. split; [by apply IH|]. by repeat constructor.
Qed.

Lemma cmd_map_ext {B} (f g : tok -> B) c : (forall w, w ∈ toks c -> f w = g w) -> cmd_map f c = cmd_map g c.
Proof.
  induction c as [argv|c IH x m d|l IHl r IHr|l IHl r IHr|c IH]; intros H; cbn [cmd_map toks] in *.
  - f_equal. apply list_fmap_ext. intros i w Hw. apply H. by eapply list_elem_of_lookup_2.
  - rewrite IH by (intros w Hw; apply H, elem_of_app; by left).
    by rewrite (H x) by (apply elem_of_app; right; by left).
  - by rewrite IHl, IHr by (intros w Hw; apply H, elem_of_app; tauto).
  - by rewrite IHl, IHr by (intros w Hw; apply H, elem_of_app; tauto).
  - by rewrite IH.
Qed.

(** C4: every command tree, with words of word characters, the redirections of the
    grammar and at most [MAXARGS - 1] arguments per simple command, can be typed: the
    line [print] writes for it is parsed back to exactly this command, so precedence,
    associativity, parentheses and redirections of the parser are those of the grammar. *)
Theorem parse_print c : printable c -> parse (print 3 c) = Ok c.
Proof.
  intros Hp. set (s := print 3 c). pose proof (print_nz c 3 Hp) as Hnz. fold s in Hnz.
  destruct (parse_levels s c Hp) as (_ & _ & _ & HL).
  destruct (HL O [] (4 * length s + 4)%nat) as (c' & Hpl & Hc).
  { unfold s. by rewrite app_nil_r. }
  { done. }
  { unfold s. rewrite app_nil_r. lia. }
  rewrite app_nil_r in Hpl. fold s in Hpl.
  assert (Hpc : parsecmd s = Ok (c', nulterminate c' (s ++ [0]))).
  { unfold parsecmd. rewrite Hpl. unfold mbind, res_bind. unfold peek. rewrite skip_ws_idem. done. }
  pose proof (parsecmd_spec s Hnz) as Hok. rewrite Hpc in Hok. destruct Hok as [Hok _].
  unfold parse. rewrite Hpc. unfold mbind, res_bind, mret, res_ret. f_equal. rewrite <- Hc. apply cmd_map_ext.
  intros w Hw. apply string_at_tok; [done | by apply cmd_ok_toks | done].
Qed.

Lemma parse_print_witness :
  let w := bytes_of_string in
  let c := LIST (BACK (PIPE (EXEC [w "a"; w "b"]) (REDIR (LIST (EXEC [w "c"]) (EXEC [])) (w "out") 0x201 1)))
                (REDIR (EXEC [w "d"]) (w "in") 0 0) in
  parse (print 3 c) = Ok c.
Proof.
  apply parse_print. cbn [printable]. unfold redir_wf, word_ok, redir_mode. cbn [fst snd].
  split_and!; try (repeat constructor; discriminate || done); try (by left); try (by right); vm_compute; lia || discriminate.
Defined.

End ShPrint.
