(* ===== verification/ShRun.v ===== *)
(** * The shell: the descriptors of the programs it runs

    [runs_to] executes the system calls of a shell process and of its children on their
    descriptor tables and collects what each process does: the programs that are executed
    and the waits of the shell processes, each with the descriptors that are open then, and
    the children.  A command line means, for each of its simple commands, a standard input
    and output, and for each list and pipe line the waits for its parts; the processes do
    exactly this. *)

From stdpp Require Import base gmap list strings.
From Stdlib Require Import ZArith Lia.
From S2P Require Import Prelude Sh.
Import Sh.

Module ShRun.

Abbreviation text := (list Z).

(** What a descriptor refers to. *)
Inductive obj : Type :=
| OTerm (n : Z)
| OFile (name : text) (mode : Z)
| OPipeR (id : Z)
| OPipeW (id : Z).

Abbreviation fdtab := (gmap Z obj).

Definition NOFILE : nat := 16.

(** The lowest free descriptor, as [fdalloc] of the kernel takes it. *)
Definition lowest (t : fdtab) : option Z :=
  head (filter (fun d => t !! d = None) (Z.of_nat <$> seq 0 NOFILE)).

(** What a process does: it becomes a program, with these descriptors; it forks a child,
    which does all this; it waits for a child, with these descriptors open. *)
#[warnings="-register-all"] Inductive act : Type :=
| ARun (argv : list text) (t : fdtab)
| AFork (child : list act)
| AWait (t : fdtab).

Inductive runs_to : fdtab -> prog -> list act -> Prop :=
| R_exit t : runs_to t PExit []
| R_exec t argv k : runs_to t (PExec argv k) [ARun argv t]
| R_exec_fail t argv k ev : runs_to t k ev -> runs_to t (PExec argv k) ev
| R_fork t k pid ev ev' : 0 < pid -> runs_to t (k 0) ev -> runs_to t (k pid) ev' -> runs_to t (PFork k) (AFork ev :: ev')
| R_fork_fail t k ev : runs_to t (k (-1)) ev -> runs_to t (PFork k) ev
| R_wait t k ev : runs_to t k ev -> runs_to t (PWait k) (AWait t :: ev)
| R_close t d k ev : runs_to (delete d t) k ev -> runs_to t (PClose d k) ev
| R_dup t d x d' k ev : t !! d = Some x -> lowest t = Some d' -> runs_to (<[d' := x]> t) k ev -> runs_to t (PDup d k) ev
| R_dup_fail t d k ev : t !! d = None \/ lowest t = None -> runs_to t k ev -> runs_to t (PDup d k) ev
| R_open t f m d k ev : lowest t = Some d -> runs_to (<[d := OFile f m]> t) (k d) ev -> runs_to t (POpen f m k) ev
| R_open_fail t f m k ev : runs_to t (k (-1)) ev -> runs_to t (POpen f m k) ev
| R_pipe t id d d' k ev :
    lowest t = Some d -> lowest (<[d := OPipeR id]> t) = Some d' ->
    runs_to (<[d' := OPipeW id]> (<[d := OPipeR id]> t)) (k (Some (d, d'))) ev -> runs_to t (PPipe k) ev
| R_pipe_fail t k ev : runs_to t (k None) ev -> runs_to t (PPipe k) ev
| R_print t d b k ev : runs_to t k ev -> runs_to t (PPrint d b k) ev.

(** The three standard descriptors, and nothing else. *)
Definition std (i o e : obj) : fdtab := <[0 := i]> (<[1 := o]> (<[2 := e]> ∅)).

(** What a command means with standard input [i], output [o] and error output [e]: the
    programs and their connections, and the waits of the processes between them, in which
    the three descriptors are the only open ones.  A system call that fails cuts the rest
    off. *)
Inductive means (e : obj) : obj -> obj -> cmd text -> list act -> Prop :=
| M_empty i o : means e i o (EXEC []) []
| M_exec i o a argv : means e i o (EXEC (a :: argv)) [ARun (a :: argv) (std i o e)]
| M_exec_fail i o a argv : means e i o (EXEC (a :: argv)) []
| M_in i o c f m ev : means e (OFile f m) o c ev -> means e i o (REDIR c f m 0) ev
| M_out i o c f m ev : means e i (OFile f m) c ev -> means e i o (REDIR c f m 1) ev
| M_open_fail i o c f m d : means e i o (REDIR c f m d) []
| M_list i o l r ev ev' : means e i o l ev -> means e i o r ev' ->
    means e i o (LIST l r) (AFork ev :: AWait (std i o e) :: ev')
| M_list_fail i o l r : means e i o (LIST l r) []
| M_pipe i o l r id ev ev' :
    means e i (OPipeW id) l ev -> means e (OPipeR id) o r ev' ->
    means e i o (PIPE l r) [AFork ev; AFork ev'; AWait (std i o e); AWait (std i o e)]
| M_pipe_half i o l r id ev : means e i (OPipeW id) l ev -> means e i o (PIPE l r) [AFork ev]
| M_pipe_fail i o l r : means e i o (PIPE l r) []
| M_back i o c ev : means e i o c ev -> means e i o (BACK c) [AFork ev]
| M_back_fail i o c : means e i o (BACK c) [].

(** All descriptor tables of a run. *)
Fixpoint act_tables (a : act) : list fdtab :=
  match a with
  | ARun _ t | AWait t => [t]
  | AFork l => concat (act_tables <$> l)
  end.
Definition tables (l : list act) : list fdtab := concat (act_tables <$> l).

(** Redirections of standard input and output only, as the parser makes them. *)
Fixpoint std_redirs (c : cmd text) : Prop :=
  match c with
  | EXEC _ => True
  | REDIR c _ _ d => (d = 0 \/ d = 1) /\ std_redirs c
  | PIPE l r | LIST l r => std_redirs l /\ std_redirs r
  | BACK c => std_redirs c
  end.

(** *** The descriptor tables along the way *)

Section Tables.
Context (i o e : obj).

Lemma std_close0 x : <[0 := x]> (delete 0 (std i o e)) = std x o e.
Proof. reflexivity. Qed.
Lemma std_close1 x : <[1 := x]> (delete 1 (std i o e)) = std i x e.
Proof. reflexivity. Qed.
Lemma lowest_close0 : lowest (delete 0 (std i o e)) = Some 0.
Proof. reflexivity. Qed.
Lemma lowest_close1 : lowest (delete 1 (std i o e)) = Some 1.
Proof. reflexivity. Qed.
Lemma lowest_std : lowest (std i o e) = Some 3.
Proof. reflexivity. Qed.
Lemma lowest_pipe x : lowest (<[3 := x]> (std i o e)) = Some 4.
Proof. reflexivity. Qed.

(** The table of a process that has made a pipe. *)
Definition with_pipe (id : Z) : fdtab := <[4 := OPipeW id]> (<[3 := OPipeR id]> (std i o e)).

Lemma pipe_left id : delete 4 (delete 3 (<[1 := OPipeW id]> (delete 1 (with_pipe id)))) = std i (OPipeW id) e.
Proof. reflexivity. Qed.
Lemma pipe_right id : delete 4 (delete 3 (<[0 := OPipeR id]> (delete 0 (with_pipe id)))) = std (OPipeR id) o e.
Proof. reflexivity. Qed.
(** The process that has made the pipe closes both ends before it waits. *)
Lemma pipe_parent id : delete 4 (delete 3 (with_pipe id)) = std i o e.
Proof. reflexivity. Qed.

End Tables.

(** *** Runs of the helpers *)

Lemma runs_panic t m ev : runs_to t (sh_panic m) ev -> ev = [].
Proof. unfold sh_panic. inversion 1 as [| | | | | | | | | | | | |? ? ? ? ? H1]; subst. by inversion H1. Qed.
Lemma runs_panic_ok t m : runs_to t (sh_panic m) [].
Proof. apply R_print, R_exit. Qed.

Lemma runs_fork1 t c p ev : runs_to t (fork1 c p) ev <->
  ev = [] \/ exists ev1 ev2, ev = AFork ev1 :: ev2 /\ runs_to t c ev1 /\ runs_to t p ev2.
Proof.
  unfold fork1. split.
  - inversion 1 as [| | |? ? pid ev1 ev2 Hpid H1 H2|? ? ? H1| | | | | | | | |]; subst; cbn beta in *.
    + right. exists ev1, ev2. rewrite (proj2 (Z.eqb_neq pid (-1))), (proj2 (Z.eqb_neq pid 0)) in H2 by lia. done.
    + left. exact (runs_panic _ _ _ H1).
  - intros [->|(ev1 & ev2 & -> & H1 & H2)]; [apply R_fork_fail, runs_panic_ok|].
    by apply (R_fork _ _ 1).
Qed.

Lemma runs_close t d k ev : runs_to t (PClose d k) ev <-> runs_to (delete d t) k ev.
Proof. split; [by inversion 1 | apply R_close]. Qed.
Lemma runs_wait t k ev : runs_to t (PWait k) ev <-> exists ev', ev = AWait t :: ev' /\ runs_to t k ev'.
Proof. split; [inversion 1; subst; eauto | intros (ev' & -> & H); by apply R_wait]. Qed.
Lemma runs_exit t ev : runs_to t PExit ev <-> ev = [].
Proof. split; [by inversion 1 | intros ->; apply R_exit]. Qed.
Lemma runs_dup t d x d' k ev : t !! d = Some x -> lowest t = Some d' ->
  runs_to t (PDup d k) ev <-> runs_to (<[d' := x]> t) k ev.
Proof.
  intros Hd Hl. split; [|by apply R_dup].
  inversion 1 as [| | | | | | |? ? x0 d0 ? ? H1 H2 H3|? ? ? ? Hf H1| | | | |]; subst; [by simplify_eq|]. destruct Hf; congruence.
Qed.
Lemma runs_message t d b ev : runs_to t (PPrint d b PExit) ev <-> ev = [].
Proof. split; [inversion 1 as [| | | | | | | | | | | | |? ? ? ? ? H1]; subst; by inversion H1 | intros ->; apply R_print, R_exit]. Qed.

Lemma runs_pipe i o e k ev : runs_to (std i o e) (PPipe k) ev <->
  runs_to (std i o e) (k None) ev \/ exists id, runs_to (with_pipe i o e id) (k (Some (3, 4))) ev.
Proof.
  split.
  - inversion 1 as [| | | | | | | | | | |? id d d' ? ? H1 H2 H3|? ? ? H1|]; subst; [|by left].
    rewrite lowest_std in H1. injection H1 as <-. rewrite lowest_pipe in H2. injection H2 as <-. right. by exists id.
  - intros [H|[id H]]; [by apply R_pipe_fail|]. by apply (R_pipe _ id 3 4).
Qed.

(** [close(fd); open(file)] gets the descriptor that was closed. *)
Lemma runs_open i o e d f m k ev : d = 0 \/ d = 1 ->
  runs_to (delete d (std i o e)) (POpen f m k) ev <->
  runs_to (delete d (std i o e)) (k (-1)) ev \/
  runs_to (if d =? 0 then std (OFile f m) o e else std i (OFile f m) e) (k d) ev.
Proof.
  intros Hd. split.
  - inversion 1 as [| | | | | | | | |? ? ? d0 ? ? H1 H2|? ? ? ? ? H2| | |]; subst; [right | by left].
    destruct Hd as [-> | ->]; [rewrite lowest_close0 in H1 | rewrite lowest_close1 in H1]; injection H1 as <-; exact H2.
  - intros [H|H]; [by apply R_open_fail|]. destruct Hd as [-> | ->]; (eapply R_open; [reflexivity | exact H]).
Qed.

(** The two halves of a pipe line run with the ends of the pipe in place. *)
Lemma runs_left i o e id k ev :
  runs_to (with_pipe i o e id) (PClose 1 (PDup 4 (PClose 3 (PClose 4 k)))) ev <-> runs_to (std i (OPipeW id) e) k ev.
Proof. by rewrite runs_close, (runs_dup _ 4 (OPipeW id) 1), !runs_close, pipe_left. Qed.
Lemma runs_right i o e id k ev :
  runs_to (with_pipe i o e id) (PClose 0 (PDup 3 (PClose 3 (PClose 4 k)))) ev <-> runs_to (std (OPipeR id) o e) k ev.
Proof. by rewrite runs_close, (runs_dup _ 3 (OPipeR id) 0), !runs_close, pipe_right. Qed.

(** What is left of a process that has forked both halves of a pipe line. *)
Lemma runs_parent i o e id ev :
  runs_to (with_pipe i o e id) (PClose 3 (PClose 4 (PWait (PWait PExit)))) ev <-> ev = [AWait (std i o e); AWait (std i o e)].
Proof.
  rewrite !runs_close, pipe_parent, runs_wait. setoid_rewrite runs_wait. setoid_rewrite runs_exit. split.
  - intros (ev1 & -> & ev2 & -> & ->). done.
  - intros ->. eauto.
Qed.

(** No process has a descriptor above 2 open when it becomes a program or waits. *)
Lemma means_tables e i o c ev : means e i o c ev -> Forall (fun t => dom t = {[0; 1; 2]}) (tables ev).
Proof.
  assert (Hstd : forall i o e, dom (std i o e) =@{gset Z} {[0; 1; 2]}) by (intros; reflexivity).
  induction 1; unfold tables in *; cbn [fmap list_fmap concat act_tables] in *; rewrite ?app_nil_r, ?Forall_app; auto.
Qed.

(** C28: running a command line does exactly what the line means.  Its programs run with these
    connections: a redirection replaces standard input or output, a pipe connects the
    output of its left to the input of its right command, lists and background commands
    inherit.  The process of a list forks its first part and waits before it goes on with the
    second; the process of a pipe line forks both halves, closes its own two ends of the pipe
    and waits twice.  Every run of [runcmd] is of this form and every such meaning is a run,
    and no process, program or shell, has a descriptor other than 0, 1 and 2 open when it
    becomes a program or waits: no pipe end leaks, which would keep a reader from seeing the
    end of the file. *)
Theorem runcmd_descriptors c : forall i o e ev, std_redirs c ->
  (runs_to (std i o e) (runcmd c) ev <-> means e i o c ev) /\
  (runs_to (std i o e) (runcmd c) ev -> Forall (fun t => dom t = {[0; 1; 2]}) (tables ev)).
Proof.
  intros i o e ev Hs. enough (H : runs_to (std i o e) (runcmd c) ev <-> means e i o c ev).
  { split; [done|]. intros Hr. by eapply means_tables, H. }
  revert i o e ev Hs.
  induction c as [argv|c IH f m d|l IHl r IHr|l IHl r IHr|c IH]; intros i o e ev Hs; cbn [runcmd std_redirs] in *.
  - destruct argv as [|a argv]; [rewrite runs_exit; split; [intros ->; constructor | by inversion 1]|]. split.
    + inversion 1 as [|? ? ?|? ? ? ? H1| | | | | | | | | | |]; subst; [constructor|]. apply runs_message in H1 as ->. constructor.
    + inversion 1; subst; [constructor|]. apply R_exec_fail. by apply runs_message.
  - destruct Hs as [Hd Hs]. rewrite runs_close.
    rewrite runs_open by done. cbn beta. change (-1 <? 0) with true. cbn iota. rewrite runs_message. destruct Hd as [-> | ->]; cbn [Z.eqb Z.ltb Z.compare]; rewrite IH by done.
    + split; [intros [->|H]; [apply M_open_fail | by apply M_in]|]. inversion 1; subst; auto.
    + split; [intros [->|H]; [apply M_open_fail | by apply M_out]|]. inversion 1; subst; auto.
  - destruct Hs as [Hl Hr]. rewrite runs_pipe. split.
    + intros [H|[id H]]; [apply runs_panic in H as ->; apply M_pipe_fail|].
      apply runs_fork1 in H as [->|(ev1 & ev2 & -> & H1 & H2)]; [apply M_pipe_fail|].
      rewrite runs_left, IHl in H1 by done.
      apply runs_fork1 in H2 as [->|(ev3 & ev4 & -> & H3 & H4)]; [by eapply M_pipe_half|].
      rewrite runs_right, IHr in H3 by done. apply runs_parent in H4 as ->. by eapply M_pipe.
    + inversion 1 as [| | | | | | | |? ? ? ? id ev1 ev2 H1 H2|? ? ? ? id ev1 H1| | |]; subst.
      * right. exists id. apply runs_fork1. right. eexists _, _. split_and!; [done | by rewrite runs_left, IHl |].
        apply runs_fork1. right. eexists _, _. split_and!; [done | by rewrite runs_right, IHr | by apply runs_parent].
      * right. exists id. apply runs_fork1. right. eexists _, _. split_and!; [done | by rewrite runs_left, IHl |].
        apply runs_fork1. by left.
      * left. apply runs_panic_ok.
  - destruct Hs as [Hl Hr]. rewrite runs_fork1. split.
    + intros [->|(ev1 & ev2 & -> & H1 & H2)]; [apply M_list_fail|]. apply runs_wait in H2 as (ev3 & -> & H2).
      rewrite IHr in H2 by done. rewrite IHl in H1 by done. by apply M_list.
    + inversion 1 as [| | | | | |? ? ? ? ev1 ev2 H1 H2| | | | | |]; subst; [|by left]. right. eexists _, _.
      split_and!; [done | by apply IHl |]. apply runs_wait. eexists. split; [done|]. by apply IHr.
  - rewrite runs_fork1. split.
    + intros [->|(ev1 & ev2 & -> & H1 & H2)]; [apply M_back_fail|]. apply runs_exit in H2 as ->.
      rewrite IH in H1 by done. by apply M_back.
    + inversion 1 as [| | | | | | | | | | |? ? ? ev1 H1|]; subst; [|by left]. right. eexists _, _.
      split_and!; [done | by apply IH | by apply runs_exit].
Qed.

Lemma runcmd_descriptors_witness :
  let t := OTerm 0 in let w := bytes_of_string in
  let c := PIPE (REDIR (EXEC [w "cat"]) (w "in") 0 0) (EXEC [w "wc"]) in
  runs_to (std t t t) (runcmd c)
    [AFork [ARun [w "cat"] (std (OFile (w "in") 0) (OPipeW 5) t)]; AFork [ARun [w "wc"] (std (OPipeR 5) t t)];
     AWait (std t t t); AWait (std t t t)].
Proof.
  apply runcmd_descriptors; [cbn [std_redirs]; auto|].
  eapply M_pipe; [apply M_in, M_exec | apply M_exec].
Defined.

End ShRun.
