(* ===== verification/Syscall.v ===== *)
(** * System calls: arguments (syscall.c), sysproc.c and sysvideo.c

    The kernel reads the arguments of a system call from the user stack, through the
    page table of the process.  An access to an address that the page table does not
    map is a page fault in the kernel, on which [trap] panics. *)

From stdpp Require Import base gmap list strings.
From Stdlib Require Import ZArith Lia.
From S2P Require Import Prelude CString Core Locking Kalloc Pipe Bio Log Tx Fs File Vm Proc VgaData Vga Console.
Import Sleeplock.

(** What the system calls use of the console and of the display. *)
Class Display (S : Type) : Type := {
  dp_puts : list Z -> M S unit;               (* one cprintf *)
  dp_getch : M S Z;
  dp_mode : Z -> M S Z;
  dp_pixel : Z -> Z -> Z -> M S Z;
  dp_clear13 : M S unit;
  dp_clear12 : M S unit
}.

(** The console and the display driver provide it; [fuel] bounds the polls for a key. *)
Definition console_display {S W D : Type} {HLw : Lens S W} {HLd : Lens W D} {HLv : Lens W Vga.vst}
  {HHw : VgaHw D} {HLc : Lens S core} {HLx : Lens S Console.cvars} (fuel : nat) : Display S := {|
  dp_puts := Console.cputs (W := W);
  dp_getch := Console.consoleget fuel;
  dp_mode m := zoom (Vga.consolevgamode m : M W Z);
  dp_pixel x y c := zoom (Vga.setpixel x y c : M W Z);
  dp_clear13 := zoom (Vga.zeroFillScreen13h : M W unit);
  dp_clear12 := zoom (Vga.zeroFillScreen12h : M W unit)
|}.

Module Syscall.

(** The clock of trap.c. *)
Record tickvars : Type := { ticks : Z }.

(** *** User memory *)

Definition PTE_Wb (e : Z) : bool := negb (Z.land e Vm.PTE_W =? 0).

(** The page walk of the processor for an access in kernel mode, with the page
    directory at [d]: where the byte is in the memory of the kernel.  Write protection
    holds in kernel mode too ([CR0_WP]). *)
Definition uaddr (m : mem) (d va : Z) (w : bool) : option Z :=
  let e := load32 m (d + 4 * Vm.PDX va) in
  if Vm.present e && (negb w || PTE_Wb e) then
    let t := load32 m (P2V (Vm.PTE_ADDR e) + 4 * Vm.PTX va) in
    if Vm.present t && (negb w || PTE_Wb t) then Some (P2V (Vm.PTE_ADDR t) + va mod PGSIZE) else None
  else None.

(** Bytes of a little-endian word. *)
Definition bytes32 (v : Z) : list Z := [u8 v; u8 (v / 2 ^ 8); u8 (v / 2 ^ 16); u8 (v / 2 ^ 24)].
Definition bytes16 (v : Z) : list Z := [u8 v; u8 (v / 2 ^ 8)].

Section Ops.
Context {S T : Type} {HLT : Lens S T} {HTx : TxLayer T} {HTb : TxBounds T} {HLc : Lens T core}
  {HLs : Lens T slocktab} {HLi : Lens S Fs.icache} {HLb : Lens S superblock} {HDv : Fs.DevSw S}
  {HP : Lens S Pipe.pipetab} {HA : PageAlloc S} {HF : Lens S File.ftable}
  {HR : Lens S ram} {HV : Lens S Vm.vmvars} {HPv : Lens S Proc.procvars} {HTk : Lens S tickvars}
  {HDi : Display S}.
(** The bound on the wakeups of each wait; addresses the linker chooses. *)
Context (wf : nat) (kdata forkret_addr trapret_addr : Z).

#[local] Instance core_lens : Lens S core := lens_comp (T := T).

Definition this_proc : M S nat := Proc.this_proc (T := T).
Definition getproc (p : nat) : M S proc := Proc.getproc (T := T) p.

Definition uget (va : Z) : M S Z :=
  d ← lgets (T := Vm.vmvars) (fun v => P2V (Vm.cr3 v));
  m ← lgets (T := ram) ram_bytes;
  match uaddr m d va false with
  | Some a => mret (loadb m a)
  | None => panic "trap"
  end.

Definition uput (va b : Z) : M S unit :=
  d ← lgets (T := Vm.vmvars) (fun v => P2V (Vm.cr3 v));
  m ← lgets (T := ram) ram_bytes;
  match uaddr m d va true with
  | Some a => Vm.rmod (fun m => storeb m a b)
  | None => panic "trap"
  end.

Fixpoint uread (va : Z) (n : nat) : M S (list Z) :=
  match n with
  | O => mret []
  | Datatypes.S n' => b ← uget va; l ← uread (u32 (va + 1)) n'; mret (b :: l)
  end.

Fixpoint uwrite (va : Z) (l : list Z) : M S unit :=
  match l with
  | [] => mret tt
  | b :: l' => uput va b;; uwrite (u32 (va + 1)) l'
  end.

(** ** syscall.c *)

(** The integer at [addr], or nothing for the result -1. *)
Definition fetchint (addr : Z) : M S (option Z) :=
  p ← this_proc;
  q ← getproc p;
  if (sz q <=? addr) || (sz q <? u32 (addr + 4)) then mret None
  else
    l ← uread addr 4;
    mret (Some (s32 (get32 l 0))).

(** The loop of [fetchstr] from [s] up to [ep]. *)
Fixpoint fetchstr_loop (fuel : nat) (s ep : Z) : M S (option (list Z)) :=
  match fuel with
  | O => mret None
  | Datatypes.S f =>
      if s <? ep then
        c ← uget s;
        if c =? 0 then mret (Some [])
        else
          r ← fetchstr_loop f (s + 1) ep;
          mret (cons c <$> r)
      else mret None
  end.

(** The string at [addr], whose length is the result; nothing for -1.  The pointer that
    the code hands out is [addr] itself. *)
Definition fetchstr (addr : Z) : M S (option (list Z)) :=
  p ← this_proc;
  q ← getproc p;
  if sz q <=? addr then mret None
  else fetchstr_loop (Z.to_nat (sz q - addr)) addr (sz q).

Definition argint (n : Z) : M S (option Z) :=
  p ← this_proc;
  q ← getproc p;
  fetchint (u32 (tf_esp (tf q) + 4 + 4 * n)).

Definition argptr (n size : Z) : M S (option Z) :=
  p ← this_proc;
  r ← argint n;
  match r with
  | None => mret None
  | Some i =>
      q ← getproc p;
      if (size <? 0) || (sz q <=? u32 i) || (sz q <? u32 (u32 i + size)) then mret None
      else mret (Some (u32 i))
  end.

Definition argstr (n : Z) : M S (option (list Z)) :=
  r ← argint n;
  match r with
  | None => mret None
  | Some addr => fetchstr (u32 addr)
  end.

(** ** sysproc.c *)

Definition sys_fork : M S Z := Proc.fork (T := T) kdata forkret_addr trapret_addr.

Definition sys_exit : M S Z := Proc.exit (T := T) wf;; mret 0.

Definition sys_wait : M S Z := Proc.wait (T := T) wf.

Definition sys_kill : M S Z :=
  r ← argint 0;
  match r with
  | None => mret (-1)
  | Some pid => Proc.kill (T := T) pid
  end.

Definition sys_getpid : M S Z :=
  p ← this_proc;
  q ← getproc p;
  mret (pid q).

Definition sys_sbrk : M S Z :=
  r ← argint 0;
  match r with
  | None => mret (-1)
  | Some n =>
      p ← this_proc;
      q ← getproc p;
      let addr := s32 (sz q) in
      g ← Proc.growproc (T := T) n;
      if g <? 0 then mret (-1) else mret addr
  end.

Definition get_ticks : M S Z := lgets (T := tickvars) ticks.

(** The loop of [sys_sleep]; the comparison of the [uint] difference with the [int] [n]
    is unsigned. *)
Fixpoint sleep_loop (fuel : nat) (ticks0 n : Z) : M S Z :=
  match fuel with
  | O => spin
  | Datatypes.S f =>
      t ← get_ticks;
      if u32 (t - ticks0) <? u32 n then
        p ← this_proc;
        q ← getproc p;
        if killed q then release L_tick;; mret (-1)
        else sleep ch_ticks L_tick;; sleep_loop f ticks0 n
      else release L_tick;; mret 0
  end.

Definition sys_sleep : M S Z :=
  r ← argint 0;
  match r with
  | None => mret (-1)
  | Some n =>
      acquire L_tick;;
      t0 ← get_ticks;
      sleep_loop wf t0 n
  end.

Definition sys_uptime : M S Z :=
  acquire L_tick;;
  t ← get_ticks;
  release L_tick;;
  mret (s32 t).

(** ** sysvideo.c *)

Definition line (s : string) : list Z := bytes_of_string s ++ [ch_nl].

Definition sys_getch : M S Z := dp_getch.
Definition sys_greeting : M S Z := dp_puts (line "Hello, user");; mret 0.
Definition sys_videomodevga13 : M S Z := dp_mode 0x13;; dp_puts (line "VGA Mode Set to 0x13");; mret 0.
Definition sys_videomodevga12 : M S Z := dp_mode 0x12;; dp_puts (line "VGA Mode set to 0x12");; mret 0.
Definition sys_videomodetext : M S Z := dp_puts (line "VGA Mode Set to 0x03");; dp_mode 0x03;; mret 0.

(** The results of [argint] are not tested: when a fetch fails, the variable has the
    value that its place on the stack had. *)
Definition sys_setspecificpixel (ux uy uc : Z) : M S Z :=
  c ← argint 2;
  y ← argint 1;
  x ← argint 0;
  dp_pixel (default ux x) (default uy y) (default uc c);;
  mret 0.

Definition sys_clearscreen13h : M S Z := dp_clear13;; mret 0.
Definition sys_clearscreen12h : M S Z := dp_clear12;; mret 0.

End Ops.
End Syscall.
