(* ===== verification/Exec.v ===== *)
(** * Program loading: exec.c

    [exec] replaces the memory image of the process: it reads the ELF file through the
    file system, maps and loads its segments, and puts the arguments on the new stack.
    The strings of [argv] are the byte lists that the user pointers of the old image
    refer to. *)

From stdpp Require Import base gmap list strings.
From Stdlib Require Import ZArith Lia.
From S2P Require Import Prelude CString Core Locking Kalloc Pipe Bio Log Tx Fs File Vm Proc VgaData Vga Console Syscall.
Import Sleeplock.

Module Exec.

Definition MAXARG : nat := 32.
Definition ELF_MAGIC : Z := 0x464C457F.
Definition ELF_PROG_LOAD : Z := 1.
Definition sizeof_elfhdr : Z := 52.
Definition sizeof_proghdr : Z := 32.

(** The fields of [struct elfhdr] and [struct proghdr] that [exec] uses. *)
Record elfhdr : Type := { magic : Z; entry : Z; phoff : Z; phnum : Z }.
Record proghdr : Type := { ph_type : Z; ph_off : Z; vaddr : Z; filesz : Z; memsz : Z }.

Definition decode_elfhdr (l : list Z) : elfhdr :=
  {| magic := get32 l 0; entry := get32 l 24; phoff := get32 l 28; phnum := Fs.get16 l 44 |}.
Definition decode_proghdr (l : list Z) : proghdr :=
  {| ph_type := get32 l 0; ph_off := get32 l 4; vaddr := get32 l 8; filesz := get32 l 16; memsz := get32 l 20 |}.

Definition with_image (d n : Z) (p : proc) : proc := Proc.with_sz n (Proc.with_pgdir d p).
Definition with_entry (eip esp : Z) (t : trapframe) : trapframe :=
  {| tf_eax := tf_eax t; tf_eip := eip; tf_esp := esp; tf_cs := tf_cs t; tf_ds := tf_ds t; tf_es := tf_es t;
     tf_ss := tf_ss t; tf_eflags := tf_eflags t; tf_trapno := tf_trapno t; tf_err := tf_err t |}.

(** The part of a path after its last slash. *)
Fixpoint last_elem (last s : list Z) : list Z :=
  match s with
  | [] => last
  | c :: s' => last_elem (if c =? Fs.ch_slash then s' else last) s'
  end.

(** Where the next argument string goes. *)
Definition push_sp (sp : Z) (s : list Z) : Z := Z.land (u32 (sp - (zlen s + 1))) (Z.lnot 3).

(** [ustack]: return address, argc, argv, the pointers and the final null pointer. *)
Definition ustack (sp : Z) (ptrs : list Z) : list Z :=
  [0xffffffff; zlen ptrs; u32 (sp - (zlen ptrs + 1) * 4)] ++ ptrs ++ [0].

Section Ops.
Context {S T : Type} {HLT : Lens S T} {HTx : TxLayer T} {HTb : TxBounds T} {HLc : Lens T core}
  {HLs : Lens T slocktab} {HLi : Lens S Fs.icache} {HLb : Lens S superblock} {HDv : Fs.DevSw S}
  {HP : Lens S Pipe.pipetab} {HA : PageAlloc S} {HF : Lens S File.ftable}
  {HR : Lens S ram} {HV : Lens S Vm.vmvars} {HDi : Display S}.
Context (wf : nat) (kdata : Z).

#[local] Instance core_lens : Lens S core := lens_comp (T := T).

Definition cleanupexec (pgdir : Z) (ip : option nat) : M S unit :=
  (if pgdir =? 0 then mret tt else Vm.freevm pgdir);;
  match ip with
  | Some i => Fs.iunlockput (T := T) wf i;; File.end_op (T := T)
  | None => mret tt
  end.

Definition fail (pgdir : Z) (ip : option nat) : M S (option Z) := cleanupexec pgdir ip;; mret None.

(** The loop over the program headers; the new size, or nothing after a failure. *)
Fixpoint load_segments (n : nat) (pgdir : Z) (ip : nat) (off sz : Z) : M S (option Z) :=
  match n with
  | O => mret (Some sz)
  | Datatypes.S n' =>
      '(r, l) ← Fs.readi (T := T) ip (u32 off) sizeof_proghdr;
      if negb (r =? sizeof_proghdr) then fail pgdir (Some ip)
      else
        let ph := decode_proghdr l in
        if negb (ph_type ph =? ELF_PROG_LOAD) then load_segments n' pgdir ip (s32 (off + sizeof_proghdr)) sz
        else if memsz ph <? filesz ph then fail pgdir (Some ip)
        else if u32 (vaddr ph + memsz ph) <? vaddr ph then fail pgdir (Some ip)
        else
          sz ← Vm.allocuvm pgdir sz (u32 (vaddr ph + memsz ph));
          if sz =? 0 then fail pgdir (Some ip)
          else if negb (vaddr ph mod PGSIZE =? 0) then fail pgdir (Some ip)
          else
            r ← Vm.loaduvm (T := T) pgdir (vaddr ph) ip (ph_off ph) (filesz ph);
            if r <? 0 then fail pgdir (Some ip)
            else load_segments n' pgdir ip (s32 (off + sizeof_proghdr)) sz
  end.

(** The loop that pushes the argument strings: the stack pointer and the pointers to
    the strings, or nothing. *)
Fixpoint push_args (pgdir sp : Z) (argc : nat) (argv : list (list Z)) : M S (option (Z * list Z)) :=
  match argv with
  | [] => mret (Some (sp, []))
  | s :: argv' =>
      if (MAXARG <=? argc)%nat then mret None
      else
        let sp := push_sp sp s in
        r ← Vm.copyout pgdir sp (s ++ [0]);
        if r <? 0 then mret None
        else
          t ← push_args pgdir sp (Datatypes.S argc) argv';
          mret (match t with Some (sp', ptrs) => Some (sp', sp :: ptrs) | None => None end)
  end.

(** The stack of the new image; its stack pointer. *)
Definition make_stack (pgdir sz : Z) (argv : list (list Z)) : M S (option Z) :=
  t ← push_args pgdir sz 0 argv;
  match t with
  | None => mret None
  | Some (sp, ptrs) =>
      let words := ustack sp ptrs in
      let sp := u32 (sp - zlen words * 4) in
      r ← Vm.copyout pgdir sp (words ≫= Syscall.bytes32);
      mret (if r <? 0 then None else Some sp)
  end.

(** The last part: nothing can fail any more. *)
Definition commit_image (p : nat) (path : list Z) (pgdir' sz' entry sp : Z) : M S unit :=
  Proc.modproc (T := T) p (Proc.with_name (Proc.set_name (last_elem path path)));;
  q ← Proc.getproc (T := T) p;
  Proc.modproc (T := T) p (with_image pgdir' sz');;
  Proc.modproc (T := T) p (fun k => Proc.with_tf (with_entry entry sp (tf k)) k);;
  Vm.switchuvm (Some p);;
  Vm.freevm (pgdir q).

Definition exec (path : list Z) (argv : list (list Z)) : M S Z :=
  p ← Proc.this_proc (T := T);
  File.begin_op (T := T);;
  r ← Fs.namei (T := T) wf path;
  match r with
  | None => File.end_op (T := T);; dp_puts (Syscall.line "exec: fail");; mret (-1)
  | Some ip =>
      Fs.ilock (T := T) wf ip;;
      '(n, l) ← Fs.readi (T := T) ip 0 sizeof_elfhdr;
      if negb (n =? sizeof_elfhdr) then cleanupexec 0 (Some ip);; mret (-1)
      else
        let elf := decode_elfhdr l in
        if negb (magic elf =? ELF_MAGIC) then cleanupexec 0 (Some ip);; mret (-1)
        else
          d ← Vm.setupkvm kdata;
          if d =? 0 then cleanupexec d (Some ip);; mret (-1)
          else
            z ← load_segments (Z.to_nat (phnum elf)) d ip (s32 (phoff elf)) 0;
            match z with
            | None => mret (-1)
            | Some n =>
                Fs.iunlockput (T := T) wf ip;;
                File.end_op (T := T);;
                let n := PGROUNDUP n in
                n ← Vm.allocuvm d n (u32 (n + 2 * PGSIZE));
                if n =? 0 then cleanupexec d None;; mret (-1)
                else
                  Vm.clearpteu d (u32 (n - 2 * PGSIZE));;
                  t ← make_stack d n argv;
                  match t with
                  | None => cleanupexec d None;; mret (-1)
                  | Some sp => commit_image p path d n (entry elf) sp;; mret 0
                  end
            end
  end.

End Ops.
End Exec.
