(* ===== verification/Sysfile.v ===== *)
(** * File system calls: sysfile.c

    The handlers check the arguments and call file.c, fs.c and exec.c.  Pointers into
    user memory are used through the page table of the process. *)

From stdpp Require Import base gmap list strings.
From Stdlib Require Import ZArith Lia.
From S2P Require Import Prelude CString Core Locking Kalloc Pipe Bio Log Tx Fs File Vm Proc VgaData Vga Console Syscall Exec.
Import Sleeplock.

Module Sysfile.

Definition O_RDONLY : Z := 0.
Definition O_WRONLY : Z := 1.
Definition O_RDWR : Z := 2.
Definition O_CREATE : Z := 0x200.
Definition sizeof_stat : Z := 20.

Definition bit (x m : Z) : bool := negb (Z.land x m =? 0).

Section Ops.
Context {S T : Type} {HLT : Lens S T} {HTx : TxLayer T} {HTb : TxBounds T} {HLc : Lens T core}
  {HLs : Lens T slocktab} {HLi : Lens S Fs.icache} {HLb : Lens S superblock} {HDv : Fs.DevSw S}
  {HP : Lens S Pipe.pipetab} {HA : PageAlloc S} {HF : Lens S File.ftable}
  {HR : Lens S ram} {HV : Lens S Vm.vmvars} {HDi : Display S}.
Context (wf : nat) (kdata : Z).

#[local] Instance core_lens : Lens S core := lens_comp (T := T).

Definition argint (n : Z) : M S (option Z) := Syscall.argint (T := T) n.
Definition argptr (n size : Z) : M S (option Z) := Syscall.argptr (T := T) n size.
Definition argstr (n : Z) : M S (option (list Z)) := Syscall.argstr (T := T) n.
Definition begin_op : M S unit := File.begin_op (T := T).
Definition end_op : M S unit := File.end_op (T := T).
Definition iunlockput (i : nat) : M S unit := Fs.iunlockput (T := T) wf i.

(** Release the inodes, end the transaction and return -1. *)
Definition fail_op (l : list nat) : M S Z := for_each iunlockput l;; end_op;; mret (-1).

(** The descriptor and the file, or nothing for -1. *)
Definition argfd (n : Z) : M S (option (nat * nat)) :=
  r ← argint n;
  match r with
  | None => mret None
  | Some fd =>
      if (fd <? 0) || (Z.of_nat NOFILE <=? fd) then mret None
      else
        p ← Proc.this_proc (T := T);
        q ← Proc.getproc (T := T) p;
        mret (match ofile q !! Z.to_nat fd with
              | Some (Some f) => Some (Z.to_nat fd, f)
              | _ => None
              end)
  end.

(** The loop of [fdalloc]. *)
Fixpoint free_fd (l : list (option nat)) (fd : nat) : option nat :=
  match l with
  | [] => None
  | None :: _ => Some fd
  | Some _ :: l' => free_fd l' (Datatypes.S fd)
  end.

Definition set_fd (fd : nat) (f : option nat) (q : proc) : proc := Proc.with_ofile (<[fd := f]> (ofile q)) q.

(** The new descriptor, or nothing for -1. *)
Definition fdalloc (f : nat) : M S (option nat) :=
  p ← Proc.this_proc (T := T);
  q ← Proc.getproc (T := T) p;
  match free_fd (ofile q) 0 with
  | Some fd => Proc.modproc (T := T) p (set_fd fd (Some f));; mret (Some fd)
  | None => mret None
  end.

Definition sys_dup : M S Z :=
  r ← argfd 0;
  match r with
  | None => mret (-1)
  | Some (_, f) =>
      r ← fdalloc f;
      match r with
      | None => mret (-1)
      | Some fd => File.filedup (T := T) f;; mret (Z.of_nat fd)
      end
  end.

Definition sys_read : M S Z :=
  r ← argfd 0;
  match r with
  | None => mret (-1)
  | Some (_, f) =>
      n ← argint 2;
      match n with
      | None => mret (-1)
      | Some n =>
          p ← argptr 1 n;
          match p with
          | None => mret (-1)
          | Some p =>
              r ← File.fileread (T := T) wf f n;
              Syscall.uwrite p r.2;;
              mret r.1
          end
      end
  end.

Definition sys_write : M S Z :=
  r ← argfd 0;
  match r with
  | None => mret (-1)
  | Some (_, f) =>
      n ← argint 2;
      match n with
      | None => mret (-1)
      | Some n =>
          p ← argptr 1 n;
          match p with
          | None => mret (-1)
          | Some p =>
              src ← Syscall.uread p (Z.to_nat n);
              File.filewrite (T := T) wf f src n
          end
      end
  end.

Definition sys_close : M S Z :=
  r ← argfd 0;
  match r with
  | None => mret (-1)
  | Some (fd, f) =>
      p ← Proc.this_proc (T := T);
      Proc.modproc (T := T) p (set_fd fd None);;
      File.fileclose (T := T) wf f;;
      mret 0
  end.

(** The fields of [struct stat], at their offsets; the padding is not written. *)
Definition put_stat (p : Z) (st : Fs.stat) : M S unit :=
  Syscall.uwrite (u32 (p + 4)) (Syscall.bytes32 (Fs.st_dev st));;
  Syscall.uwrite (u32 (p + 8)) (Syscall.bytes32 (Fs.st_ino st));;
  Syscall.uwrite p (Syscall.bytes16 (Fs.st_type st));;
  Syscall.uwrite (u32 (p + 12)) (Syscall.bytes16 (Fs.st_nlink st));;
  Syscall.uwrite (u32 (p + 16)) (Syscall.bytes32 (Fs.st_size st)).

Definition sys_fstat : M S Z :=
  r ← argfd 0;
  match r with
  | None => mret (-1)
  | Some (_, f) =>
      p ← argptr 1 sizeof_stat;
      match p with
      | None => mret (-1)
      | Some p =>
          st ← File.filestat (T := T) wf f;
          match st with
          | None => mret (-1)
          | Some st => put_stat p st;; mret 0
          end
      end
  end.

Definition cleanupsyslink (ip : nat) : M S unit :=
  Fs.ilock (T := T) wf ip;;
  Fs.modi ip (fun k => Fs.set_nlink (s16 (Fs.inlink k - 1)) k);;
  Fs.iupdate (T := T) ip;;
  iunlockput ip;;
  end_op.

(** The second half of [sys_link]: the directory entry of the new name. *)
Definition link_new (ip : nat) (new : list Z) : M S Z :=
  '(r, name) ← Fs.nameiparent (T := T) wf new;
  match r with
  | None => cleanupsyslink ip;; mret (-1)
  | Some dp =>
      Fs.ilock (T := T) wf dp;;
      d ← Fs.geti dp;
      k ← Fs.geti ip;
      bad ← (if negb (Fs.idev d =? Fs.idev k) then mret true
             else r ← Fs.dirlink (T := T) wf dp name (Fs.inum k); mret (r <? 0));
      if (bad : bool) then iunlockput dp;; cleanupsyslink ip;; mret (-1)
      else
        iunlockput dp;;
        Fs.iput (T := T) wf ip;;
        end_op;;
        mret 0
  end.

Definition sys_link : M S Z :=
  old ← argstr 0;
  match old with
  | None => mret (-1)
  | Some old =>
      new ← argstr 1;
      match new with
      | None => mret (-1)
      | Some new =>
          begin_op;;
          r ← Fs.namei (T := T) wf old;
          match r with
          | None => fail_op []
          | Some ip =>
              Fs.ilock (T := T) wf ip;;
              k ← Fs.geti ip;
              if Fs.itype k =? Fs.T_DIR then fail_op [ip]
              else
                Fs.modi ip (fun k => Fs.set_nlink (s16 (Fs.inlink k + 1)) k);;
                Fs.iupdate (T := T) ip;;
                Fs.iunlock (T := T) ip;;
                link_new ip new
          end
      end
  end.

(** The loop of [isdirempty]; every round reads one entry. *)
Fixpoint isdirempty_loop (fuel : nat) (dp : nat) (off : Z) : M S bool :=
  match fuel with
  | O => mret true
  | Datatypes.S f =>
      k ← Fs.geti dp;
      if off <? Fs.isize k then
        '(r, de) ← Fs.readi (T := T) dp off Fs.sizeof_dirent;
        if negb (r =? Fs.sizeof_dirent) then panic "isdirempty: readi"
        else if negb (Fs.dirent_inum de =? 0) then mret false
        else isdirempty_loop f dp (off + Fs.sizeof_dirent)
      else mret true
  end.

Definition isdirempty (dp : nat) : M S bool :=
  k ← Fs.geti dp;
  isdirempty_loop (Datatypes.S (Z.to_nat (Fs.isize k))) dp (2 * Fs.sizeof_dirent).

(** The last part of [sys_unlink]: clear the entry at [off], drop the links. *)
Definition unlink_entry (dp ip : nat) (off : Z) : M S Z :=
  w ← Fs.writei (T := T) dp (replicate 16 0) off Fs.sizeof_dirent;
  if negb (w =? Fs.sizeof_dirent) then panic "unlink: writei"
  else
    k ← Fs.geti ip;
    (if Fs.itype k =? Fs.T_DIR then
       Fs.modi dp (fun d => Fs.set_nlink (s16 (Fs.inlink d - 1)) d);;
       Fs.iupdate (T := T) dp
     else mret tt);;
    iunlockput dp;;
    Fs.modi ip (fun k => Fs.set_nlink (s16 (Fs.inlink k - 1)) k);;
    Fs.iupdate (T := T) ip;;
    iunlockput ip;;
    end_op;;
    mret 0.

Definition sys_unlink : M S Z :=
  path ← argstr 0;
  match path with
  | None => mret (-1)
  | Some path =>
      begin_op;;
      '(r, name) ← Fs.nameiparent (T := T) wf path;
      match r with
      | None => fail_op []
      | Some dp =>
          Fs.ilock (T := T) wf dp;;
          if (Fs.namecmp name (bytes_of_string ".") =? 0) || (Fs.namecmp name (bytes_of_string "..") =? 0)
          then fail_op [dp]
          else
            e ← Fs.dirlookup (T := T) dp name;
            match e with
            | None => fail_op [dp]
            | Some (ip, off) =>
                Fs.ilock (T := T) wf ip;;
                k ← Fs.geti ip;
                if Fs.inlink k <? 1 then panic "unlink: nlink < 1"
                else
                  busy ← (if Fs.itype k =? Fs.T_DIR then b ← isdirempty ip; mret (negb b) else mret false);
                  if (busy : bool) then fail_op [ip; dp]
                  else unlink_entry dp ip off
            end
      end
  end.

(** A new inode under the name [name] in the locked directory [dp]. *)
Definition create_new (dp : nat) (name : list Z) (type major minor : Z) : M S (option nat) :=
  d ← Fs.geti dp;
  ip ← Fs.ialloc (T := T) (Fs.idev d) type;
  Fs.ilock (T := T) wf ip;;
  Fs.modi ip (Fs.set_devno major minor);;
  Fs.modi ip (Fs.set_nlink 1);;
  Fs.iupdate (T := T) ip;;
  (if type =? Fs.T_DIR then
     Fs.modi dp (fun d => Fs.set_nlink (s16 (Fs.inlink d + 1)) d);;
     Fs.iupdate (T := T) dp;;
     k ← Fs.geti ip;
     r ← Fs.dirlink (T := T) wf ip (bytes_of_string ".") (Fs.inum k);
     if r <? 0 then panic "create dots"
     else
       d ← Fs.geti dp;
       r ← Fs.dirlink (T := T) wf ip (bytes_of_string "..") (Fs.inum d);
       if r <? 0 then panic "create dots" else mret tt
   else mret tt);;
  k ← Fs.geti ip;
  r ← Fs.dirlink (T := T) wf dp name (Fs.inum k);
  if r <? 0 then panic "create: dirlink"
  else iunlockput dp;; mret (Some ip).

Definition create (path : list Z) (type major minor : Z) : M S (option nat) :=
  '(r, name) ← Fs.nameiparent (T := T) wf path;
  match r with
  | None => mret None
  | Some dp =>
      Fs.ilock (T := T) wf dp;;
      e ← Fs.dirlookup (T := T) dp name;
      match e with
      | Some (ip, _) =>
          iunlockput dp;;
          Fs.ilock (T := T) wf ip;;
          k ← Fs.geti ip;
          if (type =? Fs.T_FILE) && (Fs.itype k =? Fs.T_FILE) then mret (Some ip)
          else iunlockput ip;; mret None
      | None => create_new dp name type major minor
      end
  end.

(** The inode that [sys_open] opens, locked; nothing after a failure. *)
Definition open_inode (path : list Z) (omode : Z) : M S (option nat) :=
  if bit omode O_CREATE then create path Fs.T_FILE 0 0
  else
    r ← Fs.namei (T := T) wf path;
    match r with
    | None => mret None
    | Some ip =>
        Fs.ilock (T := T) wf ip;;
        k ← Fs.geti ip;
        if (Fs.itype k =? Fs.T_DIR) && negb (omode =? O_RDONLY) then iunlockput ip;; mret None
        else mret (Some ip)
    end.

Definition sys_open : M S Z :=
  path ← argstr 0;
  match path with
  | None => mret (-1)
  | Some path =>
      m ← argint 1;
      match m with
      | None => mret (-1)
      | Some omode =>
          begin_op;;
          r ← open_inode path omode;
          match r with
          | None => fail_op []
          | Some ip =>
              f ← File.filealloc (T := T);
              match f with
              | None => fail_op [ip]
              | Some f =>
                  r ← fdalloc f;
                  match r with
                  | None => File.fileclose (T := T) wf f;; fail_op [ip]
                  | Some fd =>
                      Fs.iunlock (T := T) ip;;
                      end_op;;
                      File.modf f (File.as_inode ip (negb (bit omode O_WRONLY))
                        (bit omode O_WRONLY || bit omode O_RDWR));;
                      mret (Z.of_nat fd)
                  end
              end
          end
      end
  end.

(** What [sys_mkdir] and [sys_mknod] do with the result of [create]. *)
Definition made (r : option nat) : M S Z :=
  match r with
  | None => fail_op []
  | Some ip => iunlockput ip;; end_op;; mret 0
  end.

Definition sys_mkdir : M S Z :=
  begin_op;;
  path ← argstr 0;
  match path with
  | None => fail_op []
  | Some path => r ← create path Fs.T_DIR 0 0; made r
  end.

Definition sys_mknod : M S Z :=
  begin_op;;
  path ← argstr 0;
  match path with
  | None => fail_op []
  | Some path =>
      major ← argint 1;
      match major with
      | None => fail_op []
      | Some major =>
          minor ← argint 2;
          match minor with
          | None => fail_op []
          | Some minor => r ← create path Fs.T_DEV (s16 major) (s16 minor); made r
          end
      end
  end.

Definition sys_chdir : M S Z :=
  p ← Proc.this_proc (T := T);
  begin_op;;
  path ← argstr 0;
  match path with
  | None => fail_op []
  | Some path =>
      r ← Fs.namei (T := T) wf path;
      match r with
      | None => fail_op []
      | Some ip =>
          Fs.ilock (T := T) wf ip;;
          k ← Fs.geti ip;
          if negb (Fs.itype k =? Fs.T_DIR) then fail_op [ip]
          else
            Fs.iunlock (T := T) ip;;
            q ← Proc.getproc (T := T) p;
            (match cwd q with Some i => Fs.iput (T := T) wf i | None => panic "trap" end);;
            end_op;;
            Proc.modproc (T := T) p (Proc.with_cwd (Some ip));;
            mret 0
      end
  end.

(** The loop of [sys_exec]: the argument strings from entry [i] of the user's array on. *)
Fixpoint exec_args (fuel : nat) (uargv i : Z) : M S (option (list (list Z))) :=
  match fuel with
  | O => mret None
  | Datatypes.S f =>
      u ← Syscall.fetchint (T := T) (u32 (uargv + 4 * i));
      match u with
      | None => mret None
      | Some u =>
          if u =? 0 then mret (Some [])
          else
            s ← Syscall.fetchstr (T := T) (u32 u);
            match s with
            | None => mret None
            | Some s => r ← exec_args f uargv (i + 1); mret (cons s <$> r)
            end
      end
  end.

Definition sys_exec : M S Z :=
  path ← argstr 0;
  match path with
  | None => mret (-1)
  | Some path =>
      u ← argint 1;
      match u with
      | None => mret (-1)
      | Some uargv =>
          argv ← exec_args Exec.MAXARG (u32 uargv) 0;
          match argv with
          | None => mret (-1)
          | Some argv => Exec.exec (T := T) wf kdata path argv
          end
      end
  end.

(** Take the descriptors back. *)
Definition undo_pipe (fd0 : option nat) (rf wf' : nat) : M S Z :=
  (match fd0 with
   | Some fd => p ← Proc.this_proc (T := T); Proc.modproc (T := T) p (set_fd fd None)
   | None => mret tt
   end);;
  File.fileclose (T := T) wf rf;;
  File.fileclose (T := T) wf wf';;
  mret (-1).

Definition sys_pipe : M S Z :=
  fd ← argptr 0 8;
  match fd with
  | None => mret (-1)
  | Some fd =>
      r ← File.pipealloc (T := T) wf;
      match r with
      | None => mret (-1)
      | Some (rf, wf') =>
          fd0 ← fdalloc rf;
          match fd0 with
          | None => undo_pipe None rf wf'
          | Some fd0 =>
              fd1 ← fdalloc wf';
              match fd1 with
              | None => undo_pipe (Some fd0) rf wf'
              | Some fd1 =>
                  Syscall.uwrite fd (Syscall.bytes32 (Z.of_nat fd0));;
                  Syscall.uwrite (u32 (fd + 4)) (Syscall.bytes32 (Z.of_nat fd1));;
                  mret 0
              end
          end
      end
  end.

End Ops.
End Sysfile.
