(* ===== verification/SysProof.v ===== *)
(** * System calls: the kernel reads only memory of the process *)

From stdpp Require Import base gmap list strings.
From Stdlib Require Import ZArith Lia.
From S2P Require Import Prelude Core Kalloc Vm Fs File Proc ProcProof Syscall.
Import Syscall.

Module SysProof.

Section Args.
Context {S T : Type} {HLT : Lens S T} {HLc : Lens T core} {HR : Lens S ram} {HV : Lens S Vm.vmvars}
  {O1 : LensOk S T} {O2 : LensOk T core} {P1 : LensSep S T ram} {P2 : LensSep S T Vm.vmvars}.
#[local] Hint Extern 0 (Lens S core) => exact (Proc.core_lens (T := T)) : typeclass_instances.
#[local] Instance core_ok_lens : LensOk S core := lens_comp_ok (T := T).

(** The memory, the page directory in use, and the process [p] with its entry [q], on
    the CPU [i]. *)
Context (m : mem) (d : Z) (q : proc) (i : nat) (ie : bool) (p : nat).

(** Any property that does not depend on the locks and CPUs. *)
Context (F : S -> Prop) (HFr : forall s c, F s -> same_procs (lget s) c -> F (lset c s)).

Definition at_proc (s : S) : Prop :=
  core_ok (lget s) i [] ie (Some p) /\ getp (lget s) p = q /\
  ram_bytes (lget s) = m /\ P2V (Vm.cr3 (lget s)) = d /\ F s.

(** The byte of the process at a virtual address, and the word of a system call. *)
Definition ub (va : Z) : Z := default 0 (loadb m <$> uaddr m d va false).
Definition word (a : Z) : option Z :=
  if a + 4 <=? sz q then Some (s32 (get32 (ub <$> [a; a + 1; a + 2; a + 3]) 0)) else None.

(** The user's pages are mapped and below the kernel. *)
Context (Hsz : 0 <= sz q <= KERNBASE)
  (Hmap : forall va, 0 <= va < sz q -> is_Some (uaddr m d va false)).

Lemma at_proc_core s c : at_proc s -> core_ok c i [] ie (Some p) -> same_procs (lget s) c -> at_proc (lset c s).
Proof.
  intros (Hc & Hq & Hm & Hd & HF) Hc' Hps. pose proof Hps as (Hp & _). split_and!; [| | | |by apply HFr].
  - by rewrite lget_lset.
  - rewrite lget_lset. unfold getp in *. by rewrite Hp.
  - cbn [lset Proc.core_lens lens_comp]. by rewrite lsep_r.
  - cbn [lset Proc.core_lens lens_comp]. by rewrite lsep_r.
Qed.

Lemma wp_this (s : S) (Q : nat -> S -> Prop) : at_proc s -> (forall s', at_proc s' -> Q p s') -> wp (this_proc (T := T)) s Q.
Proof.
  intros Hs HQ. eapply ProcProof.wp_this_proc; [apply Hs|]. intros c' Hc' Hp. apply HQ. by apply at_proc_core.
Qed.

Lemma wp_getq (s : S) (Q : proc -> S -> Prop) : at_proc s -> Q q s -> wp (getproc (T := T) p) s Q.
Proof.
  intros (_ & Hq & _) HQ. unfold getproc, Proc.getproc, core_get. apply wp_lgets. by rewrite Hq.
Qed.

Lemma wp_uget s va (Q : Z -> S -> Prop) : at_proc s -> 0 <= va < sz q -> Q (ub va) s -> wp (uget va) s Q.
Proof.
  intros (_ & _ & Hm & Hd & _) Hva HQ. unfold uget. wp_step. rewrite Hm, Hd.
  destruct (Hmap va Hva) as [a Ha]. unfold ub in HQ. rewrite Ha in HQ |- *. by apply wp_ret.
Qed.

Lemma wp_uread s : at_proc s -> forall n va (Q : list Z -> S -> Prop), 0 <= va -> va + Z.of_nat n <= sz q ->
  Q ((fun j => ub (va + Z.of_nat j)) <$> seq 0 n) s -> wp (uread va n) s Q.
Proof.
  intros Hs. induction n as [|n IH]; intros va Q H0 H1 HQ; cbn [uread]; [by apply wp_ret|].
  apply wp_bind, wp_uget; [done | lia |]. apply wp_bind. rewrite u32_small by (unfold KERNBASE in *; lia).
  apply IH; [lia | lia |]. apply wp_ret. cbn [seq fmap list_fmap] in HQ. rewrite Z.add_0_r in HQ.
  rewrite <- fmap_S_seq, <- list_fmap_compose in HQ. erewrite list_fmap_ext; [exact HQ|].
  intros j x _. cbn. f_equal. lia.
Qed.

Lemma wp_fetchint s addr (Q : option Z -> S -> Prop) : at_proc s -> 0 <= addr < 2 ^ 32 ->
  (forall s', at_proc s' -> Q (word addr) s') -> wp (fetchint (T := T) addr) s Q.
Proof.
  intros Hs Ha HQ. unfold fetchint. apply wp_bind, wp_this; [done|]. intros s1 Hs1. apply wp_bind, wp_getq; [done|].
  unfold word in HQ. destruct (Z.leb_spec (addr + 4) (sz q)) as [Hle|Hgt].
  - rewrite (proj2 (Z.leb_gt _ _)), u32_small, (proj2 (Z.ltb_ge _ _)) by (unfold KERNBASE in *; lia). cbn [orb].
    apply wp_bind, wp_uread; [done | lia | lia |]. apply wp_ret. cbn. rewrite Z.add_0_r. by apply HQ.
  - assert ((sz q <=? addr) || (sz q <? u32 (addr + 4)) = true) as ->.
    { destruct (Z.leb_spec (sz q) addr); [done|]. cbn [orb]. rewrite u32_small by (unfold KERNBASE in *; lia). apply Z.ltb_lt. lia. }
    apply wp_ret. by apply HQ.
Qed.

(** A NUL-terminated string that ends below the size of the process. *)
Definition cstring_at (a : Z) (l : list Z) : Prop :=
  0 <= a /\ a + zlen l < sz q /\ ub (a + zlen l) = 0 /\
  forall j x, l !! j = Some x -> ub (a + Z.of_nat j) = x /\ x <> 0.

Lemma cstring_cons a x l : cstring_at a (x :: l) <-> 0 <= a /\ ub a = x /\ x <> 0 /\ cstring_at (a + 1) l.
Proof.
  unfold cstring_at. rewrite zlen_cons. replace (a + (zlen l + 1)) with (a + 1 + zlen l) by lia. split.
  - intros (H0 & H1 & H2 & H3). destruct (H3 O x eq_refl) as [Hx Hn]. rewrite Z.add_0_r in Hx.
    split_and!; [done | done | done | lia | done | done |]. intros j y Hy. destruct (H3 (Datatypes.S j) y Hy) as [<- ?].
    split; [f_equal; lia | done].
  - intros (H0 & Hx & Hn & _ & H1 & H2 & H3). split_and!; [done | done | done |].
    intros [|j] y Hy; [injection Hy as <-; by rewrite Z.add_0_r|]. destruct (H3 j y Hy) as [<- ?]. split; [f_equal; lia | done].
Qed.

Lemma wp_fetchstr_loop s : at_proc s -> forall fuel a (Q : option (list Z) -> S -> Prop), 0 <= a -> sz q - a <= Z.of_nat fuel ->
  (forall r, (forall l, r = Some l <-> cstring_at a l) -> Q r s) -> wp (fetchstr_loop fuel a (sz q)) s Q.
Proof.
  intros Hs. assert (Hout : forall a (Q : option (list Z) -> S -> Prop), sz q <= a ->
    (forall r, (forall l, r = Some l <-> cstring_at a l) -> Q r s) -> Q None s).
  { intros a Q Ha HQ. apply HQ. intros l. split; [done|]. intros (_ & H & _). pose proof (zlen_nonneg l). lia. }
  induction fuel as [|f IH]; intros a Q H0 Hf HQ; cbn [fetchstr_loop]; [apply wp_ret; eapply Hout; [|exact HQ]; lia|].
  destruct (Z.ltb_spec a (sz q)) as [Hlt|Hge]; [|apply wp_ret; by eapply Hout].
  apply wp_bind, wp_uget; [done | done |]. destruct (Z.eqb_spec (ub a) 0) as [Hz|Hz].
  - apply wp_ret, HQ. intros [|x l]; split; try done.
    + intros _. split_and!; [done | unfold zlen; cbn; lia | unfold zlen; cbn; by rewrite Z.add_0_r |]. intros j x Hx. by rewrite lookup_nil in Hx.
    + rewrite cstring_cons. naive_solver.
  - apply wp_bind, IH; [lia | lia |]. intros r Hr. apply wp_ret, HQ. intros [|x l].
    + split; [by destruct r|]. intros (_ & _ & H & _). unfold zlen in H. cbn in H. rewrite Z.add_0_r in H. done.
    + rewrite cstring_cons, <- Hr. destruct r as [l'|]; cbn; naive_solver.
Qed.

Lemma wp_fetchstr s addr (Q : option (list Z) -> S -> Prop) : at_proc s -> 0 <= addr ->
  (forall r s', at_proc s' -> (forall l, r = Some l <-> cstring_at addr l) -> Q r s') -> wp (fetchstr (T := T) addr) s Q.
Proof.
  intros Hs Ha HQ. unfold fetchstr. apply wp_bind, wp_this; [done|]. intros s1 Hs1. apply wp_bind, wp_getq; [done|].
  destruct (Z.leb_spec (sz q) addr) as [Hle|Hlt].
  - apply wp_ret, HQ; [done|]. intros l. split; [done|]. intros (_ & H & _). pose proof (zlen_nonneg l). lia.
  - apply wp_fetchstr_loop; [done | done | lia |]. intros r Hr. by apply HQ.
Qed.

(** Where the argument number [n] is on the user's stack. *)
Definition arg_addr (n : Z) : Z := u32 (tf_esp (tf q) + 4 + 4 * n).

Lemma wp_argint s n (Q : option Z -> S -> Prop) : at_proc s ->
  (forall s', at_proc s' -> Q (word (arg_addr n)) s') -> wp (argint (T := T) n) s Q.
Proof.
  intros Hs HQ. unfold argint. apply wp_bind, wp_this; [done|]. intros s1 Hs1. apply wp_bind, wp_getq; [done|].
  apply wp_fetchint; [done | apply u32_range | done].
Qed.

(** C22: the arguments of a system call are checked.  Whatever stack pointer and pointers
    the user passes, fetching an argument never faults in the kernel and never reads
    memory outside of the process: [argptr] succeeds exactly for a block that lies in
    the process, and [argstr] exactly for a pointer to a NUL-terminated string in it,
    whose bytes are the result.  Nothing changes but locks that are taken and released. *)
Theorem args_checked s n size : at_proc s -> - 2 ^ 31 <= size < 2 ^ 31 ->
  wp (argptr (T := T) n size) s (fun r s' => at_proc s' /\ forall a,
    r = Some a <-> exists v, word (arg_addr n) = Some v /\ a = u32 v /\ 0 <= size /\ a < sz q /\ a + size <= sz q) /\
  wp (argstr (T := T) n) s (fun r s' => at_proc s' /\ forall l,
    r = Some l <-> exists v, word (arg_addr n) = Some v /\ cstring_at (u32 v) l).
Proof.
  intros Hs Hsize. split.
  - unfold argptr. apply wp_bind, wp_this; [done|]. intros s1 Hs1. apply wp_bind, wp_argint; [done|]. intros s2 Hs2.
    destruct (word (arg_addr n)) as [v|]; [|apply wp_ret; naive_solver].
    apply wp_bind, wp_getq; [done|]. pose proof (u32_range v) as Hv.
    destruct (_ || _ || _) eqn:E; apply wp_ret; (split; [done|]); intros a; split.
    + done.
    + intros (v' & [= <-] & -> & H1 & H2 & H3). rewrite (u32_small (u32 v + size)) in E by (unfold KERNBASE in *; lia).
      rewrite (proj2 (Z.ltb_ge _ _)), (proj2 (Z.leb_gt _ _)), (proj2 (Z.ltb_ge _ _)) in E by lia. done.
    + intros [= <-]. apply orb_false_iff in E as [[E1%Z.ltb_ge E2%Z.leb_gt]%orb_false_iff E3%Z.ltb_ge].
      rewrite (u32_small (u32 v + size)) in E3 by (unfold KERNBASE in *; lia). by exists v.
    + intros (v' & [= <-] & -> & _). done.
  - unfold argstr. apply wp_bind, wp_argint; [done|]. intros s2 Hs2.
    destruct (word (arg_addr n)) as [v|]; [|apply wp_ret; naive_solver].
    apply wp_fetchstr; [done | apply u32_range |]. intros r s3 Hs3 Hr. split; [done|]. intros l. rewrite Hr. naive_solver.
Qed.

End Args.

(** *** A process of 32 bytes that passes the string "hi" *)

Definition hi_mem : mem :=
  storeb (storeb (store32 (store32 (store32 ∅ 0x80001000 0x2007) 0x80002000 0x3007) 0x8000300C 20)
    0x80003014 104) 0x80003015 105.
Definition hi_proc : proc :=
  Proc.with_tf {| tf_eax := 0; tf_eip := 0; tf_esp := 8; tf_cs := 0; tf_ds := 0; tf_es := 0; tf_ss := 0; tf_eflags := 0;
                  tf_trapno := 0; tf_err := 0 |} (Proc.with_sz 32 (with_state RUNNING proc0)).
Definition hi_state : core * (ram * Vm.vmvars) :=
  (set_procs [hi_proc] boot_core,
   ({| ram_bytes := hi_mem |}, {| Vm.kpgdir := 0; Vm.cr3 := 0x1000; Vm.esp0 := 0 |})).

Lemma hi_mapped va : 0 <= va < 32 -> is_Some (uaddr hi_mem 0x80001000 va false).
Proof.
  intros Hva. assert (H : forallb (fun j => bool_decide (is_Some (uaddr hi_mem 0x80001000 (Z.of_nat j) false))) (seq 0 32) = true)
    by (vm_compute; reflexivity).
  rewrite forallb_forall in H. specialize (H (Z.to_nat va)). rewrite Z2Nat.id in H by lia.
  eapply bool_decide_eq_true_1, H, in_seq. lia.
Qed.

Lemma args_checked_witness :
  wp (argstr (T := core) 0 : M (core * (ram * Vm.vmvars)) _) hi_state (fun r _ => r = Some [104; 105]).
Proof.
  assert (Hsz : 0 <= sz hi_proc <= KERNBASE) by (split; vm_compute; discriminate).
  destruct (args_checked (T := core) hi_mem 0x80001000 hi_proc 0 true 0 (fun _ => True) (fun _ _ _ _ => I) Hsz hi_mapped hi_state 0 0) as [_ H];
    [split_and!; [apply core_ok_procs, boot_ok | reflexivity | reflexivity | reflexivity | done] | lia |].
  eapply wp_conseq; [exact H|]. clear H.
  intros r s' [_ H]. apply H. exists 20. split; [reflexivity|]. split_and!; [vm_compute; discriminate | reflexivity | reflexivity |].
    intros [|[|j]] x Hx; [injection Hx as <- | injection Hx as <- | done]; by split.
Defined.

End SysProof.
