(* ===== verification/FileRefs.v ===== *)
(** * File descriptors: the reference counts are exact

    A file of the table has as many references as there are descriptors, of all
    processes, that refer to it.  [sys_dup] and [sys_close] keep this, so that their
    calls of [filedup] and [fileclose] do not panic. *)

From stdpp Require Import base gmap list strings.
From Stdlib Require Import ZArith Lia.
From S2P Require Import Prelude Core Locking Kalloc Pipe Bio Log Tx Fs File Vm Proc ProcProof Syscall Exec Sysfile SysProof.
Import Sleeplock Syscall Sysfile SysProof.

Module FileRefs.

Abbreviation fds := (list (option nat)).

(** How often a list of descriptors, and all processes, refer to [f]. *)
Definition count (f : nat) (l : fds) : nat := length (filter (fun x => x = Some f) l).
Definition refs (f : nat) (ps : list proc) : nat := sum_list (count f ∘ ofile <$> ps).

Lemma count_insert f (l : fds) k x y : l !! k = Some x ->
  (count f (<[k := y]> l) + (if decide (x = Some f) then 1 else 0) =
   count f l + (if decide (y = Some f) then 1 else 0))%nat.
Proof.
  revert k. induction l as [|z l IH]; intros [|k] Hk; try done; cbn in Hk.
  - injection Hk as ->. unfold count. cbn [insert list_insert]. rewrite !filter_cons.
    destruct (decide (y = Some f)), (decide (x = Some f)); cbn [length]; lia.
  - specialize (IH k Hk). unfold count in *. change (<[Datatypes.S k := y]> (z :: l)) with (z :: <[k := y]> l). rewrite !filter_cons.
    destruct (decide (z = Some f)); cbn [length]; lia.
Qed.

Lemma refs_alter f g p q (ps : list proc) : ps !! p = Some q ->
  (refs f (alter g p ps) + count f (ofile q) = refs f ps + count f (ofile (g q)))%nat.
Proof.
  revert p. induction ps as [|r ps IH]; intros [|p] Hp; try done; cbn in Hp.
  - injection Hp as ->. cbn. unfold compose. lia.
  - specialize (IH p Hp). unfold refs in *. cbn. unfold compose in *. lia.
Qed.

Lemma count_none f n : count f (replicate n None) = O.
Proof. induction n as [|n IH]; [done|]. unfold count in *. cbn [replicate]. by rewrite filter_cons_False. Qed.

Lemma count_pos f (l : fds) k : l !! k = Some (Some f) -> (0 < count f l)%nat.
Proof. intros H. pose proof (count_insert f l k _ None H) as E. rewrite decide_True in E by done. destruct (decide (None = Some f)); [done|]. lia. Qed.

Lemma refs_pos f p q (ps : list proc) k : ps !! p = Some q -> ofile q !! k = Some (Some f) -> (0 < refs f ps)%nat.
Proof.
  revert p. induction ps as [|r ps IH]; intros [|p] Hp Hk; try done; cbn in Hp; unfold refs; cbn; unfold compose.
  - injection Hp as ->. apply count_pos in Hk. lia.
  - specialize (IH p Hp Hk). unfold refs, compose in IH. lia.
Qed.

(** [fdalloc] takes the lowest free descriptor. *)
Lemma free_fd_spec l : forall k, match free_fd l k with
  | Some j => exists i, j = (k + i)%nat /\ l !! i = Some None /\ forall i', (i' < i)%nat -> exists f, l !! i' = Some (Some f)
  | None => Forall (fun x => x <> None) l
  end.
Proof.
  induction l as [|[f|] l IH]; intros k; cbn [free_fd].
  - constructor.
  - specialize (IH (Datatypes.S k)). destruct (free_fd l (Datatypes.S k)) as [j|]; [|by constructor].
    destruct IH as (i & -> & Hi & Hmin). exists (Datatypes.S i). split_and!; [lia | done |].
    intros [|i'] Hlt; [by exists f|]. apply Hmin. lia.
  - exists O. split_and!; [lia | done | lia].
Qed.

Section Refs.
Context {S T : Type} {HLT : Lens S T} {HTx : TxLayer T} {HTb : TxBounds T} {HLc : Lens T core}
  {HLs : Lens T slocktab} {HLi : Lens S Fs.icache} {HLb : Lens S superblock} {HDv : Fs.DevSw S}
  {HP : Lens S Pipe.pipetab} {HA : PageAlloc S} {HF : Lens S File.ftable} {HR : Lens S ram} {HV : Lens S Vm.vmvars}
  {O1 : LensOk S T} {O2 : LensOk T core} {O3 : LensOk S File.ftable}
  {P1 : LensSep S T ram} {P2 : LensSep S T Vm.vmvars} {P3 : LensSep S T File.ftable}
  {P4 : LensSep S File.ftable ram} {P5 : LensSep S File.ftable Vm.vmvars}.
#[local] Hint Extern 0 (Lens S core) => exact (Proc.core_lens (T := T)) : typeclass_instances.
#[local] Instance core_ok_lens : LensOk S core := lens_comp_ok (T := T).

(** The components name the same lens to the core differently. *)
Ltac one_lens := change (@File.core_lens S T HLT HLc) with (@Proc.core_lens S T HLT HLc) in *;
  change (@Sysfile.core_lens S T HLT HLc) with (@Proc.core_lens S T HLT HLc) in *.

Definition fref (s : S) (f : nat) : Z := File.ref (File.file_of (lget s) f).

Definition refs_ok (s : S) : Prop := forall f, fref s f = Z.of_nat (refs f (procs (lget s))).

Lemma fref_core s c f : fref (lset (T := core) c s) f = fref s f.
Proof. unfold fref. cbn [lset Proc.core_lens lens_comp]. by rewrite lsep_r. Qed.

(** *** The operations on the file table *)

Definition put_file (g : File.file -> File.file) (f : nat) (s : S) : S :=
  lset {| File.file_of := fun j => if decide (j = f) then g (File.file_of (lget s) j) else File.file_of (lget s) j |} s.

Lemma put_file_core g f s : lget (T := core) (put_file g f s) = lget s.
Proof. unfold put_file. cbn [lget Proc.core_lens lens_comp]. by rewrite lsep_l. Qed.

Lemma put_file_at g f s j : File.file_of (lget (put_file g f s)) j =
  if decide (j = f) then g (File.file_of (lget s) j) else File.file_of (lget s) j.
Proof. unfold put_file. by rewrite lget_lset. Qed.
Lemma file_core s c j : File.file_of (lget (lset (T := core) c s)) j = File.file_of (lget s) j.
Proof. cbn [lset Proc.core_lens lens_comp]. by rewrite lsep_r. Qed.

Lemma wp_filedup s i ie p f (Q : nat -> S -> Prop) : core_ok (lget s) i [] ie (Some p) -> 1 <= fref s f ->
  (forall c s', core_ok c i [] ie (Some p) -> same_procs (lget s) c -> lget (T := core) s' = c ->
     (forall j, fref s' j = if decide (j = f) then fref s j + 1 else fref s j) -> Q f s') ->
  wp (File.filedup (T := T) f) s Q.
Proof.
  intros Hc Hr HQ. unfold File.filedup. wp_step. eapply wp_acquire; [exact Hc | apply not_elem_of_nil |].
  intros c1 Hc1 Hp1. one_lens. unfold File.getf. wp_step.
  pose proof (fref_core s c1 f) as E0. unfold fref in E0 at 1. rewrite E0, (proj2 (Z.ltb_ge _ _)) by lia. clear E0.
  unfold File.modf. wp_step. fold (put_file (fun k => File.set_ref (File.ref k + 1) k) f (lset c1 s)).
  eapply wp_release; [rewrite put_file_core, lget_lset; exact Hc1|]. intros c2 Hc2 Hp2. one_lens. apply wp_ret. eapply HQ; [exact Hc2 | | by rewrite lget_lset |].
  - eapply same_procs_trans; [exact Hp1|]. revert Hp2. by rewrite put_file_core, lget_lset.
  - intros j. rewrite fref_core. unfold fref, put_file. rewrite lget_lset. cbn [File.file_of].
    pose proof (fref_core s c1 j) as E. unfold fref in E. destruct (decide (j = f)); cbn [File.ref File.set_ref]; lia.
Qed.

(** [fileclose] of a file that other descriptors refer to. *)
Lemma wp_fileclose s wf i ie p f (Q : unit -> S -> Prop) : core_ok (lget s) i [] ie (Some p) -> 1 < fref s f ->
  (forall s', core_ok (lget s') i [] ie (Some p) -> same_procs (lget s) (lget s') ->
     (forall j, fref s' j = if decide (j = f) then fref s j - 1 else fref s j) -> Q tt s') ->
  wp (File.fileclose (T := T) wf f) s Q.
Proof.
  intros Hc Hr HQ. unfold File.fileclose. wp_step. eapply wp_acquire; [exact Hc | apply not_elem_of_nil |].
  intros c1 Hc1 Hp1. one_lens. unfold File.getf. wp_step.
  pose proof (fref_core s c1 f) as E0. unfold fref in E0 at 1. rewrite E0, (proj2 (Z.ltb_ge _ _)) by lia.
  unfold File.modf. wp_step. fold (put_file (fun k => File.set_ref (File.ref k - 1) k) f (lset c1 s)).
  set (s2 := put_file _ f _). assert (E2 : forall j, fref s2 j = if decide (j = f) then fref s j - 1 else fref s j).
  { intros j. unfold s2, put_file. pose proof (fref_core s c1 j) as E. unfold fref in E |- *. rewrite lget_lset.
    cbn [File.file_of]. destruct (decide (j = f)); cbn [File.ref File.set_ref]; lia. }
  pose proof (E2 f) as E3. rewrite decide_True in E3 by done. unfold fref in E3 at 1. rewrite E3, (proj2 (Z.ltb_lt _ _)) by lia.
  eapply wp_release; [unfold s2; rewrite put_file_core, lget_lset; exact Hc1|]. intros c2 Hc2 Hp2. one_lens.
  apply HQ; [by rewrite lget_lset | |].
  - rewrite lget_lset. eapply same_procs_trans; [exact Hp1|]. revert Hp2. unfold s2. by rewrite put_file_core, lget_lset.
  - intros j. by rewrite fref_core, E2.
Qed.

(** What [fileclose] does with the object of a file that nobody refers to any more. *)
Definition close_object (wf : nat) (ff : File.file) : M S unit :=
  match File.type ff with
  | File.FD_PIPE => Pipe.pipeclose (File.fpipe ff) (File.writable ff)
  | File.FD_INODE => File.begin_op (T := T);; Fs.iput (T := T) wf (File.fip ff);; File.end_op (T := T)
  | File.FD_NONE => mret tt
  end.

(** The last [fileclose] of a file: the entry is free, and no lock is held, when the object
    is closed. *)
Lemma fileclose_last s wf i ie p f (G : outcome S unit -> Prop) : core_ok (lget s) i [] ie (Some p) -> fref s f = 1 ->
  (forall s1, core_ok (lget s1) i [] ie (Some p) -> same_procs (lget s) (lget s1) ->
     File.type (File.file_of (lget s1) f) = File.FD_NONE ->
     (forall j, fref s1 j = if decide (j = f) then 0 else fref s j) ->
     G (close_object wf (File.set_ref 0 (File.file_of (lget s) f)) s1)) ->
  G (File.fileclose (T := T) wf f s).
Proof.
  intros Hc Hr HG. unfold fref in Hr. unfold File.fileclose.
  apply wp_lead. eapply wp_acquire; [exact Hc | apply not_elem_of_nil |]. intros c1 Hc1 Hp1. one_lens.
  apply wp_lead. unfold File.getf at 1. wp_step. rewrite file_core, Hr. change (1 <? 1) with false. cbv iota.
  apply wp_lead. unfold File.modf at 1. wp_step. fold (put_file (fun k => File.set_ref (File.ref k - 1) k) f (lset c1 s)).
  set (s2 := put_file _ f _). assert (E2 : File.file_of (lget s2) f = File.set_ref 0 (File.file_of (lget s) f)).
  { unfold s2. rewrite put_file_at, decide_True, file_core, Hr by done. done. }
  apply wp_lead. unfold File.getf. wp_step. rewrite E2. cbn [File.ref File.set_ref]. change (0 <? 0) with false. cbv iota.
  apply wp_lead. unfold File.modf at 1. wp_step. fold (put_file (File.set_ref 0) f s2).
  apply wp_lead. unfold File.modf at 1. wp_step. fold (put_file (File.set_type File.FD_NONE) f (put_file (File.set_ref 0) f s2)).
  set (s3 := put_file _ f _). assert (E3 : lget (T := core) s3 = c1) by (unfold s3, s2; by rewrite !put_file_core, lget_lset).
  apply wp_lead. eapply wp_release; [rewrite E3; exact Hc1|]. intros c2 Hc2 Hp2. one_lens.
  apply (HG (lset c2 s3)); [by rewrite lget_lset | | |].
  - rewrite lget_lset. eapply same_procs_trans; [exact Hp1 | by rewrite <- E3].
  - unfold s3. rewrite file_core, !put_file_at, !decide_True, E2 by done. done.
  - intros j. unfold fref, s3, s2. rewrite file_core, !put_file_at, file_core. by destruct (decide (j = f)).
Qed.

(** *** The handlers *)

Context (m : mem) (d : Z) (q : proc) (i : nat) (ie : bool) (p : nat).
Context (Hsz : 0 <= sz q <= KERNBASE) (Hmap : forall va, 0 <= va < sz q -> is_Some (uaddr m d va false)).

(** The descriptor that the first argument names, with its file. *)
Definition fd_arg : option (nat * nat) :=
  match word m d q (arg_addr q 0) with
  | Some v => if (0 <=? v) && (v <? Z.of_nat NOFILE)
              then match ofile q !! Z.to_nat v with Some (Some f) => Some (Z.to_nat v, f) | _ => None end
              else None
  | None => None
  end.

Lemma fd_arg_lookup k f : fd_arg = Some (k, f) -> ofile q !! k = Some (Some f).
Proof. unfold fd_arg. intros H. repeat case_match; simplify_eq; done. Qed.

(** The process table and the file table at the call. *)
Context (ps : list proc) (ft : File.ftable).
Definition same_tables (s : S) : Prop := procs (lget s) = ps /\ lget s = ft.
Definition at_call (s : S) : Prop := at_proc (T := T) m d q i ie p same_tables s.

Lemma same_tables_core s c : same_tables s -> same_procs (lget s) c -> same_tables (lset c s).
Proof.
  intros [Hp Hf] (Hc & _). split; [rewrite lget_lset; congruence|]. cbn [lset Proc.core_lens lens_comp]. by rewrite lsep_r.
Qed.

Lemma wp_argfd s (Q : option (nat * nat) -> S -> Prop) : at_call s ->
  (forall s', at_call s' -> Q fd_arg s') -> wp (argfd (T := T) 0) s Q.
Proof.
  intros Hs HQ. unfold argfd. apply wp_bind. eapply wp_argint; [apply same_tables_core | done | done | exact Hs |].
  intros s1 Hs1. unfold fd_arg in HQ. destruct (word m d q (arg_addr q 0)) as [v|]; [|apply wp_ret; by apply HQ].
  destruct (Z.ltb_spec v 0) as [Hv|Hv]; cbn [orb].
  { rewrite (proj2 (Z.leb_gt _ _)) in HQ by lia. apply wp_ret. by apply HQ. }
  rewrite (proj2 (Z.leb_le _ _)) in HQ by lia. cbn [andb] in HQ.
  destruct (Z.leb_spec (Z.of_nat NOFILE) v) as [Hn|Hn].
  { rewrite (proj2 (Z.ltb_ge _ _)) in HQ by lia. apply wp_ret. by apply HQ. }
  rewrite (proj2 (Z.ltb_lt _ _)) in HQ by lia.
  apply wp_bind. eapply wp_this; [apply same_tables_core | exact Hs1 |]. intros s2 Hs2.
  apply wp_bind. eapply wp_getq; [exact Hs2|]. apply wp_ret. by apply HQ.
Qed.

Context (Hq : ps !! p = Some q).

(** Setting a descriptor of the process. *)
Definition with_fd (k : nat) (f : option nat) (s : S) : S := lset (updp p (set_fd k f) (lget s)) s.

Lemma with_fd_spec k f s : at_call s ->
  core_ok (lget (with_fd k f s)) i [] ie (Some p) /\ procs (lget (with_fd k f s)) = alter (set_fd k f) p ps /\
  forall j, fref (with_fd k f s) j = File.ref (File.file_of ft j).
Proof.
  intros (Hc & _ & _ & _ & Hp & Hf). unfold with_fd. split_and!.
  - rewrite lget_lset. by apply core_ok_procs.
  - rewrite lget_lset. unfold updp, set_procs. cbn [procs]. by rewrite Hp.
  - intros j. rewrite fref_core. unfold fref. by rewrite Hf.
Qed.

Lemma wp_fdalloc s f (Q : option nat -> S -> Prop) : at_call s ->
  (forall s', at_call s' -> free_fd (ofile q) 0 = None -> Q None s') ->
  (forall k s', at_call s' -> free_fd (ofile q) 0 = Some k -> Q (Some k) (with_fd k (Some f) s')) ->
  wp (fdalloc (T := T) f) s Q.
Proof.
  intros Hs HN HS. unfold fdalloc. apply wp_bind. eapply wp_this; [apply same_tables_core | exact Hs |].
  intros s2 Hs2. apply wp_bind. eapply wp_getq; [exact Hs2|]. destruct (free_fd (ofile q) 0) as [k|] eqn:E; [|apply wp_ret; by apply HN].
  unfold Proc.modproc, core_mod. wp_step. by apply HS.
Qed.

Context (Hrefs : forall f, File.ref (File.file_of ft f) = Z.of_nat (refs f ps)).

Lemma refs_set_fd k x y j : ofile q !! k = Some x ->
  (refs j (alter (set_fd k y) p ps) + (if decide (x = Some j) then 1 else 0) =
   refs j ps + (if decide (y = Some j) then 1 else 0))%nat.
Proof.
  intros Hx. pose proof (refs_alter j (set_fd k y) p q ps Hq) as H1. pose proof (count_insert j (ofile q) k x y Hx) as H2.
  change (ofile (set_fd k y q)) with (<[k := y]> (ofile q)) in H1. lia.
Qed.

Lemma refs_ok_call s : at_call s -> refs_ok s.
Proof. intros (_ & _ & _ & _ & Hp & Hf) f. unfold fref. rewrite Hf, Hp. apply Hrefs. Qed.

(** [sys_close] up to the call of [fileclose]. *)
Lemma close_descriptor s wf k f (G : outcome S Z -> Prop) : at_call s -> fd_arg = Some (k, f) ->
  (forall s', core_ok (lget s') i [] ie (Some p) -> procs (lget s') = alter (set_fd k None) p ps ->
     (forall j, File.file_of (lget s') j = File.file_of ft j) -> G ((File.fileclose (T := T) wf f;; mret 0) s')) ->
  G (sys_close (T := T) wf s).
Proof.
  intros Hs Ef HG. unfold sys_close. apply wp_lead, wp_argfd; [done|]. intros s1 Hs1. rewrite Ef.
  apply wp_lead. eapply wp_this; [apply same_tables_core | exact Hs1 |]. intros s2 Hs2.
  apply wp_lead. unfold Proc.modproc, core_mod. wp_step. one_lens. fold (with_fd k None s2).
  destruct (with_fd_spec k None s2 Hs2) as (Hc2 & Hp2 & _). apply HG; [done | done |].
  intros j. unfold with_fd. rewrite file_core. by destruct Hs2 as (_ & _ & _ & _ & _ & ->).
Qed.

(** A descriptor less. *)
Lemma refs_closed k f j : fd_arg = Some (k, f) ->
  Z.of_nat (refs j (alter (set_fd k None) p ps)) = if decide (j = f) then File.ref (File.file_of ft j) - 1 else File.ref (File.file_of ft j).
Proof.
  intros Ef. rewrite Hrefs. pose proof (refs_set_fd k (Some f) None j (fd_arg_lookup _ _ Ef)) as E.
  destruct (decide (None = Some j)); [done|]. destruct (decide (j = f)), (decide (Some f = Some j)); try congruence; lia.
Qed.

(** C23: the reference counts of open files stay exact.  [sys_dup] returns the lowest free
    descriptor, which then refers to the same file, and -1 for a bad descriptor or a full
    table, changing nothing.  [sys_close] returns -1 for a bad descriptor, changing nothing;
    of a file that stays open elsewhere it frees the descriptor; and of the last descriptor
    of a file it frees the descriptor and the entry of the file table, and then, with no lock
    held, closes the pipe end or drops the inode behind it.  Every file has again as many
    references as descriptors, and the panics of [filedup] and [fileclose] do not happen. *)
Theorem fd_refs_exact s wf : at_call s ->
  wp (sys_dup (T := T)) s (fun r s' => refs_ok s' /\ core_ok (lget s') i [] ie (Some p) /\
    match fd_arg, free_fd (ofile q) 0 with
    | Some (_, f), Some k => r = Z.of_nat k /\ procs (lget s') = alter (set_fd k (Some f)) p ps
    | _, _ => r = -1 /\ procs (lget s') = ps
    end) /\
  match fd_arg with
  | None => wp (sys_close (T := T) wf) s (fun r s' => r = -1 /\ refs_ok s' /\ core_ok (lget s') i [] ie (Some p) /\ procs (lget s') = ps)
  | Some (k, f) =>
      exists s1, refs_ok s1 /\ core_ok (lget s1) i [] ie (Some p) /\ procs (lget s1) = alter (set_fd k None) p ps /\
        if decide (refs f ps = 1%nat)
        then File.type (File.file_of (lget s1) f) = File.FD_NONE /\ fref s1 f = 0 /\
             sys_close (T := T) wf s = (close_object wf (File.set_ref 0 (File.file_of ft f));; mret 0) s1
        else sys_close (T := T) wf s = Ret 0 s1
  end.
Proof.
  intros Hs. split.
  - unfold sys_dup. apply wp_bind, wp_argfd; [done|]. intros s1 Hs1. pose proof (refs_ok_call s1 Hs1) as Hr1.
    destruct fd_arg as [[k0 f]|] eqn:Ef; [|apply wp_ret; split_and!; [done | apply Hs1 | done | apply Hs1]].
    apply wp_bind, wp_fdalloc; [done | |].
    + intros s2 Hs2 ->. apply wp_ret. split_and!; [by apply refs_ok_call | apply Hs2 | done | apply Hs2].
    + intros k s2 Hs2 Ek. destruct (with_fd_spec k (Some f) s2 Hs2) as (Hc2 & Hp2 & Hf2). rewrite Ek.
      pose proof (free_fd_spec (ofile q) 0) as Hfree. rewrite Ek in Hfree. destruct Hfree as (k' & -> & Hk & _).
      pose proof (refs_pos f p q ps k0 Hq (fd_arg_lookup _ _ Ef)) as Hpos.
      apply wp_bind. eapply wp_filedup; [exact Hc2 | rewrite Hf2, Hrefs; lia |].
      intros c3 s3 Hc3 (Hp3 & _) <- Hf3. apply wp_ret. split_and!; [| exact Hc3 | done | by rewrite Hp3, Hp2].
      intros j. rewrite Hf3, !Hf2, Hrefs, Hp3, Hp2. pose proof (refs_set_fd k' None (Some f) j Hk) as E.
      destruct (decide (None = Some j)); [done|]. destruct (decide (j = f)), (decide (Some f = Some j)); try congruence; cbn in *; lia.
  - destruct fd_arg as [[k f]|] eqn:Ef.
    2:{ unfold sys_close. apply wp_bind, wp_argfd; [done|]. intros s1 Hs1. rewrite Ef. apply wp_ret.
        split_and!; [done | by apply refs_ok_call | apply Hs1 | apply Hs1]. }
    pose proof (refs_pos f p q ps k Hq (fd_arg_lookup _ _ Ef)) as Hpos. pattern (sys_close (T := T) wf s).
    apply (close_descriptor s wf k f); [done | done |]. intros s2 Hc2 Hp2 Hf2. cbv beta.
    assert (Hr2 : forall j, fref s2 j = File.ref (File.file_of ft j)) by (intros j; unfold fref; by rewrite Hf2).
    destruct (decide (refs f ps = 1%nat)) as [H1|H1].
    + change ((File.fileclose (T := T) wf f;; mret 0) s2) with (obind (File.fileclose (T := T) wf f s2) (fun _ => (mret 0 : M S Z))).
      apply (fileclose_last s2 wf i ie p f); [done | rewrite Hr2, Hrefs; lia |].
      intros s1 Hc1 (Hp1 & _) Ht Hr1. exists s1. split_and!; [| done | by rewrite Hp1 | done | by rewrite Hr1, decide_True | by rewrite Hf2].
      intros j. rewrite Hr1, Hp1, Hp2, (refs_closed k f j Ef), Hr2. destruct (decide (j = f)) as [->|]; [|done]. rewrite Hrefs. lia.
    + apply wp_lead. eapply wp_fileclose; [exact Hc2 | rewrite Hr2, Hrefs; lia |]. intros s3 Hc3 (Hp3 & _) Hf3.
      exists s3. split_and!; [| exact Hc3 | by rewrite Hp3 | done].
      intros j. rewrite Hf3, Hp3, Hp2, (refs_closed k f j Ef), !Hr2. done.
Qed.

End Refs.

(** *** A process that duplicates its descriptor 0 *)

Section Example.
Abbreviation ks := (core * slocktab)%type.
Abbreviation sys := (ks * (ram * (Vm.vmvars * (File.ftable * (Fs.icache * (superblock * Pipe.pipetab))))))%type.
#[local] Instance no_tx : TxLayer ks := {|
  tx_bread _ _ := spin; tx_brelse _ := spin; tx_data _ := spin; tx_setdata _ _ := spin; tx_log_write _ := spin |}.
#[local] Instance no_bounds : TxBounds ks := {| tx_begin := spin; tx_end := spin; tx_init _ := spin |}.
#[local] Instance no_dev : Fs.DevSw sys := {| Fs.dev_read _ := None; Fs.dev_write _ := None |}.
#[local] Instance no_pages : PageAlloc sys := {| kalloc_page := spin; kfree_page _ := spin |}.

Definition dup_proc : proc := Proc.with_ofile (<[0%nat := Some 4%nat]> (replicate NOFILE None)) hi_proc.
Definition one_file : File.ftable := {|
  File.file_of f := {| File.type := File.FD_PIPE; File.ref := if decide (f = 4%nat) then 1 else 0; File.readable := true;
                       File.writable := false; File.fpipe := 0; File.fip := 0; File.off := 0 |} |}.
(** The argument is the word 0 at address 12. *)
Definition dup_mem : mem := store32 (store32 ∅ 0x80001000 0x2007) 0x80002000 0x3007.
Definition dup_state : sys :=
  ((set_procs [dup_proc] boot_core, {| sl_of := fun _ => {| slocked := false; spid := 0 |} |}),
   ({| ram_bytes := dup_mem |}, ({| Vm.kpgdir := 0; Vm.cr3 := 0x1000; Vm.esp0 := 0 |}, (one_file,
     ({| Fs.inode_of := fun _ => Fs.get_dinode [] {| Fs.idev := 0; Fs.inum := 0; Fs.iref := 0; Fs.ivalid := false; Fs.itype := 0;
           Fs.imajor := 0; Fs.iminor := 0; Fs.inlink := 0; Fs.isize := 0; Fs.iaddrs := [] |} |},
      (decode_sb [], {| Pipe.pipe_of := fun _ => Pipe.ring |})))))).

Lemma dup_mapped va : 0 <= va < sz dup_proc -> is_Some (uaddr dup_mem 0x80001000 va false).
Proof.
  intros Hva. assert (H : forallb (fun j => bool_decide (is_Some (uaddr dup_mem 0x80001000 (Z.of_nat j) false))) (seq 0 32) = true)
    by (vm_compute; reflexivity).
  rewrite forallb_forall in H. specialize (H (Z.to_nat va)). change (sz dup_proc) with 32 in Hva. rewrite Z2Nat.id in H by lia.
  eapply bool_decide_eq_true_1, H, in_seq. lia.
Qed.

Lemma fd_refs_exact_witness : wp (sys_dup (T := ks) : M sys Z) dup_state (fun r _ => r = 1).
Proof.
  assert (Hsz : 0 <= sz dup_proc <= KERNBASE) by (split; vm_compute; discriminate).
  assert (Hrefs : forall f, File.ref (File.file_of one_file f) = Z.of_nat (refs f [dup_proc])).
  { intros f. change (refs f [dup_proc]) with (count f (<[0%nat := Some 4%nat]> (replicate NOFILE None)) + 0)%nat.
    pose proof (count_insert f (replicate NOFILE None) 0 None (Some 4%nat) eq_refl) as E. rewrite count_none in E.
    change (File.ref (File.file_of one_file f)) with (if decide (f = 4%nat) then 1 else 0).
    destruct (decide (None = Some f)); [done|]. destruct (decide (f = 4%nat)), (decide (Some 4%nat = Some f)); try congruence; lia. }
  destruct (fd_refs_exact (T := ks) dup_mem 0x80001000 dup_proc 0 true 0 Hsz dup_mapped [dup_proc] one_file eq_refl Hrefs dup_state 1)
    as [H _]; [split_and!; [apply core_ok_procs, boot_ok | reflexivity | reflexivity | reflexivity | split; reflexivity]|].
  eapply wp_conseq; [exact H|]. intros r s' (_ & _ & Hm).
  change (fd_arg dup_mem 0x80001000 dup_proc) with (Some (0%nat, 4%nat)) in Hm. apply Hm.
Defined.
End Example.
End FileRefs.
