(* ===== verification/Machine.v ===== *)
(** * Interrupt controllers and processor discovery: lapic.c, ioapic.c, picirq.c, mp.c

    The hardware is a parameter: ports and memory-mapped registers of a [Machine].  The
    tables in which the BIOS describes the processors are read from memory. *)

From stdpp Require Import base gmap list strings.
From Stdlib Require Import ZArith Lia.
From S2P Require Import Prelude Core Kalloc.

(** Ports, and 32-bit registers at physical addresses. *)
Class Machine (D : Type) : Type := {
  mc_outb : Z -> Z -> M D unit;
  mc_inb : Z -> M D Z;
  mc_load : Z -> M D Z;
  mc_store : Z -> Z -> M D unit
}.

Module Machine.

(** *** Constants of lapic.c, ioapic.c and traps.h *)

Definition T_IRQ0 : Z := 32.
Definition IRQ_TIMER : Z := 0.
Definition IRQ_KBD : Z := 1.
Definition IRQ_COM1 : Z := 4.
Definition IRQ_IDE : Z := 14.
Definition IRQ_ERROR : Z := 19.
Definition IRQ_SPURIOUS : Z := 31.

Definition r_ID : Z := 0x20.
Definition r_VER : Z := 0x30.
Definition r_TPR : Z := 0x80.
Definition r_EOI : Z := 0xB0.
Definition r_SVR : Z := 0xF0.
Definition r_ESR : Z := 0x280.
Definition r_ICRLO : Z := 0x300.
Definition r_ICRHI : Z := 0x310.
Definition r_TIMER : Z := 0x320.
Definition r_PCINT : Z := 0x340.
Definition r_LINT0 : Z := 0x350.
Definition r_LINT1 : Z := 0x360.
Definition r_ERROR : Z := 0x370.
Definition r_TICR : Z := 0x380.
Definition r_TDCR : Z := 0x3E0.

Definition ENABLE : Z := 0x100.
Definition INIT : Z := 0x500.
Definition STARTUP : Z := 0x600.
Definition DELIVS : Z := 0x1000.
Definition ASSERT : Z := 0x4000.
Definition LEVEL : Z := 0x8000.
Definition BCAST : Z := 0x80000.
Definition X1 : Z := 0xB.
Definition PERIODIC : Z := 0x20000.
Definition MASKED : Z := 0x10000.

Definition IOAPIC : Z := 0xFEC00000.
Definition REG_ID : Z := 0.
Definition REG_VER : Z := 1.
Definition REG_TABLE : Z := 0x10.
Definition INT_DISABLED : Z := 0x10000.

(** [lapic] (0 for the null pointer) and [ioapicid]. *)
Record mpvars : Type := { lapic : Z; ioapicid : Z }.

(** [struct rtcdate] *)
Record rtcdate : Type := { second : Z; minute : Z; hour : Z; day : Z; month : Z; year : Z }.

#[export] Instance rtcdate_eq_dec : EqDecision rtcdate.
Proof. solve_decision. Defined.

Definition map_date (f : Z -> Z) (r : rtcdate) : rtcdate :=
  {| second := f (second r); minute := f (minute r); hour := f (hour r);
     day := f (day r); month := f (month r); year := f (year r) |}.

(** The macro [CONV]. *)
Definition CONV (x : Z) : Z := Z.shiftr x 4 * 10 + Z.land x 0xf.

Section Ops.
Context {S D : Type} {HLd : Lens S D} {HM : Machine D} {HLm : Lens S mpvars} {HLc : Lens S core} {HR : Lens S ram}.
(** A bound on the rounds of the busy waiting loops. *)
Context (wf : nat).

Definition outb (p x : Z) : M S unit := zoom (mc_outb p (u8 x)).
Definition inb (p : Z) : M S Z := zoom (mc_inb p).
Definition get_lapic : M S Z := lgets (T := mpvars) lapic.

(** ** picirq.c *)

Definition picinit : M S unit := outb 0x21 0xFF;; outb 0xA1 0xFF.

(** ** ioapic.c: the register at +0 selects, the one at +0x10 has the data *)

Definition ioapicread (reg : Z) : M S Z :=
  zoom (mc_store IOAPIC reg : M D unit);;
  zoom (mc_load (IOAPIC + 0x10) : M D Z).

Definition ioapicwrite (reg data : Z) : M S unit :=
  zoom (mc_store IOAPIC reg : M D unit);;
  zoom (mc_store (IOAPIC + 0x10) (u32 data) : M D unit).

(** The message about an unexpected id is not modelled. *)
Definition ioapicinit : M S unit :=
  v ← ioapicread REG_VER;
  let maxintr := Z.land (Z.shiftr v 16) 0xFF in
  ioapicread REG_ID;;
  for_each (fun i =>
    ioapicwrite (REG_TABLE + 2 * Z.of_nat i) (Z.lor INT_DISABLED (T_IRQ0 + Z.of_nat i));;
    ioapicwrite (REG_TABLE + 2 * Z.of_nat i + 1) 0) (seq 0 (Z.to_nat (maxintr + 1))).

Definition ioapicenable (irq cpunum : Z) : M S unit :=
  ioapicwrite (REG_TABLE + 2 * irq) (T_IRQ0 + irq);;
  ioapicwrite (REG_TABLE + 2 * irq + 1) (Z.shiftl cpunum 24).

(** ** lapic.c *)

Definition lapicr (index : Z) : M S Z := l ← get_lapic; zoom (mc_load (l + index) : M D Z).

Definition lapicw (index value : Z) : M S unit :=
  l ← get_lapic;
  zoom (mc_store (l + index) (u32 value) : M D unit);;
  lapicr r_ID;;
  mret tt.

(** [while (lapic[ICRLO] & DELIVS)] *)
Fixpoint wait_delivs (fuel : nat) : M S unit :=
  match fuel with
  | O => spin
  | Datatypes.S f =>
      x ← lapicr r_ICRLO;
      if Z.land x DELIVS =? 0 then mret tt else wait_delivs f
  end.

Definition lapicinit : M S unit :=
  l ← get_lapic;
  if l =? 0 then mret tt
  else
    lapicw r_SVR (Z.lor ENABLE (T_IRQ0 + IRQ_SPURIOUS));;
    lapicw r_TDCR X1;;
    lapicw r_TIMER (Z.lor PERIODIC (T_IRQ0 + IRQ_TIMER));;
    lapicw r_TICR 10000000;;
    lapicw r_LINT0 MASKED;;
    lapicw r_LINT1 MASKED;;
    v ← lapicr r_VER;
    (if 4 <=? Z.land (Z.shiftr v 16) 0xFF then lapicw r_PCINT MASKED else mret tt);;
    lapicw r_ERROR (T_IRQ0 + IRQ_ERROR);;
    lapicw r_ESR 0;;
    lapicw r_ESR 0;;
    lapicw r_EOI 0;;
    lapicw r_ICRHI 0;;
    lapicw r_ICRLO (Z.lor (Z.lor BCAST INIT) LEVEL);;
    wait_delivs wf;;
    lapicw r_TPR 0.

Definition lapicid : M S Z :=
  l ← get_lapic;
  if l =? 0 then mret 0 else x ← lapicr r_ID; mret (Z.shiftr x 24).

Definition lapiceoi : M S unit :=
  l ← get_lapic;
  if l =? 0 then mret tt else lapicw r_EOI 0.

Definition microdelay (us : Z) : M S unit := mret tt.

Definition CMOS_PORT : Z := 0x70.

Definition store16 (m : mem) (a v : Z) : mem := storeb (storeb m a v) (a + 1) (v / 2 ^ 8).

Definition lapicstartap (apicid addr : Z) : M S unit :=
  outb CMOS_PORT 0xF;;
  outb (CMOS_PORT + 1) 0x0A;;
  (let wrv := P2V (Z.lor (Z.shiftl 0x40 4) 0x67) in
   lmod (T := ram) (fun r => {| ram_bytes := store16 (store16 (ram_bytes r) wrv 0) (wrv + 2) (Z.shiftr addr 4) |}));;
  lapicw r_ICRHI (Z.shiftl apicid 24);;
  lapicw r_ICRLO (Z.lor (Z.lor INIT LEVEL) ASSERT);;
  microdelay 200;;
  lapicw r_ICRLO (Z.lor INIT LEVEL);;
  microdelay 100;;
  for_each (fun _ =>
    lapicw r_ICRHI (Z.shiftl apicid 24);;
    lapicw r_ICRLO (Z.lor STARTUP (Z.shiftr addr 12));;
    microdelay 200) (seq 0 2).

Definition cmos_read (reg : Z) : M S Z :=
  outb CMOS_PORT reg;;
  microdelay 200;;
  inb (CMOS_PORT + 1).

Definition fill_rtcdate : M S rtcdate :=
  se ← cmos_read 0x00;
  mi ← cmos_read 0x02;
  ho ← cmos_read 0x04;
  da ← cmos_read 0x07;
  mo ← cmos_read 0x08;
  ye ← cmos_read 0x09;
  mret {| second := se; minute := mi; hour := ho; day := da; month := mo; year := ye |}.

(** Read until two readings agree and no update was in progress between them. *)
Fixpoint stable_date (fuel : nat) : M S rtcdate :=
  match fuel with
  | O => spin
  | Datatypes.S f =>
      t1 ← fill_rtcdate;
      a ← cmos_read 0x0a;
      if negb (Z.land a (Z.shiftl 1 7) =? 0) then stable_date f
      else
        t2 ← fill_rtcdate;
        if decide (t1 = t2) then mret t1 else stable_date f
  end.

Definition cmostime : M S rtcdate :=
  sb ← cmos_read 0x0b;
  let bcd := Z.land sb (Z.shiftl 1 2) =? 0 in
  t1 ← stable_date wf;
  let t1 := if bcd then map_date CONV t1 else t1 in
  mret {| second := second t1; minute := minute t1; hour := hour t1;
          day := day t1; month := month t1; year := u32 (year t1 + 2000) |}.

(** ** mp.c *)


Definition byte_at (m : mem) (a : Z) : Z := loadb m a.
Definition bytes_at (m : mem) (a : Z) (n : nat) : list Z := (fun i => loadb m (a + Z.of_nat i)) <$> seq 0 n.

Definition sum (m : mem) (a : Z) (len : nat) : Z := u8 (foldr Z.add 0 (bytes_at m a len)).

(** [memcmp] with a string of four bytes. *)
Definition signed (m : mem) (a : Z) (s : string) : bool := bool_decide (bytes_at m a 4 = bytes_of_string s).

Definition sizeof_mp : Z := 16.
Definition sizeof_mpconf : Z := 44.
Definition sizeof_mpproc : Z := 20.
Definition sizeof_mpioapic : Z := 8.

Fixpoint mpsearch_loop (fuel : nat) (m : mem) (p e : Z) : Z :=
  match fuel with
  | O => 0
  | Datatypes.S f =>
      if p <? e then
        if signed m p "_MP_" && (sum m p 16 =? 0) then p else mpsearch_loop f m (p + sizeof_mp) e
      else 0
  end.

Definition mpsearch1 (m : mem) (a len : Z) : Z :=
  let addr := P2V a in mpsearch_loop (Z.to_nat len) m addr (addr + len).

Definition mpsearch (m : mem) : Z :=
  let bda := P2V 0x400 in
  let p := Z.shiftl (Z.lor (Z.shiftl (byte_at m (bda + 0x0F)) 8) (byte_at m (bda + 0x0E))) 4 in
  let mp := if negb (p =? 0) then mpsearch1 m p 1024
            else
              let p := Z.lor (Z.shiftl (byte_at m (bda + 0x14)) 8) (byte_at m (bda + 0x13)) * 1024 in
              mpsearch1 m (u32 (p - 1024)) 1024 in
  if negb (mp =? 0) then mp else mpsearch1 m 0xF0000 0x10000.

(** The configuration table and the floating pointer, or nothing. *)
Definition mpconfig (m : mem) : option (Z * Z) :=
  let mp := mpsearch m in
  if (mp =? 0) || (load32 m (mp + 4) =? 0) then None
  else
    let conf := P2V (load32 m (mp + 4)) in
    if negb (signed m conf "PCMP") then None
    else
      let v := byte_at m (conf + 6) in
      if negb (v =? 1) && negb (v =? 4) then None
      else
        let len := byte_at m (conf + 4) + 2 ^ 8 * byte_at m (conf + 5) in
        if negb (sum m conf (Z.to_nat len) =? 0) then None else Some (conf, mp).

(** [cpus[ncpu].apicid = id; ncpu++], for a list of the first [ncpu] entries. *)
Definition add_cpu (id : Z) : M S unit :=
  lmod (T := core) (fun c =>
    if (length (cpus c) <? NCPU)%nat
    then set_cpus (cpus c ++ [{| apicid := id; ncli := 0; intena := false; cproc := None |}]) c else c).

(** The loop of [mpinit] over the entries; the [break] of its default case leaves the
    [switch], not the loop. *)
Fixpoint mp_loop (fuel : nat) (p e : Z) (ismp : bool) : M S bool :=
  match fuel with
  | O => spin
  | Datatypes.S f =>
      if p <? e then
        m ← lgets (T := ram) ram_bytes;
        let t := byte_at m p in
        if t =? 0 then
          add_cpu (byte_at m (p + 1));;
          mp_loop f (p + sizeof_mpproc) e ismp
        else if t =? 2 then
          lmod (T := mpvars) (fun v => {| lapic := lapic v; ioapicid := byte_at m (p + 1) |});;
          mp_loop f (p + sizeof_mpioapic) e ismp
        else if (t =? 1) || (t =? 3) || (t =? 4) then mp_loop f (p + 8) e ismp
        else mp_loop f p e false
      else mret ismp
  end.

Definition mpinit : M S unit :=
  m ← lgets (T := ram) ram_bytes;
  match mpconfig m with
  | None => panic "Expect to run on an SMP"
  | Some (conf, mp) =>
      lmod (T := mpvars) (fun v => {| lapic := load32 m (conf + 36); ioapicid := ioapicid v |});;
      let len := byte_at m (conf + 4) + 2 ^ 8 * byte_at m (conf + 5) in
      ismp ← mp_loop wf (conf + sizeof_mpconf) (conf + len) true;
      if negb ismp then panic "Didn't find a suitable machine"
      else if byte_at m (mp + 12) =? 0 then mret tt
      else
        outb 0x22 0x70;;
        x ← inb 0x23;
        outb 0x23 (Z.lor x 1)
  end.

End Ops.
End Machine.
