(* ===== verification/MachineProof.v ===== *)
(** * Processor discovery: what [mpinit] makes of the table of the BIOS *)

From stdpp Require Import base gmap list strings.
From Stdlib Require Import ZArith Lia.
From S2P Require Import Prelude Core Kalloc Machine.
Import Machine.

Module MachineProof.

(** The entries of the table: processors, I/O APICs, and others that are skipped. *)
Inductive mpentry : Type := EProc (id : Z) | EIoapic (id : Z) | EOther (t : Z).

Definition esize (x : mpentry) : Z :=
  match x with EProc _ => sizeof_mpproc | EIoapic _ => sizeof_mpioapic | EOther _ => 8 end.

Definition stored (m : mem) (a : Z) (x : mpentry) : Prop :=
  match x with
  | EProc id => loadb m a = 0 /\ loadb m (a + 1) = id
  | EIoapic id => loadb m a = 2 /\ loadb m (a + 1) = id
  | EOther t => loadb m a = t /\ (t = 1 \/ t = 3 \/ t = 4)
  end.

(** The entries [l] lie from [a] to [e]. *)
Fixpoint table (m : mem) (a : Z) (l : list mpentry) (e : Z) : Prop :=
  match l with
  | [] => a = e
  | x :: l' => stored m a x /\ table m (a + esize x) l' e
  end.

Lemma table_le m l : forall a e, table m a l e -> a <= e.
Proof.
  induction l as [|x l IH]; intros a e H; cbn in H; [lia|]. destruct H as [_ H%IH].
  destruct x; unfold esize, sizeof_mpproc, sizeof_mpioapic in H; lia.
Qed.

(** What the entries say: the processors found, at most NCPU, and the I/O APIC. *)
Definition new_cpu (id : Z) : cpu := {| apicid := id; ncli := 0; intena := false; cproc := None |}.

Definition read_entry (x : mpentry) (r : list cpu * Z) : list cpu * Z :=
  match x with
  | EProc id => (if (length r.1 <? NCPU)%nat then r.1 ++ [new_cpu id] else r.1, r.2)
  | EIoapic id => (r.1, id)
  | EOther _ => r
  end.
Definition read_table (l : list mpentry) (r : list cpu * Z) : list cpu * Z := fold_left (fun r x => read_entry x r) l r.

Abbreviation mps := (core * (mpvars * ram))%type.

Definition found (s : mps) : list cpu * Z := (cpus s.1, ioapicid s.2.1).
Definition memory (s : mps) : mem := ram_bytes s.2.2.

(** One round of the loop over a known entry. *)
Lemma mp_loop_entry f p e ismp (s : mps) x : stored (memory s) p x -> p < e ->
  exists s', mp_loop (Datatypes.S f) p e ismp s = mp_loop f (p + esize x) e ismp s' /\
    memory s' = memory s /\ lapic s'.2.1 = lapic s.2.1 /\ found s' = read_entry x (found s).
Proof.
  intros Hx Hp. destruct s as [c [v r]]. unfold memory in *. cbn [fst snd ram_bytes] in *. cbn [mp_loop].
  rewrite (proj2 (Z.ltb_lt _ _)) by done. erewrite bind_ret by reflexivity. cbn [lget lens_fst lens_snd lens_id fst snd].
  unfold byte_at. destruct x as [id|id|t]; cbn [stored] in Hx; destruct Hx as [-> Hx].
  - cbn [Z.eqb Pos.eqb]. erewrite bind_ret by reflexivity. rewrite Hx. eexists. split; [reflexivity|]. split_and!; [done | done |].
    unfold found, read_entry, new_cpu. cbn [fst snd lget lset lens_fst lens_snd lens_id]. by destruct (length (cpus c) <? NCPU)%nat.
  - cbn [Z.eqb Pos.eqb]. erewrite bind_ret by reflexivity. rewrite Hx. eexists. split; [reflexivity|]. by split_and!.
  - exists (c, (v, r)). split; [|by split_and!]. by destruct Hx as [-> | [-> | ->]].
Qed.

Lemma mp_loop_table ismp e l : forall f p e' (s : mps), table (memory s) p l e' -> e' <= e ->
  exists s', mp_loop (length l + f) p e ismp s = mp_loop f e' e ismp s' /\
    memory s' = memory s /\ lapic s'.2.1 = lapic s.2.1 /\ found s' = read_table l (found s).
Proof.
  induction l as [|x l IH]; intros f p e' s Ht He; cbn [table] in Ht; [subst; by exists s|]. destruct Ht as [Hx Ht].
  pose proof (table_le _ _ _ _ Ht) as Hle.
  destruct (mp_loop_entry (length l + f) p e ismp s x Hx) as (s1 & E1 & Hm1 & Hl1 & Hf1).
  { destruct x; unfold esize, sizeof_mpproc, sizeof_mpioapic in Hle; lia. }
  destruct (IH f (p + esize x) e' s1) as (s2 & E2 & Hm2 & Hl2 & Hf2); [by rewrite Hm1 | done |].
  exists s2. cbn [length Nat.add]. rewrite E1, E2. split_and!; [done | congruence | congruence |]. by rewrite Hf2, Hf1.
Qed.

(** An unknown type keeps the loop where it is. *)
Lemma mp_loop_stuck p e : p < e -> forall f ismp (s : mps), 5 <= loadb (memory s) p ->
  exists s', mp_loop f p e ismp s = Spin s'.
Proof.
  intros Hp. induction f as [|f IH]; intros ismp s Hb; [by exists s|]. cbn [mp_loop].
  rewrite (proj2 (Z.ltb_lt _ _)) by done. erewrite bind_ret by reflexivity. unfold byte_at.
  change (ram_bytes (lget s)) with (memory s). rewrite !(proj2 (Z.eqb_neq _ _)) by lia. cbn [orb]. by apply IH.
Qed.

Lemma mp_loop_short ismp e l : forall f p e' (s : mps), table (memory s) p l e' -> e' < e -> (f <= length l)%nat ->
  exists s', mp_loop f p e ismp s = Spin s'.
Proof.
  induction l as [|x l IH]; intros [|f] p e' s Ht He Hf; [by exists s | cbn in Hf; lia | by exists s |].
  cbn [table] in Ht. destruct Ht as [Hx Ht]. pose proof (table_le _ _ _ _ Ht) as Hle.
  destruct (mp_loop_entry f p e ismp s x Hx) as (s1 & E1 & Hm1 & _).
  { destruct x; unfold esize, sizeof_mpproc, sizeof_mpioapic in Hle; lia. }
  rewrite E1. eapply IH; [rewrite Hm1; exact Ht | done | cbn in Hf; lia].
Qed.


(** A table with two processors and an I/O APIC. *)
Definition two_cpus : mps :=
  (set_cpus [] boot_core, ({| lapic := 0; ioapicid := 0 |},
    {| ram_bytes := storeb (storeb (storeb (storeb ∅ 101 0) 121 5) 140 2) 141 9 |})).


End MachineProof.
