(* ===== verification/Ide.v ===== *)
(** * The disk driver: ide.c

    Requests wait in a queue; the disk works on the first one and interrupts when it is
    done.  The disk is a parameter: [AtaHw] has its ports, and [AtaLaws] says what they
    do to the registers and sectors of an ATA disk. *)

From stdpp Require Import base gmap list strings.
From Stdlib Require Import ZArith Lia.
From S2P Require Import Prelude Core Locking Bio.
Import Sleeplock.

(** ** The disk *)

Class AtaHw (D : Type) : Type := {
  at_outb : Z -> Z -> M D unit;
  at_inb : Z -> M D Z;
  at_outsl : block -> M D unit;       (* the words of a block to port 0x1f0 *)
  at_insl : M D block;
  at_enable : M D unit                (* ioapicenable(IRQ_IDE, ncpu - 1) *)
}.

(** The registers, the last command, the sectors of the two drives, and a bound on how
    often the status still says busy. *)
Record ata : Type := { a_reg : Z -> Z; a_cmd : Z; a_disk : Z -> Z -> block; a_busy : nat; a_lat : nat }.

Definition IDE_CMD_READ : Z := 0x20.
Definition IDE_CMD_WRITE : Z := 0x30.
Definition p_status : Z := 0x1f7.

Definition a_sector (a : ata) : Z :=
  a_reg a 0x1f3 + 2 ^ 8 * a_reg a 0x1f4 + 2 ^ 16 * a_reg a 0x1f5 + 2 ^ 24 * Z.land (a_reg a 0x1f6) 0xf.
Definition a_drive (a : ata) : Z := Z.land (Z.shiftr (a_reg a 0x1f6) 4) 1.

Definition ata_out (p x : Z) (a : ata) : ata :=
  if p =? p_status
  then {| a_reg := a_reg a; a_cmd := x; a_disk := a_disk a; a_busy := a_lat a; a_lat := a_lat a |}
  else {| a_reg := fupd p x (a_reg a); a_cmd := a_cmd a; a_disk := a_disk a; a_busy := a_busy a; a_lat := a_lat a |}.
Definition ata_set_busy (n : nat) (a : ata) : ata :=
  {| a_reg := a_reg a; a_cmd := a_cmd a; a_disk := a_disk a; a_busy := n; a_lat := a_lat a |}.
Definition ata_store (d : block) (a : ata) : ata :=
  {| a_reg := a_reg a; a_cmd := a_cmd a;
     a_disk := fupd (a_drive a) (fupd (a_sector a) d (a_disk a (a_drive a))) (a_disk a);
     a_busy := a_busy a; a_lat := a_lat a |}.

Definition ready (r : Z) : bool := Z.land r 0xC0 =? 0x40.

Class AtaLaws (D : Type) `{AtaHw D} : Type := {
  av : D -> ata;
  at_outb_law p x d (Q : unit -> D -> Prop) :
    (forall d', av d' = ata_out p x (av d) -> Q tt d') -> wp (at_outb p x) d Q;
  at_status_law d (Q : Z -> D -> Prop) :
    (forall r d', ready r = false -> a_busy (av d) = Datatypes.S (a_busy (av d')) ->
       av d' = ata_set_busy (a_busy (av d')) (av d) -> Q r d') ->
    (forall r d', ready r = true -> Z.land r 0x21 = 0 -> av d' = ata_set_busy 0 (av d) -> Q r d') ->
    wp (at_inb p_status) d Q;
  at_outsl_law b d (Q : unit -> D -> Prop) :
    a_cmd (av d) = IDE_CMD_WRITE -> (forall d', av d' = ata_store b (av d) -> Q tt d') -> wp (at_outsl b) d Q;
  at_insl_law d (Q : block -> D -> Prop) :
    a_cmd (av d) = IDE_CMD_READ ->
    (forall d', av d' = av d -> Q (a_disk (av d) (a_drive (av d)) (a_sector (av d))) d') -> wp at_insl d Q
}.

Module Ide.

Definition FSSIZE : Z := 1000.

(** [idequeue], [havedisk1] and the field [qnext] of the buffers. *)
Record idevars : Type := { idequeue : option nat; havedisk1 : bool; qnext : nat -> option nat }.

Definition set_queue (q : option nat) (v : idevars) : idevars :=
  {| idequeue := q; havedisk1 := havedisk1 v; qnext := qnext v |}.
Definition set_disk1 (b : bool) (v : idevars) : idevars :=
  {| idequeue := idequeue v; havedisk1 := b; qnext := qnext v |}.
Definition set_qnext (b : nat) (q : option nat) (v : idevars) : idevars :=
  {| idequeue := idequeue v; havedisk1 := havedisk1 v;
     qnext := fun x => if decide (x = b) then q else qnext v x |}.

Section Ops.
Context {S D : Type} {HL : Lens S core} {HT : Lens S slocktab} {HB : Lens S Bio.bcache}
  {HLv : Lens S idevars} {HLd : Lens S D} {HH : AtaHw D}.
(** The bounds on the busy waiting and on the wakeups. *)
Context (wf : nat).

Definition outb (p x : Z) : M S unit := zoom (at_outb p (u8 x)).
Definition inb (p : Z) : M S Z := zoom (at_inb p).
Definition vmod (f : idevars -> idevars) : M S unit := lmod (T := idevars) f.

(** The loop of [idewait]: the status when the disk is ready. *)
Fixpoint wait_ready (fuel : nat) : M S Z :=
  match fuel with
  | O => spin
  | Datatypes.S f => r ← inb p_status; if ready r then mret r else wait_ready f
  end.

Definition idewait (checkerr : bool) : M S Z :=
  r ← wait_ready wf;
  mret (if checkerr && negb (Z.land r 0x21 =? 0) then -1 else 0).

(** At most 1000 polls for the second disk. *)
Fixpoint find_disk1 (n : nat) : M S unit :=
  match n with
  | O => mret tt
  | Datatypes.S n' =>
      r ← inb p_status;
      if negb (r =? 0) then vmod (set_disk1 true) else find_disk1 n'
  end.

Definition ideinit : M S unit :=
  initlock L_ide;;
  zoom (at_enable : M D unit);;
  idewait false;;
  outb 0x1f6 (Z.lor 0xe0 (Z.shiftl 1 4));;
  find_disk1 1000;;
  outb 0x1f6 (Z.lor 0xe0 (Z.shiftl 0 4)).

Definition idestart (b : option nat) : M S unit :=
  match b with
  | None => panic "idestart"
  | Some b =>
      k ← Bio.getbuf b;
      if FSSIZE <=? Bio.blockno k then panic "incorrect blockno"
      else
        let sector := Bio.blockno k in
        idewait false;;
        outb 0x3f6 0;;
        outb 0x1f2 1;;
        outb 0x1f3 (Z.land sector 0xff);;
        outb 0x1f4 (Z.land (Z.shiftr sector 8) 0xff);;
        outb 0x1f5 (Z.land (Z.shiftr sector 16) 0xff);;
        outb 0x1f6 (Z.lor (Z.lor 0xe0 (Z.shiftl (Z.land (Bio.dev k) 1) 4)) (Z.land (Z.shiftr sector 24) 0x0f));;
        if Bio.has (Bio.flags k) B_DIRTY then
          outb p_status IDE_CMD_WRITE;;
          zoom (at_outsl (Bio.bdata k) : M D unit)
        else outb p_status IDE_CMD_READ
  end.

Definition ideintr : M S unit :=
  acquire L_ide;;
  q ← lgets (T := idevars) idequeue;
  match q with
  | None => release L_ide
  | Some b =>
      lmod (T := idevars) (fun v => set_queue (qnext v b) v);;
      k ← Bio.getbuf b;
      (if Bio.has (Bio.flags k) B_DIRTY then mret tt
       else
         r ← idewait true;
         if 0 <=? r then x ← zoom (at_insl : M D block); Bio.modbuf b (Bio.set_data x) else mret tt);;
      Bio.modbuf b (fun k => Bio.set_flags (Z.lor (Bio.flags k) B_VALID) k);;
      Bio.modbuf b (fun k => Bio.set_flags (Z.ldiff (Bio.flags k) B_DIRTY) k);;
      wakeup (ch_buf b);;
      q ← lgets (T := idevars) idequeue;
      (match q with Some _ => idestart q | None => mret tt end);;
      release L_ide
  end.

(** The last buffer of the queue, from [b] on. *)
Fixpoint last_of (fuel : nat) (nx : nat -> option nat) (b : nat) : nat :=
  match fuel with
  | O => b
  | Datatypes.S f => match nx b with None => b | Some b' => last_of f nx b' end
  end.

(** Append [b]; the queue has at most NBUF buffers. *)
Definition enqueue (b : nat) (v : idevars) : idevars :=
  let v := set_qnext b None v in
  match idequeue v with
  | None => set_queue (Some b) v
  | Some h => set_qnext (last_of NBUF (qnext v) h) (Some b) v
  end.

Definition unfinished (f : Z) : bool := negb (Z.land f (Z.lor B_VALID B_DIRTY) =? B_VALID).

Fixpoint wait_done (fuel : nat) (b : nat) : M S unit :=
  match fuel with
  | O => spin
  | Datatypes.S f =>
      k ← Bio.getbuf b;
      if unfinished (Bio.flags k) then sleep (ch_buf b) L_ide;; wait_done f b else mret tt
  end.

Definition iderw (b : nat) : M S unit :=
  h ← holdingsleep (Bio.blk b);
  if negb h then panic "iderw: buf not locked"
  else
    k ← Bio.getbuf b;
    if negb (unfinished (Bio.flags k)) then panic "iderw: nothing to do"
    else
      d1 ← lgets (T := idevars) havedisk1;
      if negb (Bio.dev k =? 0) && negb d1 then panic "iderw: ide disk 1 not present"
      else
        acquire L_ide;;
        vmod (enqueue b);;
        q ← lgets (T := idevars) idequeue;
        (if decide (q = Some b) then idestart (Some b) else mret tt);;
        wait_done wf b;;
        release L_ide.

#[export] Instance ide : Bio.IdeDriver S := {| Bio.iderw := iderw |}.

End Ops.
End Ide.
