(* ===== verification/IdeProof.v ===== *)
(** * The disk driver serves its requests in order

    A queue of requests has a meaning for the sectors of the disk: the writes take
    place one after the other, and a read sees the writes before it.  The driver, with
    its interrupts, implements this meaning. *)

From stdpp Require Import base gmap list strings.
From Stdlib Require Import ZArith Lia.
From S2P Require Import Prelude Core Locking Bio Ide.
Import Sleeplock.

Module IdeProof.
Import Ide.

Abbreviation sectors := (Z -> Z -> block).

Definition dirty (k : Bio.buf) : bool := Bio.has (Bio.flags k) B_DIRTY.
Definition drive_of (k : Bio.buf) : Z := Z.land (Bio.dev k) 1.

(** One request, and a list of requests, on the sectors. *)
Definition apply (k : Bio.buf) (dk : sectors) : sectors := fun n s =>
  if dirty k && (n =? drive_of k) && (s =? Bio.blockno k) then Bio.bdata k else dk n s.
Definition serve (l : list Bio.buf) (dk : sectors) : sectors := fold_left (fun dk k => apply k dk) l dk.

Lemma apply_ext k dk dk' : (forall n s, dk n s = dk' n s) -> forall n s, apply k dk n s = apply k dk' n s.
Proof. intros H n s. unfold apply. by rewrite H. Qed.

Lemma serve_ext l : forall dk dk', (forall n s, dk n s = dk' n s) -> forall n s, serve l dk n s = serve l dk' n s.
Proof. induction l as [|k l IH]; intros dk dk' H; [done|]. apply IH. by apply apply_ext. Qed.

Lemma apply_twice k dk n s : apply k (apply k dk) n s = apply k dk n s.
Proof. unfold apply. by destruct (_ && _). Qed.

(** The queue from [h] on. *)
Fixpoint qlist (nx : nat -> option nat) (h : option nat) (q : list nat) : Prop :=
  match q with
  | [] => h = None
  | b :: q' => h = Some b /\ qlist nx (nx b) q'
  end.

Lemma qlist_ext nx nx' q : forall h, (forall b, b ∈ q -> nx' b = nx b) -> qlist nx h q -> qlist nx' h q.
Proof.
  induction q as [|b q IH]; intros h He Hq; [done|]. destruct Hq as [-> Hq]. split; [done|].
  rewrite He by (by left). apply IH; [|done]. intros x Hx. apply He. by right.
Qed.

Lemma default_last (b x : nat) q : default b (last (x :: q)) = default x (last q).
Proof. rewrite last_cons. by destruct (last q). Qed.

Lemma last_of_qlist nx q : forall b fuel, qlist nx (nx b) q -> (length q <= fuel)%nat ->
  last_of fuel nx b = default b (last q).
Proof.
  induction q as [|x q IH]; intros b fuel Hq Hf; simpl in Hq.
  - destruct fuel as [|f]; simpl; [done|]. by rewrite Hq.
  - destruct Hq as [Hb Hq]. destruct fuel as [|f]; simpl in *; [lia|]. rewrite Hb, (IH x f) by (done || lia).
    by rewrite default_last.
Qed.

(** [enqueue] appends to the queue. *)
Lemma qlist_snoc nx b q : forall h, qlist nx (Some h) (h :: q) -> NoDup (h :: q) -> b ∉ h :: q ->
  let nx' x := if decide (x = default h (last q)) then Some b else if decide (x = b) then None else nx x in
  qlist nx' (Some h) (h :: q ++ [b]).
Proof.
  induction q as [|x q IH]; intros h Hq Hnd Hb nx'; destruct Hq as [_ Hq].
  - simpl. unfold nx'. simpl. rewrite decide_True by done. split_and!; [done | done |].
    rewrite decide_False by (intros ->; apply Hb; by left). by rewrite decide_True.
  - cbn [app]. split; [done|]. pose proof Hq as [Hx _]. apply NoDup_cons in Hnd as [Hh Hnd].
    assert (E : nx' = fun y => if decide (y = default x (last q)) then Some b else if decide (y = b) then None else nx y).
    { unfold nx'. by rewrite default_last. }
    assert (Hn : nx' h = Some x).
    { rewrite E. rewrite decide_False, decide_False; [done | intros ->; apply Hb; by left |].
      intros ->. apply Hh. destruct (last q) as [y|] eqn:El; [|by left]. right. by apply last_Some_elem_of. }
    rewrite Hn, E. apply IH; [by rewrite <- Hx | done |]. intros Hi. apply Hb. by right.
Qed.

(** *** The disk at work *)

Abbreviation kst := (core * slocktab * Bio.bcache * idevars)%type.

Section Proofs.
Context {D : Type} {HH : AtaHw D} {HLaws : AtaLaws D}.
Context (wf : nat).
Abbreviation ids := (kst * D)%type.

(** A disk that becomes ready within the bound. *)
Definition quick (a : ata) : Prop := (a_busy a <= a_lat a < wf)%nat.

Lemma quick_out p x a : quick a -> quick (ata_out p x a).
Proof. intros [? ?]. unfold quick, ata_out. destruct (p =? p_status); cbn [a_busy a_lat]; lia. Qed.

Lemma wp_ide_outb (y : kst) d p x (Q : unit -> ids -> Prop) : 0 <= x < 256 ->
  (forall d', av d' = ata_out p x (av d) -> Q tt (y, d')) -> wp (outb p x) (y, d) Q.
Proof. intros Hx HQ. unfold outb. rewrite u8_small by done. apply wp_zoom, at_outb_law. exact HQ. Qed.

Lemma wp_wait_ready (y : kst) (Q : Z -> ids -> Prop) : forall fuel d, (a_busy (av d) < fuel)%nat ->
  (forall r d', Z.land r 0x21 = 0 -> av d' = ata_set_busy 0 (av d) -> Q r (y, d')) ->
  wp (wait_ready fuel) (y, d) Q.
Proof.
  induction fuel as [|f IH]; intros d Hf HQ; [lia|]. cbn [wait_ready]. apply wp_bind, wp_zoom, at_status_law.
  - intros r d' Hr Hb Hd. cbn in Hb, Hd |- *. rewrite Hr. apply IH; [lia|]. intros r' d2 Hr' Hd2. apply HQ; [done|]. by rewrite Hd2, Hd.
  - intros r d' Hr He Hd. rewrite Hr. apply wp_ret. by apply HQ.
Qed.

Lemma wp_idewait (y : kst) d ce (Q : Z -> ids -> Prop) : quick (av d) ->
  (forall d', av d' = ata_set_busy 0 (av d) -> Q 0 (y, d')) -> wp (idewait wf ce) (y, d) Q.
Proof.
  intros Hq HQ. unfold idewait. apply wp_bind, wp_wait_ready; [unfold quick in Hq; lia|]. intros r d' Hr Hd. apply wp_ret.
  rewrite Hr. cbn [Z.eqb negb]. rewrite andb_false_r. by apply HQ.
Qed.

(** The command for the request [k] has been given; a write has been transferred. *)
Definition started (a : ata) (k : Bio.buf) : Prop :=
  a_sector a = Bio.blockno k /\ a_drive a = drive_of k /\
  a_cmd a = (if dirty k then IDE_CMD_WRITE else IDE_CMD_READ) /\
  forall n s, apply k (a_disk a) n s = a_disk a n s.

Definition in_range (k : Bio.buf) : Prop := 0 <= Bio.blockno k < FSSIZE.

(** The bytes that [idestart] writes to the registers spell the sector and the drive. *)
Lemma sector_bytes n : 0 <= n < FSSIZE ->
  Z.land n 0xff + 2 ^ 8 * Z.land (Z.shiftr n 8) 0xff + 2 ^ 16 * Z.land (Z.shiftr n 16) 0xff = n /\
  Z.land (Z.shiftr n 24) 0x0f = 0.
Proof.
  intros Hn. unfold FSSIZE in Hn. rewrite !land_ff, !Z.shiftr_div_pow2 by lia. unfold u8.
  replace (n / 2 ^ 24) with 0 by (symmetry; apply Z.div_small; lia). split; [|done].
  replace (n / 2 ^ 16) with 0 by (symmetry; apply Z.div_small; lia).
  change (2 ^ 8) with 256. change (2 ^ 16 * (0 mod 256)) with 0. Z.div_mod_to_equations. lia.
Qed.

Lemma drive_bits x : let r := Z.lor (Z.lor 0xe0 (Z.shiftl (Z.land x 1) 4)) 0 in
  0 <= r < 256 /\ Z.land r 0xf = 0 /\ Z.land (Z.shiftr r 4) 1 = Z.land x 1.
Proof.
  assert (Hx : Z.land x 1 = 0 \/ Z.land x 1 = 1) 
    by (pose proof (Z.land_ones x 1 ltac:(lia)) as E; change (Z.ones 1) with 1 in E; change (2 ^ 1) with 2 in E;
        pose proof (Z.mod_pos_bound x 2); lia).
  destruct Hx as [-> | ->]; vm_compute; intuition congruence.
Qed.

(** The registers after the stores of [idestart]. *)
Definition regs_set (k : Bio.buf) (a : ata) : ata :=
  let n := Bio.blockno k in
  ata_out 0x1f6 (Z.lor (Z.lor 0xe0 (Z.shiftl (Z.land (Bio.dev k) 1) 4)) (Z.land (Z.shiftr n 24) 0x0f))
    (ata_out 0x1f5 (Z.land (Z.shiftr n 16) 0xff) (ata_out 0x1f4 (Z.land (Z.shiftr n 8) 0xff)
      (ata_out 0x1f3 (Z.land n 0xff) (ata_out 0x1f2 1 (ata_out 0x3f6 0 a))))).

Lemma regs_set_spec k a : in_range k -> quick a ->
  a_sector (regs_set k a) = Bio.blockno k /\ a_drive (regs_set k a) = drive_of k /\
  a_disk (regs_set k a) = a_disk a /\ quick (regs_set k a).
Proof.
  intros Hk Hq. destruct (sector_bytes (Bio.blockno k) Hk) as [Hs H0]. destruct (drive_bits (Bio.dev k)) as (_ & H1 & H2).
  unfold regs_set. rewrite H0. split_and!; [| exact H2 | done | repeat apply quick_out; done].
  set (r := Z.lor _ 0) in *. unfold a_sector.
  change (Z.land (Bio.blockno k) 0xff + 2 ^ 8 * Z.land (Z.shiftr (Bio.blockno k) 8) 0xff
    + 2 ^ 16 * Z.land (Z.shiftr (Bio.blockno k) 16) 0xff + 2 ^ 24 * Z.land r 0xf = Bio.blockno k).
  rewrite H1. lia.
Qed.

Lemma wp_regs (y : kst) d k (m : M ids unit) (Q : unit -> ids -> Prop) : in_range k ->
  (forall d', av d' = regs_set k (av d) -> wp m (y, d') Q) ->
  wp (outb 0x3f6 0;; outb 0x1f2 1;; outb 0x1f3 (Z.land (Bio.blockno k) 0xff);;
      outb 0x1f4 (Z.land (Z.shiftr (Bio.blockno k) 8) 0xff);;
      outb 0x1f5 (Z.land (Z.shiftr (Bio.blockno k) 16) 0xff);;
      outb 0x1f6 (Z.lor (Z.lor 0xe0 (Z.shiftl (Z.land (Bio.dev k) 1) 4)) (Z.land (Z.shiftr (Bio.blockno k) 24) 0x0f));;
      m) (y, d) Q.
Proof.
  intros Hk HQ. destruct (sector_bytes _ Hk) as [_ H0]. destruct (drive_bits (Bio.dev k)) as (Hr & _).
  do 6 (apply wp_bind, wp_ide_outb; [first [lia | rewrite land_ff; apply u8_range | by rewrite H0]|]; intros ? ?).
  apply HQ. unfold regs_set. congruence.
Qed.

Lemma ata_store_disk b a n s :
  a_disk (ata_store b a) n s = if (n =? a_drive a) && (s =? a_sector a) then b else a_disk a n s.
Proof.
  unfold ata_store, fupd. cbn [a_disk]. destruct (Z.eqb_spec n (a_drive a)) as [->|Hn]; cbn [andb].
  - rewrite decide_True by done. by destruct (Z.eqb_spec s (a_sector a)); [rewrite decide_True | rewrite decide_False].
  - by rewrite decide_False.
Qed.

Lemma wp_idestart (c : core) t k (v : idevars) d b (Q : unit -> ids -> Prop) :
  quick (av d) -> in_range (Bio.buf_of k b) ->
  (forall d', quick (av d') -> started (av d') (Bio.buf_of k b) ->
     (forall n s, a_disk (av d') n s = apply (Bio.buf_of k b) (a_disk (av d)) n s) -> Q tt ((c, t, k, v), d')) ->
  wp (idestart wf (Some b)) ((c, t, k, v), d) Q.
Proof.
  intros Hq Hr HQ. unfold idestart, Bio.getbuf. wp_step. cbn [lget lens_fst lens_snd lens_id fst snd].
  set (q := Bio.buf_of k b) in *. rewrite (proj2 (Z.leb_gt _ _)) by apply Hr. apply wp_bind, wp_idewait; [done|].
  intros d1 H1. apply (wp_regs _ _ q); [done|]. intros d2 H2.
  destruct (regs_set_spec q (av d1)) as (Hs & Hd & Hk & Hq2); [done | rewrite H1; unfold quick in *; cbn; lia |].
  rewrite <- H2 in *. rewrite H1 in Hk. cbn [ata_set_busy a_disk] in Hk.
  change (Bio.has (Bio.flags q) B_DIRTY) with (dirty q). destruct (dirty q) eqn:Ed.
  - apply wp_bind, wp_ide_outb; [done|]. intros d3 H3. apply wp_zoom, at_outsl_law; cbn [lget lens_fst lens_snd lens_id fst snd].
    { by rewrite H3. }
    intros d4 H4. assert (Hdisk : forall n s, a_disk (av d4) n s = apply q (a_disk (av d)) n s).
    { intros n s. rewrite H4, H3, ata_store_disk. unfold apply. rewrite Ed. cbn [andb].
      change (a_drive (ata_out p_status IDE_CMD_WRITE (av d2))) with (a_drive (av d2)).
      change (a_sector (ata_out p_status IDE_CMD_WRITE (av d2))) with (a_sector (av d2)).
      by rewrite Hd, Hs, <- Hk. }
    apply (HQ d4); [rewrite H4, H3; exact (quick_out p_status IDE_CMD_WRITE _ Hq2) | | done].
    split_and!; [by rewrite H4, H3 | by rewrite H4, H3 | by rewrite H4, H3, Ed |].
    intros n s. rewrite Hdisk, (apply_ext _ _ _ Hdisk). apply apply_twice.
  - apply wp_ide_outb; [done|]. intros d3 H3.
    assert (Hdisk : forall n s, a_disk (av d3) n s = a_disk (av d) n s) by (intros n s; by rewrite H3, <- Hk).
    assert (Hap : forall dk n s, apply q dk n s = dk n s) by (intros; unfold apply; by rewrite Ed).
    apply (HQ d3); [rewrite H3; by apply quick_out | | intros; by rewrite Hdisk, Hap].
    split_and!; [by rewrite H3 | by rewrite H3 | by rewrite H3, Ed | intros; apply Hap].
Qed.

(** The queue [q], the disk working on its first request. *)
Definition ide_ok (k : Bio.bcache) (v : idevars) (a : ata) (q : list nat) : Prop :=
  qlist (qnext v) (idequeue v) q /\ NoDup q /\ quick a /\
  (forall b, b ∈ q -> in_range (Bio.buf_of k b) /\ unfinished (Bio.flags (Bio.buf_of k b)) = true) /\
  match q with b :: _ => started a (Bio.buf_of k b) | [] => True end.

(** A buffer whose request is done, with the sectors [dk]. *)
Definition finish (dk : sectors) (k : Bio.buf) : Bio.buf :=
  Bio.set_flags (Z.ldiff (Z.lor (Bio.flags k) B_VALID) B_DIRTY)
    (if dirty k then k else Bio.set_data (dk (drive_of k) (Bio.blockno k)) k).

(** The part of [ideintr] that reads the data. *)
Lemma wp_read_data (c : core) t k v d b (Q : unit -> ids -> Prop) :
  quick (av d) -> started (av d) (Bio.buf_of k b) ->
  (forall k' d', quick (av d') -> a_disk (av d') = a_disk (av d) ->
     Bio.buf_of k' b = (let x := Bio.buf_of k b in
       if dirty x then x else Bio.set_data (a_disk (av d) (drive_of x) (Bio.blockno x)) x) ->
     (forall x, x <> b -> Bio.buf_of k' x = Bio.buf_of k x) -> Q tt ((c, t, k', v), d')) ->
  wp (if Bio.has (Bio.flags (Bio.buf_of k b)) B_DIRTY then mret tt
      else r ← idewait wf true;
           if 0 <=? r then x ← zoom (at_insl : M D block); Bio.modbuf b (Bio.set_data x) else mret tt)
    ((c, t, k, v), d) Q.
Proof.
  intros Hq (Hs & Hd & Hc & _) HQ. fold (dirty (Bio.buf_of k b)) in *. cbv zeta in HQ.
  destruct (dirty (Bio.buf_of k b)) eqn:E; [apply wp_ret; by apply HQ|].
  apply wp_bind, wp_idewait; [done|]. intros d1 H1. cbn [Z.leb Z.compare]. apply wp_bind, wp_zoom, at_insl_law.
  { cbn. by rewrite H1. }
  intros d2 H2. cbn in H2 |- *. unfold Bio.modbuf. apply wp_lmod. cbn [lset lget lens_fst lens_snd lens_id fst snd].
  apply HQ.
  - rewrite H2, H1. unfold quick in *. cbn. lia.
  - by rewrite H2, H1.
  - cbn. rewrite decide_True by done. f_equal. rewrite H1. rewrite <- Hs, <- Hd. done.
  - intros x Hx. cbn. by rewrite decide_False.
Qed.

Lemma upd_buf_eq b f k : Bio.buf_of (Bio.upd_buf b f k) b = f (Bio.buf_of k b).
Proof. cbn. by rewrite decide_True. Qed.
Lemma upd_buf_ne b f k x : x <> b -> Bio.buf_of (Bio.upd_buf b f k) x = Bio.buf_of k x.
Proof. intros H. cbn. by rewrite decide_False. Qed.

(** One interrupt completes the first request, wakes the process that waits for it and
    starts the next one. *)
Lemma wp_ideintr (c : core) t k v d b q i L ie p (Q : unit -> ids -> Prop) :
  core_ok c i L ie p -> L_ide ∉ L -> L_ptable ∉ L -> ide_ok k v (av d) (b :: q) ->
  (forall c' k' v' d', core_ok c' i L ie p -> procs c' = wake_proc (ch_buf b) <$> procs c ->
     ide_ok k' v' (av d') q -> Bio.buf_of k' b = finish (a_disk (av d)) (Bio.buf_of k b) ->
     (forall x, x <> b -> Bio.buf_of k' x = Bio.buf_of k x) ->
     (forall n s, a_disk (av d') n s = serve (Bio.buf_of k <$> take 1 q) (a_disk (av d)) n s) ->
     Q tt ((c', t, k', v'), d')) ->
  wp (ideintr wf) ((c, t, k, v), d) Q.
Proof.
  intros Hc HL1 HL2 ((Hh & Hql) & Hnd & Hq & Hb & Hst) HQ. apply NoDup_cons in Hnd as [Hni Hnd].
  unfold ideintr. wp_step. eapply wp_acquire; [exact Hc | done |]. intros c1 Hc1 (Hp1 & _).
  wp_step. cbn [lset lget lens_fst lens_snd lens_id fst snd]. rewrite Hh. unfold Bio.getbuf. wp_step.
  cbn [lset lget lens_fst lens_snd lens_id fst snd]. apply wp_read_data; [done..|].
  intros k1 d1 Hq1 Hdk1 Hkb1 Hko1. cbv zeta in Hkb1. unfold Bio.modbuf. wp_step.
  cbn [lset lget lens_fst lens_snd lens_id fst snd].
  set (k3 := Bio.upd_buf b _ (Bio.upd_buf b _ k1)).
  assert (Hk3 : Bio.buf_of k3 b = finish (a_disk (av d)) (Bio.buf_of k b)).
  { unfold k3. rewrite !upd_buf_eq, Hkb1. unfold finish. by destruct (dirty _). }
  assert (Hk3' : forall x, x <> b -> Bio.buf_of k3 x = Bio.buf_of k x).
  { intros x Hx. unfold k3. rewrite !upd_buf_ne by done. by apply Hko1. }
  eapply wp_wakeup; [exact Hc1 | by rewrite elem_of_cons; intros [?|?] |]. intros c2 Hc2 Hp2.
  wp_step. cbn [lset lget lens_fst lens_snd lens_id fst snd idequeue set_queue].
  assert (Hin : forall x, x ∈ q -> x <> b) by (intros x Hx ->; done).
  assert (Hb3 : forall x, x ∈ q -> in_range (Bio.buf_of k3 x) /\ unfinished (Bio.flags (Bio.buf_of k3 x)) = true).
  { intros x Hx. rewrite Hk3' by auto. apply Hb. by right. }
  assert (Hend : forall d2, quick (av d2) ->
    match q with x :: _ => started (av d2) (Bio.buf_of k3 x) | [] => True end ->
    (forall n s, a_disk (av d2) n s = serve (Bio.buf_of k <$> take 1 q) (a_disk (av d)) n s) ->
    wp (release L_ide) ((c2, t, k3, set_queue (qnext v b) v), d2) Q).
  { intros d2 Hq2 Hs2 Hd2. eapply wp_release; [exact Hc2|]. intros c3 Hc3 (Hp3 & _).
    apply (HQ c3 k3 (set_queue (qnext v b) v) d2); [done | | split_and!; done | done | done | done].
    rewrite Hp3. cbn in Hp2 |- *. by rewrite Hp2, Hp1. }
  destruct q as [|x q]; [rewrite Hql; apply wp_ret; rewrite <- Hql; apply Hend; [done | done | by rewrite Hdk1]|].
  pose proof Hql as [Hx _]. rewrite Hx. apply wp_idestart; [done | apply Hb3; by left |].
  intros d2 Hq2 Hs2 Hd2. rewrite <- Hx. apply Hend; [done | done |]. intros n s. rewrite Hd2, Hk3', Hdk1 by (apply Hin; by left). done.
Qed.

(** *** Serving the whole queue *)

Fixpoint intrs (n : nat) : M ids unit :=
  match n with
  | O => mret tt
  | Datatypes.S n' => ideintr wf;; intrs n'
  end.

Definition wake_all (l : list nat) (ps : list proc) : list proc :=
  fold_left (fun ps b => wake_proc (ch_buf b) <$> ps) l ps.

Lemma finish_ext dk dk' k : (forall n s, dk n s = dk' n s) -> finish dk k = finish dk' k.
Proof. intros H. unfold finish. by rewrite H. Qed.

Lemma serve_head (g : nat -> Bio.buf) q b dk n s :
  serve (g <$> q ++ [b]) (serve (g <$> take 1 (q ++ [b])) dk) n s = serve (g <$> q ++ [b]) dk n s.
Proof. destruct q as [|x q]; cbn; [apply apply_twice|]. apply serve_ext. intros. apply apply_twice. Qed.

Lemma finish_head (g : nat -> Bio.buf) q b dk :
  finish (serve (g <$> q) (serve (g <$> take 1 (q ++ [b])) dk)) (g b) = finish (serve (g <$> q) dk) (g b).
Proof.
  destruct q as [|x q]; cbn.
  - unfold finish, apply. destruct (dirty (g b)); [done|]. done.
  - apply finish_ext, serve_ext. intros. apply apply_twice.
Qed.

Lemma wp_intrs b i L ie p t (Q : unit -> ids -> Prop) : L_ide ∉ L -> L_ptable ∉ L ->
  forall q (c : core) k v d, core_ok c i L ie p -> ide_ok k v (av d) (q ++ [b]) ->
  (forall c' k' v' d', core_ok c' i L ie p -> procs c' = wake_all (q ++ [b]) (procs c) ->
     ide_ok k' v' (av d') [] ->
     Bio.buf_of k' b = finish (serve (Bio.buf_of k <$> q) (a_disk (av d))) (Bio.buf_of k b) ->
     (forall n s, a_disk (av d') n s = serve (Bio.buf_of k <$> q ++ [b]) (a_disk (av d)) n s) ->
     Q tt ((c', t, k', v'), d')) ->
  wp (intrs (Datatypes.S (length q))) ((c, t, k, v), d) Q.
Proof.
  intros HL1 HL2. induction q as [|x q IH]; intros c k v d Hc Hok HQ; cbn [intrs app length] in *; apply wp_bind.
  - eapply wp_ideintr; [exact Hc | done | done | exact Hok |]. intros c' k' v' d' Hc' Hp' Hok' Hb' _ Hd'. apply wp_ret.
    apply HQ; [done | done | done | done |]. intros n s. rewrite Hd'. destruct Hok as (_ & _ & _ & _ & _ & _ & _ & Ha). symmetry. apply Ha.
  - eapply wp_ideintr; [exact Hc | done | done | exact Hok |]. intros c1 k1 v1 d1 Hc1 Hp1 Hok1 _ Ho1 Hd1.
    destruct Hok as (_ & Hnd & _ & _ & _ & _ & _ & Ha). apply NoDup_cons in Hnd as [Hni _].
    assert (Hg : forall l : list nat, (forall y, y ∈ l -> y ∈ q ++ [b]) -> Bio.buf_of k1 <$> l = Bio.buf_of k <$> l).
    { intros l Hl. apply list_fmap_ext. intros j y Hy. apply Ho1. intros ->. apply Hni, Hl. by eapply list_elem_of_lookup_2. }
    assert (Hb : Bio.buf_of k1 b = Bio.buf_of k b) by (apply Ho1; intros ->; apply Hni, elem_of_app; right; by left).
    apply IH; [done | done |]. intros c2 k2 v2 d2 Hc2 Hp2 Hok2 Hb2 Hd2. apply HQ; [done | | done | |].
    + rewrite Hp2, Hp1. done.
    + rewrite Hb2, Hb, Hg by (intros; apply elem_of_app; by left). rewrite (finish_ext _ _ _ (serve_ext _ _ _ Hd1)), finish_head.
      apply finish_ext. intros n s. cbn. apply serve_ext. intros. symmetry. apply Ha.
    + intros n s. rewrite Hd2, Hg by done. rewrite (serve_ext _ _ _ Hd1), serve_head. cbn. apply serve_ext. intros. symmetry. apply Ha.
Qed.

(** *** Submitting a request *)

Lemma finished_flags f : unfinished (Z.ldiff (Z.lor f B_VALID) B_DIRTY) = false.
Proof.
  unfold unfinished. apply negb_false_iff, Z.eqb_eq. apply Z.bits_inj'. intros n _.
  rewrite Z.land_spec, Z.ldiff_spec, !Z.lor_spec.
  assert (H : Z.testbit B_VALID n && Z.testbit B_DIRTY n = false).
  { rewrite <- Z.land_spec. change (Z.land B_VALID B_DIRTY) with 0. apply Z.bits_0. }
  by destruct (Z.testbit f n), (Z.testbit B_VALID n), (Z.testbit B_DIRTY n).
Qed.

Lemma enqueue_qlist v q b : qlist (qnext v) (idequeue v) q -> NoDup q -> b ∉ q -> (length q <= NBUF)%nat ->
  qlist (qnext (enqueue b v)) (idequeue (enqueue b v)) (q ++ [b]) /\
  (idequeue (enqueue b v) = Some b <-> q = []).
Proof.
  intros Hq Hnd Hb Hlen. unfold enqueue. cbn [idequeue set_qnext]. destruct q as [|h q]; cbn [qlist] in Hq.
  - rewrite Hq. cbn. by rewrite decide_True.
  - destruct Hq as [Hh Hq]. rewrite Hh.
    assert (He : forall x, x ∈ h :: q -> (if decide (x = b) then None else qnext v x) = qnext v x).
    { intros x Hx. rewrite decide_False; [done|]. by intros ->. }
    rewrite (last_of_qlist _ q).
    + cbn [idequeue set_qnext qnext]. rewrite Hh.
      split; [exact (qlist_snoc (qnext v) b q h (conj eq_refl Hq) Hnd Hb)|].
      split; [|done]. intros [= ->]. exfalso. apply Hb. by left.
    + cbn [qnext set_qnext]. rewrite He by (by left). eapply qlist_ext; [|exact Hq]. intros x Hx. apply He. by right.
    + cbn in Hlen. lia.
Qed.

(** A process that sleeps on a buffer is woken when the buffer is served. *)
Lemma wake_all_wakes b p : forall q ps, b ∉ q -> pstate (default proc0 (ps !! p)) = SLEEPING ->
  pchan (default proc0 (ps !! p)) = ch_buf b ->
  pstate (default proc0 (wake_all (q ++ [b]) ps !! p)) = RUNNABLE.
Proof.
  induction q as [|x q IH]; intros ps Hb Hs Hc; cbn.
  - rewrite list_lookup_fmap. destruct (ps !! p) as [y|]; cbn in *; [|done]. unfold wake_proc.
    by rewrite Hs, Hc, !bool_decide_eq_true_2.
  - apply not_elem_of_cons in Hb as [Hx Hb].
    assert (E : default proc0 ((wake_proc (ch_buf x) <$> ps) !! p) = default proc0 (ps !! p)).
    { rewrite list_lookup_fmap. destruct (ps !! p) as [y|]; cbn in *; [|done]. unfold wake_proc.
      rewrite Hc, (bool_decide_eq_false_2 (ch_buf b = ch_buf x)) by congruence. by rewrite andb_false_r. }
    apply IH; [done | |]; by rewrite E.
Qed.

(** [iderw] up to the wait: the request is in the queue, and the disk has been started if
    it was idle. *)
Lemma iderw_submits (c : core) t k v d b q i ie p :
  core_ok c i [] ie (Some p) -> slocked (sl_of t (Bio.blk b)) = true -> spid (sl_of t (Bio.blk b)) = pid (getp c p) ->
  ide_ok k v (av d) q -> b ∉ q -> (length q <= NBUF)%nat -> in_range (Bio.buf_of k b) ->
  unfinished (Bio.flags (Bio.buf_of k b)) = true -> Bio.dev (Bio.buf_of k b) = 0 \/ havedisk1 v = true ->
  exists c1 t1 d1, iderw wf b ((c, t, k, v), d) = (wait_done wf b;; release L_ide) ((c1, t1, k, enqueue b v), d1) /\
    core_ok c1 i [L_ide] ie (Some p) /\ procs c1 = procs c /\ ide_ok k (enqueue b v) (av d1) (q ++ [b]) /\
    (forall n s, a_disk (av d1) n s = serve (Bio.buf_of k <$> take 1 (q ++ [b])) (a_disk (av d)) n s).
Proof.
  intros Hc Hsl Hpid Hok Hb Hlen Hr Hu Hdev. pose proof Hok as (Hq & Hnd & Hquick & Hbs & Hst).
  destruct (wp_holdingsleep ((c, t, k, v), d) i [] ie p (Bio.blk b) (fun r s' => r = true /\ exists c0 t0,
    s' = ((c0, t0, k, v), d) /\ core_ok c0 i [] ie (Some p) /\ procs c0 = procs c))
    as (a & s0 & E0 & -> & c0 & t0 & -> & Hc0 & Hp0); [exact Hc | apply not_elem_of_nil | |].
  { intros [[[[c' t'] k'] v'] d'] Hc' Hp' _ Ho. split; [unfold sleeplock_of; cbn; by rewrite Hsl, Hpid, Z.eqb_refl|].
    pose proof (Ho Bio.bcache _ _ _) as H1. pose proof (Ho idevars _ _ _) as H2. pose proof (Ho D _ _ _) as H3.
    cbn in H1, H2, H3. subst. by exists c', t'. }
  destruct (wp_acquire ((c0, t0, k, v), d) i [] ie (Some p) L_ide (fun _ s' => exists c1,
    s' = ((c1, t0, k, v), d) /\ core_ok c1 i [L_ide] ie (Some p) /\ procs c1 = procs c0))
    as ([] & s1 & E1 & c1 & -> & Hc1 & Hp1); [exact Hc0 | apply not_elem_of_nil | |].
  { intros c' Hc' (Hp' & _). by exists c'. }
  destruct (enqueue_qlist v q b) as [Hq' Hqb]; [done..|].
  assert (Hin : forall x, x ∈ q ++ [b] -> in_range (Bio.buf_of k x) /\ unfinished (Bio.flags (Bio.buf_of k x)) = true).
  { intros x [Hx| ->%list_elem_of_singleton]%elem_of_app; [by apply Hbs | done]. }
  assert (Hnd' : NoDup (q ++ [b])).
  { apply NoDup_app. split_and!; [done | | apply NoDup_singleton]. intros x Hx ->%list_elem_of_singleton. done. }
  assert (wp (if decide (idequeue (enqueue b v) = Some b) then idestart wf (Some b) else mret tt)
    ((c1, t0, k, enqueue b v), d) (fun _ s' => exists d1, s' = ((c1, t0, k, enqueue b v), d1) /\
      ide_ok k (enqueue b v) (av d1) (q ++ [b]) /\
      forall n s, a_disk (av d1) n s = serve (Bio.buf_of k <$> take 1 (q ++ [b])) (a_disk (av d)) n s))
    as ([] & s2 & E2 & d1 & -> & Hok1 & Hd1).
  { destruct (decide _) as [Hy|Hn].
    - apply Hqb in Hy as ->. apply wp_idestart; [done | done |]. intros d1 Hq1 Hs1 Hd1. exists d1. split_and!; done.
    - apply wp_ret. exists d. destruct q as [|h q]; [by destruct Hn; apply Hqb|].
      split_and!; [done | done.. |]. intros n s. destruct Hst as (_ & _ & _ & Ha). symmetry. apply Ha. }
  exists c1, t0, d1. split_and!; [| done | congruence | done | done].
  unfold iderw. rewrite (bind_ret _ _ _ _ _ E0). cbn [negb]. unfold Bio.getbuf. erewrite bind_ret by reflexivity.
  cbn [lget lens_fst lens_snd lens_id fst snd]. rewrite Hu. cbn [negb]. erewrite bind_ret by reflexivity.
  cbn [lget lens_fst lens_snd lens_id fst snd].
  assert (Hd0 : negb (Bio.dev (Bio.buf_of k b) =? 0) && negb (havedisk1 v) = false).
  { destruct Hdev as [-> | ->]; [done | apply andb_false_r]. }
  rewrite Hd0, (bind_ret _ _ _ _ _ E1). unfold vmod. erewrite bind_ret by reflexivity. erewrite bind_ret by reflexivity.
  cbn [lget lset lens_fst lens_snd lens_id fst snd]. by rewrite (bind_ret _ _ _ _ _ E2).
Qed.

Lemma wait_done_sleeps (c : core) t k v d b i ie p :
  core_ok c i [L_ide] ie (Some p) -> (p < length (procs c))%nat ->
  unfinished (Bio.flags (Bio.buf_of k b)) = true -> (2 <= wf)%nat ->
  exists c1 resume, (wait_done wf b;; release L_ide) ((c, t, k, v), d) = Sleep (ch_buf b) (((c1, t, k, v), d) : ids) resume /\
    procs c1 = asleep p (ch_buf b) (procs c) /\
    forall c4 t4 k4 v4 d4 j4 ie4, core_ok c4 j4 [L_ptable] ie4 (Some p) ->
      unfinished (Bio.flags (Bio.buf_of k4 b)) = false ->
      exists c5, resume (((c4, t4, k4, v4), d4) : ids) = Ret tt ((c5, t4, k4, v4), d4) /\ core_ok c5 j4 [] ie (Some p).
Proof.
  intros Hc Hp Hu Hwf. destruct wf as [|[|f]]; [lia | lia |].
  destruct (sleep_spec (((c, t, k, v), d) : ids) i ie p (ch_buf b) L_ide) as (c1 & r & E & _ & Hp1 & Hr); [exact Hc | done | done |].
  eexists c1, _. split_and!; [| exact Hp1 |].
  - cbn [wait_done]. unfold mbind at 1, M_bind at 1. erewrite bind_ret by reflexivity.
    cbn [lget lens_fst lens_snd lens_id fst snd]. rewrite Hu. unfold mbind at 1, M_bind at 1. rewrite E.
    cbn [obind]. reflexivity.
  - intros c4 t4 k4 v4 d4 j4 ie4 Hc4 Hf. cbv beta. rewrite Hr.
    destruct (wp_sleep_exit (((c4, t4, k4, v4), d4) : ids) j4 ie4 ie p L_ide (fun _ s' => exists c', s' = ((c', t4, k4, v4), d4) /\
      core_ok c' j4 [L_ide] ie (Some p))) as ([] & s2 & E2 & c2 & -> & Hc2); [exact Hc4 | done | |].
    { intros c' Hc' _. by exists c'. }
    rewrite E2. cbn [obind wait_done]. erewrite bind_ret by reflexivity.
    cbn [lget lens_fst lens_snd lens_id fst snd]. rewrite Hf. cbn [mret M_ret obind].
    destruct (wp_release (((c2, t4, k4, v4), d4) : ids) j4 [] ie (Some p) L_ide (fun _ s' => exists c', s' = ((c', t4, k4, v4), d4) /\
      core_ok c' j4 [] ie (Some p))) as ([] & s3 & E3 & c3 & -> & Hc3); [exact Hc2 | |].
    { intros c' Hc' _. by exists c'. }
    exists c3. split; [exact E3 | done].
Qed.

(** C17: the driver serves requests in the order of its queue.  A process that asks for a
    transfer while [q] is waiting goes to sleep with its request last; after one
    interrupt for each request the buffer is valid and clean and the process can run:
    a read got the sector as the writes of [q] left it, a write is on the disk after
    them, nothing else on the disk changed, and when the process runs again [iderw]
    returns. *)
Theorem ide_serves_request (c : core) t k v d b q i ie p :
  core_ok c i [] ie (Some p) -> (p < length (procs c))%nat ->
  slocked (sl_of t (Bio.blk b)) = true -> spid (sl_of t (Bio.blk b)) = pid (getp c p) ->
  ide_ok k v (av d) q -> b ∉ q -> (length q <= NBUF)%nat -> in_range (Bio.buf_of k b) ->
  unfinished (Bio.flags (Bio.buf_of k b)) = true -> Bio.dev (Bio.buf_of k b) = 0 \/ havedisk1 v = true ->
  (2 <= wf)%nat ->
  exists c1 t1 v1 d1 resume, iderw wf b ((c, t, k, v), d) = Sleep (ch_buf b) ((c1, t1, k, v1), d1) resume /\
    ide_ok k v1 (av d1) (q ++ [b]) /\
    forall c2 j ie2 p2, core_ok c2 j [] ie2 p2 -> procs c2 = procs c1 ->
    exists c3 k3 v3 d3, intrs (Datatypes.S (length q)) ((c2, t1, k, v1), d1) = Ret tt ((c3, t1, k3, v3), d3) /\
      Bio.buf_of k3 b = finish (serve (Bio.buf_of k <$> q) (a_disk (av d))) (Bio.buf_of k b) /\
      (forall n s, a_disk (av d3) n s = serve (Bio.buf_of k <$> q ++ [b]) (a_disk (av d)) n s) /\
      pstate (getp c3 p) = RUNNABLE /\
      forall c4 j4 ie4, core_ok c4 j4 [L_ptable] ie4 (Some p) ->
      exists c5, resume ((c4, t1, k3, v3), d3) = Ret tt ((c5, t1, k3, v3), d3) /\ core_ok c5 j4 [] ie (Some p).
Proof.
  intros Hc Hp Hsl Hpid Hok Hb Hlen Hr Hu Hdev Hwf.
  destruct (iderw_submits c t k v d b q i ie p) as (c0 & t1 & d1 & E0 & Hc0 & Hp0 & Hok1 & Hd1); [done..|].
  destruct (wait_done_sleeps c0 t1 k (enqueue b v) d1 b i ie p) as (c1 & resume & E1 & Hp1 & Hres); [done | by rewrite Hp0 | done | done |].
  exists c1, t1, (enqueue b v), d1, resume. split_and!; [by rewrite E0 | done |]. intros c2 j ie2 p2 Hc2 Hp2.
  destruct (wp_intrs b j [] ie2 p2 t1 (fun _ s' => exists c3 k3 v3 d3, s' = ((c3, t1, k3, v3), d3) /\
    procs c3 = wake_all (q ++ [b]) (procs c2) /\
    Bio.buf_of k3 b = finish (serve (Bio.buf_of k <$> q) (a_disk (av d1))) (Bio.buf_of k b) /\
    forall n s, a_disk (av d3) n s = serve (Bio.buf_of k <$> q ++ [b]) (a_disk (av d1)) n s)
    (not_elem_of_nil _) (not_elem_of_nil _) q c2 k (enqueue b v) d1 Hc2 Hok1)
    as ([] & s3 & E3 & c3 & k3 & v3 & d3 & -> & Hp3 & Hb3 & Hd3); [eauto 10|].
  exists c3, k3, v3, d3. split_and!; [done | | | |].
  - by rewrite Hb3, (finish_ext _ _ _ (serve_ext _ _ _ Hd1)), finish_head.
  - intros n s. by rewrite Hd3, (serve_ext _ _ _ Hd1), serve_head.
  - unfold getp. rewrite Hp3, Hp2, Hp1, Hp0. destruct (lookup_lt_is_Some_2 _ _ Hp) as [x Hx].
    apply wake_all_wakes; [done | |]; unfold asleep; by rewrite !list_lookup_alter_eq, Hx.
  - intros c4 j4 ie4 Hc4. apply (Hres _ _ _ _ _ _ ie4); [done|]. rewrite Hb3. apply finished_flags.
Qed.

End Proofs.

(** *** A concrete disk *)

#[export] Instance ata_hw : AtaHw ata := {|
  at_outb p x := fun a => Ret tt (ata_out p x a);
  at_inb p := fun a =>
    match a_busy a with
    | O => Ret 0x40 (ata_set_busy 0 a)
    | Datatypes.S n => Ret 0x80 (ata_set_busy n a)
    end;
  at_outsl b := fun a => Ret tt (ata_store b a);
  at_insl := fun a => Ret (a_disk a (a_drive a) (a_sector a)) a;
  at_enable := fun a => Ret tt a
|}.

#[export] Instance ata_laws : AtaLaws ata.
Proof.
  refine {| av := fun a => a |}.
  - intros p x a Q HQ. eexists _, _. split; [reflexivity | by apply HQ].
  - intros a Q H1 H2. destruct (a_busy a) as [|n] eqn:E; eexists _, _; (split; [cbn; rewrite E; reflexivity|]).
    + by apply H2.
    + by apply H1.
  - intros b a Q _ HQ. eexists _, _. split; [reflexivity | by apply HQ].
  - intros a Q _ HQ. eexists _, _. split; [reflexivity | by apply HQ].
Defined.

Definition idle_disk : ata :=
  {| a_reg := fun _ => 0; a_cmd := 0; a_disk := fun _ _ => []; a_busy := 0; a_lat := 2 |}.
Definition one_dirty : Bio.bcache :=
  {| Bio.buf_of := fun _ => {| Bio.flags := 4; Bio.dev := 1; Bio.blockno := 300; Bio.refcnt := 1; Bio.prev := 0;
                               Bio.next := 0; Bio.bdata := [7] |} |}.
Definition no_requests : idevars := {| idequeue := None; havedisk1 := true; qnext := fun _ => None |}.
Definition all_held : slocktab := {| sl_of := fun _ => {| slocked := true; spid := 0 |} |}.

Lemma ide_serves_request_witness : exists s1 resume,
  iderw 3 5 ((boot_core, all_held, one_dirty, no_requests), idle_disk) = Sleep (ch_buf 5) s1 resume.
Proof.
  destruct (ide_serves_request 3 boot_core all_held one_dirty no_requests idle_disk 5 [] 0 true 0)
    as (c1 & t1 & v1 & d1 & r & E & _);
    [apply boot_ok | cbn; lia | done | done | | apply not_elem_of_nil | cbn; lia | unfold in_range, FSSIZE; cbn; lia
    | reflexivity | by right | lia |].
  - split_and!; [done | apply NoDup_nil_2 | unfold quick; cbn; lia | | done]. intros b Hb. by apply not_elem_of_nil in Hb.
  - eexists _, _. exact E.
Defined.

End IdeProof.
