(* ===== verification/Trap.v ===== *)
(** * Traps and system call dispatch: trap.c and the table of syscall.c *)

From stdpp Require Import base gmap list strings.
From Stdlib Require Import ZArith Lia.
From S2P Require Import Prelude CString Format Core Locking Kalloc Pipe Bio Log Tx Fs File Vm Proc VgaData Vga Console Machine Ide Syscall Exec Sysfile.
Import Sleeplock.

(** The device handlers that [trap] calls, and the fault address register. *)
Class Interrupts (S : Type) : Type := {
  ir_kbd : M S unit;
  ir_uart : M S unit;
  ir_ide : M S unit;
  ir_eoi : M S unit;
  ir_cr2 : M S Z
}.

(** The drivers provide them; the bounds are those of the drivers. *)
Definition driver_interrupts {S W D A B : Type} {HLw : Lens S W} {HLd : Lens W D} {HLv : Lens W Vga.vst}
  {HHw : VgaHw D} {HLc : Lens S core} {HLx : Lens S Console.cvars} {HT : Lens S slocktab}
  {HB : Lens S Bio.bcache} {HI : Lens S Ide.idevars} {HLa : Lens S A} {HAt : AtaHw A}
  {HLb : Lens S B} {HM : Machine B} {HLm : Lens S Machine.mpvars}
  (callerpcs : proc -> list Z) (chars polls : nat) (cr2 : M S Z) : Interrupts S := {|
  ir_kbd := Console.kbdintr callerpcs chars;
  ir_uart := Console.uartintr callerpcs chars;
  ir_ide := Ide.ideintr (D := A) polls;
  ir_eoi := Machine.lapiceoi (D := B);
  ir_cr2 := cr2
|}.

Module Trap.
Import Machine.

Definition T_SYSCALL : Z := 64.
Definition DPL_USER : Z := 3.

(** syscall.h *)
Definition SYS_fork : Z := 1.
Definition SYS_exit : Z := 2.
Definition SYS_wait : Z := 3.
Definition SYS_pipe : Z := 4.
Definition SYS_read : Z := 5.
Definition SYS_kill : Z := 6.
Definition SYS_exec : Z := 7.
Definition SYS_fstat : Z := 8.
Definition SYS_chdir : Z := 9.
Definition SYS_dup : Z := 10.
Definition SYS_getpid : Z := 11.
Definition SYS_sbrk : Z := 12.
Definition SYS_sleep : Z := 13.
Definition SYS_uptime : Z := 14.
Definition SYS_open : Z := 15.
Definition SYS_write : Z := 16.
Definition SYS_mknod : Z := 17.
Definition SYS_unlink : Z := 18.
Definition SYS_link : Z := 19.
Definition SYS_mkdir : Z := 20.
Definition SYS_close : Z := 21.
Definition SYS_getch : Z := 22.
Definition SYS_greeting : Z := 23.
Definition SYS_videomodevga12 : Z := 24.
Definition SYS_videomodetext : Z := 25.
Definition SYS_setspecificpixel : Z := 26.
Definition SYS_clearscreen13h : Z := 27.
Definition SYS_clearscreen12h : Z := 28.
Definition SYS_videomodevga13 : Z := 29.

Definition from_user (t : trapframe) : bool := Z.land (tf_cs t) 3 =? DPL_USER.

Section Ops.
Context {S T : Type} {HLT : Lens S T} {HTx : TxLayer T} {HTb : TxBounds T} {HLc : Lens T core}
  {HLs : Lens T slocktab} {HLi : Lens S Fs.icache} {HLb : Lens S superblock} {HDv : Fs.DevSw S}
  {HP : Lens S Pipe.pipetab} {HA : PageAlloc S} {HF : Lens S File.ftable}
  {HR : Lens S ram} {HV : Lens S Vm.vmvars} {HPv : Lens S Proc.procvars} {HTk : Lens S Syscall.tickvars}
  {HDi : Display S} {HIr : Interrupts S}.
(** The bound on the wakeups of each wait; addresses of the linker; what uninitialised
    variables of [sys_setspecificpixel] hold. *)
Context (wf : nat) (kdata forkret_addr trapret_addr ux uy uc : Z).

#[local] Instance core_lens : Lens S core := lens_comp (T := T).

Definition this_proc : M S nat := Proc.this_proc (T := T).
Definition getproc (p : nat) : M S proc := Proc.getproc (T := T) p.
Definition modproc (p : nat) (f : proc -> proc) : M S unit := Proc.modproc (T := T) p f.
Definition exit : M S unit := Proc.exit (T := T) wf.

(** The table [syscalls]. *)
Definition syscalls (num : Z) : option (M S Z) :=
  if num =? SYS_fork then Some (Syscall.sys_fork (T := T) kdata forkret_addr trapret_addr)
  else if num =? SYS_exit then Some (Syscall.sys_exit (T := T) wf)
  else if num =? SYS_wait then Some (Syscall.sys_wait (T := T) wf)
  else if num =? SYS_pipe then Some (Sysfile.sys_pipe (T := T) wf)
  else if num =? SYS_read then Some (Sysfile.sys_read (T := T) wf)
  else if num =? SYS_kill then Some (Syscall.sys_kill (T := T))
  else if num =? SYS_exec then Some (Sysfile.sys_exec (T := T) wf kdata)
  else if num =? SYS_fstat then Some (Sysfile.sys_fstat (T := T) wf)
  else if num =? SYS_chdir then Some (Sysfile.sys_chdir (T := T) wf)
  else if num =? SYS_dup then Some (Sysfile.sys_dup (T := T))
  else if num =? SYS_getpid then Some (Syscall.sys_getpid (T := T))
  else if num =? SYS_sbrk then Some (Syscall.sys_sbrk (T := T))
  else if num =? SYS_sleep then Some (Syscall.sys_sleep (T := T) wf)
  else if num =? SYS_uptime then Some (Syscall.sys_uptime (T := T))
  else if num =? SYS_open then Some (Sysfile.sys_open (T := T) wf)
  else if num =? SYS_write then Some (Sysfile.sys_write (T := T) wf)
  else if num =? SYS_mknod then Some (Sysfile.sys_mknod (T := T) wf)
  else if num =? SYS_unlink then Some (Sysfile.sys_unlink (T := T) wf)
  else if num =? SYS_link then Some (Sysfile.sys_link (T := T) wf)
  else if num =? SYS_mkdir then Some (Sysfile.sys_mkdir (T := T) wf)
  else if num =? SYS_close then Some (Sysfile.sys_close (T := T) wf)
  else if num =? SYS_getch then Some Syscall.sys_getch
  else if num =? SYS_greeting then Some Syscall.sys_greeting
  else if num =? SYS_videomodevga12 then Some Syscall.sys_videomodevga12
  else if num =? SYS_videomodetext then Some Syscall.sys_videomodetext
  else if num =? SYS_setspecificpixel then Some (Syscall.sys_setspecificpixel (T := T) ux uy uc)
  else if num =? SYS_clearscreen13h then Some Syscall.sys_clearscreen13h
  else if num =? SYS_clearscreen12h then Some Syscall.sys_clearscreen12h
  else if num =? SYS_videomodevga13 then Some Syscall.sys_videomodevga13
  else None.

Definition set_eax (p : nat) (v : Z) : M S unit :=
  modproc p (fun k => Proc.with_tf (Proc.with_eax (u32 v) (tf k)) k).

Definition syscall : M S unit :=
  p ← this_proc;
  q ← getproc p;
  let num := s32 (tf_eax (tf q)) in
  match syscalls num with
  | Some f => r ← f; set_eax p r
  | None =>
      dp_puts (Int.kprintint (pid q) 10 true ++ [ch_space] ++ pname q ++
        bytes_of_string ": unknown sys call " ++ Int.kprintint num 10 true ++ [ch_nl]);;
      set_eax p (-1)
  end.

(** ** trap.c *)

(** [if (myproc()->killed) exit()] *)
Definition exit_if_killed : M S unit :=
  p ← this_proc;
  q ← getproc p;
  if killed q then exit else mret tt.

Definition timer_tick : M S unit :=
  c ← Proc.cpuid (T := T);
  (if decide (c = O) then
     acquire L_tick;;
     lmod (T := Syscall.tickvars) (fun v => {| Syscall.ticks := u32 (Syscall.ticks v + 1) |});;
     wakeup ch_ticks;;
     release L_tick
   else mret tt);;
  ir_eoi.

Definition hex (n : Z) : list Z := Int.kprintint (s32 n) 16 false.
Definition dec (n : Z) : list Z := Int.kprintint (s32 n) 10 true.

(** The default case: a fault of the kernel, or of a user program. *)
Definition fault (t : trapframe) : M S unit :=
  p ← myproc;
  c ← Proc.cpuid (T := T);
  a ← ir_cr2;
  match p with
  | Some p =>
      if Z.land (tf_cs t) 3 =? 0 then
        dp_puts (bytes_of_string "unexpected trap " ++ dec (tf_trapno t) ++ bytes_of_string " from cpu " ++ dec (Z.of_nat c)
          ++ bytes_of_string " eip " ++ hex (tf_eip t) ++ bytes_of_string " (cr2=0x" ++ hex a ++ bytes_of_string ")" ++ [ch_nl]);;
        panic "trap"
      else
        q ← getproc p;
        dp_puts (bytes_of_string "pid " ++ dec (pid q) ++ [ch_space] ++ pname q ++ bytes_of_string ": trap " ++ dec (tf_trapno t)
          ++ bytes_of_string " err " ++ dec (tf_err t) ++ bytes_of_string " on cpu " ++ dec (Z.of_nat c) ++ bytes_of_string " eip 0x"
          ++ hex (tf_eip t) ++ bytes_of_string " addr 0x" ++ hex a ++ bytes_of_string "--kill proc" ++ [ch_nl]);;
        modproc p (with_killed true)
  | None =>
      dp_puts (bytes_of_string "unexpected trap " ++ dec (tf_trapno t) ++ bytes_of_string " from cpu " ++ dec (Z.of_nat c)
        ++ bytes_of_string " eip " ++ hex (tf_eip t) ++ bytes_of_string " (cr2=0x" ++ hex a ++ bytes_of_string ")" ++ [ch_nl]);;
      panic "trap"
  end.

(** [if (myproc() && myproc()->killed && (tf->cs & 3) == DPL_USER) exit()] *)
Definition exit_user (t : trapframe) : M S unit :=
  p ← myproc;
  match p with
  | Some p => q ← getproc p; if killed q && from_user t then exit else mret tt
  | None => mret tt
  end.

Definition yield_on_tick (t : trapframe) : M S unit :=
  p ← myproc;
  match p with
  | Some p =>
      q ← getproc p;
      if bool_decide (pstate q = RUNNING) && (tf_trapno t =? T_IRQ0 + IRQ_TIMER) then Proc.yield (T := T) else mret tt
  | None => mret tt
  end.

Definition trap (t : trapframe) : M S unit :=
  let n := tf_trapno t in
  if n =? T_SYSCALL then
    exit_if_killed;;
    p ← this_proc;
    modproc p (Proc.with_tf t);;
    syscall;;
    exit_if_killed
  else
    (if n =? T_IRQ0 + IRQ_TIMER then timer_tick
     else if n =? T_IRQ0 + IRQ_IDE then ir_ide;; ir_eoi
     else if n =? T_IRQ0 + IRQ_IDE + 1 then mret tt
     else if n =? T_IRQ0 + IRQ_KBD then ir_kbd;; ir_eoi
     else if n =? T_IRQ0 + IRQ_COM1 then ir_uart;; ir_eoi
     else if (n =? T_IRQ0 + 7) || (n =? T_IRQ0 + IRQ_SPURIOUS) then
       c ← Proc.cpuid (T := T);
       dp_puts (bytes_of_string "cpu" ++ dec (Z.of_nat c) ++ bytes_of_string ": spurious interrupt at "
         ++ hex (tf_cs t) ++ bytes_of_string ":" ++ hex (tf_eip t) ++ [ch_nl]);;
       ir_eoi
     else fault t);;
    exit_user t;;
    yield_on_tick t;;
    exit_user t.

End Ops.
End Trap.
