(* ===== verification/Umalloc.v ===== *)
(** * The allocator of user programs: umalloc.c

    A circular list of free blocks in address order, each with a header of eight bytes
    (one unit) in the memory of the process; [freep] points to the block where the last
    search ended.  Memory comes from [sbrk]. *)

From stdpp Require Import base gmap list strings.
From Stdlib Require Import ZArith Lia.
From S2P Require Import Prelude.

Module Umalloc.

(** Memory, the variable [freep], and the end of the process. *)
Record heap : Type := { um : mem; freep : Z; brk : Z }.

Definition set_mem (m : mem) (h : heap) : heap := {| um := m; freep := freep h; brk := brk h |}.
Definition set_freep (p : Z) (h : heap) : heap := {| um := um h; freep := p; brk := brk h |}.

Definition sizeof_Header : Z := 8.

(** The fields of a header. *)
Definition ptr (m : mem) (p : Z) : Z := load32 m p.
Definition size (m : mem) (p : Z) : Z := load32 m (p + 4).
Definition set_ptr (m : mem) (p v : Z) : mem := store32 m p v.
Definition set_size (m : mem) (p v : Z) : mem := store32 m (p + 4) v.
(** [p + n] for a pointer to headers. *)
Definition units (p n : Z) : Z := u32 (p + sizeof_Header * n).

Section Ops.
(** The address of the static header [base]; whether the kernel grants a request for [n]
    bytes when the process ends at [b]. *)
Context (base : Z) (grant : Z -> Z -> bool).

(** The loop of [free]. *)
Fixpoint free_find (fuel : nat) (m : mem) (bp p : Z) : option Z :=
  match fuel with
  | O => None
  | S f =>
      let nx := ptr m p in
      if (p <? bp) && (bp <? nx) then Some p
      else if (nx <=? p) && ((p <? bp) || (bp <? nx)) then Some p
      else free_find f m bp nx
  end.

(** Join [bp] with the block after it, then with the block before it. *)
Definition join_right (m : mem) (bp p : Z) : mem :=
  let nx := ptr m p in
  if units bp (size m bp) =? nx then
    let m := set_size m bp (u32 (size m bp + size m nx)) in
    set_ptr m bp (ptr m nx)
  else set_ptr m bp nx.

Definition join_left (m : mem) (bp p : Z) : mem :=
  if units p (size m p) =? bp then
    let m := set_size m p (u32 (size m p + size m bp)) in
    set_ptr m p (ptr m bp)
  else set_ptr m p bp.

Definition free (fuel : nat) (ap : Z) (h : heap) : option heap :=
  let bp := units ap (-1) in
  match free_find fuel (um h) bp (freep h) with
  | Some p => Some (set_freep p (set_mem (join_left (join_right (um h) bp p) bp p) h))
  | None => None
  end.

(** [sbrk]: the old end of the process, or -1. *)
Definition sbrk (n : Z) (h : heap) : Z * heap :=
  if grant (brk h) n then (brk h, {| um := um h; freep := freep h; brk := brk h + n |}) else (-1, h).

Definition morecore (fuel : nat) (nu : Z) (h : heap) : option (Z * heap) :=
  let nu := if nu <? 4096 then 4096 else nu in
  let '(p, h) := sbrk (s32 (u32 (nu * sizeof_Header))) h in
  if p =? -1 then Some (0, h)
  else
    let h := set_mem (set_size (um h) p nu) h in
    match free fuel (units p 1) h with
    | Some h => Some (freep h, h)
    | None => None
    end.

(** Cut [nunits] from the block [p], whose predecessor is [prevp]. *)
Definition cut (prevp p nunits : Z) (h : heap) : Z * heap :=
  let m := um h in
  if size m p =? nunits then (units p 1, set_freep prevp (set_mem (set_ptr m prevp (ptr m p)) h))
  else
    let m := set_size m p (u32 (size m p - nunits)) in
    let p := units p (size m p) in
    (units p 1, set_freep prevp (set_mem (set_size m p nunits) h)).

Fixpoint malloc_loop (fuel : nat) (prevp p nunits : Z) (h : heap) : option (Z * heap) :=
  match fuel with
  | O => None
  | S f =>
      if nunits <=? size (um h) p then Some (cut prevp p nunits h)
      else if p =? freep h then
        match morecore fuel nunits h with
        | None => None
        | Some (p, h) => if p =? 0 then Some (0, h) else malloc_loop f p (ptr (um h) p) nunits h
        end
      else malloc_loop f p (ptr (um h) p) nunits h
  end.

Definition malloc (fuel : nat) (nbytes : Z) (h : heap) : option (Z * heap) :=
  let nunits := u32 (u32 (nbytes + sizeof_Header - 1) / sizeof_Header + 1) in
  let h := if freep h =? 0
           then {| um := set_size (set_ptr (um h) base base) base 0; freep := base; brk := brk h |} else h in
  malloc_loop fuel (freep h) (ptr (um h) (freep h)) nunits h.

End Ops.
End Umalloc.
