(* ===== verification/UmallocProof.v ===== *)
(** * The allocator of user programs: the free list *)

From stdpp Require Import base gmap list strings.
From Stdlib Require Import ZArith Lia.
From S2P Require Import Prelude Umalloc.
Import Umalloc.

Module UmallocProof.

Abbreviation blocks := (list (Z * Z)).

(** *** Headers *)

Definition far (x y : Z) : Prop := x + 8 <= y \/ y + 8 <= x.

Lemma ptr_set_ptr m p v : 0 <= v < 2 ^ 32 -> ptr (set_ptr m p v) p = v.
Proof. intros. unfold ptr, set_ptr. rewrite load32_store32_eq. by apply u32_small. Qed.
Lemma size_set_size m p v : 0 <= v < 2 ^ 32 -> size (set_size m p v) p = v.
Proof. intros. unfold size, set_size. rewrite load32_store32_eq. by apply u32_small. Qed.
Lemma size_set_ptr m p v : size (set_ptr m p v) p = size m p.
Proof. unfold size, set_ptr. apply load32_store32_ne. lia. Qed.
Lemma ptr_set_size m p v : ptr (set_size m p v) p = ptr m p.
Proof. unfold ptr, set_size. apply load32_store32_ne. lia. Qed.
Lemma ptr_set_ptr_far m p v q : far q p -> ptr (set_ptr m p v) q = ptr m q.
Proof. intros H. unfold far in H. unfold ptr, set_ptr. apply load32_store32_ne. lia. Qed.
Lemma size_set_ptr_far m p v q : far q p -> size (set_ptr m p v) q = size m q.
Proof. intros H. unfold far in H. unfold size, set_ptr. apply load32_store32_ne. lia. Qed.
Lemma ptr_set_size_far m p v q : far q p -> ptr (set_size m p v) q = ptr m q.
Proof. intros H. unfold far in H. unfold ptr, set_size. apply load32_store32_ne. lia. Qed.
Lemma size_set_size_far m p v q : far q p -> size (set_size m p v) q = size m q.
Proof. intros H. unfold far in H. unfold size, set_size. apply load32_store32_ne. lia. Qed.

Create Rewrite HintDb header.
#[local] Hint Rewrite ptr_set_ptr size_set_size size_set_ptr ptr_set_size ptr_set_ptr_far size_set_ptr_far
  ptr_set_size_far size_set_size_far using (unfold far; lia) : header.

Lemma loadb_set_ptr m p v x : x < p \/ p + 8 <= x -> loadb (set_ptr m p v) x = loadb m x.
Proof. intros H. unfold set_ptr. apply loadb_store32_ne. lia. Qed.
Lemma loadb_set_size m p v x : x < p \/ p + 8 <= x -> loadb (set_size m p v) x = loadb m x.
Proof. intros H. unfold set_size. apply loadb_store32_ne. lia. Qed.

(** *** The list in memory *)

(** Following the pointers from [a] visits the blocks [l] and arrives at [z]. *)
Fixpoint seg (m : mem) (a : Z) (l : blocks) (z : Z) : Prop :=
  match l with
  | [] => ptr m a = z
  | (b, n) :: l' => ptr m a = b /\ size m b = n /\ seg m b l' z
  end.

Lemma seg_app m l1 b n l2 : forall a z,
  seg m a (l1 ++ (b, n) :: l2) z <-> seg m a l1 b /\ size m b = n /\ seg m b l2 z.
Proof. induction l1 as [|[c k] l1 IH]; intros a z; cbn; [done|]. rewrite IH. tauto. Qed.

Lemma seg_ext m m' l : forall a a' z, ptr m' a' = ptr m a ->
  (forall b n, (b, n) ∈ l -> ptr m' b = ptr m b /\ size m' b = size m b) -> seg m a l z -> seg m' a' l z.
Proof.
  induction l as [|[b n] l IH]; intros a a' z Ha Hl; cbn; [by rewrite Ha|]. intros (H1 & H2 & H3).
  destruct (Hl b n) as [Hp Hs]; [by left|]. rewrite Ha, H1, Hs. split_and!; [done | done |]. apply (IH b); [done | | done].
  intros c k Hc. apply (Hl c k). by right.
Qed.

(** The blocks [l] lie between [lo] and [hi], with gaps before each of them. *)
Fixpoint spaced (lo : Z) (l : blocks) (hi : Z) : Prop :=
  match l with
  | [] => lo <= hi
  | (a, n) :: l' => lo < a /\ 0 < n /\ spaced (a + 8 * n) l' hi
  end.

Lemma spaced_app l1 a n l2 : forall lo hi,
  spaced lo (l1 ++ (a, n) :: l2) hi <-> spaced lo l1 (a - 1) /\ 0 < n /\ spaced (a + 8 * n) l2 hi.
Proof. induction l1 as [|[b k] l1 IH]; intros lo hi; cbn; [intuition lia|]. rewrite IH. tauto. Qed.

Lemma spaced_in l : forall lo hi a n, spaced lo l hi -> (a, n) ∈ l -> lo < a /\ 0 < n /\ a + 8 * n <= hi.
Proof.
  induction l as [|[b k] l IH]; intros lo hi a n H Hin; [by apply not_elem_of_nil in Hin|]. cbn in H.
  destruct H as (H1 & H2 & H3). assert (b + 8 * k <= hi).
  { clear -H3. revert H3. generalize (b + 8 * k). induction l as [|[c j] l IH]; intros x; cbn; [done|].
    intros (? & ? & H%IH). lia. }
  apply elem_of_cons in Hin as [[= -> ->]|Hin]; [lia|]. destruct (IH _ _ _ _ H3 Hin). lia.
Qed.

Lemma spaced_le l lo hi : spaced lo l hi -> lo <= hi.
Proof.
  revert lo. induction l as [|[c j] l IH]; intros x; cbn; [done|]. intros (? & ? & H%IH). lia.
Qed.

Lemma spaced_weaken l : forall lo lo' hi hi', lo' <= lo -> hi <= hi' -> spaced lo l hi -> spaced lo' l hi'.
Proof.
  induction l as [|[a n] l IH]; intros lo lo' hi hi' H1 H2; cbn; [lia|]. intros (? & ? & ?). split_and!; [lia | done |].
  eapply IH; [| exact H2 | done]. lia.
Qed.

(** An address that belongs to a block. *)
Definition inside (l : blocks) (x : Z) : Prop := exists a n, (a, n) ∈ l /\ a <= x < a + 8 * n.

Lemma inside_app l1 l2 x : inside (l1 ++ l2) x <-> inside l1 x \/ inside l2 x.
Proof. unfold inside. setoid_rewrite elem_of_app. naive_solver. Qed.
Lemma inside_cons a n l x : inside ((a, n) :: l) x <-> a <= x < a + 8 * n \/ inside l x.
Proof. unfold inside. setoid_rewrite elem_of_cons. naive_solver. Qed.
Lemma inside_nil x : ~ inside [] x.
Proof. intros (a & n & H & _). by apply not_elem_of_nil in H. Qed.

(** The last header before a place in the list. *)
Fixpoint lastp (a : Z) (l : blocks) : Z :=
  match l with [] => a | (b, _) :: l' => lastp b l' end.

Lemma lastp_app a l1 b n l2 : lastp a (l1 ++ (b, n) :: l2) = lastp b l2.
Proof. revert a. induction l1 as [|[c k] l1 IH]; intros a; cbn; [done|]. apply IH. Qed.

Lemma lastp_in a l : lastp a l = a \/ exists n, (lastp a l, n) ∈ l.
Proof.
  revert a. induction l as [|[b k] l IH]; intros a; cbn; [by left|]. right.
  destruct (IH b) as [->|[n Hn]]; [exists k; by left | exists n; by right].
Qed.

Lemma seg_last m l : forall a z, seg m a l z -> ptr m (lastp a l) = z.
Proof. induction l as [|[b n] l IH]; intros a z; cbn; [done|]. intros (_ & _ & H). by apply IH. Qed.

(** Another target for the last pointer. *)
Lemma seg_set_last m l z z' : forall a lo hi, spaced lo l hi -> a + 8 <= lo + 1 -> 0 <= z' < 2 ^ 32 -> seg m a l z ->
  seg (set_ptr m (lastp a l) z') a l z'.
Proof.
  induction l as [|[b n] l IH]; intros a lo hi Hs Ha Hz H; cbn in *; [by apply ptr_set_ptr|].
  destruct Hs as (H1 & H2 & H3), H as (E1 & E2 & E3).
  assert (Hlast : b <= lastp b l).
  { destruct (lastp_in b l) as [->|[k Hk]]; [lia|]. pose proof (spaced_in _ _ _ _ _ H3 Hk). lia. }
  split_and!; [rewrite ptr_set_ptr_far; [done | left; lia] | |].
  - destruct (decide (lastp b l = b)) as [->|Hne]; [by rewrite size_set_ptr|].
    rewrite size_set_ptr_far; [done|]. left. destruct (lastp_in b l) as [?|[k Hk]]; [done|].
    pose proof (spaced_in _ _ _ _ _ H3 Hk). lia.
  - apply (IH b (b + 8 * n) hi); [done | lia | done | done].
Qed.

(** *** The search of [free] *)

Section Find.
Context (base : Z) (m : mem) (bp : Z) (Hbp : base < bp).

(** From a header before [bp] the search stops at the last one before it. *)
Lemma find_before z f w : forall p lo hi, seg m p w z -> spaced lo w hi -> p <= lo -> hi <= bp -> p < bp ->
  bp < z \/ z = base /\ base <= p -> free_find (S (length w) + f) m bp p = Some (lastp p w).
Proof.
  induction w as [|[b n] w IH]; intros p lo hi Hs Hsp Hp Hhi Hpb Hz; cbn [seg spaced] in *; cbn [free_find Nat.add length].
  - rewrite Hs. destruct Hz as [Hz|[-> Hz]].
    + by rewrite (proj2 (Z.ltb_lt p bp)), (proj2 (Z.ltb_lt bp z)) by lia.
    + rewrite (proj2 (Z.ltb_ge bp base)), andb_false_r by lia. by rewrite (proj2 (Z.leb_le base p)), (proj2 (Z.ltb_lt p bp)) by lia.
  - destruct Hs as (Hb & _ & Hs), Hsp as (H1 & H2 & H3). pose proof (spaced_le _ _ _ H3). rewrite Hb.
    rewrite (proj2 (Z.ltb_ge bp b)), andb_false_r by lia. rewrite (proj2 (Z.leb_gt b p)) by lia. cbn [andb].
    apply (IH b (b + 8 * n) hi); [done | done | lia | done | lia |]. destruct Hz as [Hz|[Hz1 Hz2]]; [by left | right; lia].
Qed.

(** From a header after [bp] the search comes to [base]. *)
Lemma find_after f w : forall p lo hi, seg m p w base -> spaced lo w hi -> p <= lo -> bp < p ->
  free_find (S (length w) + f) m bp p = free_find f m bp base.
Proof.
  induction w as [|[b n] w IH]; intros p lo hi Hs Hsp Hp Hpb; cbn [seg spaced] in *; cbn [free_find Nat.add length].
  - rewrite Hs, (proj2 (Z.ltb_ge p bp)), (proj2 (Z.ltb_ge bp base)) by lia. cbn [andb orb]. by rewrite andb_false_r.
  - destruct Hs as (Hb & _ & Hs), Hsp as (H1 & H2 & H3). rewrite Hb, (proj2 (Z.ltb_ge p bp)), (proj2 (Z.leb_gt b p)) by lia.
    cbn [andb]. apply (IH b (b + 8 * n) hi); [done | done | lia | lia].
Qed.

Lemma free_find_spec l1 l2 fp hi f : seg m base (l1 ++ l2) base -> spaced (base + 7) l1 bp -> spaced bp l2 hi ->
  fp = base \/ (exists n, (fp, n) ∈ l1 ++ l2) -> (2 * length (l1 ++ l2) + 2 <= f)%nat ->
  free_find f m bp fp = Some (lastp base l1).
Proof.
  intros Hs H1 H2 Hfp Hf. rewrite length_app in Hf.
  assert (Hz : exists z, seg m base l1 z /\ (bp < z \/ z = base)).
  { destruct l2 as [|[b n] l2]; [rewrite app_nil_r in Hs; exists base; auto|]. apply seg_app in Hs as (Hs & _).
    exists b. split; [done|]. cbn in H2. left. lia. }
  destruct Hz as (z & Hz & Hzb).
  assert (Hbase : forall g, (length l1 < g)%nat -> free_find g m bp base = Some (lastp base l1)).
  { intros g Hg. replace g with (S (length l1) + (g - S (length l1)))%nat by lia.
    eapply find_before; [exact Hz | exact H1 | lia | lia | done |]. destruct Hzb; [by left | right; lia]. }
  destruct Hfp as [->|[n [Hn|Hn]%elem_of_app]]; [apply Hbase; lia | |].
  - pose proof (spaced_in _ _ _ _ _ H1 Hn) as Hin. apply list_elem_of_split in Hn as (u & w & ->).
    apply seg_app in Hz as (_ & _ & Hz). apply spaced_app in H1 as (_ & Hn & H1).
    rewrite lastp_app. rewrite length_app in Hf. cbn in Hf. pose proof (spaced_le _ _ _ H1).
    replace f with (S (length w) + (f - S (length w)))%nat by lia.
    eapply find_before; [exact Hz | exact H1 | lia | lia | lia |]. destruct Hzb as [?| ->]; [by left | right; lia].
  - pose proof (spaced_in _ _ _ _ _ H2 Hn) as Hin. apply list_elem_of_split in Hn as (u & w & ->).
    rewrite app_assoc in Hs. apply seg_app in Hs as (_ & _ & Hs). apply spaced_app in H2 as (_ & Hn & H2).
    rewrite length_app in Hf. cbn in Hf. replace f with (S (length w) + (f - S (length w)))%nat by lia.
    erewrite find_after; [|exact Hs | exact H2 | lia | lia]. apply Hbase. lia.
Qed.

End Find.

(** *** Joining *)

Lemma units_small p n : 0 <= p + 8 * n < 2 ^ 32 -> units p n = p + 8 * n.
Proof. intros H. unfold units, sizeof_Header. by apply u32_small. Qed.

Section Join.
Context (base hi : Z) (Hb : 0 < base) (Hhi : hi < 2 ^ 32).

(** The block [bp] of [n] units is linked to what follows it; nothing before it changes. *)
Definition linked (m : mem) (bp n : Z) (l : blocks) : Prop :=
  seg m bp l base /\ size m bp = n /\ spaced (bp + 8 * n) l hi /\ 0 < n.

Lemma join_right_spec m bp p n l : base + 8 <= bp -> far p bp -> 0 < n -> size m bp = n -> spaced (bp + 8 * n - 1) l hi ->
  seg m p l base -> bp + 8 * n <= hi ->
  exists n' l', linked (join_right m bp p) bp n' l' /\
    (forall x, bp <= x < bp + 8 * n' \/ inside l' x <-> bp <= x < bp + 8 * n \/ inside l x) /\
    (forall q, far q bp -> ptr (join_right m bp p) q = ptr m q /\ size (join_right m bp p) q = size m q) /\
    (forall x, x < bp \/ bp + 8 <= x -> loadb (join_right m bp p) x = loadb m x) /\ (length l' <= length l)%nat.
Proof.
  intros Hbp Hp Hn Hsz Hsp Hs Hend. unfold join_right. rewrite Hsz, units_small by lia.
  assert (Hfar : forall q v w, far q bp -> (ptr (set_ptr m bp v) q = ptr m q /\ size (set_ptr m bp v) q = size m q) /\
    (ptr (set_ptr (set_size m bp w) bp v) q = ptr m q /\ size (set_ptr (set_size m bp w) bp v) q = size m q)).
  { intros q v w Hq. by rewrite !ptr_set_ptr_far, !size_set_ptr_far, ptr_set_size_far, size_set_size_far. }
  destruct l as [|[b k] l]; cbn [seg spaced] in Hs, Hsp.
  - rewrite Hs, (proj2 (Z.eqb_neq _ _)) by lia. exists n, []. split_and!.
    + split_and!; [cbn; apply ptr_set_ptr; lia | by rewrite size_set_ptr | cbn; lia | done].
    + done.
    + intros q Hq. by apply (Hfar q base 0).
    + intros x Hx. by apply loadb_set_ptr.
    + done.
  - destruct Hs as (Hpb & Hk & Hs), Hsp as (H1 & H2 & H3). rewrite Hpb. pose proof (spaced_le _ _ _ H3).
    assert (Hl : forall c j, (c, j) ∈ (b, k) :: l -> far c bp).
    { intros c j Hc. right. destruct (spaced_in ((b, k) :: l) (bp + 8 * n - 1) hi c j) as (? & _); [by split_and! | done | lia]. }
    destruct (Z.eqb_spec (bp + 8 * n) b) as [Eb|Eb].
    + assert (Hfb : far b bp) by (right; lia). assert (Hpn : 0 <= ptr m b < 2 ^ 32).
      { destruct l as [|[c j] l]; cbn in Hs, H3; [|destruct H3 as (? & ? & H3); pose proof (spaced_le _ _ _ H3)]; lia. }
      rewrite Hk, ptr_set_size_far, u32_small by (done || lia). exists (n + k), l. split_and!.
      * split_and!; [| rewrite size_set_ptr; apply size_set_size; lia | by replace (bp + 8 * (n + k)) with (b + 8 * k) by lia | lia].
        eapply seg_ext; [by rewrite ptr_set_ptr | | exact Hs]. intros c j Hc. apply Hfar, (Hl c j). by right.
      * intros x. rewrite inside_cons.
        assert (bp <= x < bp + 8 * (n + k) <-> bp <= x < bp + 8 * n \/ b <= x < b + 8 * k) by lia. tauto.
      * intros q Hq. by apply Hfar.
      * intros x Hx. by rewrite loadb_set_ptr, loadb_set_size.
      * cbn. lia.
    + exists n, ((b, k) :: l). split_and!.
      * split_and!; [| by rewrite size_set_ptr | cbn; split_and!; [lia | done | done] | done].
        cbn. split_and!; [apply ptr_set_ptr; lia | by rewrite size_set_ptr_far by (apply (Hl b k); by left) |].
        eapply seg_ext; [|  | exact Hs]; [apply (Hfar b b 0), (Hl b k); by left|]. intros c j Hc. apply (Hfar c b 0), (Hl c j). by right.
      * done.
      * intros q Hq. by apply (Hfar q b 0).
      * intros x Hx. by apply loadb_set_ptr.
      * done.
Qed.

(** The list [l] after the block has been linked to the header [p] that precedes it. *)
Definition relinked (m : mem) (p : Z) (bp n : Z) (l1 l2 l : blocks) : Prop :=
  seg (join_left m bp p) base l base /\ size (join_left m bp p) base = 0 /\
  spaced (base + 7) l hi /\ (p = base \/ exists k, (p, k) ∈ l) /\
  (forall x, inside l x <-> inside l1 x \/ bp <= x < bp + 8 * n \/ inside l2 x) /\
  (forall x, x < p \/ p + 8 <= x -> loadb (join_left m bp p) x = loadb m x) /\
  (length l <= S (length l1 + length l2))%nat.

Lemma join_left_block m bp n u a k l2 : linked m bp n l2 -> seg m base u a -> size m a = k -> size m base = 0 ->
  spaced (base + 7) (u ++ [(a, k)]) bp -> exists l, relinked m a bp n (u ++ [(a, k)]) l2 l.
Proof.
  intros (Hs2 & Hn & Hsp2 & Hpos) Hsu Hk H0 Hsp1. pose proof (spaced_le _ _ _ Hsp2) as Hle. unfold relinked, join_left.
  assert (Hfar2 : forall c j, (c, j) ∈ l2 -> bp + 8 <= c).
  { intros c j Hc. destruct (spaced_in _ _ _ _ _ Hsp2 Hc). lia. }
  apply spaced_app in Hsp1 as (Hspu & Hkp & Hab). cbn in Hab. pose proof (spaced_le _ _ _ Hspu) as Hba.
  assert (Hfu : forall c, c = base \/ (exists j, (c, j) ∈ u) -> far c a).
  { intros c [->|[j Hc]]; left; [lia|]. destruct (spaced_in _ _ _ _ _ Hspu Hc). lia. }
  assert (Hu : forall m', (forall c, far c a -> ptr m' c = ptr m c /\ size m' c = size m c) -> seg m' base u a).
  { intros m' Hm'. eapply seg_ext; [apply Hm', Hfu; by left | | exact Hsu]. intros c j Hc. apply Hm', Hfu. right. by exists j. }
  rewrite Hk, units_small by lia. destruct (Z.eqb_spec (a + 8 * k) bp) as [E|E].
  + assert (Hpn : 0 <= ptr m bp < 2 ^ 32).
    { destruct l2 as [|[c j] l2]; cbn in Hs2, Hsp2; [|destruct Hsp2 as (? & ? & H3); pose proof (spaced_le _ _ _ H3)]; lia. }
    assert (Hbp' : far bp a) by (right; lia). rewrite Hn, u32_small, ptr_set_size_far by (done || lia).
    assert (Hm' : forall c, far c a -> ptr (set_ptr (set_size m a (k + n)) a (ptr m bp)) c = ptr m c /\
      size (set_ptr (set_size m a (k + n)) a (ptr m bp)) c = size m c).
    { intros c Hc. by rewrite ptr_set_ptr_far, ptr_set_size_far, size_set_ptr_far, size_set_size_far. }
    exists (u ++ (a, k + n) :: l2). split_and!.
    * apply seg_app. split_and!; [by apply Hu | rewrite size_set_ptr; apply size_set_size; lia |].
      eapply seg_ext; [by rewrite ptr_set_ptr | | exact Hs2]. intros c j Hc. apply Hm'. right. pose proof (Hfar2 c j Hc). lia.
    * rewrite (proj2 (Hm' base (Hfu base (or_introl eq_refl)))). done.
    * apply spaced_app. split_and!; [done | lia |]. by replace (a + 8 * (k + n)) with (bp + 8 * n) by lia.
    * right. exists (k + n). apply elem_of_app. right. by left.
    * intros x. rewrite !inside_app, !inside_cons. pose proof (inside_nil x).
      assert (a <= x < a + 8 * (k + n) <-> a <= x < a + 8 * k \/ bp <= x < bp + 8 * n) by lia. tauto.
    * intros x Hx. by rewrite loadb_set_ptr, loadb_set_size.
    * rewrite !length_app. cbn. lia.
  + assert (Hm' : forall c, far c a -> ptr (set_ptr m a bp) c = ptr m c /\ size (set_ptr m a bp) c = size m c).
    { intros c Hc. by rewrite ptr_set_ptr_far, size_set_ptr_far. }
    exists (u ++ (a, k) :: (bp, n) :: l2). split_and!.
    * apply seg_app. split_and!; [by apply Hu | by rewrite size_set_ptr |]. cbn.
      split_and!; [apply ptr_set_ptr; lia | rewrite (proj2 (Hm' bp ltac:(right; lia))); done |].
      eapply seg_ext; [apply Hm'; right; lia | | exact Hs2]. intros c j Hc. apply Hm'. right. pose proof (Hfar2 c j Hc). lia.
    * rewrite (proj2 (Hm' base (Hfu base (or_introl eq_refl)))). done.
    * apply spaced_app. split_and!; [done | lia |]. cbn. split_and!; [lia | done | done].
    * right. exists k. apply elem_of_app. right. by left.
    * intros x. rewrite !inside_app, !inside_cons. pose proof (inside_nil x). tauto.
    * intros x Hx. by apply loadb_set_ptr.
    * rewrite !length_app. cbn. lia.
Qed.

Lemma join_left_spec m bp n l1 l2 : linked m bp n l2 -> seg m base l1 (ptr m (lastp base l1)) -> size m base = 0 ->
  spaced (base + 7) l1 bp -> base + 8 <= bp -> exists l, relinked m (lastp base l1) bp n l1 l2 l.
Proof.
  intros Hl Hs1 H0 Hsp1 Hbp. destruct l1 as [|[a k] u _] using rev_ind.
  - pose proof Hl as (Hs2 & Hn & Hsp2 & Hpos). pose proof (spaced_le _ _ _ Hsp2). unfold relinked, join_left.
    cbn [lastp]. rewrite H0, units_small, (proj2 (Z.eqb_neq _ _)) by lia. exists ((bp, n) :: l2). split_and!.
    + cbn. split_and!; [apply ptr_set_ptr; lia | rewrite size_set_ptr_far; [done | right; lia] |].
      eapply seg_ext; [| | exact Hs2]; [apply ptr_set_ptr_far; right; lia|]. intros c j Hc. destruct (spaced_in _ _ _ _ _ Hsp2 Hc).
      by rewrite ptr_set_ptr_far, size_set_ptr_far by (right; lia).
    + by rewrite size_set_ptr.
    + cbn. split_and!; [lia | done | done].
    + by left.
    + intros x. rewrite inside_cons. pose proof (inside_nil x). tauto.
    + intros x Hx. by apply loadb_set_ptr.
    + done.
  - rewrite lastp_app in *. cbn [lastp] in *. apply seg_app in Hs1 as (Hsu & Hk & _). by apply join_left_block.
Qed.

End Join.

(** *** The invariant *)

Lemma seg_split m l1 l2 : forall a z, seg m a (l1 ++ l2) z ->
  seg m a l1 (ptr m (lastp a l1)) /\ seg m (lastp a l1) l2 z.
Proof. induction l1 as [|[b n] l1 IH]; intros a z H; cbn in *; [done|]. destruct H as (H1 & H2 & H3%IH). tauto. Qed.

(** Where a block belongs that overlaps no free block. *)
Lemma split_at bp n l : forall lo hi, 0 < n -> spaced lo l hi -> lo <= bp -> bp + 8 * n <= hi ->
  (forall x, bp <= x < bp + 8 * n -> ~ inside l x) ->
  exists l1 l2, l = l1 ++ l2 /\ spaced lo l1 bp /\ spaced (bp + 8 * n - 1) l2 hi.
Proof.
  induction l as [|[a k] l IH]; intros lo hi Hn Hs Hlo Hhi Hd; [exists [], []; cbn; split_and!; [done | lia | lia]|].
  cbn in Hs. destruct Hs as (H1 & H2 & H3). destruct (decide (a < bp)) as [Hlt|Hge].
  - assert (a + 8 * k <= bp).
    { destruct (decide (a + 8 * k <= bp)); [done|]. exfalso. apply (Hd bp); [lia|]. apply inside_cons. left. lia. }
    destruct (IH (a + 8 * k) hi) as (l1 & l2 & -> & Hs1 & Hs2); [done.. | |].
    { intros x Hx Hi. apply (Hd x Hx), inside_cons. by right. }
    exists ((a, k) :: l1), l2. cbn. split_and!; done.
  - exists [], ((a, k) :: l). cbn. split_and!; [done | done | | done | done].
    destruct (decide (bp + 8 * n <= a)); [lia|]. exfalso. apply (Hd a); [lia|]. apply inside_cons. left. lia.
Qed.

Section Heap.
Context (base : Z) (Hbase : 0 < base).

(** The free list [l] of the process: in address order, with gaps, after [base] and
    below the end of the process. *)
Definition heap_ok (h : heap) (l : blocks) : Prop :=
  seg (um h) base l base /\ size (um h) base = 0 /\ spaced (base + 7) l (brk h) /\ brk h < 2 ^ 32 /\
  (freep h = base \/ exists n, (freep h, n) ∈ l).

(** Memory that is neither free nor the header [base]. *)
Definition outside (l : blocks) (x : Z) : Prop := ~ inside l x /\ (x < base \/ base + 8 <= x).

Lemma free_spec h l bp n f : heap_ok h l -> base + 8 <= bp -> 0 < n -> bp + 8 * n <= brk h -> size (um h) bp = n ->
  (forall x, bp <= x < bp + 8 * n -> ~ inside l x) -> (2 * length l + 2 <= f)%nat ->
  exists h' l', free f (bp + 8) h = Some h' /\ heap_ok h' l' /\ brk h' = brk h /\
    (forall x, inside l' x <-> inside l x \/ bp <= x < bp + 8 * n) /\
    (forall x, outside l x -> x < bp \/ bp + 8 * n <= x -> loadb (um h') x = loadb (um h) x) /\
    (length l' <= S (length l))%nat.
Proof.
  intros (Hs & H0 & Hsp & Hlim & Hfp) Hbp Hn Hend Hsz Hd Hf.
  destruct (split_at bp n l (base + 7) (brk h)) as (l1 & l2 & -> & Hs1 & Hs2); [done | done | lia | done | done |].
  pose proof (seg_split _ _ _ _ _ Hs) as [Hseg1 Hseg2].
  assert (Hfar : forall c, c = base \/ (exists j, (c, j) ∈ l1) -> far c bp).
  { intros c [->|[j Hc]]; left; [lia|]. destruct (spaced_in _ _ _ _ _ Hs1 Hc). lia. }
  assert (Hp : lastp base l1 = base \/ exists j, (lastp base l1, j) ∈ l1) by apply lastp_in.
  unfold free. rewrite units_small by lia. replace (bp + 8 + 8 * -1) with bp by lia.
  rewrite (free_find_spec base (um h) bp ltac:(lia) l1 l2 (freep h) (brk h) f Hs Hs1); [| eapply spaced_weaken; [| |exact Hs2]; lia | done | done].
  destruct (join_right_spec base (brk h) ltac:(lia) ltac:(lia) (um h) bp (lastp base l1) n l2) as (n' & l2' & Hl & Hin & Hq & Hfr & Hlen);
    [lia | by apply Hfar | done | done | done | done | done |].
  set (m1 := join_right (um h) bp (lastp base l1)) in *.
  destruct (join_left_spec base (brk h) ltac:(lia) ltac:(lia) m1 bp n' l1 l2' Hl) as (l' & Hs' & H0' & Hsp' & Hfp' & Hin' & Hfr' & Hlen').
  { eapply seg_ext; [by apply Hq, Hfar; left | | ]; [|rewrite (proj1 (Hq _ (Hfar _ Hp))); exact Hseg1].
    intros c j Hc. apply Hq, Hfar. right. by exists j. }
  { rewrite (proj2 (Hq base (Hfar base (or_introl eq_refl)))). done. }
  { done. } { lia. }
  eexists _, l'. split; [reflexivity|]. split_and!; cbn [um brk freep set_mem set_freep]; [by split_and! | done | | |].
  - intros x. rewrite Hin', inside_app. pose proof (Hin x). tauto.
  - intros x [Ho1 Ho2] Hx. rewrite Hfr', Hfr; [done | lia |]. destruct Hp as [->|[j Hj]]; [done|].
    pose proof (spaced_in _ _ _ _ _ Hs1 Hj). destruct (decide (x < lastp base l1)); [by left|]. right.
    destruct (decide (lastp base l1 + 8 <= x)); [done|]. exfalso. apply Ho1, inside_app. left. exists (lastp base l1), j. split; [done | lia].
  - rewrite length_app. lia.
Qed.

(** *** Cutting a block *)

Lemma seg_remove m l1 a k l2 hi : seg m base (l1 ++ (a, k) :: l2) base -> spaced (base + 7) (l1 ++ (a, k) :: l2) hi -> hi < 2 ^ 32 ->
  seg (set_ptr m (lastp base l1) (ptr m a)) base (l1 ++ l2) base.
Proof.
  intros Hs Hsp Hhi. apply seg_app in Hs as (Hs1 & Hk & Hs2). apply spaced_app in Hsp as (Hsp1 & Hkp & Hsp2).
  pose proof (spaced_le _ _ _ Hsp1). pose proof (spaced_le _ _ _ Hsp2).
  assert (Hp : lastp base l1 + 8 <= a).
  { destruct (lastp_in base l1) as [->|[j Hj]]; [lia|]. pose proof (spaced_in _ _ _ _ _ Hsp1 Hj). lia. }
  assert (Hpa : 0 <= ptr m a < 2 ^ 32).
  { destruct l2 as [|[c j] l2]; cbn in Hs2, Hsp2; [|destruct Hsp2 as (? & ? & H3); pose proof (spaced_le _ _ _ H3)]; lia. }
  pose proof (seg_set_last m l1 a (ptr m a) base (base + 7) (a - 1) Hsp1 ltac:(lia) Hpa Hs1) as Hs1'.
  destruct l2 as [|[b n] l2]; cbn in Hs2; [rewrite app_nil_r; by rewrite Hs2 in *|]. destruct Hs2 as (Hb & Hn & Hs2).
  rewrite Hb in *. cbn in Hsp2. destruct Hsp2 as (H1 & H2 & H3). apply seg_app. split_and!; [done | |].
  - rewrite size_set_ptr_far; [done | right; lia].
  - eapply seg_ext; [| | exact Hs2]; [apply ptr_set_ptr_far; right; lia|]. intros c j Hc.
    pose proof (spaced_in _ _ _ _ _ H3 Hc). by rewrite ptr_set_ptr_far, size_set_ptr_far by (right; lia).
Qed.

(** The result of an allocation: the block [q] of [n] units left the free list. *)
Definition taken (h h' : heap) (l l' : blocks) (q n : Z) : Prop :=
  heap_ok h' l' /\ brk h' = brk h /\ size (um h') q = n /\ base + 8 <= q /\ q + 8 * n <= brk h /\
  (forall x, inside l x <-> inside l' x \/ q <= x < q + 8 * n) /\ (forall x, q <= x < q + 8 * n -> ~ inside l' x) /\
  (forall x, outside l x -> loadb (um h') x = loadb (um h) x).

Lemma inside_disjoint l1 a k l2 hi x : spaced (base + 7) (l1 ++ (a, k) :: l2) hi -> a <= x < a + 8 * k -> ~ inside (l1 ++ l2) x.
Proof.
  intros Hsp Hx. apply spaced_app in Hsp as (Hsp1 & _ & Hsp2). rewrite inside_app. intros [(c & j & Hc & Hi)|(c & j & Hc & Hi)].
  - pose proof (spaced_in _ _ _ _ _ Hsp1 Hc). lia.
  - pose proof (spaced_in _ _ _ _ _ Hsp2 Hc). lia.
Qed.

Lemma lastp_elem l1 l2 : lastp base l1 = base \/ exists n, (lastp base l1, n) ∈ l1 ++ l2.
Proof. destruct (lastp_in base l1) as [?|[n Hn]]; [by left|]. right. exists n. apply elem_of_app. by left. Qed.

Lemma cut_whole h l1 a k l2 : heap_ok h (l1 ++ (a, k) :: l2) ->
  exists h', cut (lastp base l1) a k h = (a + 8, h') /\ taken h h' (l1 ++ (a, k) :: l2) (l1 ++ l2) a k.
Proof.
  intros (Hs & H0 & Hsp & Hlim & _). pose proof Hs as (Hs1 & Hk & _)%seg_app. pose proof Hsp as (Hsp1 & Hkp & Hsp2)%spaced_app.
  pose proof (spaced_le _ _ _ Hsp1). pose proof (spaced_le _ _ _ Hsp2).
  assert (Hp : lastp base l1 + 8 <= a).
  { destruct (lastp_in base l1) as [->|[j Hj]]; [lia|]. pose proof (spaced_in _ _ _ _ _ Hsp1 Hj). lia. }
  unfold cut. rewrite Hk, Z.eqb_refl, units_small by lia. eexists. split; [done|].
  unfold taken, heap_ok. cbn [um freep brk set_mem set_freep]. split_and!.
  - by eapply seg_remove.
  - destruct (decide (lastp base l1 = base)) as [->|Hne]; [by rewrite size_set_ptr|].
    rewrite size_set_ptr_far; [done|]. left. destruct (lastp_in base l1) as [?|[j Hj]]; [done|]. pose proof (spaced_in _ _ _ _ _ Hsp1 Hj). lia.
  - destruct l2 as [|[b n] l2]; [rewrite app_nil_r; eapply spaced_weaken; [| | exact Hsp1]; lia|]. apply spaced_app.
    cbn in Hsp2. destruct Hsp2 as (? & ? & ?). split_and!; [eapply spaced_weaken; [| | exact Hsp1]; lia | done | done].
  - done.
  - apply lastp_elem.
  - done.
  - rewrite size_set_ptr_far; [done | right; lia].
  - lia.
  - lia.
  - intros x. rewrite !inside_app, inside_cons. tauto.
  - intros x Hx. by eapply inside_disjoint.
  - intros x [Ho1 Ho2]. apply loadb_set_ptr. destruct (lastp_in base l1) as [->|[j Hj]]; [lia|].
    pose proof (spaced_in _ _ _ _ _ Hsp1 Hj). destruct (decide (x < lastp base l1)); [by left|]. right.
    destruct (decide (lastp base l1 + 8 <= x)); [done|]. exfalso. apply Ho1, inside_app. left. exists (lastp base l1), j. split; [done | lia].
Qed.

Lemma cut_tail h l1 a k l2 n : heap_ok h (l1 ++ (a, k) :: l2) -> 0 < n < k ->
  exists h', cut (lastp base l1) a n h = (a + 8 * (k - n) + 8, h') /\
    taken h h' (l1 ++ (a, k) :: l2) (l1 ++ (a, k - n) :: l2) (a + 8 * (k - n)) n.
Proof.
  intros (Hs & H0 & Hsp & Hlim & _) Hn. pose proof Hs as (Hs1 & Hk & Hs2)%seg_app.
  pose proof Hsp as (Hsp1 & Hkp & Hsp2)%spaced_app. pose proof (spaced_le _ _ _ Hsp1). pose proof (spaced_le _ _ _ Hsp2).
  set (q := a + 8 * (k - n)). set (m' := set_size (set_size (um h) a (k - n)) q n).
  assert (Hq : far q a) by (right; lia).
  assert (Hm : forall c, far c a -> far c q -> ptr m' c = ptr (um h) c /\ size m' c = size (um h) c).
  { intros c Hc1 Hc2. unfold m'. by rewrite !ptr_set_size_far, !size_set_size_far. }
  assert (Hf : forall c, c = base \/ (exists j, (c, j) ∈ l1) \/ (exists j, (c, j) ∈ l2) -> far c a /\ far c q).
  { intros c [->|[[j Hc]|[j Hc]]]; [split; left; lia | |].
    - pose proof (spaced_in _ _ _ _ _ Hsp1 Hc). split; left; lia.
    - pose proof (spaced_in _ _ _ _ _ Hsp2 Hc). split; right; lia. }
  assert (Hcut : cut (lastp base l1) a n h = (q + 8, set_freep (lastp base l1) (set_mem m' h))).
  { unfold cut. rewrite Hk, (proj2 (Z.eqb_neq k n)), (u32_small (k - n)), size_set_size by lia.
    by rewrite (units_small a), (units_small _ 1) by lia. }
  eexists. split; [exact Hcut|]. unfold taken, heap_ok. cbn [um freep brk set_mem set_freep]. split_and!.
  - apply seg_app. split_and!.
    + eapply seg_ext; [by apply Hm; apply Hf; left | | exact Hs1]. intros c j Hc. apply Hm; apply Hf; right; left; by exists j.
    + unfold m'. rewrite size_set_size_far; [apply size_set_size; lia|]. left. lia.
    + eapply seg_ext; [| | exact Hs2].
      * unfold m'. rewrite ptr_set_size_far, ptr_set_size; [done|]. left. lia.
      * intros c j Hc. apply Hm; apply Hf; right; right; by exists j.
  - rewrite (proj2 (Hm base ltac:(left; lia) ltac:(left; lia))). done.
  - apply spaced_app. split_and!; [done | lia |]. eapply spaced_weaken; [| | exact Hsp2]; lia.
  - done.
  - apply lastp_elem.
  - done.
  - unfold m'. apply size_set_size. lia.
  - lia.
  - lia.
  - intros x. rewrite !inside_app, !inside_cons. assert (a <= x < a + 8 * k <-> a <= x < a + 8 * (k - n) \/ q <= x < q + 8 * n) by lia. tauto.
  - intros x Hx. rewrite inside_app, inside_cons. pose proof (inside_disjoint l1 a k l2 _ x Hsp ltac:(lia)) as Hd. rewrite inside_app in Hd.
    intros [?|[?|?]]; [tauto | lia | tauto].
  - intros x [Ho1 _]. assert (~ (a <= x < a + 8 * k)). { intros ?. apply Ho1, inside_app. right. apply inside_cons. by left. }
    unfold m'. rewrite !loadb_set_size by lia. done.
Qed.

Lemma cut_spec h l1 a k l2 n : heap_ok h (l1 ++ (a, k) :: l2) -> 0 < n <= k ->
  exists q h' l', cut (lastp base l1) a n h = (q + 8, h') /\ taken h h' (l1 ++ (a, k) :: l2) l' q n.
Proof.
  intros Hok Hn. destruct (decide (n = k)) as [->|Hne].
  - destruct (cut_whole h l1 a k l2 Hok) as (h' & E & Ht). by eexists _, h', _.
  - destruct (cut_tail h l1 a k l2 n Hok) as (h' & E & Ht); [lia|]. by eexists _, h', _.
Qed.

(** *** The search of [malloc] *)

Section Search.
Context (grant : Z -> Z -> bool) (n : Z) (Hn : 0 < n).

Definition small (l : blocks) : Prop := forall b k, (b, k) ∈ l -> k < n.

(** The first block that is large enough. *)
Lemma first_fit (w : blocks) : small w \/ exists w1 a k w2, w = w1 ++ (a, k) :: w2 /\ small w1 /\ n <= k.
Proof.
  induction w as [|[b j] w [IH|(w1 & a & k & w2 & -> & H1 & H2)]].
  - left. intros b k H. by apply not_elem_of_nil in H.
  - destruct (decide (n <= j)).
    + right. exists [], b, j, w. split_and!; [done | intros ? ? H; by apply not_elem_of_nil in H | done].
    + left. intros c k [[= -> ->]|H]%elem_of_cons; [lia | by apply (IH c)].
  - destruct (decide (n <= j)).
    + right. exists [], b, j, (w1 ++ (a, k) :: w2). split_and!; [done | intros ? ? H; by apply not_elem_of_nil in H | done].
    + right. exists ((b, j) :: w1), a, k, w2. split_and!; [done | | done].
      intros c i [[= -> ->]|H]%elem_of_cons; [lia | by apply (H1 c)].
Qed.

Lemma walk h w z f : forall prev, seg (um h) prev w z -> small w -> (forall b k, (b, k) ∈ w -> b <> freep h) ->
  malloc_loop grant (length w + f) prev (ptr (um h) prev) n h = malloc_loop grant f (lastp prev w) (ptr (um h) (lastp prev w)) n h.
Proof.
  induction w as [|[b k] w IH]; intros prev Hs Hsm Hf; [done|]. cbn in Hs. destruct Hs as (Hb & Hk & Hs).
  cbn [length Nat.add malloc_loop lastp]. rewrite Hb, Hk, (proj2 (Z.leb_gt n k)), (proj2 (Z.eqb_neq b (freep h))).
  - apply IH; [done | |]; intros c j Hc; [apply (Hsm c) | apply (Hf c j)]; by right.
  - apply (Hf b k). by left.
  - apply (Hsm b). by left.
Qed.

Lemma walk_found h w1 a k w2 z f prev : seg (um h) prev (w1 ++ (a, k) :: w2) z -> small w1 -> n <= k ->
  (forall b j, (b, j) ∈ w1 -> b <> freep h) ->
  malloc_loop grant (length w1 + S f) prev (ptr (um h) prev) n h = Some (cut (lastp prev w1) a n h).
Proof.
  intros Hs Hsm Hk Hf. apply seg_app in Hs as (Hs1 & Hka & _). erewrite walk; [|exact Hs1 | done | done].
  cbn [malloc_loop]. rewrite (seg_last _ _ _ _ Hs1), Hka. by rewrite (proj2 (Z.leb_le n k)).
Qed.

(** What the loop does when it is back at [freep]. *)
Definition at_freep (f : nat) (h : heap) : option (Z * heap) :=
  match morecore grant (S f) n h with
  | None => None
  | Some (p, h) => if p =? 0 then Some (0, h) else malloc_loop grant f p (ptr (um h) p) n h
  end.

(** The search that starts inside of the list. *)
Lemma loop_spec_middle h g k r fuel : seg (um h) base (g ++ (freep h, k) :: r) base -> size (um h) base = 0 ->
  spaced (base + 7) (g ++ (freep h, k) :: r) (brk h) -> freep h <> base -> (length (g ++ (freep h, k) :: r) + 3 <= fuel)%nat ->
  (exists l1 a j l2, g ++ (freep h, k) :: r = l1 ++ (a, j) :: l2 /\ n <= j /\
     malloc_loop grant fuel (freep h) (ptr (um h) (freep h)) n h = Some (cut (lastp base l1) a n h)) \/
  (small (g ++ (freep h, k) :: r) /\ exists f, (fuel <= f + length (g ++ (freep h, k) :: r) + 2)%nat /\
     malloc_loop grant fuel (freep h) (ptr (um h) (freep h)) n h = at_freep f h).
Proof.
  intros Hs H0 Hsp Efp Hfuel. pose proof Hs as (Hs1 & Hk & Hs2)%seg_app. pose proof Hsp as (Hsp1 & Hkp & Hsp2)%spaced_app.
  rewrite length_app in *. cbn [length] in *.
  assert (Hne1 : forall b j, (b, j) ∈ g -> b <> freep h).
  { intros b j Hb. pose proof (spaced_in _ _ _ _ _ Hsp1 Hb). lia. }
  assert (Hne2 : forall b j, (b, j) ∈ r -> b <> freep h).
  { intros b j Hb. pose proof (spaced_in _ _ _ _ _ Hsp2 Hb). lia. }
  destruct (first_fit r) as [Hsm|(w1 & a & j & w2 & -> & Hsm & Hj)].
  2: { left. exists (g ++ (freep h, k) :: w1), a, j, w2. split_and!; [by rewrite <- app_assoc | done |]. rewrite length_app in Hfuel.
       cbn in Hfuel. replace fuel with (length w1 + S (fuel - length w1 - 1))%nat by lia. rewrite lastp_app.
       eapply walk_found; [exact Hs2 | done | done |]. intros b i Hb. apply (Hne2 b i), elem_of_app. by left. }
  assert (Hturn : malloc_loop grant fuel (freep h) (ptr (um h) (freep h)) n h =
    malloc_loop grant (fuel - length r - 1) base (ptr (um h) base) n h).
  { replace fuel with (length r + S (fuel - length r - 1))%nat at 1 by lia. erewrite walk; [|exact Hs2 | done | done].
    cbn [malloc_loop]. by rewrite (seg_last _ _ _ _ Hs2), H0, (proj2 (Z.leb_gt n 0)), (proj2 (Z.eqb_neq base (freep h))) by lia. }
  rewrite Hturn. destruct (first_fit g) as [Hsg|(w1 & a & j & w2 & -> & Hsg & Hj)].
  2: { left. exists w1, a, j, (w2 ++ (freep h, k) :: r). split_and!; [by rewrite <- app_assoc | done |]. rewrite length_app in Hfuel.
       cbn in Hfuel. replace (fuel - length r - 1)%nat with (length w1 + S (fuel - length r - 2 - length w1))%nat by lia.
       eapply walk_found; [exact Hs1 | done | done |]. intros b i Hb. apply (Hne1 b i), elem_of_app. by left. }
  destruct (decide (n <= k)) as [Hnk|Hnk].
  - left. exists g, (freep h), k, r. split_and!; [done | done |].
    replace (fuel - length r - 1)%nat with (length g + S (fuel - length r - 2 - length g))%nat by lia. by eapply walk_found.
  - right. split.
    { intros b j [Hb|[[= -> ->]|Hb]%elem_of_cons]%elem_of_app; [by apply (Hsg b) | lia | by apply (Hsm b)]. }
    exists (fuel - length r - 2 - length g)%nat. split; [lia|].
    replace (fuel - length r - 1)%nat with (length g + S (fuel - length r - 2 - length g))%nat by lia.
    erewrite walk; [|exact Hs1 | done | done]. cbn [malloc_loop].
    by rewrite (seg_last _ _ _ _ Hs1), Hk, (proj2 (Z.leb_gt n k)), Z.eqb_refl by lia.
Qed.

Lemma loop_spec h l fuel : heap_ok h l -> (length l + 3 <= fuel)%nat ->
  (exists l1 a k l2, l = l1 ++ (a, k) :: l2 /\ n <= k /\
     malloc_loop grant fuel (freep h) (ptr (um h) (freep h)) n h = Some (cut (lastp base l1) a n h)) \/
  (small l /\ exists f, (fuel <= f + length l + 2)%nat /\
     malloc_loop grant fuel (freep h) (ptr (um h) (freep h)) n h = at_freep f h).
Proof.
  intros (Hs & H0 & Hsp & Hlim & Hfp) Hfuel. destruct (decide (freep h = base)) as [Efp|Efp].
  - rewrite Efp. assert (Hne : forall b k, (b, k) ∈ l -> b <> freep h).
    { intros b k Hb. pose proof (spaced_in _ _ _ _ _ Hsp Hb). lia. }
    destruct (first_fit l) as [Hsm|(w1 & a & k & w2 & -> & Hsm & Hk)].
    + right. split; [done|]. exists (fuel - length l - 1)%nat. split; [lia|].
      replace fuel with (length l + S (fuel - length l - 1))%nat at 1 by lia. erewrite walk; [|exact Hs | done | done].
      cbn [malloc_loop]. by rewrite (seg_last _ _ _ _ Hs), H0, (proj2 (Z.leb_gt n 0)), Efp, Z.eqb_refl by lia.
    + left. exists w1, a, k, w2. split_and!; [done | done |]. rewrite length_app in Hfuel. cbn in Hfuel.
      replace fuel with (length w1 + S (fuel - length w1 - 1))%nat by lia. eapply walk_found; [exact Hs | done | done |].
      intros b j Hb. apply (Hne b j), elem_of_app. by left.
  - destruct Hfp as [?|[k Hk]]; [done|]. apply list_elem_of_split in Hk as (g & r & ->). by eapply loop_spec_middle.
Qed.

End Search.
End Heap.

End UmallocProof.
