(* ===== verification/UmallocSafety.v ===== *)
(** * The allocator of user programs: what a program may rely on

    [malloc] as a whole, and the runs of a program that calls [malloc] and [free] and
    writes into the blocks it owns. *)

From stdpp Require Import base gmap list strings relations.
From Stdlib Require Import ZArith Lia.
From S2P Require Import Prelude Umalloc UmallocProof.
Import Umalloc UmallocProof.

Module UmallocSafety.

(** *** More fuel changes nothing *)

Section Fuel.
Context (base : Z) (grant : Z -> Z -> bool).

Lemma free_find_mono m bp f : forall f' p r, (f <= f')%nat -> free_find f m bp p = Some r -> free_find f' m bp p = Some r.
Proof.
  induction f as [|f IH]; intros [|f'] p r Hf; cbn; [done.. | lia |].
  repeat case_match; [done | done |]. apply IH. lia.
Qed.

Lemma free_mono f f' ap h r : (f <= f')%nat -> free f ap h = Some r -> free f' ap h = Some r.
Proof.
  intros Hf. unfold free. destruct (free_find f _ _ _) as [p|] eqn:E; [|done]. by rewrite (free_find_mono _ _ _ _ _ _ Hf E).
Qed.

Lemma morecore_mono f f' nu h r : (f <= f')%nat -> morecore grant f nu h = Some r -> morecore grant f' nu h = Some r.
Proof.
  intros Hf. unfold morecore. destruct (sbrk _ _ _) as [p h1]. destruct (p =? -1); [done|].
  destruct (free f _ _) as [h2|] eqn:E; [|done]. by rewrite (free_mono _ _ _ _ _ Hf E).
Qed.

Lemma malloc_loop_mono n f : forall f' prevp p h r, (f <= f')%nat ->
  malloc_loop grant f prevp p n h = Some r -> malloc_loop grant f' prevp p n h = Some r.
Proof.
  induction f as [|f IH]; intros f' prevp p h r Hf; [done|]. destruct f' as [|f']; [lia|]. cbn [malloc_loop].
  destruct (n <=? _); [done|]. destruct (p =? _); [|apply IH; lia].
  destruct (morecore grant (S f) n h) as [[p' h']|] eqn:E; [|done]. rewrite (morecore_mono _ _ _ _ _ Hf E).
  destruct (p' =? 0); [done|]. apply IH. lia.
Qed.

Lemma malloc_mono f f' nb h r : (f <= f')%nat -> malloc base grant f nb h = Some r -> malloc base grant f' nb h = Some r.
Proof. apply malloc_loop_mono. Qed.

End Fuel.

(** *** New memory *)

(** A block with a large piece of memory in it is large: blocks have gaps between them. *)
Lemma large_block l lo hi bp n : spaced lo l hi -> 0 < n -> (forall x, bp <= x < bp + 8 * n -> inside l x) ->
  exists b k, (b, k) ∈ l /\ n <= k.
Proof.
  intros Hsp Hn Hin. destruct (Hin bp ltac:(lia)) as (b & k & Hb & Hx). exists b, k. split; [done|].
  destruct (decide (n <= k)) as [|Hk]; [done|]. exfalso. pose proof Hb as (l1 & l2 & ->)%list_elem_of_split.
  destruct (Hin (b + 8 * k) ltac:(lia)) as (c & j & Hc & Hy). apply spaced_app in Hsp as (H1 & Hk0 & H2).
  apply elem_of_app in Hc as [Hc|[[= -> ->]|Hc]%elem_of_cons]; [| lia |].
  - pose proof (spaced_in _ _ _ _ _ H1 Hc). lia.
  - pose proof (spaced_in _ _ _ _ _ H2 Hc). lia.
Qed.

Lemma inside_below l lo hi x : spaced lo l hi -> inside l x -> lo < x < hi.
Proof. intros Hsp (a & n & Ha & Hx). pose proof (spaced_in _ _ _ _ _ Hsp Ha). lia. Qed.

Section Malloc.
Context (base : Z) (Hbase : 0 < base) (grant : Z -> Z -> bool).
(** The kernel does not let a process grow past the address space. *)
Hypothesis grant_limit : forall b k, grant b k = true -> b + k < 2 ^ 32.

(** The units that [morecore] asks for. *)
Definition core_units (n : Z) : Z := if n <? 4096 then 4096 else n.

Lemma heap_ok_grow h l v k : heap_ok base h l -> base + 8 <= brk h -> 0 <= k -> brk h + k < 2 ^ 32 ->
  heap_ok base {| um := set_size (um h) (brk h) v; freep := freep h; brk := brk h + k |} l.
Proof.
  intros (Hs & H0 & Hsp & Hlim & Hfp) Hb Hk Hend. unfold heap_ok. cbn [um freep brk]. split_and!.
  - eapply seg_ext; [| | exact Hs]; [apply ptr_set_size_far; left; lia|]. intros b j Hj.
    pose proof (spaced_in _ _ _ _ _ Hsp Hj). by rewrite ptr_set_size_far, size_set_size_far by (left; lia).
  - rewrite size_set_size_far; [done | left; lia].
  - eapply spaced_weaken; [| | exact Hsp]; lia.
  - done.
  - done.
Qed.

Lemma freep_nonzero h l : heap_ok base h l -> freep h <> 0.
Proof. intros (_ & _ & Hsp & _ & [->|[n Hn]]); [lia|]. pose proof (spaced_in _ _ _ _ _ Hsp Hn). lia. Qed.

Lemma morecore_spec h l n f : heap_ok base h l -> base + 8 <= brk h -> 0 < n -> 8 * core_units n < 2 ^ 31 ->
  (2 * length l + 2 <= f)%nat ->
  (grant (brk h) (8 * core_units n) = false /\ morecore grant f n h = Some (0, h)) \/
  (exists h' l', morecore grant f n h = Some (freep h', h') /\ heap_ok base h' l' /\ brk h' = brk h + 8 * core_units n /\
    (forall x, inside l' x <-> inside l x \/ brk h <= x < brk h') /\
    (forall x, outside base l x -> x < brk h -> loadb (um h') x = loadb (um h) x) /\ (length l' <= S (length l))%nat).
Proof.
  intros Hok Hb Hn Hc Hf. assert (Hnu : n <= core_units n /\ 4096 <= core_units n).
  { unfold core_units. destruct (Z.ltb_spec n 4096); lia. }
  unfold morecore, sbrk. fold (core_units n). set (nu := core_units n) in *. unfold sizeof_Header.
  rewrite u32_small, s32_small, (Z.mul_comm nu) by lia. destruct (grant (brk h) (8 * nu)) eqn:Eg; [|by left].
  right. apply grant_limit in Eg. rewrite (proj2 (Z.eqb_neq (brk h) (-1))), units_small by lia.
  cbn [um brk freep]. change (8 * 1) with 8.
  set (h1 := set_mem _ _). assert (Hok1 : heap_ok base h1 l) by exact (heap_ok_grow h l nu (8 * nu) Hok Hb ltac:(lia) Eg).
  destruct (free_spec base Hbase h1 l (brk h) nu f Hok1) as (h' & l' & E & Hok' & Hbrk & Hin & Hfr & Hlen);
    [done | lia | done | by apply size_set_size; lia | | done |].
  { intros x Hx Hi. destruct Hok as (_ & _ & Hsp & _). pose proof (inside_below _ _ _ _ Hsp Hi). lia. }
  exists h', l'. rewrite E. split_and!; [done | done | done | | | done]; rewrite ?Hbrk; cbn [brk h1 set_mem].
  - done.
  - intros x Ho Hx. rewrite Hfr by (done || (left; lia)). cbn [um h1 set_mem]. apply loadb_set_size. left. lia.
Qed.

(** *** Allocation *)

(** The units for [nb] bytes and a header. *)
Definition nunits (nb : Z) : Z := (nb + 7) / 8 + 1.

(** The list before the first call, and after it. *)
Definition ready (h : heap) (l : blocks) : Prop :=
  heap_ok base h l \/ freep h = 0 /\ l = [] /\ brk h < 2 ^ 32.

(** [malloc] gave the block [q]: it was free, or in memory that the kernel added, and is
    free no more; memory that was not free is as before. *)
Definition allocated (h h' : heap) (l l' : blocks) (q n : Z) : Prop :=
  heap_ok base h' l' /\ brk h <= brk h' /\ size (um h') q = n /\ base + 8 <= q /\ q + 8 * n <= brk h' /\
  (forall x, inside l' x \/ q <= x < q + 8 * n <-> inside l x \/ brk h <= x < brk h') /\
  (forall x, q <= x < q + 8 * n -> ~ inside l' x) /\
  (forall x, outside base l x -> x < brk h -> loadb (um h') x = loadb (um h) x).

Lemma taken_allocated h1 h h' l1 l l' q n : taken base h h' l l' q n -> brk h1 <= brk h ->
  (forall x, inside l x <-> inside l1 x \/ brk h1 <= x < brk h) ->
  (forall x, outside base l1 x -> x < brk h1 -> loadb (um h) x = loadb (um h1) x) -> allocated h1 h' l1 l' q n.
Proof.
  intros (Hok & Hb & Hsz & Hq & Hend & Hin & Hd & Hfr) Hle Hin1 Hfr1. unfold allocated. rewrite Hb.
  split_and!; [done | done | done | done | done | | done |].
  - intros x. by rewrite <- Hin, Hin1.
  - intros x [Ho1 Ho2] Hx. rewrite Hfr; [by apply Hfr1|]. split; [|done]. rewrite Hin1. intros [?|?]; [done | lia].
Qed.

Lemma malloc_loop_spec h l n fuel : heap_ok base h l -> base + 8 <= brk h -> 0 < n -> 8 * core_units n < 2 ^ 31 ->
  (3 * length l + 8 <= fuel)%nat ->
  (small n l /\ grant (brk h) (8 * core_units n) = false /\
     malloc_loop grant fuel (freep h) (ptr (um h) (freep h)) n h = Some (0, h)) \/
  (exists q h' l', malloc_loop grant fuel (freep h) (ptr (um h) (freep h)) n h = Some (q + 8, h') /\ allocated h h' l l' q n).
Proof.
  intros Hok Hb Hn Hc Hf.
  destruct (loop_spec base grant n Hn h l fuel Hok) as [(l1 & a & k & l2 & -> & Hk & ->)|(Hsm & f & Hff & ->)]; [lia | |].
  { right. destruct (cut_spec base Hbase h l1 a k l2 n Hok) as (q & h' & l' & -> & Ht); [lia|]. exists q, h', l'. split; [done|].
    apply (taken_allocated _ h _ _ (l1 ++ (a, k) :: l2)); [done | lia | | done]. intros x. split; [by left|]. intros [?|?]; [done | lia]. }
  unfold at_freep. destruct (morecore_spec h l n (S f) Hok Hb Hn Hc) as [[Hg ->]|(h1 & l1 & -> & Hok1 & Hb1 & Hin1 & Hfr1 & Hlen)];
    [lia | by left |]. right. rewrite (proj2 (Z.eqb_neq _ _) (freep_nonzero _ _ Hok1)).
  assert (Hnu : n <= core_units n) by (unfold core_units; destruct (Z.ltb_spec n 4096); lia).
  destruct (loop_spec base grant n Hn h1 l1 f Hok1) as [(l2 & a & k & l3 & -> & Hk & ->)|(Hsm1 & _)]; [lia | |].
  - destruct (cut_spec base Hbase h1 l2 a k l3 n Hok1) as (q & h' & l' & -> & Ht); [lia|]. exists q, h', l'. split; [done|].
    eapply taken_allocated; [exact Ht | lia | done | done].
  - exfalso. destruct Hok1 as (_ & _ & Hsp & _).
    destruct (large_block l1 _ _ (brk h) (core_units n) Hsp) as (b & k & Hbk & Hk); [lia | | pose proof (Hsm1 b k Hbk); lia].
    intros x Hx. apply Hin1. right. lia.
Qed.

(** The first call makes the empty list. *)
Definition started (h : heap) : heap :=
  if freep h =? 0 then {| um := set_size (set_ptr (um h) base base) base 0; freep := base; brk := brk h |} else h.

Lemma started_ok h l : ready h l -> base + 8 <= brk h -> heap_ok base (started h) l /\ brk (started h) = brk h /\
  (forall x, outside base l x -> loadb (um (started h)) x = loadb (um h) x).
Proof.
  unfold started. intros [Hok|(H0 & -> & Hlim)] Hb.
  - by rewrite (proj2 (Z.eqb_neq _ _) (freep_nonzero _ _ Hok)).
  - rewrite H0. cbn [Z.eqb]. unfold heap_ok. cbn [um freep brk seg spaced]. split_and!; [| | lia | done | by left | done |].
    + rewrite ptr_set_size. apply ptr_set_ptr. lia.
    + apply size_set_size. lia.
    + intros x [_ Hx]. by rewrite loadb_set_size, loadb_set_ptr.
Qed.

Lemma nunits_bounds nb : 0 <= nb <= 2 ^ 31 - 32 ->
  0 < nunits nb /\ nb <= 8 * nunits nb - 8 < nb + 8 /\ 8 * core_units (nunits nb) < 2 ^ 31.
Proof.
  intros H. unfold core_units, nunits. change (2 ^ 31) with 2147483648 in *.
  destruct (Z.ltb_spec ((nb + 7) / 8 + 1) 4096); Z.div_mod_to_equations; lia.
Qed.

Lemma malloc_spec h l nb fuel : ready h l -> base + 8 <= brk h -> 0 <= nb <= 2 ^ 31 - 32 -> (3 * length l + 8 <= fuel)%nat ->
  (small (nunits nb) l /\ grant (brk h) (8 * core_units (nunits nb)) = false /\
     malloc base grant fuel nb h = Some (0, started h)) \/
  (exists q h' l', malloc base grant fuel nb h = Some (q + 8, h') /\ allocated h h' l l' q (nunits nb)).
Proof.
  intros Hr Hb Hnb Hf. destruct (nunits_bounds nb Hnb) as (Hn & Hn' & Hc). destruct (started_ok h l Hr Hb) as (Hok & Eb & Hfr).
  unfold malloc, sizeof_Header. fold (started h). replace (nb + 8 - 1) with (nb + 7) by lia.
  rewrite (u32_small (nb + 7)) by lia. fold (nunits nb). rewrite u32_small by lia.
  destruct (malloc_loop_spec (started h) l (nunits nb) fuel Hok) as [(Hsm & Hg & E)|(q & h' & l' & E & Ha)];
    [by rewrite Eb | done | done | done | left; rewrite Eb in Hg; by split_and! |].
  right. exists q, h', l'. split; [exact E|]. destruct Ha as (H1 & H2 & H3 & H4 & H5 & H6 & H7 & H8).
  rewrite Eb in *. split_and!; [done.. |]. intros x Ho Hx. rewrite H8 by done. by apply Hfr.
Qed.

End Malloc.

(** *** Programs that use the allocator *)

(** The memory of a process, the blocks it owns, and the bytes it has written to them. *)
Record process : Type := { mh : heap; own : blocks; vals : Z -> option Z }.

Definition within (q n x : Z) : bool := (q <=? x) && (x <? q + 8 * n).

(** The program allocates, gives a block back, or writes a byte into one of its blocks.
    What the kernel grants may differ from call to call. *)
Inductive step (base : Z) : process -> process -> Prop :=
  | step_malloc grant fuel nb p h h' o v :
      (forall b k, grant b k = true -> b + k < 2 ^ 32) -> 0 <= nb <= 2 ^ 31 - 32 ->
      malloc base grant fuel nb h = Some (p, h') ->
      step base {| mh := h; own := o; vals := v |}
        {| mh := h'; own := if p =? 0 then o else (p - 8, nunits nb) :: o; vals := v |}
  | step_free fuel h h' o1 q n o2 v :
      free fuel (q + 8) h = Some h' ->
      step base {| mh := h; own := o1 ++ (q, n) :: o2; vals := v |}
        {| mh := h'; own := o1 ++ o2; vals := fun x => if within q n x then None else v x |}
  | step_write q n x b h o v : (q, n) ∈ o -> q + 8 <= x < q + 8 * n ->
      step base {| mh := h; own := o; vals := v |}
        {| mh := set_mem (storeb (um h) x b) h; own := o; vals := fun y => if y =? x then Some (u8 b) else v y |}.

(** No two blocks of the list share an address. *)
Fixpoint apart (l : blocks) : Prop :=
  match l with
  | [] => True
  | (q, n) :: r => (forall x, q <= x < q + 8 * n -> ~ inside r x) /\ apart r
  end.

Lemma apart_remove l1 q n l2 : apart (l1 ++ (q, n) :: l2) ->
  apart (l1 ++ l2) /\ forall x, q <= x < q + 8 * n -> ~ inside (l1 ++ l2) x.
Proof.
  induction l1 as [|[a k] l1 IH]; cbn; [tauto|]. intros [H1 [H2 H3]%IH]. split_and!.
  - intros x Hx Hi. apply (H1 x Hx). rewrite inside_app, inside_cons. rewrite inside_app in Hi. tauto.
  - done.
  - intros x Hx. rewrite inside_cons. intros [Hi|Hi]; [|by apply (H3 x)]. apply (H1 x Hi).
    rewrite inside_app, inside_cons. tauto.
Qed.

Section Program.
Context (base : Z) (Hbase : 0 < base) (b0 : Z) (Hb0 : base + 8 <= b0).

(** An owned block: its header holds its size and no part of it is free. *)
Definition owned (h : heap) (l : blocks) (q n : Z) : Prop :=
  0 < n /\ base + 8 <= q /\ q + 8 * n <= brk h /\ size (um h) q = n /\ forall x, q <= x < q + 8 * n -> ~ inside l x.

Definition good (s : process) (l : blocks) : Prop :=
  (heap_ok base (mh s) l \/ freep (mh s) = 0 /\ l = [] /\ own s = [] /\ brk (mh s) < 2 ^ 32) /\ b0 <= brk (mh s) /\
  apart (own s) /\ (forall q n, (q, n) ∈ own s -> owned (mh s) l q n) /\
  (forall x, b0 <= x < brk (mh s) -> inside l x \/ inside (own s) x) /\
  (forall x v, vals s x = Some v -> loadb (um (mh s)) x = v /\ exists q n, (q, n) ∈ own s /\ q + 8 <= x < q + 8 * n).

Lemma size_ext m m' p : (forall x, p <= x < p + 8 -> loadb m' x = loadb m x) -> size m' p = size m p.
Proof. intros H. unfold size, load32. by rewrite !H by lia. Qed.
Lemma ptr_ext m m' p : (forall x, p <= x < p + 8 -> loadb m' x = loadb m x) -> ptr m' p = ptr m p.
Proof. intros H. unfold ptr, load32. by rewrite !H by lia. Qed.

(** Owned memory is neither free nor the header [base]. *)
Lemma owned_outside h l q n x : owned h l q n -> q <= x < q + 8 * n -> outside base l x /\ x < brk h.
Proof. intros (Hn & Hq & Hend & _ & Hd) Hx. split; [split; [by apply Hd | lia] | lia]. Qed.

(** The blocks a step does not touch stay owned. *)
Lemma owned_kept h h' l l' q n : owned h l q n -> brk h <= brk h' ->
  (forall x, q <= x < q + 8 * n -> loadb (um h') x = loadb (um h) x) ->
  (forall x, q <= x < q + 8 * n -> ~ inside l' x) -> owned h' l' q n.
Proof.
  intros (Hn & Hq & Hend & Hsz & Hd) Hle Hfr Hd'. unfold owned. split_and!; [done | done | lia | | done].
  rewrite (size_ext (um h)); [done|]. intros x Hx. apply Hfr. lia.
Qed.

Lemma heap_ok_frame h l m : heap_ok base h l -> (forall x, inside l x \/ base <= x < base + 8 -> loadb m x = loadb (um h) x) ->
  heap_ok base (set_mem m h) l.
Proof.
  intros (Hs & H0 & Hsp & Hlim & Hfp) Hfr. unfold heap_ok. cbn [um freep brk set_mem]. split_and!; [| | done | done | done].
  - eapply seg_ext; [apply ptr_ext; auto | | exact Hs]. intros b n Hb. pose proof (spaced_in _ _ _ _ _ Hsp Hb).
    assert (forall x, b <= x < b + 8 -> loadb m x = loadb (um h) x).
    { intros x Hx. apply Hfr. left. exists b, n. split; [done | lia]. }
    split; [by apply ptr_ext | by apply size_ext].
  - rewrite (size_ext (um h)); auto.
Qed.

Lemma good_ready s l : good s l -> ready base (mh s) l.
Proof. intros ([H|(H1 & H2 & _ & H3)] & _); [by left | right; by split_and!]. Qed.

(** Owned memory that a step leaves alone keeps its bytes. *)
Lemma vals_kept s h' : (forall q n, (q, n) ∈ own s -> forall x, q <= x < q + 8 * n -> loadb (um h') x = loadb (um (mh s)) x) ->
  (forall x v, vals s x = Some v -> loadb (um (mh s)) x = v /\ exists q n, (q, n) ∈ own s /\ q + 8 <= x < q + 8 * n) ->
  forall x v, vals s x = Some v -> loadb (um h') x = v /\ exists q n, (q, n) ∈ own s /\ q + 8 <= x < q + 8 * n.
Proof.
  intros Hfr Hv x v Hx. destruct (Hv x v Hx) as (<- & q & n & Hq & Hqx). split; [|by eauto].
  apply (Hfr q n Hq). lia.
Qed.

Lemma good_allocated s l h' l' q n : good s l -> allocated base (mh s) h' l l' q n -> 0 < n ->
  good {| mh := h'; own := (q, n) :: own s; vals := vals s |} l'.
Proof.
  intros (_ & Hb & Hap & Hown & Hcov & Hv) (Hok & Hle & Hsz & Hq & Hend & Hin & Hd & Hfr) Hn.
  assert (Hold : forall a k x, (a, k) ∈ own s -> a <= x < a + 8 * k -> outside base l x /\ x < brk (mh s)).
  { intros a k x Ha. by apply owned_outside, Hown. }
  assert (Hsep : forall a k x, (a, k) ∈ own s -> a <= x < a + 8 * k -> ~ (inside l' x \/ q <= x < q + 8 * n)).
  { intros a k x Ha Hx. rewrite Hin. destruct (Hold a k x Ha Hx) as [[? _] ?]. intros [?|?]; [done | lia]. }
  unfold good. cbn [mh own vals apart]. split_and!; [by left | lia | | done | | |].
  - intros x Hx (a & k & Ha & Hax). eapply Hsep; [exact Ha | exact Hax | by right].
  - intros a k [[= -> ->]|Ha]%elem_of_cons; [by unfold owned; split_and!|]. eapply owned_kept; [by apply Hown | done | |].
    + intros x Hx. by apply Hfr; eapply Hold.
    + intros x Hx Hi. eapply Hsep; [exact Ha | exact Hx | by left].
  - intros x Hx. rewrite inside_cons. destruct (decide (x < brk (mh s))) as [Hlt|Hge].
    + destruct (Hcov x) as [Hi|Hi]; [lia | | tauto]. pose proof (proj2 (Hin x) (or_introl Hi)). tauto.
    + destruct (proj2 (Hin x)) as [?|?]; [right; lia | tauto | tauto].
  - intros x v Hx. destruct (vals_kept s h') with (x := x) (v := v) as (E & a & k & Ha & Hax); [| done | done |].
    + intros a k Ha y Hy. by apply Hfr; eapply Hold.
    + split; [done|]. exists a, k. split; [by right | done].
Qed.

Lemma good_refused s l : good s l -> good {| mh := started base (mh s); own := own s; vals := vals s |} l.
Proof.
  intros Hg. pose proof (good_ready _ _ Hg) as Hr. destruct Hg as (_ & Hb & Hap & Hown & Hcov & Hv).
  destruct (started_ok base Hbase (mh s) l Hr) as (Hok & Eb & Hfr); [lia|]. unfold good. cbn [mh own vals]. rewrite Eb.
  assert (Hold : forall q n, (q, n) ∈ own s -> forall x, q <= x < q + 8 * n -> loadb (um (started base (mh s))) x = loadb (um (mh s)) x).
  { intros q n Hq x Hx. eapply Hfr, owned_outside; [by apply Hown | done]. }
  split_and!; [by left | done | done | | done |].
  - intros q n Hq. pose proof (Hown q n Hq) as Ho. eapply owned_kept; [exact Ho | lia | by apply Hold | by apply Ho].
  - by apply vals_kept.
Qed.

Lemma within_spec q n x : within q n x = true <-> q <= x < q + 8 * n.
Proof. unfold within. rewrite andb_true_iff, Z.leb_le, Z.ltb_lt. done. Qed.

(** The free list after [free], for enough fuel. *)
Lemma owned_free s l o1 q n o2 : good s l -> own s = o1 ++ (q, n) :: o2 ->
  exists h' l', free (2 * length l + 2) (q + 8) (mh s) = Some h' /\ heap_ok base h' l' /\ brk h' = brk (mh s) /\
    (forall x, inside l' x <-> inside l x \/ q <= x < q + 8 * n) /\
    (forall x, outside base l x -> x < q \/ q + 8 * n <= x -> loadb (um h') x = loadb (um (mh s)) x).
Proof.
  intros (Hok & _ & _ & Hown & _) Eo. destruct (Hown q n) as (Hn & Hq & Hend & Hsz & Hd).
  { rewrite Eo. apply elem_of_app. right. by left. }
  destruct Hok as [Hok|(_ & _ & Eo' & _)]; [|rewrite Eo' in Eo; by destruct o1].
  destruct (free_spec base Hbase (mh s) l q n (2 * length l + 2) Hok) as (h' & l' & ? & ? & ? & ? & ? & _); [done.. |].
  exists h', l'. by split_and!.
Qed.

Lemma good_free s l o1 q n o2 h' l' : good s l -> own s = o1 ++ (q, n) :: o2 -> heap_ok base h' l' -> brk h' = brk (mh s) ->
  (forall x, inside l' x <-> inside l x \/ q <= x < q + 8 * n) ->
  (forall x, outside base l x -> x < q \/ q + 8 * n <= x -> loadb (um h') x = loadb (um (mh s)) x) ->
  good {| mh := h'; own := o1 ++ o2; vals := fun x => if within q n x then None else vals s x |} l'.
Proof.
  intros (_ & Hb & Hap & Hown & Hcov & Hv) Eo Hok Eb Hin Hfr. rewrite Eo in *. apply apart_remove in Hap as [Hap Hsep].
  assert (Hsub : forall a k, (a, k) ∈ o1 ++ o2 -> (a, k) ∈ o1 ++ (q, n) :: o2).
  { intros a k [?|?]%elem_of_app; apply elem_of_app; [by left | right; by right]. }
  assert (Hoff : forall a k x, (a, k) ∈ o1 ++ o2 -> a <= x < a + 8 * k -> x < q \/ q + 8 * n <= x).
  { intros a k x Ha Hx. destruct (decide (q <= x < q + 8 * n)) as [Hi|Hi]; [|lia]. exfalso. apply (Hsep x Hi). by exists a, k. }
  unfold good. cbn [mh own vals]. rewrite Eb. split_and!; [by left | done | done | | |].
  - intros a k Ha. pose proof (Hown a k (Hsub a k Ha)) as Ho. eapply owned_kept; [exact Ho | lia | |].
    + intros x Hx. apply Hfr; [by eapply owned_outside | by eapply Hoff].
    + intros x Hx. rewrite Hin. destruct Ho as (_ & _ & _ & _ & Hd). pose proof (Hd x Hx). pose proof (Hoff a k x Ha Hx).
      intros [?|?]; [done | lia].
  - intros x Hx. pose proof (Hin x). destruct (Hcov x Hx) as [Hi|Hi]; [tauto|].
    rewrite inside_app, inside_cons in Hi. rewrite inside_app. tauto.
  - intros x v. destruct (within q n x) eqn:Ew; [done|]. intros Hx. destruct (Hv x v Hx) as (<- & a & k & Ha & Hax).
    assert (~ (q <= x < q + 8 * n)) by (rewrite <- within_spec; by destruct (within q n x)).
    split; [apply Hfr; [eapply owned_outside; [by apply Hown | lia] | lia]|]. exists a, k. split; [|done].
    apply elem_of_app in Ha as [?|[[= -> ->]|?]%elem_of_cons]; [by apply elem_of_app; left | lia | by apply elem_of_app; right].
Qed.

Lemma good_write s l q n x b : good s l -> (q, n) ∈ own s -> q + 8 <= x < q + 8 * n ->
  good {| mh := set_mem (storeb (um (mh s)) x b) (mh s); own := own s; vals := fun y => if y =? x then Some (u8 b) else vals s y |} l.
Proof.
  intros (Hok & Hb & Hap & Hown & Hcov & Hv) Hq Hx. pose proof (Hown q n Hq) as Ho.
  assert (Hout : outside base l x /\ x < brk (mh s)) by (eapply owned_outside; [exact Ho | lia]).
  unfold good. cbn [mh own vals brk freep um set_mem]. split_and!; [| done | done | | done |].
  - destruct Hok as [Hok|?]; [left | by right]. apply heap_ok_frame; [done|]. intros y Hy. apply loadb_storeb_ne.
    intros ->. destruct Hout as [[? ?] _], Hy; [done | lia].
  - intros a k Ha. pose proof (Hown a k Ha) as (? & ? & ? & ? & ?). unfold owned. cbn [brk um set_mem]. split_and!; [done.. | | done].
    rewrite (size_ext (um (mh s))); [done|]. intros y Hy. apply loadb_storeb_ne. intros <-.
    destruct (decide ((a, k) = (q, n))) as [[= -> ->]|Hne]; [lia|]. apply list_elem_of_split in Hq as (o1 & o2 & Eo).
    rewrite Eo in Ha, Hap. apply apart_remove in Hap as [_ Hsep]. apply (Hsep x); [lia|]. exists a, k. split; [|lia].
    apply elem_of_app in Ha as [?|[?|?]%elem_of_cons]; [by apply elem_of_app; left | done | by apply elem_of_app; right].
  - intros y v. destruct (Z.eqb_spec y x) as [->|Hne].
    + intros [= <-]. split; [apply loadb_storeb_eq | by exists q, n].
    + intros Hy. rewrite loadb_storeb_ne by done. by apply Hv.
Qed.

(** What [malloc] does in a process that keeps the invariant, whatever the fuel. *)
Lemma good_malloc s l grant nb fuel p h' : good s l -> (forall b k, grant b k = true -> b + k < 2 ^ 32) ->
  0 <= nb <= 2 ^ 31 - 32 -> malloc base grant fuel nb (mh s) = Some (p, h') ->
  (p = 0 /\ h' = started base (mh s) /\ grant (brk (mh s)) (8 * core_units (nunits nb)) = false) \/
  (exists l', 8 < p /\ allocated base (mh s) h' l l' (p - 8) (nunits nb)).
Proof.
  intros Hg Hl Hnb E. pose proof (good_ready _ _ Hg) as Hr. destruct Hg as (_ & Hb & _).
  apply (malloc_mono base grant fuel (Nat.max fuel (3 * length l + 8))) in E; [|lia].
  destruct (malloc_spec base Hbase grant Hl (mh s) l nb (Nat.max fuel (3 * length l + 8)) Hr) as [(_ & Hgr & E')|(q & h1 & l' & E' & Ha)];
    [lia | done | lia | left; rewrite E in E'; by injection E' as -> -> |].
  rewrite E in E'. injection E' as -> ->. right. exists l'. replace (q + 8 - 8) with q by lia. split; [|done].
  destruct Ha as (_ & _ & _ & ? & _). lia.
Qed.

Lemma good_step s s' l : good s l -> step base s s' -> exists l', good s' l'.
Proof.
  intros Hg Hs. destruct Hs as [grant fuel nb p h h' o v Hl Hnb E|fuel h h' o1 q n o2 v E|q n x b h o v Hq Hx].
  - destruct (good_malloc _ _ _ _ _ _ _ Hg Hl Hnb E) as [(-> & -> & _)|(l' & Hp & Ha)].
    + exists l. exact (good_refused _ _ Hg).
    + exists l'. rewrite (proj2 (Z.eqb_neq p 0)) by lia. apply (good_allocated _ _ _ _ _ _ Hg Ha), nunits_bounds, Hnb.
  - destruct (owned_free _ _ o1 q n o2 Hg eq_refl) as (h1 & l' & E' & Hok & Eb & Hin & Hfr). cbn [mh] in *.
    apply (free_mono _ (Nat.max fuel (2 * length l + 2))) in E; [|lia].
    apply (free_mono _ (Nat.max fuel (2 * length l + 2))) in E'; [|lia]. rewrite E in E'. injection E' as <-.
    exists l'. by eapply (good_free _ _ _ _ _ _ _ _ Hg eq_refl Hok Eb Hin).
  - exists l. exact (good_write _ _ _ _ _ _ Hg Hq Hx).
Qed.

Lemma good_run s s' l : good s l -> rtc (step base) s s' -> exists l', good s' l'.
Proof. intros Hg Hr. revert l Hg. induction Hr as [|s s1 s' Hs _ IH]; intros l Hg; [by exists l|]. destruct (good_step _ _ _ Hg Hs) as [l1 H1]. by eapply IH. Qed.

End Program.

(** C18: In every run of a program that allocates, frees the blocks it owns and writes into
    them, the blocks it owns share no address and lie between the header [base] and the end of
    the process, every byte it wrote is still there until its block is freed, and all memory
    the kernel added is either in the free list or owned, never both.  From each such state
    [malloc] of at most 2^31 - 32 bytes and [free] of an owned block return; [malloc] fails
    only when the kernel refuses more memory, and otherwise gives [nb] bytes that no owned
    block uses. *)
Theorem malloc_free_correct base h0 s :
  0 < base -> base + 8 <= brk h0 < 2 ^ 32 -> freep h0 = 0 ->
  rtc (step base) {| mh := h0; own := []; vals := fun _ => None |} s ->
  apart (own s) /\ (forall q n, (q, n) ∈ own s -> base + 8 <= q /\ q + 8 * n <= brk (mh s)) /\
  (forall x v, vals s x = Some v -> loadb (um (mh s)) x = v) /\
  (exists l, ready base (mh s) l /\ (forall x, inside l x -> ~ inside (own s) x) /\
     forall x, brk h0 <= x < brk (mh s) -> inside l x \/ inside (own s) x) /\
  (forall grant nb, (forall b k, grant b k = true -> b + k < 2 ^ 32) -> 0 <= nb <= 2 ^ 31 - 32 ->
     exists fuel p h', malloc base grant fuel nb (mh s) = Some (p, h') /\
       (p = 0 /\ grant (brk (mh s)) (8 * core_units (nunits nb)) = false \/
        p <> 0 /\ p + nb <= brk h' /\ forall x, p <= x < p + nb -> ~ inside (own s) x)) /\
  (forall q n, (q, n) ∈ own s -> exists fuel h', free fuel (q + 8) (mh s) = Some h').
Proof.
  intros Hbase Hb Hfp Hrun. destruct (good_run base Hbase (brk h0) ltac:(lia) {| mh := h0; own := []; vals := fun _ => None |} s []) as [l Hg]; [| done |].
  { unfold good. cbn. split_and!; [right; split_and!; [done | done | done | lia] | lia | done | by intros q n ?%not_elem_of_nil | intros x Hx; lia | done]. }
  pose proof Hg as (Hok & Hb' & Hap & Hown & Hcov & Hv). split_and!; [done | | | | |].
  - intros q n Hq. destruct (Hown q n Hq) as (_ & ? & ? & _). done.
  - intros x v Hx. by apply Hv.
  - exists l. split_and!; [by eapply good_ready | | done]. intros x Hi (q & n & Hq & Hx).
    destruct (Hown q n Hq) as (_ & _ & _ & _ & Hd). by apply (Hd x).
  - intros grant nb Hl Hnb. destruct (nunits_bounds nb Hnb) as (Hn & Hn' & _).
    destruct (malloc_spec base Hbase grant Hl (mh s) l nb (3 * length l + 8) (good_ready _ _ _ _ Hg)) as [(_ & Hgr & E)|(q & h' & l' & E & Ha)];
      [lia | done | done | exists (3 * length l + 8)%nat, 0, (started base (mh s)); by auto |].
    pose proof (good_allocated base (brk h0) s l h' l' q (nunits nb) Hg Ha Hn) as (_ & _ & Hap' & _).
    destruct Ha as (_ & _ & _ & ? & ? & _). eexists _, _, _. split; [exact E|]. right. split_and!; [lia | lia |].
    intros x Hx. apply Hap'. lia.
  - intros q n Hq. apply list_elem_of_split in Hq as (o1 & o2 & Eo).
    destruct (owned_free base Hbase (brk h0) s l o1 q n o2 Hg Eo) as (h' & l' & E & _). by eauto.
Qed.

(** A process that ends at 8192, with [base] at 4096, and the heap after its first two
    allocations. *)
Definition h_start : heap := {| um := ∅; freep := 0; brk := 8192 |}.
Definition h_grant (b k : Z) : bool := b + k <? 2 ^ 31.
Definition after (r : option (Z * heap)) : heap := match r with Some (_, h) => h | None => h_start end.
Definition h_one : heap := after (malloc 4096 h_grant 20 10 h_start).
Definition h_two : heap := after (malloc 4096 h_grant 20 100 h_one).
Definition h_written : heap := set_mem (storeb (um h_two) 40840 7) h_two.
Definition h_freed : heap := match free 20 40944 h_written with Some h => h | None => h_start end.

(** Two allocations, a byte written into the second block, then the first one is given
    back: the byte is there and a third block does not touch it. *)
Lemma malloc_free_correct_witness :
  exists s : process, own s = [(40824, 14)] /\ loadb (um (mh s)) 40840 = 7 /\
    exists fuel p h', malloc 4096 h_grant fuel 5 (mh s) = Some (p, h') /\ p <> 0 /\ p + 5 <= brk h' /\
      forall x, p <= x < p + 5 -> ~ inside (own s) x.
Proof.
  assert (Hrun : exists s, own s = [(40824, 14)] /\ vals s 40840 = Some 7 /\ brk (mh s) = 40960 /\
    rtc (step 4096) {| mh := h_start; own := []; vals := fun _ => None |} s).
  { eexists. split_and!; cycle 3.
    - eapply rtc_l; [apply (step_malloc 4096 h_grant 20 10 40944 h_start h_one); [unfold h_grant; lia | lia | by vm_compute]|].
      eapply rtc_l; [apply (step_malloc 4096 h_grant 20 100 40832 h_one h_two); [unfold h_grant; lia | lia | by vm_compute]|].
      eapply rtc_l; [apply (step_write 4096 40824 14 40840 7 h_two); [by left | lia]|].
      eapply rtc_l; [apply (step_free 4096 20 h_written h_freed [(40824, 14)] 40936 3 []); by vm_compute|]. apply rtc_refl.
    - reflexivity.
    - reflexivity.
    - by vm_compute. }
  destruct Hrun as (s & Ho & Hv & Hb & Hrun). exists s.
  destruct (malloc_free_correct 4096 h_start s) as (_ & _ & Hval & _ & Hm & _); [lia | cbn; lia | done | done |].
  split_and!; [done | by apply Hval |]. destruct (Hm h_grant 5) as (fuel & p & h' & E & [[_ Hg]|H]); [unfold h_grant; lia | lia | |].
  - rewrite Hb in Hg. by vm_compute in Hg.
  - by exists fuel, p, h'.
Defined.

(** The sum that computes the units wraps: a request for 2^32 - 1 bytes succeeds with a block
    of one unit, which holds nothing but its header. *)
Example malloc_wraps : exists h', malloc 4096 h_grant 20 (2 ^ 32 - 1) h_start = Some (40960, h') /\ size (um h') 40952 = 1 /\ brk h' = 40960.
Proof. eexists. split_and!; by vm_compute. Qed.

End UmallocSafety.
