(* ===== verification/Mkfs.v ===== *)
(** * The writer of the file system image: mkfs.c

    A program of the host that builds the disk from a list of files.  The image is the list
    of the blocks of the file [fsfd]; a struct [dinode] is its 64 bytes.  A failed assertion
    and [exit(1)] are panics.  The host stores the low byte of an integer first. *)

From stdpp Require Import base gmap list strings.
From Stdlib Require Import ZArith Lia.
From S2P Require Import Prelude Core Bio Log Fs.
Import Fs.

Module Mkfs.

Definition NINODES : Z := 200.
Definition FSSIZE : Z := 1000.
Definition nbitmap : Z := FSSIZE / (BSIZE * 8) + 1.
Definition ninodeblocks : Z := NINODES / IPB + 1.
Definition nlog : Z := LOGSIZE.

(** The variables of the program. *)
Record mkvars : Type := { img : list block; freeinode : Z; freeblock : Z; msb : superblock }.

Definition set_img (d : list block) (s : mkvars) : mkvars :=
  {| img := d; freeinode := freeinode s; freeblock := freeblock s; msb := msb s |}.
Definition set_freeinode (n : Z) (s : mkvars) : mkvars :=
  {| img := img s; freeinode := n; freeblock := freeblock s; msb := msb s |}.
Definition set_freeblock (n : Z) (s : mkvars) : mkvars :=
  {| img := img s; freeinode := freeinode s; freeblock := n; msb := msb s |}.
Definition set_msb (b : superblock) (s : mkvars) : mkvars :=
  {| img := img s; freeinode := freeinode s; freeblock := freeblock s; msb := b |}.

Definition zeroes : block := replicate 512 0.

(** Stores [x] with the low byte first and loads what the host sees there. *)
Definition xshort (x : Z) : Z := u8 x + 2 ^ 8 * u8 (x / 2 ^ 8).
Definition xint (x : Z) : Z := u8 x + 2 ^ 8 * u8 (x / 2 ^ 8) + 2 ^ 16 * u8 (x / 2 ^ 16) + 2 ^ 24 * u8 (x / 2 ^ 24).

(** [lseek] to [sec * BSIZE], then [write]: a gap before the new block reads as zeroes. *)
Definition write_at (d : list block) (pos : nat) (b : block) : list block :=
  if (pos <? length d)%nat then <[pos := b]> d else d ++ replicate (pos - length d) zeroes ++ [b].
Definition sector (sec : Z) : nat := Z.to_nat (u32 (sec * BSIZE) / BSIZE).

Definition wsect (sec : Z) (buf : block) : M mkvars unit :=
  modify (fun s => set_img (write_at (img s) (sector sec) buf) s).

Definition rsect (sec : Z) : M mkvars block :=
  r ← gets (fun s => img s !! sector sec);
  match r with Some b => mret b | None => panic "read" end.

Definition sizeof_dinode : nat := 64.

Definition winode (inum : Z) (ip : list Z) : M mkvars unit :=
  b ← gets msb;
  let bn := IBLOCK inum b in
  buf ← rsect bn;
  wsect bn (splice buf (Z.to_nat (dinode_off inum)) ip).

Definition rinode (inum : Z) : M mkvars (list Z) :=
  b ← gets msb;
  buf ← rsect (IBLOCK inum b);
  mret (take sizeof_dinode (drop (Z.to_nat (dinode_off inum)) buf)).

Definition ialloc (type : Z) : M mkvars Z :=
  inum ← gets freeinode;
  modify (set_freeinode (u32 (inum + 1)));;
  let din := replicate sizeof_dinode 0 in
  let din := put16 din 0 (xshort type) in
  let din := put16 din 6 (xshort 1) in
  let din := put32 din 8 (xint 0) in
  winode inum din;;
  mret inum.

Definition balloc (used : Z) : M mkvars unit :=
  if used <? BSIZE * 8 then
    b ← gets msb;
    wsect (sb_bmapstart b) (foldl set_bit zeroes (seqZ 0 used))
  else panic "assert".

(** [freeblock++] *)
Definition newblock : M mkvars Z :=
  fb ← gets freeblock;
  modify (set_freeblock (u32 (fb + 1)));;
  mret fb.

Definition d_addr (din : list Z) (i : Z) : Z := get32 din (12 + 4 * i).
Definition set_d_addr (din : list Z) (i v : Z) : list Z := put32 din (12 + 4 * i) v.

(** The block of the image for block [fbn] of the file, allocated if need be. *)
Definition iappend_block (din : list Z) (fbn : Z) : M mkvars (list Z * Z) :=
  if fbn <? NDIRECT then
    din ← (if xint (d_addr din fbn) =? 0 then fb ← newblock; mret (set_d_addr din fbn (xint fb)) else mret din);
    mret (din, xint (d_addr din fbn))
  else
    din ← (if xint (d_addr din NDIRECT) =? 0 then fb ← newblock; mret (set_d_addr din NDIRECT (xint fb)) else mret din);
    indirect ← rsect (xint (d_addr din NDIRECT));
    let o := 4 * (fbn - NDIRECT) in
    indirect ←
      (if get32 indirect o =? 0 then
         fb ← newblock;
         let indirect := put32 indirect o (xint fb) in
         wsect (xint (d_addr din NDIRECT)) indirect;;
         mret indirect
       else mret indirect);
    mret (din, xint (get32 indirect o)).

(** The loop of [iappend]: [p] holds the [n] bytes that are left. *)
Fixpoint iappend_loop (fuel : nat) (din : list Z) (off : Z) (p : list Z) : M mkvars (list Z * Z) :=
  match fuel with
  | O => spin
  | Datatypes.S f =>
      if 0 <? zlen p then
        let fbn := off / BSIZE in
        if fbn <? MAXFILE then
          '(din, x) ← iappend_block din fbn;
          let n1 := Z.min (zlen p) ((fbn + 1) * BSIZE - off) in
          buf ← rsect x;
          wsect x (splice buf (Z.to_nat (off - fbn * BSIZE)) (take (Z.to_nat n1) p));;
          iappend_loop f din (u32 (off + n1)) (drop (Z.to_nat n1) p)
        else panic "assert"
      else mret (din, off)
  end.

Definition iappend (inum : Z) (xp : list Z) : M mkvars unit :=
  din ← rinode inum;
  '(din, off) ← iappend_loop (Datatypes.S (length xp)) din (xint (get32 din 8)) xp;
  winode inum (put32 din 8 (xint off)).

(** The loop that copies a file in: the results of [read] until it gives nothing. *)
Fixpoint copy_in (inum : Z) (chunks : list (list Z)) : M mkvars unit :=
  match chunks with
  | [] => mret tt
  | buf :: r => if 0 <? zlen buf then iappend inum buf;; copy_in inum r else mret tt
  end.

Definition ch_underscore : Z := 95.
Definition strip_underscore (name : list Z) : list Z :=
  match name with
  | c :: r => if c =? ch_underscore then r else name
  | [] => []
  end.

(** The body of the loop over the arguments: a name, and what [read] gives for the file, if it
    can be opened. *)
Definition add_file (rootino : Z) (arg : list Z * option (list (list Z))) : M mkvars unit :=
  let '(name, file) := arg in
  if bool_decide (ch_slash ∈ name) then panic "assert"
  else
    match file with
    | None => panic "open"
    | Some chunks =>
        inum ← ialloc T_FILE;
        iappend rootino (make_dirent (strip_underscore name) (xshort inum));;
        copy_in inum chunks
    end.

(** [memmove(buf, &sb, sizeof(sb))] into a block of zeroes. *)
Definition sb_block (b : superblock) : block :=
  put32 (put32 (put32 (put32 (put32 (put32 (put32 zeroes 0 (sb_size b)) 4 (sb_nblocks b)) 8 (sb_ninodes b)) 12 (sb_nlog b))
    16 (sb_logstart b)) 20 (sb_inodestart b)) 24 (sb_bmapstart b).

Definition nmeta : Z := 2 + nlog + ninodeblocks + nbitmap.

Definition make_sb : superblock :=
  {| sb_size := xint FSSIZE; sb_nblocks := xint (FSSIZE - nmeta); sb_ninodes := xint NINODES; sb_nlog := xint nlog;
     sb_logstart := xint 2; sb_inodestart := xint (2 + nlog); sb_bmapstart := xint (2 + nlog + ninodeblocks) |}.

(** [main] from the creation of the image on. *)
Definition main (files : list (list Z * option (list (list Z)))) : M mkvars unit :=
  modify (set_msb make_sb);;
  modify (set_freeblock nmeta);;
  for_each (fun i => wsect (Z.of_nat i) zeroes) (seq 0 (Z.to_nat FSSIZE));;
  wsect 1 (sb_block make_sb);;
  rootino ← ialloc T_DIR;
  if rootino =? ROOTINO then
    iappend rootino (make_dirent (bytes_of_string ".") (xshort rootino));;
    iappend rootino (make_dirent (bytes_of_string "..") (xshort rootino));;
    for_each (add_file rootino) files;;
    din ← rinode rootino;
    let off := xint (get32 din 8) in
    let off := u32 ((off / BSIZE + 1) * BSIZE) in
    winode rootino (put32 din 8 (xint off));;
    fb ← gets freeblock;
    balloc fb
  else panic "assert".

(** The static variables when the program starts. *)
Definition start : mkvars :=
  {| img := []; freeinode := 1; freeblock := 0; msb := decode_sb zeroes |}.

End Mkfs.
