(* ===== verification/MkfsLayout.v ===== *)
(** * The writer of the image: the layout of the disk

    What the disk looks like while mkfs.c fills it: which block belongs to which file, and
    what it holds.  The steps of the program are changes of this layout. *)

From stdpp Require Import base gmap list strings.
From Stdlib Require Import ZArith Lia.
From S2P Require Import Prelude Core Bio Log LogSafety Fs FsProof Mkfs.
Import Fs FsProof Mkfs.

Module MkfsLayout.

Abbreviation byte_ok := (fun x : Z => 0 <= x < 256).

(** *** Words of structs and blocks *)

Lemma zget_byte l i : Forall byte_ok l -> 0 <= zget 0 l i < 256.
Proof.
  intros Hf. unfold zget. case_bool; [lia|]. destruct (l !! Z.to_nat i) as [x|] eqn:E; cbn; [|lia].
  rewrite Forall_forall in Hf. apply Hf. by eapply list_elem_of_lookup_2.
Qed.

Lemma get32_bytes l o : Forall byte_ok l -> 0 <= get32 l o < 2 ^ 32.
Proof.
  intros Hf. unfold get32. pose proof (zget_byte l o Hf). pose proof (zget_byte l (o + 1) Hf).
  pose proof (zget_byte l (o + 2) Hf). pose proof (zget_byte l (o + 3) Hf). lia.
Qed.

Lemma put32_bytes l o v : Forall byte_ok l -> Forall byte_ok (put32 l o v).
Proof. intros Hf. unfold put32. by repeat apply zset_Forall; try apply u8_range. Qed.
Lemma put16_bytes l o v : Forall byte_ok l -> Forall byte_ok (put16 l o v).
Proof. intros Hf. unfold put16. by repeat apply zset_Forall; try apply u8_range. Qed.

Lemma xint_small x : 0 <= x < 2 ^ 32 -> xint x = x.
Proof.
  intros Hx. unfold xint, u8. change (2 ^ 8) with 256. change (2 ^ 16) with 65536. change (2 ^ 24) with 16777216.
  change (2 ^ 32) with 4294967296 in Hx. Z.div_mod_to_equations. lia.
Qed.

Lemma zget_zeroes i : zget 0 zeroes i = 0.
Proof.
  unfold zget, zeroes. case_bool; [done|]. destruct (replicate 512 0 !! Z.to_nat i) as [x|] eqn:E; [|done].
  by apply lookup_replicate in E as [-> _].
Qed.
Lemma get32_zeroes o : get32 zeroes o = 0.
Proof. unfold get32. by rewrite !zget_zeroes. Qed.
Lemma zeroes_ok : block_ok zeroes.
Proof. split; [done|]. apply Forall_replicate. lia. Qed.

(** *** The layout *)

(** Inodes [I] and blocks [D]: block [j] of file [n], or its indirect block for [j] = -1. *)
Definition A (I : Z -> list Z) (D : Z -> block) (n j : Z) : Z :=
  if j <? 0 then get32 (I n) 60
  else if j <? 12 then get32 (I n) (12 + 4 * j)
  else get32 (D (get32 (I n) 60)) (4 * (j - 12)).

(** File [n] has [B n] blocks of data, and an indirect block if [X n]. *)
Definition valid (B : Z -> Z) (X : Z -> bool) (n j : Z) : Prop := 0 <= j < B n \/ j = -1 /\ X n = true.

(** The files are 1 to [fi] - 1 with contents [C]; the blocks from [fb] on are free and hold
    zeroes; every block before it belongs to one place of one file. *)
Record layout (I : Z -> list Z) (D : Z -> block) (fi fb : Z) (C : Z -> list Z) (B : Z -> Z) (X : Z -> bool) : Prop := {
  l_fb : 59 <= fb <= 1000;
  l_ok : forall x, 0 <= x < 1000 -> block_ok (D x);
  l_zero : forall x, fb <= x < 1000 -> D x = zeroes;
  l_ino : forall n, 0 < n < fi -> length (I n) = 64%nat /\ Forall byte_ok (I n);
  l_size : forall n, 0 < n < fi -> zlen (C n) <= 512 * B n /\ 0 <= B n <= 140 /\ (12 < B n -> X n = true);
  l_addr : forall n j, 0 < n < fi -> valid B X n j -> 59 <= A I D n j < fb;
  l_inj : forall n j n' j', 0 < n < fi -> 0 < n' < fi -> valid B X n j -> valid B X n' j' ->
    A I D n j = A I D n' j' -> n = n' /\ j = j';
  l_none : forall n j, 0 < n < fi -> -1 <= j < 140 -> ~ valid B X n j -> (12 <= j -> X n = true) -> A I D n j = 0;
  l_data : forall n p, 0 < n < fi -> 0 <= p < 512 * B n ->
    zget 0 (D (A I D n (p / 512))) (p mod 512) = zget 0 (C n) p
}.
Arguments l_fb {_ _ _ _ _ _ _} _.
Arguments l_ok {_ _ _ _ _ _ _} _.
Arguments l_zero {_ _ _ _ _ _ _} _.
Arguments l_ino {_ _ _ _ _ _ _} _.
Arguments l_size {_ _ _ _ _ _ _} _.
Arguments l_addr {_ _ _ _ _ _ _} _.
Arguments l_inj {_ _ _ _ _ _ _} _.
Arguments l_none {_ _ _ _ _ _ _} _.
Arguments l_data {_ _ _ _ _ _ _} _.

Section Layout.
Context (I : Z -> list Z) (D : Z -> block) (fi fb : Z) (C : Z -> list Z) (B : Z -> Z) (X : Z -> bool).
Hypothesis HL : layout I D fi fb C B X.

Lemma A_ext I' D' n j : I' n = I n -> (12 <= j -> D' (get32 (I n) 60) = D (get32 (I n) 60)) -> A I' D' n j = A I D n j.
Proof. intros HI HD. unfold A. rewrite HI. destruct (j <? 0); [done|]. destruct (Z.ltb_spec j 12); [done|]. by rewrite HD. Qed.

Lemma layout_ext I' D' C' B' X' : (forall n, 0 < n < fi -> I' n = I n /\ C' n = C n /\ B' n = B n /\ X' n = X n) ->
  (forall x, D' x = D x) -> layout I' D' fi fb C' B' X'.
Proof.
  intros HI HD. assert (HA : forall n j, 0 < n < fi -> A I' D' n j = A I D n j).
  { intros n j Hn. apply A_ext; [by apply HI | by rewrite HD]. }
  assert (HV : forall n j, 0 < n < fi -> valid B' X' n j <-> valid B X n j).
  { intros n j Hn. destruct (HI n Hn) as (_ & _ & EB & EX). unfold valid. by rewrite EB, EX. }
  destruct HL as [H1 H2 H3 H4 H5 H6 H7 H8 H9]. split.
  - done.
  - intros x Hx. rewrite HD. auto.
  - intros x Hx. rewrite HD. auto.
  - intros n Hn. destruct (HI n Hn) as (-> & _). auto.
  - intros n Hn. destruct (HI n Hn) as (_ & -> & -> & ->). auto.
  - intros n j Hn Hv. rewrite HA by done. apply H6; [done | by apply HV].
  - intros n j n' j' Hn Hn' Hv Hv'. rewrite !HA by done. apply H7; [done | done | by apply HV..].
  - intros n j Hn Hj Hv. rewrite HA by done. destruct (HI n Hn) as (_ & _ & _ & ->). apply H8; [done | done | by rewrite <- HV].
  - intros n p Hn. rewrite HA, HD by done. destruct (HI n Hn) as (_ & -> & -> & _). auto.
Qed.

(** A block for a place that had none. *)
Lemma layout_alloc n j I' D' B' X' : 0 < n < fi -> fb < 1000 -> -1 <= j < 140 -> ~ valid B X n j ->
  (forall n' j', valid B' X' n' j' <-> valid B X n' j' \/ n' = n /\ j' = j) ->
  (forall n, 0 < n < fi -> B n <= B' n <= 140 /\ (12 < B' n -> X' n = true)) ->
  (forall x, 0 <= x < 1000 -> block_ok (D' x)) ->
  (forall n, 0 < n < fi -> length (I' n) = 64%nat /\ Forall byte_ok (I' n)) ->
  (forall n' j', 0 < n' < fi -> valid B X n' j' -> A I' D' n' j' = A I D n' j') -> A I' D' n j = fb ->
  (forall n j, 0 < n < fi -> -1 <= j < 140 -> ~ valid B' X' n j -> (12 <= j -> X' n = true) -> A I' D' n j = 0) ->
  (forall n' j', 0 < n' < fi -> valid B X n' j' -> 0 <= j' -> D' (A I D n' j') = D (A I D n' j')) ->
  (forall x, fb <= x < 1000 -> D' x = D x) -> layout I' D' fi (fb + 1) C B' X'.
Proof.
  intros Hn Hfb Hj Hnv HV HB HD HI HA HAn H0 Hd Hf. pose proof (l_fb HL) as Hlo. pose proof (l_zero HL) as Hz.
  pose proof (l_addr HL) as Had. split.
  - lia.
  - done.
  - intros x Hx. rewrite Hf by lia. apply Hz. lia.
  - done.
  - intros m Hm. destruct (l_size HL m Hm) as (? & ? & _), (HB m Hm) as [? ?]. split_and!; [lia | lia | lia | done].
  - intros m i Hm [Hv|[-> ->]]%HV; [|rewrite HAn; lia]. rewrite HA by done. pose proof (Had m i Hm Hv). lia.
  - intros m i m' i' Hm Hm' [Hv|[-> ->]]%HV [Hv'|[-> ->]]%HV.
    + rewrite !HA by done. by apply (l_inj HL).
    + rewrite HA, HAn by done. pose proof (Had m i Hm Hv). lia.
    + rewrite (HA m' i'), HAn by done. pose proof (Had m' i' Hm' Hv'). lia.
    + done.
  - done.
  - intros m p Hm Hp. destruct (decide (p / 512 < B m)) as [Hlt|Hge].
    + assert (0 <= p / 512) by (apply Z.div_pos; lia). assert (valid B X m (p / 512)) by (left; lia).
      rewrite HA, Hd by done. apply (l_data HL); [done | Z.div_mod_to_equations; lia].
    + assert (Hv : valid B' X' m (p / 512)) by (left; Z.div_mod_to_equations; lia).
      apply HV in Hv as [[?|[? _]]|[-> Ej]]; [lia | Z.div_mod_to_equations; lia |].
      rewrite Ej, HAn, Hf, Hz, zget_zeroes by lia. symmetry. apply zget_out. right.
      destruct (l_size HL n Hm) as (? & _). Z.div_mod_to_equations. lia.
Qed.

(** [p] is written at the end of file [n]. *)
Lemma layout_fill n j o (p : list Z) : 0 < n < fi -> 0 <= j < B n -> zlen (C n) = 512 * j + Z.of_nat o -> (o + length p <= 512)%nat ->
  Forall byte_ok p -> layout I (fupd (A I D n j) (splice (D (A I D n j)) o p) D) fi fb (fupd n (C n ++ p) C) B X.
Proof.
  intros Hn Hj Hlen Ho Hp. set (x := A I D n j). assert (Hv : valid B X n j) by by left.
  pose proof (l_addr HL n j Hn Hv) as Hx. fold x in Hx. pose proof (l_fb HL) as Hlo.
  destruct (l_ok HL x ltac:(lia)) as [Hl _].
  assert (Hind : forall m, 0 < m < fi -> X m = true -> get32 (I m) 60 <> x).
  { intros m Hm HX E. destruct (l_inj HL m (-1) n j) as [_ ?]; [done | done | by right | done | done | lia]. }
  set (D' := fupd x _ D). assert (HA : forall m i, 0 < m < fi -> (12 <= i -> X m = true) -> A I D' m i = A I D m i).
  { intros m i Hm Hi. apply A_ext; [done|]. intros H12. unfold D'. apply fupd_ne. auto. }
  assert (HX : forall m i, 0 < m < fi -> valid B X m i -> 12 <= i -> X m = true).
  { intros m i Hm [Hi|[-> _]] H12; [|lia]. apply (l_size HL m Hm). lia. }
  split.
  - done.
  - intros y Hy. unfold D', fupd. case_decide; [apply splice_ok; [apply (l_ok HL); lia | done | done] | by apply (l_ok HL)].
  - intros y Hy. unfold D'. rewrite fupd_ne by lia. by apply (l_zero HL).
  - apply (l_ino HL).
  - intros m Hm. destruct (l_size HL m Hm) as (? & ? & ?). split_and!; [| lia | lia | done]. unfold fupd. case_decide as E; [|done].
    subst m. rewrite zlen_app. unfold zlen in *. lia.
  - intros m i Hm Hvi. rewrite HA by eauto. by apply (l_addr HL).
  - intros m i m' i' Hm Hm' Hvi Hvi'. rewrite !HA by eauto. by apply (l_inj HL).
  - intros m i Hm Hi Hnv H12. rewrite HA by done. by apply (l_none HL).
  - intros m q Hm Hq. assert (Hvq : valid B X m (q / 512)) by (left; Z.div_mod_to_equations; lia).
    rewrite HA by eauto. pose proof (l_data HL m q Hm Hq) as Hdata. unfold D', fupd at 1. case_decide as E.
    + destruct (l_inj HL m (q / 512) n j) as [-> Ej]; [done.. |]. rewrite fupd_eq, splice_get by lia.
      fold x. rewrite Ej in Hdata. fold x in Hdata. destruct ((Z.of_nat o <=? q mod 512) && (q mod 512 <? Z.of_nat (o + length p))) eqn:Eb; zbool.
      * replace q with (zlen (C n) + (q mod 512 - Z.of_nat o)) at 2 by (Z.div_mod_to_equations; lia).
        unfold zget, zlen. rewrite !(proj2 (Z.ltb_ge _ _)) by lia. rewrite lookup_app_r by lia. do 2 f_equal. lia.
      * rewrite Hdata. rewrite zget_app_l; [done|]. Z.div_mod_to_equations. lia.
      * rewrite Hdata. destruct (decide (q < zlen (C n))); [by rewrite zget_app_l|].
        rewrite !zget_out; [done | rewrite zlen_app; unfold zlen in *; Z.div_mod_to_equations; lia | lia].
    + destruct (decide (m = n)) as [->|Hne]; [|by rewrite fupd_ne]. rewrite fupd_eq, Hdata.
      destruct (decide (q < zlen (C n))); [by rewrite zget_app_l|]. rewrite !zget_out; [done | | lia]. right. rewrite zlen_app.
      destruct (decide (q / 512 = j)) as [Ej|Ej]; [by rewrite Ej in E|]. unfold zlen in *. Z.div_mod_to_equations. lia.
Qed.

(** *** The three kinds of places *)

Lemma valid_more n j n' j' : B n = j -> 0 <= j -> valid (fupd n (j + 1) B) X n' j' <-> valid B X n' j' \/ n' = n /\ j' = j.
Proof. intros Hb Hj. unfold valid, fupd. case_decide as E; [subst n'|]; intuition lia. Qed.

Lemma more_bounds n j m : 0 < m < fi -> B n = j -> 0 <= j < 140 -> (12 <= j -> X n = true) ->
  B m <= fupd n (j + 1) B m <= 140 /\ (12 < fupd n (j + 1) B m -> X m = true).
Proof.
  intros Hm Hb Hj HX. destruct (l_size HL m Hm) as (_ & ? & ?). unfold fupd. case_decide as E; [subst m | split; [lia | done]].
  split; [lia|]. intros. apply HX. lia.
Qed.

Lemma inode_put n o v : 0 < n < fi -> forall m, 0 < m < fi ->
  length (fupd n (put32 (I n) o v) I m) = 64%nat /\ Forall byte_ok (fupd n (put32 (I n) o v) I m).
Proof.
  intros Hn m Hm. destruct (l_ino HL m Hm), (l_ino HL n Hn). unfold fupd. case_decide; [|done].
  rewrite put32_length. split; [done | by apply put32_bytes].
Qed.

Lemma A_direct_ne n j v m i : 0 <= j < 12 -> -1 <= i -> m <> n \/ i <> j -> A (fupd n (put32 (I n) (12 + 4 * j) v) I) D m i = A I D m i.
Proof.
  intros Hj Hi Hne. destruct (decide (m = n)) as [->|Hm]; [|by apply A_ext; [apply fupd_ne|]]. unfold A. rewrite fupd_eq.
  rewrite (get32_put32_ne _ _ _ 60) by lia. destruct (i <? 0) eqn:E; [done|]. zbool. destruct (Z.ltb_spec i 12); [|done].
  by rewrite get32_put32_ne by lia.
Qed.

Lemma alloc_direct n j : 0 < n < fi -> fb < 1000 -> B n = j -> 0 <= j < 12 ->
  let I' := fupd n (put32 (I n) (12 + 4 * j) fb) I in
  A I' D n j = fb /\ layout I' D fi (fb + 1) C (fupd n (j + 1) B) X.
Proof.
  intros Hn Hfb Hb Hj I'. pose proof (l_fb HL) as Hlo. assert (HAn : A I' D n j = fb).
  { unfold A, I'. rewrite fupd_eq. replace (j <? 0) with false by lia. replace (j <? 12) with true by lia.
    destruct (l_ino HL n Hn) as [Hl _]. rewrite get32_put32_eq by (unfold zlen; lia). apply u32_small. lia. }
  split; [done|]. apply (layout_alloc n j); [done | done | lia | unfold valid; lia | | | apply HL | | | done | | done | done].
  - intros. apply valid_more; lia.
  - intros m Hm. apply more_bounds; [done.. | lia | lia].
  - by apply inode_put.
  - intros m i Hm Hv. apply A_direct_ne; [done | destruct Hv; lia |]. destruct (decide (m = n)) as [->|]; [right | by left].
    intros ->. destruct Hv; lia.
  - intros m i Hm Hi Hv H12. rewrite valid_more in Hv by lia. unfold I'. rewrite A_direct_ne by (done || lia || tauto).
    apply (l_none HL); tauto.
Qed.

Lemma alloc_indirect n : 0 < n < fi -> fb < 1000 -> X n = false ->
  let I' := fupd n (put32 (I n) 60 fb) I in
  A I' D n (-1) = fb /\ layout I' D fi (fb + 1) C B (fupd n true X).
Proof.
  intros Hn Hfb HX I'. pose proof (l_fb HL) as Hlo. destruct (l_ino HL n Hn) as [Hl _]. destruct (l_size HL n Hn) as (_ & HB & HBX).
  assert (H60 : get32 (I' n) 60 = fb).
  { unfold I'. rewrite fupd_eq, get32_put32_eq by (unfold zlen; lia). apply u32_small. lia. }
  assert (HA : forall m i, -1 <= i -> m <> n \/ 0 <= i < 12 -> A I' D m i = A I D m i).
  { intros m i Hi Hne. destruct (decide (m = n)) as [->|Hm]; [|by apply A_ext; [apply fupd_ne|]]. unfold A, I'. rewrite fupd_eq.
    replace (i <? 0) with false by lia. replace (i <? 12) with true by lia. by rewrite get32_put32_ne by lia. }
  split; [by unfold A|]. apply (layout_alloc n (-1)); [done | done | lia | | | | apply HL | | | by unfold A | | done | done].
  - unfold valid. rewrite HX. intros [?|[_ ?]]; [lia | done].
  - intros m i. unfold valid, fupd. case_decide as E; [subst m; rewrite HX|]; intuition (lia || done).
  - intros m Hm. destruct (l_size HL m Hm) as (_ & ? & ?). split; [lia|]. intros. unfold fupd. case_decide; [done | auto].
  - by apply inode_put.
  - intros m i Hm Hv. apply HA; [destruct Hv; lia|]. destruct (decide (m = n)) as [->|]; [right | by left].
    destruct Hv as [Hv|[_ Hv]]; [|by rewrite HX in Hv]. destruct (decide (12 < B n)); [by rewrite HBX in HX | lia].
  - intros m i Hm Hi Hv H12. destruct (decide (m = n)) as [->|Hne].
    + destruct (decide (i < 0)); [exfalso; apply Hv; right; rewrite fupd_eq; lia|]. destruct (decide (i < 12)).
      * rewrite HA by lia. apply (l_none HL); [done | done | | lia]. intros [?|[? _]]; [apply Hv; by left | lia].
      * unfold A. replace (i <? 0) with false by lia. replace (i <? 12) with false by lia.
        rewrite H60, (l_zero HL) by lia. apply get32_zeroes.
    + rewrite HA by (lia || by left). unfold valid in Hv. rewrite fupd_ne in Hv, H12 by done. by apply (l_none HL).
Qed.

Lemma alloc_entry n j : 0 < n < fi -> fb < 1000 -> B n = j -> 12 <= j < 140 -> X n = true ->
  let D' := fupd (A I D n (-1)) (put32 (D (A I D n (-1))) (4 * (j - 12)) fb) D in
  A I D' n j = fb /\ layout I D' fi (fb + 1) C (fupd n (j + 1) B) X.
Proof.
  intros Hn Hfb Hb Hj HX D'. pose proof (l_fb HL) as Hlo. set (x := A I D n (-1)) in *.
  assert (Hvx : valid B X n (-1)) by by right. pose proof (l_addr HL n (-1) Hn Hvx) as Hx. fold x in Hx.
  destruct (l_ok HL x ltac:(lia)) as [Hlx Hfx].
  assert (Hi60 : get32 (I n) 60 = x) by done.
  assert (HA : forall m i, 0 < m < fi -> (12 <= i -> X m = true) -> m <> n \/ i <> j -> A I D' m i = A I D m i).
  { intros m i Hm Hi Hne. unfold A. destruct (i <? 0); [done|]. destruct (Z.ltb_spec i 12); [done|].
    unfold D', fupd. case_decide as E; [|done]. destruct (l_inj HL m (-1) n (-1)) as [-> _]; [done | done | right; auto | done | exact E |].
    rewrite get32_put32_ne by lia. by rewrite E. }
  assert (HAn : A I D' n j = fb).
  { unfold A. replace (j <? 0) with false by lia. replace (j <? 12) with false by lia. rewrite Hi60. unfold D'.
    rewrite fupd_eq, get32_put32_eq by (unfold zlen; lia). apply u32_small. lia. }
  split; [done|]. apply (layout_alloc n j); [done | done | lia | unfold valid; lia | | | | apply HL | | done | | |].
  - intros. apply valid_more; lia.
  - intros m Hm. apply more_bounds; [done.. | lia | done].
  - intros y Hy. unfold D', fupd. case_decide; [apply LogSafety.block_ok_put32, (l_ok HL); lia | by apply (l_ok HL)].
  - intros m i Hm Hv. apply HA; [done | | destruct (decide (m = n)) as [->|]; [right | by left]; intros ->; destruct Hv; lia].
    intros H12. destruct Hv as [Hv|[? _]]; [|lia]. apply (l_size HL m Hm). lia.
  - intros m i Hm Hi Hv H12. rewrite valid_more in Hv by lia. rewrite HA by (done || lia). apply (l_none HL); tauto.
  - intros m i Hm Hv Hi. unfold D'. apply fupd_ne. intros E. destruct (l_inj HL m i n (-1)) as [_ ?]; [done.. | lia].
  - intros y Hy. unfold D'. apply fupd_ne. lia.
Qed.

(** *** Inodes *)

(** Changes of the head of inodes, and of blocks before the data. *)
Lemma layout_meta I' D' : (forall n, 0 < n < fi -> length (I' n) = 64%nat /\ Forall byte_ok (I' n)) ->
  (forall n o, 0 < n < fi -> 12 <= o <= 60 -> get32 (I' n) o = get32 (I n) o) ->
  (forall x, 0 <= x < 1000 -> block_ok (D' x)) -> (forall x, 59 <= x -> D' x = D x) -> layout I' D' fi fb C B X.
Proof.
  intros HI Hg Hok HD.
  assert (HA : forall n j, 0 < n < fi -> -1 <= j -> (12 <= j -> X n = true) -> A I' D' n j = A I D n j).
  { intros n j Hn Hj HX. unfold A. destruct (Z.ltb_spec j 0); [apply Hg; lia|]. destruct (Z.ltb_spec j 12); [apply Hg; lia|].
    assert (Hi : 59 <= A I D n (-1) < fb) by (apply (l_addr HL n (-1) Hn); right; auto). cbn in Hi. by rewrite Hg, HD by lia. }
  assert (HV : forall n j, 0 < n < fi -> valid B X n j -> -1 <= j /\ (12 <= j -> X n = true)).
  { intros n j Hn [Hj|[-> HX]]; [|lia]. split; [lia|]. intros. apply (l_size HL n Hn). lia. }
  assert (HAv : forall n j, 0 < n < fi -> valid B X n j -> A I' D' n j = A I D n j).
  { intros n j Hn Hv. apply HA; [done | by apply (HV n j)..]. }
  destruct HL as [H1 H2 H3 H4 H5 H6 H7 H8 H9]. split; [done | done | | done | done | | | |].
  - intros x Hx. rewrite HD by lia. auto.
  - intros n j Hn Hv. rewrite HAv by done. auto.
  - intros n j n' j' Hn Hn' Hv Hv'. rewrite !HAv by done. auto.
  - intros n j Hn Hj Hv HX. rewrite HA by (done || lia). auto.
  - intros n p Hn Hp. assert (Hv : valid B X n (p / 512)) by (left; Z.div_mod_to_equations; lia). rewrite HAv by done.
    rewrite HD; [auto|]. by apply H6.
Qed.

(** A new empty file. *)
Lemma layout_new I' C' B' X' : (forall n, 0 < n < fi -> I' n = I n /\ C' n = C n /\ B' n = B n /\ X' n = X n) ->
  length (I' fi) = 64%nat -> Forall byte_ok (I' fi) -> (forall o, 12 <= o <= 60 -> get32 (I' fi) o = 0) ->
  C' fi = [] -> B' fi = 0 -> X' fi = false -> layout I' D (fi + 1) fb C' B' X'.
Proof.
  intros HI Hl Hf H0 EC EB EX. pose proof (layout_ext I' D C' B' X' HI ltac:(done)) as HL'. clear HL HI.
  assert (Hcase : forall n, 0 < n < fi + 1 -> 0 < n < fi \/ n = fi) by lia.
  assert (Hnv : forall j, ~ valid B' X' fi j) by (intros j [?|[_ ?]]; [lia | congruence]).
  destruct HL' as [H1 H2 H3 H4 H5 H6 H7 H8 H9]. split; [done | done | done | | | | | |].
  - intros n [?| ->]%Hcase; auto.
  - intros n [?| ->]%Hcase; [auto|]. rewrite EC, EB. split_and!; [done | lia | lia | lia].
  - intros n j [?| ->]%Hcase Hv; [auto | by apply Hnv in Hv].
  - intros n j n' j' [?| ->]%Hcase [?| ->]%Hcase Hv Hv'; [auto | by apply Hnv in Hv' | by apply Hnv in Hv..].
  - intros n j [?| ->]%Hcase Hj Hv HX; [auto|]. rewrite EX in HX. unfold A. destruct (Z.ltb_spec j 0); [apply H0; lia|].
    destruct (Z.ltb_spec j 12); [apply H0; lia|]. by discriminate HX.
  - intros n p [?| ->]%Hcase Hp; [auto | lia].
Qed.

End Layout.
End MkfsLayout.
