(* ===== verification/MkfsProof.v ===== *)
(** * The writer of the image: its operations

    Each operation of mkfs.c changes the layout of the disk as it should. *)

From stdpp Require Import base gmap list strings.
From Stdlib Require Import ZArith Lia.
From S2P Require Import Prelude Core Bio Log Fs FsProof Mkfs MkfsLayout.
Import Fs FsProof Mkfs MkfsLayout.

Module MkfsProof.

(** *** Blocks of the image *)

Definition blk (d : list block) (x : Z) : block := zget zeroes d x.

Lemma sector_small x : 0 <= x < 1000 -> sector x = Z.to_nat x.
Proof. intros Hx. unfold sector, BSIZE. rewrite u32_small by lia. f_equal. Z.div_mod_to_equations. lia. Qed.

Lemma blk_zset d x b y : length d = 1000%nat -> 0 <= x < 1000 -> blk (zset d x b) y = fupd x b (blk d) y.
Proof.
  intros Hl Hx. unfold blk, fupd. case_decide as E; [subst y; apply zget_zset_eq; unfold zlen; lia | by apply zget_zset_ne].
Qed.

Lemma wp_rsect s x (Q : block -> mkvars -> Prop) : length (img s) = 1000%nat -> 0 <= x < 1000 ->
  Q (blk (img s) x) s -> wp (rsect x) s Q.
Proof.
  intros Hl Hx HQ. unfold rsect. wp_step. rewrite sector_small by done. unfold blk, zget in HQ.
  rewrite (proj2 (Z.ltb_ge x 0)) in HQ by lia. destruct (lookup_lt_is_Some_2 (img s) (Z.to_nat x)) as [b E]; [lia|].
  rewrite E in *. by wp_step.
Qed.

Lemma wp_wsect s x b (Q : unit -> mkvars -> Prop) : length (img s) = 1000%nat -> 0 <= x < 1000 ->
  Q tt (set_img (zset (img s) x b) s) -> wp (wsect x b) s Q.
Proof.
  intros Hl Hx HQ. unfold wsect. wp_step. rewrite sector_small by done. unfold write_at, zset in *.
  rewrite (proj2 (Z.ltb_ge x 0)) in HQ by lia. by rewrite (proj2 (Nat.ltb_lt _ _)) by lia.
Qed.

(** *** Inodes *)

Definition din_at (D : Z -> block) (n : Z) : list Z := take 64 (drop (Z.to_nat (dinode_off n)) (D (n / 8 + 32))).

Lemma dinode_off_mod n : dinode_off n = 64 * (n mod 8).
Proof. done. Qed.

Lemma IBLOCK_sb n : IBLOCK n make_sb = n / 8 + 32.
Proof. done. Qed.

Lemma zget_din D n i : length (D (n / 8 + 32)) = 512%nat -> 0 <= i < 64 ->
  zget 0 (din_at D n) i = zget 0 (D (n / 8 + 32)) (dinode_off n + i).
Proof.
  intros Hl Hi. unfold din_at. pose proof (Z.mod_pos_bound n 8 ltac:(lia)). rewrite dinode_off_mod. unfold zget.
  rewrite !(proj2 (Z.ltb_ge _ _)) by lia. rewrite lookup_take_lt, lookup_drop by lia. do 2 f_equal. lia.
Qed.

Lemma din_length D n : length (D (n / 8 + 32)) = 512%nat -> length (din_at D n) = 64%nat.
Proof.
  intros Hl. unfold din_at. pose proof (Z.mod_pos_bound n 8 ltac:(lia)). rewrite dinode_off_mod, length_take, length_drop. lia.
Qed.

Lemma din_bytes D n : block_ok (D (n / 8 + 32)) -> Forall byte_ok (din_at D n).
Proof. intros [_ Hf]. unfold din_at. by apply Forall_take, Forall_drop. Qed.

Lemma get32_din D n o : length (D (n / 8 + 32)) = 512%nat -> 0 <= o <= 60 ->
  get32 (din_at D n) o = get32 (D (n / 8 + 32)) (dinode_off n + o).
Proof. intros Hl Ho. unfold get32. rewrite !zget_din by (done || lia). by rewrite !Z.add_assoc. Qed.
Lemma get16_din D n o : length (D (n / 8 + 32)) = 512%nat -> 0 <= o <= 60 ->
  get16 (din_at D n) o = get16 (D (n / 8 + 32)) (dinode_off n + o).
Proof. intros Hl Ho. unfold get16. rewrite !zget_din by (done || lia). by rewrite !Z.add_assoc. Qed.

Lemma din_ext D D' n : D' (n / 8 + 32) = D (n / 8 + 32) -> din_at D' n = din_at D n.
Proof. intros E. unfold din_at. by rewrite E. Qed.

(** The disk with inode [n] replaced by [ip]. *)
Definition put_din (D : Z -> block) (n : Z) (ip : list Z) : Z -> block :=
  fupd (n / 8 + 32) (splice (D (n / 8 + 32)) (Z.to_nat (dinode_off n)) ip) D.

Lemma put_din_eq D n ip : length (D (n / 8 + 32)) = 512%nat -> length ip = 64%nat -> din_at (put_din D n ip) n = ip.
Proof.
  intros Hl Hi. pose proof (Z.mod_pos_bound n 8 ltac:(lia)). unfold din_at, put_din. rewrite fupd_eq. unfold splice.
  rewrite drop_app_length' by (rewrite length_take, dinode_off_mod; lia). by apply take_app_length'.
Qed.

Lemma put_din_ne D n ip m : length (D (n / 8 + 32)) = 512%nat -> length (D (m / 8 + 32)) = 512%nat -> length ip = 64%nat ->
  m <> n -> din_at (put_din D n ip) m = din_at D m.
Proof.
  intros Hl Hlm Hi Hne. destruct (decide (m / 8 = n / 8)) as [E|E]; [|apply din_ext; unfold put_din; apply fupd_ne; lia].
  pose proof (Z.mod_pos_bound n 8 ltac:(lia)). pose proof (Z.mod_pos_bound m 8 ltac:(lia)).
  assert (m mod 8 <> n mod 8) by (Z.div_mod_to_equations; lia).
  assert (Hs : length (put_din D n ip (m / 8 + 32)) = 512%nat).
  { unfold put_din. rewrite E, fupd_eq. rewrite splice_length; [done|]. rewrite dinode_off_mod. lia. }
  apply (list_eq_zget 0); [by unfold zlen; rewrite !din_length|]. intros i Hi'. unfold zlen in Hi'. rewrite din_length in Hi' by done.
  rewrite !zget_din by (done || lia). unfold put_din. rewrite E, fupd_eq, splice_get by (rewrite dinode_off_mod; lia).
  rewrite !dinode_off_mod, Hi. case_match eqn:Eb; [|done]. zbool. lia.
Qed.

Lemma wp_rinode s n (Q : list Z -> mkvars -> Prop) : length (img s) = 1000%nat -> msb s = make_sb -> 0 < n < 200 ->
  Q (din_at (blk (img s)) n) s -> wp (rinode n) s Q.
Proof.
  intros Hl Hsb Hn HQ. unfold rinode. wp_step. rewrite Hsb, IBLOCK_sb.
  apply wp_rsect; [done | Z.div_mod_to_equations; lia |]. by wp_step.
Qed.

Lemma wp_winode s n ip (Q : unit -> mkvars -> Prop) : length (img s) = 1000%nat -> msb s = make_sb -> 0 < n < 200 ->
  (forall d, length d = 1000%nat -> (forall x, blk d x = put_din (blk (img s)) n ip x) -> Q tt (set_img d s)) ->
  wp (winode n ip) s Q.
Proof.
  intros Hl Hsb Hn HQ. assert (0 <= n / 8 + 32 < 1000) by (Z.div_mod_to_equations; lia).
  unfold winode. wp_step. rewrite Hsb, IBLOCK_sb. apply wp_rsect; [done | done |].
  apply wp_wsect; [done | done |]. apply HQ; [by rewrite zset_length|]. intros x. by apply blk_zset.
Qed.

(** *** The block for the next bytes *)

Section Append.
Context (n fi : Z) (C : Z -> list Z) (Hn : 0 < n < fi) (Hfi : fi <= 200).

(** The layout of the disk with inode [n] still in the variable [din]. *)
Definition pending (s : mkvars) (din : list Z) (B : Z -> Z) (X : Z -> bool) : Prop :=
  length (img s) = 1000%nat /\
  layout (fupd n din (din_at (blk (img s)))) (blk (img s)) fi (freeblock s) C B X.
Definition place (s : mkvars) (din : list Z) (j : Z) : Z :=
  A (fupd n din (din_at (blk (img s)))) (blk (img s)) n j.

(** What the loop leaves alone: the blocks before the data, and the head of the inode. *)
Definition same_head (s s' : mkvars) (din din' : list Z) : Prop :=
  freeinode s' = freeinode s /\ msb s' = msb s /\ (forall x, x < 59 -> blk (img s') x = blk (img s) x) /\
  forall o, o < 12 -> zget 0 din' o = zget 0 din o.

Lemma same_head_refl s din : same_head s s din din.
Proof. by split_and!. Qed.
Lemma same_head_trans s1 s2 s3 d1 d2 d3 : same_head s1 s2 d1 d2 -> same_head s2 s3 d2 d3 -> same_head s1 s3 d1 d3.
Proof.
  intros (H1 & H2 & H3 & H4) (H5 & H6 & H7 & H8). split_and!; [congruence | congruence | |].
  - intros x Hx. by rewrite H7, H3.
  - intros o Ho. by rewrite H8, H4.
Qed.
Lemma same_head_alloc s din o v fb : 12 <= o -> same_head s (set_freeblock fb s) din (put32 din o v).
Proof. intros Ho. split_and!; [done.. |]. intros i Hi. apply zget_put32_ne. lia. Qed.

Lemma pending_din s din B X : pending s din B X -> length din = 64%nat /\ Forall byte_ok din.
Proof. intros [_ HL]. pose proof (l_ino HL n Hn) as H. by rewrite fupd_eq in H. Qed.

Lemma pending_ext s' din' B X I D : length (img s') = 1000%nat ->
  layout I D fi (freeblock s') C B X -> (forall m, 0 < m < fi -> I m = fupd n din' (din_at (blk (img s'))) m) ->
  (forall x, blk (img s') x = D x) -> pending s' din' B X.
Proof. intros Hl HL HI HD. split; [done|]. eapply layout_ext; [exact HL | | done]. intros m Hm. by rewrite HI. Qed.

Lemma place_direct s din j : 0 <= j < 12 -> place s din j = d_addr din j.
Proof.
  intros Hj. unfold place, A. rewrite fupd_eq. replace (j <? 0) with false by lia. by replace (j <? 12) with true by lia.
Qed.
Lemma place_indirect s din : place s din (-1) = d_addr din NDIRECT.
Proof. unfold place, A. by rewrite fupd_eq. Qed.
Lemma place_entry s din j : 12 <= j -> place s din j = get32 (blk (img s) (place s din (-1))) (4 * (j - 12)).
Proof.
  intros Hj. rewrite place_indirect. unfold place, A. rewrite fupd_eq. replace (j <? 0) with false by lia.
  by replace (j <? 12) with false by lia.
Qed.

Lemma place_range s din B X j : pending s din B X -> valid B X n j -> 59 <= place s din j < freeblock s /\ freeblock s <= 1000.
Proof. intros [_ HL] Hv. split; [exact (l_addr HL n j Hn Hv) | apply HL]. Qed.

Lemma d_addr_small s din B X j : pending s din B X -> xint (d_addr din j) = d_addr din j.
Proof. intros HP. apply xint_small, get32_bytes. by destruct (pending_din _ _ _ _ HP). Qed.

Lemma wp_newblock s (Q : Z -> mkvars -> Prop) : 0 <= freeblock s < 1000 ->
  Q (freeblock s) (set_freeblock (freeblock s + 1) s) -> wp newblock s Q.
Proof. intros Hfb HQ. unfold newblock. wp_step. by rewrite u32_small by lia. Qed.

(** The blocks of file [n] when block [j] is there. *)
Definition more (j : Z) (B : Z -> Z) : Z -> Z := fupd n (Z.max (j + 1) (B n)) B.

Lemma pending_more s din B X j : pending s din B X -> j < B n -> pending s din (more j B) X.
Proof.
  intros [Hl HL] Hj. split; [done|]. eapply layout_ext; [exact HL | | done]. intros m Hm. split_and!; [done | done | | done].
  unfold more, fupd. case_decide; [subst|]; lia.
Qed.

Lemma more_next j B : B n = j -> more j B = fupd n (j + 1) B.
Proof. intros E. unfold more. f_equal. lia. Qed.

Lemma wp_direct s din B X j (Q : list Z -> mkvars -> Prop) : pending s din B X -> 0 <= j < 12 ->
  j < B n \/ B n = j /\ freeblock s < 1000 ->
  (forall din' s', pending s' din' (more j B) X -> same_head s s' din din' ->
     freeblock s' = freeblock s + (if j <? B n then 0 else 1) -> Q din' s') ->
  wp (if xint (d_addr din j) =? 0 then fb ← newblock; mret (set_d_addr din j (xint fb)) else mret din) s Q.
Proof.
  intros HP Hj HB HQ. rewrite (d_addr_small _ _ _ _ _ HP). rewrite <- (place_direct s) by done. pose proof HP as [Hl HL].
  pose proof (l_fb HL). destruct HB as [HB|[HB Hfb]].
  - destruct (place_range _ _ _ _ j HP) as [? _]; [left; lia|]. rewrite (proj2 (Z.eqb_neq _ _)) by lia. wp_step.
    apply HQ; [by apply pending_more | apply same_head_refl |]. rewrite (proj2 (Z.ltb_lt _ _)) by lia. lia.
  - unfold place at 1. rewrite (l_none HL n j) by (done || lia || unfold valid; lia). rewrite Z.eqb_refl. wp_step.
    apply wp_newblock; [lia|]. wp_step. rewrite xint_small by lia. destruct (alloc_direct _ _ _ _ _ _ _ HL n j) as [_ HL']; [done.. |].
    apply HQ; [| apply same_head_alloc; lia | rewrite (proj2 (Z.ltb_ge _ _)) by lia; done].
    rewrite more_next by done. eapply pending_ext; [done | exact HL' | | done]. intros m Hm. rewrite fupd_eq.
    unfold fupd. by case_decide.
Qed.

Lemma wp_indirect s din B X (Q : list Z -> mkvars -> Prop) : pending s din B X ->
  X n = true \/ freeblock s < 1000 ->
  (forall din' s', pending s' din' B (fupd n true X) -> same_head s s' din din' ->
     freeblock s' = freeblock s + (if X n then 0 else 1) -> (X n = false -> B n <= 12) -> Q din' s') ->
  wp (if xint (d_addr din NDIRECT) =? 0 then fb ← newblock; mret (set_d_addr din NDIRECT (xint fb)) else mret din) s Q.
Proof.
  intros HP HX HQ. rewrite (d_addr_small _ _ _ _ _ HP). rewrite <- (place_indirect s). pose proof HP as [Hl HL].
  pose proof (l_fb HL). destruct (l_size HL n Hn) as (_ & HB & HBX). destruct (X n) eqn:E.
  - destruct (place_range _ _ _ _ (-1) HP) as [? _]; [by right|]. rewrite (proj2 (Z.eqb_neq _ _)) by lia. wp_step.
    apply HQ; [| apply same_head_refl | lia | done]. split; [done|]. eapply layout_ext; [exact HL | | done].
    intros m Hm. split_and!; [done.. |]. unfold fupd. case_decide; [by subst | done].
  - destruct HX as [?|Hfb]; [done|]. unfold place. rewrite (l_none HL n (-1)); [| done | lia | | lia].
    2: { intros [?|[_ ?]]; [lia | congruence]. }
    rewrite Z.eqb_refl. wp_step.
    apply wp_newblock; [lia|]. wp_step. rewrite xint_small by lia. destruct (alloc_indirect _ _ _ _ _ _ _ HL n) as [_ HL']; [done.. |].
    apply HQ; [| apply same_head_alloc; done | done |].
    + eapply pending_ext; [done | exact HL' | | done]. intros m Hm. rewrite fupd_eq. unfold fupd. by case_decide.
    + intros _. destruct (decide (12 < B n)) as [Hgt|]; [specialize (HBX Hgt); congruence | lia].
Qed.

Lemma wp_entry s din B X j (Q : list Z -> mkvars -> Prop) : pending s din B X -> X n = true -> 12 <= j < 140 ->
  j < B n \/ B n = j /\ freeblock s < 1000 ->
  (forall s' ind, pending s' din (more j B) X -> same_head s s' din din -> get32 ind (4 * (j - 12)) = place s' din j ->
     freeblock s' = freeblock s + (if j <? B n then 0 else 1) -> Q ind s') ->
  wp (if get32 (blk (img s) (place s din (-1))) (4 * (j - 12)) =? 0 then
        fb ← newblock;
        let indirect := put32 (blk (img s) (place s din (-1))) (4 * (j - 12)) (xint fb) in
        wsect (place s din (-1)) indirect;; mret indirect
      else mret (blk (img s) (place s din (-1)))) s Q.
Proof.
  intros HP HX Hj HB HQ. rewrite <- place_entry by lia. pose proof HP as [Hl HL]. pose proof (l_fb HL).
  destruct (place_range _ _ _ _ (-1) HP) as [Hx _]; [by right|]. destruct HB as [HB|[HB Hfb]].
  - destruct (place_range _ _ _ _ j HP) as [? _]; [by left; lia|]. rewrite (proj2 (Z.eqb_neq _ _)) by lia. wp_step.
    apply HQ; [by apply pending_more | apply same_head_refl | by rewrite <- place_entry by lia |].
    rewrite (proj2 (Z.ltb_lt _ _)) by lia. lia.
  - unfold place at 1. rewrite (l_none HL n j) by (done || lia || unfold valid; lia). rewrite Z.eqb_refl. wp_step.
    apply wp_newblock; [lia|]. cbv zeta. wp_step. rewrite xint_small by lia.
    destruct (alloc_entry _ _ _ _ _ _ _ HL n j) as [HA HL']; [done.. |]. fold (place s din (-1)) in *.
    set (x := place s din (-1)) in *. apply wp_wsect; [done | lia |]. wp_step.
    assert (HD : forall y, blk (zset (img s) x (put32 (blk (img s) x) (4 * (j - 12)) (freeblock s))) y =
      fupd x (put32 (blk (img s) x) (4 * (j - 12)) (freeblock s)) (blk (img s)) y) by (intros y; apply blk_zset; [done | lia]).
    assert (HI : forall m, 0 < m < fi -> fupd n din (din_at (blk (img s))) m =
      fupd n din (din_at (blk (zset (img s) x (put32 (blk (img s) x) (4 * (j - 12)) (freeblock s))))) m).
    { intros m Hm. unfold fupd at 1 2. case_decide; [done|]. symmetry. apply din_ext. rewrite HD. apply fupd_ne.
      Z.div_mod_to_equations. lia. }
    apply HQ; [| | | rewrite (proj2 (Z.ltb_ge _ _)) by lia; done].
    + rewrite more_next by done. eapply pending_ext; [by cbn; rewrite zset_length | exact HL' | exact HI | exact HD].
    + split_and!; [done | done | | done]. intros y Hy. cbn [img set_img set_freeblock]. rewrite HD. apply fupd_ne. lia.
    + rewrite place_entry, place_indirect, <- (place_indirect s) by lia. fold x. cbn [img set_img set_freeblock].
      by rewrite HD, fupd_eq.
Qed.

(** The blocks that [iappend_block] takes. *)
Definition cost (j b : Z) : Z := if j <? b then 0 else if j =? 12 then 2 else 1.

Lemma wp_iappend_block s din B X j (Q : list Z * Z -> mkvars -> Prop) : pending s din B X -> X n = (12 <? B n) ->
  0 <= j < 140 -> B n = j \/ B n = j + 1 -> freeblock s + cost j (B n) <= 1000 ->
  (forall din' s', pending s' din' (fupd n (j + 1) B) (fupd n (12 <? j + 1) X) -> same_head s s' din din' ->
     freeblock s' = freeblock s + cost j (B n) -> Q (din', place s' din' j) s') ->
  wp (iappend_block din j) s Q.
Proof.
  intros HP HX Hj HB Hc HQ. unfold iappend_block, cost in *. assert (Em : more j B = fupd n (j + 1) B) by (unfold more; f_equal; lia).
  destruct (Z.ltb_spec j NDIRECT) as [H12|H12]; unfold NDIRECT in H12; wp_step.
  - eapply wp_direct; [exact HP | lia | destruct (Z.ltb_spec j (B n)), (Z.eqb_spec j 12); lia |]. rewrite Em.
    intros din' s' HP' Hsh Hfb. wp_step. rewrite (d_addr_small _ _ _ _ _ HP'), <- (place_direct s') by lia.
    apply HQ; [| done | rewrite Hfb; destruct (j <? B n); [done|]; destruct (Z.eqb_spec j 12); lia].
    destruct HP' as [Hl HL]. split; [done|]. eapply layout_ext; [exact HL | | done]. intros m Hm. split_and!; [done.. |].
    unfold fupd. case_decide; [subst; rewrite HX|done]. destruct (Z.ltb_spec 12 (j + 1)), (Z.ltb_spec 12 (B n)); lia || done.
  - eapply wp_indirect; [exact HP | rewrite HX; destruct (Z.ltb_spec 12 (B n)), (Z.ltb_spec j (B n)), (Z.eqb_spec j 12); (by left) || lia |].
    intros din1 s1 HP1 Hsh1 Hfb1 Hle. wp_step. rewrite (d_addr_small _ _ _ _ _ HP1), <- (place_indirect s1).
    destruct (place_range _ _ _ _ (-1) HP1) as [Hr ?]; [right; by rewrite fupd_eq|]. pose proof HP1 as [Hl1 _].
    apply wp_rsect; [done | lia |]. wp_step. change (j - NDIRECT) with (j - 12).
    eapply wp_entry; [exact HP1 | by rewrite fupd_eq | lia | |].
    { rewrite HX in Hfb1. destruct (Z.ltb_spec j (B n)), (Z.eqb_spec j 12), (Z.ltb_spec 12 (B n)); lia. }
    rewrite Em. intros s' ind HP' Hsh2 Hi Hfb2. wp_step. rewrite Hi, xint_small.
    + apply HQ; [| by eapply same_head_trans | rewrite Hfb2, Hfb1, HX]. { by replace (12 <? j + 1) with true by lia. }
      destruct (Z.ltb_spec j (B n)), (Z.eqb_spec j 12), (Z.ltb_spec 12 (B n)); lia.
    + destruct (place_range _ _ _ _ j HP') as [? ?]; [left; rewrite fupd_eq; lia | lia].
Qed.

End Append.

(** *** Appending *)

Definition Bof (C : Z -> list Z) (n : Z) : Z := nblocks (zlen (C n)).
Definition Xof (C : Z -> list Z) (n : Z) : bool := 12 <? Bof C n.

(** The blocks that a file of [len] bytes takes. *)
Definition slots (len : Z) : Z := nblocks len + if 12 <? nblocks len then 1 else 0.

Lemma nblocks_mono a b : a <= b -> nblocks a <= nblocks b.
Proof. intros. unfold nblocks, BSIZE. apply Z.div_le_mono; lia. Qed.
Lemma slots_mono a b : a <= b -> slots a <= slots b.
Proof. intros H%nblocks_mono. unfold slots. destruct (Z.ltb_spec 12 (nblocks a)), (Z.ltb_spec 12 (nblocks b)); lia. Qed.

Lemma nblocks_at off : 0 <= off -> nblocks off = off / 512 \/ nblocks off = off / 512 + 1.
Proof. intros. unfold nblocks, BSIZE. Z.div_mod_to_equations. lia. Qed.

(** One round of the loop fills block [off / 512] up to [off + m]. *)
Lemma round_blocks off m : 0 <= off -> 0 < m <= (off / 512 + 1) * 512 - off ->
  nblocks (off + m) = off / 512 + 1 /\ slots (off + m) = slots off + cost (off / 512) (nblocks off).
Proof.
  intros Ho Hm. assert (E : nblocks (off + m) = off / 512 + 1) by (unfold nblocks, BSIZE; Z.div_mod_to_equations; lia).
  split; [done|]. unfold slots, cost. rewrite E. destruct (nblocks_at off Ho) as [->| ->].
  - rewrite Z.ltb_irrefl. destruct (Z.eqb_spec (off / 512) 12) as [->|]; [done|].
    destruct (Z.ltb_spec 12 (off / 512 + 1)), (Z.ltb_spec 12 (off / 512)); lia.
  - rewrite (proj2 (Z.ltb_lt (off / 512) (off / 512 + 1))) by lia. lia.
Qed.

Lemma pending_C n fi C C' s din B B' X X' : pending n fi C s din B X ->
  (forall m, 0 < m < fi -> C' m = C m /\ B' m = B m /\ X' m = X m) -> pending n fi C' s din B' X'.
Proof. intros [Hl HL] HC. split; [done|]. eapply layout_ext; [exact HL | | done]. intros m Hm. split; [done | by apply HC]. Qed.

(** The bytes [p] are stored in the block that holds the end of the file. *)
Lemma pending_fill n fi C s din B X j o p : 0 < n < fi -> fi <= 200 -> pending n fi C s din B X -> 0 <= j < B n ->
  zlen (C n) = 512 * j + Z.of_nat o -> (o + length p <= 512)%nat -> Forall byte_ok p ->
  let x := place n s din j in let s' := set_img (zset (img s) x (splice (blk (img s) x) o p)) s in
  pending n fi (fupd n (C n ++ p) C) s' din B X /\ same_head s s' din din.
Proof.
  intros Hn Hfi HP Hj Hlen Ho Hp x s'. destruct (place_range n fi C Hn s din B X j HP) as [Hx ?]; [by left|]. fold x in Hx.
  destruct HP as [Hl HL]. pose proof (layout_fill _ _ _ _ _ _ _ HL n j o p Hn Hj Hlen Ho Hp) as HL'. fold (place n s din j) x in HL'.
  assert (HD : forall y, blk (img s') y = fupd x (splice (blk (img s) x) o p) (blk (img s)) y) by (intros y; apply blk_zset; [done | lia]).
  split; [|split_and!; [done | done | | done]; intros y Hy; rewrite HD; apply fupd_ne; lia].
  split; [by cbn; rewrite zset_length|]. eapply layout_ext; [exact HL' | | exact HD]. intros m Hm. split_and!; [| done..].
  unfold fupd. case_decide; [done|]. apply din_ext. rewrite HD. apply fupd_ne. Z.div_mod_to_equations. lia.
Qed.

Lemma wp_iappend_loop n fi fuel : 0 < n < fi -> fi <= 200 -> forall p C s din (Q : list Z * Z -> mkvars -> Prop),
  pending n fi C s din (Bof C) (Xof C) -> Forall byte_ok p -> zlen (C n) + zlen p <= 140 * 512 ->
  freeblock s + slots (zlen (C n) + zlen p) - slots (zlen (C n)) <= 1000 -> (length p < fuel)%nat ->
  (forall din' s', pending n fi (fupd n (C n ++ p) C) s' din' (Bof (fupd n (C n ++ p) C)) (Xof (fupd n (C n ++ p) C)) ->
     same_head s s' din din' -> freeblock s' = freeblock s + slots (zlen (C n) + zlen p) - slots (zlen (C n)) ->
     Q (din', zlen (C n) + zlen p) s') ->
  wp (iappend_loop fuel din (zlen (C n)) p) s Q.
Proof.
  intros Hn Hfi. induction fuel as [|fuel IH]; intros p C s din Q HP Hp Hmax Hfb Hf HQ; [lia|]. cbn [iappend_loop].
  pose proof (zlen_nonneg (C n)) as Hoff. set (off := zlen (C n)) in *. destruct (Z.ltb_spec 0 (zlen p)) as [Hlp|Hlp].
  2: { destruct p; [|unfold zlen in Hlp; cbn in Hlp; lia]. wp_step. change (zlen []) with 0 in HQ. rewrite Z.add_0_r in HQ. apply HQ; [| apply same_head_refl | lia].
       eapply pending_C; [exact HP|]. intros m _. assert (E : fupd n (C n ++ []) C m = C m) by (rewrite app_nil_r; apply fupd_same).
       unfold Xof, Bof. by rewrite E. }
  change (off / BSIZE) with (off / 512). change BSIZE with 512. set (j := off / 512) in *. set (m := Z.min (zlen p) ((j + 1) * 512 - off)).
  assert (Hj : 0 <= j < 140) by (unfold j; Z.div_mod_to_equations; lia).
  assert (Hm : 0 < m <= (j + 1) * 512 - off /\ m <= zlen p) by (unfold m, j; Z.div_mod_to_equations; lia).
  destruct (round_blocks off m Hoff) as [Enb Esl]; [fold j; lia|]. fold j in Enb, Esl.
  assert (Hmono : slots (off + m) <= slots (off + zlen p)) by (apply slots_mono; lia).
  change (j <? MAXFILE) with (j <? 140). rewrite (proj2 (Z.ltb_lt j 140)) by lia. wp_step.
  eapply (wp_iappend_block n fi C Hn Hfi); [exact HP | done | done | by apply nblocks_at | unfold Bof; fold off; lia |].
  intros din1 s1 HP1 Hsh1 Hfb1. destruct (place_range n fi C Hn _ _ _ _ j HP1) as [Hr ?]; [left; rewrite fupd_eq; lia|].
  pose proof HP1 as [Hl1 _]. wp_step. apply wp_rsect; [done | lia |]. wp_step. apply wp_wsect; [done | lia |].
  set (p1 := take (Z.to_nat m) p). assert (Hl : length p1 = Z.to_nat m) by (unfold p1; rewrite length_take; unfold zlen in *; lia).
  destruct (pending_fill n fi C s1 din1 _ _ j (Z.to_nat (off - j * 512)) p1 Hn Hfi HP1) as [HP2 Hsh2];
    [rewrite fupd_eq; lia | unfold j; Z.div_mod_to_equations; lia | unfold j in *; Z.div_mod_to_equations; lia | by apply Forall_take |].
  set (s2 := set_img _ s1) in *. set (C' := fupd n (C n ++ p1) C) in *.
  assert (Hoff' : zlen (C' n) = off + m) by (unfold C'; rewrite fupd_eq, zlen_app; unfold zlen at 2; lia).
  rewrite u32_small, <- Hoff' by lia.
  assert (Hrest : zlen (drop (Z.to_nat m) p) = zlen p - m) by (unfold zlen in *; rewrite length_drop; lia).
  apply IH.
  - eapply pending_C; [exact HP2|]. intros k Hk. unfold Xof, Bof. split; [done|]. destruct (decide (k = n)) as [->|Hne].
    + by rewrite !fupd_eq, Hoff', Enb.
    + unfold C'. by rewrite !fupd_ne by done.
  - by apply Forall_drop.
  - lia.
  - rewrite Hoff', Hrest. replace (off + m + (zlen p - m)) with (off + zlen p) by lia. change (freeblock s2) with (freeblock s1).
    rewrite Hfb1. unfold Bof. fold off. lia.
  - unfold zlen in *. lia.
  - intros din' s' HP' Hsh' Hfb'. rewrite Hoff', Hrest in *. replace (off + m + (zlen p - m)) with (off + zlen p) in * by lia.
    apply HQ; [| by eapply same_head_trans; [|eapply same_head_trans] | change (freeblock s2) with (freeblock s1) in Hfb'; unfold Bof in Hfb1; fold off in Hfb1; lia].
    eapply pending_C; [exact HP'|]. intros k Hk. assert (E : fupd n (C' n ++ drop (Z.to_nat m) p) C' k = fupd n (C n ++ p) C k).
    { unfold C', fupd. case_decide; [|done]. rewrite decide_True by done. unfold p1. by rewrite <- app_assoc, take_drop. }
    unfold Xof, Bof. by rewrite E.
Qed.

(** *** The state between two operations *)

Definition good (s : mkvars) (C : Z -> list Z) (Ty : Z -> Z) : Prop :=
  let D := blk (img s) in
  length (img s) = 1000%nat /\ msb s = make_sb /\ 0 < freeinode s <= 200 /\
  layout (din_at D) D (freeinode s) (freeblock s) C (Bof C) (Xof C) /\
  (forall n, 0 < n < freeinode s -> get32 (din_at D n) 8 = zlen (C n) /\ get16 (din_at D n) 0 = Ty n /\ get16 (din_at D n) 6 = 1) /\
  (forall n, freeinode s <= n < 200 -> din_at D n = replicate 64 0) /\
  (forall x, 0 <= x < 32 -> D x = if x =? 1 then sb_block make_sb else zeroes).

Lemma put_din_ok D n ip : 0 < n < 200 -> (forall x, 0 <= x < 1000 -> block_ok (D x)) -> length ip = 64%nat -> Forall byte_ok ip ->
  forall x, 0 <= x < 1000 -> block_ok (put_din D n ip x).
Proof.
  intros Hn HD Hl Hf x Hx. unfold put_din, fupd. case_decide; [|auto]. pose proof (Z.mod_pos_bound n 8 ltac:(lia)).
  apply splice_ok; [apply HD; Z.div_mod_to_equations; lia | done | rewrite dinode_off_mod; lia].
Qed.

Lemma put_din_data D n ip x : 0 < n < 200 -> 59 <= x \/ 0 <= x < 32 -> put_din D n ip x = D x.
Proof. intros Hn Hx. unfold put_din. apply fupd_ne. Z.div_mod_to_equations. lia. Qed.

Lemma wp_iappend s C Ty n xp (Q : unit -> mkvars -> Prop) : good s C Ty -> 0 < n < freeinode s -> Forall byte_ok xp ->
  zlen (C n) + zlen xp <= 140 * 512 -> freeblock s + slots (zlen (C n) + zlen xp) - slots (zlen (C n)) <= 1000 ->
  (forall s', good s' (fupd n (C n ++ xp) C) Ty -> freeinode s' = freeinode s ->
     freeblock s' = freeblock s + slots (zlen (C n) + zlen xp) - slots (zlen (C n)) -> Q tt s') ->
  wp (iappend n xp) s Q.
Proof.
  intros (Hl & Hsb & Hfi & HL & Hhead & Hfree & Hlow) Hn Hxp Hmax Hfb HQ. unfold iappend. wp_step.
  apply wp_rinode; [done | done | lia |]. destruct (Hhead n Hn) as (Hsz & _). rewrite Hsz, xint_small by (unfold zlen in *; lia).
  wp_step. eapply (wp_iappend_loop n (freeinode s)); [done | lia | | done | done | done | lia |].
  { split; [done|]. eapply layout_ext; [exact HL | | done]. intros m Hm. by rewrite fupd_same. }
  intros din s1 HP (Hfi1 & Hsb1 & Hlow1 & Hd) Hfb1. pose proof (pending_din _ _ _ Hn _ _ _ _ HP) as [Hdl Hdb].
  destruct HP as [Hl1 HL1]. wp_step. rewrite xint_small by (unfold zlen in *; lia). set (ip := put32 din 8 _).
  assert (Hipl : length ip = 64%nat) by (unfold ip; by rewrite put32_length).
  apply wp_winode; [done | congruence | lia |]. intros d Hld HD.
  assert (Hok1 : forall m, 0 < m < 200 -> length (blk (img s1) (m / 8 + 32)) = 512%nat).
  { intros m Hm. apply (l_ok HL1). Z.div_mod_to_equations. lia. }
  assert (Hin : din_at (blk d) n = ip). { erewrite din_ext; [|apply HD]. apply put_din_eq; [apply Hok1; lia | done]. }
  assert (Hdm : forall m, 0 < m < 200 -> m <> n -> din_at (blk d) m = din_at (blk (img s)) m).
  { intros m Hm Hne. erewrite din_ext; [|apply HD]. rewrite put_din_ne; [| apply Hok1; lia | by apply Hok1 | done | done].
    apply din_ext, Hlow1. Z.div_mod_to_equations. lia. }
  apply HQ; [|done | done]. unfold good. cbn [img msb freeinode freeblock set_img]. rewrite Hfi1, Hsb1. split_and!; [done | done | lia | lia | | | |].
  - eapply layout_meta; [exact HL1 | | | |].
    + intros m Hm. destruct (decide (m = n)) as [->|Hne]; [rewrite Hin; split; [done | by apply put32_bytes]|].
      rewrite Hdm by (done || lia). by apply (l_ino HL).
    + intros m o Hm Ho. destruct (decide (m = n)) as [->|Hne]; [rewrite Hin, fupd_eq; unfold ip; by rewrite get32_put32_ne by lia|].
      rewrite Hdm, fupd_ne by (done || lia). f_equal. symmetry. apply din_ext, Hlow1. Z.div_mod_to_equations. lia.
    + intros x Hx. rewrite HD. apply put_din_ok; [lia | apply HL1 | done | by apply put32_bytes | done].
    + intros x Hx. rewrite HD. apply put_din_data; lia.
  - intros m Hm. destruct (decide (m = n)) as [->|Hne].
    + destruct (Hhead n Hm) as (_ & HT & HN). rewrite Hin, fupd_eq, zlen_app. unfold ip.
      rewrite get32_put32_eq, u32_small by (unfold zlen in *; lia). split; [done|]. rewrite !get16_put32_ne by lia.
      unfold get16 in *. by rewrite !Hd by lia.
    + rewrite Hdm, fupd_ne by (done || lia). by apply Hhead.
  - intros m Hm. rewrite Hdm by lia. by apply Hfree.
  - intros x Hx. rewrite HD, put_din_data, Hlow1 by lia. by apply Hlow.
Qed.

Lemma wp_ialloc s C Ty ty (Q : Z -> mkvars -> Prop) : good s C Ty -> freeinode s < 200 -> 0 <= ty < 2 ^ 16 ->
  (forall s', good s' (fupd (freeinode s) [] C) (fupd (freeinode s) ty Ty) -> freeinode s' = freeinode s + 1 ->
     freeblock s' = freeblock s -> Q (freeinode s) s') ->
  wp (ialloc ty) s Q.
Proof.
  intros (Hl & Hsb & Hfi & HL & Hhead & Hfree & Hlow) Hlt Hty HQ. unfold ialloc. wp_step. rewrite u32_small by lia.
  set (n := freeinode s) in *. set (ip := put32 _ 8 _).
  assert (Hok1 : forall m, 0 < m < 200 -> length (blk (img s) (m / 8 + 32)) = 512%nat).
  { intros m Hm. apply (l_ok HL). Z.div_mod_to_equations. lia. }
  assert (Hipl : length ip = 64%nat) by (unfold ip; by rewrite put32_length, !put16_length).
  assert (Hipb : Forall byte_ok ip) by (apply put32_bytes, put16_bytes, put16_bytes, Forall_replicate; lia).
  assert (Hz : forall o, get32 (replicate 64 0) o = 0 /\ get16 (replicate 64 0) o = 0).
  { intros o. unfold get32, get16. assert (E : forall i, zget 0 (replicate 64 0) i = 0); [|by rewrite !E].
    intros i. unfold zget. case_bool; [done|]. destruct (replicate 64 0 !! Z.to_nat i) as [x|] eqn:E; [|done]. by apply lookup_replicate in E as [-> _]. }
  apply wp_winode; [done | done | lia |]. intros d Hld HD. cbn [img set_freeinode] in HD. wp_step.
  assert (Hin : din_at (blk d) n = ip). { erewrite din_ext; [|apply HD]. apply put_din_eq; [apply Hok1; lia | done]. }
  assert (Hdm : forall m, 0 < m < 200 -> m <> n -> din_at (blk d) m = din_at (blk (img s)) m).
  { intros m Hm Hne. erewrite din_ext; [|apply HD]. apply put_din_ne; [apply Hok1; lia | by apply Hok1 | done | done]. }
  apply HQ; [|done | done]. unfold good. cbn [img msb freeinode freeblock set_img set_freeinode]. split_and!; [done | done | lia | lia | | | |].
  - eapply (layout_new (din_at (blk (img s))) (blk d) n _ C (Bof C) (Xof C)); rewrite ?fupd_eq, ?Hin; [| | done | done | | done | by unfold Bof; rewrite fupd_eq | by unfold Xof, Bof; rewrite fupd_eq].
    + eapply layout_meta; [exact HL | apply (l_ino HL) | done | |].
      * intros x Hx. rewrite HD. apply put_din_ok; [lia | apply HL | done | done | done].
      * intros x Hx. rewrite HD. apply put_din_data; lia.
    + intros m Hm. unfold Xof, Bof. rewrite !fupd_ne by lia. split_and!; [apply Hdm; lia | done..].
    + intros o Ho. unfold ip. rewrite get32_put32_ne, !get32_put16_ne by lia. apply Hz.
  - intros m Hm. destruct (decide (m = n)) as [->|Hne]; [|rewrite Hdm, !fupd_ne by (done || lia); apply Hhead; lia].
    rewrite Hin, !fupd_eq. unfold ip. split_and!.
    + by rewrite get32_put32_eq by (unfold zlen; rewrite ?put16_length; cbn; lia).
    + rewrite get16_put32_ne, get16_put16_ne, get16_put16_eq by (unfold zlen; rewrite ?put16_length; cbn; lia).
      unfold xshort, u16, u8. change (2 ^ 8) with 256. change (2 ^ 16) with 65536 in *. Z.div_mod_to_equations. lia.
    + rewrite get16_put32_ne, get16_put16_eq by (unfold zlen; rewrite ?put16_length; cbn; lia). done.
  - intros m Hm. rewrite Hdm by lia. apply Hfree. lia.
  - intros x Hx. rewrite HD, put_din_data by lia. by apply Hlow.
Qed.

End MkfsProof.
