(* ===== verification/MkfsImage.v ===== *)
(** * The image that mkfs.c writes

    The image of a list of files is the disk that the kernel expects: its super block, an empty
    log, a bitmap that matches the blocks in use, a root directory with the names of the files,
    and inodes through which the kernel reads the contents of each file. *)

From stdpp Require Import base gmap list strings.
From Stdlib Require Import ZArith Lia.
From S2P Require Import Prelude Core Bio Log LogSafety Tx Fs FsProof Mkfs MkfsLayout MkfsProof.
Import Fs FsProof Mkfs MkfsLayout MkfsProof.

Module MkfsImage.

(** A file: its name on the command line, and what [read] gives for it, piece by piece. *)
Abbreviation file := (list Z * list (list Z))%type.

Definition arg (f : file) : list Z * option (list (list Z)) := (f.1, Some f.2).
Definition contents (f : file) : list Z := concat f.2.

(** The entries of the root directory. *)
Definition dots : list Z := make_dirent (bytes_of_string ".") 1 ++ make_dirent (bytes_of_string "..") 1.
Definition entries (l : list file) : list Z :=
  concat (imap (fun i f => make_dirent (strip_underscore f.1) (Z.of_nat i + 2)) l).
Definition dir (l : list file) : list Z := dots ++ entries l.

Definition Cof (l : list file) (n : Z) : list Z :=
  if n =? 1 then dir l else match l !! Z.to_nat (n - 2) with Some f => contents f | None => [] end.
Definition Tyof (n : Z) : Z := if n =? 1 then T_DIR else T_FILE.

Definition total (l : list file) : Z := foldr (fun f a => slots (zlen (contents f)) + a) 0 l.
(** The number of the first free block. *)
Definition used (l : list file) : Z := nmeta + slots (zlen (dir l)) + total l.

(** A file that fits. *)
Definition file_ok (f : file) : Prop :=
  (ch_slash ∉ f.1) /\ Forall byte_ok f.1 /\ Forall (fun c => c <> [] /\ Forall byte_ok c) f.2 /\
  zlen (contents f) <= MAXFILE * BSIZE.

Lemma total_snoc l f : total (l ++ [f]) = total l + slots (zlen (contents f)).
Proof. unfold total. rewrite foldr_app. cbn. induction l as [|g l IH]; cbn; lia. Qed.

Lemma slots_nonneg a : 0 <= a -> 0 <= slots a.
Proof. intros H%slots_mono. exact H. Qed.
Lemma total_nonneg l : 0 <= total l.
Proof. induction l as [|f l IH]; unfold total in *; cbn; [lia|]. pose proof (slots_nonneg (zlen (contents f)) (zlen_nonneg _)). lia. Qed.
Lemma total_app l1 l2 : total (l1 ++ l2) = total l1 + total l2.
Proof. induction l1 as [|f l IH]; [done|]. unfold total in *. cbn. lia. Qed.

Lemma dirent_length name n : length (make_dirent name n) = 16%nat.
Proof.
  unfold make_dirent, strncpy_l, DIRSIZ. cbn [length]. rewrite length_app, length_take, length_replicate. lia.
Qed.
Lemma dirent_bytes name n : Forall byte_ok name -> Forall byte_ok (make_dirent name n).
Proof.
  intros Hf. unfold make_dirent. constructor; [apply u8_range|]. constructor; [apply u8_range|]. unfold strncpy_l.
  apply Forall_app. split; [by apply Forall_take | apply Forall_replicate; lia].
Qed.

Lemma entries_snoc l f : entries (l ++ [f]) = entries l ++ make_dirent (strip_underscore f.1) (zlen l + 2).
Proof.
  unfold entries. rewrite imap_app, concat_app. f_equal. cbn [imap concat compose]. rewrite app_nil_r. unfold compose, zlen. do 2 f_equal. lia.
Qed.
Lemma entries_length l : zlen (entries l) = 16 * zlen l.
Proof.
  induction l as [|f l IH] using rev_ind; [done|]. rewrite entries_snoc, !zlen_app, IH. unfold zlen at 2. rewrite dirent_length.
  unfold zlen. cbn. lia.
Qed.
Lemma dir_length l : zlen (dir l) = 16 * zlen l + 32.
Proof. unfold dir. rewrite zlen_app, entries_length. change (zlen dots) with 32. lia. Qed.
Lemma dir_snoc l f : dir (l ++ [f]) = dir l ++ make_dirent (strip_underscore f.1) (zlen l + 2).
Proof. unfold dir. by rewrite entries_snoc, app_assoc. Qed.

Lemma used_prefix l1 l2 : used l1 <= used (l1 ++ l2).
Proof.
  unfold used. rewrite total_app. pose proof (total_nonneg l2). pose proof (zlen_nonneg l2).
  assert (slots (zlen (dir l1)) <= slots (zlen (dir (l1 ++ l2)))) by (apply slots_mono; rewrite !dir_length, zlen_app; lia). lia.
Qed.

Lemma xshort_small x : 0 <= x < 2 ^ 16 -> xshort x = x.
Proof. intros Hx. unfold xshort, u8. change (2 ^ 8) with 256. change (2 ^ 16) with 65536 in Hx. Z.div_mod_to_equations. lia. Qed.

Lemma strip_bytes name : Forall byte_ok name -> Forall byte_ok (strip_underscore name).
Proof. intros Hf. destruct name as [|c r]; [done|]. cbn. inversion Hf; subst. by destruct (c =? _). Qed.

(** *** The loop over the files *)

Lemma good_ext s C C' Ty Ty' : good s C Ty -> (forall n, 0 < n < freeinode s -> C' n = C n /\ Ty' n = Ty n) -> good s C' Ty'.
Proof.
  intros (Hl & Hsb & Hfi & HL & Hh & Hf & Hlow) HC. unfold good. split_and!; [done | done | lia | lia | | | done | done].
  - eapply layout_ext; [exact HL | | done]. intros n Hn. unfold Xof, Bof. by destruct (HC n Hn) as [-> _].
  - intros n Hn. destruct (HC n Hn) as [-> ->]. by apply Hh.
Qed.

Lemma wp_copy_in n Ty chunks : forall s C (Q : unit -> mkvars -> Prop), good s C Ty -> 0 < n < freeinode s ->
  Forall (fun c => c <> [] /\ Forall byte_ok c) chunks -> zlen (C n) + zlen (concat chunks) <= 140 * 512 ->
  freeblock s + slots (zlen (C n) + zlen (concat chunks)) - slots (zlen (C n)) <= 1000 ->
  (forall s', good s' (fupd n (C n ++ concat chunks) C) Ty -> freeinode s' = freeinode s ->
     freeblock s' = freeblock s + slots (zlen (C n) + zlen (concat chunks)) - slots (zlen (C n)) -> Q tt s') ->
  wp (copy_in n chunks) s Q.
Proof.
  induction chunks as [|c r IH]; intros s C Q Hg Hn Hc Hmax Hfb HQ; cbn [copy_in concat] in *.
  - wp_step. change (zlen []) with 0 in *. rewrite Z.add_0_r in *. apply HQ; [|done | lia]. eapply good_ext; [exact Hg|].
    intros m _. by rewrite app_nil_r, fupd_same.
  - inversion Hc as [|? ? [Hne Hcb] Hr]; subst. rewrite zlen_app in *. pose proof (zlen_nonneg (concat r)). pose proof (zlen_nonneg c).
    assert (Hpos : 0 < zlen c) by (destruct c; [done | unfold zlen; cbn; lia]). rewrite (proj2 (Z.ltb_lt _ _) Hpos). wp_step.
    assert (slots (zlen (C n) + zlen c) <= slots (zlen (C n) + (zlen c + zlen (concat r)))) by (apply slots_mono; lia).
    eapply wp_iappend; [exact Hg | done | done | lia | lia |]. intros s1 Hg1 Hfi1 Hfb1.
    assert (El : zlen (fupd n (C n ++ c) C n) = zlen (C n) + zlen c) by (by rewrite fupd_eq, zlen_app).
    replace (zlen (C n) + (zlen c + zlen (concat r))) with (zlen (C n) + zlen c + zlen (concat r)) in * by lia.
    eapply IH; [exact Hg1 | lia | done | rewrite El; lia | rewrite El, Hfb1; lia |]. rewrite El. intros s2 Hg2 Hfi2 Hfb2.
    apply HQ; [| congruence | lia]. eapply good_ext; [exact Hg2|]. intros m _. split; [|done].
    unfold fupd. case_decide; [|done]. rewrite decide_True by done. by rewrite app_assoc.
Qed.

Lemma wp_add_file s l f (Q : unit -> mkvars -> Prop) : good s (Cof l) Tyof -> freeinode s = zlen l + 2 -> zlen l < 198 ->
  file_ok f -> freeblock s = used l -> used (l ++ [f]) <= 1000 ->
  (forall s', good s' (Cof (l ++ [f])) Tyof -> freeinode s' = zlen l + 3 -> freeblock s' = used (l ++ [f]) -> Q tt s') ->
  wp (add_file 1 (arg f)) s Q.
Proof.
  intros Hg Hfi Hl (Hsl & Hnb & Hch & Hlen) Hfb Hu HQ. pose proof (zlen_nonneg l) as Hl0. unfold add_file, arg.
  change (MAXFILE * BSIZE) with (140 * 512) in Hlen.
  rewrite bool_decide_eq_false_2 by done. wp_step. eapply wp_ialloc; [exact Hg | lia | done |]. intros s1 Hg1 Hfi1 Hfb1.
  rewrite Hfi in *. set (n := zlen l + 2) in *. wp_step. rewrite xshort_small by lia.
  set (C1 := fupd n [] (Cof l)) in *. assert (E1 : C1 1 = dir l) by (unfold C1; rewrite fupd_ne by lia; done).
  set (de := make_dirent _ n). assert (Hde : zlen de = 16) by (unfold zlen, de; by rewrite dirent_length).
  assert (Hd' : zlen (dir l) + zlen de = zlen (dir (l ++ [f]))) by (rewrite dir_snoc, zlen_app; done).
  assert (Hdir : zlen (dir (l ++ [f])) <= 3200) by (rewrite dir_length, zlen_app; unfold zlen at 2; cbn; lia).
  unfold used in Hfb, Hu. rewrite total_snoc in Hu. pose proof (slots_nonneg (zlen (contents f)) (zlen_nonneg _)) as Hs0.
  eapply wp_iappend; [exact Hg1 | lia | apply dirent_bytes, strip_bytes, Hnb | rewrite E1; lia | rewrite E1, Hd'; lia |].
  rewrite E1, Hd'. intros s2 Hg2 Hfi2 Hfb2. set (C2 := fupd 1 _ C1) in *.
  assert (E2 : C2 n = []) by (unfold C2; rewrite fupd_ne by lia; apply fupd_eq).
  eapply wp_copy_in; [exact Hg2 | lia | exact Hch | rewrite E2; exact Hlen | rewrite E2; fold (contents f); change (zlen []) with 0; rewrite Z.add_0_l; change (slots 0) with 0; lia |].
  rewrite E2. fold (contents f). change (zlen []) with 0. rewrite Z.add_0_l. change (slots 0) with 0. intros s3 Hg3 Hfi3 Hfb3.
  apply HQ; [| lia | unfold used; rewrite total_snoc; lia]. eapply good_ext; [exact Hg3|]. intros m Hm. split.
  - unfold Cof. destruct (Z.eqb_spec m 1) as [->|Hm1]; [rewrite fupd_ne by lia; unfold C2; rewrite fupd_eq, dir_snoc; done|].
    destruct (decide (m = n)) as [->|Hmn].
    + rewrite fupd_eq. replace (Z.to_nat (n - 2)) with (length l) by (unfold n, zlen; lia). by rewrite lookup_app_r, Nat.sub_diag by lia.
    + rewrite fupd_ne by done. unfold C2, C1. rewrite !fupd_ne by done. unfold Cof. rewrite (proj2 (Z.eqb_neq m 1)) by done.
      by rewrite lookup_app_l by (unfold n, zlen in *; lia).
  - unfold fupd. case_decide; [subst m|done]. unfold Tyof. by rewrite (proj2 (Z.eqb_neq n 1)) by lia.
Qed.

Lemma wp_add_files r : forall l s (Q : unit -> mkvars -> Prop), good s (Cof l) Tyof -> freeinode s = zlen l + 2 -> zlen (l ++ r) <= 198 ->
  Forall file_ok r -> freeblock s = used l -> used (l ++ r) <= 1000 ->
  (forall s', good s' (Cof (l ++ r)) Tyof -> freeinode s' = zlen (l ++ r) + 2 -> freeblock s' = used (l ++ r) -> Q tt s') ->
  wp (for_each (add_file 1) (arg <$> r)) s Q.
Proof.
  induction r as [|f r IH]; intros l s Q Hg Hfi Hl Hr Hfb Hu HQ; cbn [fmap list_fmap for_each].
  - rewrite app_nil_r in *. wp_step. by apply HQ.
  - inversion Hr; subst. rewrite zlen_app, zlen_cons in Hl. pose proof (zlen_nonneg r). wp_step.
    replace (l ++ f :: r) with ((l ++ [f]) ++ r) in * by by rewrite <- app_assoc. pose proof (used_prefix (l ++ [f]) r).
    eapply wp_add_file; [exact Hg | done | lia | done | done | lia |]. intros s1 Hg1 Hfi1 Hfb1.
    apply (IH (l ++ [f])); [done | rewrite zlen_app; unfold zlen at 2; cbn; lia | rewrite !zlen_app; unfold zlen at 2; cbn; lia | done.. ].
Qed.

(** *** The empty disk *)

Lemma wp_clear k s (Q : unit -> mkvars -> Prop) : img s = [] -> (k <= 1000)%nat ->
  Q tt (set_img (replicate k zeroes) s) -> wp (for_each (fun i => wsect (Z.of_nat i) zeroes) (seq 0 k)) s Q.
Proof.
  intros Hs Hk HQ. apply (wp_for_seq _ (fun j s' => s' = set_img (replicate j zeroes) s)); [by destruct s; cbn [img] in Hs; subst | | by intros s1 ->].
  intros j s1 Hj ->. unfold wsect. wp_step. rewrite sector_small, Nat2Z.id by lia. unfold write_at. cbn [img set_img].
  rewrite length_replicate, Nat.ltb_irrefl, Nat.sub_diag. cbn [replicate app]. by rewrite <- replicate_S_end.
Qed.

Lemma good_empty s : img s = zset (replicate 1000 zeroes) 1 (sb_block make_sb) -> msb s = make_sb -> freeinode s = 1 -> freeblock s = 59 ->
  good s (fun _ => []) (fun _ => 0).
Proof.
  intros Hi Hsb Hfi Hfb. assert (HD : forall x, blk (img s) x = if x =? 1 then sb_block make_sb else zeroes).
  { intros x. rewrite Hi, blk_zset by (done || lia). unfold fupd. case_decide as E; [by subst|]. rewrite (proj2 (Z.eqb_neq x 1)) by done.
    unfold blk, zget. case_bool; [done|]. destruct (_ !! _) as [b|] eqn:Eb; [|done]. by apply lookup_replicate in Eb as [-> _]. }
  assert (Hok : forall x, block_ok (blk (img s) x)).
  { intros x. rewrite HD. destruct (x =? 1); [|apply zeroes_ok]. unfold sb_block. repeat apply LogSafety.block_ok_put32. apply zeroes_ok. }
  unfold good. rewrite Hi, zset_length, <- Hi, Hfi, Hfb. split_and!; [done | done | lia | lia | | lia | | by intros; apply HD].
  - split; try (intros; lia); [by auto | intros x Hx; rewrite HD; by rewrite (proj2 (Z.eqb_neq x 1)) by lia].
  - intros n Hn. unfold din_at. rewrite HD, (proj2 (Z.eqb_neq _ 1)) by (Z.div_mod_to_equations; lia). unfold zeroes.
    pose proof (Z.mod_pos_bound n 8 ltac:(lia)). rewrite dinode_off_mod, drop_replicate, take_replicate. f_equal. lia.
Qed.

Lemma wp_root s (Q : unit -> mkvars -> Prop) : good s (fun _ => []) (fun _ => 0) -> freeinode s = 1 -> freeblock s = 59 ->
  (forall s', good s' (Cof []) Tyof -> freeinode s' = 2 -> freeblock s' = used [] -> Q tt s') ->
  wp (ialloc T_DIR) s (fun rootino s1 => rootino = 1 /\
    wp (iappend 1 (make_dirent (bytes_of_string ".") 1)) s1 (fun _ s2 => wp (iappend 1 (make_dirent (bytes_of_string "..") 1)) s2 Q)).
Proof.
  intros Hg Hfi Hfb HQ. eapply wp_ialloc; [exact Hg | lia | done |]. rewrite Hfi. intros s1 Hg1 Hfi1 Hfb1. split; [done|].
  eapply wp_iappend; [exact Hg1 | lia | by repeat constructor | rewrite fupd_eq; by vm_compute | rewrite fupd_eq, Hfb1, Hfb; by vm_compute |].
  rewrite fupd_eq. intros s2 Hg2 Hfi2 Hfb2.
  eapply wp_iappend; [exact Hg2 | lia | by repeat constructor | rewrite !fupd_eq; by vm_compute | rewrite !fupd_eq, Hfb2, Hfb1, Hfb; by vm_compute |].
  rewrite !fupd_eq. intros s3 Hg3 Hfi3 Hfb3. apply HQ; [| lia | rewrite Hfb3, Hfb2, Hfb1, Hfb; by vm_compute].
  eapply good_ext; [exact Hg3|]. intros n Hn. replace n with 1 by lia. by rewrite !fupd_eq.
Qed.

(** *** The bitmap *)

Lemma bitmap_spec k x : (Z.of_nat k <= 4096) -> 0 <= x < 4096 ->
  length (foldl set_bit zeroes (seqZ 0 (Z.of_nat k))) = 512%nat /\
  block_ok (foldl set_bit zeroes (seqZ 0 (Z.of_nat k))) /\
  bit_of (foldl set_bit zeroes (seqZ 0 (Z.of_nat k))) x = (x <? Z.of_nat k).
Proof.
  intros Hk Hx. induction k as [|k IH].
  - cbn [foldl seqZ]. split_and!; [done | apply zeroes_ok |]. unfold bit_of. rewrite zget_zeroes, Z.bits_0. symmetry. apply Z.ltb_ge. lia.
  - destruct IH as (Hl & Hok & Hb); [lia|]. replace (Z.of_nat (S k)) with (Z.of_nat k + 1) by lia. rewrite seqZ_app by lia.
    change (seqZ (0 + Z.of_nat k) 1) with [0 + Z.of_nat k]. rewrite foldl_snoc. split_and!.
    + unfold set_bit at 1. by rewrite zset_length.
    + by apply set_bit_ok.
    + rewrite bit_of_set, Hb by (done || unfold BPB, BSIZE; lia).
      destruct (Z.eqb_spec (0 + Z.of_nat k) x), (Z.ltb_spec x (Z.of_nat k)), (Z.ltb_spec x (Z.of_nat k + 1)); lia || done.
Qed.

(** *** The finished image *)

(** The size that the root directory gets: its entries, rounded up. *)
Definition root_size (l : list file) : Z := (zlen (dir l) / BSIZE + 1) * BSIZE.

Definition finished (d : list block) (l : list file) : Prop :=
  let D := blk d in
  length d = 1000%nat /\ layout (din_at D) D (zlen l + 2) (used l) (Cof l) (Bof (Cof l)) (Xof (Cof l)) /\
  (forall n, 0 < n < zlen l + 2 -> get32 (din_at D n) 8 = (if n =? 1 then root_size l else zlen (Cof l n)) /\
     get16 (din_at D n) 0 = Tyof n /\ get16 (din_at D n) 6 = 1) /\
  (forall n, zlen l + 2 <= n < 200 -> din_at D n = replicate 64 0) /\
  (forall x, 0 <= x < 32 -> D x = if x =? 1 then sb_block make_sb else zeroes) /\
  (forall x, 0 <= x < 1000 -> bit_of (D 58) x = (x <? used l)).

Lemma wp_balloc s k (Q : unit -> mkvars -> Prop) : length (img s) = 1000%nat -> msb s = make_sb -> 0 <= k <= 1000 ->
  (forall d bm, length d = 1000%nat -> (forall x, blk d x = fupd 58 bm (blk (img s)) x) -> block_ok bm ->
     (forall x, 0 <= x < 1000 -> bit_of bm x = (x <? k)) -> Q tt (set_img d s)) -> wp (balloc k) s Q.
Proof.
  intros Hl Hsb Hk HQ. unfold balloc. change (BSIZE * 8) with 4096. rewrite (proj2 (Z.ltb_lt k 4096)) by lia. wp_step. rewrite Hsb.
  change (sb_bmapstart make_sb) with 58. apply wp_wsect; [done | lia |].
  assert (Hb : forall x, 0 <= x < 4096 -> block_ok (foldl set_bit zeroes (seqZ 0 k)) /\ bit_of (foldl set_bit zeroes (seqZ 0 k)) x = (x <? k)).
  { intros x Hx. destruct (bitmap_spec (Z.to_nat k) x) as (_ & H1 & H2); [lia | done |]. by rewrite Z2Nat.id in H1, H2 by lia. }
  eapply HQ; [by rewrite zset_length | by intros x; apply blk_zset | by apply (Hb 0) |]. intros x Hx. apply Hb. lia.
Qed.

Lemma wp_fix_root s l (Q : unit -> mkvars -> Prop) : good s (Cof l) Tyof -> freeinode s = zlen l + 2 -> freeblock s = used l ->
  (forall s', finished (img s') l -> Q tt s') ->
  wp (din ← rinode 1;
      let off := xint (get32 din 8) in
      let off := u32 ((off / BSIZE + 1) * BSIZE) in
      winode 1 (put32 din 8 (xint off));;
      fb ← gets freeblock;
      balloc fb) s Q.
Proof.
  intros (Hl & Hsb & Hfi & HL & Hhead & Hfree & Hlow) Efi Efb HQ. pose proof (zlen_nonneg l) as Hl0. rewrite Efi, Efb in *.
  pose proof (l_fb HL) as Hu. destruct (l_ino HL 1 ltac:(lia)) as [Hdl Hdb]. destruct (Hhead 1 ltac:(lia)) as (Hsz & HT & HN).
  change (Cof l 1) with (dir l) in Hsz. pose proof (dir_length l) as Hd. wp_step. apply wp_rinode; [done | done | lia |].
  assert (Hr : 0 <= root_size l < 2 ^ 32) by (unfold root_size, BSIZE; Z.div_mod_to_equations; lia).
  cbv zeta. rewrite Hsz, (xint_small (zlen (dir l))) by lia. fold (root_size l). rewrite (u32_small (root_size l)), (xint_small (root_size l)) by done. wp_step.
  set (ip := put32 _ 8 _). assert (Hipl : length ip = 64%nat) by (unfold ip; by rewrite put32_length).
  apply wp_winode; [done | done | lia |]. intros d1 Hld1 HD1. wp_step. apply wp_balloc; [done | done | cbn; lia |].
  intros d bm Hld HD Hbm Hbits. apply HQ. cbn [img set_img freeblock] in *. rewrite Efb in Hbits.
  assert (HDx : forall x, 0 <= x < 58 \/ 59 <= x -> blk d x = put_din (blk (img s)) 1 ip x) by (intros x Hx; rewrite HD, fupd_ne by lia; apply HD1).
  assert (Hok1 : forall m, 0 < m < 200 -> length (blk (img s) (m / 8 + 32)) = 512%nat).
  { intros m Hm. apply (l_ok HL). Z.div_mod_to_equations. lia. }
  assert (Hin : din_at (blk d) 1 = ip). { erewrite din_ext; [|apply HDx; change (1 / 8 + 32) with 32; lia]. apply put_din_eq; [apply Hok1; lia | done]. }
  assert (Hdm : forall m, 0 < m < 200 -> m <> 1 -> din_at (blk d) m = din_at (blk (img s)) m).
  { intros m Hm Hne. erewrite din_ext; [|apply HDx; Z.div_mod_to_equations; lia]. apply put_din_ne; [apply Hok1; lia | by apply Hok1 | done | done]. }
  split_and!; [done | | | | |].
  - eapply layout_meta; [exact HL | | | |].
    + intros m Hm. destruct (decide (m = 1)) as [->|Hne]; [rewrite Hin; split; [done | by apply put32_bytes]|].
      rewrite Hdm by lia. by apply (l_ino HL).
    + intros m o Hm Ho. destruct (decide (m = 1)) as [->|Hne]; [rewrite Hin; unfold ip; by rewrite get32_put32_ne by lia|]. by rewrite Hdm by lia.
    + intros x Hx. rewrite HD. unfold fupd. case_decide; [done|]. rewrite HD1.
      apply put_din_ok; [lia | apply HL | done | by apply put32_bytes | done].
    + intros x Hx. rewrite HDx by lia. apply put_din_data; lia.
  - intros m Hm. destruct (Z.eqb_spec m 1) as [->|Hne]; [|rewrite Hdm by lia; by apply Hhead]. rewrite Hin. unfold ip.
    rewrite get32_put32_eq, u32_small by (unfold zlen; lia). by rewrite !get16_put32_ne by lia.
  - intros m Hm. rewrite Hdm by lia. by apply Hfree.
  - intros x Hx. rewrite HDx, put_din_data by lia. by apply Hlow.
  - intros x Hx. rewrite HD, fupd_eq. by apply Hbits.
Qed.

Lemma main_spec l : zlen l <= 198 -> Forall file_ok l -> used l <= 1000 -> exists s, main (arg <$> l) start = Ret tt s /\ finished (img s) l.
Proof.
  intros Hl Hok Hu. assert (H : wp (main (arg <$> l)) start (fun _ s => finished (img s) l)); [|destruct H as ([] & s & H); by exists s].
  unfold main. wp_step. apply wp_clear; [done | unfold FSSIZE; lia |]. wp_step. apply wp_wsect; [by cbn [img set_img]; rewrite length_replicate | lia |]. wp_step.
  eapply wp_conseq; [eapply (wp_root _ (fun _ s => wp (for_each (add_file 1) (arg <$> l)) s (fun _ s => wp (_ : M mkvars unit) s (fun _ s => finished (img s) l))))|];
    [by apply good_empty | done | done | |].
  - intros s Hg Hfi Hfb. eapply (wp_add_files l []); [exact Hg | done | done | done | done | done |].
    intros s1 Hg1 Hfi1 Hfb1. eapply wp_fix_root; [exact Hg1 | done | done | by intros s2].
  - intros r s1 [-> H]. change (xshort 1) with 1. cbn [Z.eqb ROOTINO Pos.eqb]. wp_step. eapply wp_conseq; [exact H|].
    intros [] s2 H2. wp_step. eapply wp_conseq; [exact H2|]. intros [] s3 H3. wp_step. eapply wp_conseq; [exact H3|].
    intros [] s4 H4. exact H4.
Qed.

(** *** What the kernel finds *)

(** The disk as the file system of the kernel sees it, and the cache entry of inode [n]. *)
Definition view (d : list block) : tview :=
  {| t_data := blk d; t_held := []; t_mod := ∅; t_touch := ∅; t_size := FSSIZE; t_logst := 2; t_logsize := nlog |}.
Definition inode_at (d : list block) (n : Z) : inode :=
  get_dinode (blk d (IBLOCK n make_sb))
    {| idev := ROOTDEV; inum := n; iref := 1; ivalid := true; itype := 0; imajor := 0; iminor := 0; inlink := 0; isize := 0; iaddrs := [] |}.

Section Image.
Context (d : list block) (l : list file) (Hf : finished d l) (Hl : zlen l <= 198).

Lemma image_block n : 0 < n < 200 -> length (blk d (n / 8 + 32)) = 512%nat.
Proof. destruct Hf as (_ & HL & _). intros Hn. apply (l_ok HL). Z.div_mod_to_equations. lia. Qed.

Lemma zget_addrs n j : 0 <= j < 13 -> 0 < n < 200 -> zget 0 (iaddrs (inode_at d n)) j = get32 (din_at (blk d) n) (12 + 4 * j).
Proof.
  intros Hj Hn. rewrite get32_din by (by apply image_block || lia). unfold inode_at, get_dinode. cbn [iaddrs inum]. rewrite IBLOCK_sb.
  unfold zget. rewrite (proj2 (Z.ltb_ge j 0)) by lia. rewrite list_lookup_fmap, lookup_seq_lt by lia. cbn [fmap option_fmap option_map default].
  unfold id. f_equal. lia.
Qed.

Lemma addr_A n j : 0 <= j -> 0 < n < 200 -> addr (view d) (inode_at d n) j = A (din_at (blk d)) (blk d) n j.
Proof.
  intros Hj Hn. unfold addr, A, NDIRECT. rewrite (proj2 (Z.ltb_ge j 0)) by lia. destruct (Z.ltb_spec j 12); rewrite zget_addrs by lia; done.
Qed.

Lemma image_readable n j : 0 < n < zlen l + 2 -> valid (Bof (Cof l)) (Xof (Cof l)) n j -> readable (view d) (A (din_at (blk d)) (blk d) n j).
Proof.
  destruct Hf as (_ & HL & _). intros Hn Hv. pose proof (l_addr HL n j Hn Hv). pose proof (l_fb HL).
  unfold readable. cbn [t_size t_held t_touch view]. unfold FSSIZE. split_and!; [lia | lia | lia | apply not_elem_of_nil | set_solver |].
  right. cbn. unfold nlog, LOGSIZE. lia.
Qed.

Lemma image_mapped n : 0 < n < zlen l + 2 -> mapped (view d) (inode_at d n) (nblocks (zlen (Cof l n))).
Proof.
  pose proof Hf as (_ & HL & _). intros Hn. destruct (l_size HL n Hn) as (_ & HB & _). unfold mapped. split_and!; [done | exact (proj2 HB) | | |].
  - intros j Hj. rewrite addr_A by lia. apply image_readable; [done | by left].
  - intros i j Hi Hj. rewrite !addr_A by lia. intros E. by apply (l_inj HL n i n j Hn Hn (or_introl Hi) (or_introl Hj)) in E as [_ E].
  - unfold NDIRECT. intros H12. assert (Hx : valid (Bof (Cof l)) (Xof (Cof l)) n (-1)) by (right; split; [done | by apply Z.ltb_lt]).
    rewrite zget_addrs by lia. split; [exact (image_readable n (-1) Hn Hx)|]. intros j Hj. rewrite addr_A by lia. intros E.
    destruct (l_inj HL n j n (-1) Hn Hn (or_introl Hj) Hx E). lia.
Qed.

Lemma image_bytes n : 0 < n < zlen l + 2 -> bytes_at (view d) (inode_at d n) 0 (length (Cof l n)) = Cof l n.
Proof.
  pose proof Hf as (_ & HL & _). intros Hn. apply (list_eq_zget 0); [unfold zlen; by rewrite bytes_at_length|]. intros p Hp.
  unfold zlen in Hp. rewrite bytes_at_length in Hp. destruct (l_size HL n Hn) as (Hz & _). unfold zlen in Hz at 1.
  rewrite <- (l_data HL n p Hn) by lia. unfold bytes_at, zget at 1. rewrite (proj2 (Z.ltb_ge p 0)) by lia.
  rewrite list_lookup_fmap, lookup_seq_lt by lia. cbn [fmap option_fmap option_map default]. unfold id, byte, BSIZE.
  replace (0 + Z.of_nat (0 + Z.to_nat p)) with p by lia. rewrite addr_A; [done | Z.div_mod_to_equations; lia | lia].
Qed.

Lemma image_head n : 0 < n < zlen l + 2 -> itype (inode_at d n) = Tyof n /\ inlink (inode_at d n) = 1 /\
  isize (inode_at d n) = if n =? 1 then root_size l else zlen (Cof l n).
Proof.
  pose proof Hf as (_ & _ & Hh & _). intros Hn. destruct (Hh n Hn) as (Hs & Ht & Hk).
  rewrite get32_din in Hs by (apply image_block || lia; lia). rewrite get16_din in Ht, Hk by (apply image_block || lia; lia).
  unfold inode_at, get_dinode. cbn [itype inlink isize inum]. rewrite IBLOCK_sb. rewrite Z.add_0_r in Ht. rewrite Hs, Ht, Hk.
  split_and!; [|done | done]. unfold Tyof. by destruct (n =? 1).
Qed.

Lemma image_free x : 0 <= x < FSSIZE -> is_free make_sb (view d) x <-> used l <= x.
Proof.
  destruct Hf as (_ & _ & _ & _ & _ & Hb). unfold FSSIZE, is_free. intros Hx. replace (BBLOCK x make_sb) with 58.
  - rewrite (Z.mod_small x) by (unfold BPB, BSIZE; lia). cbn [t_data view]. rewrite Hb by done. apply Z.ltb_ge.
  - unfold BBLOCK. rewrite Z.div_small by (unfold BPB, BSIZE; lia). done.
Qed.

Lemma image_bitmap : bitmap_ok make_sb (view d).
Proof.
  assert (Hbb : forall x, 0 <= x < FSSIZE -> BBLOCK x make_sb = 58).
  { intros x Hx. unfold BBLOCK. rewrite Z.div_small by (unfold FSSIZE, BPB, BSIZE in *; lia). done. }
  pose proof Hf as (_ & HL & _). pose proof (l_fb HL). unfold bitmap_ok. change (sb_size make_sb) with FSSIZE. split_and!; [done | |].
  - intros x Hx. rewrite Hbb by done. split_and!; [done | done | right; by vm_compute | apply not_elem_of_nil | set_solver].
  - intros x Hx Hfree. apply image_free in Hfree; [|done]. split_and!; [right; cbn; unfold nlog, LOGSIZE; lia | apply not_elem_of_nil |].
    intros y Hy. rewrite Hbb by done. lia.
Qed.

End Image.

(** C6: For files that fit on the disk, mkfs returns, and the image is the disk the kernel
    expects: block 1 decodes to the super block, the log is empty, exactly the blocks from the
    first unused one on are free in the bitmap; the root directory is inode 1 and holds [.],
    [..] and an entry for every file; file [i] is inode [i] + 2, all of its blocks are mapped,
    the kernel reads its contents through them, and no block belongs to two places. *)
Theorem mkfs_image l : zlen l <= 198 -> Forall file_ok l -> used l <= FSSIZE ->
  exists s, main (arg <$> l) start = Ret tt s /\
    let v := view (img s) in let ino := inode_at (img s) in
    decode_sb (t_data v 1) = make_sb /\ Log.head_n (t_data v 2) = 0 /\
    bitmap_ok make_sb v /\ (forall x, 0 <= x < FSSIZE -> is_free make_sb v x <-> used l <= x) /\
    itype (ino 1) = T_DIR /\ isize (ino 1) = root_size l /\ mapped v (ino 1) (nblocks (zlen (dir l))) /\
    bytes_at v (ino 1) 0 (length (dir l)) = dir l /\
    (forall i f, l !! i = Some f -> let k := ino (Z.of_nat i + 2) in
       itype k = T_FILE /\ inlink k = 1 /\ isize k = zlen (contents f) /\
       mapped v k (nblocks (isize k)) /\ bytes_at v k 0 (length (contents f)) = contents f) /\
    (forall n n' j j', 0 < n < zlen l + 2 -> 0 < n' < zlen l + 2 -> 0 <= j < nblocks (zlen (Cof l n)) ->
       0 <= j' < nblocks (zlen (Cof l n')) -> addr v (ino n) j = addr v (ino n') j' -> n = n' /\ j = j').
Proof.
  intros Hl Hok Hu. destruct (main_spec l Hl Hok Hu) as (s & E & Hf). exists s. split; [done|]. cbv zeta.
  pose proof (zlen_nonneg l) as Hl0. pose proof Hf as (_ & HL & _ & _ & Hlow & _).
  destruct (image_head _ _ Hf Hl 1 ltac:(lia)) as (Ht & _ & Hs). split_and!.
  - cbn [t_data view]. rewrite Hlow by lia. by vm_compute.
  - cbn [t_data view]. by rewrite Hlow by lia.
  - by eapply image_bitmap.
  - intros x Hx. by eapply image_free.
  - done.
  - done.
  - apply (image_mapped _ _ Hf Hl 1). lia.
  - apply (image_bytes _ _ Hf Hl 1). lia.
  - intros i f Hi. pose proof (lookup_lt_Some _ _ _ Hi) as Hlt. assert (Hn : 0 < Z.of_nat i + 2 < zlen l + 2) by (unfold zlen; lia).
    assert (EC : Cof l (Z.of_nat i + 2) = contents f).
    { unfold Cof. rewrite (proj2 (Z.eqb_neq _ 1)) by lia. replace (Z.to_nat (Z.of_nat i + 2 - 2)) with i by lia. by rewrite Hi. }
    destruct (image_head _ _ Hf Hl _ Hn) as (Hty & Hnl & Hsz). unfold Tyof in Hty.
    rewrite (proj2 (Z.eqb_neq _ 1)) in Hty, Hsz by lia. rewrite Hsz, EC. split_and!; [done | done | done | |].
    + rewrite <- EC. by apply (image_mapped _ _ Hf Hl).
    + pose proof (image_bytes _ _ Hf Hl _ Hn) as Hb. by rewrite EC in Hb.
  - intros n n' j j' Hn Hn' Hj Hj'. rewrite !(addr_A _ _ Hf) by lia. apply (l_inj HL); [done | done | by left | by left].
Qed.

(** An image with two files, one of them with an indirect block. *)
Definition some_files : list file :=
  [(bytes_of_string "_cat", [[1; 2; 3]; [4; 5]]); (bytes_of_string "README", replicate 14 (replicate 512 7) ++ [replicate 100 9])].

Lemma mkfs_image_witness : exists s, main (arg <$> some_files) start = Ret tt s /\
  bytes_at (view (img s)) (inode_at (img s) 2) 0 5 = [1; 2; 3; 4; 5] /\ isize (inode_at (img s) 3) = 7268 /\
  (is_free make_sb (view (img s)) 77 /\ ~ is_free make_sb (view (img s)) 76).
Proof.
  destruct (mkfs_image some_files) as (s & E & _ & _ & _ & Hfree & _ & _ & _ & _ & Hfiles & _).
  - by vm_compute.
  - repeat (apply Forall_cons; split; [unfold file_ok; split_and!; refine (bool_decide_unpack _ _); by vm_compute|]). by apply Forall_nil.
  - by vm_compute.
  - exists s. split; [exact E|]. assert (Hu : used some_files = 77) by by vm_compute. rewrite Hu in Hfree.
    destruct (Hfiles 0%nat _ eq_refl) as (_ & _ & _ & _ & H0). destruct (Hfiles 1%nat _ eq_refl) as (_ & _ & H1 & _).
    split_and!; [exact H0 | exact H1 | |].
    + apply Hfree; [unfold FSSIZE; lia | lia].
    + rewrite Hfree by (unfold FSSIZE; lia). lia.
Defined.

End MkfsImage.
