(* ===== verification/Boot.v ===== *)
(** * The boot loader: bootmain.c

    The boot sector reads the kernel, an ELF file, from the first disk and enters it.  It runs
    with physical addresses; the disk is the one of the driver ([AtaHw]). *)

From stdpp Require Import base gmap list strings.
From Stdlib Require Import ZArith Lia.
From S2P Require Import Prelude CString Core Bio Vm Ide Exec.

Module Boot.

Definition SECTSIZE : Z := 512.
(** Scratch space for the first page of the file. *)
Definition elf : Z := 0x10000.
Definition sizeof_proghdr : Z := 32.

(** The fields of the structures in elf.h, in memory. *)
Definition elf_magic (m : mem) : Z := load32 m elf.
Definition elf_entry (m : mem) : Z := load32 m (elf + 24).
Definition elf_phoff (m : mem) : Z := load32 m (elf + 28).
Definition elf_phnum (m : mem) : Z := loadb m (elf + 44) + 2 ^ 8 * loadb m (elf + 45).
Definition ph_off (m : mem) (ph : Z) : Z := load32 m (ph + 4).
Definition ph_paddr (m : mem) (ph : Z) : Z := load32 m (ph + 12).
Definition ph_filesz (m : mem) (ph : Z) : Z := load32 m (ph + 16).
Definition ph_memsz (m : mem) (ph : Z) : Z := load32 m (ph + 20).

Section Ops.
Context {S D : Type} {HLd : Lens S D} {HLm : Lens S mem} {HH : AtaHw D}.
(** The bound on the polls of the status. *)
Context (wf : nat).

Definition inb (p : Z) : M S Z := zoom (at_inb p).
Definition outb (p x : Z) : M S unit := zoom (at_outb p (u8 x)).
Definition getmem {A} (f : mem -> A) : M S A := lgets (T := mem) f.
Definition modmem (f : mem -> mem) : M S unit := lmod (T := mem) f.

Fixpoint waitdisk_loop (fuel : nat) : M S unit :=
  match fuel with
  | O => spin
  | Datatypes.S f => r ← inb p_status; if negb (Z.land r 0xC0 =? 0x40) then waitdisk_loop f else mret tt
  end.
Definition waitdisk : M S unit := waitdisk_loop wf.

Definition readsect (dst offset : Z) : M S unit :=
  waitdisk;;
  outb 0x1F2 1;;
  outb 0x1F3 offset;;
  outb 0x1F4 (Z.shiftr offset 8);;
  outb 0x1F5 (Z.shiftr offset 16);;
  outb 0x1F6 (Z.lor (Z.shiftr offset 24) 0xE0);;
  outb 0x1F7 0x20;;
  waitdisk;;
  b ← zoom (at_insl : M D block);
  modmem (fun m => Vm.store_list m dst b).

(** The loop of [readseg], which goes on while [pa < epa]. *)
Fixpoint readseg_loop (fuel : nat) (pa epa offset : Z) : M S unit :=
  match fuel with
  | O => spin
  | Datatypes.S f =>
      if pa <? epa then
        readsect pa offset;;
        readseg_loop f (u32 (pa + SECTSIZE)) epa (u32 (offset + 1))
      else mret tt
  end.

(** The number of rounds is at most that of the sectors that [count] bytes touch. *)
Definition readseg (pa count offset : Z) : M S unit :=
  let epa := u32 (pa + count) in
  let pa := u32 (pa - offset mod SECTSIZE) in
  let offset := u32 (offset / SECTSIZE + 1) in
  readseg_loop (Z.to_nat (count / SECTSIZE + 3)) pa epa offset.

(** The loop over the program headers, which goes on while [ph < eph]; they are read from
    memory as the segments arrive.  It runs at most [phnum] times. *)
Fixpoint load_segments (fuel : nat) (ph eph : Z) : M S unit :=
  match fuel with
  | O => spin
  | Datatypes.S f =>
      if ph <? eph then
        pa ← getmem (fun m => ph_paddr m ph);
        filesz ← getmem (fun m => ph_filesz m ph);
        off ← getmem (fun m => ph_off m ph);
        readseg pa filesz off;;
        memsz ← getmem (fun m => ph_memsz m ph);
        filesz ← getmem (fun m => ph_filesz m ph);
        (if filesz <? memsz
         then modmem (fun m => Str.stosb m (u32 (pa + filesz)) 0 (Z.to_nat (memsz - filesz)))
         else mret tt);;
        load_segments f (u32 (ph + sizeof_proghdr)) eph
      else mret tt
  end.

(** The address of the kernel's entry point, to which the code jumps, or nothing when the file
    is not an executable and the function returns. *)
Definition bootmain : M S (option Z) :=
  readseg elf 4096 0;;
  magic ← getmem elf_magic;
  if negb (magic =? Exec.ELF_MAGIC) then mret None
  else
    phoff ← getmem elf_phoff;
    phnum ← getmem elf_phnum;
    let ph := u32 (elf + phoff) in
    let eph := u32 (ph + sizeof_proghdr * phnum) in
    load_segments (Datatypes.S (Z.to_nat phnum)) ph eph;;
    entry ← getmem elf_entry;
    mret (Some entry).

End Ops.
End Boot.
