(* ===== verification/BootProof.v ===== *)
(** * The boot loader: the kernel in memory *)

From stdpp Require Import base gmap list strings.
From Stdlib Require Import ZArith Lia.
From S2P Require Import Prelude CString Core Bio Vm Ide Exec IdeProof Boot.
Import Boot.

Module BootProof.

(** Byte [k] of the kernel's file, which starts at sector 1. *)
Definition kbyte (a : ata) (k : Z) : Z := zget 0 (a_disk a 0 (k / SECTSIZE + 1)) (k mod SECTSIZE).

Lemma store_list_spec l : forall m a x, loadb (Vm.store_list m a l) x =
  if (a <=? x) && (x <? a + zlen l) then u8 (zget 0 l (x - a)) else loadb m x.
Proof.
  induction l as [|b l IH]; intros m a x; cbn [Vm.store_list]; [unfold zlen; cbn; zcases|].
  rewrite IH, zlen_cons. destruct (decide (a = x)) as [->|Hne].
  - rewrite loadb_storeb_eq. replace (x + 1 <=? x) with false by lia. pose proof (zlen_nonneg l).
    replace (x <=? x) with true by lia. replace (x <? x + (zlen l + 1)) with true by lia. cbn [andb]. by rewrite Z.sub_diag.
  - rewrite loadb_storeb_ne by done. destruct (Z.leb_spec (a + 1) x) as [H|H]; cbn [andb].
    + replace (a <=? x) with true by lia. cbn [andb]. replace (a + (zlen l + 1)) with (a + 1 + zlen l) by lia.
      destruct (x <? _); [|done]. f_equal. replace (x - a) with (x - (a + 1) + 1) by lia. by rewrite zget_cons_S by lia.
    + replace (a <=? x) with false by lia. done.
Qed.

(** *** Segments *)

Record segm : Type := { g_off : Z; g_pa : Z; g_fsz : Z; g_msz : Z }.

(** The program header at address [ph]. *)
Definition header (m : mem) (ph : Z) : segm :=
  {| g_off := ph_off m ph; g_pa := ph_paddr m ph; g_fsz := ph_filesz m ph; g_msz := ph_memsz m ph |}.

(** Words of the file, and the segments its headers describe. *)
Definition file32 (a : ata) (k : Z) : Z := kbyte a k + 2 ^ 8 * kbyte a (k + 1) + 2 ^ 16 * kbyte a (k + 2) + 2 ^ 24 * kbyte a (k + 3).
Definition file16 (a : ata) (k : Z) : Z := kbyte a k + 2 ^ 8 * kbyte a (k + 1).
Definition segment (a : ata) (i : nat) : segm :=
  let ph := file32 a 28 + 32 * Z.of_nat i in
  {| g_off := file32 a (ph + 4); g_pa := file32 a (ph + 12); g_fsz := file32 a (ph + 16); g_msz := file32 a (ph + 20) |}.
Definition segments (a : ata) : list segm := segment a <$> seq 0 (Z.to_nat (file16 a 44)).

(** Where [readseg] begins and ends to write: whole sectors. *)
Definition seg_lo (pa off : Z) : Z := pa - off mod SECTSIZE.
Definition seg_hi (pa count off : Z) : Z := seg_lo pa off + 512 * ((off mod SECTSIZE + count + 511) / 512).
Definition w_lo (g : segm) : Z := seg_lo (g_pa g) (g_off g).
Definition w_hi (g : segm) : Z := Z.max (seg_hi (g_pa g) (g_fsz g) (g_off g)) (g_pa g + g_msz g).

(** A segment that fits into memory and does not touch the scratch page. *)
Definition seg_ok (g : segm) : Prop :=
  g_off g mod SECTSIZE <= g_pa g /\ 0 <= g_fsz g <= g_msz g /\ g_pa g + g_msz g + 512 < 2 ^ 32 /\
  0 <= g_off g /\ g_off g + g_fsz g + 1024 < 2 ^ 32 /\ (w_hi g <= elf \/ elf + 4096 <= w_lo g).

(** No segment is overwritten by the whole sectors of a later one. *)
Fixpoint ordered (l : list segm) : Prop :=
  match l with
  | [] => True
  | g :: r => Forall (fun g' => g_pa g + g_msz g <= w_lo g' \/ w_hi g' <= g_pa g) r /\ ordered r
  end.

(** The segment is in memory, its tail cleared. *)
Definition loaded (a : ata) (g : segm) (m : mem) : Prop :=
  forall x, g_pa g <= x < g_pa g + g_msz g ->
    loadb m x = if x - g_pa g <? g_fsz g then kbyte a (g_off g + (x - g_pa g)) else 0.

Section Proofs.
Context {D : Type} {HH : AtaHw D} {HLw : AtaLaws D} (wf : nat).

Abbreviation bst := (D * mem)%type.

(** The disk answers within the bound and has sectors of bytes. *)
Definition disk_ok (a : ata) : Prop :=
  (a_busy a <= a_lat a < wf)%nat /\ forall s, 0 <= s < 2 ^ 28 -> block_ok (a_disk a 0 s).

(** The disk after a step: the same sectors. *)
Definition same_disk (a a' : ata) : Prop := a_disk a' = a_disk a /\ disk_ok a'.

Lemma same_disk_out p x a : disk_ok a -> same_disk a (ata_out p x a).
Proof.
  intros [Hb Hs]. unfold ata_out. split; [by destruct (p =? p_status)|]. split; [|by destruct (p =? p_status)].
  destruct (p =? p_status); cbn [a_busy a_lat]; lia.
Qed.

Lemma wp_waitdisk_loop m (Q : unit -> bst -> Prop) : forall fuel d, (a_busy (av d) < fuel)%nat ->
  (forall d', av d' = ata_set_busy 0 (av d) -> Q tt (d', m)) -> wp (waitdisk_loop (S := bst) fuel) (d, m) Q.
Proof.
  induction fuel as [|f IH]; intros d Hf HQ; [lia|]. cbn [waitdisk_loop]. apply wp_bind, wp_zoom, at_status_law.
  - intros r d' Hr Hb Hd. unfold ready in Hr. rewrite Hr. cbn [negb lget lset lens_fst lens_snd lens_id fst snd] in *.
    apply IH; [lia|]. intros d2 Hd2. apply HQ. by rewrite Hd2, Hd.
  - intros r d' Hr _ Hd. unfold ready in Hr. rewrite Hr. cbn [negb]. apply wp_ret. by apply HQ.
Qed.

Lemma wp_waitdisk d m (Q : unit -> bst -> Prop) : disk_ok (av d) ->
  (forall d', av d' = ata_set_busy 0 (av d) -> Q tt (d', m)) -> wp (waitdisk (S := bst) wf) (d, m) Q.
Proof. intros [? _]. apply wp_waitdisk_loop. lia. Qed.

Lemma wp_boot_outb d m p x (Q : unit -> bst -> Prop) :
  (forall d', av d' = ata_out p (u8 x) (av d) -> Q tt (d', m)) -> wp (outb (S := bst) p x) (d, m) Q.
Proof. intros HQ. apply wp_zoom, at_outb_law. exact HQ. Qed.

(** The registers after the stores of [readsect] name the sector of the first drive. *)
Lemma sector_regs offset a : 0 <= offset < 2 ^ 28 ->
  let a' := ata_out 0x1F7 0x20 (ata_out 0x1F6 (u8 (Z.lor (Z.shiftr offset 24) 0xE0)) (ata_out 0x1F5 (u8 (Z.shiftr offset 16))
    (ata_out 0x1F4 (u8 (Z.shiftr offset 8)) (ata_out 0x1F3 (u8 offset) a)))) in
  a_sector a' = offset /\ a_drive a' = 0 /\ a_cmd a' = IDE_CMD_READ.
Proof.
  intros Ho. rewrite !Z.shiftr_div_pow2 by lia. intros a'.
  assert (Hh : 0 <= offset / 2 ^ 24 < 16) by (change (2 ^ 24) with 16777216; Z.div_mod_to_equations; lia).
  set (h := offset / 2 ^ 24) in *.
  assert (Hr : u8 (Z.lor h 0xE0) = h + 0xE0 /\ Z.land (h + 0xE0) 0xf = h /\ Z.land (Z.shiftr (h + 0xE0) 4) 1 = 0).
  { assert (h ∈ [0;1;2;3;4;5;6;7;8;9;10;11;12;13;14;15]) as Hin by (rewrite !elem_of_cons; lia).
    clear -Hin. repeat (apply elem_of_cons in Hin as [->|Hin]; [by vm_compute|]). by apply not_elem_of_nil in Hin. }
  destruct Hr as (E1 & E2 & E3).
  assert (Hs : a_sector a' = u8 offset + 2 ^ 8 * u8 (offset / 2 ^ 8) + 2 ^ 16 * u8 (offset / 2 ^ 16) + 2 ^ 24 * Z.land (u8 (Z.lor h 0xE0)) 0xf) by done.
  assert (Hd : a_drive a' = Z.land (Z.shiftr (u8 (Z.lor h 0xE0)) 4) 1) by done.
  rewrite Hs, Hd, E1, E2, E3. split_and!; [| done | done]. unfold h, u8. change (2 ^ 24) with 16777216. change (2 ^ 16) with 65536.
  change (2 ^ 8) with 256. change (2 ^ 28) with 268435456 in Ho. Z.div_mod_to_equations. lia.
Qed.

Lemma wp_readsect d m dst offset (Q : unit -> bst -> Prop) : disk_ok (av d) -> 0 <= offset < 2 ^ 28 ->
  (forall d', same_disk (av d) (av d') -> Q tt (d', Vm.store_list m dst (a_disk (av d) 0 offset))) ->
  wp (readsect wf dst offset) (d, m) Q.
Proof.
  intros Hok Ho HQ. unfold readsect. apply wp_bind, wp_waitdisk; [done|]. intros d0 E0.
  apply wp_bind, wp_boot_outb; intros d1 E1. apply wp_bind, wp_boot_outb; intros d2 E2. apply wp_bind, wp_boot_outb; intros d3 E3.
  apply wp_bind, wp_boot_outb; intros d4 E4. apply wp_bind, wp_boot_outb; intros d5 E5. apply wp_bind, wp_boot_outb; intros d6 E6.
  assert (E : av d6 = ata_out 0x1F7 0x20 (ata_out 0x1F6 (u8 (Z.lor (Z.shiftr offset 24) 0xE0)) (ata_out 0x1F5 (u8 (Z.shiftr offset 16))
    (ata_out 0x1F4 (u8 (Z.shiftr offset 8)) (ata_out 0x1F3 (u8 offset) (ata_out 0x1F2 1 (ata_set_busy 0 (av d)))))))) by by rewrite E6, E5, E4, E3, E2, E1, E0.
  clear E1 E2 E3 E4 E5 E6. destruct (sector_regs offset (ata_out 0x1F2 1 (ata_set_busy 0 (av d))) Ho) as (Hsec & Hdr & Hcmd).
  rewrite <- E in Hsec, Hdr, Hcmd. assert (Hs : same_disk (av d) (av d6)).
  { rewrite E. destruct Hok as [Hb Hsec']. split; [done|]. split; [cbn; lia | done]. }
  apply wp_bind, wp_waitdisk; [apply Hs|]. intros d7 E7. apply wp_bind, wp_zoom, at_insl_law; cbn [lget lens_fst lens_id fst].
  { by rewrite E7. }
  intros d8 E8. unfold modmem. apply wp_lmod. cbn [lget lset lens_fst lens_snd lens_id fst snd].
  replace (a_disk (av d7) (a_drive (av d7)) (a_sector (av d7))) with (a_disk (av d) 0 offset).
  - apply HQ. rewrite E8, E7. destruct Hs as [Hd [? ?]]. split; [done|]. split; [cbn; lia | done].
  - rewrite E7. change (a_sector (ata_set_busy 0 (av d6))) with (a_sector (av d6)).
    change (a_drive (ata_set_busy 0 (av d6))) with (a_drive (av d6)). rewrite Hsec, Hdr. cbn [ata_set_busy a_disk]. by rewrite (proj1 Hs).
Qed.

Lemma same_disk_trans a b c : same_disk a b -> same_disk b c -> same_disk a c.
Proof. intros [E1 _] [E2 H]. split; [congruence | done]. Qed.
Lemma same_disk_refl a : disk_ok a -> same_disk a a.
Proof. by split. Qed.
Lemma same_disk_kbyte a b k : same_disk a b -> kbyte b k = kbyte a k.
Proof. intros [E _]. unfold kbyte. by rewrite E. Qed.

(** Memory [m] with the file from byte [o] on at addresses [lo] to [hi]. *)
Definition filled (a : ata) (m m' : mem) (lo hi o : Z) : Prop :=
  forall x, loadb m' x = if (lo <=? x) && (x <? hi) then kbyte a (o + (x - lo)) else loadb m x.

Lemma filled_sector a m pa s : disk_ok a -> 1 <= s < 2 ^ 28 ->
  filled a m (Vm.store_list m pa (a_disk a 0 s)) pa (pa + 512) (512 * (s - 1)).
Proof.
  intros [_ Hok] Hs x. destruct (Hok s ltac:(lia)) as [Hl Hb]. rewrite store_list_spec. unfold zlen. rewrite Hl. change (Z.of_nat 512) with 512.
  destruct ((pa <=? x) && (x <? pa + 512)) eqn:E; [|done]. zbool. unfold kbyte, SECTSIZE.
  replace ((512 * (s - 1) + (x - pa)) / 512 + 1) with s by (Z.div_mod_to_equations; lia).
  replace ((512 * (s - 1) + (x - pa)) mod 512) with (x - pa) by (Z.div_mod_to_equations; lia).
  apply u8_small. unfold zget. case_bool; [lia|]. destruct (a_disk a 0 s !! Z.to_nat (x - pa)) as [y|] eqn:Ey; cbn; [|lia].
  rewrite Forall_forall in Hb. apply Hb. by eapply list_elem_of_lookup_2.
Qed.

Lemma filled_app a m m1 m2 lo mid hi o : lo <= mid <= hi -> filled a m m1 lo mid o -> filled a m1 m2 mid hi (o + (mid - lo)) ->
  filled a m m2 lo hi o.
Proof.
  intros Hm H1 H2 x. rewrite H2, H1. destruct (Z.leb_spec lo x), (Z.leb_spec mid x), (Z.ltb_spec x mid), (Z.ltb_spec x hi);
    cbn [andb]; try lia; try done. f_equal. lia.
Qed.

Lemma wp_readseg_loop epa r : forall fuel pa s d m (Q : unit -> bst -> Prop), disk_ok (av d) -> (r < fuel)%nat ->
  0 <= pa -> pa + 512 * Z.of_nat r < 2 ^ 32 -> 1 <= s -> s + Z.of_nat r < 2 ^ 28 -> epa <= pa + 512 * Z.of_nat r ->
  (r = O \/ pa + 512 * (Z.of_nat r - 1) < epa) ->
  (forall d' m', same_disk (av d) (av d') -> filled (av d) m m' pa (pa + 512 * Z.of_nat r) (512 * (s - 1)) -> Q tt (d', m')) ->
  wp (readseg_loop wf fuel pa epa s) (d, m) Q.
Proof.
  induction r as [|r IH]; intros [|f] pa s d m Q Hok Hf Hpa Hmax Hs Hsm He Hr HQ; try lia; cbn [readseg_loop].
  - rewrite (proj2 (Z.ltb_ge _ _)) by lia. apply wp_ret. apply HQ; [by apply same_disk_refl|]. intros x. zcases.
  - rewrite (proj2 (Z.ltb_lt _ _)) by lia. apply wp_bind, wp_readsect; [done | lia |]. intros d1 Hd1. unfold SECTSIZE.
    rewrite !u32_small by lia. apply IH; [apply Hd1 | lia.. |]. intros d2 m2 Hd2 Hm2.
    apply HQ; [by eapply same_disk_trans|]. eapply (filled_app _ _ _ _ _ (pa + 512)); [lia | by apply filled_sector; [|lia] |].
    intros x. rewrite Hm2. rewrite (same_disk_kbyte _ _ _ Hd1). replace (pa + 512 + 512 * Z.of_nat r) with (pa + 512 * Z.of_nat (S r)) by lia.
    by replace (512 * (s - 1) + (pa + 512 - pa)) with (512 * (s + 1 - 1)) by lia.
Qed.

Lemma wp_readseg d m pa count off (Q : unit -> bst -> Prop) : disk_ok (av d) -> off mod SECTSIZE <= pa -> 0 <= count ->
  pa + count + 512 < 2 ^ 32 -> 0 <= off -> off + count + 1024 < 2 ^ 32 ->
  (forall d' m', same_disk (av d) (av d') -> filled (av d) m m' (seg_lo pa off) (seg_hi pa count off) (off - off mod SECTSIZE) -> Q tt (d', m')) ->
  wp (readseg wf pa count off) (d, m) Q.
Proof.
  intros Hok Hpa Hc Hmax Ho Hom HQ. unfold readseg, seg_lo, seg_hi, SECTSIZE in *.
  pose proof (Z.mod_pos_bound off 512 ltac:(lia)) as Hmod. pose proof (Z.div_mod off 512 ltac:(lia)) as Hdm. set (k := off mod 512) in *. set (q := off / 512) in *.
  assert (Hq : 0 <= q < 2 ^ 23) by (change (2 ^ 23) with 8388608; lia).
  set (r := (k + count + 511) / 512) in *. assert (Hr : 512 * r <= k + count + 511 < 512 * (r + 1)) by (unfold r; Z.div_mod_to_equations; lia).
  rewrite !u32_small by lia. apply (wp_readseg_loop _ (Z.to_nat r)); [done | | lia.. |].
  { assert (r <= count / 512 + 2) by (unfold r; Z.div_mod_to_equations; lia). lia. }
  intros d' m' Hd Hm. apply HQ; [done|]. rewrite Z2Nat.id in Hm by lia. intros x. rewrite Hm.
  by replace (512 * (q + 1 - 1)) with (off - k) by lia.
Qed.

Lemma header_ext m m' ph : (forall x, ph <= x < ph + 32 -> loadb m' x = loadb m x) -> header m' ph = header m ph.
Proof.
  intros H. unfold header, ph_off, ph_paddr, ph_filesz, ph_memsz, load32. by rewrite !H by lia.
Qed.

(** One round of the loop. *)
Lemma segment_loaded a m m1 g : seg_ok g ->
  filled a m m1 (w_lo g) (seg_hi (g_pa g) (g_fsz g) (g_off g)) (g_off g - g_off g mod SECTSIZE) ->
  let m2 := if g_fsz g <? g_msz g then Str.stosb m1 (g_pa g + g_fsz g) 0 (Z.to_nat (g_msz g - g_fsz g)) else m1 in
  loaded a g m2 /\ forall x, x < w_lo g \/ w_hi g <= x -> loadb m2 x = loadb m x.
Proof.
  intros (Hpa & Hsz & _ & Ho & _ & _) Hf m2. pose proof (Z.mod_pos_bound (g_off g) SECTSIZE ltac:(done)) as Hmod.
  assert (Hlo : w_lo g <= g_pa g) by (unfold w_lo, seg_lo; lia).
  assert (Hhi : g_pa g + g_fsz g <= seg_hi (g_pa g) (g_fsz g) (g_off g)) by (unfold seg_hi, seg_lo; Z.div_mod_to_equations; lia).
  assert (E : forall x, loadb m2 x = if (g_pa g + g_fsz g <=? x) && (x <? g_pa g + g_msz g) then 0 else loadb m1 x).
  { intros x. unfold m2. destruct (Z.ltb_spec (g_fsz g) (g_msz g)) as [Hlt|Hge].
    - rewrite Str.stosb_spec. replace (g_pa g + g_fsz g + Z.of_nat (Z.to_nat (g_msz g - g_fsz g))) with (g_pa g + g_msz g) by lia. done.
    - destruct (Z.leb_spec (g_pa g + g_fsz g) x), (Z.ltb_spec x (g_pa g + g_msz g)); cbn [andb]; try done; lia. }
  split.
  - intros x Hx. rewrite E, Hf. destruct (Z.ltb_spec (x - g_pa g) (g_fsz g)) as [Hlt|Hge].
    + rewrite (proj2 (Z.leb_gt (g_pa g + g_fsz g) x)) by lia. cbn [andb].
      rewrite (proj2 (Z.leb_le _ _)), (proj2 (Z.ltb_lt _ _)) by lia. cbn [andb]. f_equal. unfold w_lo, seg_lo. lia.
    + by rewrite (proj2 (Z.leb_le _ _)), (proj2 (Z.ltb_lt _ _)) by lia.
  - intros x Hx. unfold w_hi in Hx. rewrite E, Hf. destruct (Z.leb_spec (g_pa g + g_fsz g) x), (Z.ltb_spec x (g_pa g + g_msz g)); cbn [andb]; [lia | ..];
    by destruct (Z.leb_spec (w_lo g) x), (Z.ltb_spec x (seg_hi (g_pa g) (g_fsz g) (g_off g))); cbn [andb]; try lia.
Qed.

Lemma wp_load_segments l : forall fuel ph d m (Q : unit -> bst -> Prop), disk_ok (av d) -> (length l < fuel)%nat ->
  elf <= ph -> ph + 32 * zlen l <= elf + 4096 -> (forall i g, l !! i = Some g -> header m (ph + 32 * Z.of_nat i) = g) ->
  Forall seg_ok l -> ordered l ->
  (forall d' m', same_disk (av d) (av d') -> Forall (fun g => loaded (av d) g m') l ->
     (forall x, Forall (fun g => x < w_lo g \/ w_hi g <= x) l -> loadb m' x = loadb m x) -> Q tt (d', m')) ->
  wp (load_segments wf fuel ph (ph + 32 * zlen l)) (d, m) Q.
Proof.
  induction l as [|g l IH]; intros [|f] ph d m Q Hd Hf Hlo Hhi Hh Hok Hord HQ; [cbn in Hf; lia | | cbn in Hf; lia |]; cbn [load_segments].
  - change (zlen []) with 0. rewrite (proj2 (Z.ltb_ge _ _)) by lia. apply wp_ret, HQ; [by apply same_disk_refl | done | done].
  - rewrite zlen_cons in *. pose proof (zlen_nonneg l) as Hl0. rewrite (proj2 (Z.ltb_lt _ _)) by lia. unfold elf in *.
    assert (Hg : forall m', (forall x, elf <= x < elf + 4096 -> loadb m' x = loadb m x) -> header m' ph = g).
    { intros m' Hm'. rewrite (header_ext m); [rewrite <- (Hh O g eq_refl); f_equal; lia|]. intros x Hx. apply Hm'. unfold elf. lia. }
    inversion Hok as [|? ? Hgok Hlok]; subst. destruct Hord as [Hg' Hord]. pose proof Hgok as (Hpa & Hsz & Hmax & Ho & Hom & Hscr).
    pose proof (Z.mod_pos_bound (g_off g) SECTSIZE ltac:(done)). pose proof (Hg m ltac:(done)) as Hgm. unfold header in Hgm. unfold getmem. wp_step. cbn [lget lens_snd lens_id snd].
    assert (E1 : ph_paddr m ph = g_pa g) by (by rewrite <- Hgm). assert (E2 : ph_filesz m ph = g_fsz g) by (by rewrite <- Hgm).
    assert (E3 : ph_off m ph = g_off g) by (by rewrite <- Hgm). rewrite E1, E2, E3.
    apply wp_readseg; [done | done | lia | lia | lia | lia |]. intros d1 m1 Hd1 Hf1. wp_step. cbn [lget lens_snd lens_id snd].
    assert (Hm1 : header m1 ph = g).
    { apply Hg. intros x Hx. rewrite Hf1. unfold w_lo, w_hi in Hscr.
      destruct (Z.leb_spec (seg_lo (g_pa g) (g_off g)) x), (Z.ltb_spec x (seg_hi (g_pa g) (g_fsz g) (g_off g))); cbn [andb]; try done. lia. }
    assert (E4 : ph_memsz m1 ph = g_msz g) by (by rewrite <- Hm1). assert (E5 : ph_filesz m1 ph = g_fsz g) by (by rewrite <- Hm1).
    rewrite E4, E5. destruct (segment_loaded _ _ _ _ Hgok Hf1) as [Hld Hfr]. cbv zeta in Hld, Hfr.
    set (m2 := if g_fsz g <? g_msz g then _ else m1) in *.
    apply (wp_conseq _ _ (fun _ s' => s' = (d1, m2))).
    { unfold m2. destruct (g_fsz g <? g_msz g); [unfold modmem; wp_step; cbn; by rewrite u32_small by lia | by apply wp_ret]. }
    intros [] s' ->. unfold sizeof_proghdr. rewrite u32_small by lia. replace (ph + 32 * (zlen l + 1)) with (ph + 32 + 32 * zlen l) by lia.
    apply IH; [apply Hd1 | cbn in Hf; lia | lia | unfold elf; lia | | done | done |].
    + intros i g' Hi. rewrite (header_ext m); [rewrite <- (Hh (S i) g' Hi); f_equal; lia|]. intros x Hx. apply Hfr.
      pose proof (lookup_lt_Some _ _ _ Hi). unfold elf, zlen in *. lia.
    + intros d3 m3 Hd3 Hl3 Hfr3. apply HQ; [by eapply same_disk_trans | |].
      * constructor; [|eapply Forall_impl; [exact Hl3|]; intros g' Hg3 x Hx; rewrite (Hg3 x Hx); by rewrite (same_disk_kbyte _ _ _ Hd1)].
        intros x Hx. rewrite Hfr3; [by apply Hld|]. eapply Forall_impl; [exact Hg'|]. cbn. intros g2. lia.
      * intros x Hx. inversion Hx; subst. rewrite Hfr3 by done. by apply Hfr.
Qed.

Lemma kbyte_range a k : disk_ok a -> 0 <= k < 4096 -> 0 <= kbyte a k < 256.
Proof.
  intros [_ Hs] Hk. destruct (Hs (k / SECTSIZE + 1)) as [_ Hf]; [unfold SECTSIZE; Z.div_mod_to_equations; lia|].
  unfold kbyte, zget. case_bool; [lia|]. destruct (_ !! _) as [y|] eqn:E; cbn; [|lia]. rewrite Forall_forall in Hf. apply Hf.
  by eapply list_elem_of_lookup_2.
Qed.

(** C19: The boot loader loads the kernel.  The file starts at sector 1 of the first disk; its
    headers lie in the first page, its segments fit into memory, stay clear of the scratch page
    and are not overwritten by the whole sectors of later ones.  Then the loader returns, the
    disk is unchanged, every segment is in memory at its physical address with the bytes of the
    file and zeroes after them, and control goes to the entry point of the file.  A file with
    another magic number is not entered, and only the scratch page has been written. *)
Theorem boot_loads_kernel d m : disk_ok (av d) -> file32 (av d) 28 + 32 * file16 (av d) 44 <= 4096 ->
  Forall seg_ok (segments (av d)) -> ordered (segments (av d)) ->
  exists r d' m', bootmain wf (d, m) = Ret r (d', m') /\ a_disk (av d') = a_disk (av d) /\
    if file32 (av d) 0 =? Exec.ELF_MAGIC
    then r = Some (file32 (av d) 24) /\ Forall (fun g => loaded (av d) g m') (segments (av d))
    else r = None /\ forall x, x < elf \/ elf + 4096 <= x -> loadb m' x = loadb m x.
Proof.
  intros Hd Hph Hok Hord. set (a := av d) in *.
  assert (H : wp (bootmain wf) (d, m) (fun r s => a_disk (av s.1) = a_disk a /\
    if file32 a 0 =? Exec.ELF_MAGIC then r = Some (file32 a 24) /\ Forall (fun g => loaded a g s.2) (segments a)
    else r = None /\ forall x, x < elf \/ elf + 4096 <= x -> loadb s.2 x = loadb m x)).
  2: { destruct H as (r & [d' m'] & E & H). by exists r, d', m'. }
  assert (Hb : forall k, 0 <= k < 4096 -> 0 <= kbyte a k < 256) by (intros; by apply kbyte_range).
  assert (H28 : 0 <= file32 a 28) by (unfold file32; pose proof (Hb 28); pose proof (Hb (28 + 1)); pose proof (Hb (28 + 2)); pose proof (Hb (28 + 3)); lia).
  assert (H44 : 0 <= file16 a 44) by (unfold file16; pose proof (Hb 44); pose proof (Hb (44 + 1)); lia).
  unfold bootmain. apply wp_bind, wp_readseg; [done | done | lia | unfold elf; lia | lia | lia |]. intros d1 m1 Hd1 Hf1.
  assert (Hm1 : forall k, 0 <= k < 4096 -> loadb m1 (elf + k) = kbyte a k).
  { intros k Hk. rewrite Hf1. change (seg_lo elf 0) with elf. change (seg_hi elf 4096 0) with (elf + 4096).
    rewrite (proj2 (Z.leb_le _ _)), (proj2 (Z.ltb_lt _ _)) by lia. cbn [andb]. change (0 - 0 mod SECTSIZE) with 0. fold a. f_equal. lia. }
  assert (Hw : forall k, 0 <= k <= 4092 -> load32 m1 (elf + k) = file32 a k).
  { intros k Hk. unfold load32, file32. rewrite <- !Z.add_assoc, !Hm1 by lia. done. }
  unfold getmem. wp_step. cbn [lget lens_snd lens_id snd]. unfold elf_magic. replace (load32 m1 elf) with (file32 a 0) by (rewrite <- (Hw 0) by lia; f_equal; lia).
  destruct (Z.eqb_spec (file32 a 0) Exec.ELF_MAGIC) as [Em|Em]; cbn [negb].
  2: { apply wp_ret. cbn [fst snd]. split; [apply Hd1|]. split; [done|]. intros x Hx. rewrite Hf1. change (seg_lo elf 0) with elf.
       change (seg_hi elf 4096 0) with (elf + 4096). destruct (Z.leb_spec elf x), (Z.ltb_spec x (elf + 4096)); cbn [andb]; try done; lia. }
  wp_step. cbn [lget lens_snd lens_id snd]. unfold elf_phoff, elf_phnum, elf_entry. rewrite Hw by lia. rewrite !Hm1 by lia. change (kbyte a 44 + 2 ^ 8 * kbyte a 45) with (file16 a 44).
  assert (Hlen : zlen (segments a) = file16 a 44) by (unfold zlen, segments; rewrite length_fmap, length_seq; lia).
  unfold sizeof_proghdr. rewrite !u32_small by (unfold elf; lia). rewrite <- Hlen.
  apply wp_load_segments; [apply Hd1 | unfold zlen; lia | lia | lia | | done | done |].
  - intros i g Hi. apply list_lookup_fmap_Some in Hi as (j & -> & Hj). apply lookup_seq in Hj as [-> Hj]. cbn [Nat.add].
    unfold header, segment, ph_off, ph_paddr, ph_filesz, ph_memsz. rewrite <- !Z.add_assoc, !Hw by lia. by rewrite !Z.add_assoc.
  - intros d2 m2 Hd2 Hl2 Hfr2. wp_step. cbn [lget lens_snd lens_id snd fst]. split; [by apply (same_disk_trans _ _ _ Hd1 Hd2)|].
    split; [f_equal; unfold load32 | eapply Forall_impl; [exact Hl2|]; intros g Hg x Hx; rewrite (Hg x Hx); by rewrite (same_disk_kbyte _ _ _ Hd1)].
    rewrite !Hfr2; [by apply (Hw 24) | ..]; eapply Forall_impl; try exact Hok; intros g (_ & _ & _ & _ & _ & Hscr); lia.
Qed.

End Proofs.

#[local] Existing Instance IdeProof.ata_hw.
#[local] Existing Instance IdeProof.ata_laws.

(** A disk with a kernel of two segments. *)
Definition put_header (b : block) (o : Z) (g : segm) : block :=
  put32 (put32 (put32 (put32 (put32 b o 1) (o + 4) (g_off g)) (o + 12) (g_pa g)) (o + 16) (g_fsz g)) (o + 20) (g_msz g).
Definition text_seg : segm := {| g_off := 1000; g_pa := 0x100000; g_fsz := 600; g_msz := 1000 |}.
Definition data_seg : segm := {| g_off := 2048; g_pa := 0x101000; g_fsz := 100; g_msz := 100 |}.
Definition first_sector : block :=
  put_header (put_header (put32 (put32 (put32 (put32 (replicate 512 0) 0 Exec.ELF_MAGIC) 24 0x10000c) 28 52) 44 2) 52 text_seg) 84 data_seg.
Definition boot_disk : ata :=
  {| a_reg := fun _ => 0; a_cmd := 0; a_disk := fun _ s => if s =? 1 then first_sector else replicate 512 (u8 s); a_busy := 1; a_lat := 2 |}.

Lemma boot_loads_kernel_witness : exists (d' : ata) (m' : mem), bootmain (D := ata) 5 (boot_disk, ∅) = Ret (Some 0x10000c) (d', m') /\
  loaded boot_disk text_seg m' /\ loadb m' 0x100000 = 2 /\ loadb m' 0x100258 = 0.
Proof.
  assert (Hseg : segments boot_disk = [text_seg; data_seg]) by by vm_compute.
  destruct (boot_loads_kernel (D := ata) 5 boot_disk ∅) as (r & d' & m' & E & _ & H).
  - split; [cbn; lia|]. intros s _. cbn [boot_disk a_disk av IdeProof.ata_laws]. destruct (s =? 1).
    + split; [by vm_compute | refine (bool_decide_unpack _ _); by vm_compute].
    + split; [done|]. apply Forall_replicate, u8_range.
  - by vm_compute.
  - cbn [av IdeProof.ata_laws]. rewrite Hseg. repeat (apply Forall_cons; split; [unfold seg_ok; refine (bool_decide_unpack _ _); by vm_compute|]).
    by apply Forall_nil.
  - cbn [av IdeProof.ata_laws]. rewrite Hseg. cbn [ordered]. split_and!; [| by apply Forall_nil | done]. apply Forall_cons. split; [left; by vm_compute | by apply Forall_nil].
  - cbn [av IdeProof.ata_laws] in H. rewrite Hseg in H. change (file32 boot_disk 0 =? Exec.ELF_MAGIC) with true in H. cbn iota in H. destruct H as [-> Hl].
    exists d', m'. split; [exact E|]. apply Forall_cons in Hl as [Ht _]. split_and!; [done | |]; rewrite (Ht _) by (cbn; lia); by vm_compute.
Defined.

End BootProof.
