(* ===== verification/ExecProof.v ===== *)
(** * Program loading: the stack of the new image

    [exec] copies the arguments through the new page table into the stack page of the
    image, below it the page that [clearpteu] made inaccessible.  The theorem here says
    what the new program finds through its own addresses, when the arguments do not fit,
    and that nothing outside of the stack page changes. *)

From stdpp Require Import base gmap list strings.
From Stdlib Require Import ZArith Lia.
From S2P Require Import Prelude CString Core Kalloc Vm VmProof VmFree BootProof Syscall Exec.
Import Vm VmProof VmFree Exec.

Module ExecProof.

(** ** What the user program reads *)

Definition ubyte (m : mem) (d va : Z) : Z := loadb m (pt_base (mapping m d va) + va mod PGSIZE).
Definition uword (m : mem) (d va : Z) : Z := load32 m (pt_base (mapping m d va) + va mod PGSIZE).

(** The string [s] with its final zero, at the user address [p]. *)
Definition ustring (m : mem) (d p : Z) (s : list Z) : Prop :=
  forall j, 0 <= j <= zlen s -> ubyte m d (p + j) = zget 0 (s ++ [0]) j.

(** The arguments of [main] as [exec] passes them: a return address that faults, argc,
    argv, and at argv the pointers to the strings with a null pointer after them. *)
Definition main_args (m : mem) (d sp : Z) (argv : list (list Z)) : Prop :=
  uword m d sp = 0xffffffff /\ uword m d (sp + 4) = zlen argv /\ uword m d (sp + 8) = sp + 12 /\
  (forall i s, argv !! i = Some s -> ustring m d (uword m d (sp + 12 + 4 * Z.of_nat i)) s) /\
  uword m d (sp + 12 + 4 * zlen argv) = 0.

(** ** The layout *)

(** The bytes that a string takes on the stack. *)
Definition arg_room (s : list Z) : Z := (zlen s + 4) / 4 * 4.
Definition args_room (argv : list (list Z)) : Z := foldr (fun s n => arg_room s + n) 0 argv.
(** All of it: the strings and [argc + 4] words. *)
Definition stack_room (argv : list (list Z)) : Z := args_room argv + 4 * (zlen argv + 4).

(** Where the strings are. *)
Fixpoint arg_ptrs (sp : Z) (argv : list (list Z)) : list Z :=
  match argv with
  | [] => []
  | s :: argv' => (sp - arg_room s) :: arg_ptrs (sp - arg_room s) argv'
  end.

Definition is_arg (s : list Z) : Prop := zlen s < PGSIZE /\ Forall (fun c => 0 <= c < 256) s.

Lemma arg_room_range s : zlen s + 1 <= arg_room s <= zlen s + 4 /\ arg_room s mod 4 = 0.
Proof. unfold arg_room. Z.div_mod_to_equations; lia. Qed.

Lemma args_room_nonneg argv : 0 <= args_room argv /\ args_room argv mod 4 = 0.
Proof.
  induction argv as [|s argv [IH IH4]]; cbn [args_room foldr]; [done|]. fold (args_room argv).
  pose proof (arg_room_range s) as [Hr H4]. pose proof (zlen_nonneg s). split; [lia|].
  Z.div_mod_to_equations; lia.
Qed.

Lemma length_arg_ptrs argv : forall sp, length (arg_ptrs sp argv) = length argv.
Proof. induction argv as [|s argv IH]; intros sp; cbn; [done|]. by rewrite IH. Qed.

Lemma arg_ptrs_range argv : forall sp p, p ∈ arg_ptrs sp argv -> sp - args_room argv <= p < sp.
Proof.
  induction argv as [|s argv IH]; intros sp p; cbn [arg_ptrs args_room foldr]; [by intros ?%elem_of_nil|].
  fold (args_room argv). pose proof (arg_room_range s). pose proof (zlen_nonneg s).
  pose proof (args_room_nonneg argv). intros [->|Hp]%elem_of_cons; [lia|]. apply IH in Hp. lia.
Qed.

(** Each string ends before the top of the stack. *)
Lemma arg_ptrs_end argv : forall sp i p s, arg_ptrs sp argv !! i = Some p -> argv !! i = Some s ->
  sp - args_room argv <= p /\ p + zlen s < sp.
Proof.
  induction argv as [|s0 argv IH]; intros sp i p s; cbn [arg_ptrs args_room foldr]; [by destruct i|].
  fold (args_room argv). pose proof (arg_room_range s0). pose proof (zlen_nonneg s0). pose proof (args_room_nonneg argv).
  destruct i as [|i]; cbn; [intros [= <-] [= <-]; lia|]. intros Hp Hs. destruct (IH _ _ _ _ Hp Hs). lia.
Qed.

Lemma land_not3 x : Z.land x (Z.lnot 3) = x - x mod 4.
Proof.
  change 3 with (Z.ones 2). rewrite <- Z.ldiff_land, Z.ldiff_ones_r by lia.
  rewrite Z.shiftl_mul_pow2, Z.shiftr_div_pow2 by lia. change (2 ^ 2) with 4. Z.div_mod_to_equations; lia.
Qed.

Lemma push_sp_eq sp s : sp mod 4 = 0 -> arg_room s <= sp < 2 ^ 32 -> push_sp sp s = sp - arg_room s.
Proof.
  intros H4 Hr. unfold push_sp. rewrite land_not3. pose proof (arg_room_range s). pose proof (zlen_nonneg s).
  rewrite u32_small by lia. unfold arg_room in *. Z.div_mod_to_equations; lia.
Qed.

(** ** Words in memory *)

(** Memory that differs from [m] only between [lo] and [hi]. *)
Definition differs_in (m m' : mem) (lo hi : Z) : Prop :=
  forall a, a < lo \/ hi <= a -> loadb m' a = loadb m a.

Lemma differs_wider m m' lo hi lo' hi' : differs_in m m' lo hi -> lo' <= lo -> hi <= hi' -> differs_in m m' lo' hi'.
Proof. intros Hd H1 H2 a Ha. apply Hd. lia. Qed.

Lemma differs_trans m m1 m' lo hi : differs_in m m1 lo hi -> differs_in m1 m' lo hi -> differs_in m m' lo hi.
Proof. intros H1 H2 a Ha. by rewrite H2, H1. Qed.

Lemma load32_differs m m' lo hi a : differs_in m m' lo hi -> a + 4 <= lo \/ hi <= a -> load32 m' a = load32 m a.
Proof. intros Hd Ha. unfold load32. rewrite !Hd by lia. done. Qed.

Lemma store_list_ok m a buf : bytes_ok m -> bytes_ok (store_list m a buf).
Proof. revert m a. induction buf as [|b buf IH]; intros m a Hm; cbn; [done|]. apply IH. auto with cint. Qed.

Lemma store_list_differs m a buf : differs_in m (store_list m a buf) a (a + zlen buf).
Proof. intros x Hx. rewrite BootProof.store_list_spec. by replace ((a <=? x) && (x <? a + zlen buf)) with false by lia. Qed.

Lemma zlen_words ws : zlen (ws ≫= Syscall.bytes32) = 4 * zlen ws.
Proof. induction ws as [|w ws IH]; [done|]. cbn [mbind list_bind]. rewrite zlen_app, IH, zlen_cons. change (zlen (Syscall.bytes32 w)) with 4. lia. Qed.

Lemma load32_bytes m a w : 0 <= w < 2 ^ 32 -> load32 (store_list m a (Syscall.bytes32 w)) a = w.
Proof.
  intros Hw. unfold load32, Syscall.bytes32. cbn [store_list].
  replace (a + 1 + 1) with (a + 2) by lia. replace (a + 2 + 1) with (a + 3) by lia.
  repeat (rewrite ?loadb_storeb_eq, ?loadb_storeb_ne by lia). unfold u8. Z.div_mod_to_equations; lia.
Qed.

Lemma load32_words ws : forall m a i, Forall (fun w => 0 <= w < 2 ^ 32) ws -> 0 <= i < zlen ws ->
  load32 (store_list m a (ws ≫= Syscall.bytes32)) (a + 4 * i) = zget 0 ws i.
Proof.
  induction ws as [|w ws IH]; intros m a i HF Hi; [unfold zlen in Hi; cbn in Hi; lia|].
  apply Forall_cons in HF as [Hw HF]. rewrite zlen_cons in Hi.
  change (store_list m a ((w :: ws) ≫= Syscall.bytes32))
    with (store_list (store_list m a (Syscall.bytes32 w)) (a + 1 + 1 + 1 + 1) (ws ≫= Syscall.bytes32)).
  replace (a + 1 + 1 + 1 + 1) with (a + 4) by lia. destruct (decide (i = 0)) as [->|Hne].
  - rewrite (load32_differs _ _ _ _ _ (store_list_differs _ _ _)) by lia. rewrite Z.mul_0_r, Z.add_0_r. by apply load32_bytes.
  - replace (a + 4 * i) with (a + 4 + 4 * (i - 1)) by lia. rewrite IH by (done || lia).
    replace i with (i - 1 + 1) at 2 by lia. by rewrite zget_cons_S by lia.
Qed.

(** ** Copying into the stack page *)

Section Progs.
Context {S : Type} {HR : Lens S ram} {HRok : LensOk S ram} {HA : PageAlloc S} {HAL : PageAllocLaws S}.

Definition with_ram (m : mem) (s : S) : S := lset {| ram_bytes := m |} s.

Lemma rm_with m s : rm (with_ram m s) = m.
Proof. apply rm_lset. Qed.

Lemma with_with m m' s : with_ram m (with_ram m' s) = with_ram m s.
Proof. unfold with_ram. by rewrite lset_lset. Qed.

Lemma wp_uva2ka (s : S) d va (Q : Z -> S -> Prop) :
  present (mapping (rm s) d va) = true ->
  Q (if is_user (mapping (rm s) d va) then pt_base (mapping (rm s) d va) else 0) s ->
  wp (uva2ka d va) s Q.
Proof.
  unfold mapping. destruct (present (pde (rm s) d va)) eqn:E; [|done].
  destruct (present (load32 _ _)) eqn:E2; [|done]. intros _ HQ. unfold uva2ka.
  apply wp_bind, wp_find. rewrite E. unfold rget. wp_step. fold (rm s). rewrite E2. cbn [negb].
  destruct (is_user _); cbn [negb] in *; apply wp_ret, HQ.
Qed.

(** A page of the image: the entry of page [k] is present and leads to page [u]. *)
Lemma user_page (s : S) d T U l k u : as_state s d T U l -> (k, u) ∈ U ->
  0 <= k < 524288 /\ present (mapping (rm s) d (4096 * k)) = true /\ pt_base (mapping (rm s) d (4096 * k)) = u /\ pa_page u /\ ~ u ∈ (d :: T) /\ ~ u ∈ l /\ u mod 4096 = 0 /\ KERNBASE < u < KERNBASE + PHYSTOP.
Proof.
  intros (_ & _ & _ & (_ & HU) & HF & HN) Hin. pose proof (proj1 (HU k u) Hin) as (Hk & Hp & Hb).
  assert (H2 : u ∈ U.*2) by (apply list_elem_of_fmap; by exists (k, u)).
  assert (Hpg : pa_page u) by (by eapply Forall_forall in HF; [|exact H2]).
  pose proof (pa_page_range u Hpg) as [Hm Hr]. split_and!; try done; try lia.
  - change (d :: T ++ U.*2 ++ l) with ((d :: T) ++ U.*2 ++ l) in HN.
    apply NoDup_app in HN as (_ & Hdis & _). intros Hd. apply (Hdis u Hd), elem_of_app. by left.
  - change (d :: T ++ U.*2 ++ l) with ((d :: T) ++ U.*2 ++ l) in HN.
    apply NoDup_app in HN as (_ & _ & HN). apply NoDup_app in HN as (_ & Hdis & _). by apply Hdis.
Qed.

(** Writing into a user page leaves the address space as it is. *)
Lemma as_state_write (s : S) d T U l k u m' : as_state s d T U l -> (k, u) ∈ U -> bytes_ok m' ->
  differs_in (rm s) m' u (u + PGSIZE) ->
  as_state (with_ram m' s) d T U l /\ forall va, mapping m' d va = mapping (rm s) d va.
Proof.
  intros Hst Hin Hb Hd. pose proof (user_page _ _ _ _ _ _ _ Hst Hin) as (_ & _ & _ & Hpg & Hun & Hul & _).
  destruct Hst as (H1 & H2 & H3 & H4 & HF & HN).
  destruct (mapping_frame _ _ _ _ _ H2 Hb Hpg Hun Hd) as (Hpt & Hpde & Hmap & Hdir).
  split; [|exact Hmap]. unfold as_state, tables_used, user_ok. rewrite rm_with. split_and!; try done.
  - apply pa_inv_frame; [done|]. intros v a Hv Ha. apply Hd.
    pose proof (pa_inv_pages _ _ H1) as [_ Hl]. rewrite Forall_forall in Hl.
    destruct (vpages_apart v u (Hl v Hv) Hpg); [by intros ->| |]; lia.
  - intros t Ht. destruct (H3 t Ht) as (i & Hi & Hp & Hb'). exists i. rewrite Hdir by done. done.
  - apply H4.
  - intros k' u'. rewrite Hmap. apply H4.
Qed.

(** [copyout] of bytes that lie in one user page. *)
Lemma wp_copyout_page (s : S) d k u o buf (Q : Z -> S -> Prop) :
  0 <= k < 524288 -> present (mapping (rm s) d (4096 * k)) = true -> is_user (mapping (rm s) d (4096 * k)) = true ->
  pt_base (mapping (rm s) d (4096 * k)) = u -> KERNBASE < u ->
  0 <= o -> 0 < zlen buf -> o + zlen buf <= 4096 ->
  Q 0 (with_ram (store_list (rm s) (u + o) buf) s) -> wp (copyout d (4096 * k + o) buf) s Q.
Proof.
  intros Hk Hp Hu Hb Hku Ho Hlen Hfit HQ. unfold copyout. destruct buf as [|b buf]; [done|].
  cbn [length copyout_loop]. rewrite (proj2 (Z.ltb_lt 0 _) Hlen). rewrite PGROUNDDOWN_eq.
  replace (4096 * k + o - (4096 * k + o) mod 4096) with (4096 * k) by (Z.div_mod_to_equations; lia).
  apply wp_bind, wp_uva2ka; [done|]. rewrite Hu, Hb. unfold KERNBASE in Hku. rewrite (proj2 (Z.eqb_neq u 0)) by lia.
  replace (4096 * k + o - 4096 * k) with o by lia. unfold PGSIZE. rewrite u32_small by lia.
  assert (Hn : (if zlen (b :: buf) <? 4096 - o then zlen (b :: buf) else 4096 - o) = zlen (b :: buf)) by zcases.
  assert (Hz : Z.to_nat (zlen (b :: buf)) = length (b :: buf)) by (unfold zlen; lia).
  rewrite Hn, Hz, firstn_all, skipn_all.
  unfold rmod. wp_step. fold (rm s). apply wp_ret, HQ.
Qed.

(** [copyout] that starts in a page the user may not use copies nothing. *)
Lemma wp_copyout_guard (s : S) d k va buf (Q : Z -> S -> Prop) :
  present (mapping (rm s) d (4096 * k)) = true -> is_user (mapping (rm s) d (4096 * k)) = false ->
  4096 * k <= va < 4096 * (k + 1) -> 0 < zlen buf -> Q (-1) s -> wp (copyout d va buf) s Q.
Proof.
  intros Hp Hu Hva Hlen HQ. unfold copyout. destruct buf as [|b buf]; [done|].
  cbn [length copyout_loop]. rewrite (proj2 (Z.ltb_lt 0 _) Hlen). rewrite PGROUNDDOWN_eq.
  replace (va - va mod 4096) with (4096 * k) by (Z.div_mod_to_equations; lia).
  apply wp_bind, wp_uva2ka; [done|]. rewrite Hu. apply wp_ret, HQ.
Qed.

(** ** Pushing the arguments *)

(** The image when the arguments are pushed: page [k] is the stack, at [u] in the kernel,
    and the page below it is present but not for the user. *)
Definition new_image (s : S) d T (U : list (Z * Z)) l k u g : Prop :=
  as_state s d T U l /\ (k, u) ∈ U /\ (k - 1, g) ∈ U /\
  is_user (mapping (rm s) d (4096 * k)) = true /\ is_user (mapping (rm s) d (4096 * (k - 1))) = false.

Lemma new_image_write (s : S) d T U l k u g m' : new_image s d T U l k u g -> bytes_ok m' ->
  differs_in (rm s) m' u (u + PGSIZE) -> new_image (with_ram m' s) d T U l k u g.
Proof.
  intros (Hst & Hk & Hg & Hu & Hgu) Hb Hd. destruct (as_state_write _ _ _ _ _ _ _ _ Hst Hk Hb Hd) as [Hst' Hm].
  split_and!; try done; by rewrite rm_with, Hm.
Qed.

Definition pstring (m : mem) (a : Z) (s : list Z) : Prop :=
  forall j, 0 <= j <= zlen s -> loadb m (a + j) = zget 0 (s ++ [0]) j.

Lemma arg_byte s j : Forall (fun c => 0 <= c < 256) s -> 0 <= zget 0 (s ++ [0]) j < 256.
Proof.
  intros HF. unfold zget. case_bool; [lia|]. destruct ((s ++ [0]) !! Z.to_nat j) as [c|] eqn:E; cbn; [|lia].
  apply list_elem_of_lookup_2 in E. rewrite elem_of_app, list_elem_of_singleton in E.
  rewrite Forall_forall in HF. destruct E as [E| ->]; [by apply HF | lia].
Qed.

Lemma pstring_store m a s : is_arg s -> pstring (store_list m a (s ++ [0])) a s.
Proof.
  intros [_ HF] j Hj. rewrite BootProof.store_list_spec, zlen_app. change (zlen [0]) with 1.
  replace ((a <=? a + j) && (a + j <? a + (zlen s + 1))) with true by lia.
  replace (a + j - a) with j by lia. by apply u8_small, arg_byte.
Qed.

Lemma pstring_frame m m' a s lo hi : differs_in m m' lo hi -> hi <= a -> pstring m a s -> pstring m' a s.
Proof. intros Hd Hh Hp j Hj. rewrite Hd by lia. by apply Hp. Qed.

Lemma with_rm (s : S) : with_ram (rm s) s = s.
Proof. unfold with_ram, rm. destruct (lget s) as [m] eqn:E. cbn. rewrite <- E. apply lset_lget. Qed.

Lemma new_image_bytes (s : S) d T U l k u g : new_image s d T U l k u g -> bytes_ok (rm s).
Proof. intros ((_ & (Hb & _) & _) & _). exact Hb. Qed.

(** One string, copied to [sp - arg_room s] or refused. *)
Lemma wp_push_one (s : S) d T U l k u g sp a (Q : Z -> S -> Prop) :
  new_image s d T U l k u g -> sp mod 4 = 0 -> 4096 * k <= sp <= 4096 * (k + 1) -> is_arg a ->
  (sp - 4096 * k < arg_room a -> Q (-1) s) ->
  (arg_room a <= sp - 4096 * k ->
     Q 0 (with_ram (store_list (rm s) (u + (sp - arg_room a - 4096 * k)) (a ++ [0])) s)) ->
  push_sp sp a = sp - arg_room a /\ wp (copyout d (sp - arg_room a) (a ++ [0])) s Q.
Proof.
  intros (Hst & Hk & Hg & Hu & Hgu) H4 Hsp Ha HN HS.
  pose proof (user_page _ _ _ _ _ _ _ Hst Hk) as (Hkr & Hp & Hb & _ & _ & _ & _ & Hku & _).
  pose proof (user_page _ _ _ _ _ _ _ Hst Hg) as (Hgr & Hgp & _). destruct Ha as [Hlen _]. unfold PGSIZE in Hlen.
  pose proof (arg_room_range a) as [Hr _]. pose proof (zlen_nonneg a).
  assert (Hr2 : arg_room a <= 4096) by (unfold arg_room; Z.div_mod_to_equations; lia).
  assert (Hl : zlen (a ++ [0]) = zlen a + 1) by apply zlen_app.
  split; [apply push_sp_eq; [done | lia]|]. destruct (decide (arg_room a <= sp - 4096 * k)) as [Hin|Hout].
  - replace (sp - arg_room a) with (4096 * k + (sp - arg_room a - 4096 * k)) by lia.
    apply (wp_copyout_page _ _ _ u); try done; try lia. by apply HS.
  - apply (wp_copyout_guard _ _ (k - 1)); try done; try lia. apply HN. lia.
Qed.

(** The strings of [argv] in the page at [u]. *)
Definition strings_in (m : mem) (k u : Z) (ptrs : list Z) (argv : list (list Z)) : Prop :=
  Forall2 (fun p s => pstring m (u + (p - 4096 * k)) s) ptrs argv.

Lemma wp_push_args d T U l k u g argv : forall (s : S) sp argc (Q : option (Z * list Z) -> S -> Prop),
  new_image s d T U l k u g -> sp mod 4 = 0 -> 4096 * k <= sp <= 4096 * (k + 1) -> Forall is_arg argv ->
  ((32 < argc + length argv)%nat \/ sp - 4096 * k < args_room argv ->
     forall m', bytes_ok m' -> differs_in (rm s) m' u (u + PGSIZE) -> Q None (with_ram m' s)) ->
  ((argc + length argv <= 32)%nat -> args_room argv <= sp - 4096 * k ->
     forall m', bytes_ok m' -> differs_in (rm s) m' (u + (sp - args_room argv - 4096 * k)) (u + (sp - 4096 * k)) ->
       strings_in m' k u (arg_ptrs sp argv) argv -> Q (Some (sp - args_room argv, arg_ptrs sp argv)) (with_ram m' s)) ->
  (argc <= 32)%nat -> wp (push_args d sp argc argv) s Q.
Proof.
  induction argv as [|a argv IH]; intros s sp argc Q Him H4 Hsp HF HN HS Hc; pose proof (new_image_bytes _ _ _ _ _ _ _ _ Him) as Hb.
  { apply wp_ret. specialize (HS ltac:(cbn; lia) ltac:(cbn; lia) (rm s) Hb ltac:(done) ltac:(constructor)).
    rewrite with_rm in HS. cbn [args_room foldr] in HS. by rewrite Z.sub_0_r in HS. }
  cbn [push_args args_room foldr arg_ptrs length] in *. fold (args_room argv) in *. unfold MAXARG.
  apply Forall_cons in HF as [Ha HF]. pose proof (args_room_nonneg argv) as [Hrest Hrest4].
  pose proof (arg_room_range a) as [Hra Hra4]. pose proof (zlen_nonneg a).
  destruct (Nat.leb_spec 32 argc) as [Hge|Hlt].
  { apply wp_ret. rewrite <- (with_rm s). apply HN; [lia | done | done]. }
  refine (_ (wp_push_one s d T U l k u g sp a _ Him H4 Hsp Ha _ _)); [intros [-> Hw]; apply wp_bind, Hw | | ].
  - intros Hout. apply wp_ret. rewrite <- (with_rm s). apply HN; [lia | done | done].
  - intros Hin. cbv beta iota. change (0 <? 0) with false. cbv iota. apply wp_bind.
    set (m1 := store_list (rm s) _ _).
    assert (Hd1 : differs_in (rm s) m1 (u + (sp - arg_room a - 4096 * k)) (u + (sp - 4096 * k))).
    { eapply differs_wider; [apply store_list_differs | lia |]. rewrite zlen_app. change (zlen [0]) with 1. lia. }
    assert (Hb1 : bytes_ok m1) by (by apply store_list_ok).
    assert (Hp1 : pstring m1 (u + (sp - arg_room a - 4096 * k)) a) by (by apply pstring_store).
    apply IH; try done; try lia.
    + eapply new_image_write; [done | done |]. eapply differs_wider; [exact Hd1 | lia | unfold PGSIZE; lia].
    + Z.div_mod_to_equations; lia.
    + rewrite rm_with. intros Hno m' Hb' Hd'. rewrite with_with. apply wp_ret, HN; [lia | done |].
      eapply differs_trans; [|exact Hd']. eapply differs_wider; [exact Hd1 | lia | unfold PGSIZE; lia].
    + rewrite rm_with. intros Hn Hfit m' Hb' Hd' Hstr. rewrite with_with. apply wp_ret.
      replace (sp - arg_room a - args_room argv) with (sp - (arg_room a + args_room argv)) in * by lia.
      apply HS; [lia | lia | done | |].
      * eapply differs_trans; eapply differs_wider; [exact Hd1 | lia | lia | exact Hd' | lia | lia].
      * constructor; [|exact Hstr]. eapply pstring_frame; [exact Hd' | lia | done].
Qed.

(** The words below the strings, copied or refused. *)
Lemma wp_push_words (s : S) d T U l k u g sp ws (Q : Z -> S -> Prop) :
  new_image s d T U l k u g -> 4096 * (k - 1) <= sp -> 0 < zlen ws -> sp + 4 * zlen ws <= 4096 * (k + 1) ->
  (sp < 4096 * k -> Q (-1) s) ->
  (4096 * k <= sp -> Q 0 (with_ram (store_list (rm s) (u + (sp - 4096 * k)) (ws ≫= Syscall.bytes32)) s)) ->
  wp (copyout d sp (ws ≫= Syscall.bytes32)) s Q.
Proof.
  intros (Hst & Hk & Hg & Hu & Hgu) Hsp Hl Hfit HN HS.
  pose proof (user_page _ _ _ _ _ _ _ Hst Hk) as (Hkr & Hp & Hb & _ & _ & _ & _ & Hku & _).
  pose proof (user_page _ _ _ _ _ _ _ Hst Hg) as (Hgr & Hgp & _). pose proof (zlen_words ws).
  destruct (decide (4096 * k <= sp)) as [Hin|Hout].
  - replace sp with (4096 * k + (sp - 4096 * k)) by lia.
    apply (wp_copyout_page _ _ _ u); try done; try lia. by apply HS.
  - apply (wp_copyout_guard _ _ (k - 1)); try done; try lia. apply HN. lia.
Qed.

Lemma mapping_page m d k o : 0 <= k < 524288 -> 0 <= o < 4096 -> mapping m d (4096 * k + o) = mapping m d (4096 * k).
Proof.
  intros Hk Ho. destruct (proj2 (same_page (4096 * k + o) (4096 * k) ltac:(lia) ltac:(lia))) as [H1 H2].
  { Z.div_mod_to_equations; lia. }
  unfold mapping, pde. by rewrite H1, H2.
Qed.

(** A user address in the stack page, as the kernel reaches it. *)
Lemma stack_addr (s : S) d T U l k u g va : new_image s d T U l k u g -> 4096 * k <= va < 4096 * (k + 1) ->
  pt_base (mapping (rm s) d va) + va mod PGSIZE = u + (va - 4096 * k).
Proof.
  intros (Hst & Hk & _) Hva. pose proof (user_page _ _ _ _ _ _ _ Hst Hk) as (Hkr & _ & Hb & _).
  replace va with (4096 * k + (va - 4096 * k)) at 1 by lia. rewrite mapping_page, Hb by lia.
  unfold PGSIZE. Z.div_mod_to_equations; lia.
Qed.

Lemma zget_ptrs sp ptrs i p : ptrs !! i = Some p -> zget 0 (ustack sp ptrs) (3 + Z.of_nat i) = p.
Proof.
  intros Hi. unfold ustack, zget. rewrite (proj2 (Z.ltb_ge _ _)) by lia. replace (Z.to_nat (3 + Z.of_nat i)) with (3 + i)%nat by lia.
  change (default 0 ((ptrs ++ [0]) !! i) = p). rewrite lookup_app_l by (by eapply lookup_lt_Some). by rewrite Hi.
Qed.

Lemma zget_null sp ptrs : zget 0 (ustack sp ptrs) (3 + zlen ptrs) = 0.
Proof.
  unfold ustack, zget, zlen. rewrite (proj2 (Z.ltb_ge _ _)) by lia. replace (Z.to_nat (3 + Z.of_nat (length ptrs))) with (3 + length ptrs)%nat by lia.
  change (default 0 ((ptrs ++ [0]) !! length ptrs) = 0). rewrite lookup_app_r by lia. by rewrite Nat.sub_diag.
Qed.

Lemma zlen_ustack sp ptrs : zlen (ustack sp ptrs) = zlen ptrs + 4.
Proof. unfold ustack, zlen. rewrite !length_app. cbn. lia. Qed.

Lemma ustack_words k sp argv : 0 <= k < 524288 -> (length argv <= 32)%nat -> args_room argv <= 4096 ->
  Forall (fun w => 0 <= w < 2 ^ 32) (ustack sp (arg_ptrs (4096 * (k + 1)) argv)).
Proof.
  intros Hk Hc Hr. pose proof (length_arg_ptrs argv (4096 * (k + 1))). unfold ustack.
  repeat constructor; try lia; unfold zlen; try (apply Z.mod_pos_bound; lia); try lia.
  apply Forall_app. split; [|by repeat constructor]. apply Forall_forall. intros p Hp%arg_ptrs_range. lia.
Qed.

(** The words and the strings give the arguments of [main]. *)
Lemma main_args_from (s : S) d T U l k u g sp sp1 argv m1 :
  new_image s d T U l k u g -> Forall is_arg argv -> sp1 = 4096 * (k + 1) - args_room argv ->
  sp = sp1 - 4 * (zlen argv + 4) -> 4096 * k <= sp -> (length argv <= 32)%nat ->
  strings_in m1 k u (arg_ptrs (4096 * (k + 1)) argv) argv ->
  rm s = store_list m1 (u + (sp - 4096 * k)) (ustack sp1 (arg_ptrs (4096 * (k + 1)) argv) ≫= Syscall.bytes32) ->
  main_args (rm s) d sp argv.
Proof.
  intros Him HF H1 Hsp Hin Hc Hstr Hm. set (ptrs := arg_ptrs _ argv) in *.
  pose proof (args_room_nonneg argv) as [Har _]. pose proof (zlen_nonneg argv).
  destruct (user_page _ _ _ _ _ _ _ (proj1 Him) (proj1 (proj2 Him))) as (Hk & _).
  assert (Hl : zlen ptrs = zlen argv) by (unfold zlen, ptrs; by rewrite length_arg_ptrs).
  assert (Hw : forall i, 0 <= i < zlen argv + 4 -> uword (rm s) d (sp + 4 * i) = zget 0 (ustack sp1 ptrs) i).
  { intros i Hi. unfold uword. rewrite (stack_addr s d T U l k u g) by (done || lia). rewrite Hm.
    replace (u + (sp + 4 * i - 4096 * k)) with (u + (sp - 4096 * k) + 4 * i) by lia.
    apply load32_words; [apply ustack_words; (done || lia) | by rewrite zlen_ustack, Hl]. }
  split_and!.
  - specialize (Hw 0 ltac:(lia)). by rewrite Z.mul_0_r, Z.add_0_r in Hw.
  - rewrite <- Hl. apply (Hw 1). lia.
  - change 8 with (4 * 2). rewrite (Hw 2 ltac:(lia)). change (u32 (sp1 - (zlen ptrs + 1) * 4) = sp + 12). rewrite Hl, u32_small; lia.
  - intros i a Hi. destruct (Forall2_lookup_r _ _ _ _ _ Hstr Hi) as (p & Hp & Hps).
    pose proof (lookup_lt_Some _ _ _ Hi) as Hlt.
    replace (sp + 12 + 4 * Z.of_nat i) with (sp + 4 * (3 + Z.of_nat i)) by lia.
    rewrite Hw, (zget_ptrs _ _ _ _ Hp) by (unfold zlen; lia).
    destruct (arg_ptrs_end _ _ _ _ _ Hp Hi) as [Hlo Hhi]. intros j Hj.
    unfold ubyte. rewrite (stack_addr s d T U l k u g); [| done | lia].
    rewrite Hm, store_list_differs by (rewrite zlen_words, zlen_ustack, Hl; lia).
    replace (u + (p + j - 4096 * k)) with (u + (p - 4096 * k) + j) by lia. by apply Hps.
  - replace (sp + 12 + 4 * zlen argv) with (sp + 4 * (3 + zlen ptrs)) by lia.
    rewrite Hw by lia. apply zget_null.
Qed.

(** The second half of [make_stack], once the strings are in place. *)
Lemma wp_stack_words (s : S) d T U l k u g argv :
  new_image s d T U l k u g -> 1 <= k -> Forall is_arg argv -> (length argv <= 32)%nat -> args_room argv <= 4096 ->
  strings_in (rm s) k u (arg_ptrs (4096 * (k + 1)) argv) argv ->
  let sp := 4096 * (k + 1) - stack_room argv in
  wp (copyout d sp (ustack (4096 * (k + 1) - args_room argv) (arg_ptrs (4096 * (k + 1)) argv) ≫= Syscall.bytes32)) s
    (fun r s' => exists m', s' = with_ram m' s /\ differs_in (rm s) m' u (u + PGSIZE) /\ new_image s' d T U l k u g /\
      if stack_room argv <=? PGSIZE then r = 0 /\ main_args m' d sp argv else r = -1).
Proof.
  intros Him Hk HF Hn Hfit Hstr sp. pose proof (args_room_nonneg argv) as [Har _]. pose proof (zlen_nonneg argv).
  set (ptrs := arg_ptrs _ argv) in *. assert (Hl : zlen ptrs = zlen argv) by (unfold zlen, ptrs; by rewrite length_arg_ptrs).
  assert (Hc : zlen argv <= 32) by (unfold zlen; lia). unfold PGSIZE, stack_room in *.
  apply (wp_push_words _ d T U l k u g); rewrite ?zlen_ustack, ?Hl; try done; try lia.
  - intros Hout. exists (rm s). rewrite with_rm. split_and!; try done. by rewrite (proj2 (Z.leb_gt _ _)) by lia.
  - intros Hin. set (m2 := store_list _ _ _). rewrite (proj2 (Z.leb_le _ _)) by lia.
    assert (Hd2 : differs_in (rm s) m2 u (u + 4096)).
    { eapply differs_wider; [apply store_list_differs | lia |]. rewrite zlen_words, zlen_ustack, Hl. lia. }
    assert (Him2 : new_image (with_ram m2 s) d T U l k u g).
    { apply new_image_write; [done | apply store_list_ok; by eapply new_image_bytes | done]. }
    exists m2. split_and!; try done. rewrite <- (rm_with m2 s).
    eapply main_args_from; [exact Him2 | done | reflexivity | | lia | done | exact Hstr |]; [lia | by rewrite rm_with].
Qed.

Lemma wp_make_stack (s : S) d T U l k u g argv :
  new_image s d T U l k u g -> Forall is_arg argv ->
  wp (make_stack d (4096 * (k + 1)) argv) s (fun r s' =>
    exists m', s' = with_ram m' s /\ differs_in (rm s) m' u (u + PGSIZE) /\ as_state s' d T U l /\
      let sp := 4096 * (k + 1) - stack_room argv in
      if (length argv <=? MAXARG)%nat && (stack_room argv <=? PGSIZE)
      then r = Some sp /\ main_args m' d sp argv else r = None).
Proof.
  intros Him HF. pose proof (args_room_nonneg argv) as [Har Har4]. pose proof (zlen_nonneg argv).
  destruct (user_page _ _ _ _ _ _ _ (proj1 Him) (proj1 (proj2 Him))) as (Hk & _).
  destruct (user_page _ _ _ _ _ _ _ (proj1 Him) (proj1 (proj2 (proj2 Him)))) as (Hg & _).
  unfold make_stack, stack_room, MAXARG, PGSIZE. cbv zeta. apply wp_bind.
  apply (wp_push_args d T U l k u g); try done; try lia; [Z.div_mod_to_equations; lia | |].
  - intros Hno m' Hb Hd. apply wp_ret. exists m'. split_and!; [done | done | by eapply new_image_write |].
    replace (_ && _) with false; [done|]. symmetry. apply andb_false_iff.
    destruct Hno; [left; apply Nat.leb_gt; lia | right; lia].
  - intros Hn Hfit m1 Hb1 Hd1 Hstr. cbn [Nat.add] in Hn. cbv beta iota zeta.
    assert (Hc : zlen argv <= 32) by (unfold zlen; lia).
    assert (Hp1 : differs_in (rm s) m1 u (u + 4096)) by (eapply differs_wider; [exact Hd1 | lia | lia]).
    assert (Him1 : new_image (with_ram m1 s) d T U l k u g) by (by apply new_image_write).
    rewrite zlen_ustack. replace (zlen (arg_ptrs _ argv)) with (zlen argv) by (unfold zlen; by rewrite length_arg_ptrs).
    rewrite u32_small by lia.
    replace (4096 * (k + 1) - args_room argv - (zlen argv + 4) * 4) with (4096 * (k + 1) - stack_room argv) by (unfold stack_room; lia).
    eapply wp_bind, wp_conseq; [apply (wp_stack_words _ d T U l k u g); rewrite ?rm_with; (done || lia)|].
    cbv beta. rewrite rm_with. intros r s' (m2 & -> & Hd2 & Him2 & Hr). apply wp_ret. exists m2.
    rewrite with_with in *. split_and!; [done | by eapply differs_trans | apply Him2 |].
    rewrite (proj2 (Nat.leb_le _ _) Hn). cbn [andb]. fold (stack_room argv). unfold PGSIZE in Hr.
    destruct (stack_room argv <=? 4096); [destruct Hr as [-> Hr]; by split | by rewrite Hr].
Qed.

(** C12: The arguments of a new program: with the stack page of the new image mapped for the
    user and the page below it not, and arguments shorter than a page, [make_stack] returns;
    it succeeds exactly when there are at most 32 arguments and they fit, with their
    [argc + 4] words, into the stack page.  The new program then finds at its stack pointer,
    through its own page table, the return address 0xffffffff, argc, and an argv whose
    pointers lead to the strings, with a null pointer at the end.  In every case only the
    stack page has changed, and the address space still owns what it owned. *)
Theorem make_stack_args (s : S) d T U l k u g argv :
  new_image s d T U l k u g -> Forall is_arg argv ->
  wp (make_stack d (4096 * (k + 1)) argv) s (fun r s' =>
    exists m', s' = with_ram m' s /\ differs_in (rm s) m' u (u + PGSIZE) /\ as_state s' d T U l /\
      let sp := 4096 * (k + 1) - stack_room argv in
      if (length argv <=? MAXARG)%nat && (stack_room argv <=? PGSIZE)
      then r = Some sp /\ main_args m' d sp argv else r = None).
Proof. apply wp_make_stack. Qed.

(** The arguments of [bigargtest] in usertests.c: 31 times the same long string. *)
Definition bigarg : list Z := Syscall.line "bigargs test: failed" ++ repeat 32 199.
Definition bigargs : list (list Z) := repeat bigarg (MAXARG - 1).

(** What [bigargtest] asks: whatever the image, [exec] refuses these arguments, and when the
    image is given back no page is lost. *)
Theorem bigargs_refused (s : S) d T U l k u g :
  new_image s d T U l k u g ->
  wp (r ← make_stack d (4096 * (k + 1)) bigargs; freevm d;; mret r) s (fun r s' =>
    r = None /\ exists l', pa_inv s' l' /\ l' ≡ₚ d :: T ++ U.*2 ++ l).
Proof.
  intros Him. eapply wp_bind, wp_conseq.
  { apply (wp_make_stack _ _ _ _ _ _ _ _ _ Him), Forall_forall. intros a Ha.
    unfold bigargs in Ha. apply list_elem_of_In, repeat_spec in Ha as ->.
    split; [done | apply (bool_decide_unpack _); vm_compute; exact I]. }
  cbv beta. intros r s' (m' & _ & _ & Has & ->). apply wp_bind.
  eapply wp_freevm; [exact Has|]. intros s'' l' Hi Hl. apply wp_ret. eauto.
Qed.

End Progs.

(** ** A small image: the stack in page 2, the page below it not for the user *)

Definition stack_mem : mem :=
  store32 (store32 (store32 (ram_bytes (three_pages.2.2)) 0x80400000 0x404007) 0x80404004 0x405003) 0x80404008 0x406007.
Definition stack_space : Kalloc.kst := (three_pages.1, (three_pages.2.1, {| ram_bytes := stack_mem |})).
Definition stack_entry (k : Z) : Z := if k =? 1 then 0x405003 else if k =? 2 then 0x406007 else 0.

#[local] Instance stack_alloc : PageAlloc Kalloc.kst := Kalloc.kalloc_PageAlloc 0x80200000.
#[local] Instance stack_laws : PageAllocLaws Kalloc.kst :=
  Kalloc.kalloc_laws 0x80200000 0 [] true (Some 0%nat) eq_refl.

Lemma stack_dir i : 0 <= i < 1024 -> load32 stack_mem (0x80400000 + 4 * i) = if i =? 0 then 0x404007 else 0.
Proof.
  intros Hi. unfold stack_mem. rewrite !load32_store32_ne by lia. destruct (i =? 0) eqn:E; zbool.
  - rewrite E. change (0x80400000 + 4 * 0) with 0x80400000. by rewrite load32_store32_eq.
  - rewrite load32_store32_ne by lia. unfold three_pages. cbn [ram_bytes snd]. rewrite !load32_store32_ne by lia. done.
Qed.

Lemma stack_tab i : 0 <= i < 1024 -> load32 stack_mem (0x80404000 + 4 * i) = stack_entry i.
Proof.
  intros Hi. unfold stack_mem, stack_entry. destruct (i =? 1) eqn:E1; [|destruct (i =? 2) eqn:E2]; zbool.
  - rewrite load32_store32_ne by lia. rewrite E1. change (0x80404000 + 4 * 1) with 0x80404004. by rewrite load32_store32_eq.
  - rewrite E2. change (0x80404000 + 4 * 2) with 0x80404008. by rewrite load32_store32_eq.
  - rewrite !load32_store32_ne by lia. unfold three_pages. cbn [ram_bytes snd]. rewrite !load32_store32_ne by lia. done.
Qed.

Lemma stack_mapping k : 0 <= k < 524288 -> mapping stack_mem 0x80400000 (4096 * k) = stack_entry k.
Proof.
  intros Hk. unfold mapping, pde. rewrite stack_dir by apply PDX_range. rewrite PDX_eq by lia.
  destruct (4096 * k / 2 ^ 22 =? 0) eqn:E; zbool.
  - change (present 0x404007) with true. change (pt_base 0x404007) with 0x80404000. cbv iota.
    rewrite stack_tab by apply PTX_range. rewrite PTX_eq.
    replace (4096 * k / 2 ^ 12 mod 1024) with k by (Z.to_euclidean_division_equations; lia).
    unfold stack_entry. repeat case_bool; done.
  - change (present 0) with false. unfold stack_entry. rewrite !(proj2 (Z.eqb_neq k _)); [done | |]; by intros ->.
Qed.

Lemma stack_as :
  as_state stack_space 0x80400000 [0x80404000] [(2, 0x80406000); (1, 0x80405000)] [0x80403000; 0x80402000; 0x80401000].
Proof.
  split_and!.
  - destruct three_state as (Hi & _ & _). apply (pa_inv_frame three_pages _ stack_mem) in Hi; [exact Hi|].
    intros v a Hv Ha. unfold stack_mem, PGSIZE in *. rewrite !elem_of_cons, elem_of_nil in Hv.
    rewrite !loadb_store32_ne by lia. done.
  - change (rm stack_space) with stack_mem. split_and!.
    + unfold stack_mem, three_pages. cbn [ram_bytes snd]. auto 10 with cint.
    + apply (bool_decide_unpack _). vm_compute. exact I.
    + repeat constructor.
    + intros i Hi. rewrite stack_dir by done. case_bool; [intros _; by left | done].
    + intros i j Hi Hj. rewrite !stack_dir by done. repeat case_bool; zbool; try done. lia.
  - intros t Ht%list_elem_of_singleton. exists 0. split; [lia|]. change (rm stack_space) with stack_mem.
    rewrite stack_dir, Ht by lia. done.
  - split; [apply (bool_decide_unpack _); vm_compute; exact I|]. intros k u. change (rm stack_space) with stack_mem.
    rewrite elem_of_cons, list_elem_of_singleton. split.
    + intros [[= -> ->]|[= -> ->]]; (split; [lia|]; by rewrite stack_mapping by lia).
    + intros (Hk & Hp & Hb). rewrite stack_mapping in Hp, Hb by lia. unfold stack_entry in *.
      destruct (k =? 1) eqn:E1; [|destruct (k =? 2) eqn:E2]; zbool; [right | left | done]; by subst.
  - repeat constructor.
  - apply (bool_decide_unpack _). vm_compute. exact I.
Qed.

Lemma stack_image : new_image stack_space 0x80400000 [0x80404000] [(2, 0x80406000); (1, 0x80405000)]
  [0x80403000; 0x80402000; 0x80401000] 2 0x80406000 0x80405000.
Proof.
  split_and!; [exact stack_as | by left | by right; left | |]; change (rm stack_space) with stack_mem;
    rewrite stack_mapping by lia; done.
Qed.

(** [echo hi]. *)
Definition echo_hi : list (list Z) := [[101; 99; 104; 111]; [104; 105]].

Lemma make_stack_args_witness :
  wp (make_stack 0x80400000 12288 echo_hi) stack_space
    (fun r s' => r = Some 12252 /\ main_args (rm s') 0x80400000 12252 echo_hi).
Proof.
  eapply wp_conseq; [apply (make_stack_args _ _ _ _ _ 2 _ _ echo_hi stack_image); repeat constructor; lia|].
  cbv beta. intros r s' (m' & -> & _ & _ & Hr & Ha). rewrite rm_with. split; [exact Hr | exact Ha].
Defined.

End ExecProof.
