(* ===== verification/Seg.v ===== *)
(** * Segments and gates: mmu.h, x86.h, seginit and switchuvm of vm.c, tvinit of trap.c

    The descriptors that decide what a user program can reach: the segments of each CPU, the
    task state that gives the kernel stack, and the interrupt gates.  [segw] and [gatew] are
    the words of a descriptor as the compiler lays out its bit fields; [seg_of] and [gate_of]
    read them as the processor does. *)

From stdpp Require Import base gmap list strings.
From Stdlib Require Import ZArith Lia.
From S2P Require Import Prelude Core Locking Kalloc Vm.

Module Seg.

Definition SEG_KCODE : Z := 1.
Definition SEG_KDATA : Z := 2.
Definition SEG_UCODE : Z := 3.
Definition SEG_UDATA : Z := 4.
Definition SEG_TSS : Z := 5.
Definition NSEGS : nat := 6.

Definition DPL_USER : Z := 3.
Definition STA_X : Z := 0x8.
Definition STA_W : Z := 0x2.
Definition STA_R : Z := 0x2.
Definition STS_T32A : Z := 0x9.
Definition STS_IG32 : Z := 0xE.
Definition STS_TG32 : Z := 0xF.
Definition T_SYSCALL : Z := 64.

Definition sizeof_segdesc : Z := 8.
Definition sizeof_gatedesc : Z := 8.
Definition sizeof_taskstate : Z := 104.

(** *** Descriptors *)

Record segdesc : Type := {
  lim_15_0 : Z; base_15_0 : Z; base_23_16 : Z; sd_type : Z; sd_s : Z; sd_dpl : Z; sd_p : Z;
  lim_19_16 : Z; avl : Z; rsv1 : Z; db : Z; sd_g : Z; base_31_24 : Z
}.

Definition SEG (type base lim dpl : Z) : segdesc :=
  {| lim_15_0 := Z.land (Z.shiftr lim 12) 0xffff; base_15_0 := Z.land base 0xffff;
     base_23_16 := Z.land (Z.shiftr base 16) 0xff; sd_type := type; sd_s := 1; sd_dpl := dpl; sd_p := 1;
     lim_19_16 := Z.shiftr lim 28; avl := 0; rsv1 := 0; db := 1; sd_g := 1; base_31_24 := Z.shiftr base 24 |}.

(** The high bits of the limit are cut to the four bits of their field. *)
Definition SEG16 (type base lim dpl : Z) : segdesc :=
  {| lim_15_0 := Z.land lim 0xffff; base_15_0 := Z.land base 0xffff;
     base_23_16 := Z.land (Z.shiftr base 16) 0xff; sd_type := type; sd_s := 1; sd_dpl := dpl; sd_p := 1;
     lim_19_16 := Z.land (Z.shiftr lim 16) 0xf; avl := 0; rsv1 := 0; db := 1; sd_g := 0; base_31_24 := Z.shiftr base 24 |}.

Definition set_s (v : Z) (d : segdesc) : segdesc :=
  {| lim_15_0 := lim_15_0 d; base_15_0 := base_15_0 d; base_23_16 := base_23_16 d; sd_type := sd_type d; sd_s := v;
     sd_dpl := sd_dpl d; sd_p := sd_p d; lim_19_16 := lim_19_16 d; avl := avl d; rsv1 := rsv1 d; db := db d; sd_g := sd_g d;
     base_31_24 := base_31_24 d |}.

Record gatedesc : Type := {
  off_15_0 : Z; gd_cs : Z; gd_args : Z; gd_rsv1 : Z; gd_type : Z; gd_s : Z; gd_dpl : Z; gd_p : Z; off_31_16 : Z
}.

Definition SETGATE (istrap : bool) (sel off d : Z) : gatedesc :=
  {| off_15_0 := Z.land off 0xffff; gd_cs := sel; gd_args := 0; gd_rsv1 := 0;
     gd_type := if istrap then STS_TG32 else STS_IG32; gd_s := 0; gd_dpl := d; gd_p := 1; off_31_16 := Z.shiftr off 16 |}.

(** *** Their words *)

Definition segw (d : segdesc) : Z * Z :=
  (lim_15_0 d + 2 ^ 16 * base_15_0 d,
   base_23_16 d + 2 ^ 8 * sd_type d + 2 ^ 12 * sd_s d + 2 ^ 13 * sd_dpl d + 2 ^ 15 * sd_p d + 2 ^ 16 * lim_19_16 d
     + 2 ^ 20 * avl d + 2 ^ 21 * rsv1 d + 2 ^ 22 * db d + 2 ^ 23 * sd_g d + 2 ^ 24 * base_31_24 d).
Definition gatew (d : gatedesc) : Z * Z :=
  (off_15_0 d + 2 ^ 16 * gd_cs d,
   gd_args d + 2 ^ 5 * gd_rsv1 d + 2 ^ 8 * gd_type d + 2 ^ 12 * gd_s d + 2 ^ 13 * gd_dpl d + 2 ^ 15 * gd_p d + 2 ^ 16 * off_31_16 d).

(** *** The tables and the registers that point to them *)

(** The part of [struct taskstate] that is set. *)
Record taskstate : Type := { esp0 : Z; ss0 : Z; iomb : Z }.

(** Base and limit of a table register, as [lgdt] and [lidt] load them. *)
Record tabreg : Type := { tr_limit : Z; tr_base : Z }.

(** For each CPU its table, its task state and its registers; the interrupt table is shared. *)
Record desctab : Type := {
  gdt : nat -> list segdesc; ts : nat -> taskstate; gdtr : nat -> option tabreg; idtr : nat -> option tabreg;
  tr : nat -> Z; idt : list gatedesc
}.

Definition on_cpu {A} (c : nat) (f : A -> A) (g : nat -> A) : nat -> A := fun i => if decide (i = c) then f (g i) else g i.

Definition mod_gdt (c : nat) (f : list segdesc -> list segdesc) (t : desctab) : desctab :=
  {| gdt := on_cpu c f (gdt t); ts := ts t; gdtr := gdtr t; idtr := idtr t; tr := tr t; idt := idt t |}.
Definition set_ts (c : nat) (f : taskstate -> taskstate) (t : desctab) : desctab :=
  {| gdt := gdt t; ts := on_cpu c f (ts t); gdtr := gdtr t; idtr := idtr t; tr := tr t; idt := idt t |}.
Definition set_gdtr (c : nat) (r : tabreg) (t : desctab) : desctab :=
  {| gdt := gdt t; ts := ts t; gdtr := on_cpu c (fun _ => Some r) (gdtr t); idtr := idtr t; tr := tr t; idt := idt t |}.
Definition set_idtr (c : nat) (r : tabreg) (t : desctab) : desctab :=
  {| gdt := gdt t; ts := ts t; gdtr := gdtr t; idtr := on_cpu c (fun _ => Some r) (idtr t); tr := tr t; idt := idt t |}.
Definition set_tr (c : nat) (sel : Z) (t : desctab) : desctab :=
  {| gdt := gdt t; ts := ts t; gdtr := gdtr t; idtr := idtr t; tr := on_cpu c (fun _ => sel) (tr t); idt := idt t |}.
Definition set_idt (l : list gatedesc) (t : desctab) : desctab :=
  {| gdt := gdt t; ts := ts t; gdtr := gdtr t; idtr := idtr t; tr := tr t; idt := l |}.

(** The six bytes of [pd] in [lgdt] and [lidt], as three half words, and what the processor
    loads from them. *)
Definition pd (p size : Z) : Z * Z * Z := (u16 (size - 1), u16 p, u16 (Z.shiftr p 16)).
Definition load_tabreg (d : Z * Z * Z) : tabreg := {| tr_limit := d.1.1; tr_base := d.1.2 + 2 ^ 16 * d.2 |}.

Section Ops.
Context {S : Type} {HL : Lens S core} {HD : Lens S desctab} {HV : Lens S Vm.vmvars}.
(** Addresses of [cpus[c].gdt], [cpus[c].ts], [idt], and of the entry code [vectors[i]]. *)
Context (gdt_addr ts_addr : nat -> Z) (idt_addr : Z) (vectors : Z -> Z).

Definition dmod (f : desctab -> desctab) : M S unit := lmod (T := desctab) f.

(** The CPU that executes; the instructions load its registers. *)
Definition this_cpu : M S nat := core_get (fun c => default O (find_cpu (hw_apicid c) (cpus c))).
Definition lgdt (p size : Z) : M S unit := c ← this_cpu; dmod (set_gdtr c (load_tabreg (pd p size))).
Definition lidt (p size : Z) : M S unit := c ← this_cpu; dmod (set_idtr c (load_tabreg (pd p size))).
Definition ltr (sel : Z) : M S unit := c ← this_cpu; dmod (set_tr c sel).

Definition seginit : M S unit :=
  c ← mycpu;
  dmod (mod_gdt c (fun g =>
    let g := zset g SEG_KCODE (SEG (Z.lor STA_X STA_R) 0 0xffffffff 0) in
    let g := zset g SEG_KDATA (SEG STA_W 0 0xffffffff 0) in
    let g := zset g SEG_UCODE (SEG (Z.lor STA_X STA_R) 0 0xffffffff DPL_USER) in
    zset g SEG_UDATA (SEG STA_W 0 0xffffffff DPL_USER)));;
  lgdt (gdt_addr c) (sizeof_segdesc * Z.of_nat NSEGS).

(** All of [switchuvm]. *)
Definition switchuvm (p : option nat) : M S unit :=
  match p with
  | None => panic "switchuvm: no process"
  | Some p =>
      q ← core_get (fun c => getp c p);
      if kstack q =? 0 then panic "switchuvm: no kstack"
      else if pgdir q =? 0 then panic "switchuvm: no pgdir"
      else
        pushcli;;
        c ← mycpu;
        dmod (mod_gdt c (fun g => zset g SEG_TSS (SEG16 STS_T32A (ts_addr c) (sizeof_taskstate - 1) 0)));;
        dmod (mod_gdt c (fun g => zset g SEG_TSS (set_s 0 (zget (SEG 0 0 0 0) g SEG_TSS))));;
        dmod (set_ts c (fun t => {| esp0 := esp0 t; ss0 := Z.shiftl SEG_KDATA 3; iomb := iomb t |}));;
        dmod (set_ts c (fun t => {| esp0 := u32 (kstack q + KSTACKSIZE); ss0 := ss0 t; iomb := iomb t |}));;
        dmod (set_ts c (fun t => {| esp0 := esp0 t; ss0 := ss0 t; iomb := 0xFFFF |}));;
        ltr (Z.shiftl SEG_TSS 3);;
        lmod (T := Vm.vmvars) (fun v => {| Vm.kpgdir := Vm.kpgdir v; Vm.cr3 := V2P (pgdir q);
                                          Vm.esp0 := kstack q + KSTACKSIZE |});;
        popcli
  end.

Definition tvinit : M S unit :=
  for_each (fun i => dmod (fun t => set_idt (zset (idt t) (Z.of_nat i)
    (SETGATE false (Z.shiftl SEG_KCODE 3) (vectors (Z.of_nat i)) 0)) t)) (seq 0 256);;
  dmod (fun t => set_idt (zset (idt t) T_SYSCALL
    (SETGATE true (Z.shiftl SEG_KCODE 3) (vectors T_SYSCALL) DPL_USER)) t);;
  initlock L_tick.

Definition idtinit : M S unit := lidt idt_addr (sizeof_gatedesc * 256).

End Ops.

(** *** The processor *)

(** A segment as the processor understands its words. *)
Record segment : Type := { sg_base : Z; sg_limit : Z; sg_type : Z; sg_system : bool; sg_dpl : Z; sg_present : bool }.

Definition field (w lo n : Z) : Z := Z.shiftr w lo mod 2 ^ n.
Definition seg_of (w : Z * Z) : segment :=
  let lim := field w.1 0 16 + 2 ^ 16 * field w.2 16 4 in
  {| sg_base := field w.1 16 16 + 2 ^ 16 * field w.2 0 8 + 2 ^ 24 * field w.2 24 8;
     sg_limit := if field w.2 23 1 =? 1 then 2 ^ 12 * lim + (2 ^ 12 - 1) else lim;
     sg_type := field w.2 8 4; sg_system := field w.2 12 1 =? 0; sg_dpl := field w.2 13 2; sg_present := field w.2 15 1 =? 1 |}.

Record gate : Type := { gt_off : Z; gt_sel : Z; gt_type : Z; gt_dpl : Z; gt_present : bool }.
Definition gate_of (w : Z * Z) : gate :=
  {| gt_off := field w.1 0 16 + 2 ^ 16 * field w.2 16 16; gt_sel := field w.1 16 16; gt_type := field w.2 8 4;
     gt_dpl := field w.2 13 2; gt_present := field w.2 15 1 =? 1 |}.

(** The segment that a selector names: its offset must be within the limit of the table. *)
Definition lookup_sel (t : desctab) (c : nat) (sel : Z) : option segment :=
  match gdtr t c with
  | Some r => if 8 * (sel / 8) + 7 <=? tr_limit r then Some (seg_of (segw (zget (SEG 0 0 0 0) (gdt t c) (sel / 8)))) else None
  | None => None
  end.

(** An instruction [int n] at privilege [cpl]: the handler, and whether interrupts stay on.
    A gate of higher privilege than its caller gives a protection fault. *)
Definition int_n (t : desctab) (c : nat) (cpl n : Z) : option (Z * Z * bool) :=
  match idtr t c with
  | Some r =>
      if 8 * n + 7 <=? tr_limit r then
        let g := gate_of (gatew (zget (SETGATE false 0 0 0) (idt t) n)) in
        if gt_present g && (cpl <=? gt_dpl g) then Some (gt_sel g, gt_off g, gt_type g =? STS_TG32) else None
      else None
  | None => None
  end.

End Seg.
