(* ===== verification/SegProof.v ===== *)
(** * Segments and gates: what the processor makes of them *)

From stdpp Require Import base gmap list strings.
From Stdlib Require Import ZArith Lia.
From S2P Require Import Prelude Core Locking Kalloc Vm Seg.
Import Seg.

Module SegProof.

(** *** Reading back the words *)

Lemma land_ffff x : Z.land x 0xffff = x mod 2 ^ 16.
Proof. apply (Z.land_ones x 16). lia. Qed.
Lemma land_f x : Z.land x 0xf = x mod 2 ^ 4.
Proof. apply (Z.land_ones x 4). lia. Qed.

Ltac powers :=
  change (2 ^ 0) with 1 in *; change (2 ^ 1) with 2 in *; change (2 ^ 2) with 4 in *; change (2 ^ 4) with 16 in *;
  change (2 ^ 5) with 32 in *; change (2 ^ 8) with 256 in *; change (2 ^ 12) with 4096 in *; change (2 ^ 13) with 8192 in *;
  change (2 ^ 15) with 32768 in *; change (2 ^ 16) with 65536 in *; change (2 ^ 20) with 1048576 in *; change (2 ^ 21) with 2097152 in *;
  change (2 ^ 22) with 4194304 in *; change (2 ^ 23) with 8388608 in *; change (2 ^ 24) with 16777216 in *;
  change (2 ^ 28) with 268435456 in *; change (2 ^ 32) with 4294967296 in *.

(** The second word of a segment descriptor, field by field. *)
Lemma seg_word b t s d p l av rs dd g h : 0 <= b < 256 -> 0 <= t < 16 -> 0 <= s < 2 -> 0 <= d < 4 -> 0 <= p < 2 -> 0 <= l < 16 ->
  0 <= av < 2 -> 0 <= rs < 2 -> 0 <= dd < 2 -> 0 <= g < 2 -> 0 <= h < 256 ->
  let w := b + 2 ^ 8 * t + 2 ^ 12 * s + 2 ^ 13 * d + 2 ^ 15 * p + 2 ^ 16 * l + 2 ^ 20 * av + 2 ^ 21 * rs + 2 ^ 22 * dd + 2 ^ 23 * g + 2 ^ 24 * h in
  field w 0 8 = b /\ field w 8 4 = t /\ field w 12 1 = s /\ field w 13 2 = d /\ field w 15 1 = p /\ field w 16 4 = l /\
  field w 23 1 = g /\ field w 24 8 = h.
Proof.
  intros. unfold field. rewrite !Z.shiftr_div_pow2 by lia. unfold w. clear w. powers. split_and!; Z.div_mod_to_equations; lia.
Qed.

Lemma low_word a b : 0 <= a < 2 ^ 16 -> 0 <= b < 2 ^ 16 -> field (a + 2 ^ 16 * b) 0 16 = a /\ field (a + 2 ^ 16 * b) 16 16 = b.
Proof. intros. unfold field. rewrite !Z.shiftr_div_pow2 by lia. powers. split; Z.div_mod_to_equations; lia. Qed.

(** A segment of [SEG]: the limit counts pages. *)
Lemma seg_SEG t base lim d : 0 <= t < 16 -> 0 <= base < 2 ^ 32 -> 0 <= lim < 2 ^ 32 -> 0 <= d < 4 ->
  seg_of (segw (SEG t base lim d)) =
  {| sg_base := base; sg_limit := 2 ^ 12 * (lim / 2 ^ 12) + (2 ^ 12 - 1); sg_type := t; sg_system := false; sg_dpl := d; sg_present := true |}.
Proof.
  intros Ht Hb Hl Hd. unfold seg_of, segw, SEG. cbn [lim_15_0 base_15_0 base_23_16 sd_type sd_s sd_dpl sd_p lim_19_16 avl rsv1 db sd_g base_31_24 fst snd].
  rewrite !land_ffff, land_ff, !Z.shiftr_div_pow2 by lia. unfold u8.
  destruct (low_word ((lim / 2 ^ 12) mod 2 ^ 16) (base mod 2 ^ 16)) as [E1 E2]; [apply Z.mod_pos_bound; lia.. |].
  destruct (seg_word ((base / 2 ^ 16) mod 2 ^ 8) t 1 d 1 (lim / 2 ^ 28) 0 0 1 1 (base / 2 ^ 24)) as (F1 & F2 & F3 & F4 & F5 & F6 & F7 & F8);
    [powers; Z.div_mod_to_equations; lia.. |].
  rewrite E1, E2, F1, F2, F3, F4, F5, F6, F7, F8. cbn [Z.eqb Pos.eqb]. f_equal; powers; Z.div_mod_to_equations; lia.
Qed.

(** A segment of [SEG16]: the limit counts bytes. *)
Lemma seg_SEG16 t base lim d s : 0 <= t < 16 -> 0 <= base < 2 ^ 32 -> 0 <= lim < 2 ^ 20 -> 0 <= d < 4 -> 0 <= s < 2 ->
  seg_of (segw (set_s s (SEG16 t base lim d))) =
  {| sg_base := base; sg_limit := lim; sg_type := t; sg_system := s =? 0; sg_dpl := d; sg_present := true |}.
Proof.
  intros Ht Hb Hl Hd Hs. unfold seg_of, segw, set_s, SEG16. cbn [lim_15_0 base_15_0 base_23_16 sd_type sd_s sd_dpl sd_p lim_19_16 avl rsv1 db sd_g base_31_24 fst snd].
  rewrite !land_ffff, land_ff, land_f, !Z.shiftr_div_pow2 by lia. unfold u8.
  destruct (low_word (lim mod 2 ^ 16) (base mod 2 ^ 16)) as [E1 E2]; [apply Z.mod_pos_bound; lia.. |].
  destruct (seg_word ((base / 2 ^ 16) mod 2 ^ 8) t s d 1 ((lim / 2 ^ 16) mod 2 ^ 4) 0 0 1 0 (base / 2 ^ 24)) as (F1 & F2 & F3 & F4 & F5 & F6 & F7 & F8);
    [powers; Z.div_mod_to_equations; lia.. |].
  rewrite E1, E2, F1, F2, F3, F4, F5, F6, F7, F8. cbn [Z.eqb Pos.eqb]. f_equal; powers; Z.div_mod_to_equations; lia.
Qed.

Lemma gate_SETGATE k sel off d : 0 <= sel < 2 ^ 16 -> 0 <= off < 2 ^ 32 -> 0 <= d < 4 ->
  gate_of (gatew (SETGATE k sel off d)) =
  {| gt_off := off; gt_sel := sel; gt_type := if k then STS_TG32 else STS_IG32; gt_dpl := d; gt_present := true |}.
Proof.
  intros Hs Ho Hd. unfold gate_of, gatew, SETGATE. cbn [off_15_0 gd_cs gd_args gd_rsv1 gd_type gd_s gd_dpl gd_p off_31_16 fst snd].
  rewrite land_ffff, Z.shiftr_div_pow2 by lia. destruct (low_word (off mod 2 ^ 16) sel) as [E1 E2]; [apply Z.mod_pos_bound; lia | done |].
  rewrite E1, E2. set (t := if k then STS_TG32 else STS_IG32). assert (Ht : 0 <= t < 16) by (unfold t; destruct k; by vm_compute).
  clearbody t. unfold field. rewrite !Z.shiftr_div_pow2 by lia.
  f_equal; [| | | apply Z.eqb_eq]; powers; Z.div_mod_to_equations; lia.
Qed.

Lemma pd_load p size : 0 <= p < 2 ^ 32 -> 0 < size <= 2 ^ 16 -> load_tabreg (pd p size) = {| tr_limit := size - 1; tr_base := p |}.
Proof.
  intros Hp Hs. unfold load_tabreg, pd. cbn [fst snd]. rewrite Z.shiftr_div_pow2 by lia. unfold u16. powers. f_equal; Z.div_mod_to_equations; lia.
Qed.

(** *** The operations *)

Abbreviation sst := (core * desctab * Vm.vmvars)%type.
Ltac slens := cbn [lget lset lens_fst lens_snd lens_id fst snd].

Section Ops.
Context (gdt_addr ts_addr : nat -> Z) (idt_addr : Z) (vectors : Z -> Z).

Definition flat (t d : Z) : segdesc := SEG t 0 0xffffffff d.
Definition code : Z := Z.lor STA_X STA_R.
Definition flat_gdt (g : list segdesc) : list segdesc :=
  zset (zset (zset (zset g SEG_KCODE (flat code 0)) SEG_KDATA (flat STA_W 0)) SEG_UCODE (flat code DPL_USER)) SEG_UDATA (flat STA_W DPL_USER).

Lemma wp_this_cpu (c : core) t v i (Q : nat -> sst -> Prop) : find_cpu (hw_apicid c) (cpus c) = Some i ->
  Q i (c, t, v) -> wp this_cpu (c, t, v) Q.
Proof. intros Hi HQ. unfold this_cpu, core_get. wp_step. slens. by rewrite Hi. Qed.

Lemma wp_seginit (c : core) t v i (Q : unit -> sst -> Prop) : find_cpu (hw_apicid c) (cpus c) = Some i -> hw_if c = false ->
  0 <= gdt_addr i < 2 ^ 32 ->
  Q tt (c, set_gdtr i {| tr_limit := 47; tr_base := gdt_addr i |} (mod_gdt i flat_gdt t), v) -> wp (seginit gdt_addr) (c, t, v) Q.
Proof.
  intros Hi Hif Hg HQ. unfold seginit. wp_step. apply (wp_mycpu _ i); [done | done |]. wp_step. unfold dmod. wp_step. slens.
  unfold lgdt. wp_step. apply (wp_this_cpu _ _ _ i); [done|]. unfold dmod. wp_step. slens.
  change (sizeof_segdesc * Z.of_nat NSEGS) with 48. rewrite pd_load by (done || lia). exact HQ.
Qed.

(** The gates after the first [k] rounds. *)
Definition fill (l : list gatedesc) (k : nat) : list gatedesc :=
  foldl (fun l i => zset l (Z.of_nat i) (SETGATE false 8 (vectors (Z.of_nat i)) 0)) l (seq 0 k).

Lemma fill_S l k : fill l (S k) = zset (fill l k) (Z.of_nat k) (SETGATE false 8 (vectors (Z.of_nat k)) 0).
Proof. unfold fill. by rewrite seq_S, foldl_snoc. Qed.

Lemma fill_spec l k : length (fill l k) = length l /\
  forall j, 0 <= j < Z.of_nat k -> (k <= length l)%nat -> zget (SETGATE false 0 0 0) (fill l k) j = SETGATE false 8 (vectors j) 0.
Proof.
  induction k as [|k [IHl IH]]; [split; [done | lia]|]. rewrite fill_S, zset_length. split; [done|]. intros j Hj Hk.
  destruct (decide (j = Z.of_nat k)) as [->|Hne]; [apply zget_zset_eq; unfold zlen; lia | rewrite zget_zset_ne by done; apply IH; lia].
Qed.

Definition full_idt (l : list gatedesc) : list gatedesc := zset (fill l 256) T_SYSCALL (SETGATE true 8 (vectors T_SYSCALL) DPL_USER).

Lemma full_idt_spec l n : length l = 256%nat -> 0 <= n < 256 ->
  zget (SETGATE false 0 0 0) (full_idt l) n = if n =? 64 then SETGATE true 8 (vectors 64) 3 else SETGATE false 8 (vectors n) 0.
Proof.
  intros Hl Hn. unfold full_idt, T_SYSCALL. destruct (fill_spec l 256) as [Hlen Hf]. destruct (Z.eqb_spec n 64) as [->|Hne].
  - apply zget_zset_eq. unfold zlen. lia.
  - rewrite zget_zset_ne by lia. apply Hf; lia.
Qed.

Lemma wp_tvinit (c : core) t v (Q : unit -> sst -> Prop) :
  (forall c', hw_apicid c' = hw_apicid c -> cpus c' = cpus c -> hw_if c' = hw_if c -> procs c' = procs c ->
     Q tt (c', set_idt (full_idt (idt t)) t, v)) -> wp (tvinit vectors) (c, t, v) Q.
Proof.
  intros HQ. unfold tvinit. wp_step.
  apply (wp_for_seq _ (fun k s => s = (c, set_idt (fill (idt t) k) t, v))); [by destruct t | |].
  - intros k s1 Hk ->. unfold dmod. wp_step. slens. by rewrite fill_S.
  - intros s1 ->. unfold dmod. wp_step. slens. unfold initlock, core_mod. wp_step. slens. by apply HQ.
Qed.

Lemma wp_idtinit (c : core) t v i (Q : unit -> sst -> Prop) : find_cpu (hw_apicid c) (cpus c) = Some i -> 0 <= idt_addr < 2 ^ 32 ->
  Q tt (c, set_idtr i {| tr_limit := 2047; tr_base := idt_addr |} t, v) -> wp (idtinit idt_addr) (c, t, v) Q.
Proof.
  intros Hi Ha HQ. unfold idtinit, lidt. wp_step. apply (wp_this_cpu _ _ _ i); [done|]. unfold dmod. wp_step. slens.
  change (sizeof_gatedesc * 256) with 2048. rewrite pd_load by (done || lia). exact HQ.
Qed.

(** The tables that [switchuvm] leaves. *)
Definition task_tables (i : nat) (k : Z) (t : desctab) : desctab :=
  set_tr i 40 (set_ts i (fun _ => {| esp0 := u32 (k + KSTACKSIZE); ss0 := 16; iomb := 0xFFFF |})
    (mod_gdt i (fun g => zset (zset g SEG_TSS (SEG16 STS_T32A (ts_addr i) 103 0)) SEG_TSS
       (set_s 0 (zget (SEG 0 0 0 0) (zset g SEG_TSS (SEG16 STS_T32A (ts_addr i) 103 0)) SEG_TSS))) t)).

Definition same_tables (t t' : desctab) : Prop :=
  (forall c, gdt t' c = gdt t c /\ ts t' c = ts t c /\ gdtr t' c = gdtr t c /\ idtr t' c = idtr t c /\ tr t' c = tr t c) /\ idt t' = idt t.

Lemma wp_switchuvm (c : core) t v i d ie q p (Q : unit -> sst -> Prop) : cpu_ok c i d ie q ->
  kstack (getp c p) <> 0 -> pgdir (getp c p) <> 0 ->
  (forall c' t', procs c' = procs c -> same_tables (task_tables i (kstack (getp c p)) t) t' -> Q tt (c', t', {| Vm.kpgdir := Vm.kpgdir v; Vm.cr3 := V2P (pgdir (getp c p));
     Vm.esp0 := kstack (getp c p) + KSTACKSIZE |})) -> wp (switchuvm ts_addr (Some p)) (c, t, v) Q.
Proof.
  intros Hc Hk Hp HQ. unfold switchuvm, core_get. wp_step. slens. rewrite (proj2 (Z.eqb_neq _ _) Hk), (proj2 (Z.eqb_neq _ _) Hp).
  set (k := kstack (getp c p)) in *. apply wp_bind. eapply wp_pushcli; [exact Hc|]. slens. intros c1 Hc1 (_ & Hp1 & _). wp_step.
  pose proof (cpu_ok_find _ _ _ _ _ Hc1) as Hi. pose proof Hc as [Hd _].
  apply (wp_mycpu _ i); [done | eapply cpu_ok_if; [exact Hc1 | lia] |]. unfold dmod. wp_step. slens.
  unfold ltr. wp_step. apply (wp_this_cpu _ _ _ i); [done|]. unfold dmod. wp_step. slens.
  eapply wp_popcli; [exact Hc1 | lia |]. slens. intros c2 Hc2 (_ & Hp2 & _). apply HQ; [congruence|].
  split; [|done]. intros j. unfold task_tables, set_tr, set_ts, mod_gdt, on_cpu. cbn [gdt ts gdtr idtr tr]. by destruct (decide (j = i)) as [->|].
Qed.

(** A segment of 4 GB. *)
Definition flat_seg (ty dpl : Z) : option segment :=
  Some {| sg_base := 0; sg_limit := 2 ^ 32 - 1; sg_type := ty; sg_system := false; sg_dpl := dpl; sg_present := true |}.

(** C20: What user code can reach.  After [seginit], [tvinit] and [idtinit] on a CPU and
    [switchuvm] to a process, the processor finds: flat code and data segments of 4 GB, for the
    kernel at privilege 0 and for the user at privilege 3; a task segment that is exactly the
    CPU's task state, with the kernel stack of the process and an I/O map beyond its limit;
    for every vector its handler in the kernel's code segment.  A user program enters the
    kernel with [int n] only for the system call vector, and only that one leaves interrupts
    on. *)
Theorem descriptors_protect (c : core) t (v : Vm.vmvars) i d ie q p :
  cpu_ok c i d ie q -> hw_if c = false -> kstack (getp c p) <> 0 -> pgdir (getp c p) <> 0 -> 0 <= kstack (getp c p) + KSTACKSIZE < 2 ^ 32 ->
  length (gdt t i) = 6%nat -> length (idt t) = 256%nat -> 0 <= gdt_addr i < 2 ^ 32 -> 0 <= ts_addr i < 2 ^ 32 -> 0 <= idt_addr < 2 ^ 32 ->
  (forall n, 0 <= n < 256 -> 0 <= vectors n < 2 ^ 32) ->
  exists c' t' v', (seginit gdt_addr;; tvinit vectors;; idtinit idt_addr;; switchuvm ts_addr (Some p)) (c, t, v) = Ret tt (c', t', v') /\
    let seg sel := lookup_sel t' i sel in
    seg 8 = flat_seg 0xA 0 /\ seg 16 = flat_seg 2 0 /\ seg 27 = flat_seg 0xA 3 /\ seg 35 = flat_seg 2 3 /\
    seg (tr t' i) = Some {| sg_base := ts_addr i; sg_limit := 103; sg_type := STS_T32A; sg_system := true; sg_dpl := 0; sg_present := true |} /\
    ts t' i = {| esp0 := kstack (getp c p) + KSTACKSIZE; ss0 := 16; iomb := 0xFFFF |} /\
    gdtr t' i = Some {| tr_limit := 47; tr_base := gdt_addr i |} /\ idtr t' i = Some {| tr_limit := 2047; tr_base := idt_addr |} /\
    (forall n, 0 <= n < 256 -> int_n t' i 3 n = (if n =? 64 then Some (8, vectors 64, true) else None) /\
       int_n t' i 0 n = Some (8, vectors n, n =? 64)).
Proof.
  intros Hc Hif Hk Hp Hks Hg Hi Hga Hta Hia Hv.
  enough (H : wp (seginit gdt_addr;; tvinit vectors;; idtinit idt_addr;; switchuvm ts_addr (Some p)) (c, t, v)
    (fun _ s => same_tables (task_tables i (kstack (getp c p)) (set_idtr i {| tr_limit := 2047; tr_base := idt_addr |}
       (set_idt (full_idt (idt t)) (set_gdtr i {| tr_limit := 47; tr_base := gdt_addr i |} (mod_gdt i flat_gdt t))))) s.1.2)).
  - destruct H as ([] & [[c' t'] v'] & E & [Ht Hidt]). exists c', t', v'. split; [exact E|]. cbv zeta. cbn [fst snd] in Ht, Hidt.
    destruct (Ht i) as (Eg & Ets & Egr & Eir & Etr). clear Ht E. cbn [task_tables set_tr set_ts mod_gdt set_idtr set_idt set_gdtr gdt ts gdtr idtr tr idt on_cpu] in *.
    unfold on_cpu in *. destruct (decide (i = i)) as [_|?]; [|done]. unfold lookup_sel, int_n. rewrite Eg, Egr, Eir, Etr, Hidt. clear Eg Egr Eir Etr Hidt.
    destruct (gdt t i) as [|g0 [|g1 [|g2 [|g3 [|g4 [|g5 [|]]]]]]]; try discriminate Hg.
    split_and!; [by vm_compute | by vm_compute | by vm_compute | by vm_compute | | by rewrite Ets, u32_small | done | done |].
    + cbn [tr_limit]. change (8 * (40 / 8) + 7 <=? 47) with true. cbv iota. f_equal. apply seg_SEG16; [by vm_compute | done | by vm_compute | lia | lia].
    + intros n Hn. cbn [tr_limit]. rewrite (proj2 (Z.leb_le (8 * n + 7) 2047)) by lia. rewrite full_idt_spec by done. pose proof (Hv n Hn).
      destruct (Z.eqb_spec n 64) as [->|Hne]; rewrite gate_SETGATE by (done || lia); by vm_compute.
  - apply wp_bind, (wp_seginit _ _ _ i); [by eapply cpu_ok_find | done | done |].
    apply wp_bind, wp_tvinit. intros c1 Ea Ec Ei Ep. assert (Hc1 : cpu_ok c1 i d ie q) by (unfold cpu_ok in *; by rewrite Ea, Ec, Ei).
    assert (Hget : getp c1 p = getp c p) by (unfold getp; by rewrite Ep).
    apply wp_bind, (wp_idtinit _ _ _ i); [by eapply cpu_ok_find | done |].
    eapply wp_switchuvm; [exact Hc1 | by rewrite Hget | by rewrite Hget |]. rewrite Hget. by intros c2 t2 _ Ht.
Qed.

End Ops.

(** A CPU that starts, with one process. *)
Definition seg_core : core :=
  {| hw_apicid := 7; hw_if := false; cpus := [{| apicid := 7; ncli := 0; intena := false; cproc := None |}];
     locks := fun _ => {| locked := false; lcpu := None |};
     procs := [{| sz := 4096; pgdir := 0x8dfff000; kstack := 0x8dffe000; pstate := RUNNABLE; pid := 1; parent := None; tf := tf proc0;
                 ctx_eip := 0; pchan := ch_none; killed := false; ofile := []; cwd := None; pname := [] |}];
     nextpid := 2; initproc := Some 0%nat |}.
Definition no_tables : desctab :=
  {| gdt := fun _ => replicate 6 (SEG 0 0 0 0); ts := fun _ => {| esp0 := 0; ss0 := 0; iomb := 0 |}; gdtr := fun _ => None;
     idtr := fun _ => None; tr := fun _ => 0; idt := replicate 256 (SETGATE false 0 0 0) |}.

Lemma descriptors_protect_witness : exists c' t' v',
  (seginit (fun _ => 0x80112000);; tvinit (fun n => 0x80106000 + n);; idtinit 0x80114000;; switchuvm (fun _ => 0x80112800) (Some 0%nat))
    (seg_core, no_tables, {| Vm.kpgdir := 0; Vm.cr3 := 0; Vm.esp0 := 0 |}) = Ret tt (c', t', v') /\
  int_n t' 0 3 64 = Some (8, 0x80106040, true) /\ int_n t' 0 3 14 = None /\ esp0 (ts t' 0) = 0x8dfff000.
Proof.
  destruct (descriptors_protect (fun _ => 0x80112000) (fun _ => 0x80112800) 0x80114000 (fun n => 0x80106000 + n) seg_core no_tables
    {| Vm.kpgdir := 0; Vm.cr3 := 0; Vm.esp0 := 0 |} 0 0 false None 0) as (c' & t' & v' & E & _ & _ & _ & _ & _ & Hts & _ & _ & Hint).
  - split; [lia|]. split; [done|]. by eexists.
  - done.
  - done.
  - done.
  - by vm_compute.
  - done.
  - by vm_compute.
  - by vm_compute.
  - by vm_compute.
  - by vm_compute.
  - intros n Hn. lia.
  - exists c', t', v'. split; [exact E|]. rewrite Hts. split_and!; [apply (Hint 64) | apply (Hint 14) | done]; lia.
Defined.

End SegProof.
