(* ===== verification/Asm.v ===== *)
(** * The assembly code: context switch, trap entry and return, system call stubs

    The instructions of swtch.S, trapasm.S, vectors.S, usys.S and initcode.S on the registers of
    the processor and on memory, and the frames that the C code makes of what they push
    ([struct trapframe], [struct context]).  A piece of code is the list of its instructions up
    to a transfer of control; code addresses are those that the linker gives to the labels. *)

From stdpp Require Import base gmap list strings.
From Stdlib Require Import ZArith Lia.
From S2P Require Import Prelude CString Core Seg Proc Trap.

Module Asm.

(** ** The processor *)

Inductive reg : Type := EAX | ECX | EDX | EBX | ESP | EBP | ESI | EDI.
Inductive sreg : Type := CS | DS | ES | FS | GS | SS.

Record regs : Type := { eax : Z; ecx : Z; edx : Z; ebx : Z; esp : Z; ebp : Z; esi : Z; edi : Z }.
Record sregs : Type := { cs : Z; ds : Z; es : Z; fs : Z; gs : Z; ss : Z }.
(** General registers, segment selectors, instruction pointer, flags and the memory that the
    page table maps. *)
Record x86 : Type := { rs : regs; ss_ : sregs; eip : Z; eflags : Z; mm : mem }.

Definition gr (s : x86) (r : reg) : Z :=
  match r with
  | EAX => eax (rs s) | ECX => ecx (rs s) | EDX => edx (rs s) | EBX => ebx (rs s)
  | ESP => esp (rs s) | EBP => ebp (rs s) | ESI => esi (rs s) | EDI => edi (rs s)
  end.
Definition sr (s : x86) (g : sreg) : Z :=
  match g with CS => cs (ss_ s) | DS => ds (ss_ s) | ES => es (ss_ s) | FS => fs (ss_ s) | GS => gs (ss_ s) | SS => ss (ss_ s) end.

Definition put (r : reg) (v : Z) (x : regs) : regs :=
  let '(Build_regs a c d b sp bp si di) := x in
  match r with
  | EAX => Build_regs v c d b sp bp si di | ECX => Build_regs a v d b sp bp si di
  | EDX => Build_regs a c v b sp bp si di | EBX => Build_regs a c d v sp bp si di
  | ESP => Build_regs a c d b v bp si di | EBP => Build_regs a c d b sp v si di
  | ESI => Build_regs a c d b sp bp v di | EDI => Build_regs a c d b sp bp si v
  end.
Definition puts (g : sreg) (v : Z) (x : sregs) : sregs :=
  let '(Build_sregs c d e f g' s) := x in
  match g with
  | CS => Build_sregs v d e f g' s | DS => Build_sregs c v e f g' s | ES => Build_sregs c d v f g' s
  | FS => Build_sregs c d e v g' s | GS => Build_sregs c d e f v s | SS => Build_sregs c d e f g' v
  end.
Definition setr (r : reg) (v : Z) (s : x86) : x86 := {| rs := put r v (rs s); ss_ := ss_ s; eip := eip s; eflags := eflags s; mm := mm s |}.
Definition sets (g : sreg) (v : Z) (s : x86) : x86 := {| rs := rs s; ss_ := puts g v (ss_ s); eip := eip s; eflags := eflags s; mm := mm s |}.
Definition setip (a : Z) (s : x86) : x86 := {| rs := rs s; ss_ := ss_ s; eip := a; eflags := eflags s; mm := mm s |}.
Definition setfl (f : Z) (s : x86) : x86 := {| rs := rs s; ss_ := ss_ s; eip := eip s; eflags := f; mm := mm s |}.
Definition setm (m : mem) (s : x86) : x86 := {| rs := rs s; ss_ := ss_ s; eip := eip s; eflags := eflags s; mm := m |}.

Definition push (v : Z) (s : x86) : x86 :=
  let a := u32 (gr s ESP - 4) in setr ESP a (setm (store32 (mm s) a v) s).
Definition top (s : x86) : Z := load32 (mm s) (gr s ESP).
(** Drop [n] bytes of the stack. *)
Definition drop_stack (n : Z) (s : x86) : x86 := setr ESP (u32 (gr s ESP + n)) s.
Definition popr (r : reg) (s : x86) : x86 := setr r (top s) (drop_stack 4 s).

(** The privilege level. *)
Definition cpl (s : x86) : Z := sr s CS mod 4.

Inductive instr : Type :=
| Pushl (r : reg) | PushlS (g : sreg) | PushlI (i : Z) | Popl (r : reg) | PoplS (g : sreg) | Pushal | Popal
| Load (off : Z) (base dst : reg) | Store (src base : reg) | Movl (src dst : reg) | MovlI (i : Z) (dst : reg)
| MovwI (i : Z) (dst : reg) | MovwS (src : reg) (g : sreg) | Addl (i : Z) (dst : reg)
| Jmp (a : Z) | Call (a ret : Z) | Ret | Iret | Int (n ret : Z).

Section Exec.
(** The gates ([int_n] of the descriptor tables), the stack of the task state, and the upper
    half of a word in which the processor stores a selector, which is not defined. *)
Context (gate : Z -> Z -> option (Z * Z * bool)) (esp0 ss0 : Z) (pad : Z).

Definition selw (x : Z) : Z := u16 x + 2 ^ 16 * u16 pad.

(** Flags that are cleared on entry: trap, nested task, resume, virtual 8086. *)
Definition FL_ENTRY : Z := Z.lor 0x100 (Z.lor 0x4000 (Z.lor 0x10000 0x20000)).

(** An interrupt through a gate: from user mode on the stack of the task state, which first gets
    the user's; a fault pushes an error code. *)
Definition deliver (g : Z * Z * bool) (err : option Z) (s : x86) : x86 :=
  let '(sel, off, keep) := g in
  let s1 := if cpl s =? 0 then s
            else push (gr s ESP) (push (selw (sr s SS)) (sets SS ss0 (setr ESP esp0 s))) in
  let s2 := push (eip s) (push (selw (sr s CS)) (push (eflags s) s1)) in
  let s3 := match err with Some e => push e s2 | None => s2 end in
  setip off (sets CS sel (setfl (Z.ldiff (eflags s) (if keep then FL_ENTRY else Z.lor FL_ENTRY Proc.FL_IF)) s3)).

(** [iret]; it takes the stack pointer and segment too when it returns to user mode. *)
Definition iret (s : x86) : x86 :=
  let ip := top s in
  let s1 := drop_stack 4 s in
  let sel := u16 (top s1) in
  let s2 := drop_stack 4 s1 in
  let fl := top s2 in
  let s3 := drop_stack 4 s2 in
  let s4 := if cpl s <? sel mod 4 then sets SS (u16 (load32 (mm s3) (u32 (gr s3 ESP + 4)))) (setr ESP (top s3) s3) else s3 in
  setip ip (sets CS sel (setfl fl s4)).

Definition pushal (s : x86) : x86 :=
  push (gr s EDI) (push (gr s ESI) (push (gr s EBP) (push (gr s ESP) (push (gr s EBX) (push (gr s EDX) (push (gr s ECX) (push (gr s EAX) s))))))).
(** The saved stack pointer is skipped. *)
Definition popal (s : x86) : x86 :=
  popr EAX (popr ECX (popr EDX (popr EBX (drop_stack 4 (popr EBP (popr ESI (popr EDI s))))))).

(** An interrupt instruction without a gate for its privilege is a fault, which is not followed
    here. *)
Definition exec (i : instr) (s : x86) : option x86 :=
  match i with
  | Pushl r => Some (push (gr s r) s)
  | PushlS g => Some (push (selw (sr s g)) s)
  | PushlI i => Some (push i s)
  | Popl r => Some (popr r s)
  | PoplS g => Some (sets g (u16 (top s)) (drop_stack 4 s))
  | Pushal => Some (pushal s)
  | Popal => Some (popal s)
  | Load off base dst => Some (setr dst (load32 (mm s) (u32 (gr s base + off))) s)
  | Store src base => Some (setm (store32 (mm s) (gr s base) (gr s src)) s)
  | Movl src dst => Some (setr dst (gr s src) s)
  | MovlI i dst => Some (setr dst i s)
  | MovwI i dst => Some (setr dst (2 ^ 16 * (gr s dst / 2 ^ 16) + u16 i) s)
  | MovwS src g => Some (sets g (u16 (gr s src)) s)
  | Addl i dst => Some (setr dst (u32 (gr s dst + i)) s)
  | Jmp a => Some (setip a s)
  | Call a ret => Some (setip a (push ret s))
  | Ret => Some (setip (top s) (drop_stack 4 s))
  | Iret => Some (iret s)
  | Int n ret => match gate (cpl s) n with Some g => Some (deliver g None (setip ret s)) | None => None end
  end.

Fixpoint exec_list (l : list instr) (s : x86) : option x86 :=
  match l with
  | [] => Some s
  | i :: l' => match exec i s with Some s' => exec_list l' s' | None => None end
  end.

End Exec.

(** ** The code *)

(** swtch.S *)
Definition swtch : list instr :=
  [ Load 4 ESP EAX; Load 8 ESP EDX;
    Pushl EBP; Pushl EBX; Pushl ESI; Pushl EDI;
    Store ESP EAX; Movl EDX ESP;
    Popl EDI; Popl ESI; Popl EBX; Popl EBP; Ret ].

(** vectors.S, as vectors.pl writes it: the processor pushes an error code for some vectors. *)
Definition has_err (n : Z) : bool := (n =? 8) || ((10 <=? n) && (n <=? 14)) || (n =? 17).
Definition vector (alltraps n : Z) : list instr := (if has_err n then [] else [PushlI 0]) ++ [PushlI n; Jmp alltraps].

(** trapasm.S: up to the call of [trap], and from its return on. *)
Definition alltraps_code (trap after : Z) : list instr :=
  [ PushlS DS; PushlS ES; PushlS FS; PushlS GS; Pushal;
    MovwI (Z.shiftl Seg.SEG_KDATA 3) EAX; MovwS EAX DS; MovwS EAX ES;
    Pushl ESP; Call trap after ].
Definition trapret_code : list instr :=
  [ Popal; PoplS GS; PoplS FS; PoplS ES; PoplS DS; Addl 8 ESP; Iret ].
Definition after_code : list instr := Addl 4 ESP :: trapret_code.

(** usys.S: the stub of the call [num]; [ret] is the address of its [ret]. *)
Definition stub (num ret : Z) : list instr := [MovlI num EAX; Int Trap.T_SYSCALL ret].

(** initcode.S: the call of [exec], with the addresses of [init] and [argv]. *)
Definition initcode (init argv ret : Z) : list instr :=
  [PushlI argv; PushlI init; PushlI 0; MovlI Trap.SYS_exec EAX; Int Trap.T_SYSCALL ret].

(** From the interrupt, with the error code [e] if the vector has one, to the call of [trap]. *)
Section Entry.
Context (esp0 ss0 pad alltraps trap after : Z).
Definition err_of (n e : Z) : option Z := if has_err n then Some e else None.
Definition trap_entry (g : Z * Z * bool) (n e : Z) (s : x86) : option x86 :=
  match exec_list (fun _ _ => None) esp0 ss0 pad (vector alltraps n) (deliver esp0 ss0 pad g (err_of n e) s) with
  | Some s' => exec_list (fun _ _ => None) esp0 ss0 pad (alltraps_code trap after) s'
  | None => None
  end.
End Entry.

(** ** The frames of the C code *)

(** [struct trapframe] (x86.h) at [a]; the selectors are the lower halves of their words. *)
Record tframe : Type := {
  f_edi : Z; f_esi : Z; f_ebp : Z; f_oesp : Z; f_ebx : Z; f_edx : Z; f_ecx : Z; f_eax : Z;
  f_gs : Z; f_fs : Z; f_es : Z; f_ds : Z; f_trapno : Z; f_err : Z; f_eip : Z; f_cs : Z; f_eflags : Z; f_esp : Z; f_ss : Z
}.
Definition sizeof_tf : Z := 76.
Definition word (m : mem) (a k : Z) : Z := load32 m (a + 4 * k).
Definition read_frame (m : mem) (a : Z) : tframe :=
  {| f_edi := word m a 0; f_esi := word m a 1; f_ebp := word m a 2; f_oesp := word m a 3; f_ebx := word m a 4; f_edx := word m a 5;
     f_ecx := word m a 6; f_eax := word m a 7; f_gs := u16 (word m a 8); f_fs := u16 (word m a 9); f_es := u16 (word m a 10);
     f_ds := u16 (word m a 11); f_trapno := word m a 12; f_err := word m a 13; f_eip := word m a 14; f_cs := u16 (word m a 15);
     f_eflags := word m a 16; f_esp := word m a 17; f_ss := u16 (word m a 18) |}.

(** The part of the frame that the model of proc.c and trap.c keeps. *)
Definition tf_of (f : tframe) : trapframe :=
  {| tf_eax := f_eax f; tf_eip := f_eip f; tf_esp := f_esp f; tf_cs := f_cs f; tf_ds := f_ds f; tf_es := f_es f; tf_ss := f_ss f;
     tf_eflags := f_eflags f; tf_trapno := f_trapno f; tf_err := f_err f |}.

(** [struct context] (proc.h). *)
Record context : Type := { c_edi : Z; c_esi : Z; c_ebx : Z; c_ebp : Z; c_eip : Z }.
Definition sizeof_context : Z := 20.
Definition read_context (m : mem) (a : Z) : context :=
  {| c_edi := word m a 0; c_esi := word m a 1; c_ebx := word m a 2; c_ebp := word m a 3; c_eip := word m a 4 |}.

(** The kernel stack that [allocproc] prepares: memory, the trap frame and the context. *)
Definition alloc_stack (forkret trapret kstack : Z) (m : mem) : mem * Z * Z :=
  let sp := kstack + KSTACKSIZE in
  let tf := sp - sizeof_tf in
  let m := store32 m (tf - 4) trapret in
  let ctx := tf - 4 - sizeof_context in
  let m := foldl (fun m k => store32 m (ctx + 4 * k) 0) m [0; 1; 2; 3; 4] in
  (store32 m (ctx + 16) forkret, tf, ctx).

End Asm.
