(* ===== verification/AsmProof.v ===== *)
(** * The assembly code: proofs

    What is pushed is read back: a context switch resumes a thread where it left, and a trap
    returns to the interrupted program with the registers that its frame holds. *)

From stdpp Require Import base gmap list strings.
From Stdlib Require Import ZArith Lia.
From S2P Require Import Prelude CString Core Seg Proc Trap Asm.
Import Asm.

Module AsmProof.

(** ** The stack *)

(** Memory after the words [l] have been pushed below [a]. *)
Fixpoint mem_pushes (l : list Z) (a : Z) (m : mem) : mem :=
  match l with
  | [] => m
  | v :: l' => mem_pushes l' (a - 4) (store32 m (a - 4) v)
  end.

Lemma mem_pushes_above l : forall a m b, a <= b -> load32 (mem_pushes l a m) b = load32 m b.
Proof. induction l as [|v l IH]; intros a m b Hb; [done|]. cbn [mem_pushes]. rewrite IH by lia. by rewrite load32_store32_ne by lia. Qed.

Lemma mem_pushes_below l : forall a m b, b + 4 <= a - 4 * zlen l -> load32 (mem_pushes l a m) b = load32 m b.
Proof.
  induction l as [|v l IH]; intros a m b Hb; [done|]. unfold zlen in *. cbn [mem_pushes length] in *. rewrite IH by lia. by rewrite load32_store32_ne by lia.
Qed.

Lemma mem_pushes_word l : forall a m k v, l !! k = Some v -> load32 (mem_pushes l a m) (a - 4 * (Z.of_nat k + 1)) = u32 v.
Proof.
  induction l as [|w l IH]; intros a m [|k] v Hk; cbn [lookup list_lookup] in Hk; [done|done| |].
  - injection Hk as ->. cbn [mem_pushes]. rewrite mem_pushes_above by lia. replace (a - 4 * (Z.of_nat 0 + 1)) with (a - 4) by lia. apply load32_store32_eq.
  - cbn [mem_pushes]. replace (a - 4 * (Z.of_nat (S k) + 1)) with (a - 4 - 4 * (Z.of_nat k + 1)) by lia. by apply IH.
Qed.

Lemma mem_pushes_app l1 l2 : forall a m, mem_pushes (l1 ++ l2) a m = mem_pushes l2 (a - 4 * zlen l1) (mem_pushes l1 a m).
Proof.
  induction l1 as [|v l1 IH]; intros a m; cbn [app mem_pushes]; [f_equal; unfold zlen; cbn; lia|].
  rewrite IH. f_equal. unfold zlen. cbn [length]. lia.
Qed.

(** A stack pointer with [n] words of room below it. *)
Definition room (a n : Z) : Prop := 4 * n <= a < 2 ^ 32.

Abbreviation mk a c d b sp bp si di g ip fl m := (Build_x86 (Build_regs a c d b sp bp si di) g ip fl m).

Lemma push_mk v a c d b sp bp si di g ip fl m :
  4 <= sp < 2 ^ 32 -> push v (mk a c d b sp bp si di g ip fl m) = mk a c d b (sp - 4) bp si di g ip fl (store32 m (sp - 4) v).
Proof. intros H. unfold push, setr, setm. cbn [gr rs ss_ eip eflags mm put esp]. by rewrite u32_small by lia. Qed.

Lemma drop_mk n a c d b sp bp si di g ip fl m :
  0 <= sp + n < 2 ^ 32 -> drop_stack n (mk a c d b sp bp si di g ip fl m) = mk a c d b (sp + n) bp si di g ip fl m.
Proof. intros H. unfold drop_stack, setr. cbn [gr rs ss_ eip eflags mm put esp]. by rewrite u32_small by lia. Qed.

(** Symbolic execution on explicit states. *)
Ltac xstep :=
  cbv [popr pushal popal iret deliver exec exec_list app alltraps_code trapret_code after_code setr sets setip setfl setm put puts gr sr
       rs ss_ eip eflags mm eax ecx edx ebx esp ebp esi edi cs ds es fs gs ss cpl top].
Lemma exec_cons gate e0 s0 pd i l s s' : exec gate e0 s0 pd i s = Some s' -> exec_list gate e0 s0 pd (i :: l) s = exec_list gate e0 s0 pd l s'.
Proof. intros H. cbn [exec_list]. by rewrite H. Qed.

Lemma exec_app gate e0 s0 pd l1 l2 s s' : exec_list gate e0 s0 pd l1 s = Some s' ->
  exec_list gate e0 s0 pd (l1 ++ l2) s = exec_list gate e0 s0 pd l2 s'.
Proof. revert s. induction l1 as [|i l IH]; intros s; cbn [exec_list app]; [by intros [= ->]|]. by destruct (exec _ _ _ _ i s); [apply IH|]. Qed.

(** One instruction. *)
Ltac xone := erewrite exec_cons by (xstep; rewrite ?push_mk, ?drop_mk by lia; xstep; reflexivity).
Ltac xrun := repeat xone; cbn [exec_list].

(** Offsets as literals. *)
Ltac lits :=
  rewrite <- ?Z.add_assoc;
  repeat match goal with
  | |- context [Z.add (Zpos ?a) (Zpos ?b)] => let c := eval cbv in (Z.add (Zpos a) (Zpos b)) in change (Z.add (Zpos a) (Zpos b)) with c
  | |- context [Z.mul (Zpos ?a) (Zpos ?b)] => let c := eval cbv in (Z.mul (Zpos a) (Zpos b)) in change (Z.mul (Zpos a) (Zpos b)) with c
  | |- context [Z.mul (Zpos ?a) Z0] => change (Z.mul (Zpos a) Z0) with Z0
  end; rewrite ?Z.add_0_r.

(** ** Traps *)

Section Traps.
Context (esp0 ss0 pad alltraps trap after : Z) (sel off : Z) (keep : bool).

(** What lies on the stack at the call of [trap], from [sp] down: the part of the frame below
    the user's stack pointer, the argument and the return address. *)
Definition words (n e sp : Z) (s : x86) : list Z :=
  [eflags s; selw pad (sr s CS); eip s; if has_err n then e else 0; n;
   selw pad (sr s DS); selw pad (sr s ES); selw pad (sr s FS); selw pad (sr s GS);
   gr s EAX; gr s ECX; gr s EDX; gr s EBX; sp - 36; gr s EBP; gr s ESI; gr s EDI; sp - 68; after].

Lemma kdata_low x : u16 (2 ^ 16 * x + u16 (Z.shiftl Seg.SEG_KDATA 3)) = 16.
Proof. change (u16 (Z.shiftl Seg.SEG_KDATA 3)) with 16. unfold u16. rewrite Z.add_comm, Z.mul_comm, Z.mod_add by done. done. Qed.

Lemma alltraps_mk a c d b sp bp si di g ip fl m : 56 <= sp < 2 ^ 32 ->
  exec_list (fun _ _ => None) esp0 ss0 pad (alltraps_code trap after) (mk a c d b sp bp si di g ip fl m) =
  Some (mk (2 ^ 16 * (a / 2 ^ 16) + 16) c d b (sp - 56) bp si di {| cs := cs g; ds := 16; es := 16; fs := fs g; gs := gs g; ss := ss g |} trap fl
    (mem_pushes [selw pad (ds g); selw pad (es g); selw pad (fs g); selw pad (gs g); a; c; d; b; sp - 16; bp; si; di; sp - 48; after] sp m)).
Proof.
  intros H. destruct g as [xc xd xe xf xg xs]. unfold alltraps_code. xrun. rewrite !kdata_low. cbn [mem_pushes cs ds es fs gs ss].
  replace (sp - 16) with (sp - 4 - 4 - 4 - 4) by lia. replace (sp - 48) with (sp - 4 - 4 - 4 - 4 - 4 - 4 - 4 - 4 - 4 - 4 - 4 - 4) by lia.
  replace (sp - 56) with (sp - 4 - 4 - 4 - 4 - 4 - 4 - 4 - 4 - 4 - 4 - 4 - 4 - 4 - 4) by lia. done.
Qed.

(** The stack on which the frame is built, and what a trap from user mode pushes first. *)
Definition base (s : x86) : Z := if cpl s =? 0 then gr s ESP else esp0 - 8.
Definition base_mem (s : x86) : mem := if cpl s =? 0 then mm s else mem_pushes [selw pad (sr s SS); gr s ESP] esp0 (mm s).
Definition base_ss (s : x86) : Z := if cpl s =? 0 then sr s SS else ss0.
Definition base_ok (s : x86) : Prop := if cpl s =? 0 then room (gr s ESP) 19 else room esp0 21.

Lemma base_room s : base_ok s -> 76 <= base s < 2 ^ 32.
Proof. unfold base_ok, base, room. destruct (_ =? _); lia. Qed.

Lemma vector_mk n e s : base_ok s -> 
  exec_list (fun _ _ => None) esp0 ss0 pad (vector alltraps n) (deliver esp0 ss0 pad (sel, off, keep) (err_of n e) s) =
  Some (mk (gr s EAX) (gr s ECX) (gr s EDX) (gr s EBX) (base s - 20) (gr s EBP) (gr s ESI) (gr s EDI)
    {| cs := sel; ds := sr s DS; es := sr s ES; fs := sr s FS; gs := sr s GS; ss := base_ss s |} alltraps
    (Z.ldiff (eflags s) (if keep then FL_ENTRY else Z.lor FL_ENTRY Proc.FL_IF))
    (mem_pushes [eflags s; selw pad (sr s CS); eip s; if has_err n then e else 0; n] (base s) (base_mem s))).
Proof.
  destruct s as [[a c d b sp bp si di] [xc xd xe xf xg xs] ip fl m]. unfold base_ok, base, base_mem, base_ss, room, vector, err_of.
  destruct (cpl _ =? 0) eqn:E; unfold deliver; rewrite E; cbn [gr rs esp]; intros H; destruct (has_err n);
    do 4 (xstep; rewrite ?push_mk by lia); cbn [mem_pushes].
  1,2: replace (sp - 20) with (sp - 4 - 4 - 4 - 4 - 4) by lia; done.
  all: replace (esp0 - 8 - 20) with (esp0 - 4 - 4 - 4 - 4 - 4 - 4 - 4) by lia; by replace (esp0 - 8) with (esp0 - 4 - 4) by lia.
Qed.
Lemma entry_mk n e s : base_ok s ->
  trap_entry esp0 ss0 pad alltraps trap after (sel, off, keep) n e s =
  Some (mk (2 ^ 16 * (gr s EAX / 2 ^ 16) + 16) (gr s ECX) (gr s EDX) (gr s EBX) (base s - 76) (gr s EBP) (gr s ESI) (gr s EDI)
    {| cs := sel; ds := 16; es := 16; fs := sr s FS; gs := sr s GS; ss := base_ss s |} trap
    (Z.ldiff (eflags s) (if keep then FL_ENTRY else Z.lor FL_ENTRY Proc.FL_IF))
    (mem_pushes (words n e (base s) s) (base s) (base_mem s))).
Proof.
  intros H. pose proof (base_room s H). unfold trap_entry. rewrite vector_mk, alltraps_mk by (done || lia).
  cbn [cs ds es fs gs ss]. change (words n e (base s) s) with ([eflags s; selw pad (sr s CS); eip s; if has_err n then e else 0; n] ++
    [selw pad (sr s DS); selw pad (sr s ES); selw pad (sr s FS); selw pad (sr s GS); gr s EAX; gr s ECX; gr s EDX; gr s EBX;
     base s - 36; gr s EBP; gr s ESI; gr s EDI; base s - 68; after]).
  rewrite mem_pushes_app. change (4 * zlen _) with 20. do 2 f_equal.
  - f_equal. lia.
  - f_equal. by replace (base s - 20 - 16) with (base s - 36) by lia; replace (base s - 20 - 48) with (base s - 68) by lia.
Qed.

Lemma trapret_mk gate a c d b t bp si di g ip fl m : 0 <= t -> t + 68 < 2 ^ 32 ->
  let f := read_frame m t in
  exec_list gate esp0 ss0 pad trapret_code (mk a c d b t bp si di g ip fl m) =
  Some (mk (f_eax f) (f_ecx f) (f_edx f) (f_ebx f) (if cs g mod 4 <? f_cs f mod 4 then f_esp f else t + 68) (f_ebp f) (f_esi f) (f_edi f)
    {| cs := f_cs f; ds := f_ds f; es := f_es f; fs := f_fs f; gs := f_gs f;
       ss := if cs g mod 4 <? f_cs f mod 4 then u16 (load32 m (u32 (t + 72))) else ss g |} (f_eip f) (f_eflags f) m).
Proof.
  intros H1 H2. destruct g as [xc xd xe xf xg xs]. unfold trapret_code.
  do 5 (erewrite exec_cons by (do 9 (xstep; rewrite ?drop_mk by lia); xstep; reflexivity)).
  erewrite exec_cons by (xstep; rewrite u32_small by lia; reflexivity).
  cbn [exec_list exec]. unfold iret, read_frame, word. cbv zeta. do 3 (xstep; rewrite ?drop_mk by lia). xstep.
  cbn [f_edi f_esi f_ebp f_ebx f_edx f_ecx f_eax f_gs f_fs f_es f_ds f_eip f_cs f_eflags f_esp]. lits.
  by destruct (_ <? _).
Qed.
(** Registers, selectors, instruction pointer and flags have their widths. *)
Definition state_ok (s : x86) : Prop :=
  (forall r, 0 <= gr s r < 2 ^ 32) /\ (forall g, 0 <= sr s g < 2 ^ 16) /\ 0 <= eip s < 2 ^ 32 /\ 0 <= eflags s < 2 ^ 32.

Lemma selw_low x : 0 <= x < 2 ^ 16 -> u16 (u32 (selw pad x)) = x.
Proof.
  intros H. unfold selw. assert (0 <= u16 pad < 2 ^ 16) by (apply Z.mod_pos_bound; lia). rewrite (u32_small (_ + _)).
  - unfold u16 in *. rewrite (Z.mul_comm (2 ^ 16)), Z.mod_add, Z.mod_mod by done. by apply Z.mod_small.
  - unfold u16 at 1 3. rewrite Z.mod_small by done. lia.
Qed.

(** The frame [f] holds the state [s] that was interrupted by vector [n]. *)
Definition saved (n e : Z) (s : x86) (f : tframe) : Prop :=
  f_edi f = gr s EDI /\ f_esi f = gr s ESI /\ f_ebp f = gr s EBP /\ f_ebx f = gr s EBX /\ f_edx f = gr s EDX /\ f_ecx f = gr s ECX /\
  f_eax f = gr s EAX /\ f_gs f = sr s GS /\ f_fs f = sr s FS /\ f_es f = sr s ES /\ f_ds f = sr s DS /\ f_trapno f = n /\
  f_err f = (if has_err n then e else 0) /\ f_eip f = eip s /\ f_cs f = sr s CS /\ f_eflags f = eflags s /\
  (cpl s <> 0 -> f_esp f = gr s ESP /\ f_ss f = sr s SS).

Lemma frame_word n e s j w : 0 <= j <= 16 -> words n e (base s) s !! Z.to_nat (16 - j) = Some w ->
  word (mem_pushes (words n e (base s) s) (base s) (base_mem s)) (base s - 68) j = u32 w.
Proof. intros Hj H. unfold word. rewrite <- (mem_pushes_word _ (base s) (base_mem s) _ _ H). f_equal. lia. Qed.

Lemma entry_saved n e s : state_ok s -> 0 <= n < 256 -> 0 <= e < 2 ^ 32 ->
  saved n e s (read_frame (mem_pushes (words n e (base s) s) (base s) (base_mem s)) (base s - 68)).
Proof.
  intros (Hr & Hg & Hi & Hf) Hn He.
  unfold saved, read_frame.
  cbn [f_edi f_esi f_ebp f_ebx f_edx f_ecx f_eax f_gs f_fs f_es f_ds f_trapno f_err f_eip f_cs f_eflags f_esp f_ss].
  repeat match goal with |- context [word (mem_pushes (words _ _ _ _) _ _) _ ?j] =>
    lazymatch j with 17 => fail | 18 => fail | _ => rewrite (frame_word n e s j _) by (lia || reflexivity) end end.
  rewrite !selw_low by apply Hg. rewrite !u32_small by (done || apply Hr || (destruct (has_err n); lia) || lia).
  split_and!; try done. intros Hc. unfold word. rewrite !mem_pushes_above by lia. unfold base, base_mem. rewrite (proj2 (Z.eqb_neq _ _)) by done.
  pose proof (mem_pushes_word [selw pad (sr s SS); gr s ESP] esp0 (mm s)) as V. split.
  - replace (esp0 - 8 - 68 + 4 * 17) with (esp0 - 4 * (Z.of_nat 1 + 1)) by lia. rewrite (V 1%nat _ eq_refl). apply u32_small, Hr.
  - replace (esp0 - 8 - 68 + 4 * 18) with (esp0 - 4 * (Z.of_nat 0 + 1)) by lia. rewrite (V 0%nat _ eq_refl). apply selw_low, Hg.
Qed.
(** The handler has returned from its call in [s1] to [s2]: it leaves the frame at [tf] as it was,
    but for %eax, which is [v]; the frame of a trap in the kernel ends before the stack pointer. *)
Definition returned (user : bool) (tf v : Z) (s1 s2 : x86) : Prop :=
  gr s2 ESP = gr s1 ESP + 4 /\ sr s2 CS = sr s1 CS /\ sr s2 SS = sr s1 SS /\ word (mm s2) tf 7 = v /\
  forall k, 0 <= k < (if user then 19 else 17) -> k <> 7 -> word (mm s2) tf k = word (mm s1) tf k.

(** The interrupted program goes on, with [v] in %eax. *)
Definition resumed (s s3 : x86) (v : Z) : Prop :=
  rs s3 = put EAX v (rs s) /\ ss_ s3 = ss_ s /\ eip s3 = eip s /\ eflags s3 = eflags s.

Lemma after_mk gate a c d b t bp si di g ip fl m : 0 <= t - 4 -> t + 68 < 2 ^ 32 ->
  exec_list gate esp0 ss0 pad after_code (mk a c d b (t - 4) bp si di g ip fl m) = exec_list gate esp0 ss0 pad trapret_code (mk a c d b t bp si di g ip fl m).
Proof.
  intros H1 H2. unfold after_code. erewrite exec_cons by (xstep; rewrite u32_small by lia; reflexivity). by replace (t - 4 + 4) with t by lia.
Qed.

Lemma exit_resumes n e s s1 s2 gate v :
  state_ok s -> 0 <= n < 256 -> 0 <= e < 2 ^ 32 -> base_ok s -> sel mod 4 = 0 ->
  mm s1 = mem_pushes (words n e (base s) s) (base s) (base_mem s) -> sr s1 CS = sel -> gr s1 ESP = base s - 76 -> sr s1 SS = base_ss s ->
  returned (negb (cpl s =? 0)) (base s - 68) v s1 s2 ->
  exists s3, exec_list gate esp0 ss0 pad after_code s2 = Some s3 /\ resumed s s3 v /\ mm s3 = mm s2.
Proof.
  intros Hok Hn He Hb Hsel Hm Hcs Hsp Hss (R1 & R2 & R3 & Rv & Rw). pose proof (base_room s Hb) as Hr.
  pose proof (entry_saved n e s Hok Hn He) as Hsv. rewrite <- Hm in Hsv.
  destruct s2 as [[a c d b sp bp si di] g ip fl m2]. cbn [gr sr rs ss_ esp mm] in *.
  replace sp with (base s - 68 - 4) by lia. rewrite after_mk, trapret_mk by lia. eexists. split; [reflexivity|].
  split; [|done]. unfold saved, read_frame in Hsv. cbn [f_edi f_esi f_ebp f_ebx f_edx f_ecx f_eax f_gs f_fs f_es f_ds f_trapno f_err f_eip f_cs f_eflags f_esp f_ss] in Hsv.
  unfold resumed. cbn [rs ss_ eip eflags read_frame f_edi f_esi f_ebp f_ebx f_edx f_ecx f_eax f_gs f_fs f_es f_ds f_eip f_cs f_eflags f_esp f_ss].
  assert (Hlt : forall k, 0 <= k < 17 -> k <> 7 -> word m2 (base s - 68) k = word (mm s1) (base s - 68) k) by (intros k ? ?; apply Rw; [destruct (negb _); lia | done]).
  repeat match goal with |- context [word m2 (base s - 68) ?j] =>
    lazymatch j with 7 => fail | 17 => fail | _ => rewrite (Hlt j) by lia end end.
  rewrite Rv, R2, Hcs, Hsel. destruct Hsv as (-> & -> & -> & -> & -> & -> & _ & -> & -> & -> & -> & _ & _ & -> & -> & -> & Hu).
  fold (cpl s). enough (E : (if 0 <? cpl s then word m2 (base s - 68) 17 else base s - 68 + 68) = gr s ESP /\
    (if 0 <? cpl s then u16 (load32 m2 (u32 (base s - 68 + 72))) else ss g) = sr s SS).
  { destruct E as [-> ->]. destruct s as [[] [] ? ? ?]. done. }
  rewrite R3, Hss. clear - Rw Hu Hr Hb. assert (0 <= cpl s) by (apply Z.mod_pos_bound; lia).
  unfold base_ss, base, base_ok, room in *. destruct (Z.eqb_spec (cpl s) 0) as [E|E].
  - rewrite E. cbn [Z.ltb Z.compare]. split; [lia | done].
  - rewrite (proj2 (Z.ltb_lt _ _)) by lia. destruct (Hu E) as [H1 H2]. cbn [negb] in Rw. rewrite Rw by lia. split; [done|].
    rewrite u32_small by lia. specialize (Rw 18 ltac:(lia) ltac:(lia)). unfold word in Rw, H2 |- *. by rewrite <- H2, <- Rw.
Qed.

Lemma tf_word n e s : base_ok s -> load32 (mem_pushes (words n e (base s) s) (base s) (base_mem s)) (base s - 76 + 4) = base s - 68.
Proof.
  intros Hb. pose proof (base_room s Hb). replace (base s - 76 + 4) with (base s - 4 * (Z.of_nat 17 + 1)) by lia.
  rewrite (mem_pushes_word (words n e (base s) s) _ _ 17%nat _ eq_refl). apply u32_small. lia.
Qed.

(** C8: a trap returns to where it came from.  Whether it interrupts a user program, on the
    kernel stack of the task state, or the kernel itself, the vector's code and [alltraps] call
    [trap] with the address of a frame that holds every register, selector and flag of the
    interrupted state, the vector and the error code, with the kernel's data segments loaded;
    and when [trap] returns, having changed at most %eax in the frame, the code behind the call
    goes back to the interrupted program with exactly the state that it had and that %eax. *)
Theorem trap_roundtrip n e s gate :
  state_ok s -> 0 <= n < 256 -> 0 <= e < 2 ^ 32 -> base_ok s -> sel mod 4 = 0 -> 0 <= after < 2 ^ 32 ->
  exists s1, trap_entry esp0 ss0 pad alltraps trap after (sel, off, keep) n e s = Some s1 /\
    eip s1 = trap /\ cpl s1 = 0 /\ sr s1 DS = 16 /\ sr s1 ES = 16 /\ load32 (mm s1) (gr s1 ESP) = after /\
    let tf := load32 (mm s1) (gr s1 ESP + 4) in
    saved n e s (read_frame (mm s1) tf) /\
    forall v s2, returned (negb (cpl s =? 0)) tf v s1 s2 ->
      exists s3, exec_list gate esp0 ss0 pad after_code s2 = Some s3 /\ resumed s s3 v /\ mm s3 = mm s2.
Proof.
  intros Hok Hn He Hb Hsel Haf. pose proof (base_room s Hb) as Hr. rewrite entry_mk by done. eexists. split; [reflexivity|].
  unfold cpl. cbn [eip gr sr rs ss_ cs ds es esp mm]. set (m := mem_pushes _ _ _).
  pose proof (tf_word n e s Hb) as Et. fold m in Et.
  do 4 (split; [done|]). split.
  - replace (base s - 76) with (base s - 4 * (Z.of_nat 18 + 1)) by lia. unfold m. rewrite (mem_pushes_word (words n e (base s) s) _ _ 18%nat _ eq_refl). by apply u32_small.
  - rewrite Et. split; [by apply entry_saved|]. intros v s2 Hs2. refine (exit_resumes n e s _ s2 gate v Hok Hn He Hb Hsel _ _ _ _ Hs2); done.
Qed.
End Traps.

(** ** Context switches *)

Section Switch.
Context (gate : Z -> Z -> option (Z * Z * bool)) (esp0 ss0 pad : Z).
Abbreviation run l s := (exec_list gate esp0 ss0 pad l s).

Definition apart (a n b k : Z) : Prop := a + n <= b \/ b + k <= a.

(** A call [swtch(old, new)]: the arguments above the return address; the stack has room, and
    neither the saved context nor [*old] overlaps the context [new]. *)
Definition call_ok (old new : Z) (s : x86) : Prop :=
  let sp := gr s ESP in
  16 <= sp /\ sp + 12 < 2 ^ 32 /\ load32 (mm s) (sp + 4) = old /\ load32 (mm s) (sp + 8) = new /\ 0 <= new /\ new + 20 < 2 ^ 32 /\
  apart (sp - 16) 20 old 4 /\ apart (sp - 16) 16 new 20 /\ apart old 4 new 20.

(** The callee-saved registers and the return address. *)
Definition thread (s : x86) : context :=
  {| c_edi := gr s EDI; c_esi := gr s ESI; c_ebx := gr s EBX; c_ebp := gr s EBP; c_eip := load32 (mm s) (gr s ESP) |}.
(** The thread [c] goes on with the stack pointer [sp]. *)
Definition runs_as (c : context) (sp : Z) (s : x86) : Prop :=
  gr s EDI = c_edi c /\ gr s ESI = c_esi c /\ gr s EBX = c_ebx c /\ gr s EBP = c_ebp c /\ eip s = c_eip c /\ gr s ESP = sp.

Lemma swtch_mk a c d b sp bp si di g ip fl m :
  16 <= sp -> sp + 12 < 2 ^ 32 -> 0 <= load32 m (sp + 8) -> load32 m (sp + 8) + 20 < 2 ^ 32 ->
  let old := load32 m (sp + 4) in let new := load32 m (sp + 8) in
  let m2 := store32 (mem_pushes [bp; b; si; di] sp m) old (sp - 16) in let k := read_context m2 new in
  run swtch (mk a c d b sp bp si di g ip fl m) = Some (mk old c new (c_ebx k) (new + 20) (c_ebp k) (c_esi k) (c_edi k) g (c_eip k) fl m2).
Proof.
  intros H1 H2 H3 H4. cbv zeta. unfold swtch.
  do 2 erewrite exec_cons by (xstep; rewrite u32_small by lia; reflexivity). do 4 xone. do 2 (erewrite exec_cons by (xstep; reflexivity)).
  do 5 xone. cbn [exec_list mem_pushes]. unfold read_context, word. cbn [c_ebx c_ebp c_esi c_edi c_eip]. lits.
  by replace (sp - 4 - 4 - 4 - 4) with (sp - 16) by lia.
Qed.
Lemma read_context_eq m m' a b : (forall k, 0 <= k < 5 -> word m a k = word m' b k) -> read_context m a = read_context m' b.
Proof. intros H. unfold read_context. by rewrite !H by lia. Qed.

Lemma swtch_spec old new s : state_ok s -> call_ok old new s -> exists s1, run swtch s = Some s1 /\
  runs_as (read_context (mm s) new) (new + 20) s1 /\ ss_ s1 = ss_ s /\ eflags s1 = eflags s /\
  load32 (mm s1) old = gr s ESP - 16 /\ read_context (mm s1) (gr s ESP - 16) = thread s /\
  forall x, apart x 4 (gr s ESP - 16) 16 -> apart x 4 old 4 -> load32 (mm s1) x = load32 (mm s) x.
Proof.
  intros (Hr & _) (H1 & H2 & Ho & Hn & H3 & H4 & D1 & D2 & D3). pose proof Hr as Hrr.
  assert (R : 0 <= gr s EBP < 2 ^ 32 /\ 0 <= gr s EBX < 2 ^ 32 /\ 0 <= gr s ESI < 2 ^ 32 /\ 0 <= gr s EDI < 2 ^ 32) by (split_and!; apply Hr).
  destruct s as [[a c d b sp bp si di] g ip fl m]. cbn [gr rs esp ebp ebx esi edi mm ss_ eflags] in *. subst old new.
  set (old := load32 m (sp + 4)) in *. set (new := load32 m (sp + 8)) in *. eexists. split; [by apply swtch_mk|].
  fold old new. set (m1 := mem_pushes [bp; b; si; di] sp m). set (m2 := store32 m1 old (sp - 16)). unfold apart in *.
  assert (F : forall x, x + 4 <= sp - 16 \/ sp <= x -> load32 m1 x = load32 m x).
  { intros x [H|H]; [apply mem_pushes_below; unfold zlen; cbn; lia | by apply mem_pushes_above]. }
  assert (E : read_context m2 new = read_context m new).
  { apply read_context_eq. intros k Hk. unfold word, m2. rewrite load32_store32_ne by lia. apply F. lia. }
  rewrite E. cbn [mm ss_ eflags]. split; [done|]. split; [done|]. split; [done|]. split; [|split].
  - unfold m2. rewrite load32_store32_eq. apply u32_small. lia.
  - unfold thread. cbn [gr rs mm esp ebp ebx esi edi]. rewrite <- (F sp) by lia.
    rewrite <- (u32_small di), <- (u32_small si), <- (u32_small b), <- (u32_small bp) by lia. unfold read_context, word, m2.
    pose proof (mem_pushes_word [bp; b; si; di] sp m) as W.
    rewrite !load32_store32_ne by lia. rewrite <- (W 3%nat _ eq_refl), <- (W 2%nat _ eq_refl), <- (W 1%nat _ eq_refl), <- (W 0%nat _ eq_refl).
    fold m1. f_equal; f_equal; lia.
  - intros x Hx1 Hx2. unfold m2. rewrite load32_store32_ne by lia. apply F. lia.
Qed.

(** C9: a context switch is a call that returns later.  [swtch(old, new)] continues the thread of
    the context [new], with its callee-saved registers, behind its own call of [swtch]; it
    leaves in [*old] the address of a context that holds the caller's.  Whenever, later, from any
    state, [swtch] is called with that context, and the caller's stack is as it was, the caller
    continues: its call has returned, with its stack pointer and callee-saved registers. *)
Theorem swtch_resumes old new s : state_ok s -> call_ok old new s -> exists s1, run swtch s = Some s1 /\
  runs_as (read_context (mm s) new) (new + 20) s1 /\ ss_ s1 = ss_ s /\ eflags s1 = eflags s /\
  forall old' s2, state_ok s2 -> call_ok old' (load32 (mm s1) old) s2 ->
    (forall k, 0 <= k < 5 -> word (mm s2) (gr s ESP - 16) k = word (mm s1) (gr s ESP - 16) k) ->
    exists s3, run swtch s2 = Some s3 /\ eip s3 = load32 (mm s) (gr s ESP) /\ gr s3 ESP = gr s ESP + 4 /\
      gr s3 EBX = gr s EBX /\ gr s3 EBP = gr s EBP /\ gr s3 ESI = gr s ESI /\ gr s3 EDI = gr s EDI.
Proof.
  intros Hok Hc. destruct (swtch_spec old new s Hok Hc) as (s1 & E1 & R1 & G1 & L1 & O1 & C1 & _). exists s1. do 4 (split; [done|]).
  intros old' s2 Hok2 Hc2 Hw. rewrite O1 in Hc2. destruct (swtch_spec _ _ s2 Hok2 Hc2) as (s3 & E3 & (A1 & A2 & A3 & A4 & A5 & A6) & _).
  rewrite (read_context_eq _ _ _ _ Hw), C1 in A1, A2, A3, A4, A5. exists s3. split; [done|]. split_and!; [done | rewrite A6; lia | done..].
Qed.

(** ** The first run of a process *)

Context (forkret trapret : Z).

Lemma alloc_stack_words kstack m : 0 <= forkret < 2 ^ 32 -> 0 <= trapret < 2 ^ 32 ->
  let '(m', tf, ctx) := alloc_stack forkret trapret kstack m in
  tf = kstack + 4020 /\ ctx = kstack + 3996 /\ read_context m' ctx = {| c_edi := 0; c_esi := 0; c_ebx := 0; c_ebp := 0; c_eip := forkret |} /\
  load32 m' (tf - 4) = trapret.
Proof.
  intros H1 H2. unfold alloc_stack, KSTACKSIZE, sizeof_tf, sizeof_context, read_context, word. cbv zeta.
  split; [lia|]. split; [lia|]. cbn [foldl].
  rewrite !(load32_store32_ne _ (kstack + 4096 - 76 - 4 - 20 + 16) (kstack + 4096 - 76 - 4 - 20 + 4 * _)) by lia.
  replace (kstack + 4096 - 76 - 4 - 20 + 4 * 4) with (kstack + 4096 - 76 - 4 - 20 + 16) by lia.
  split; [|by rewrite !load32_store32_ne, load32_store32_eq, u32_small by lia].
  f_equal; repeat first [rewrite load32_store32_eq | rewrite load32_store32_ne by lia]; by rewrite ?u32_small by lia.
Qed.

(** The user's state that a frame describes. *)
Definition user_state (f : tframe) (s : x86) : Prop :=
  rs s = {| eax := f_eax f; ecx := f_ecx f; edx := f_edx f; ebx := f_ebx f; esp := f_esp f; ebp := f_ebp f; esi := f_esi f; edi := f_edi f |} /\
  ss_ s = {| cs := f_cs f; ds := f_ds f; es := f_es f; fs := f_fs f; gs := f_gs f; ss := f_ss f |} /\ eip s = f_eip f /\ eflags s = f_eflags f.

(** C10: a new process starts in user mode with the registers of its trap frame.  On the kernel
    stack that [allocproc] prepared, the first [swtch] to the process enters [forkret], as if
    called from [trapret] with an empty stack frame; when [forkret] returns there, with whatever
    frame [fork] or [userinit] has filled in below, the processor goes to the program, counter,
    stack and registers of that frame. *)
Theorem new_process_starts kstack m old s :
  let '(m', tf, ctx) := alloc_stack forkret trapret kstack m in
  0 <= forkret < 2 ^ 32 -> 0 <= trapret < 2 ^ 32 -> 0 <= kstack -> kstack + KSTACKSIZE < 2 ^ 32 -> state_ok s -> call_ok old ctx s ->
  apart kstack KSTACKSIZE (gr s ESP - 16) 16 -> apart kstack KSTACKSIZE old 4 ->
  (forall k, 0 <= k < 6 -> word (mm s) ctx k = word m' ctx k) ->
  exists s1, run swtch s = Some s1 /\ eip s1 = forkret /\ gr s1 EBP = 0 /\ load32 (mm s1) (gr s1 ESP) = trapret /\
    forall s2, gr s2 ESP = gr s1 ESP + 4 -> cpl s2 = 0 -> f_cs (read_frame (mm s2) tf) mod 4 <> 0 ->
      exists s3, run trapret_code s2 = Some s3 /\ user_state (read_frame (mm s2) tf) s3 /\ mm s3 = mm s2.
Proof.
  pose proof (alloc_stack_words kstack m) as W. destruct (alloc_stack forkret trapret kstack m) as [[m' tf] ctx].
  intros Hf Ht Hk Hk2 Hok Hc D1 D2 Hw. destruct (W Hf Ht) as (-> & -> & Hctx & Htr). unfold KSTACKSIZE, apart in *.
  destruct (swtch_spec _ _ s Hok Hc) as (s1 & E1 & R1 & _ & _ & _ & _ & F). exists s1. split; [done|].
  rewrite (read_context_eq (mm s) m' _ (kstack + 3996)) in R1 by (intros; apply Hw; lia). rewrite Hctx in R1.
  destruct R1 as (_ & _ & _ & B & I & P). cbn [c_ebp c_eip] in B, I. split; [done|]. split; [done|]. rewrite P. split.
  - rewrite F by (unfold apart in *; lia). specialize (Hw 5 ltac:(lia)). unfold word in Hw.
    replace (kstack + 3996 + 20) with (kstack + 3996 + 4 * 5) by lia. rewrite Hw, <- Htr. f_equal. lia.
  - intros s2 Hsp Hcpl Hcs. destruct s2 as [[a c d b sp bp si di] g ip fl m2]. cbn [gr rs esp mm] in *. unfold cpl in Hcpl. cbn [sr ss_] in Hcpl.
    replace sp with (kstack + 4020) by lia. rewrite trapret_mk by lia. eexists. split; [reflexivity|]. split; [|done].
    assert (0 <= f_cs (read_frame m2 (kstack + 4020)) mod 4) by (apply Z.mod_pos_bound; lia).
    rewrite Hcpl, (proj2 (Z.ltb_lt _ _)) by lia. rewrite u32_small by lia. by replace (kstack + 4020 + 72) with (kstack + 4020 + 4 * 18) by lia.
Qed.

End Switch.

(** ** System calls of user programs *)

Section Calls.
Context (gate : Z -> Z -> option (Z * Z * bool)) (esp0 ss0 pad alltraps trap after : Z) (sel off : Z).

(** A stub of usys.S is a call of the kernel.  [trap] gets a frame with the number of the call in
    %eax and the caller's stack pointer, where the arguments lie above the return address;
    after it has put the result [v] in the frame, the stub returns to its caller with [v] in
    %eax and every other register, but for the return address taken off the stack, unchanged. *)
Theorem stub_calls num ret s :
  state_ok s -> cpl s <> 0 -> room esp0 21 -> sel mod 4 = 0 -> 0 <= after < 2 ^ 32 -> 0 <= num < 2 ^ 32 -> 0 <= ret < 2 ^ 32 -> gr s ESP + 4 < 2 ^ 32 ->
  gate (cpl s) Trap.T_SYSCALL = Some (sel, off, true) ->
  exists s0 s1, exec_list gate esp0 ss0 pad (stub num ret) s = Some s0 /\ eip s0 = off /\
    trap_entry esp0 ss0 pad alltraps trap after (sel, off, true) Trap.T_SYSCALL 0 (setip ret (setr EAX num s)) = Some s1 /\
    let tf := load32 (mm s1) (gr s1 ESP + 4) in
    f_eax (read_frame (mm s1) tf) = num /\ f_esp (read_frame (mm s1) tf) = gr s ESP /\ f_trapno (read_frame (mm s1) tf) = Trap.T_SYSCALL /\
    forall v s2, returned true tf v s1 s2 -> load32 (mm s2) (gr s ESP) = load32 (mm s) (gr s ESP) ->
      exists s3, exec_list gate esp0 ss0 pad (after_code ++ [Ret]) s2 = Some s3 /\ eip s3 = load32 (mm s) (gr s ESP) /\
        rs s3 = put ESP (gr s ESP + 4) (put EAX v (rs s)) /\ ss_ s3 = ss_ s /\ eflags s3 = eflags s.
Proof.
  intros Hok Hc Hr Hsel Haf Hn Hret Hsp Hg. set (u := setip ret (setr EAX num s)).
  assert (Hok' : state_ok u).
  { destruct Hok as (H1 & H2 & _ & H4). split; [|by split]. intros r. specialize (H1 r). destruct s as [[] ? ? ? ?]. by destruct r. }
  assert (Hcu : cpl u = cpl s) by done. assert (Heu : gr u ESP = gr s ESP) by (by destruct s as [[] ? ? ? ?]).
  assert (Hb : base_ok esp0 u) by (unfold base_ok; by rewrite Hcu, (proj2 (Z.eqb_neq _ _))).
  exists (deliver esp0 ss0 pad (sel, off, true) None u). eexists. split; [|split; [done|split; [by apply entry_mk|]]].
  { unfold stub. erewrite exec_cons by reflexivity. cbn [exec_list exec]. change (cpl (setr EAX num s)) with (cpl s). by rewrite Hg. }
  cbn [mm gr rs esp]. cbv zeta. rewrite tf_word by done.
  destruct (entry_saved esp0 pad after Trap.T_SYSCALL 0 u Hok' ltac:(by vm_compute) ltac:(lia)) as (_ & _ & _ & _ & _ & _ & Hax & _ & _ & _ & _ & Htn & _ & _ & _ & _ & Hu).
  split; [rewrite Hax; by destruct s as [[] ? ? ? ?]|]. split; [rewrite (proj1 (Hu Hc)); exact Heu|]. split; [done|].
  intros v s2 H2 Hra. assert (Eu : true = negb (cpl u =? 0)) by (by rewrite Hcu, (proj2 (Z.eqb_neq _ _))). rewrite Eu in H2.
  lazymatch type of H2 with returned _ _ _ ?s1 _ =>
    destruct (exit_resumes esp0 ss0 pad after sel Trap.T_SYSCALL 0 u s1 s2 gate v Hok' ltac:(by vm_compute) ltac:(lia) Hb Hsel eq_refl eq_refl eq_refl eq_refl H2)
      as (s3 & E3 & (A1 & A2 & A3 & A4) & A5) end.
  exists (setip (top s3) (drop_stack 4 s3)). rewrite (exec_app _ _ _ _ _ _ _ _ E3). split; [done|]. clear - A1 A2 A4 A5 Hra Hsp Hok.
  destruct Hok as (Hr & _). specialize (Hr ESP). destruct s3 as [[a c d b sp bp si di] g ip fl m]. destruct s as [[a' c' d' b' sp' bp' si' di'] g' ip' fl' m'].
  cbn in A1, A2, A4, A5, Hra, Hr, Hsp |- *. injection A1 as -> -> -> -> -> -> -> ->. subst m. unfold top. cbn. by rewrite u32_small by lia.
Qed.
(** initcode.S calls [exec] with the addresses of its string and of its vector as the arguments. *)
Theorem initcode_execs init argv ret s g : 12 <= gr s ESP < 2 ^ 32 -> 0 <= init < 2 ^ 32 -> 0 <= argv < 2 ^ 32 -> gate (cpl s) Trap.T_SYSCALL = Some g ->
  exists u, exec_list gate esp0 ss0 pad (initcode init argv ret) s = Some (deliver esp0 ss0 pad g None u) /\ gr u EAX = Trap.SYS_exec /\ eip u = ret /\
    cpl u = cpl s /\ load32 (mm u) (gr u ESP + 4) = init /\ load32 (mm u) (gr u ESP + 8) = argv.
Proof.
  destruct s as [[a c d b sp bp si di] x ip fl m]. cbn [gr rs esp]. intros Hsp Hi Ha Hg. unfold initcode. do 4 xone. cbn [exec_list exec].
  change (cpl (mk _ _ _ _ _ _ _ _ x _ _ _)) with (sr (mk a c d b sp bp si di x ip fl m) CS mod 4). fold (cpl (mk a c d b sp bp si di x ip fl m)). rewrite Hg.
  eexists. split; [reflexivity|]. cbn [gr rs eax esp eip setip mm]. split_and!; [done | done | done | |].
  - replace (sp - 4 - 4 - 4 + 4) with (sp - 4 - 4) by lia. rewrite load32_store32_ne, load32_store32_eq by lia. by apply u32_small.
  - replace (sp - 4 - 4 - 4 + 8) with (sp - 4) by lia. rewrite !load32_store32_ne, load32_store32_eq by lia. by apply u32_small.
Qed.

End Calls.

(** ** Concrete runs *)

(** A user program with some values in its registers. *)
Definition user_x86 : x86 :=
  {| rs := {| eax := 16; ecx := 1; edx := 2; ebx := 3; esp := 0x2fb0; ebp := 4; esi := 5; edi := 6 |};
     ss_ := {| cs := 27; ds := 35; es := 35; fs := 0; gs := 0; ss := 35 |}; eip := 0x120; eflags := 0x202; mm := ∅ |}.
Lemma user_x86_ok : state_ok user_x86.
Proof. split; [intros []; cbn; lia|]. split; [intros []; cbn; lia|]. cbn. lia. Qed.

Lemma trap_roundtrip_witness : exists s1,
  trap_entry 0x8dfff000 16 0xdead 0x80106000 0x80105000 0x80106010 (8, 0x80106100, true) 64 0 user_x86 = Some s1 /\
  eip s1 = 0x80105000 /\ f_eip (read_frame (mm s1) (load32 (mm s1) (gr s1 ESP + 4))) = 0x120.
Proof.
  destruct (trap_roundtrip 0x8dfff000 16 0xdead 0x80106000 0x80105000 0x80106010 8 0x80106100 true 64 0 user_x86 (fun _ _ => None))
    as (s1 & E & Hip & _ & _ & _ & _ & Hs & _); [exact user_x86_ok | lia | lia | by vm_compute | done | lia |].
  exists s1. split; [exact E|]. split; [exact Hip|]. apply Hs.
Defined.

(** The scheduler, about to switch to the context [new]. *)
Definition scheduler_x86 (m : mem) (new : Z) : x86 :=
  {| rs := {| eax := 0; ecx := 1; edx := 2; ebx := 3; esp := 0x80200000; ebp := 4; esi := 5; edi := 6 |};
     ss_ := {| cs := 8; ds := 16; es := 16; fs := 0; gs := 0; ss := 16 |}; eip := 0x80104000; eflags := 2;
     mm := store32 (store32 m 0x80200004 0x80110000) 0x80200008 new |}.
Lemma scheduler_x86_ok m new : state_ok (scheduler_x86 m new).
Proof. split; [intros []; cbn; lia|]. split; [intros []; cbn; lia|]. cbn. lia. Qed.
Lemma scheduler_call m new : 0x80300000 <= new < 0x90000000 -> call_ok 0x80110000 new (scheduler_x86 m new).
Proof.
  intros H. unfold call_ok, apart. cbn [gr rs esp mm scheduler_x86]. split; [lia|]. split; [lia|].
  change (0x80200000 + 4) with 0x80200004. change (0x80200000 + 8) with 0x80200008.
  rewrite load32_store32_ne, !load32_store32_eq, !u32_small by lia. split_and!; (done || lia).
Qed.

Lemma swtch_resumes_witness : exists s1,
  exec_list (fun _ _ => None) 0 0 0 swtch (scheduler_x86 ∅ 0x80300000) = Some s1 /\ gr s1 ESP = 0x80300014.
Proof.
  destruct (swtch_resumes (fun _ _ => None) 0 0 0 0x80110000 0x80300000 (scheduler_x86 ∅ 0x80300000)) as (s1 & E & R & _).
  - apply scheduler_x86_ok.
  - apply scheduler_call. lia.
  - exists s1. split; [exact E|]. apply R.
Defined.

Definition new_mem : mem := fst (fst (alloc_stack 0x80104100 0x80106020 0x80400000 ∅)).
Lemma new_process_starts_witness : exists s1,
  exec_list (fun _ _ => None) 0 0 0 swtch (scheduler_x86 new_mem 0x80400f9c) = Some s1 /\ eip s1 = 0x80104100 /\ load32 (mm s1) (gr s1 ESP) = 0x80106020.
Proof.
  destruct (new_process_starts (fun _ _ => None) 0 0 0 0x80104100 0x80106020 0x80400000 ∅ 0x80110000 (scheduler_x86 new_mem 0x80400f9c)) as (s1 & E & I & _ & T & _).
  - lia.
  - lia.
  - lia.
  - unfold KSTACKSIZE. lia.
  - apply scheduler_x86_ok.
  - apply scheduler_call. lia.
  - unfold apart, KSTACKSIZE. cbn. lia.
  - unfold apart, KSTACKSIZE. cbn. lia.
  - intros k Hk. unfold word. cbn [mm scheduler_x86]. rewrite !load32_store32_ne by (unfold KSTACKSIZE, sizeof_tf, sizeof_context; lia). reflexivity.
  - exists s1. split; [exact E|]. split; [exact I | exact T].
Defined.

End AsmProof.
