(* ===== verification/Main.v ===== *)
(** * The start of the kernel: main.c

    The boot CPU initialises the components one after the other and starts the other CPUs,
    which find a stack, an entry point and a page table in three words below their entry code
    (entryother.S).  The other CPUs run while the boot CPU polls [started]: [oc_step] is what
    they do between two polls. *)

From stdpp Require Import base gmap list strings.
From Stdlib Require Import ZArith Lia.
From S2P Require Import Prelude CString Format Core Locking Kalloc Pipe Bio Log Tx Fs File Vm Proc VgaData Vga Console Machine Ide Syscall Seg.
Import Sleeplock.

Module Main.

Definition PDXSHIFT : Z := 22.
Definition PTE_PS : Z := 0x080.

(** The page table of the first instructions: two pages of 4 MB. *)
Definition entrypgdir : list Z :=
  let e := Z.lor (Z.lor (Z.lor 0 Vm.PTE_P) Vm.PTE_W) PTE_PS in
  <[Z.to_nat (Z.shiftr KERNBASE PDXSHIFT) := e]> (<[O := e]> (replicate Vm.NPDENTRIES 0)).

(** The processor's translation by such a page of 4 MB (no second level table exists). *)
Definition walk4m (pd : list Z) (va : Z) : option Z :=
  let e := zget 0 pd (Vm.PDX va) in
  if negb (Z.land e Vm.PTE_P =? 0) && negb (Z.land e PTE_PS =? 0)
  then Some (2 ^ 22 * (e / 2 ^ 22) + va mod 2 ^ 22) else None.

(** The [started] fields of the CPUs.  [launched] lists the CPUs that have left reset with
    what they found; [busy] counts the steps until signals arrive. *)
Record launch : Type := { la_id : Z; la_stack : Z; la_entry : Z; la_cr3 : Z }.
Record apvars : Type := { started : nat -> Z; launched : list launch; busy : nat }.

Definition set_started (c : nat) (x : Z) (v : apvars) : apvars :=
  {| started := fun i => if decide (i = c) then x else started v i; launched := launched v; busy := busy v |}.
Definition add_launch (l : launch) (v : apvars) : apvars :=
  {| started := started v; launched := launched v ++ [l]; busy := busy v |}.
Definition set_busy (n : nat) (v : apvars) : apvars :=
  {| started := started v; launched := launched v; busy := n |}.

(** The startup signals that the local APIC has sent: destination and physical address. *)
Class Startups (D : Type) : Type := { su_sent : D -> list (Z * Z) }.

(** What the other CPUs do while the boot CPU waits. *)
Class OtherCpus (S : Type) : Type := { oc_step : M S unit }.

Section Aps.
Context {S D : Type} {HLd : Lens S D} {HM : Machine D} {HLm : Lens S Machine.mpvars} {HLc : Lens S core} {HR : Lens S ram}
  {HV : Lens S Vm.vmvars} {HDt : Lens S Seg.desctab} {HAp : Lens S apvars} {HA : PageAlloc S} {HDi : Display S}.
(** Addresses of the linker: [gdt] of each CPU, [idt], [mpenter], [entrypgdir] and the image
    of entryother.S; [wf] bounds the polls. *)
Context (wf : nat) (gdt_addr : nat -> Z) (idt_addr mpenter_addr entrypgdir_addr eo_start eo_size : Z).

(** [mpmain] and [mpenter] up to the call of [scheduler]. *)
Definition mpmain_up : M S unit :=
  c ← mycpu;
  dp_puts (bytes_of_string "cpu" ++ Int.kprintint (Z.of_nat c) 10 true ++ bytes_of_string ": starting " ++
    Int.kprintint (Z.of_nat c) 10 true ++ [ch_nl]);;
  Seg.idtinit idt_addr;;
  c ← mycpu;
  lmod (T := apvars) (set_started c 1).

Definition mpenter_up : M S unit :=
  Vm.switchkvm;;
  Seg.seginit gdt_addr;;
  Machine.lapicinit (D := D) wf;;
  mpmain_up.

(** [while (c->started == 0)] *)
Fixpoint wait_started {HO : OtherCpus S} (fuel : nat) (c : nat) : M S unit :=
  match fuel with
  | O => spin
  | Datatypes.S f =>
      x ← lgets (T := apvars) (fun v => started v c);
      if x =? 0 then oc_step;; wait_started f c else mret tt
  end.

Definition code : Z := P2V 0x7000.

Definition start_one {HO : OtherCpus S} (c : nat) : M S unit :=
  me ← mycpu;
  if decide (c = me) then mret tt
  else
    stack ← kalloc_page;
    Vm.rset (code - 4) (u32 (stack + KSTACKSIZE));;
    Vm.rset (code - 8) mpenter_addr;;
    Vm.rset (code - 12) (V2P entrypgdir_addr);;
    k ← get_cpu c;
    Machine.lapicstartap (D := D) (apicid k) (V2P code);;
    wait_started wf c.

Definition startothers {HO : OtherCpus S} : M S unit :=
  Vm.rmod (fun m => Str.memmove m code eo_start eo_size);;
  n ← core_get (fun c => length (cpus c));
  for_each start_one (seq 0 n).

(** ** The other CPUs *)

(** entryother.S, at the physical address [a]: the three words, the page table, the stack,
    and the jump. *)
Definition entryother (m : mem) (id a : Z) : launch :=
  {| la_id := id; la_stack := load32 m (P2V a - 4); la_entry := load32 m (P2V a - 8); la_cr3 := load32 m (P2V a - 12) |}.

(** Executed by the CPU with APIC id [id], interrupts off. *)
Definition as_cpu (id : Z) (m : M S unit) : M S unit :=
  id0 ← core_get hw_apicid;
  if0 ← core_get hw_if;
  v0 ← lgets (T := Vm.vmvars) (fun v => v);
  core_mod (fun c => set_hw_if false {| hw_apicid := id; hw_if := hw_if c; cpus := cpus c; locks := locks c; procs := procs c;
    nextpid := nextpid c; initproc := initproc c |});;
  m;;
  core_mod (fun c => set_hw_if if0 {| hw_apicid := id0; hw_if := hw_if c; cpus := cpus c; locks := locks c; procs := procs c;
    nextpid := nextpid c; initproc := initproc c |});;
  lmod (T := Vm.vmvars) (fun _ => v0).

(** A startup signal: the CPU leaves reset and executes the code at [a], which is entryother.S
    if its image [eo] is there.  Later signals are ignored. *)
Definition start_cpu (eo : list Z) (sg : Z * Z) : M S unit :=
  let '(id, a) := sg in
  l ← lgets (T := apvars) launched;
  r ← core_get (fun c => find_cpu id (cpus c));
  if bool_decide (id ∈ la_id <$> l) then mret tt
  else match r with
  | None => mret tt
  | Some _ =>
      m ← lgets (T := ram) ram_bytes;
      if bool_decide (Machine.bytes_at m (P2V a) (length eo) = eo) then
        let la := entryother m id a in
        lmod (T := apvars) (add_launch la);;
        if la_entry la =? mpenter_addr then as_cpu id mpenter_up else spin
      else spin
  end.

(** The signals arrive after [lat] steps. *)
Definition aps_step {HSu : Startups D} (eo : list Z) (lat : nat) : M S unit :=
  b ← lgets (T := apvars) busy;
  match b with
  | Datatypes.S n => lmod (T := apvars) (set_busy n)
  | O =>
      l ← lgets (T := D) su_sent;
      for_each (start_cpu eo) l;;
      lmod (T := apvars) (set_busy lat)
  end.

End Aps.

(** ** The boot CPU *)

Section Boot.
Context {S T W G A D : Type} {HLT : Lens S T} {HTx : TxLayer T} {HTb : TxBounds T} {HLc : Lens T core}
  {HLs : Lens T slocktab} {HLi : Lens S Fs.icache} {HLb : Lens S superblock} {HDv : Fs.DevSw S}
  {HP : Lens S Pipe.pipetab} {HF : Lens S File.ftable} {HK : Lens S Kalloc.kmem}
  {HR : Lens S ram} {HV : Lens S Vm.vmvars} {HPv : Lens S Proc.procvars} {HDi : Display S}
  {HLw : Lens S W} {HLg : Lens W G} {HLv : Lens W Vga.vst} {HHw : VgaHw G} {HLx : Lens S Console.cvars}
  {HSl : Lens S slocktab} {HBc : Lens S Bio.bcache} {HId : Lens S Ide.idevars} {HLa : Lens S A} {HAt : AtaHw A}
  {HLd : Lens S D} {HM : Machine D} {HLm : Lens S Machine.mpvars} {HDt : Lens S Seg.desctab} {HAp : Lens S apvars}
  {HO : OtherCpus S}.
Context (wf : nat) (gdt_addr : nat -> Z) (vectors : Z -> Z)
  (kend kdata idt_addr mpenter_addr entrypgdir_addr eo_start eo_size forkret_addr trapret_addr initcode_start initcode_size : Z).

#[local] Instance main_core : Lens S core := lens_comp (T := T).
#[local] Instance main_pages : PageAlloc S := Kalloc.kalloc_PageAlloc kend.

Definition mpmain (rounds : nat) : M S unit :=
  mpmain_up idt_addr;;
  Proc.scheduler (T := T) rounds.

Definition mpenter (rounds : nat) : M S unit :=
  Vm.switchkvm;;
  Seg.seginit gdt_addr;;
  Machine.lapicinit (D := D) wf;;
  mpmain rounds.

(** [rounds] bounds the turns of the scheduler's endless loop. *)
Definition main (rounds : nat) : M S unit :=
  Kalloc.kinit1 kend kend (P2V (4 * 1024 * 1024));;
  Vm.kvmalloc kdata;;
  Machine.mpinit (D := D) wf;;
  Machine.lapicinit (D := D) wf;;
  Seg.seginit gdt_addr;;
  Machine.picinit (D := D);;
  Machine.ioapicinit (D := D);;
  Console.consoleinit (Machine.ioapicenable (D := D) Machine.IRQ_KBD 0);;
  Console.uartinit (W := W) (Machine.ioapicenable (D := D) Machine.IRQ_COM1 0);;
  Proc.pinit (T := T);;
  Seg.tvinit vectors;;
  Bio.binit;;
  File.fileinit (T := T);;
  Ide.ideinit (D := A) wf;;
  startothers (D := D) wf mpenter_addr entrypgdir_addr eo_start eo_size;;
  Kalloc.kinit2 kend (P2V (4 * 1024 * 1024)) (P2V PHYSTOP);;
  Proc.userinit (T := T) wf kdata forkret_addr trapret_addr initcode_start initcode_size;;
  mpmain rounds.

End Boot.
End Main.
