(* ===== verification/MainProof.v ===== *)
(** * The start of the other CPUs

    [startothers] on the allocator of the kernel, on a local APIC with the documented
    behaviour, with the other CPUs executing the kernel's code. *)

From stdpp Require Import base gmap list strings.
From Stdlib Require Import ZArith Lia.
From S2P Require Import Prelude CString Format Core Locking Kalloc Vm Machine VmProof Syscall Seg SegProof Main.
Import Main.

Module MainProof.
Import Machine (r_ID, r_ICRHI, r_ICRLO, DELIVS, STARTUP, lapic).

(** What a write to a register does to the APIC's destination and to the startup signals. *)
Definition icr_store (l a x : Z) (h : Z * list (Z * Z)) : Z * list (Z * Z) :=
  if a =? l + r_ICRHI then (x, h.2)
  else if (a =? l + r_ICRLO) && (Z.land x 0x700 =? STARTUP) then (h.1, h.2 ++ [(Z.shiftr h.1 24, Z.shiftl (Z.land x 0xff) 12)])
  else h.

(** The local APIC at [l]: the interrupt command register sends signals; other registers
    send none. *)
Class ApicLaws (D : Type) (l : Z) `{Machine D} `{Startups D} : Type := {
  ap_hi : D -> Z;
  al_outb p x d (Q : unit -> D -> Prop) :
    (forall d', ap_hi d' = ap_hi d -> su_sent d' = su_sent d -> Q tt d') -> wp (mc_outb p x) d Q;
  al_load a d (Q : Z -> D -> Prop) :
    (forall x d', ap_hi d' = ap_hi d -> su_sent d' = su_sent d -> (a = l + r_ICRLO -> Z.land x DELIVS = 0) -> Q x d') ->
    wp (mc_load a) d Q;
  al_store a x d (Q : unit -> D -> Prop) :
    (forall d', (ap_hi d', su_sent d') = icr_store l a x (ap_hi d, su_sent d) -> Q tt d') -> wp (mc_store a x) d Q
}.

(** The text on the console. *)
Record screen : Type := { shown : list Z }.

Section Proof.
Context {D : Type} (l : Z) {HM : Machine D} {HSu : Startups D} {HAl : ApicLaws D l}.
Abbreviation mst := (core * Kalloc.kmem * ram * Vm.vmvars * Seg.desctab * Machine.mpvars * apvars * screen * D)%type.

#[local] Instance screen_display : Display mst := {|
  dp_puts := fun t => lmod (T := screen) (fun s => {| shown := shown s ++ t |});
  dp_getch := mret 0; dp_mode := fun _ => mret 0; dp_pixel := fun _ _ _ => mret 0; dp_clear13 := mret tt; dp_clear12 := mret tt
|}.
Ltac mlens := cbn [lget lset lens_fst lens_snd lens_id fst snd].

Context (wf : nat) (gdt_addr : nat -> Z) (idt_addr mpenter_addr entrypgdir_addr eo_start eo_size kend : Z) (lat : nat).
#[local] Instance boot_pages : PageAlloc mst := Kalloc.kalloc_PageAlloc kend.

(** A step of a component that changes only the machine. *)
Definition quiet (d d' : D) : Prop := su_sent d' = su_sent d.

Lemma wp_lapicr a c k r v t p q s d (Q : Z -> mst -> Prop) : lapic p = l ->
  (forall x d', quiet d d' -> ap_hi d' = ap_hi d -> (a = r_ICRLO -> Z.land x DELIVS = 0) -> Q x (c, k, r, v, t, p, q, s, d')) ->
  wp (Machine.lapicr (D := D) a) (c, k, r, v, t, p, q, s, d) Q.
Proof.
  intros Hl HQ. unfold Machine.lapicr, Machine.get_lapic. wp_step. mlens. rewrite Hl. apply wp_zoom. mlens. apply al_load.
  intros x d' Hh Hs Hx. apply HQ; [done | done |]. intros ->. by apply Hx.
Qed.

Lemma wp_lapicw a x c k r v t p q s d (Q : unit -> mst -> Prop) : lapic p = l ->
  (forall d', (ap_hi d', su_sent d') = icr_store l (l + a) (u32 x) (ap_hi d, su_sent d) -> Q tt (c, k, r, v, t, p, q, s, d')) ->
  wp (Machine.lapicw (D := D) a x) (c, k, r, v, t, p, q, s, d) Q.
Proof.
  intros Hl HQ. unfold Machine.lapicw, Machine.get_lapic. wp_step. mlens. rewrite Hl. apply wp_zoom. mlens. apply al_store.
  intros d1 H1. wp_step. apply wp_lapicr; [done|]. intros y d2 H2 H3 _. wp_step. apply HQ. unfold quiet in H2. by rewrite H2, H3.
Qed.

(** Registers other than the command register. *)
Lemma wp_lapicw_quiet a x c k r v t p q s d (Q : unit -> mst -> Prop) : lapic p = l ->
  a <> r_ICRLO \/ Z.land (u32 x) 0x700 <> STARTUP ->
  (forall d', quiet d d' -> Q tt (c, k, r, v, t, p, q, s, d')) -> wp (Machine.lapicw (D := D) a x) (c, k, r, v, t, p, q, s, d) Q.
Proof.
  intros Hl Ha HQ. apply wp_lapicw; [done|]. intros d' H. apply HQ. unfold quiet. revert H. unfold icr_store. cbn [fst snd].
  case_bool; [congruence|]. destruct (_ && _) eqn:E; [|congruence]. zbool. destruct Ha; [lia|]. done.
Qed.

Ltac qw := wp_step; apply wp_lapicw_quiet; [done | first [by left | by right] |]; let e := fresh "e" in let H := fresh "Hq" in intros e H.

Lemma wp_lapicinit c k r v t p q s d (Q : unit -> mst -> Prop) : lapic p = l -> l <> 0 -> (0 < wf)%nat ->
  (forall d', quiet d d' -> Q tt (c, k, r, v, t, p, q, s, d')) -> wp (Machine.lapicinit (D := D) wf) (c, k, r, v, t, p, q, s, d) Q.
Proof.
  intros Hl Hl0 Hwf HQ. unfold Machine.lapicinit, Machine.get_lapic. wp_step. mlens. rewrite Hl, (proj2 (Z.eqb_neq _ _) Hl0).
  do 6 qw. wp_step. apply wp_lapicr; [done|]. intros x d1 H1 _ _. wp_step.
  match goal with |- wp (if ?b then _ else _) _ _ => apply (wp_conseq _ _ (fun _ s' => exists d', quiet d d' /\ s' = (c, k, r, v, t, p, q, s, d'))) end.
  { case_bool; [qw | wp_step]; eexists; (split; [|done]); unfold quiet in *; congruence. }
  intros [] ? (d2 & H2 & ->). do 6 qw. destruct wf as [|wf']; [lia|]. cbn [Machine.wait_delivs]. wp_step.
  apply wp_lapicr; [done|]. intros y d3 H3 _ Hy. rewrite Hy by done. cbn [Z.eqb]. wp_step. qw. apply HQ. unfold quiet in *. congruence.
Qed.

(** *** The startup signals *)

(** The warm reset vector that [lapicstartap] writes. *)
Definition warm (m : mem) : mem := Machine.store16 (Machine.store16 m (P2V 0x467) 0) (P2V 0x467 + 2) 0x700.

Lemma icr_startup x d e d' : 0 <= x < 256 -> (ap_hi e, su_sent e) = icr_store l (l + r_ICRHI) (u32 (Z.shiftl x 24)) (ap_hi d, su_sent d) ->
  (ap_hi d', su_sent d') = icr_store l (l + r_ICRLO) (u32 (Z.lor STARTUP (Z.shiftr 0x7000 12))) (ap_hi e, su_sent e) ->
  su_sent d' = su_sent d ++ [(x, 0x7000)].
Proof.
  intros Hx He Hd. unfold icr_store in *. rewrite Z.eqb_refl in He. cbn [fst snd] in *. injection He as He1 He2.
  rewrite (proj2 (Z.eqb_neq _ _)) in Hd by (unfold r_ICRHI, r_ICRLO; lia). rewrite Z.eqb_refl in Hd.
  change (Z.land (u32 (Z.lor STARTUP (Z.shiftr 0x7000 12))) 0x700 =? STARTUP) with true in Hd. cbn [andb] in Hd. injection Hd as _ Hd.
  rewrite Hd, He1, He2. do 3 f_equal. rewrite Z.shiftl_mul_pow2, u32_small, Z.shiftr_div_pow2, Z.div_mul by lia. done.
Qed.

Lemma wp_moutb a x c k r v t p q s d (Q : unit -> mst -> Prop) :
  (forall d', quiet d d' -> Q tt (c, k, r, v, t, p, q, s, d')) -> wp (Machine.outb (D := D) a x) (c, k, r, v, t, p, q, s, d) Q.
Proof. intros HQ. unfold Machine.outb. apply wp_zoom. mlens. apply al_outb. intros d' _ H. by apply HQ. Qed.

Lemma wp_lapicstartap x c k r v t p q s d (Q : unit -> mst -> Prop) : lapic p = l -> 0 <= x < 256 ->
  (forall d', su_sent d' = su_sent d ++ [(x, 0x7000); (x, 0x7000)] ->
     Q tt (c, k, {| ram_bytes := warm (ram_bytes r) |}, v, t, p, q, s, d')) ->
  wp (Machine.lapicstartap (D := D) x (V2P code)) (c, k, r, v, t, p, q, s, d) Q.
Proof.
  intros Hl Hx HQ. change (V2P code) with 0x7000. unfold Machine.lapicstartap, Machine.microdelay. cbv zeta. wp_step. apply wp_moutb. intros d1 H1.
  wp_step. apply wp_moutb. intros d2 H2. wp_step. mlens. change (Z.shiftr 0x7000 4) with 0x700.
  change (P2V (Z.lor (Z.shiftl 0x40 4) 0x67)) with (P2V 0x467). fold (warm (ram_bytes r)). do 3 qw.
  cbn [seq for_each]. wp_step. apply wp_lapicw; [done|]. intros d3 H3. wp_step. apply wp_lapicw; [done|]. intros d4 H4. wp_step.
  apply wp_lapicw; [done|]. intros d5 H5. wp_step. apply wp_lapicw; [done|]. intros d6 H6. wp_step. apply HQ.
  rewrite (icr_startup x _ _ _ Hx H5 H6), (icr_startup x _ _ _ Hx H3 H4). unfold quiet in *. rewrite <- app_assoc. cbn [app]. congruence.
Qed.

(** *** One of the other CPUs *)

Definition up_tables (i : nat) (t : Seg.desctab) : Seg.desctab :=
  Seg.set_idtr i {| Seg.tr_limit := 2047; Seg.tr_base := idt_addr |}
    (Seg.set_gdtr i {| Seg.tr_limit := 47; Seg.tr_base := gdt_addr i |} (Seg.mod_gdt i SegProof.flat_gdt t)).
Definition hello (i : nat) : list Z :=
  bytes_of_string "cpu" ++ Int.kprintint (Z.of_nat i) 10 true ++ bytes_of_string ": starting " ++ Int.kprintint (Z.of_nat i) 10 true ++ [ch_nl].

Lemma wp_mpenter_up (c : core) k r (v : Vm.vmvars) t p q s d i (Q : unit -> mst -> Prop) :
  lapic p = l -> l <> 0 -> (0 < wf)%nat -> find_cpu (hw_apicid c) (cpus c) = Some i -> hw_if c = false ->
  0 <= gdt_addr i < 2 ^ 32 -> 0 <= idt_addr < 2 ^ 32 ->
  (forall d' v', quiet d d' -> Q tt (c, k, r, v', up_tables i t, p, set_started i 1 q, {| shown := shown s ++ hello i |}, d')) ->
  wp (mpenter_up (D := D) wf gdt_addr idt_addr) (c, k, r, v, t, p, q, s, d) Q.
Proof.
  intros Hl Hl0 Hwf Hi Hif Hg Hid HQ. unfold mpenter_up, Vm.switchkvm, Seg.seginit, Seg.lgdt, Seg.dmod, Seg.this_cpu, core_get. wp_step. mlens.
  apply (wp_mycpu _ i); [done | done |]. wp_step. mlens. rewrite Hi. cbn [default]. change (Seg.sizeof_segdesc * Z.of_nat Seg.NSEGS) with 48.
  rewrite SegProof.pd_load by (done || lia). apply wp_lapicinit; [done.. |]. intros d1 H1. unfold mpmain_up, Seg.idtinit, Seg.lidt, Seg.dmod, Seg.this_cpu, core_get.
  wp_step. apply (wp_mycpu _ i); [done | done |]. wp_step. cbn [dp_puts screen_display]. wp_step. mlens. rewrite Hi. cbn [default].
  apply (wp_mycpu _ i); [done | done |]. wp_step. mlens. change (Seg.sizeof_gatedesc * 256) with 2048.
  rewrite SegProof.pd_load by (done || lia). by apply HQ.
Qed.

Lemma wp_start_cpu eo id a (c : core) k r v t p q s d i (Q : unit -> mst -> Prop) :
  lapic p = l -> l <> 0 -> (0 < wf)%nat -> find_cpu id (cpus c) = Some i -> 0 <= gdt_addr i < 2 ^ 32 -> 0 <= idt_addr < 2 ^ 32 ->
  Machine.bytes_at (ram_bytes r) (P2V a) (length eo) = eo -> load32 (ram_bytes r) (P2V a - 8) = mpenter_addr -> id ∉ la_id <$> launched q ->
  (forall d', quiet d d' -> Q tt (c, k, r, v, up_tables i t, p, set_started i 1 (add_launch (entryother (ram_bytes r) id a) q),
     {| shown := shown s ++ hello i |}, d')) ->
  wp (start_cpu (D := D) wf gdt_addr idt_addr mpenter_addr eo (id, a)) (c, k, r, v, t, p, q, s, d) Q.
Proof.
  intros Hl Hl0 Hwf Hi Hg Hid Heo Hen Hni HQ. unfold start_cpu, core_get. wp_step. mlens. rewrite bool_decide_false, Hi by done. wp_step. mlens.
  rewrite bool_decide_true by done. wp_step. mlens. cbn [la_entry entryother]. rewrite Hen, Z.eqb_refl. unfold as_cpu, core_get, core_mod. wp_step. mlens.
  apply (wp_mpenter_up _ _ _ _ _ _ _ _ _ i); [done.. |]. intros d' v' H. wp_step. mlens. specialize (HQ d' H). by destruct c.
Qed.

Lemma wp_start_old eo sg (c : core) k r v t p q s d (Q : unit -> mst -> Prop) : sg.1 ∈ la_id <$> launched q ->
  Q tt (c, k, r, v, t, p, q, s, d) -> wp (start_cpu (D := D) wf gdt_addr idt_addr mpenter_addr eo sg) (c, k, r, v, t, p, q, s, d) Q.
Proof. intros H HQ. destruct sg as [id a]. unfold start_cpu, core_get. wp_step. mlens. rewrite bool_decide_true by done. by wp_step. Qed.

(** *** Waiting for a CPU *)

Context (eo : list Z).
#[local] Instance aps : OtherCpus mst := {| oc_step := aps_step (D := D) wf gdt_addr idt_addr mpenter_addr eo lat |}.

(** The signals that have been acted upon are followed by two for the CPU [id]. *)
Lemma wp_deliver id old (c : core) k r v t p q s d i (Q : unit -> mst -> Prop) :
  lapic p = l -> l <> 0 -> (0 < wf)%nat -> find_cpu id (cpus c) = Some i -> 0 <= gdt_addr i < 2 ^ 32 -> 0 <= idt_addr < 2 ^ 32 ->
  Machine.bytes_at (ram_bytes r) code (length eo) = eo -> load32 (ram_bytes r) (code - 8) = mpenter_addr -> id ∉ la_id <$> launched q ->
  Forall (fun sg => sg.1 ∈ la_id <$> launched q) old ->
  (forall d', quiet d d' -> Q tt (c, k, r, v, up_tables i t, p, set_started i 1 (add_launch (entryother (ram_bytes r) id 0x7000) q),
     {| shown := shown s ++ hello i |}, d')) ->
  wp (for_each (start_cpu (D := D) wf gdt_addr idt_addr mpenter_addr eo) (old ++ [(id, 0x7000); (id, 0x7000)])) (c, k, r, v, t, p, q, s, d) Q.
Proof.
  intros Hl Hl0 Hwf Hi Hg Hid Heo Hen Hni Hold HQ. induction Hold as [|sg old Hsg _ IH]; cbn [app for_each].
  - wp_step. apply (wp_start_cpu _ _ _ _ _ _ _ _ _ _ _ _ i); [done.. |]. intros d' Hd'. wp_step. apply wp_start_old.
    { cbn [fst launched set_started add_launch]. rewrite fmap_app. apply elem_of_app. right. by left. }
    wp_step. by apply HQ.
  - wp_step. by apply wp_start_old.
Qed.

Lemma wp_wait_started id old (c : core) k r v t p s d i (Q : unit -> mst -> Prop) : forall fuel q,
  lapic p = l -> l <> 0 -> (0 < wf)%nat -> find_cpu id (cpus c) = Some i -> 0 <= gdt_addr i < 2 ^ 32 -> 0 <= idt_addr < 2 ^ 32 ->
  Machine.bytes_at (ram_bytes r) code (length eo) = eo -> load32 (ram_bytes r) (code - 8) = mpenter_addr -> id ∉ la_id <$> launched q ->
  Forall (fun sg => sg.1 ∈ la_id <$> launched q) old -> su_sent d = old ++ [(id, 0x7000); (id, 0x7000)] -> started q i = 0 ->
  (busy q + 2 <= fuel)%nat ->
  (forall d', quiet d d' -> Q tt (c, k, r, v, up_tables i t, p,
     set_busy lat (set_started i 1 (add_launch (entryother (ram_bytes r) id 0x7000) q)), {| shown := shown s ++ hello i |}, d')) ->
  wp (wait_started fuel i) (c, k, r, v, t, p, q, s, d) Q.
Proof.
  induction fuel as [|fuel IH]; intros q Hl Hl0 Hwf Hi Hg Hid Heo Hen Hni Hold Hsu Hst Hf HQ; [lia|]. cbn [wait_started]. wp_step. mlens.
  rewrite Hst. cbn [Z.eqb]. wp_step. cbn [oc_step aps]. unfold aps_step. wp_step. mlens. destruct (busy q) as [|n] eqn:Eb; wp_step; mlens.
  - rewrite Hsu. apply (wp_deliver id old _ _ _ _ _ _ _ _ _ i); [done.. |]. intros d' Hd'. wp_step. mlens.
    destruct fuel as [|fuel]; [lia|]. cbn [wait_started]. wp_step. mlens. cbn [started set_busy set_started]. rewrite decide_True by done.
    cbn [Z.eqb]. wp_step. by apply HQ.
  - by apply IH; [.. | cbn [busy set_busy]; lia | exact HQ].
Qed.

(** *** Memory *)

Definition boot_mem (m : mem) (stack : Z) : mem :=
  warm (store32 (store32 (store32 m (code - 4) (u32 (stack + KSTACKSIZE))) (code - 8) mpenter_addr) (code - 12) (V2P entrypgdir_addr)).

Lemma store16_other m a x b : b < a \/ a + 2 <= b -> loadb (Machine.store16 m a x) b = loadb m b.
Proof. intros H. unfold Machine.store16. rewrite !loadb_storeb_ne by lia. done. Qed.
Lemma warm_other m b : b < P2V 0x467 \/ P2V 0x46b <= b -> loadb (warm m) b = loadb m b.
Proof. intros H. unfold warm. change (P2V 0x46b) with (P2V 0x467 + 4) in H. rewrite !store16_other by lia. done. Qed.
Lemma load32_warm m a : P2V 0x46b <= a -> load32 (warm m) a = load32 m a.
Proof. intros H. unfold load32. rewrite !warm_other by lia. done. Qed.
Lemma boot_mem_other m st b : code <= b -> loadb (boot_mem m st) b = loadb m b.
Proof.
  intros H. unfold boot_mem. rewrite warm_other by (change (P2V 0x46b) with 0x8000046b; change code with 0x80007000 in H; lia).
  rewrite !loadb_store32_ne by lia. done.
Qed.
Lemma load32_boot_mem m st a : code <= a -> load32 (boot_mem m st) a = load32 m a.
Proof. intros H. unfold load32. rewrite !boot_mem_other by lia. done. Qed.

Lemma boot_words m st id : 0 <= mpenter_addr < 2 ^ 32 ->
  entryother (boot_mem m st) id 0x7000 = {| la_id := id; la_stack := u32 (st + KSTACKSIZE); la_entry := mpenter_addr; la_cr3 := V2P entrypgdir_addr |}.
Proof.
  intros Hm. unfold entryother, boot_mem. fold code. rewrite !load32_warm by (by vm_compute).
  rewrite load32_store32_eq. rewrite !(load32_store32_ne _ (code - 12)) by lia. rewrite !(load32_store32_eq _ (code - 8)).
  rewrite !(load32_store32_ne _ (code - 8)) by lia. rewrite load32_store32_eq. unfold V2P, u32. by rewrite !Zmod_mod, (Z.mod_small mpenter_addr) by done.
Qed.

Lemma bytes_at_ext m m' a n : (forall b, a <= b < a + Z.of_nat n -> loadb m' b = loadb m b) -> Machine.bytes_at m' a n = Machine.bytes_at m a n.
Proof. intros H. unfold Machine.bytes_at. apply list_fmap_ext. intros i x Hx. apply lookup_seq in Hx as [-> ?]. apply H. lia. Qed.

(** *** The CPUs *)

Definition zcpu : cpu := {| apicid := 0; ncli := 0; intena := false; cproc := None |}.
Definition cpu_id (c : core) (i : nat) : Z := apicid (default zcpu (cpus c !! i)).
Definition others (me n : nat) : list nat := filter (fun i => i <> me) (seq 0 n).
Definition launch_of (c : core) (i : nat) (stack : Z) : launch :=
  {| la_id := cpu_id c i; la_stack := u32 (stack + KSTACKSIZE); la_entry := mpenter_addr; la_cr3 := V2P entrypgdir_addr |}.

Lemma find_cpu_nodup (cs : list cpu) : forall i k, NoDup (apicid <$> cs) -> cs !! i = Some k -> find_cpu (apicid k) cs = Some i.
Proof.
  induction cs as [|k0 cs IH]; intros [|i] k HN Hi; try done; cbn in Hi.
  - injection Hi as ->. cbn. by rewrite Z.eqb_refl.
  - cbn in HN. apply NoDup_cons in HN as [Hn HN]. cbn [find_cpu]. rewrite (proj2 (Z.eqb_neq _ _)).
    + by rewrite (IH i k HN Hi).
    + intros E. apply Hn. rewrite E. apply list_elem_of_fmap. exists k. split; [done|]. by eapply list_elem_of_lookup_2.
Qed.

Lemma others_S me n : others me (S n) = others me n ++ (if decide (n = me) then [] else [n]).
Proof. unfold others. rewrite seq_S, filter_app. f_equal. cbn. case_decide; by destruct (decide (n = me)). Qed.
Lemma others_lt me n i : i ∈ others me n -> (i < n)%nat /\ i <> me.
Proof. unfold others. rewrite list_elem_of_filter, elem_of_seq. lia. Qed.

Lemma zip_with_snoc {A B C} (f : A -> B -> C) (l1 : list A) : forall (l2 : list B) x y, l2 !! length l1 = Some y ->
  zip_with f (l1 ++ [x]) l2 = zip_with f l1 l2 ++ [f x y].
Proof. induction l1 as [|a l1 IH]; intros [|b l2] x y H; try done; cbn in *; [by injection H as -> | by rewrite (IH _ _ y)]. Qed.

Lemma launched_ids c os : forall fl, (length os <= length fl)%nat -> la_id <$> zip_with (launch_of c) os fl = cpu_id c <$> os.
Proof. induction os as [|i os IH]; intros [|v fl] H; cbn in *; try done; [lia|]. by rewrite IH by lia. Qed.

Lemma fresh_id c os i : NoDup (apicid <$> cpus c) -> i ∉ os -> Forall (fun j => j < length (cpus c))%nat (i :: os) -> cpu_id c i ∉ cpu_id c <$> os.
Proof.
  intros HN Hi Hos Hin. apply list_elem_of_fmap in Hin as (j & Hj & Hjo). inversion_clear Hos as [|? ? Hil Hol].
  pose proof (proj1 (Forall_forall _ _) Hol j Hjo) as Hjl. apply lookup_lt_is_Some in Hil as [ki Hki]. apply lookup_lt_is_Some in Hjl as [kj Hkj].
  unfold cpu_id in Hj. rewrite Hki, Hkj in Hj. cbn in Hj. pose proof (find_cpu_nodup _ _ _ HN Hki) as E1. pose proof (find_cpu_nodup _ _ _ HN Hkj) as E2.
  rewrite Hj, E2 in E1. by injection E1 as ->.
Qed.

(** *** The loop *)

Section Loop.
Context (c : core) (v : Vm.vmvars) (p : Machine.mpvars) (me : nat) (fl : list Z) (text : list Z).

(** The assumptions on the machine and on the kernel's layout. *)
Record bootable : Prop := {
  bo_me : find_cpu (hw_apicid c) (cpus c) = Some me;
  bo_if : hw_if c = false;
  bo_ids : NoDup (apicid <$> cpus c);
  bo_byte : Forall (fun k => 0 <= apicid k < 256) (cpus c);
  bo_pages : (length (others me (length (cpus c))) <= length fl)%nat;
  bo_free : NoDup fl /\ Forall (fun v => v mod PGSIZE = 0 /\ kend <= v < P2V 0x400000) fl;
  bo_kend : code + Z.of_nat (length eo) <= kend;
  bo_lapic : lapic p = l /\ l <> 0;
  bo_wf : (lat + 2 <= wf)%nat;
  bo_addr : (forall i, (i < length (cpus c))%nat -> 0 <= gdt_addr i < 2 ^ 32) /\ 0 <= idt_addr < 2 ^ 32 /\ 0 <= mpenter_addr < 2 ^ 32
}.
Hypothesis Hb : bootable.

(** CPU [i] runs: it has told so and uses the kernel's tables. *)
Definition running (t : Seg.desctab) (q : apvars) (i : nat) : Prop :=
  started q i = 1 /\ Seg.gdtr t i = Some {| Seg.tr_limit := 47; Seg.tr_base := gdt_addr i |} /\
  Seg.idtr t i = Some {| Seg.tr_limit := 2047; Seg.tr_base := idt_addr |}.

(** After the first [j] turns. *)
Definition turn (j : nat) (s : mst) : Prop :=
  exists head m t q d, s = (c, {| Kalloc.use_lock := false; Kalloc.freelist := head |}, {| ram_bytes := m |}, v, t, p, q,
      {| shown := text ++ concat (hello <$> others me j) |}, d) /\
    Kalloc.chain m head (drop (length (others me j)) fl) /\ Machine.bytes_at m code (length eo) = eo /\
    launched q = zip_with (launch_of c) (others me j) fl /\ Forall (fun sg => sg.1 ∈ la_id <$> launched q) (su_sent d) /\
    Forall (running t q) (others me j) /\ (forall i, (j <= i)%nat -> started q i = 0) /\ (busy q <= lat)%nat.

Lemma running_other t q la n i j : i <> j -> running t q i ->
  running (up_tables j t) (set_busy n (set_started j 1 (add_launch la q))) i.
Proof.
  intros Hne (H1 & H2 & H3). unfold running, up_tables. cbn [started set_busy set_started add_launch]. rewrite decide_False by done.
  unfold Seg.set_idtr, Seg.set_gdtr, Seg.mod_gdt, Seg.on_cpu. cbn [Seg.gdtr Seg.idtr]. by rewrite !decide_False.
Qed.
Lemma running_self t q la n j : running (up_tables j t) (set_busy n (set_started j 1 (add_launch la q))) j.
Proof.
  unfold running, up_tables. cbn [started set_busy set_started add_launch]. rewrite decide_True by done.
  unfold Seg.set_idtr, Seg.set_gdtr, Seg.mod_gdt, Seg.on_cpu. cbn [Seg.gdtr Seg.idtr]. by rewrite !decide_True.
Qed.

(** The stack of CPU [j] comes off the free list. *)
Lemma page_for j : (j < length (cpus c))%nat -> j <> me -> exists st, fl !! length (others me j) = Some st /\
  drop (length (others me j)) fl = st :: drop (S (length (others me j))) fl /\ code <= st /\ st <> 0.
Proof.
  intros Hj Hne. destruct Hb as [_ _ _ _ Hp [_ Hf] Hk _ _ _]. assert (Hl : (length (others me j) < length fl)%nat).
  { eapply Nat.lt_le_trans; [|exact Hp]. replace (length (cpus c)) with (S j + (length (cpus c) - S j))%nat by lia.
    unfold others at 2. rewrite seq_app, filter_app, length_app. pose proof (others_S me j) as E. unfold others at 1 in E. rewrite E, length_app.
    rewrite decide_False by done. cbn. lia. }
  apply lookup_lt_is_Some in Hl as [st Hst]. exists st. split; [done|]. split; [by apply drop_S|].
  pose proof (proj1 (Forall_lookup _ _) Hf _ _ Hst) as [_ H]. change code with 0x80007000 in *. lia.
Qed.

Lemma chain_boot m st head fl' : Kalloc.chain m head fl' -> Forall (fun v => code <= v) fl' -> Kalloc.chain (boot_mem m st) head fl'.
Proof. intros H Hf. eapply Kalloc.chain_frame; [|exact H]. intros w Hw. apply load32_boot_mem. by apply (proj1 (Forall_forall _ _) Hf). Qed.

Lemma fl_high n : Forall (fun v => code <= v) (drop n fl).
Proof.
  apply Forall_drop. destruct Hb as [_ _ _ _ _ [_ Hf] Hk _ _ _]. eapply Forall_impl; [exact Hf|]. intros x [_ Hx]. cbn. lia.
Qed.

(** What [turn] says of the signals, the CPUs and the pages after one more CPU. *)
Lemma turn_next j m t q d d' st : j <> me -> fl !! length (others me j) = Some st ->
  Kalloc.chain m (load32 m st) (drop (S (length (others me j))) fl) -> Machine.bytes_at m code (length eo) = eo ->
  launched q = zip_with (launch_of c) (others me j) fl -> Forall (fun sg => sg.1 ∈ la_id <$> launched q) (su_sent d) ->
  Forall (running t q) (others me j) -> (forall i, (j <= i)%nat -> started q i = 0) ->
  su_sent d' = su_sent d ++ [(cpu_id c j, 0x7000); (cpu_id c j, 0x7000)] ->
  turn (S j) (c, {| Kalloc.use_lock := false; Kalloc.freelist := load32 m st |}, {| ram_bytes := boot_mem m st |}, v, up_tables j t, p,
    set_busy lat (set_started j 1 (add_launch (launch_of c j st) q)), {| shown := (text ++ concat (hello <$> others me j)) ++ hello j |}, d').
Proof.
  intros Hne Hfl Hch Heo Hla Hsu Hru Hst Hd'. unfold turn. rewrite others_S, decide_False by done. eexists _, _, _, _, _. split.
  { rewrite fmap_app, concat_app, app_assoc. cbn. by rewrite app_nil_r. }
  rewrite !length_app, Nat.add_1_r. cbn [launched busy set_busy set_started add_launch]. split_and!.
  - apply chain_boot; [done | apply fl_high].
  - rewrite <- Heo at 2. apply bytes_at_ext. intros b Hbb. apply boot_mem_other. lia.
  - rewrite Hla. symmetry. by apply (zip_with_snoc (launch_of c)).
  - rewrite Hd', fmap_app. apply Forall_app. split.
    + eapply Forall_impl; [exact Hsu|]. intros sg H. cbn. apply elem_of_app. by left.
    + repeat constructor; cbn; apply elem_of_app; right; by left.
  - apply Forall_app. split; [|constructor; [apply running_self | done]]. apply Forall_forall. intros i Hi.
    apply running_other; [apply others_lt in Hi as [? _]; lia|]. by apply (proj1 (Forall_forall _ _) Hru).
  - intros i Hi. cbn [started set_busy set_started add_launch]. rewrite decide_False by lia. apply Hst. lia.
  - done.
Qed.

Lemma start_turn j s : (j < length (cpus c))%nat -> turn j s ->
  wp (start_one (D := D) wf mpenter_addr entrypgdir_addr j) s (fun _ s' => turn (S j) s').
Proof.
  intros Hj Ht. pose proof Ht as (head & m & t & q & d & -> & Hch & Heo & Hla & Hsu & Hru & Hst & Hbu).
  pose proof Hb as [Hme Hif HN Hby Hp [_ Hf] Hk [Hl Hl0] Hwf (Hg & Hid & Hmp)].
  unfold start_one. wp_step. apply (wp_mycpu _ me); [done | done |]. destruct (decide (j = me)) as [->|Hne].
  { wp_step. unfold turn. rewrite others_S, decide_True, app_nil_r by done. eexists _, m, t, q, d. split; [done|].
    split_and!; try done. intros i Hi. apply Hst. lia. }
  destruct (page_for j Hj Hne) as (st & Hfl & Hdr & Hst1 & Hst0). rewrite Hdr in Hch. destruct Hch as (-> & _ & Hch).
  cbn [kalloc_page boot_pages Kalloc.kalloc_PageAlloc]. unfold Kalloc.kalloc, Kalloc.if_lock, Kalloc.ram_get, Kalloc.set_freelist. wp_step. mlens.
  cbn [Kalloc.use_lock Kalloc.freelist]. wp_step. mlens. cbn [Kalloc.use_lock Kalloc.freelist ram_bytes]. rewrite (proj2 (Z.eqb_neq _ _) Hst0). wp_step. mlens.
  cbn [Kalloc.use_lock Kalloc.freelist ram_bytes]. wp_step. unfold Vm.rset. wp_step. mlens. cbn [ram_bytes]. unfold get_cpu, core_get. wp_step. mlens.
  fold zcpu. fold (cpu_id c j). pose proof Hj as Hj'. apply lookup_lt_is_Some in Hj' as [kj Hkj].
  assert (Hcj : cpu_id c j = apicid kj) by (unfold cpu_id; by rewrite Hkj).
  assert (Hr : 0 <= cpu_id c j < 256) by (rewrite Hcj; by apply (proj1 (Forall_lookup _ _) Hby j)).
  apply wp_lapicstartap; [done | done |]. intros d1 Hd1. cbn [ram_bytes]. fold (boot_mem m st). wp_step.
  apply (wp_wait_started (cpu_id c j) (su_sent d)); try done.
  - lia.
  - rewrite Hcj. by apply find_cpu_nodup.
  - by apply Hg.
  - cbn [ram_bytes]. rewrite <- Heo at 2. apply bytes_at_ext. intros b Hbb. apply boot_mem_other. lia.
  - cbn [ram_bytes]. pose proof (boot_words m st 0 Hmp) as E. by injection E.
  - rewrite Hla, launched_ids by (apply lookup_lt_Some in Hfl; lia). apply fresh_id; [done | intros [H _]%others_lt; lia |].
    constructor; [done|]. apply Forall_forall. intros i [Hi _]%others_lt. lia.
  - by apply Hst.
  - lia.
  - intros d' Hd'. cbn [ram_bytes]. rewrite boot_words by done. eapply turn_next; try done. unfold quiet in Hd'. congruence.
Qed.

End Loop.

(** The page table of the first instructions. *)
Lemma entry_walk va : 0 <= va < 2 ^ 32 ->
  walk4m entrypgdir va = if va <? 0x400000 then Some va
    else if (KERNBASE <=? va) && (va <? KERNBASE + 0x400000) then Some (va - KERNBASE) else None.
Proof.
  intros Hva. assert (Hz : forall i, 0 <= i < 1024 -> zget 0 entrypgdir i = if (i =? 0) || (i =? 512) then 0x83 else 0).
  { intros i Hi. unfold zget, entrypgdir. rewrite (proj2 (Z.ltb_ge _ _)) by lia. change (Z.to_nat (Z.shiftr KERNBASE PDXSHIFT)) with 512%nat.
    change (Z.lor (Z.lor (Z.lor 0 Vm.PTE_P) Vm.PTE_W) PTE_PS) with 0x83. destruct (Z.eqb_spec i 512) as [->|H1]; [by vm_compute|].
    destruct (Z.eqb_spec i 0) as [->|H2]; [by vm_compute|]. rewrite !list_lookup_insert_ne by lia. rewrite lookup_replicate_2 by (unfold Vm.NPDENTRIES; lia). done. }
  unfold walk4m, KERNBASE. rewrite (VmProof.PDX_eq va Hva). rewrite Hz by (Z.div_mod_to_equations; lia).
  change (2 ^ 22) with 0x400000. change (2 ^ 32) with 0x100000000 in Hva.
  assert (E : (va / 0x400000 =? 0) || (va / 0x400000 =? 512) = (va <? 0x400000) || (0x80000000 <=? va) && (va <? 0x80000000 + 0x400000)).
  { apply eq_true_iff_eq. rewrite !orb_true_iff, andb_true_iff, !Z.eqb_eq, !Z.ltb_lt, Z.leb_le. Z.div_mod_to_equations. lia. }
  rewrite E. destruct (va <? 0x400000) eqn:E1; zbool; cbn [orb].
  - cbn. f_equal. Z.div_mod_to_equations. lia.
  - destruct ((0x80000000 <=? va) && (va <? 0x80000000 + 0x400000)) eqn:E2; [|done]. zbool. cbn. f_equal. Z.div_mod_to_equations. lia.
Qed.

(** C21: The other CPUs start.  When the boot memory has a page for each of them, [startothers]
    returns with every other CPU running: it has entered [mpenter], on a stack of its own
    taken from the free list, has loaded the kernel's descriptor tables, has set [started]
    and said so on the console.  The page table it enters with maps the first 4 MB, and maps
    its stack; that is why the pages above 4 MB are freed only afterwards.  The state of the
    boot CPU is unchanged. *)
Theorem startothers_starts_all (c : core) (v : Vm.vmvars) (p : Machine.mpvars) me fl text (m0 : mem) head (t : Seg.desctab) (q : apvars) (d : D) : bootable c p me fl ->
  Kalloc.chain m0 head fl -> Machine.bytes_at m0 eo_start (length eo) = eo -> Forall (fun x => 0 <= x < 256) eo -> eo_size = Z.of_nat (length eo) ->
  launched q = [] -> su_sent d = [] -> (forall i, started q i = 0) -> (busy q <= lat)%nat ->
  let os := others me (length (cpus c)) in
  exists head' m' t' q' d',
    startothers (D := D) wf mpenter_addr entrypgdir_addr eo_start eo_size
      (c, {| Kalloc.use_lock := false; Kalloc.freelist := head |}, {| ram_bytes := m0 |}, v, t, p, q, {| shown := text |}, d) =
    Ret tt (c, {| Kalloc.use_lock := false; Kalloc.freelist := head' |}, {| ram_bytes := m' |}, v, t', p, q',
      {| shown := text ++ concat (hello <$> os) |}, d') /\
    Kalloc.chain m' head' (drop (length os) fl) /\ launched q' = zip_with (launch_of c) os fl /\ Forall (running t' q') os /\
    NoDup (take (length os) fl) /\
    Forall (fun st => forall a, st <= a < st + KSTACKSIZE -> walk4m entrypgdir a = Some (V2P a)) (take (length os) fl).
Proof.
  intros Hb Hch Heo Hbytes Hsz Hla Hsu Hst Hbu os. pose proof Hb as [_ _ _ _ _ [HN Hf] Hk _ _ _].
  assert (H : wp (startothers (D := D) wf mpenter_addr entrypgdir_addr eo_start eo_size)
    (c, {| Kalloc.use_lock := false; Kalloc.freelist := head |}, {| ram_bytes := m0 |}, v, t, p, q, {| shown := text |}, d)
    (fun _ s' => turn c v p me fl text (length (cpus c)) s')).
  { unfold startothers, Vm.rmod, core_get. wp_step. mlens. cbn [ram_bytes].
    apply (wp_for_seq _ (turn c v p me fl text)); [|intros j s1 Hj; apply start_turn; [done | lia] | intros s1; done].
    eexists head, _, t, q, d. split; [cbn; by rewrite app_nil_r|]. rewrite Hla, Hsu. split_and!; try done.
    - cbn. eapply Kalloc.chain_frame; [|exact Hch]. intros w Hw. pose proof (proj1 (Forall_forall _ _) Hf w Hw) as [_ Hw2].
      unfold load32. rewrite !Str.memmove_effect by lia. repeat (rewrite (proj2 (andb_false_iff _ _)) by (right; apply Z.ltb_ge; lia)). done.
    - rewrite <- Heo at 2. unfold Machine.bytes_at. apply list_fmap_ext. intros i x Hx. apply lookup_seq in Hx as [-> Hi].
      rewrite Str.memmove_effect by lia. rewrite (proj2 (Z.leb_le _ _)), (proj2 (Z.ltb_lt _ _)) by lia. cbn [andb].
      replace (eo_start + (code + Z.of_nat (0 + i) - code)) with (eo_start + Z.of_nat (0 + i)) by lia. apply u8_small.
      apply (proj1 (Forall_lookup _ _) Hbytes i). rewrite <- Heo. unfold Machine.bytes_at. rewrite list_lookup_fmap, lookup_seq_lt by done. done. }
  destruct H as ([] & s' & E & head' & m' & t' & q' & d' & -> & H1 & _ & H2 & _ & H3 & _). exists head', m', t', q', d'.
  split_and!; [exact E | done | done | done | eapply sublist_NoDup; [exact HN | apply sublist_take] |].
  apply Forall_take. eapply Forall_impl; [exact Hf|]. intros st [Hal Hst'] a Ha. change code with 0x80007000 in Hk. change (P2V 0x400000) with 0x80400000 in Hst'.
  unfold KSTACKSIZE in Ha. unfold PGSIZE in Hal. assert (Ha2 : a < 0x80400000) by (Z.div_mod_to_equations; lia).
  rewrite entry_walk by lia. unfold V2P, KERNBASE. rewrite (proj2 (Z.ltb_ge a 0x400000)), (proj2 (Z.leb_le _ a)), (proj2 (Z.ltb_lt a _)) by lia.
  cbn [andb]. by rewrite u32_small by lia.
Qed.

End Proof.

(** *** An APIC *)

Record apic : Type := { ic_hi : Z; ic_sent : list (Z * Z) }.
Definition apic_l : Z := 0xfee00000.
Definition apic_store (a x : Z) (d : apic) : apic :=
  let h := icr_store apic_l a x (ic_hi d, ic_sent d) in {| ic_hi := h.1; ic_sent := h.2 |}.
#[local] Instance apic_machine : Machine apic := {|
  mc_outb := fun _ _ => mret tt; mc_inb := fun _ => mret 0; mc_load := fun _ => mret 0; mc_store := fun a x => modify (apic_store a x) |}.
#[local] Instance apic_startups : Startups apic := {| su_sent := ic_sent |}.
#[local] Instance apic_laws : ApicLaws apic apic_l.
Proof.
  refine {| ap_hi := ic_hi |}.
  - intros p x d Q H. apply wp_ret. by apply H.
  - intros a d Q H. apply wp_ret. by apply H.
  - intros a x d Q H. apply wp_modify, H. cbn. by destruct (icr_store _ _ _ _).
Defined.

(** Three CPUs, of which the second boots; three free pages; entry code of two bytes. *)
Definition mp_core : core :=
  {| hw_apicid := 4; hw_if := false; cpus := (fun i => set_ncli 0 {| apicid := i; ncli := 0; intena := false; cproc := None |}) <$> [0; 4; 2];
     locks := fun _ => {| locked := false; lcpu := None |}; procs := []; nextpid := 1; initproc := None |}.
Definition mp_mem : mem :=
  storeb (storeb (store32 (store32 (store32 ∅ 0x803ff000 0x803fe000) 0x803fe000 0x803fd000) 0x803fd000 0) 0x80108000 0xfa) 0x80108001 0xf4.
Definition mp_tables : Seg.desctab :=
  {| Seg.gdt := fun _ => []; Seg.ts := fun _ => {| Seg.esp0 := 0; Seg.ss0 := 0; Seg.iomb := 0 |}; Seg.gdtr := fun _ => None; Seg.idtr := fun _ => None;
     Seg.tr := fun _ => 0; Seg.idt := [] |}.

Lemma startothers_starts_all_witness : exists m' t' q' d',
  startothers (D := apic) (HA := boot_pages 0x80115000) (HO := aps 9 (fun i => 0x80112000 + 176 * Z.of_nat i) 0x80114000 0x80103000 3 [0xfa; 0xf4])
    9 0x80103000 0x80109000 0x80108000 2
    (mp_core, {| Kalloc.use_lock := false; Kalloc.freelist := 0x803ff000 |}, {| ram_bytes := mp_mem |},
     {| Vm.kpgdir := 0; Vm.cr3 := 0; Vm.esp0 := 0 |}, mp_tables, {| Machine.lapic := apic_l; Machine.ioapicid := 0 |},
     {| started := fun _ => 0; launched := []; busy := 1 |}, {| shown := [] |}, {| ic_hi := 0; ic_sent := [] |}) =
  Ret tt (mp_core, {| Kalloc.use_lock := false; Kalloc.freelist := 0x803fd000 |}, {| ram_bytes := m' |},
     {| Vm.kpgdir := 0; Vm.cr3 := 0; Vm.esp0 := 0 |}, t', {| Machine.lapic := apic_l; Machine.ioapicid := 0 |}, q', {| shown := hello 0 ++ hello 2 |}, d') /\
  la_stack <$> launched q' = [0x80400000; 0x803ff000] /\ la_id <$> launched q' = [0; 2].
Proof.
  destruct (startothers_starts_all (D := apic) apic_l 9 (fun i => 0x80112000 + 176 * Z.of_nat i) 0x80114000 0x80103000 0x80109000 0x80108000 2 0x80115000 3 [0xfa; 0xf4]
    mp_core {| Vm.kpgdir := 0; Vm.cr3 := 0; Vm.esp0 := 0 |} {| Machine.lapic := apic_l; Machine.ioapicid := 0 |} 1 [0x803ff000; 0x803fe000; 0x803fd000] [] mp_mem 0x803ff000
    mp_tables {| started := fun _ => 0; launched := []; busy := 1 |} {| ic_hi := 0; ic_sent := [] |}) as (head' & m' & t' & q' & d' & E & H1 & H2 & _).
  - split; try done.
    + refine (bool_decide_unpack _ _). by vm_compute.
    + refine (bool_decide_unpack _ _). by vm_compute.
    + vm_compute. lia.
    + split; refine (bool_decide_unpack _ _); by vm_compute.
    + lia.
    + split_and!; [|done..]. intros i Hi. cbn in Hi. lia.
  - cbn. split_and!; by vm_compute.
  - by vm_compute.
  - refine (bool_decide_unpack _ _). by vm_compute.
  - done.
  - done.
  - done.
  - done.
  - cbn. lia.
  - exists m', t', q', d'. cbn in H1. destruct H1 as (-> & _). split; [exact E|]. rewrite H2. split; by vm_compute.
Defined.

End MainProof.
