(* ===== verification/Cmds.v ===== *)
(** * The commands: user programs as interaction trees

    A user program talks to the kernel by system calls; it is an interaction tree whose events
    are the calls and whose branches are their results.  [init] and loops that read until the
    end of a file are loops of the tree ([ITree.iter]).  A C string is the list of its bytes
    before the NUL; [argv] is the list of the arguments. *)

From stdpp Require Import base gmap list strings.
From Stdlib Require Import ZArith Lia.
From S2P Require Import Prelude CString Format Fs Sh UserProgs.
From ITree Require Import ITree.

(** ** System calls, with the buffers that they fill as results *)

Variant sysE : Type -> Type :=
| Fork : sysE Z
| Exit : sysE void
| Wait : sysE Z
| Pipe : sysE (Z * (Z * Z))
| Write (fd : Z) (buf : list Z) : sysE Z
| Read (fd n : Z) : sysE (Z * list Z)
| Close (fd : Z) : sysE Z
| Kill (pid : Z) : sysE Z
| Exec (path : list Z) (argv : list (list Z)) : sysE Z
| Open (path : list Z) (mode : Z) : sysE Z
| Mknod (path : list Z) (major minor : Z) : sysE Z
| Unlink (path : list Z) : sysE Z
| Fstat (fd : Z) : sysE (Z * Fs.stat)
| Link (old new : list Z) : sysE Z
| Mkdir (path : list Z) : sysE Z
| Chdir (path : list Z) : sysE Z
| Dup (fd : Z) : sysE Z
| Getpid : sysE Z
| Sbrk (n : Z) : sysE Z
| Sleep (n : Z) : sysE Z
| Uptime : sysE Z
| Greeting : sysE Z.

Abbreviation prog := (itree sysE).
#[export] Instance prog_ret : MRet prog := fun A a => Ret a.
#[export] Instance prog_bind : MBind prog := fun A B f t => ITree.bind t f.

(** Loops over a list, in order, and [while (body)]. *)
Fixpoint each {A} (f : A -> prog unit) (l : list A) : prog unit :=
  match l with
  | [] => mret tt
  | x :: l' => f x;; each f l'
  end.
Definition while (body : prog bool) : prog unit :=
  ITree.iter (fun _ => b ← body; mret (if (b : bool) then inl tt else inr tt)) tt.

Abbreviation call e := (ITree.trigger e).
Definition exit {A} : prog A := v ← call Exit; match (v : void) with end.

(** The result that is tested and dropped. *)
Definition drop_result {A} (t : prog A) : prog unit := t;; mret tt.

Module Cmds.

(** ** printf.c *)

Inductive arg : Type := AInt (x : Z) | AStr (s : list Z).

Definition int_of (a : arg) : Z := match a with AInt x => x | AStr _ => 0 end.
Definition str_of (a : arg) : list Z := match a with AStr s => s | AInt _ => [] end.
Definition next (l : list arg) : arg := hd (AInt 0) l.

(** The characters of a format: [Fmt.uprintf] with the strings as arguments. *)
Fixpoint fmt_bytes (pct : bool) (fmt : list Z) (l : list arg) {struct fmt} : list Z :=
  match fmt with
  | [] => []
  | c :: fmt1 =>
      if negb pct then
        if c =? ch_percent then fmt_bytes true fmt1 l
        else c :: fmt_bytes false fmt1 l
      else if c =? 100 then Int.uprintint (s32 (int_of (next l))) 10 true ++ fmt_bytes false fmt1 (tl l)
      else if (c =? 120) || (c =? 112) then Int.uprintint (s32 (int_of (next l))) 16 false ++ fmt_bytes false fmt1 (tl l)
      else if c =? 115 then str_of (next l) ++ fmt_bytes false fmt1 (tl l)
      else if c =? 99 then u8 (int_of (next l)) :: fmt_bytes false fmt1 (tl l)
      else if c =? ch_percent then c :: fmt_bytes false fmt1 l
      else ch_percent :: c :: fmt_bytes false fmt1 l
  end.

Definition putc (fd c : Z) : prog unit := drop_result (call (Write fd [c])).
Definition puts (fd : Z) (l : list Z) : prog unit := each (putc fd) l.
Definition printf (fd : Z) (fmt : string) (l : list arg) : prog unit := puts fd (fmt_bytes false (bytes_of_string fmt) l).
(** A format that ends in a newline. *)
Definition println (fd : Z) (fmt : string) (l : list arg) : prog unit :=
  puts fd (fmt_bytes false (bytes_of_string fmt ++ [ch_nl]) l).

(** ** ulib.c *)

Definition ustat (path : list Z) : prog (Z * option Fs.stat) :=
  fd ← call (Open path 0);
  if fd <? 0 then mret (-1, None)
  else
    r ← call (Fstat fd);
    call (Close fd);;
    mret (fst r, Some (snd r)).

(** The numeral at the head of a string ([uatoi]). *)
Fixpoint atoi_from (n : Z) (s : list Z) : Z :=
  match s with
  | [] => n
  | c :: s' => if (48 <=? s8 c) && (s8 c <=? 57) then atoi_from (s32 (n * 10 + s8 c - 48)) s' else n
  end.
Definition atoi (s : list Z) : Z := atoi_from 0 s.

(** ** echo.c *)

Fixpoint echo_args (l : list (list Z)) : prog unit :=
  match l with
  | [] => mret tt
  | a :: l' => printf 1 "%s%s" [AStr a; AStr (match l' with [] => [ch_nl] | _ => [ch_space] end)];; echo_args l'
  end.
Definition echo (argv : list (list Z)) : prog unit := echo_args (tl argv);; exit.

(** ** ln.c, rm.c, mkdir.c, kill.c *)

Definition ln (argv : list (list Z)) : prog unit :=
  match argv with
  | [_; a; b] =>
      r ← call (Link a b);
      (if r <? 0 then println 2 "link %s %s: failed" [AStr a; AStr b] else mret tt);;
      exit
  | _ => println 2 "Usage: ln old new" [];; exit
  end.

(** The loop of [rm] and of [mkdir], which stops at the first failure. *)
Fixpoint until_failure (f : list Z -> prog Z) (failed : list Z -> prog unit) (l : list (list Z)) : prog unit :=
  match l with
  | [] => mret tt
  | a :: l' => r ← f a; if r <? 0 then failed a else until_failure f failed l'
  end.

Definition rm (argv : list (list Z)) : prog unit :=
  if zlen argv <? 2 then println 2 "Usage: rm files..." [];; exit
  else until_failure (fun a => call (Unlink a)) (fun a => println 2 "rm: %s failed to delete" [AStr a]) (tl argv);; exit.

Definition mkdir (argv : list (list Z)) : prog unit :=
  if zlen argv <? 2 then println 2 "Usage: mkdir files..." [];; exit
  else until_failure (fun a => call (Mkdir a)) (fun a => println 2 "mkdir: %s failed to create" [AStr a]) (tl argv);; exit.

Definition kill (argv : list (list Z)) : prog unit :=
  if zlen argv <? 2 then println 2 "usage: kill pid..." [];; exit
  else each (fun a => drop_result (call (Kill (atoi a)))) (tl argv);; exit.

(** ** cat.c, wc.c, grep.c *)

(** [cat], with its buffer as the result of [read]. *)
Definition cat_fd (fd : Z) : prog unit :=
  while (
    r ← call (Read fd 512);
    let '(n, buf) := r in
    if 0 <? n then
      w ← call (Write 1 (take (Z.to_nat n) buf));
      if negb (w =? n) then println 1 "cat: write error" [];; exit
      else mret true
    else if n <? 0 then println 1 "cat: read error" [];; exit
    else mret false).

(** The files of a command line, which must all open. *)
Definition each_file (msg : string) (f : Z -> list Z -> prog unit) (l : list (list Z)) : prog unit :=
  each (fun a =>
    fd ← call (Open a 0);
    if fd <? 0 then println 1 msg [AStr a];; exit
    else f fd a;; drop_result (call (Close fd))) l.

Definition cat (argv : list (list Z)) : prog unit :=
  if zlen argv <=? 1 then cat_fd 0;; exit
  else each_file "cat: cannot open %s" (fun fd _ => cat_fd fd) (tl argv);; exit.

(** [wc] carries its counts through the loop. *)
Definition wc_fd (fd : Z) (name : list Z) : prog unit :=
  k ← ITree.iter (fun k =>
    r ← call (Read fd 512);
    let '(n, buf) := r in
    if 0 <? n then mret (inl (foldl Wc.wc_char k (take (Z.to_nat n) buf)))
    else if n <? 0 then println 1 "wc: read error" [];; exit
    else mret (inr k)) {| Wc.wl := 0; Wc.ww := 0; Wc.wc_ := 0; Wc.winword := false |};
  println 1 "%d %d %d %s" [AInt (Wc.wl k); AInt (Wc.ww k); AInt (Wc.wc_ k); AStr name].

Definition wc (argv : list (list Z)) : prog unit :=
  if zlen argv <=? 1 then wc_fd 0 [];; exit
  else each_file "wc: cannot open %s" wc_fd (tl argv);; exit.

(** The lines of the buffer are written one by one ([q + 1 - p] bytes each). *)
Fixpoint grep_writes (fuel : nat) (pattern p : list Z) : prog (list Z) :=
  match fuel with
  | O => mret p
  | S f =>
      match Grep.split_line p with
      | None => mret p
      | Some (line, rest) =>
          (if Grep.rematch pattern line then drop_result (call (Write 1 (line ++ [ch_nl]))) else mret tt);;
          grep_writes f pattern rest
      end
  end.

(** [carry] is the incomplete line at the start of the buffer; a pass that finds no newline
    drops it. *)
Definition grep_fd (pattern : list Z) (fd : Z) : prog unit :=
  ITree.iter (fun carry =>
    r ← call (Read fd (Grep.BUFSZ - zlen carry - 1));
    let '(n, buf) := r in
    if 0 <? n then
      let text := carry ++ take (Z.to_nat n) buf in
      p ← grep_writes (S (length text)) pattern text;
      mret (inl (if (length p =? length text)%nat then [] else p))
    else mret (inr tt)) [].

Definition grep (argv : list (list Z)) : prog unit :=
  match argv with
  | [] | [_] => println 2 "usage: grep pattern [file ...]" [];; exit
  | [_; pattern] => grep_fd pattern 0;; exit
  | _ :: pattern :: files => each_file "grep: cannot open %s" (fun fd _ => grep_fd pattern fd) files;; exit
  end.

(** ** ls.c *)

Definition DIRSIZ : Z := 14.
Definition ch_slash : Z := 47.

(** The bytes after the last slash. *)
Fixpoint after_slash (path : list Z) : list Z :=
  match path with
  | [] => []
  | c :: path' => if bool_decide (ch_slash ∈ path') then after_slash path' else if c =? ch_slash then path' else path
  end.

(** The name, padded with blanks to the size of the static buffer. *)
Definition fmtname (path : list Z) : list Z :=
  let p := after_slash path in
  if DIRSIZ <=? zlen p then p else p ++ replicate (Z.to_nat (DIRSIZ - zlen p)) ch_space.

Definition ls_line (path : list Z) (st : Fs.stat) : prog unit :=
  println 1 "%s %d %d %d" [AStr (fmtname path); AInt (Fs.st_type st); AInt (Fs.st_ino st); AInt (Fs.st_size st)].

Definition sizeof_dirent : Z := 16.

(** One turn of the loop over a directory; [buf] is the path with its slash. *)
Definition ls_entry (fd : Z) (buf : list Z) : prog bool :=
  r ← call (Read fd sizeof_dirent);
  let '(n, de) := r in
  if negb (n =? sizeof_dirent) then mret false
  else if Fs.dirent_inum de =? 0 then mret true
  else
    let name := buf ++ Sh.cstr_of (Fs.dirent_name de) in
    r ← ustat name;
    match r with
    | (r, Some st) =>
        (if r <? 0 then println 1 "ls: cannot stat %s" [AStr name] else ls_line name st);; mret true
    | (_, None) => println 1 "ls: cannot stat %s" [AStr name];; mret true
    end.

Definition ls_path (path : list Z) : prog unit :=
  fd ← call (Open path 0);
  if fd <? 0 then println 2 "ls: cannot open %s" [AStr path]
  else
    r ← call (Fstat fd);
    let '(r, st) := r in
    if r <? 0 then println 2 "ls: cannot stat %s" [AStr path];; drop_result (call (Close fd))
    else
      (if Fs.st_type st =? Fs.T_FILE then ls_line path st
       else if Fs.st_type st =? Fs.T_DIR then
         if 512 <? zlen path + 1 + DIRSIZ + 1 then println 1 "ls: path too long" []
         else while (ls_entry fd (path ++ [ch_slash]))
       else mret tt);;
      drop_result (call (Close fd)).

Definition ls (argv : list (list Z)) : prog unit :=
  if zlen argv <? 2 then ls_path (bytes_of_string ".");; exit
  else each ls_path (tl argv);; exit.

(** ** init.c, zombie.c, hello.c, add.c and adder.c *)

(** The wait of [init] for its shell, of the process [pid]. *)
Definition await (pid : Z) : prog unit :=
  while (
    wpid ← call Wait;
    if (0 <=? wpid) && negb (wpid =? pid) then println 1 "zombie!" [];; mret true else mret false).

(** One turn of the endless loop of [init]. *)
Definition init_turn : prog unit :=
  println 1 "init: starting sh" [];;
  pid ← call Fork;
  if pid <? 0 then println 1 "init: fork failed" [];; exit
  else if pid =? 0 then
    call (Exec (bytes_of_string "sh") [bytes_of_string "sh"]);;
    println 1 "init: exec sh failed" [];;
    exit
  else await pid.

Definition init_loop : prog void := ITree.iter (fun _ => init_turn;; mret (inl tt)) tt.

(** The console as the three standard descriptors. *)
Definition init_console : prog unit :=
  fd ← call (Open (bytes_of_string "console") Sh.O_RDWR);
  (if fd <? 0 then
     call (Mknod (bytes_of_string "console") 1 1);;
     drop_result (call (Open (bytes_of_string "console") Sh.O_RDWR))
   else mret tt);;
  call (Dup 0);;
  drop_result (call (Dup 0)).
Definition init : prog void := init_console;; init_loop.

Definition zombie : prog unit :=
  pid ← call Fork;
  (if 0 <? pid then drop_result (call (Sleep 5)) else mret tt);;
  exit.

Definition hello : prog unit := call Greeting;; exit.

(** adder.c *)
Definition add (a b : Z) : Z := s32 (a + b).
Definition test : prog Z := printf 1 "Tested!" [];; mret 0.
(** add.c *)
Definition add_main : prog unit := println 1 "%d" [AInt (add 1 3)];; exit.

(** ** forktest.c and stressfs.c *)

Definition N : nat := 1000.

(** [forktest] has a [printf] of its own, which writes the format at once. *)
Definition ft_printf (fd : Z) (s : list Z) : prog unit := drop_result (call (Write fd s)).
Definition line (s : string) : list Z := bytes_of_string s ++ [ch_nl].

(** The first loop, from [n] on with [k] turns left: the number of children. *)
Fixpoint ft_forks (k n : nat) : prog nat :=
  match k with
  | O => mret n
  | S k' =>
      pid ← call Fork;
      if pid <? 0 then mret n
      else if pid =? 0 then exit
      else ft_forks k' (S n)
  end.

Fixpoint ft_waits (n : nat) : prog unit :=
  match n with
  | O => mret tt
  | S n' =>
      r ← call Wait;
      if r <? 0 then ft_printf 1 (line "wait stopped early");; exit
      else ft_waits n'
  end.

Definition forktest : prog unit :=
  ft_printf 1 (line "fork test");;
  n ← ft_forks N 0;
  if (n =? N)%nat then ft_printf 1 (line "fork claimed to work N times!");; exit
  else
    ft_waits n;;
    r ← call Wait;
    if negb (r =? -1) then ft_printf 1 (line "wait got too many");; exit
    else ft_printf 1 (line "fork test OK").

Definition forktest_main : prog unit := forktest;; exit.

(** [stressfs]: up to four forks, each process but the last is the parent of the next. *)
Fixpoint stress_forks (k : nat) (i : Z) : prog Z :=
  match k with
  | O => mret i
  | S k' => pid ← call Fork; if 0 <? pid then mret i else stress_forks k' (i + 1)
  end.

Definition stressfs : prog unit :=
  println 1 "stressfs starting" [];;
  let data := replicate 512 97 in
  i ← stress_forks 4 0;
  println 1 "write %d" [AInt i];;
  let path := bytes_of_string "stressfs" ++ [u8 (48 + i)] in
  fd ← call (Open path (Z.lor Sh.O_CREATE Sh.O_RDWR));
  each (fun _ => drop_result (call (Write fd data))) (seq 0 20);;
  call (Close fd);;
  println 1 "read" [];;
  fd ← call (Open path Sh.O_RDONLY);
  each (fun _ => drop_result (call (Read fd 512))) (seq 0 20);;
  call (Close fd);;
  call Wait;;
  exit.

End Cmds.
