(* ===== verification/CmdsProof.v ===== *)
(** * The commands: what they do

    Programs are run by a handler of their system calls that keeps the state of a small
    world; [≈] says that the run ends with this state and this result, so that the theorems
    include termination. *)

From stdpp Require Import base gmap list strings.
From Stdlib Require Import ZArith Lia.
From S2P Require Import Prelude CString Format Fs Sh UserProgs Cmds.
From ITree Require Import ITree ITreeFacts Events.State Events.StateFacts.
Import Cmds.

Module CmdsProof.

(** The end of a process, with the state at that time. *)
Variant exitE (St : Type) : Type -> Type := Exited (s : St) : exitE St void.
Arguments Exited {St} _.

Abbreviation world St := (Monads.stateT St (itree (exitE St))).
Definition ended {St A} (s : St) : itree (exitE St) A := Vis (Exited s) (fun v : void => match v with end).

Section Handler.
Context {St : Type} (h : forall X, sysE X -> world St X).
Abbreviation run t s := (interp_state h t s).

Lemma run_ret {A} (a : A) s : run (mret a) s ≈ Ret (s, a).
Proof. apply eq_sub_eutt, interp_state_ret. Qed.
Lemma run_bind {A B} (t : prog A) (k : A -> prog B) s : run (t ≫= k) s ≈ ITree.bind (run t s) (fun r => run (k (snd r)) (fst r)).
Proof. apply eq_sub_eutt, interp_state_bind. Qed.
(** A step that returns. *)
Lemma run_step {A B} (t : prog A) (k : A -> prog B) s s' a : run t s ≈ Ret (s', a) -> run (t ≫= k) s ≈ run (k a) s'.
Proof. intros H. rewrite run_bind, H. by rewrite bind_ret_l. Qed.
Lemma run_call {A B} (e : sysE A) (k : A -> prog B) s s' a : h _ e s = Ret (s', a) -> run (ITree.trigger e ≫= k) s ≈ run (k a) s'.
Proof. intros H. apply run_step. rewrite interp_state_trigger, H. reflexivity. Qed.
Lemma run_drop {A} (e : sysE A) s s' a : h _ e s = Ret (s', a) -> run (drop_result (ITree.trigger e)) s ≈ Ret (s', tt).
Proof. intros H. unfold drop_result. rewrite (run_call _ _ _ _ _ H). apply run_ret. Qed.

Lemma run_each {A} (f : A -> prog unit) (g : St -> A -> St) (l : list A) : forall s,
  (forall s a, a ∈ l -> run (f a) s ≈ Ret (g s a, tt)) -> run (each f l) s ≈ Ret (foldl g s l, tt).
Proof.
  induction l as [|a l IH]; intros s Hf; cbn [each foldl]; [apply run_ret|]. rewrite (run_step _ _ _ _ _ (Hf s a (list_elem_of_here _ _))).
  apply IH. intros s' a' Ha'. apply Hf. by right.
Qed.

(** One turn of a loop. *)
Lemma run_while_true body s s' : run body s ≈ Ret (s', true) -> run (while body) s ≈ run (while body) s'.
Proof.
  intros H. unfold while at 1. rewrite unfold_iter. change (ITree.bind ?t ?k) with (mbind k t). rewrite run_bind, run_bind, H, bind_ret_l.
  cbn [fst snd]. rewrite run_ret, bind_ret_l. cbn [fst snd]. rewrite interp_state_tau, tau_eutt. reflexivity.
Qed.
Lemma run_while_false body s s' : run body s ≈ Ret (s', false) -> run (while body) s ≈ Ret (s', tt).
Proof.
  intros H. unfold while at 1. rewrite unfold_iter. change (ITree.bind ?t ?k) with (mbind k t). rewrite run_bind, run_bind, H, bind_ret_l.
  cbn [fst snd]. rewrite run_ret, bind_ret_l. cbn [fst snd]. apply run_ret.
Qed.

End Handler.
(** ** printf

    The formats of [Cmds] are those of printf.c ([Fmt.uprintf]) on a memory that holds the
    strings, when the arguments have the types that the format asks for. *)

Fixpoint well_typed (pct : bool) (fmt : list Z) (l : list arg) : Prop :=
  match fmt with
  | [] => True
  | c :: fmt1 =>
      if negb pct then well_typed (c =? ch_percent) fmt1 l
      else if (c =? 100) || (c =? 120) || (c =? 112) || (c =? 99) then
        match l with AInt _ :: l' => well_typed false fmt1 l' | _ => False end
      else if c =? 115 then match l with AStr _ :: l' => well_typed false fmt1 l' | _ => False end
      else well_typed false fmt1 l
  end.

Definition arg_at (m : mem) (fuel : nat) (a : arg) (v : Z) : Prop :=
  match a with AInt x => v = x | AStr s => v <> 0 /\ Fmt.read_cstr fuel m v = s end.

Lemma fmt_bytes_uprintf m fuel fmt : forall pct l vs, well_typed pct fmt l -> Forall2 (arg_at m fuel) l vs ->
  fmt_bytes pct fmt l = Fmt.uprintf m fuel pct fmt vs.
Proof.
  induction fmt as [|c fmt IH]; intros pct l vs Hw Ha; [done|]. cbn [fmt_bytes Fmt.uprintf well_typed] in *. destruct pct; cbn [negb] in *.
  2: { destruct (c =? ch_percent); [by apply IH | f_equal; by apply IH]. }
  destruct (c =? 100) eqn:E1, (c =? 120) eqn:E2, (c =? 112) eqn:E3, (c =? 99) eqn:E4, (c =? 115) eqn:E5; zbool; try lia; cbn [orb] in *;
    try (destruct l as [|[x|x] l]; [done | |]; try done; inversion_clear Ha as [|? v ? vs' Hv Hvs]; cbn [next hd tl Fmt.next_arg int_of str_of arg_at] in *).
  - subst. f_equal. by apply IH.
  - subst. f_equal. by apply IH.
  - subst. f_equal. by apply IH.
  - subst. f_equal. by apply IH.
  - destruct Hv as [Hv0 <-]. unfold Fmt.string_arg. rewrite (proj2 (Z.eqb_neq _ _) Hv0). f_equal. by apply IH.
  - destruct (c =? ch_percent); [f_equal | do 2 f_equal]; by apply IH.
Qed.

(** ** A world with files *)

(** Open files with their paths and offsets, and what has been written to the standard
    descriptors. *)
Record ust : Type := { fds : gmap Z (list Z * Z); out : list Z; err : list Z }.
Definition set_fds (t : gmap Z (list Z * Z)) (s : ust) : ust := {| fds := t; out := out s; err := err s |}.
Definition say (l : list Z) (s : ust) : ust := {| fds := fds s; out := out s ++ l; err := err s |}.
Definition complain (l : list Z) (s : ust) : ust := {| fds := fds s; out := out s; err := err s ++ l |}.

Definition lowest (t : gmap Z (list Z * Z)) : option Z :=
  head (filter (fun i => t !! i = None) (Z.of_nat <$> seq 0 16)).

Section Files.
(** The files: status and contents. *)
Context (fs : list Z -> option (Fs.stat * list Z)).

Definition no_stat : Fs.stat := {| Fs.st_type := 0; Fs.st_dev := 0; Fs.st_ino := 0; Fs.st_nlink := 0; Fs.st_size := 0 |}.
Definition file_at (s : ust) (fd : Z) : option (Fs.stat * list Z * Z) :=
  match fds s !! fd with
  | Some (p, o) => match fs p with Some (st, d) => Some (st, d, o) | None => None end
  | None => None
  end.

(** Files are open for reading only; calls that do not concern them fail. *)
Definition files (X : Type) (e : sysE X) : world ust X :=
  fun s => match e in sysE Y return itree (exitE ust) (ust * Y) with
  | Exit => ended s
  | Write fd buf => if fd =? 1 then Ret (say buf s, zlen buf) else if fd =? 2 then Ret (complain buf s, zlen buf) else Ret (s, -1)
  | Open p mode =>
      match fs p, lowest (fds s) with Some _, Some fd => Ret (set_fds (<[fd := (p, 0)]> (fds s)) s, fd) | _, _ => Ret (s, -1) end
  | Close fd => match fds s !! fd with Some _ => Ret (set_fds (delete fd (fds s)) s, 0) | None => Ret (s, -1) end
  | Fstat fd => match file_at s fd with Some (st, _, _) => Ret (s, (0, st)) | None => Ret (s, (-1, no_stat)) end
  | Read fd n =>
      match file_at s fd, fds s !! fd with
      | Some (_, d, o), Some (p, _) =>
          let l := take (Z.to_nat n) (drop (Z.to_nat o) d) in
          Ret (set_fds (<[fd := (p, o + zlen l)]> (fds s)) s, (zlen l, l))
      | _, _ => Ret (s, (-1, []))
      end
  | Pipe => Ret (s, (-1, (0, 0)))
  | _ => Ret (s, -1)
  end.
Abbreviation run t s := (interp_state files t s).

Lemma run_puts l : forall s, run (puts 1 l) s ≈ Ret (say l s, tt).
Proof.
  induction l as [|c l IH]; intros s; cbn [puts each].
  - rewrite run_ret. unfold say. rewrite app_nil_r. by destruct s.
  - rewrite (run_step _ _ _ _ (say [c] s) tt) by (by apply (run_drop _ _ _ _ 1)). fold (puts 1 l). rewrite IH. unfold say. cbn [out fds err].
    by rewrite <- app_assoc.
Qed.
Lemma run_puts2 l : forall s, run (puts 2 l) s ≈ Ret (complain l s, tt).
Proof.
  induction l as [|c l IH]; intros s; cbn [puts each].
  - rewrite run_ret. unfold complain. rewrite app_nil_r. by destruct s.
  - rewrite (run_step _ _ _ _ (complain [c] s) tt) by (by apply (run_drop _ _ _ _ 1)). fold (puts 2 l). rewrite IH. unfold complain. cbn [out fds err].
    by rewrite <- app_assoc.
Qed.

Lemma lowest_Some t fd : lowest t = Some fd -> t !! fd = None /\ 0 <= fd < 16.
Proof.
  unfold lowest. intros H. destruct (filter _ _) as [|x l] eqn:E; [done|]. cbn in H. injection H as ->.
  assert (Hx : fd ∈ filter (fun i => t !! i = None) (Z.of_nat <$> seq 0 16)) by (rewrite E; by left).
  apply list_elem_of_filter in Hx as [H1 H2]. split; [done|]. apply list_elem_of_fmap in H2 as (k & -> & Hk). apply elem_of_seq in Hk. lia.
Qed.

(** [stat] opens and closes a descriptor. *)
Lemma run_ustat p s fd : lowest (fds s) = Some fd ->
  run (ustat p) s ≈ Ret (s, match fs p with Some (st, _) => (0, Some st) | None => (-1, None) end).
Proof.
  intros Hlo. destruct (lowest_Some _ _ Hlo) as [Hn Hr]. unfold ustat. destruct (fs p) as [[st d]|] eqn:Ep.
  - rewrite (run_call _ _ _ _ (set_fds (<[fd := (p, 0)]> (fds s)) s) fd) by (cbn; by rewrite Ep, Hlo).
    rewrite (proj2 (Z.ltb_ge _ _)) by lia. rewrite (run_call _ _ _ _ (set_fds (<[fd := (p, 0)]> (fds s)) s) (0, st)).
    2: { cbn. unfold file_at. cbn [fds set_fds]. by rewrite lookup_insert_eq, Ep. }
    rewrite (run_call _ _ _ _ s 0); [apply run_ret|]. cbn. rewrite lookup_insert_eq. unfold set_fds. cbn [fds out err].
    rewrite delete_insert_id by done. by destruct s.
  - rewrite (run_call _ _ _ _ s (-1)) by (cbn; by rewrite Ep). cbn. apply run_ret.
Qed.

(** *** ls *)

Lemma lowest_insert t fd x : is_Some (t !! fd) -> lowest (<[fd := x]> t) = lowest t.
Proof.
  intros [y Hy]. unfold lowest. f_equal. apply list_filter_iff. intros i. destruct (decide (i = fd)) as [->|Hne].
  - rewrite lookup_insert_eq, Hy. split; discriminate.
  - by rewrite lookup_insert_ne.
Qed.

#[local] Opaque fmt_bytes.

(** The line for a path, and what [ls] prints for a directory entry. *)
Definition line_text (column : list Z) (st : Fs.stat) : list Z :=
  fmt_bytes false (bytes_of_string "%s %d %d %d" ++ [ch_nl])
    [AStr column; AInt (Fs.st_type st); AInt (Fs.st_ino st); AInt (Fs.st_size st)].
Definition pad (name : list Z) : list Z := name ++ replicate (14 - length name) ch_space.
Definition entry_name (de : list Z) : list Z := Sh.cstr_of (Fs.dirent_name de).
Definition entry_text (path de : list Z) : list Z :=
  if Fs.dirent_inum de =? 0 then []
  else let file := path ++ [ch_slash] ++ entry_name de in
    match fs file with
    | Some (st, _) => line_text (pad (entry_name de)) st
    | None => fmt_bytes false (bytes_of_string "ls: cannot stat %s" ++ [ch_nl]) [AStr file]
    end.
Definition entry_ok (de : list Z) : Prop := length de = 16%nat /\ ch_slash ∉ entry_name de.

Lemma after_slash_name p n : ch_slash ∉ n -> after_slash (p ++ ch_slash :: n) = n.
Proof.
  intros Hn. induction p as [|c p IH]; cbn [app after_slash].
  - by rewrite bool_decide_false, Z.eqb_refl by done.
  - rewrite bool_decide_true; [done|]. apply elem_of_app. right. by left.
Qed.
Lemma fmtname_entry p n : ch_slash ∉ n -> (length n <= 14)%nat -> fmtname (p ++ ch_slash :: n) = pad n.
Proof.
  intros Hn Hl. unfold fmtname, pad, zlen, DIRSIZ. rewrite after_slash_name by done. case_bool; zbool.
  - replace (14 - length n)%nat with 0%nat by lia. by rewrite app_nil_r.
  - do 2 f_equal. lia.
Qed.
Lemma cstr_of_length l : (length (Sh.cstr_of l) <= length l)%nat.
Proof. induction l as [|c l IH]; cbn; [done|]. case_bool; cbn; lia. Qed.

Lemma run_line p st s : run (ls_line p st) s ≈ Ret (say (line_text (fmtname p) st) s, tt).
Proof. unfold ls_line, println, line_text. apply run_puts. Qed.

Lemma take_chunk (es : list (list Z)) : forall k de, Forall (fun e => length e = 16%nat) es -> es !! k = Some de ->
  take 16 (drop (16 * k) (concat es)) = de.
Proof.
  induction es as [|e es IH]; intros k de Hl Hk; [done|]. inversion_clear Hl as [|? ? He Hes]. destruct k as [|k]; cbn in Hk.
  - injection Hk as ->. change (16 * 0)%nat with 0%nat. cbn [concat drop]. rewrite <- He. apply take_app_length.
  - replace (16 * S k)%nat with (length e + 16 * k)%nat by lia. cbn [concat]. rewrite drop_app_add. by apply IH.
Qed.
Lemma concat_len (es : list (list Z)) : Forall (fun e => length e = 16%nat) es -> length (concat es) = (16 * length es)%nat.
Proof. induction 1 as [|e es He _ IH]; [done|]. cbn [concat length]. rewrite length_app. lia. Qed.

Definition at_entry (fd : Z) (path : list Z) (k : nat) (s : ust) : ust := set_fds (<[fd := (path, 16 * Z.of_nat k)]> (fds s)) s.

Lemma say_nil s : say [] s = s.
Proof. unfold say. rewrite app_nil_r. by destruct s. Qed.

Lemma ls_turn fd path st es k de s fd2 : fs path = Some (st, concat es) -> Forall entry_ok es -> es !! k = Some de ->
  lowest (<[fd := (path, 0)]> (fds s)) = Some fd2 ->
  run (ls_entry fd (path ++ [ch_slash])) (at_entry fd path k s) ≈ Ret (say (entry_text path de) (at_entry fd path (S k) s), true).
Proof.
  intros Hp Hok Hk Hlo. destruct (proj1 (Forall_lookup _ _) Hok k de Hk) as [Hde Hsl].
  assert (Hl : Forall (fun e => length e = 16%nat) es) by (eapply Forall_impl; [exact Hok | by intros ? []]).
  assert (Hlo' : lowest (fds (at_entry fd path (S k) s)) = Some fd2).
  { cbn. rewrite <- Hlo, <- (lowest_insert (<[fd := (path, 0)]> (fds s)) fd (path, 16 * Z.of_nat (S k))) by (rewrite lookup_insert_eq; eauto).
    by rewrite insert_insert_eq. }
  unfold ls_entry. rewrite (run_call _ _ _ _ (at_entry fd path (S k) s) (16, de)).
  2: { cbn. unfold file_at. cbn [fds at_entry set_fds]. rewrite lookup_insert_eq, Hp. change (Z.to_nat sizeof_dirent) with 16%nat.
       replace (Z.to_nat (16 * Z.of_nat k)) with (16 * k)%nat by lia. rewrite (take_chunk es k de Hl Hk). unfold at_entry, set_fds, zlen. cbn [fds out err].
       rewrite insert_insert_eq, Hde. by replace (16 * Z.of_nat k + Z.of_nat 16) with (16 * Z.of_nat (S k)) by lia. }
  cbn [Z.eqb negb sizeof_dirent Pos.eqb]. unfold entry_text. destruct (Fs.dirent_inum de =? 0); [rewrite say_nil; apply run_ret|].
  rewrite <- !app_assoc. cbn [app]. fold (entry_name de). set (name := path ++ ch_slash :: entry_name de). cbv zeta.
  rewrite (run_step _ _ _ _ _ _ (run_ustat name _ fd2 Hlo')). destruct (fs name) as [[st' d']|]; cbn [Z.ltb Z.compare].
  - rewrite (run_step _ _ _ _ _ _ (run_line _ _ _)). unfold name. rewrite fmtname_entry; [apply run_ret | done |].
    unfold entry_name, Fs.dirent_name. etransitivity; [apply cstr_of_length|]. rewrite length_drop. lia.
  - unfold println. rewrite (run_step _ _ _ _ _ _ (run_puts _ _)). apply run_ret.
Qed.

Lemma ls_loop fd path st es fd2 : fs path = Some (st, concat es) -> Forall entry_ok es -> forall k s,
  lowest (<[fd := (path, 0)]> (fds s)) = Some fd2 -> (k <= length es)%nat ->
  run (while (ls_entry fd (path ++ [ch_slash]))) (at_entry fd path k s) ≈
  Ret (say (concat (entry_text path <$> drop k es)) (at_entry fd path (length es) s), tt).
Proof.
  intros Hp Hl k. remember (length es - k)%nat as n eqn:En. revert k En. induction n as [|n IH]; intros k En s Hlo Hk.
  - assert (k = length es) as -> by lia. rewrite drop_ge by lia. cbn [fmap list_fmap concat]. rewrite say_nil. apply run_while_false. unfold ls_entry.
    rewrite (run_call _ _ _ _ (at_entry fd path (length es) s) (0, [])); [apply run_ret|]. cbn. unfold file_at. cbn [fds at_entry set_fds].
    rewrite lookup_insert_eq, Hp, drop_ge by (rewrite concat_len by (eapply Forall_impl; [exact Hl | by intros ? []]); lia). cbn [take]. rewrite take_nil. unfold at_entry, set_fds. cbn [fds out err].
    rewrite insert_insert_eq. change (zlen (@nil Z)) with 0. by rewrite Z.add_0_r.
  - assert (Hk' : (k < length es)%nat) by lia. apply lookup_lt_is_Some in Hk' as [de Hde].
    rewrite (run_while_true _ _ _ _ (ls_turn fd path st es k de s fd2 Hp Hl Hde Hlo)).
    change (say ?l (at_entry fd path (S k) s)) with (at_entry fd path (S k) (say l s)). rewrite (IH (S k)); [|lia | done | lia].
    rewrite (drop_S _ _ _ Hde). cbn [fmap list_fmap concat]. unfold say, at_entry, set_fds. cbn [fds out err]. by rewrite <- app_assoc.
Qed.

(** The body of [ls] between opening and closing the path. *)
Definition ls_body (fd : Z) (path : list Z) (st : Fs.stat) : prog unit :=
  if Fs.st_type st =? Fs.T_FILE then ls_line path st
  else if Fs.st_type st =? Fs.T_DIR then
    if 512 <? zlen path + 1 + DIRSIZ + 1 then println 1 "ls: path too long" []
    else while (ls_entry fd (path ++ [ch_slash]))
  else mret tt.

Lemma run_ls_path fd path st d s k l : lowest (fds s) = Some fd -> fs path = Some (st, d) ->
  run (ls_body fd path st) (at_entry fd path 0 s) ≈ Ret (say l (at_entry fd path k s), tt) -> run (ls_path path) s ≈ Ret (say l s, tt).
Proof.
  intros Hlo Ep Hbody. destruct (lowest_Some _ _ Hlo) as [Hn Hr]. unfold ls_path.
  rewrite (run_call _ _ _ _ (at_entry fd path 0 s) fd) by (cbn; by rewrite Ep, Hlo). rewrite (proj2 (Z.ltb_ge _ _)) by lia.
  rewrite (run_call _ _ _ _ (at_entry fd path 0 s) (0, st)). 2: { cbn. unfold file_at. cbn [fds at_entry set_fds]. by rewrite lookup_insert_eq, Ep. }
  cbn [Z.ltb Z.compare]. fold (ls_body fd path st). rewrite (run_step _ _ _ _ _ _ Hbody). apply (run_drop _ _ _ _ 0). cbn. rewrite lookup_insert_eq.
  unfold say, at_entry, set_fds. cbn [fds out err]. by rewrite delete_insert_id.
Qed.

(** C33: [ls] lists.  On a directory it prints one line for every entry in use, in the order of
    the directory: the name padded to 14 columns, type, inode number and size of the file that
    the path leads to, or a complaint when it leads nowhere; on a file it prints its line, on a
    path that does not open it complains on the standard error.  It closes what it opens. *)
Theorem ls_lists path s fd fd2 : lowest (fds s) = Some fd -> lowest (<[fd := (path, 0)]> (fds s)) = Some fd2 ->
  match fs path with
  | None => run (ls_path path) s ≈ Ret (complain (fmt_bytes false (bytes_of_string "ls: cannot open %s" ++ [ch_nl]) [AStr path]) s, tt)
  | Some (st, d) =>
      (Fs.st_type st = Fs.T_FILE -> run (ls_path path) s ≈ Ret (say (line_text (fmtname path) st) s, tt)) /\
      (Fs.st_type st = Fs.T_DEV -> run (ls_path path) s ≈ Ret (s, tt)) /\
      (forall es, Fs.st_type st = Fs.T_DIR -> zlen path + 16 <= 512 -> d = concat es -> Forall entry_ok es ->
         run (ls_path path) s ≈ Ret (say (concat (entry_text path <$> es)) s, tt))
  end.
Proof.
  intros Hlo Hlo2. destruct (fs path) as [[st d]|] eqn:Ep.
  2: { unfold ls_path. rewrite (run_call _ _ _ _ s (-1)) by (cbn; by rewrite Ep). cbn [Z.ltb Z.compare]. unfold println. apply run_puts2. }
  split_and!.
  - intros Ht. apply (run_ls_path fd path st d s 0 _ Hlo Ep). unfold ls_body. rewrite Ht. cbn [Z.eqb Fs.T_FILE Pos.eqb]. apply run_line.
  - intros Ht. rewrite <- (say_nil s) at 2. apply (run_ls_path fd path st d s 0 _ Hlo Ep). unfold ls_body. rewrite Ht, say_nil. apply run_ret.
  - intros es Ht Hlen -> Hes. apply (run_ls_path fd path st _ s (length es) _ Hlo Ep). unfold ls_body. rewrite Ht. cbn [Z.eqb Fs.T_FILE Fs.T_DIR Pos.eqb].
    rewrite (proj2 (Z.ltb_ge _ _)) by (unfold DIRSIZ; lia). rewrite (ls_loop fd path st es fd2 Ep Hes 0 s Hlo2) by lia. by rewrite drop_0.
Qed.

End Files.

(** A directory with an unused entry and a file. *)
Definition stat_of (t i n : Z) : Fs.stat := {| Fs.st_type := t; Fs.st_dev := 1; Fs.st_ino := i; Fs.st_nlink := 1; Fs.st_size := n |}.
Definition small_dir : list (list Z) :=
  [Fs.make_dirent (bytes_of_string ".") 1; Fs.make_dirent (bytes_of_string "old") 0; Fs.make_dirent (bytes_of_string "README") 2].
Definition small_fs (p : list Z) : option (Fs.stat * list Z) :=
  if bool_decide (p = bytes_of_string "d") || bool_decide (p = bytes_of_string "d/.") then Some (stat_of Fs.T_DIR 1 48, concat small_dir)
  else if bool_decide (p = bytes_of_string "d/README") then Some (stat_of Fs.T_FILE 2 1973, bytes_of_string "xv6") else None.

Lemma ls_lists_witness : interp_state (files small_fs) (ls_path (bytes_of_string "d")) {| fds := ∅; out := []; err := [] |} ≈
  Ret ({| fds := ∅; out := bytes_of_string ".              1 1 48" ++ [ch_nl] ++ bytes_of_string "README         2 2 1973" ++ [ch_nl]; err := [] |}, tt).
Proof.
  destruct (ls_lists small_fs (bytes_of_string "d") {| fds := ∅; out := []; err := [] |} 0 1) as (_ & _ & H); [by vm_compute | by vm_compute |].
  rewrite (H small_dir); [| done | by vm_compute | done |].
  - replace (say _ _) with {| fds := ∅; out := bytes_of_string ".              1 1 48" ++ [ch_nl] ++ bytes_of_string "README         2 2 1973" ++ [ch_nl]; err := [] |}
      by by vm_compute. reflexivity.
  - repeat constructor; try (by vm_compute); refine (bool_decide_unpack _ _); by vm_compute.
Defined.

(** ** Processes: forktest *)

(** The children of the process, and what it has written. *)
Record family : Type := { kids : nat; told : list Z }.

Section Forks.
(** A kernel that has room for [cap] children, whose pids are [pid]; or the view of a child,
    in which [fork] returns 0. *)
Context (cap : nat) (pid : nat -> Z) (child : bool).

Definition families (X : Type) (e : sysE X) : world family X :=
  fun s => match e in sysE Y return itree (exitE family) (family * Y) with
  | Exit => ended s
  | Write fd buf => Ret ({| kids := kids s; told := told s ++ buf |}, zlen buf)
  | Fork =>
      if child then Ret (s, 0)
      else if (kids s <? cap)%nat then Ret ({| kids := S (kids s); told := told s |}, pid (kids s)) else Ret (s, -1)
  | Wait => match kids s with O => Ret (s, -1) | S k => Ret ({| kids := k; told := told s |}, pid k) end
  | Pipe => Ret (s, (-1, (0, 0)))
  | Read _ _ => Ret (s, (-1, []))
  | Fstat _ => Ret (s, (-1, no_stat))
  | _ => Ret (s, -1)
  end.
Abbreviation run t s := (interp_state families t s).

Lemma run_exit {A} s : run (exit (A := A)) s ≈ ended s.
Proof.
  unfold exit. rewrite run_bind. rewrite interp_state_trigger. cbn. unfold ended. rewrite bind_vis. apply eqit_Vis. intros [].
Qed.
Lemma ended_bind {St A B} (s : St) (k : A -> itree (exitE St) B) : ITree.bind (ended s) k ≈ ended s.
Proof. unfold ended. rewrite bind_vis. apply eqit_Vis. intros []. Qed.

Lemma run_told l s : run (ft_printf 1 l) s ≈ Ret ({| kids := kids s; told := told s ++ l |}, tt).
Proof. apply (run_drop _ _ _ _ (zlen l)). done. Qed.

Lemma run_forks k : forall n t, child = false -> (forall i, 0 < pid i) ->
  run (ft_forks k n) {| kids := n; told := t |} ≈ Ret ({| kids := n `max` min cap (n + k); told := t |}, n `max` min cap (n + k))%nat.
Proof.
  induction k as [|k IH]; intros n t Hc Hp; cbn [ft_forks].
  - rewrite run_ret. by replace (n `max` min cap (n + 0))%nat with n by lia.
  - destruct (decide (n < cap)%nat) as [Hn|Hn].
    + rewrite (run_call _ _ _ _ {| kids := S n; told := t |} (pid n)). 2: { unfold families. cbn [kids told]. by rewrite Hc, (proj2 (Nat.ltb_lt _ _) Hn). }
      pose proof (Hp n). rewrite (proj2 (Z.ltb_ge _ _)), (proj2 (Z.eqb_neq _ _)) by lia. rewrite IH by done.
      by replace (S n `max` min cap (S n + k))%nat with (n `max` min cap (n + S k))%nat by lia.
    + rewrite (run_call _ _ _ _ {| kids := n; told := t |} (-1)). 2: { unfold families. cbn [kids told]. by rewrite Hc, (proj2 (Nat.ltb_ge _ _)) by lia. }
      cbn [Z.ltb Z.compare]. rewrite run_ret. by replace (n `max` min cap (n + S k))%nat with n by lia.
Qed.

Lemma run_waits n : forall t, (forall i, 0 < pid i) -> run (ft_waits n) {| kids := n; told := t |} ≈ Ret ({| kids := 0; told := t |}, tt).
Proof.
  induction n as [|n IH]; intros t Hp; cbn [ft_waits]; [apply run_ret|].
  rewrite (run_call _ _ _ _ {| kids := n; told := t |} (pid n)) by done. pose proof (Hp n). rewrite (proj2 (Z.ltb_ge _ _)) by lia. by apply IH.
Qed.

End Forks.

(** [forktest] passes on every kernel with room for less than [N] children: it forks until
    [fork] fails, reaps exactly the children that it made, finds none left and ends with its
    message of success.  With room for more it says that [fork] worked too often.  A child
    ends at once and writes nothing. *)
Theorem forktest_passes cap pid t : (forall i, 0 < pid i) ->
  ((cap < N)%nat -> interp_state (families cap pid false) forktest_main {| kids := 0; told := t |} ≈
     ended {| kids := 0; told := t ++ line "fork test" ++ line "fork test OK" |}) /\
  ((N <= cap)%nat -> interp_state (families cap pid false) forktest_main {| kids := 0; told := t |} ≈
     ended {| kids := N; told := t ++ line "fork test" ++ line "fork claimed to work N times!" |}) /\
  (forall k n, interp_state (families cap pid true) (ft_forks (S k) n) {| kids := 0; told := t |} ≈ ended {| kids := 0; told := t |}).
Proof.
  intros Hp. unfold forktest_main, forktest. split_and!.
  - intros Hc. rewrite run_bind. rewrite (run_step _ _ _ _ _ _ (run_told _ _ _ _ _)). cbn [kids told].
    rewrite (run_step _ _ _ _ _ _ (run_forks cap pid false N 0 _ eq_refl Hp)).
    replace (0 `max` min cap (0 + N))%nat with cap by lia. rewrite (proj2 (Nat.eqb_neq _ _)) by lia.
    rewrite (run_step _ _ _ _ _ _ (run_waits cap pid false cap _ Hp)). rewrite (run_call _ _ _ _ {| kids := 0; told := t ++ line "fork test" |} (-1)) by done.
    change (negb (-1 =? -1)) with false. rewrite run_told, bind_ret_l. cbn [fst snd kids told]. rewrite run_exit, <- app_assoc. reflexivity.
  - intros Hc. rewrite run_bind. rewrite (run_step _ _ _ _ _ _ (run_told _ _ _ _ _)). cbn [kids told].
    rewrite (run_step _ _ _ _ _ _ (run_forks cap pid false N 0 _ eq_refl Hp)).
    replace (0 `max` min cap (0 + N))%nat with N by lia. rewrite Nat.eqb_refl.
    rewrite (run_step _ _ _ _ _ _ (run_told _ _ _ _ _)). rewrite run_exit, ended_bind. cbn [kids told]. rewrite <- app_assoc. reflexivity.
  - intros k n. cbn [ft_forks]. rewrite (run_call _ _ _ _ {| kids := 0; told := t |} 0) by done. cbn [Z.ltb Z.compare Z.eqb]. apply run_exit.
Qed.

Lemma forktest_passes_witness : interp_state (families 62 (fun i => Z.of_nat i + 4) false) forktest_main {| kids := 0; told := [] |} ≈
  ended {| kids := 0; told := line "fork test" ++ line "fork test OK" |}.
Proof. apply (forktest_passes 62 (fun i => Z.of_nat i + 4) []); [lia | unfold N; lia]. Defined.

(** ** init *)

(** The device files of the file system, by path, with their major and minor numbers; the
    descriptors of the process, each with the device numbers and the mode of its [open]; the
    processes that the kernel will give to [init]: for each turn the pid of the shell and the
    orphans that end before it ([turns]), the rest of the current turn ([due]); what has been
    written to the console, which shells have been started, and the program that the process
    has become. *)
Record machine : Type := {
  devs : gmap (list Z) (Z * Z); ifds : list (Z * Z * Z); turns : list (Z * list Z); due : list Z;
  text : list Z; shells : list Z; became : option (list Z * list (list Z))
}.

Definition getfd (s : machine) (fd : Z) : option (Z * Z * Z) := if fd <? 0 then None else ifds s !! Z.to_nat fd.
(** As [sys_open] computes it; and the major number of the console in [devsw]. *)
Definition writable (mode : Z) : bool := negb (Z.land mode Sh.O_WRONLY =? 0) || negb (Z.land mode Sh.O_RDWR =? 0).
Definition console_major : Z := 1.

Definition with_nodes n s := {| devs := n; ifds := ifds s; turns := turns s; due := due s; text := text s; shells := shells s; became := became s |}.
Definition with_fds l s := {| devs := devs s; ifds := l; turns := turns s; due := due s; text := text s; shells := shells s; became := became s |}.
Definition with_text t s := {| devs := devs s; ifds := ifds s; turns := turns s; due := due s; text := t; shells := shells s; became := became s |}.
Definition with_due d s := {| devs := devs s; ifds := ifds s; turns := turns s; due := d; text := text s; shells := shells s; became := became s |}.

Section Init.
(** The view of the parent or of a child of [fork], and whether [exec] finds the program. *)
Context (child : bool) (exec_ok : bool).

Definition machines (X : Type) (e : sysE X) : world machine X :=
  fun s => match e in sysE Y return itree (exitE machine) (machine * Y) with
  | Exit => ended s
  | Open path mode =>
      match devs s !! path with
      | Some (major, minor) => Ret (with_fds (ifds s ++ [(major, minor, mode)]) s, zlen (ifds s))
      | None => Ret (s, -1)
      end
  | Mknod path major minor =>
      match devs s !! path with
      | Some _ => Ret (s, -1)
      | None => Ret (with_nodes (<[path := (major, minor)]> (devs s)) s, 0)
      end
  | Dup fd =>
      match getfd s fd with
      | Some f => Ret (with_fds (ifds s ++ [f]) s, zlen (ifds s))
      | None => Ret (s, -1)
      end
  | Write fd buf =>
      match getfd s fd with
      | Some (major, _, mode) =>
          if writable mode && (major =? console_major) then Ret (with_text (text s ++ buf) s, zlen buf) else Ret (s, -1)
      | None => Ret (s, -1)
      end
  | Fork =>
      if child then Ret (s, 0)
      else match turns s with
      | [] => Ret (s, -1)
      | (p, zs) :: r =>
          Ret ({| devs := devs s; ifds := ifds s; turns := r; due := zs ++ [p]; text := text s; shells := shells s ++ [p];
                  became := became s |}, p)
      end
  | Wait =>
      match due s with
      | [] => Ret (s, -1)
      | w :: r => Ret (with_due r s, w)
      end
  | Exec path argv =>
      if exec_ok then ended {| devs := devs s; ifds := ifds s; turns := turns s; due := due s; text := text s; shells := shells s;
                               became := Some (path, argv) |}
      else Ret (s, -1)
  | Pipe => Ret (s, (-1, (0, 0)))
  | Read _ _ => Ret (s, (-1, []))
  | Fstat _ => Ret (s, (-1, no_stat))
  | _ => Ret (s, -1)
  end.
Abbreviation run t s := (interp_state machines t s).

Definition console : list Z := bytes_of_string "console".

(** [init] when it starts. *)
Definition at_start (nd : gmap (list Z) (Z * Z)) (ts : list (Z * list Z)) : machine :=
  {| devs := nd; ifds := []; turns := ts; due := []; text := []; shells := []; became := None |}.
(** With the console open, for reading and writing, as the three standard descriptors. *)
Definition up (nd : gmap (list Z) (Z * Z)) (ts : list (Z * list Z)) (d t sh : list Z) : machine :=
  {| devs := nd; ifds := replicate 3 (1, 1, Sh.O_RDWR); turns := ts; due := d; text := t; shells := sh; became := None |}.

Lemma run_iexit {A} s : run (exit (A := A)) s ≈ ended s.
Proof. unfold exit. rewrite run_bind, interp_state_trigger. cbn. apply ended_bind. Qed.

Lemma run_iputs nd ts d sh l : forall t, run (puts 1 l) (up nd ts d t sh) ≈ Ret (up nd ts d (t ++ l) sh, tt).
Proof.
  induction l as [|c l IH]; intros t; cbn [puts each].
  - rewrite run_ret, app_nil_r. reflexivity.
  - rewrite (run_step _ _ _ _ (up nd ts d (t ++ [c]) sh) tt) by (by apply (run_drop _ _ _ _ 1)). fold (puts 1 l). rewrite IH, <- app_assoc. reflexivity.
Qed.

Definition msg (s : string) : list Z := bytes_of_string s ++ [ch_nl].
(** What a turn prints. *)
Definition turn_text (tn : Z * list Z) : list Z := msg "init: starting sh" ++ concat ((fun _ => msg "zombie!") <$> snd tn).
Definition turn_ok (tn : Z * list Z) : Prop := 0 < fst tn /\ Forall (fun z => 0 <= z /\ z <> fst tn) (snd tn).

Lemma run_await nd ts p zs : forall t sh, Forall (fun z => 0 <= z /\ z <> p) zs ->
  run (await p) (up nd ts (zs ++ [p]) t sh) ≈ Ret (up nd ts [] (t ++ concat ((fun _ => msg "zombie!") <$> zs)) sh, tt).
Proof.
  induction zs as [|z zs IH]; intros t sh Hz; cbn [app fmap list_fmap concat].
  - apply run_while_false. rewrite (run_call _ _ _ _ (up nd ts [] t sh) p) by done. rewrite Z.eqb_refl, andb_false_r, app_nil_r. apply run_ret.
  - inversion_clear Hz as [|? ? [Hz0 Hzp] Hzs]. unfold await. rewrite (run_while_true _ _ _ (up nd ts (zs ++ [p]) (t ++ msg "zombie!") sh)).
    + fold (await p). rewrite IH, <- app_assoc by done. reflexivity.
    + rewrite (run_call _ _ _ _ (up nd ts (zs ++ [p]) t sh) z) by done. rewrite (proj2 (Z.leb_le _ _)), (proj2 (Z.eqb_neq _ _)) by done. cbn [andb negb].
      unfold println. change (fmt_bytes false (bytes_of_string "zombie!" ++ [ch_nl]) []) with (msg "zombie!").
      rewrite (run_step _ _ _ _ _ _ (run_iputs _ _ _ _ _ _)). apply run_ret.
Qed.

Lemma run_turn nd ts p zs t sh : child = false -> turn_ok (p, zs) ->
  run init_turn (up nd ((p, zs) :: ts) [] t sh) ≈ Ret (up nd ts [] (t ++ turn_text (p, zs)) (sh ++ [p]), tt).
Proof.
  intros Hc [Hp Hz]. cbn [fst snd] in *. unfold init_turn, println. change (fmt_bytes false (bytes_of_string "init: starting sh" ++ [ch_nl]) []) with (msg "init: starting sh").
  rewrite (run_step _ _ _ _ _ _ (run_iputs _ _ _ _ _ _)).
  rewrite (run_call _ _ _ _ (up nd ts (zs ++ [p]) (t ++ msg "init: starting sh") (sh ++ [p])) p) by (unfold machines; by rewrite Hc).
  rewrite (proj2 (Z.ltb_ge _ _)), (proj2 (Z.eqb_neq _ _)) by lia. rewrite run_await by done. unfold turn_text. cbn [snd]. rewrite <- app_assoc. reflexivity.
Qed.

Lemma run_loop_turn s s' : run init_turn s ≈ Ret (s', tt) -> run init_loop s ≈ run init_loop s'.
Proof.
  intros H. unfold init_loop at 1. rewrite unfold_iter. change (ITree.bind ?t ?k) with (mbind k t). rewrite run_bind, run_bind, H, bind_ret_l.
  cbn [fst snd]. rewrite run_ret, bind_ret_l. cbn [fst snd]. rewrite interp_state_tau, tau_eutt. reflexivity.
Qed.

Lemma run_init_loop nd ts : forall t sh, child = false -> Forall turn_ok ts ->
  run init_loop (up nd ts [] t sh) ≈
    ended (up nd [] [] (t ++ concat (turn_text <$> ts) ++ msg "init: starting sh" ++ msg "init: fork failed") (sh ++ (fst <$> ts))).
Proof.
  induction ts as [|[p zs] ts IH]; intros t sh Hc Hok.
  - unfold init_loop. rewrite unfold_iter. change (ITree.bind ?t ?k) with (mbind k t). rewrite run_bind, run_bind. unfold init_turn, println.
    change (fmt_bytes false (bytes_of_string "init: starting sh" ++ [ch_nl]) []) with (msg "init: starting sh").
    change (fmt_bytes false (bytes_of_string "init: fork failed" ++ [ch_nl]) []) with (msg "init: fork failed").
    rewrite (run_step _ _ _ _ _ _ (run_iputs _ _ _ _ _ _)).
    rewrite (run_call _ _ _ _ (up nd [] [] (t ++ msg "init: starting sh") sh) (-1)) by (unfold machines; by rewrite Hc).
    cbn [Z.ltb Z.compare]. rewrite (run_step _ _ _ _ _ _ (run_iputs _ _ _ _ _ _)). rewrite run_iexit, ended_bind, ended_bind.
    cbn [fmap list_fmap concat app]. rewrite <- app_assoc, app_nil_r. reflexivity.
  - apply Forall_cons in Hok as [Ht Hts]. rewrite (run_loop_turn _ _ (run_turn nd ts p zs t sh Hc Ht)). rewrite IH by done.
    cbn [fmap list_fmap concat fst]. rewrite <- !app_assoc. reflexivity.
Qed.

(** The device files after the console has been opened. *)
Definition with_console (nd : gmap (list Z) (Z * Z)) : gmap (list Z) (Z * Z) := <[console := (1, 1)]> nd.
Definition open_as (n : nat) (nd : gmap (list Z) (Z * Z)) (ts : list (Z * list Z)) : machine :=
  with_fds (replicate n (1, 1, Sh.O_RDWR)) (at_start nd ts).

Lemma run_dups nd ts : run (Cmds.call (Dup 0);; drop_result (Cmds.call (Dup 0))) (open_as 1 nd ts) ≈ Ret (up nd ts [] [] [], tt).
Proof. rewrite (run_call _ _ _ _ (open_as 2 nd ts) 1) by done. by apply (run_drop _ _ _ _ 2). Qed.

Lemma open_console nd ts : nd !! console = Some (1, 1) ->
  machines _ (Open (bytes_of_string "console") Sh.O_RDWR) (at_start nd ts) = Ret (open_as 1 nd ts, 0).
Proof. intros H. cbn [machines devs at_start]. fold console. by rewrite H. Qed.

Lemma run_init_console nd ts : nd !! console = None \/ nd !! console = Some (1, 1) ->
  run init_console (at_start nd ts) ≈ Ret (up (with_console nd) ts [] [] [], tt).
Proof.
  intros Hnd. unfold init_console. destruct Hnd as [H|H].
  - rewrite (run_call _ _ _ _ (at_start nd ts) (-1)) by (cbn [machines devs at_start]; fold console; by rewrite H). cbn [Z.ltb Z.compare].
    rewrite (run_step _ _ _ _ (open_as 1 (with_console nd) ts) tt); [apply run_dups|].
    rewrite (run_call _ _ _ _ (at_start (with_console nd) ts) 0) by (cbn [machines devs at_start]; fold console; by rewrite H).
    eapply run_drop, open_console. apply lookup_insert_eq.
  - rewrite (run_call _ _ _ _ _ _ (open_console nd ts H)). cbn [Z.ltb Z.compare]. rewrite (run_step _ _ _ _ _ _ (run_ret _ _ _)).
    unfold with_console. rewrite (insert_id _ _ _ H). apply run_dups.
Qed.

End Init.

(** C32: [init] keeps a shell running.  It opens the file console, for reading and writing, as
    its three standard descriptors, and if the file is missing makes it first, as the device
    file with the numbers 1 and 1; whenever the shell ends, however many orphans end before it,
    it starts the next one, and it reaps every process that it is given; it ends only when
    [fork] fails.  The child becomes the program sh, with the descriptors of [init], and ends
    with a message if there is none. *)
Theorem init_restarts_sh nd ts exec_ok : Forall turn_ok ts -> nd !! console = None \/ nd !! console = Some (1, 1) ->
  interp_state (machines false exec_ok) init (at_start nd ts) ≈
    ended (up (with_console nd) [] [] (concat (turn_text <$> ts) ++ msg "init: starting sh" ++ msg "init: fork failed") (fst <$> ts)) /\
  interp_state (machines true exec_ok) init_turn (up nd ts [] [] []) ≈
    ended (if exec_ok then {| devs := nd; ifds := replicate 3 (1, 1, Sh.O_RDWR); turns := ts; due := []; text := msg "init: starting sh";
                              shells := []; became := Some (bytes_of_string "sh", [bytes_of_string "sh"]) |}
           else up nd ts [] (msg "init: starting sh" ++ msg "init: exec sh failed") []).
Proof.
  intros Hok Hnd. split.
  - rewrite <- (run_init_loop false exec_ok (with_console nd) ts [] [] eq_refl Hok). unfold init.
    rewrite (run_step _ _ _ _ _ _ (run_init_console _ _ _ _ Hnd)). reflexivity.
  - unfold init_turn, println. change (fmt_bytes false (bytes_of_string "init: starting sh" ++ [ch_nl]) []) with (msg "init: starting sh").
    change (fmt_bytes false (bytes_of_string "init: exec sh failed" ++ [ch_nl]) []) with (msg "init: exec sh failed").
    rewrite (run_step _ _ _ _ _ _ (run_iputs _ _ _ _ _ _ _ _)). rewrite (run_call _ _ _ _ (up nd ts [] (msg "init: starting sh") []) 0) by done.
    cbn [Z.ltb Z.compare Z.eqb]. destruct exec_ok.
    + rewrite run_bind, interp_state_trigger. cbn [machines]. apply ended_bind.
    + rewrite (run_call _ _ _ _ (up nd ts [] (msg "init: starting sh") []) (-1)) by done.
      rewrite (run_step _ _ _ _ _ _ (run_iputs _ _ _ _ _ _ _ _)). apply run_iexit.
Qed.

Lemma init_restarts_sh_witness : interp_state (machines false true) init (at_start ∅ [(2, []); (3, [7; 5])]) ≈
  ended (up (with_console ∅) [] [] (msg "init: starting sh" ++ msg "init: starting sh" ++ msg "zombie!" ++ msg "zombie!" ++ msg "init: starting sh" ++ msg "init: fork failed") [2; 3]).
Proof.
  destruct (init_restarts_sh ∅ [(2, []); (3, [7; 5])] true) as [H _]; [| by left | exact H].
  repeat constructor; cbn; lia.
Defined.

End CmdsProof.
