(* ===== verification/Kernel.v ===== *)
(** * The kernel put together

    The components of the other files on one concrete state: the log over the buffer cache over
    the memory disk, inodes, files, pipes, processes, paging, system calls and traps.  A program
    ([Cmds.prog]) runs on it ([run]): each of its calls becomes what the stubs of usys.S do,
    arguments on the user stack and a trap to the kernel.  Device 1 (the console) is a screen
    that keeps the bytes that are written; ConsoleProof shows what the driver makes of them. *)

From stdpp Require Import base gmap list strings.
From Stdlib Require Import ZArith Lia.
From ITree Require Import ITree.
From S2P Require Import Cmds CString Format Core Locking Kalloc Pipe Bio BioLaws Log LogSafety Tx Fs File Vm Proc Machine Ide Syscall Exec Sysfile Trap Mkfs Prelude.
Import Sleeplock.

Module Kernel.

(** ** The state

    The model's tables are functions; a table that many steps update is kept as a list or as a
    finite map, and the lens makes a function of it. *)

Record screen : Type := { shown : list Z }.

Definition table {A} (f : nat -> A) (l : list A) : nat -> A := fun i => match l !! i with Some x => x | None => f i end.
Lemma table_same {A} (f : nat -> A) (n i : nat) : table f (f <$> seq 0 n) i = f i.
Proof.
  unfold table. rewrite list_lookup_fmap. destruct (decide (i < n)%nat) as [H|H].
  - by rewrite lookup_seq_lt.
  - by rewrite lookup_seq_ge by lia.
Qed.

Record bufs : Type := { buf_list : list Bio.buf }.
Definition buf0 : Bio.buf :=
  {| Bio.flags := 0; Bio.dev := 0; Bio.blockno := 0; Bio.refcnt := 0; Bio.prev := 0%nat; Bio.next := 0%nat; Bio.bdata := [] |}.
#[export] Instance bufs_lens : Lens bufs Bio.bcache := {|
  lget s := {| Bio.buf_of := table (fun _ => buf0) (buf_list s) |};
  lset c _ := {| buf_list := Bio.buf_of c <$> seq 0 (S NBUF) |}
|}.

(** The disk; the writes of one step, in its trace, are carried out when the state is set. *)
Record platter : Type := { sectors : gmap Z block }.
Definition sector (s : platter) (n : Z) : block := default (replicate 512 0) (sectors s !! n).
#[export] Instance platter_lens : Lens platter Bio.disk := {|
  lget s := {| Bio.disksize := 1000; Bio.blocks := sector s; Bio.trace := [] |};
  lset d s := {| sectors := foldl (fun t w => <[w.1 := w.2]> t) (sectors s) (Bio.trace d) |}
|}.

Abbreviation bst := (core * (slocktab * (bufs * platter)))%type.
Abbreviation lst := (bst * Log.logst)%type.
Abbreviation kst := (lst * (ram * (Vm.vmvars * (Kalloc.kmem * (Fs.icache * (superblock * (File.ftable * (Pipe.pipetab * (Proc.procvars * (Syscall.tickvars * screen))))))))))%type.

(** The end of the kernel in memory, and the bound of the waiting loops: no call waits for
    another process here. *)
Definition kend : Z := 0x80200000.
Definition wf : nat := 3.

#[export] Instance k_blocks : BlockLayer bst := BioLaws.bio_layer wf.
#[export] Instance k_tx : TxLayer lst := Tx.log_layer (S := lst) (B := bst).
#[export] Instance k_bounds : TxBounds lst := log_bounds (S := lst) (B := bst) wf.
#[export] Instance k_core : Lens kst core := lens_comp (T := lst).
#[export] Instance k_pages : PageAlloc kst := Kalloc.kalloc_PageAlloc kend.

Definition show (l : list Z) : M kst unit := lmod (T := screen) (fun s => {| shown := shown s ++ l |}).
#[export] Instance k_dev : Fs.DevSw kst := {|
  Fs.dev_read := fun _ => None;
  Fs.dev_write := fun m => if m =? 1 then Some (fun _ buf n => show (take (Z.to_nat n) buf);; mret n) else None
|}.
#[export] Instance k_disp : Display kst := {|
  dp_puts := show; dp_getch := mret 0; dp_mode := fun _ => mret 0; dp_pixel := fun _ _ _ => mret 0; dp_clear13 := mret tt; dp_clear12 := mret tt
|}.
(** No device interrupts. *)
#[export] Instance k_irq : Interrupts kst := {| ir_kbd := mret tt; ir_uart := mret tt; ir_ide := mret tt; ir_eoi := mret tt; ir_cr2 := mret 0 |}.

Definition trap (t : trapframe) : M kst unit := Trap.trap (T := lst) wf 0x80108000 0x80104000 0x80105000 0 0 0 t.

(** ** The state after booting: a fresh disk, free pages, [init] asleep and one user process *)

Definition image (files : list (list Z * option (list (list Z)))) : list block :=
  match Mkfs.main files Mkfs.start with Prelude.Ret _ v => Mkfs.img v | _ => [] end.

Definition npages : nat := 150.
Definition page (i : nat) : Z := 0x80500000 + 0x1000 * Z.of_nat i.
Definition free_pages : mem :=
  foldl (fun m i => store32 m (page i) (if decide (i = 0%nat) then 0 else page (Nat.pred i))) ∅ (seq 0 npages).

(** The process has [upages] pages of memory; the directory and its one page table are two
    pages before them. *)
Definition udir : Z := 0x80400000.
Definition upages : nat := 6.
Definition user_pages : mem :=
  foldl (fun m i => store32 m (udir + 0x1000 + 4 * Z.of_nat i) (Z.lor (0x402000 + 0x1000 * Z.of_nat i) 7))
    (store32 free_pages udir (Z.lor 0x401000 7)) (seq 0 upages).

Definition esp : Z := 0x5000.
(** The frame that [int $64] builds. *)
Definition user_tf (num : Z) : trapframe :=
  {| tf_eax := num; tf_eip := 0x100; tf_esp := esp; tf_cs := 0x1b; tf_ds := 0x23; tf_es := 0x23; tf_ss := 0x23;
     tf_eflags := 0x200; tf_trapno := 64; tf_err := 0 |}.

Definition test_proc : proc :=
  {| sz := 0x1000 * Z.of_nat upages; pgdir := udir; kstack := 0x803ff000; pstate := RUNNING; pid := 2; parent := Some 0%nat; tf := user_tf 0;
     ctx_eip := 0; pchan := ch_none; killed := false; ofile := replicate NOFILE None; cwd := None; pname := bytes_of_string "usertests" |}.
Definition init_proc : proc := with_chan (ch_proc 0) (with_state SLEEPING (Proc.with_pid 1 proc0)).

Definition start_core : core :=
  {| hw_apicid := 7; hw_if := true; cpus := [{| apicid := 7; ncli := 0; intena := false; cproc := Some 1%nat |}];
     locks := fun _ => {| locked := false; lcpu := None |}; procs := init_proc :: test_proc :: replicate 62 proc0;
     nextpid := 3; initproc := Some 0%nat |}.

Definition inode0 : Fs.inode :=
  {| Fs.idev := 0; Fs.inum := 0; Fs.iref := 0; Fs.ivalid := false; Fs.itype := 0; Fs.imajor := 0; Fs.iminor := 0; Fs.inlink := 0; Fs.isize := 0;
     Fs.iaddrs := replicate 13 0 |}.
Definition file0 : File.file :=
  {| File.type := File.FD_NONE; File.ref := 0; File.readable := false; File.writable := false; File.fpipe := 0; File.fip := 0%nat; File.off := 0 |}.
Definition pipe0 : Pipe.pipe :=
  {| Pipe.data := []; Pipe.nread := 0; Pipe.nwrite := 0; Pipe.readopen := false; Pipe.writeopen := false |}.

Definition start_blocks (img : list block) : bst :=
  (start_core, ({| sl_of := fun _ => {| slocked := false; spid := 0 |} |},
   ({| buf_list := Bio.buf_of BioLaws.boot_cache <$> seq 0 (S NBUF) |}, {| sectors := list_to_map (imap (fun i b => (Z.of_nat i, b)) img) |}))).

Definition start (img : list block) : kst :=
  ((start_blocks img,
    {| Log.lstart := 0; Log.lsize := 0; Log.outstanding := 0; Log.committing := false; Log.ldev := 0; Log.lh_n := 0; Log.lh_block := replicate (Z.to_nat LOGSIZE) 0 |}),
   ({| ram_bytes := user_pages |}, ({| Vm.kpgdir := 0; Vm.cr3 := V2P udir; Vm.esp0 := 0 |},
    ({| Kalloc.use_lock := true; Kalloc.freelist := page (Nat.pred npages) |},
    ({| Fs.inode_of := fun _ => inode0 |}, (decode_sb [], ({| File.file_of := fun _ => file0 |}, ({| Pipe.pipe_of := fun _ => pipe0 |},
    ({| Proc.first := false |}, ({| Syscall.ticks := 0 |}, {| shown := [] |})))))))))).

(** [forkret] of the first process, and the directory that [userinit] gives it. *)
Definition boot : M kst unit :=
  Fs.iinit (T := lst) ROOTDEV;;
  zoom (tx_init ROOTDEV : M lst unit);;
  ip ← Fs.namei (T := lst) wf (bytes_of_string "/");
  core_mod (updp 1 (Proc.with_cwd ip)).

(** ** Writing the tables out

    Between two calls the tables that are functions are written out, so that they do not grow
    with every update; they are the same functions afterwards. *)

Definition free_lock : spinlock := {| locked := false; lcpu := None |}.
(** Locks that are written out: all but those of pipes and of the inodes and files from number
    [hot] on, which the programs here do not reach. *)
Definition hot : nat := 8.
Definition fixed_locks : list lockid :=
  [L_ptable; L_kmem; L_cons; L_bcache; L_icache; L_ftable; L_log; L_ide; L_tick] ++ (L_sleep ∘ Z.of_nat <$> seq 0 NBUF) ++ (L_sleep ∘ Fs.inode_lock <$> seq 0 hot).
Definition is_fixed (l : lockid) : bool :=
  match l with
  | L_pipe _ => false
  | L_sleep n => ((0 <=? n) && (n <? Z.of_nat NBUF)) || ((1000 <=? n) && (n <? 1000 + Z.of_nat hot))
  | _ => true
  end.
Definition not_free (k : spinlock) : bool := locked k || match lcpu k with Some _ => true | None => false end.
Definition tidy_core (c : core) : core :=
  let tab := filter (fun e => not_free e.2 = true) ((fun l => (l, locks c l)) <$> fixed_locks) in
  {| hw_apicid := hw_apicid c; hw_if := hw_if c; cpus := cpus c;
     locks := fun l =>
       match list_find (fun e => e.1 = l) tab with
       | Some (_, (_, k)) => k
       | None => if is_fixed l then free_lock else locks c l
       end;
     procs := procs c; nextpid := nextpid c; initproc := initproc c |}.
Definition tidy_inodes (c : Fs.icache) : Fs.icache :=
  let l := Fs.inode_of c <$> seq 0 Fs.NINODE in {| Fs.inode_of := table (Fs.inode_of c) l |}.
Definition tidy_files (c : File.ftable) : File.ftable :=
  let l := File.file_of c <$> seq 0 hot in {| File.file_of := table (File.file_of c) l |}.
Definition tidy_slocks (t : slocktab) : slocktab :=
  let l := (fun i => sl_of t (Z.of_nat i)) <$> seq 0 NBUF in
  let l2 := (fun i => sl_of t (Fs.inode_lock i)) <$> seq 0 hot in
  {| sl_of := fun n => if n <? 0 then sl_of t n
       else if n <? 1000 then table (fun i => sl_of t (Z.of_nat i)) l (Z.to_nat n)
       else table (fun i => sl_of t (Fs.inode_lock i)) l2 (Z.to_nat (n - 1000)) |}.
Definition tidy : M kst unit :=
  core_mod tidy_core;;
  zoom (T := lst) (lmod (T := slocktab) tidy_slocks);;
  lmod (T := Fs.icache) tidy_inodes;;
  lmod (T := File.ftable) tidy_files.

(** ** System calls of the user program *)

(** The program's own loads and stores, by the page table that is loaded. *)
Definition poke (va : Z) (l : list Z) : M kst unit := Syscall.uwrite va l.
Definition peek (va : Z) (n : Z) : M kst (list Z) := Syscall.uread va (Z.to_nat n).
Definition pokes (va : Z) (s : list Z) : M kst unit := poke va (s ++ [0]).

(** usys.S: the number in %eax, [int $64], the result in %eax; the arguments are above the
    return address. *)
Definition ucall (num : Z) (args : list Z) : M kst Z :=
  poke esp (concat (Syscall.bytes32 <$> (0 :: args)));;
  trap (user_tf num);;
  tidy;;
  q ← core_get (fun c => getp c 1);
  mret (s32 (tf_eax (tf q))).

(** Where the program keeps its strings and its buffer. *)
Definition path1 : Z := 0x1000.
Definition path2 : Z := 0x1800.
Definition ubuf : Z := 0x2000.

Definition with_path (num : Z) (path : list Z) (args : list Z) : M kst Z := pokes path1 path;; ucall num (path1 :: args).
Definition stat_of_bytes (l : list Z) : Fs.stat :=
  {| Fs.st_type := s16 (Fs.get16 l 0); Fs.st_dev := s32 (get32 l 4); Fs.st_ino := get32 l 8; Fs.st_nlink := s16 (Fs.get16 l 12); Fs.st_size := get32 l 16 |}.

(** The vector [argv] at [slot], its strings from [to] on. *)
Fixpoint put_args (slot to : Z) (argv : list (list Z)) : M kst unit :=
  match argv with
  | [] => poke slot (Syscall.bytes32 0)
  | a :: l => poke slot (Syscall.bytes32 to);; pokes to a;; put_args (slot + 4) (to + zlen a + 1) l
  end.

Definition ksys {X} (e : sysE X) : M kst X :=
  match e in sysE X return M kst X with
  | Cmds.Fork => ucall Trap.SYS_fork []
  | Cmds.Exit => ucall Trap.SYS_exit [];; panic "exit returned"
  | Cmds.Wait => ucall Trap.SYS_wait []
  | Cmds.Pipe => r ← ucall Trap.SYS_pipe [ubuf]; l ← peek ubuf 8; mret (r, (s32 (get32 l 0), s32 (get32 l 4)))
  | Cmds.Read fd n => r ← ucall Trap.SYS_read [fd; ubuf; n]; l ← peek ubuf (Z.max 0 r); mret (r, l)
  | Cmds.Kill p => ucall Trap.SYS_kill [p]
  | Cmds.Exec path argv =>
      put_args ubuf (ubuf + 0x100) argv;; r ← with_path Trap.SYS_exec path [ubuf];
      if r <? 0 then mret r else panic "another program runs"
  | Cmds.Fstat fd => r ← ucall Trap.SYS_fstat [fd; ubuf]; l ← peek ubuf 20; mret (r, stat_of_bytes l)
  | Cmds.Chdir path => with_path Trap.SYS_chdir path []
  | Cmds.Dup fd => ucall Trap.SYS_dup [fd]
  | Cmds.Getpid => ucall Trap.SYS_getpid []
  | Cmds.Sbrk n => ucall Trap.SYS_sbrk [n]
  | Cmds.Sleep n => ucall Trap.SYS_sleep [n]
  | Cmds.Uptime => ucall Trap.SYS_uptime []
  | Cmds.Open path mode => with_path Trap.SYS_open path [mode]
  | Cmds.Write fd buf => poke ubuf buf;; ucall Trap.SYS_write [fd; ubuf; zlen buf]
  | Cmds.Mknod path major minor => with_path Trap.SYS_mknod path [major; minor]
  | Cmds.Unlink path => with_path Trap.SYS_unlink path []
  | Cmds.Link old new => pokes path2 new;; with_path Trap.SYS_link old [path2]
  | Cmds.Mkdir path => with_path Trap.SYS_mkdir path []
  | Cmds.Close fd => ucall Trap.SYS_close [fd]
  | Cmds.Greeting => ucall Trap.SYS_greeting []
  end.

(** A program on the kernel, for at most [fuel] calls and steps. *)
Fixpoint run {A} (fuel : nat) (t : prog A) : M kst (option A) :=
  match fuel with
  | O => mret None
  | Datatypes.S f =>
      match observe t with
      | RetF a => mret (Some a)
      | TauF t' => run f t'
      | VisF e k => x ← ksys e; run f (k x)
      end
  end.

End Kernel.
