(* ===== verification/Usertests.v ===== *)
(** * usertests.c: the tests of the system calls

    Each test is a program ([Cmds.sysE]): it makes calls, looks at their results and ends with a
    message of success, or complains and exits.  A test that repeats its calls a fixed number of
    times takes the number as an argument ([writetest_of] and so on). *)

From stdpp Require Import base list strings.
From Stdlib Require Import ZArith Lia.
From ITree Require Import ITree.
From S2P Require Import Prelude CString Format Fs Cmds.
Import Cmds.

Module Usertests.

(** The bytes of the array [buf] after [l] has been read into it. *)
Definition fill (l buf : list Z) : list Z := l ++ drop (length l) buf.

Definition O_RDONLY : Z := 0.
Definition O_WRONLY : Z := 1.
Definition O_RDWR : Z := 2.
Definition O_CREATE : Z := 0x200.
Definition O_CREATE_RDWR : Z := Z.lor O_CREATE O_RDWR.
Definition stdout : Z := 1.
(** [sizeof(buf)] *)
Definition sizeof_buf : Z := 8192.

(** [if (!ok) { printf(1, msg); exit(); }] *)
Definition check (ok : bool) (msg : string) : prog unit :=
  if ok then mret tt else println stdout msg [];; exit.

(** A call whose result must pass the test [p]. *)
Definition want (c : sysE Z) (p : Z -> bool) (msg : string) : prog unit := r ← call c; check (p r) msg.
Definition ok (r : Z) : bool := 0 <=? r.
Definition zero (r : Z) : bool := r =? 0.
Definition bad (r : Z) : bool := r <? 0.
Definition nonzero (r : Z) : bool := negb (r =? 0).

(** A string constant. *)
Definition str (s : string) : list Z := bytes_of_string s.
Definition say (s : string) : prog unit := println stdout s [].

Definition want_open (path : string) (mode : Z) (msg : string) : prog Z :=
  fd ← call (Open (str path) mode); check (ok fd) msg;; mret fd.
Definition do_call (c : sysE Z) : prog unit := drop_result (call c).

Definition iputtest : prog unit :=
  say "iput test";;
  want (Mkdir (str "iputdir")) ok "mkdir failed";;
  want (Chdir (str "iputdir")) ok "chdir iputdir failed";;
  want (Unlink (str "../iputdir")) ok "unlink ../iputdir failed";;
  want (Chdir (str "/")) ok "chdir / failed";;
  say "iput test ok".

Definition opentest : prog unit :=
  say "open test";;
  fd ← want_open "echo" 0 "open echo failed!";
  do_call (Close fd);;
  want (Open (str "doesnotexist") 0) bad "open doesnotexist succeeded!";;
  say "open test ok".

Fixpoint write_pairs (fd : Z) (i : Z) (n : nat) : prog unit :=
  match n with
  | O => mret tt
  | S n =>
      r ← call (Write fd (str "aaaaaaaaaa"));
      (if r =? 10 then mret tt else println stdout "error: write aa %d new file failed" [AInt i];; exit);;
      r ← call (Write fd (str "bbbbbbbbbb"));
      (if r =? 10 then mret tt else println stdout "error: write bb %d new file failed" [AInt i];; exit);;
      write_pairs fd (i + 1) n
  end.

Definition writetest_of (n : nat) : prog unit :=
  say "small file test";;
  fd ← want_open "small" O_CREATE_RDWR "error: creat small failed!";
  say "creat small succeeded; ok";;
  write_pairs fd 0 n;;
  say "writes ok";;
  do_call (Close fd);;
  fd ← want_open "small" O_RDONLY "error: open small failed!";
  say "open small succeeded ok";;
  r ← call (Read fd (20 * Z.of_nat n));
  check (fst r =? 20 * Z.of_nat n) "read failed";;
  say "read succeeded ok";;
  do_call (Close fd);;
  want (Unlink (str "small")) ok "unlink small failed";;
  say "small file test ok".
Definition writetest : prog unit := writetest_of 100.

(** The first word of [buf] is [i]; the rest is what it was. *)
Definition numbered (i : Z) (buf : list Z) : list Z := take 512 (put32 buf 0 i).

(** The loop that reads the file back; [n] blocks have been read. *)
Definition big_turn (blocks fd n : Z) : prog (Z + unit) :=
  r ← call (Read fd 512);
  if fst r =? 0 then
    if n =? blocks - 1 then printf stdout "read only %d blocks from big" [AInt n];; exit
    else mret (inr tt)
  else if negb (fst r =? 512) then println stdout "read failed %d" [AInt (fst r)];; exit
  else if negb (s32 (get32 (snd r) 0) =? n) then
    println stdout "read content of block %d is %d" [AInt n; AInt (s32 (get32 (snd r) 0))];; exit
  else mret (inl (n + 1)).

(** The test with a file of [blocks] blocks. *)
Definition writetest1_of (blocks : Z) (buf : list Z) : prog unit :=
  say "big files test";;
  fd ← want_open "big" O_CREATE_RDWR "error: creat big failed!";
  each (fun i => want (Write fd (numbered (Z.of_nat i) buf)) (fun w => w =? 512) "error: write big file failed") (seq 0 (Z.to_nat blocks));;
  do_call (Close fd);;
  fd ← want_open "big" O_RDONLY "error: open big failed!";
  ITree.iter (big_turn blocks fd) 0;;
  do_call (Close fd);;
  want (Unlink (str "big")) ok "unlink big failed";;
  say "big files ok".
Definition writetest1 : list Z -> prog unit := writetest1_of Fs.MAXFILE.

(** The names of [createtest]: a letter and a digit-like character. *)
Definition create_name (i : nat) : list Z := [97; 48 + Z.of_nat i].
Definition createtest_of (n : nat) : prog unit :=
  say "many creates, followed by unlink test";;
  each (fun i => fd ← call (Open (create_name i) O_CREATE_RDWR); do_call (Close fd)) (seq 0 n);;
  each (fun i => do_call (Unlink (create_name i))) (seq 0 n);;
  say "many creates, followed by unlink; ok".
Definition createtest : prog unit := createtest_of 52.

Definition dirtest : prog unit :=
  say "mkdir test";;
  want (Mkdir (str "dir0")) ok "mkdir failed";;
  want (Chdir (str "dir0")) ok "chdir dir0 failed";;
  want (Chdir (str "..")) ok "chdir .. failed";;
  want (Unlink (str "dir0")) ok "unlink dir0 failed";;
  say "mkdir test ok".

(** [buf] is the array's contents when the test begins.  One of the messages has no newline. *)
Definition unlinkread (buf : list Z) : prog unit :=
  say "unlinkread test";;
  fd ← want_open "unlinkread" O_CREATE_RDWR "create unlinkread failed";
  do_call (Write fd (str "hello"));;
  do_call (Close fd);;
  fd ← want_open "unlinkread" O_RDWR "open unlinkread failed";
  want (Unlink (str "unlinkread")) zero "unlink unlinkread failed";;
  fd1 ← call (Open (str "unlinkread") O_CREATE_RDWR);
  do_call (Write fd1 (str "yyy"));;
  do_call (Close fd1);;
  r ← call (Read fd sizeof_buf);
  (if fst r =? 5 then mret tt else printf stdout "unlinkread read failed" [];; exit);;
  check (zget 0 (fill (snd r) buf) 0 =? 104) "unlinkread wrong data";;
  want (Write fd (take 10 (fill (snd r) buf))) (fun w => w =? 10) "unlinkread write failed";;
  do_call (Close fd);;
  do_call (Unlink (str "unlinkread"));;
  say "unlinkread ok".

Definition linktest : prog unit :=
  say "linktest";;
  do_call (Unlink (str "lf1"));;
  do_call (Unlink (str "lf2"));;
  fd ← want_open "lf1" O_CREATE_RDWR "create lf1 failed";
  want (Write fd (str "hello")) (fun w => w =? 5) "write lf1 failed";;
  do_call (Close fd);;
  want (Link (str "lf1") (str "lf2")) ok "link lf1 lf2 failed";;
  do_call (Unlink (str "lf1"));;
  want (Open (str "lf1") 0) bad "unlinked lf1 but it is still there!";;
  fd ← want_open "lf2" 0 "open lf2 failed";
  r ← call (Read fd sizeof_buf);
  check (fst r =? 5) "read lf2 failed";;
  do_call (Close fd);;
  want (Link (str "lf2") (str "lf2")) bad "link lf2 lf2 succeeded! oops";;
  do_call (Unlink (str "lf2"));;
  want (Link (str "lf2") (str "lf1")) bad "link non-existant succeeded! oops";;
  want (Link (str ".") (str "lf1")) bad "link . lf1 succeeded! oops";;
  say "linktest ok".

(** A turn of [bigwrite]: a file of two writes of [sz] bytes. *)
Definition bigwrite_turn (buf : list Z) (sz : Z) : prog unit :=
  fd ← want_open "bigwrite" O_CREATE_RDWR "cannot create bigwrite";
  each (fun _ =>
    cc ← call (Write fd (take (Z.to_nat sz) buf));
    if cc =? sz then mret tt else println stdout "write(%d) ret %d" [AInt sz; AInt cc];; exit) (seq 0 2);;
  do_call (Close fd);;
  do_call (Unlink (str "bigwrite")).
Definition bigwrite_of (sizes : list Z) (buf : list Z) : prog unit :=
  say "bigwrite test";;
  do_call (Unlink (str "bigwrite"));;
  each (bigwrite_turn buf) sizes;;
  say "bigwrite ok".
(** [for (sz = 499; sz < 12 * 512; sz += 471)] *)
Definition bigwrite : list Z -> prog unit := bigwrite_of ((fun i => 499 + 471 * Z.of_nat i) <$> seq 0 12).

(** The loop that reads the file back, with the turn [i] and [total]. *)
Definition bigfile_turn (fd : Z) (v : Z * Z) : prog ((Z * Z) + Z) :=
  let '(i, total) := v in
  r ← call (Read fd 300);
  check (ok (fst r)) "read bigfile failed";;
  if fst r =? 0 then mret (inr total)
  else
    check (fst r =? 300) "short read bigfile";;
    check ((s8 (zget 0 (snd r) 0) =? i / 2) && (s8 (zget 0 (snd r) 299) =? i / 2)) "read bigfile wrong data";;
    mret (inl (i + 1, total + fst r)).
(** The test of a file of [n] times 600 bytes. *)
Definition bigfile_of (n : nat) : prog unit :=
  say "bigfile test";;
  do_call (Unlink (str "bigfile"));;
  fd ← call (Open (str "bigfile") O_CREATE_RDWR);
  (if ok fd then mret tt else printf stdout "cannot create bigfile" [];; exit);;
  each (fun i => want (Write fd (replicate 600 (Z.of_nat i))) (fun w => w =? 600) "write bigfile failed") (seq 0 n);;
  do_call (Close fd);;
  fd ← want_open "bigfile" 0 "cannot open bigfile";
  total ← ITree.iter (bigfile_turn fd) (0, 0);
  do_call (Close fd);;
  check (total =? Z.of_nat n * 600) "read bigfile wrong total";;
  do_call (Unlink (str "bigfile"));;
  say "bigfile test ok".
Definition bigfile : prog unit := bigfile_of 20.

Definition fourteen : prog unit :=
  say "fourteen test";;
  want (Mkdir (str "12345678901234")) zero "mkdir 12345678901234 failed";;
  want (Mkdir (str "12345678901234/123456789012345")) zero "mkdir 12345678901234/123456789012345 failed";;
  fd ← want_open "123456789012345/123456789012345/123456789012345" O_CREATE "create 123456789012345/123456789012345/123456789012345 failed";
  do_call (Close fd);;
  fd ← want_open "12345678901234/12345678901234/12345678901234" 0 "open 12345678901234/12345678901234/12345678901234 failed";
  do_call (Close fd);;
  want (Mkdir (str "12345678901234/12345678901234")) nonzero "mkdir 12345678901234/12345678901234 succeeded!";;
  want (Mkdir (str "123456789012345/12345678901234")) nonzero "mkdir 12345678901234/123456789012345 succeeded!";;
  say "fourteen ok".

Definition rmdot : prog unit :=
  say "rmdot test";;
  want (Mkdir (str "dots")) zero "mkdir dots failed";;
  want (Chdir (str "dots")) zero "chdir dots failed";;
  want (Unlink (str ".")) nonzero "rm . worked!";;
  want (Unlink (str "..")) nonzero "rm .. worked!";;
  want (Chdir (str "/")) zero "chdir / failed";;
  want (Unlink (str "dots/.")) nonzero "unlink dots/. worked!";;
  want (Unlink (str "dots/..")) nonzero "unlink dots/.. worked!";;
  want (Unlink (str "dots")) zero "unlink dots failed!";;
  say "rmdot ok".

(** The name of [bigdir]'s link number [i]. *)
Definition big_name (i : nat) : list Z := [120; 48 + Z.of_nat i / 64; 48 + Z.of_nat i mod 64].
Definition bigdir_of (n : nat) : prog unit :=
  say "bigdir test";;
  do_call (Unlink (str "bd"));;
  fd ← want_open "bd" O_CREATE "bigdir create failed";
  do_call (Close fd);;
  each (fun i => want (Link (str "bd") (big_name i)) zero "bigdir link failed") (seq 0 n);;
  do_call (Unlink (str "bd"));;
  each (fun i => r ← call (Unlink (big_name i)); if zero r then mret tt else printf stdout "bigdir unlink failed" [];; exit) (seq 0 n);;
  say "bigdir ok".
Definition bigdir : prog unit := bigdir_of 500.

(** Close the descriptor if the call gave one. *)
Definition close_ok (fd : Z) : prog unit := if ok fd then do_call (Close fd) else mret tt.
Definition iref_turn : prog unit :=
  want (Mkdir (str "irefd")) zero "mkdir irefd failed";;
  want (Chdir (str "irefd")) zero "chdir irefd failed";;
  do_call (Mkdir (str ""));;
  do_call (Link (str "README") (str ""));;
  fd ← call (Open (str "") O_CREATE);
  close_ok fd;;
  fd ← call (Open (str "xx") O_CREATE);
  close_ok fd;;
  do_call (Unlink (str "xx")).
Definition iref_of (n : nat) : prog unit :=
  say "empty file name";;
  each (fun _ => iref_turn) (seq 0 n);;
  do_call (Chdir (str "/"));;
  say "empty file name OK".
Definition iref : prog unit := iref_of 51.

Definition dirfile : prog unit :=
  say "dir vs file";;
  fd ← want_open "dirfile" O_CREATE "create dirfile failed";
  do_call (Close fd);;
  want (Chdir (str "dirfile")) nonzero "chdir dirfile succeeded!";;
  want (Open (str "dirfile/xx") 0) bad "create dirfile/xx succeeded!";;
  want (Open (str "dirfile/xx") O_CREATE) bad "create dirfile/xx succeeded!";;
  want (Mkdir (str "dirfile/xx")) nonzero "mkdir dirfile/xx succeeded!";;
  want (Unlink (str "dirfile/xx")) nonzero "unlink dirfile/xx succeeded!";;
  want (Link (str "README") (str "dirfile/xx")) nonzero "link to dirfile/xx succeeded!";;
  want (Unlink (str "dirfile")) zero "unlink dirfile failed!";;
  want (Open (str ".") O_RDWR) bad "open . for writing succeeded!";;
  fd ← call (Open (str ".") 0);
  want (Write fd (str "x")) (fun w => w <=? 0) "write . succeeded!";;
  do_call (Close fd);;
  say "dir vs file OK".

(** The second half of [subdir]: calls that must fail. *)
Definition subdir_errors : prog unit :=
  want (Open (str "dd/dd/ff") O_RDONLY) bad "open (unlinked) dd/dd/ff succeeded!";;
  want (Open (str "dd/ff/ff") O_CREATE_RDWR) bad "create dd/ff/ff succeeded!";;
  want (Open (str "dd/xx/ff") O_CREATE_RDWR) bad "create dd/xx/ff succeeded!";;
  want (Open (str "dd") O_CREATE) bad "create dd succeeded!";;
  want (Open (str "dd") O_RDWR) bad "open dd rdwr succeeded!";;
  want (Open (str "dd") O_WRONLY) bad "open dd wronly succeeded!";;
  want (Link (str "dd/ff/ff") (str "dd/dd/xx")) nonzero "link dd/ff/ff dd/dd/xx succeeded!";;
  want (Link (str "dd/xx/ff") (str "dd/dd/xx")) nonzero "link dd/xx/ff dd/dd/xx succeeded!";;
  want (Link (str "dd/ff") (str "dd/dd/ffff")) nonzero "link dd/ff dd/dd/ffff succeeded!";;
  want (Mkdir (str "dd/ff/ff")) nonzero "mkdir dd/ff/ff succeeded!";;
  want (Mkdir (str "dd/xx/ff")) nonzero "mkdir dd/xx/ff succeeded!";;
  want (Mkdir (str "dd/dd/ffff")) nonzero "mkdir dd/dd/ffff succeeded!";;
  want (Unlink (str "dd/xx/ff")) nonzero "unlink dd/xx/ff succeeded!";;
  want (Unlink (str "dd/ff/ff")) nonzero "unlink dd/ff/ff succeeded!";;
  want (Chdir (str "dd/ff")) nonzero "chdir dd/ff succeeded!";;
  want (Chdir (str "dd/xx")) nonzero "chdir dd/xx succeeded!".

Definition subdir : prog unit :=
  say "subdir test";;
  do_call (Unlink (str "ff"));;
  want (Mkdir (str "dd")) zero "subdir mkdir dd failed";;
  fd ← want_open "dd/ff" O_CREATE_RDWR "create dd/ff failed";
  do_call (Write fd (str "ff"));;
  do_call (Close fd);;
  want (Unlink (str "dd")) bad "unlink dd (non-empty dir) succeeded!";;
  want (Mkdir (str "/dd/dd")) zero "subdir mkdir dd/dd failed";;
  fd ← want_open "dd/dd/ff" O_CREATE_RDWR "create dd/dd/ff failed";
  do_call (Write fd (str "FF"));;
  do_call (Close fd);;
  fd ← want_open "dd/dd/../ff" 0 "open dd/dd/../ff failed";
  r ← call (Read fd sizeof_buf);
  check ((fst r =? 2) && (zget 0 (snd r) 0 =? 102)) "dd/dd/../ff wrong content";;
  do_call (Close fd);;
  want (Link (str "dd/dd/ff") (str "dd/dd/ffff")) zero "link dd/dd/ff dd/dd/ffff failed";;
  want (Unlink (str "dd/dd/ff")) zero "unlink dd/dd/ff failed";;
  want (Open (str "dd/dd/ff") O_RDONLY) bad "open (unlinked) dd/dd/ff succeeded";;
  want (Chdir (str "dd")) zero "chdir dd failed";;
  want (Chdir (str "dd/../../dd")) zero "chdir dd/../../dd failed";;
  want (Chdir (str "dd/../../../dd")) zero "chdir dd/../../dd failed";;
  want (Chdir (str "./..")) zero "chdir ./.. failed";;
  fd ← want_open "dd/dd/ffff" 0 "open dd/dd/ffff failed";
  r ← call (Read fd sizeof_buf);
  check (fst r =? 2) "read dd/dd/ffff wrong len";;
  do_call (Close fd);;
  subdir_errors;;
  want (Unlink (str "dd/dd/ffff")) zero "unlink dd/dd/ff failed";;
  want (Unlink (str "dd/ff")) zero "unlink dd/ff failed";;
  want (Unlink (str "dd")) nonzero "unlink non-empty dd succeeded!";;
  want (Unlink (str "dd/dd")) ok "unlink dd/dd failed";;
  want (Unlink (str "dd")) ok "unlink dd failed";;
  say "subdir ok".

(** ** Tests with two processes *)

(** What [pipe1]'s child writes: 1033 bytes that go on counting. *)
Definition counting (from : Z) (n : nat) : list Z := (fun i => u8 (from + Z.of_nat i)) <$> seq 0 n.
Definition pipe1_child (fds : Z * Z) : prog unit :=
  do_call (Close (fst fds));;
  each (fun n => want (Write (snd fds) (counting (1033 * Z.of_nat n) 1033)) (fun w => w =? 1033) "pipe1 oops 1") (seq 0 5);;
  exit.

(** A turn of the parent's loop with [cc], [total] and [seq]; at its end the total, or nothing
    after a wrong byte. *)
Definition pipe1_turn (fd : Z) (v : Z * Z * Z) : prog ((Z * Z * Z) + option Z) :=
  let '(cc, total, sq) := v in
  r ← call (Read fd cc);
  let n := fst r in
  if 0 <? n then
    if bool_decide (u8 <$> take (Z.to_nat n) (snd r) = counting sq (Z.to_nat n)) then
      let cc := 2 * cc in
      mret (inl (if sizeof_buf <? cc then sizeof_buf else cc, total + n, sq + n))
    else say "pipe1 oops 2";; mret (inr None)
  else mret (inr (Some total)).

Definition pipe1_parent (fds : Z * Z) : prog unit :=
  do_call (Close (snd fds));;
  t ← ITree.iter (pipe1_turn (fst fds)) (1, 0, 0);
  match t with
  | None => mret tt
  | Some total =>
      if negb (total =? 5 * 1033) then println stdout "pipe1 oops 3 total %d" [AInt total];; exit
      else
        do_call (Close (fst fds));;
        do_call Wait;;
        say "pipe1 ok"
  end.

Definition pipe1 : prog unit :=
  r ← call Pipe;
  check (zero (fst r)) "pipe() failed";;
  pid ← call Fork;
  if pid =? 0 then pipe1_child (snd r)
  else if 0 <? pid then pipe1_parent (snd r)
  else say "fork() failed";; exit.

Fixpoint exitwait_turns (n : nat) : prog unit :=
  match n with
  | O => say "exitwait ok"
  | S n =>
      pid ← call Fork;
      if pid <? 0 then say "fork failed"
      else if negb (pid =? 0) then
        w ← call Wait;
        if negb (w =? pid) then say "wait wrong pid" else exitwait_turns n
      else exit
  end.
Definition exitwait : prog unit := exitwait_turns 100.

(** The loop of forks is that of forktest.c; the messages are not. *)
Fixpoint wait_all (n : nat) : prog unit :=
  match n with
  | O => mret tt
  | S n => r ← call Wait; (if r <? 0 then say "wait stopped early";; exit else mret tt);; wait_all n
  end.
Definition forktest : prog unit :=
  say "fork test";;
  n ← ft_forks N 0;
  (if (n =? N)%nat then say "fork claimed to work 1000 times!";; exit else mret tt);;
  wait_all n;;
  r ← call Wait;
  (if negb (r =? -1) then say "wait got too many";; exit else mret tt);;
  say "fork test OK".

End Usertests.
