(* ===== verification/UsertestsProof.v ===== *)
(** * usertests.c: what the tests accept

    Tests that the kernel of Kernel.v does not run: with two processes, or too long.  The process
    is run in a world that answers its calls in every way that the kernel may; the theorems say
    which behaviour of the kernel makes the test succeed. *)

From stdpp Require Import base gmap list strings.
From Stdlib Require Import ZArith Lia.
From S2P Require Import Prelude CString Format Fs Sh UserProgs Cmds CmdsProof Usertests.
From ITree Require Import ITree ITreeFacts Events.State Events.StateFacts.
Import Cmds CmdsProof Usertests.

Module UsertestsProof.

(** One turn of a loop with a state. *)
Section Iter.
Context {St : Type} (h : forall X, sysE X -> world St X) {I R : Type} (body : I -> prog (I + R)).
Abbreviation run t s := (interp_state h t s).

Lemma run_iter_more i j s s' : run (body i) s ≈ Ret (s', inl j) -> run (ITree.iter body i) s ≈ run (ITree.iter body j) s'.
Proof.
  intros H. rewrite unfold_iter. change (ITree.bind ?t ?k) with (mbind k t). rewrite run_bind, H, bind_ret_l.
  cbn [fst snd]. rewrite interp_state_tau, tau_eutt. reflexivity.
Qed.
Lemma run_iter_done i r s s' : run (body i) s ≈ Ret (s', inr r) -> run (ITree.iter body i) s ≈ Ret (s', r).
Proof.
  intros H. rewrite unfold_iter. change (ITree.bind ?t ?k) with (mbind k t). rewrite run_bind, H, bind_ret_l. cbn [fst snd]. apply run_ret.
Qed.
Lemma run_iter_exit i s s' : run (body i) s ≈ ended s' -> run (ITree.iter body i) s ≈ ended s'.
Proof. intros H. rewrite unfold_iter. change (ITree.bind ?t ?k) with (mbind k t). rewrite run_bind, H. apply ended_bind. Qed.
End Iter.

(** The text of a message. *)
Definition said (m : string) (l : list arg) : list Z := fmt_bytes false (bytes_of_string m ++ [ch_nl]) l.

(** ** pipe1 *)

(** The bytes that will come out of the pipe before its end, the lengths of the pieces in which
    reads get them, and what has been written to the screen and to the pipe. *)
Record pipes : Type := { stream : list Z; cuts : list nat; told : list Z; sent : list Z }.
Definition told_more (l : list Z) (s : pipes) : pipes := {| stream := stream s; cuts := cuts s; told := told s ++ l; sent := sent s |}.

Lemma told_more_nil l st c w : told_more l {| stream := st; cuts := c; told := []; sent := w |} = {| stream := st; cuts := c; told := l; sent := w |}.
Proof. done. Qed.
#[local] Opaque said.

Section Pipes.
(** What [fork] returns. *)
Context (pid : Z).

(** A read gets at least one byte of a stream that has not ended, and at most [n]. *)
Definition piece (n : Z) (s : pipes) : nat := Nat.max 1 (Nat.min (hd 1%nat (cuts s)) (Z.to_nat n)).
Definition pipe_world (X : Type) (e : sysE X) : world pipes X :=
  fun s => match e in sysE Y return itree (exitE pipes) (pipes * Y) with
  | Exit => ended s
  | Pipe => Ret (s, (0, (3, 4)))
  | Fork => Ret (s, pid)
  | Wait => Ret (s, pid)
  | Close _ => Ret (s, 0)
  | Write fd buf =>
      Ret (if fd =? 4 then {| stream := stream s; cuts := cuts s; told := told s; sent := sent s ++ buf |} else told_more buf s, zlen buf)
  | Read _ n =>
      let k := piece n s in
      Ret ({| stream := drop k (stream s); cuts := tl (cuts s); told := told s; sent := sent s |}, (zlen (take k (stream s)), take k (stream s)))
  | Fstat _ => Ret (s, (-1, no_stat))
  | _ => Ret (s, -1)
  end.
Abbreviation run t s := (interp_state pipe_world t s).

Lemma run_pexit {A} s : run (exit (A := A)) s ≈ ended s.
Proof. unfold exit. rewrite run_bind, interp_state_trigger. cbn. apply ended_bind. Qed.

Lemma run_pputs l : forall s, run (puts 1 l) s ≈ Ret (told_more l s, tt).
Proof.
  induction l as [|c l IH]; intros s; cbn [puts each].
  - rewrite run_ret. unfold told_more. rewrite app_nil_r. by destruct s.
  - rewrite (run_step _ _ _ _ (told_more [c] s) tt) by (by apply (run_drop _ _ _ _ 1)). fold (puts 1 l). rewrite IH. unfold told_more. cbn [stream cuts told sent].
    rewrite <- app_assoc. reflexivity.
Qed.
Lemma run_psay m s : run (say m) s ≈ Ret (told_more (said m []) s, tt).
Proof. exact (run_pputs (fmt_bytes false (bytes_of_string m ++ [ch_nl]) []) s). Qed.
Lemma run_pprintln m l s : run (println stdout m l) s ≈ Ret (told_more (said m l) s, tt).
Proof. exact (run_pputs (fmt_bytes false (bytes_of_string m ++ [ch_nl]) l) s). Qed.
Lemma run_close fd s : run (do_call (Close fd)) s ≈ Ret (s, tt).
Proof. by apply (run_drop _ _ _ _ 0). Qed.

Definition counts_on (from : Z) (l : list Z) : Prop := u8 <$> l = counting from (length l).
#[export] Instance counts_on_dec from l : Decision (counts_on from l).
Proof. unfold counts_on. solve_decision. Defined.

Lemma counting_app from n k : counting from (n + k) = counting from n ++ counting (from + Z.of_nat n) k.
Proof.
  unfold counting. rewrite seq_app, fmap_app. f_equal. replace (0 + n)%nat with (n + 0)%nat by lia. rewrite <- fmap_add_seq, <- list_fmap_compose. apply list_fmap_ext. intros i x _. cbn. f_equal. lia.
Qed.
Lemma counting_length from n : length (counting from n) = n.
Proof. unfold counting. by rewrite length_fmap, length_seq. Qed.

Lemma u8_counting from n : u8 <$> counting from n = counting from n.
Proof. unfold counting. rewrite <- list_fmap_compose. apply list_fmap_ext. intros i x _. cbn [compose]. unfold u8. by rewrite Z.mod_mod. Qed.

Lemma counts_on_split from k l : counts_on from l <-> counts_on from (take k l) /\ counts_on (from + zlen (take k l)) (drop k l).
Proof.
  unfold counts_on, zlen. rewrite <- (take_drop k l) at 1 2. rewrite length_app, counting_app, fmap_app. split; [|by intros [-> ->]].
  intros H. apply app_inj_1 in H; [done|]. by rewrite length_fmap, counting_length.
Qed.

(** A turn of the parent's loop. *)
Lemma run_pipe_turn cc total s : 0 < cc ->
  let k := piece cc s in
  let s' := {| stream := drop k (stream s); cuts := tl (cuts s); told := told s; sent := sent s |} in
  run (pipe1_turn 3 (cc, total, total)) s ≈
    match stream s with
    | [] => Ret (s', inr (Some total))
    | _ => let n := zlen (take k (stream s)) in
        if decide (counts_on total (take k (stream s)))
        then Ret (s', inl (if sizeof_buf <? 2 * cc then sizeof_buf else 2 * cc, total + n, total + n))
        else Ret (told_more (said "pipe1 oops 2" []) s', inr None)
    end.
Proof.
  intros Hcc. cbv zeta. unfold pipe1_turn. set (k := piece cc s). assert (Hk : (1 <= k)%nat) by (unfold k, piece; lia).
  rewrite (run_call _ _ _ _ {| stream := drop k (stream s); cuts := tl (cuts s); told := told s; sent := sent s |} (zlen (take k (stream s)), take k (stream s))) by done.
  cbn [fst snd]. destruct (stream s) as [|b l] eqn:Es; [rewrite take_nil; apply run_ret|].
  assert (Hn : 0 < zlen (take k (b :: l))) by (destruct k; [lia|unfold zlen; cbn; lia]). rewrite (proj2 (Z.ltb_lt _ _) Hn).
  assert (En : Z.to_nat (zlen (take k (b :: l))) = length (take k (b :: l))) by (unfold zlen; lia). rewrite En, firstn_all.
  destruct (decide (counts_on total (take k (b :: l)))) as [H|H].
  - rewrite bool_decide_eq_true_2 by exact H. apply run_ret.
  - rewrite bool_decide_eq_false_2 by exact H. rewrite (run_step _ _ _ _ _ _ (run_psay _ _)). apply run_ret.
Qed.

Lemma run_pipe_loop n : forall cc total s, (length (stream s) <= n)%nat -> 0 < cc ->
  if decide (counts_on total (stream s))
  then exists c, run (ITree.iter (pipe1_turn 3) (cc, total, total)) s ≈
         Ret ({| stream := []; cuts := c; told := told s; sent := sent s |}, Some (total + zlen (stream s)))
  else exists st c, run (ITree.iter (pipe1_turn 3) (cc, total, total)) s ≈
         Ret (told_more (said "pipe1 oops 2" []) {| stream := st; cuts := c; told := told s; sent := sent s |}, None).
Proof.
  induction n as [|n IH]; intros cc total s Hlen Hcc; pose proof (run_pipe_turn cc total s Hcc) as T; cbv zeta in T.
  - destruct (stream s) as [|b l] eqn:Es; [|cbn in Hlen; lia]. rewrite decide_True by done. rewrite drop_nil in T.
    eexists. rewrite (run_iter_done _ _ _ _ _ _ T). by replace (total + zlen []) with total by (unfold zlen; cbn; lia).
  - destruct (stream s) as [|b l] eqn:Es.
    + rewrite decide_True by done. rewrite drop_nil in T. eexists. rewrite (run_iter_done _ _ _ _ _ _ T). by replace (total + zlen []) with total by (unfold zlen; cbn; lia).
    + set (k := piece cc s) in *. set (l0 := take k (b :: l)) in *. pose proof (counts_on_split total k (b :: l)) as Sp. fold l0 in Sp.
      destruct (decide (counts_on total l0)) as [H|H].
      * assert (Hk : (1 <= k)%nat) by (unfold k, piece; lia).
        specialize (IH (if sizeof_buf <? 2 * cc then sizeof_buf else 2 * cc) (total + zlen l0) {| stream := drop k (b :: l); cuts := tl (cuts s); told := told s; sent := sent s |}).
        cbn [stream told sent] in IH. assert (Hd : (length (drop k (b :: l)) <= n)%nat) by (rewrite length_drop; clear - Hlen Hk; cbn [length] in *; lia).
        specialize (IH Hd ltac:(unfold sizeof_buf; destruct (_ <? _); lia)).
        assert (El : zlen (b :: l) = zlen l0 + zlen (drop k (b :: l))) by (unfold zlen, l0; rewrite <- Nat2Z.inj_add, <- length_app, take_drop; done).
        destruct (decide (counts_on (total + zlen l0) (drop k (b :: l)))) as [H2|H2].
        -- rewrite decide_True by (by apply Sp). destruct IH as [c IH]. exists c. rewrite (run_iter_more _ _ _ _ _ _ T), IH, El, Z.add_assoc. done.
        -- rewrite decide_False by (by rewrite Sp; intros []). destruct IH as (st & c & IH). exists st, c. by rewrite (run_iter_more _ _ _ _ _ _ T), IH.
      * rewrite decide_False by (by rewrite Sp; intros []). eexists _, _. rewrite (run_iter_done _ _ _ _ _ _ T). reflexivity.
Qed.

Lemma run_child s : run (pipe1_child (3, 4)) s ≈ ended {| stream := stream s; cuts := cuts s; told := told s; sent := sent s ++ counting 0 (5 * 1033) |}.
Proof.
  unfold pipe1_child. cbn [fst snd]. rewrite (run_step _ _ _ _ _ _ (run_close _ _)).
  set (put := fun (s : pipes) (n : nat) => {| stream := stream s; cuts := cuts s; told := told s; sent := sent s ++ counting (1033 * Z.of_nat n) 1033 |}).
  rewrite (run_step _ _ _ _ (foldl put s (seq 0 5)) tt).
  - rewrite run_pexit. change (5 * 1033)%nat with (1033 + (1033 + (1033 + (1033 + 1033))))%nat. rewrite !counting_app. unfold put. cbn [seq foldl sent stream cuts told].
    rewrite <- !app_assoc. done.
  - apply run_each. intros s' n _. unfold want. rewrite (run_call _ _ _ _ (put s' n) (zlen (counting (1033 * Z.of_nat n) 1033))) by done.
    unfold zlen. rewrite counting_length. apply run_ret.
Qed.

Lemma run_parent s : let s' c := {| stream := []; cuts := c; told := told s; sent := sent s |} in
  if decide (counts_on 0 (stream s)) then
    if decide (zlen (stream s) = 5 * 1033) then exists c, run (pipe1_parent (3, 4)) s ≈ Ret (told_more (said "pipe1 ok" []) (s' c), tt)
    else exists c, run (pipe1_parent (3, 4)) s ≈ ended (told_more (said "pipe1 oops 3 total %d" [AInt (zlen (stream s))]) (s' c))
  else exists st c, run (pipe1_parent (3, 4)) s ≈ Ret (told_more (said "pipe1 oops 2" []) {| stream := st; cuts := c; told := told s; sent := sent s |}, tt).
Proof.
  cbv zeta. pose proof (run_pipe_loop (length (stream s)) 1 0 s ltac:(lia) ltac:(lia)) as L. unfold pipe1_parent. cbn [fst snd].
  destruct (decide (counts_on 0 (stream s))) as [H|H].
  - destruct L as [c L]. rewrite Z.add_0_l in L. destruct (decide (zlen (stream s) = 5 * 1033)) as [E|E].
    + exists c. rewrite (run_step _ _ _ _ _ _ (run_close _ _)), (run_step _ _ _ _ _ _ L). cbv beta iota.
      rewrite (proj2 (Z.eqb_eq _ _) E). cbn [negb]. rewrite (run_step _ _ _ _ _ _ (run_close _ _)).
      rewrite (run_step _ _ _ _ {| stream := []; cuts := c; told := told s; sent := sent s |} tt) by (by apply (run_drop _ _ _ _ pid)). apply run_psay.
    + exists c. rewrite (run_step _ _ _ _ _ _ (run_close _ _)), (run_step _ _ _ _ _ _ L). cbv beta iota.
      rewrite (proj2 (Z.eqb_neq _ _) E). cbn [negb]. rewrite (run_step _ _ _ _ _ _ (run_pprintln _ _ _)). apply run_pexit.
  - destruct L as (st & c & L). exists st, c. rewrite (run_step _ _ _ _ _ _ (run_close _ _)), (run_step _ _ _ _ _ _ L). apply run_ret.
Qed.

End Pipes.

(** C30: [pipe1] tells a good pipe from a bad one.  The child sends exactly 5165 bytes that count
    from 0 on and ends.  The parent says that the test is passed if and only if the bytes that
    come out of the pipe, in whatever pieces its reads get them, are exactly those; a stream
    that stops short or goes on gets the total printed, a wrong byte the other complaint. *)
Theorem pipe1_accepts pid st cs : 0 < pid ->
  let start := {| stream := st; cuts := cs; told := []; sent := [] |} in
  interp_state (pipe_world 0) pipe1 start ≈ ended {| stream := st; cuts := cs; told := []; sent := counting 0 (5 * 1033) |} /\
  if decide (u8 <$> st = counting 0 (5 * 1033)) then
    exists c, interp_state (pipe_world pid) pipe1 start ≈ Ret ({| stream := []; cuts := c; told := said "pipe1 ok" []; sent := [] |}, tt)
  else if decide (counts_on 0 st) then
    exists c, interp_state (pipe_world pid) pipe1 start ≈ ended {| stream := []; cuts := c; told := said "pipe1 oops 3 total %d" [AInt (zlen st)]; sent := [] |}
  else exists st' c, interp_state (pipe_world pid) pipe1 start ≈ Ret ({| stream := st'; cuts := c; told := said "pipe1 oops 2" []; sent := [] |}, tt).
Proof.
  intros Hp. cbv zeta. split.
  - unfold pipe1. rewrite (run_call _ _ _ _ {| stream := st; cuts := cs; told := []; sent := [] |} (0, (3, 4))) by done. cbn [fst snd]. unfold check. change (zero 0) with true. cbv iota.
    rewrite (run_step _ _ _ _ _ _ (run_ret _ _ _)). rewrite (run_call _ _ _ _ {| stream := st; cuts := cs; told := []; sent := [] |} 0) by done.
    apply run_child.
  - set (s := {| stream := st; cuts := cs; told := []; sent := [] |}).
    assert (E : interp_state (pipe_world pid) pipe1 s ≈ interp_state (pipe_world pid) (pipe1_parent (3, 4)) s).
    { unfold pipe1. rewrite (run_call _ _ _ _ s (0, (3, 4))) by done. cbn [fst snd]. unfold check. change (zero 0) with true. cbv iota. rewrite (run_step _ _ _ _ _ _ (run_ret _ _ _)).
      rewrite (run_call _ _ _ _ s pid) by done. rewrite (proj2 (Z.eqb_neq _ _)), (proj2 (Z.ltb_lt _ _)) by lia. reflexivity. }
    pose proof (run_parent pid s) as R. cbv zeta in R. cbn [stream told sent s] in R.
    destruct (decide (u8 <$> st = counting 0 (5 * 1033))) as [H|H].
    + assert (Hl : length st = (5 * 1033)%nat) by (rewrite <- (length_fmap u8), H; apply counting_length).
      rewrite decide_True in R by (unfold counts_on; by rewrite Hl). rewrite decide_True in R by (unfold zlen; rewrite Hl; done).
      destruct R as [c R]. exists c. rewrite E, R, told_more_nil. reflexivity.
    + destruct (decide (counts_on 0 st)) as [H2|H2].
      * rewrite decide_False in R by (unfold zlen; intros Hl; apply H; unfold counts_on in H2; rewrite H2; f_equal; lia). destruct R as [c R]. exists c. rewrite E, R, told_more_nil. reflexivity.
      * destruct R as (st' & c & R). exists st', c. rewrite E, R, told_more_nil. reflexivity.
Qed.

Lemma pipe1_accepts_witness : exists c,
  interp_state (pipe_world 7) pipe1 {| stream := counting 0 (5 * 1033); cuts := [1; 3; 500]%nat; told := []; sent := [] |} ≈
    Ret ({| stream := []; cuts := c; told := said "pipe1 ok" []; sent := [] |}, tt).
Proof.
  destruct (pipe1_accepts 7 (counting 0 (5 * 1033)) [1; 3; 500]%nat eq_refl) as [_ H].
  rewrite (decide_True _ _ (u8_counting 0 (5 * 1033))) in H. exact H.
Defined.

(** ** writetest1 *)

(** A file system that takes every write; what reads of the file get, block by block, and what
    has been printed. *)
Record bigfile_world : Type := { back : list (list Z); printed : list Z }.
Definition big_world (X : Type) (e : sysE X) : world bigfile_world X :=
  fun s => match e in sysE Y return itree (exitE bigfile_world) (bigfile_world * Y) with
  | Exit => ended s
  | Open _ _ => Ret (s, 3)
  | Close _ => Ret (s, 0)
  | Unlink _ => Ret (s, 0)
  | Write fd buf => Ret (if fd =? 1 then {| back := back s; printed := printed s ++ buf |} else s, zlen buf)
  | Read _ _ => match back s with [] => Ret (s, (0, [])) | b :: l => Ret ({| back := l; printed := printed s |}, (zlen b, b)) end
  | Pipe => Ret (s, (-1, (0, 0)))
  | Fstat _ => Ret (s, (-1, no_stat))
  | _ => Ret (s, -1)
  end.

Section Big.
Abbreviation run t s := (interp_state big_world t s).

Lemma run_bputs l : forall s, run (puts 1 l) s ≈ Ret ({| back := back s; printed := printed s ++ l |}, tt).
Proof.
  induction l as [|c l IH]; intros s; cbn [puts each].
  - rewrite run_ret, app_nil_r. by destruct s.
  - rewrite (run_step _ _ _ _ {| back := back s; printed := printed s ++ [c] |} tt) by (by apply (run_drop _ _ _ _ 1)). fold (puts 1 l). rewrite IH. cbn [back printed].
    rewrite <- app_assoc. reflexivity.
Qed.
Lemma run_bsay m s : run (say m) s ≈ Ret ({| back := back s; printed := printed s ++ said m [] |}, tt).
Proof. exact (run_bputs (fmt_bytes false (bytes_of_string m ++ [ch_nl]) []) s). Qed.
Lemma run_bexit {A} s : run (exit (A := A)) s ≈ ended s.
Proof. unfold exit. rewrite run_bind, interp_state_trigger. cbn. apply ended_bind. Qed.
Lemma run_bclose fd s : run (do_call (Close fd)) s ≈ Ret (s, tt).
Proof. by apply (run_drop _ _ _ _ 0). Qed.
Lemma foldl_keep {A B} (s : A) (l : list B) : foldl (fun s _ => s) s l = s.
Proof. by induction l. Qed.
Lemma run_want_open p m msg s : run (want_open p m msg) s ≈ Ret (s, 3).
Proof.
  unfold want_open. rewrite (run_call _ _ _ _ s 3) by done. unfold check. change (ok 3) with true. cbv iota.
  rewrite (run_step _ _ _ _ _ _ (run_ret _ _ _)). apply run_ret.
Qed.

(** The blocks are numbered from [n] on. *)
Definition numbered_from (n : Z) (bs : list (list Z)) : Prop := forall i b, bs !! i = Some b -> zlen b = 512 /\ s32 (get32 b 0) = n + Z.of_nat i.

Lemma run_big_loop blocks bs : forall n t, numbered_from n bs ->
  run (ITree.iter (big_turn blocks 3) n) {| back := bs; printed := t |} ≈
    if n + zlen bs =? blocks - 1 then ended {| back := []; printed := t ++ fmt_bytes false (bytes_of_string "read only %d blocks from big") [AInt (blocks - 1)] |}
    else Ret ({| back := []; printed := t |}, tt).
Proof.
  induction bs as [|b bs IH]; intros n t Hb.
  - unfold zlen. cbn [length]. replace (n + Z.of_nat 0) with n by lia. destruct (Z.eqb_spec n (blocks - 1)) as [->|Hn].
    + apply run_iter_exit. unfold big_turn. rewrite (run_call _ _ _ _ {| back := []; printed := t |} (0, [])) by done. cbn [fst]. rewrite (Z.eqb_refl (blocks - 1)).
      change (0 =? 0) with true. cbv iota. unfold printf, stdout. rewrite (run_step _ _ _ _ _ _ (run_bputs _ _)). apply run_bexit.
    + apply run_iter_done. unfold big_turn. rewrite (run_call _ _ _ _ {| back := []; printed := t |} (0, [])) by done. cbn [fst]. change (0 =? 0) with true. cbv iota.
      rewrite (proj2 (Z.eqb_neq _ _)) by done. apply run_ret.
  - destruct (Hb 0%nat b eq_refl) as [Hl Hw]. rewrite (run_iter_more _ _ n (n + 1) _ {| back := bs; printed := t |}).
    + rewrite IH by (intros i b' Hi; destruct (Hb (S i) b' Hi) as [H1 H2]; split; [done | lia]).
      replace (n + 1 + zlen bs) with (n + zlen (b :: bs)) by (unfold zlen; cbn [length]; lia). reflexivity.
    + unfold big_turn. rewrite (run_call _ _ _ _ {| back := bs; printed := t |} (zlen b, b)) by done. cbn [fst snd]. rewrite Hl, Hw.
      change (512 =? 0) with false. change (negb (512 =? 512)) with false. cbv iota. replace (n + Z.of_nat 0) with n by lia.
      rewrite Z.eqb_refl. cbn [negb]. apply run_ret.
Qed.
End Big.

(** [writetest1] does not notice lost blocks.  Whatever the file's length, if the blocks that come
    back are numbered as they should be, the test is passed, also if none comes back at all,
    unless exactly the last one is missing. *)
Theorem writetest1_verdict blocks buf bs t : 512 <= zlen buf -> numbered_from 0 bs ->
  interp_state big_world (writetest1_of blocks buf) {| back := bs; printed := t |} ≈
    let t := t ++ said "big files test" [] in
    if zlen bs =? blocks - 1 then ended {| back := []; printed := t ++ fmt_bytes false (bytes_of_string "read only %d blocks from big") [AInt (blocks - 1)] |}
    else Ret ({| back := []; printed := t ++ said "big files ok" [] |}, tt).
Proof.
  intros Hbuf Hb. cbv zeta. unfold writetest1_of. rewrite (run_step _ _ _ _ _ _ (run_bsay _ _)). cbn [back printed].
  rewrite (run_step _ _ _ _ _ _ (run_want_open _ _ _ _)). rewrite (run_step _ _ _ _ {| back := bs; printed := t ++ said "big files test" [] |} tt).
  2: { rewrite (run_each _ _ (fun s _ => s)); [by rewrite foldl_keep|]. intros s i _. unfold want.
       assert (E : zlen (numbered (Z.of_nat i) buf) = 512) by (unfold numbered, zlen in *; rewrite length_take, put32_length; lia).
       rewrite (run_call _ _ _ _ s 512) by (cbn [big_world]; by rewrite E). apply run_ret. }
  rewrite (run_step _ _ _ _ _ _ (run_bclose _ _)), (run_step _ _ _ _ _ _ (run_want_open _ _ _ _)).
  pose proof (run_big_loop blocks bs 0 (t ++ said "big files test" []) Hb) as L. rewrite Z.add_0_l in L. destruct (zlen bs =? blocks - 1).
  - rewrite run_bind, L. apply ended_bind.
  - rewrite (run_step _ _ _ _ _ _ L), (run_step _ _ _ _ _ _ (run_bclose _ _)).
    rewrite (run_step _ _ _ _ {| back := []; printed := t ++ said "big files test" [] |} tt); [apply run_bsay|].
    unfold want. rewrite (run_call _ _ _ _ {| back := []; printed := t ++ said "big files test" [] |} 0) by done. apply run_ret.
Qed.

Lemma writetest1_verdict_witness :
  interp_state big_world (writetest1 (replicate 512 0)) {| back := []; printed := [] |} ≈
  Ret ({| back := []; printed := said "big files test" [] ++ said "big files ok" [] |}, tt).
Proof. apply (writetest1_verdict Fs.MAXFILE (replicate 512 0) [] []); [done | intros i b Hi; discriminate Hi]. Defined.

(** ** Forks *)

Section Forks.
Context (cap : nat) (pid : nat -> Z).
Abbreviation run t s := (interp_state (families cap pid false) t s).

Lemma run_fsay m k t : run (say m) {| kids := k; CmdsProof.told := t |} ≈ Ret ({| kids := k; CmdsProof.told := t ++ said m [] |}, tt).
Proof.
  change (say m) with (puts 1 (said m [])). generalize (said m []). intros l. revert t. induction l as [|c l IH]; intros t; cbn [puts each].
  - rewrite run_ret, app_nil_r. reflexivity.
  - rewrite (run_step _ _ _ _ {| kids := k; CmdsProof.told := t ++ [c] |} tt) by (by apply (run_drop _ _ _ _ 1)). fold (puts 1 l). rewrite IH, <- app_assoc. reflexivity.
Qed.

(** On a kernel whose [wait] reaps the child that has just been made, [exitwait] is passed. *)
Theorem exitwait_passes n t : (1 <= cap)%nat -> (forall i, 0 < pid i) ->
  run (exitwait_turns n) {| kids := 0; CmdsProof.told := t |} ≈ Ret ({| kids := 0; CmdsProof.told := t ++ said "exitwait ok" [] |}, tt).
Proof.
  intros Hc Hp. pose proof (Hp 0%nat). induction n as [|n IH]; cbn [exitwait_turns]; [apply run_fsay|].
  rewrite (run_call _ _ _ _ {| kids := 1; CmdsProof.told := t |} (pid 0)) by (unfold families; cbn [kids CmdsProof.told]; by rewrite (proj2 (Nat.ltb_lt 0 cap) Hc)).
  rewrite (proj2 (Z.ltb_ge _ _)), (proj2 (Z.eqb_neq _ _)) by lia. cbn [negb].
  rewrite (run_call _ _ _ _ {| kids := 0; CmdsProof.told := t |} (pid 0)) by done. by rewrite Z.eqb_refl.
Qed.

Lemma run_wait_all n : forall t, (forall i, 0 < pid i) -> run (wait_all n) {| kids := n; CmdsProof.told := t |} ≈ Ret ({| kids := 0; CmdsProof.told := t |}, tt).
Proof.
  induction n as [|n IH]; intros t Hp; cbn [wait_all]; [apply run_ret|].
  rewrite (run_call _ _ _ _ {| kids := n; CmdsProof.told := t |} (pid n)) by done. pose proof (Hp n). rewrite (proj2 (Z.ltb_ge _ _)) by lia.
  rewrite (run_step _ _ _ _ _ _ (run_ret _ _ _)). by apply IH.
Qed.

(** The test of forks in usertests.c passes on every kernel with room for less than 1000 children. *)
Theorem usertests_forktest t : (cap < N)%nat -> (forall i, 0 < pid i) ->
  run forktest {| kids := 0; CmdsProof.told := t |} ≈ Ret ({| kids := 0; CmdsProof.told := (t ++ said "fork test" []) ++ said "fork test OK" [] |}, tt).
Proof.
  intros Hc Hp. unfold forktest. rewrite (run_step _ _ _ _ _ _ (run_fsay _ _ _)).
  rewrite (run_step _ _ _ _ _ _ (run_forks cap pid false N 0 _ eq_refl Hp)). replace (0 `max` min cap (0 + N))%nat with cap by lia.
  rewrite (proj2 (Nat.eqb_neq _ _)) by lia. rewrite (run_step _ _ _ _ _ _ (run_ret _ _ _)).
  rewrite (run_step _ _ _ _ _ _ (run_wait_all cap _ Hp)). rewrite (run_call _ _ _ _ {| kids := 0; CmdsProof.told := t ++ said "fork test" [] |} (-1)) by done.
  change (negb (-1 =? -1)) with false. cbv iota. rewrite (run_step _ _ _ _ _ _ (run_ret _ _ _)). apply run_fsay.
Qed.
End Forks.

End UsertestsProof.
