(* ===== verification/UsertestsRun.v ===== *)
(** * usertests.c on the kernel

    The tests of one process run on the kernel of Kernel.v, from a disk that mkfs made: every
    call goes through the trap, the system call table, the files, the inodes, the log, the
    buffer cache and the disk driver. *)

From stdpp Require Import base gmap list strings.
From Stdlib Require Import ZArith Lia.
From S2P Require Import Cmds Core Locking Bio Log Fs File Machine Mkfs Kernel Usertests Prelude.
Import Kernel Cmds Usertests.

Module UsertestsRun.

(** ** Writing the tables out changes no table *)

Lemma tidy_inodes_same c i : Fs.inode_of (tidy_inodes c) i = Fs.inode_of c i.
Proof. apply table_same. Qed.

Lemma tidy_files_same c i : File.file_of (tidy_files c) i = File.file_of c i.
Proof. apply table_same. Qed.

Lemma tidy_slocks_same t n : Sleeplock.sl_of (tidy_slocks t) n = Sleeplock.sl_of t n.
Proof.
  cbn [tidy_slocks Sleeplock.sl_of]. destruct (Z.ltb_spec n 0); [done|]. destruct (Z.ltb_spec n 1000).
  - rewrite (table_same (fun i => Sleeplock.sl_of t (Z.of_nat i))). by rewrite Z2Nat.id.
  - rewrite (table_same (fun i => Sleeplock.sl_of t (Fs.inode_lock i))). unfold Fs.inode_lock. f_equal. lia.
Qed.

Lemma is_fixed_elem l : is_fixed l = true -> l ∈ fixed_locks.
Proof.
  unfold fixed_locks. destruct l as [| | | | | | | | |p|n]; try done; try (intros _; apply elem_of_app; left; set_solver).
  intros H. apply elem_of_app. right. apply elem_of_app. cbn [is_fixed] in H.
  destruct (orb_prop _ _ H) as [[H1%Z.leb_le H2%Z.ltb_lt]%andb_prop|[H1%Z.leb_le H2%Z.ltb_lt]%andb_prop].
  - left. apply list_elem_of_fmap. exists (Z.to_nat n). cbn [compose]. rewrite Z2Nat.id, elem_of_seq by done. split; [done|lia].
  - right. apply list_elem_of_fmap. exists (Z.to_nat (n - 1000)). rewrite elem_of_seq. unfold compose, Fs.inode_lock. split; [f_equal; lia|lia].
Qed.

Lemma not_free_false k : not_free k = false -> k = free_lock.
Proof. destruct k as [[] []]; by try done. Qed.

Lemma tidy_core_same c l : locks (tidy_core c) l = locks c l.
Proof.
  cbn [tidy_core locks]. destruct (list_find _ _) as [[i [l' k]]|] eqn:E.
  - apply list_find_Some in E as (Hi & <- & _). apply list_elem_of_lookup_2, list_elem_of_filter in Hi as [_ Hi].
    apply list_elem_of_fmap in Hi as (l & [= -> ->] & _). done.
  - destruct (is_fixed l) eqn:F; [|done]. symmetry. apply not_free_false. destruct (not_free (locks c l)) eqn:N; [|done]. exfalso.
    apply list_find_None in E. rewrite Forall_forall in E. apply (E (l, locks c l)); [|done].
    apply list_elem_of_filter. split; [done|]. apply list_elem_of_fmap. exists l. split; [done|by apply is_fixed_elem].
Qed.

(** ** The run *)

(** The files that the tests use; their contents do not matter to them. *)
Definition fs_img : list block :=
  image [(bytes_of_string "_echo", Some [bytes_of_string "echo"]); (bytes_of_string "README", Some [bytes_of_string "xv6"])].

(** The array [buf]; what it holds when a test begins does not matter to the test. *)
Definition test_buf : list Z := replicate (Z.to_nat sizeof_buf) 0.

(** The tests of one process in the order of [main], and [dirtest], which [main] does not call. *)
Definition tests : list (prog unit) :=
  [ bigwrite_of [970] test_buf; opentest; writetest_of 3; writetest1_of 2 test_buf; createtest_of 3; iputtest; rmdot; fourteen; bigfile_of 2;
    subdir; linktest; unlinkread test_buf; dirfile; iref_of 1; bigdir_of 2; dirtest ].

Fixpoint in_order (l : list (prog unit)) : prog unit :=
  match l with
  | [] => mret tt
  | t :: l => t;; in_order l
  end.

Definition setup : M kst (option unit) := boot;; run 100 init_console.
Definition usertests : M kst (option unit) := run 2000 (in_order tests).

(** What is looked at afterwards. *)
Definition screen_text (s : kst) : list Z := shown (lget (T := screen) s).
Definition held_locks (s : kst) : list lockid := filter (fun l => not_free (locks (lget (T := core) s) l) = true) fixed_locks.
Definition nesting (s : kst) : list Z := ncli <$> cpus (lget (T := core) s).
Definition pending (s : kst) : Z * Z := (Log.outstanding (snd (fst s)), Log.lh_n (snd (fst s))).
Definition inode_refs (s : kst) : list Z := (fun i => Fs.iref (Fs.inode_of (lget (T := Fs.icache) s) i)) <$> seq 0 Fs.NINODE.
Definition file_refs (s : kst) : list Z := (fun i => File.ref (File.file_of (lget (T := File.ftable) s) i)) <$> seq 0 File.NFILE.
Definition open_files (s : kst) : list (option nat) := ofile (getp (lget (T := core) s) 1).

(** On the disk: the bits of the bitmap and the inodes with a type. *)
Definition on_disk (s : kst) (n : Z) : block := sector (snd (snd (snd (fst (fst s))))) n.
Definition bits (b : Z) : nat := length (filter (fun i => Z.testbit b i = true) (seqZ 0 8)).
Definition used_blocks (s : kst) : nat := sum_list (bits <$> on_disk s (sb_bmapstart Mkfs.make_sb)).
Definition disk_type (s : kst) (n : Z) : Z := Fs.get16 (on_disk s (sb_inodestart Mkfs.make_sb + n / Fs.IPB)) (n `mod` Fs.IPB * 64).
Definition used_inodes (s : kst) : nat := length (filter (fun n => disk_type s n <> 0) (seqZ 1 199)).

Definition transcript : list string :=
  [ "bigwrite test"; "bigwrite ok"; "open test"; "open test ok";
    "small file test"; "creat small succeeded; ok"; "writes ok"; "open small succeeded ok"; "read succeeded ok"; "small file test ok";
    "big files test"; "big files ok"; "many creates, followed by unlink test"; "many creates, followed by unlink; ok";
    "iput test"; "iput test ok"; "rmdot test"; "rmdot ok"; "fourteen test"; "fourteen ok"; "bigfile test"; "bigfile test ok";
    "subdir test"; "subdir ok"; "linktest"; "linktest ok"; "unlinkread test"; "unlinkread ok"; "dir vs file"; "dir vs file OK";
    "empty file name"; "empty file name OK"; "bigdir test"; "bigdir ok"; "mkdir test"; "mkdir test ok" ]%string.
Definition line (s : string) : list Z := bytes_of_string s ++ [ch_nl].

(** The tests left nothing behind: the state before them and the state after. *)
Definition no_leak (s0 s : kst) : Prop :=
  held_locks s = [] /\ nesting s = [0] /\ pending s = (0, 0) /\ inode_refs s = inode_refs s0 /\ file_refs s = file_refs s0 /\
  open_files s = open_files s0 /\ used_blocks s = (used_blocks s0 + 3)%nat /\ used_inodes s = (used_inodes s0 + 4)%nat.
#[local] Instance no_leak_dec s0 s : Decision (no_leak s0 s).
Proof. unfold no_leak. repeat apply and_dec; solve_decision. Defined.

Definition passed (s0 s : kst) : Prop := screen_text s = concat (line <$> transcript) /\ no_leak s0 s.
#[local] Instance passed_dec s0 s : Decision (passed s0 s).
Proof. apply and_dec; [solve_decision|apply no_leak_dec]. Defined.

(** The outcome of the setup, then of the tests. *)
Definition verdict (o : outcome kst (option unit)) (f : M kst (option unit)) : bool :=
  match o with
  | Prelude.Ret (Some _) s0 => match f s0 with Prelude.Ret (Some _) s => @bool_decide (passed s0 s) (passed_dec s0 s) | _ => false end
  | _ => false
  end.

Lemma verdict_sound o f : verdict o f = true -> exists s0 s, o = Prelude.Ret (Some tt) s0 /\ f s0 = Prelude.Ret (Some tt) s /\ passed s0 s.
Proof.
  unfold verdict. destruct o as [[[]|] s0| | |]; try done. destruct (f s0) as [[[]|] s| | |] eqn:E; try done.
  intros H%bool_decide_eq_true. by exists s0, s.
Qed.

Lemma verdict_true : verdict (setup (start fs_img)) usertests = true.
Proof. vm_cast_no_check (eq_refl true). Qed.

(** The kernel passes tests of its own.  Booted from a disk that mkfs made, with the console opened
    the way [init] does, it runs the single-process tests of usertests.c (those with long loops
    with fewer turns) to the end: no panic, no waiting, no failed check, exactly the messages of
    success on the screen.  Afterwards every lock is free, no interrupt is held off, the log is
    empty, the reference counts of inodes and files and the open files are what they were, and
    the disk holds three blocks and four inodes more, those of the directories and the file that
    [fourteen] and [iref] leave. *)
Theorem usertests_pass : exists s0 s,
  setup (start fs_img) = Prelude.Ret (Some tt) s0 /\ usertests s0 = Prelude.Ret (Some tt) s /\
  screen_text s = concat (line <$> transcript) /\ no_leak s0 s.
Proof. exact (verdict_sound _ _ verdict_true). Qed.

End UsertestsRun.
